(* ===== verification/_CoqProject ===== *)
-Q . S2P
Prelude.v
Machine.v
Spinlock.v
CString.v
ProcTable.v
Proc.v
Lifecycle.v
Ready.v
Aging.v
ProcLemmas.v
Scheduler.v
Reach.v
Blocking.v
Family.v
Examples.v
Kstate.v
Sleeplock.v
Solo.v
Devices.v
Disk.v
Bio.v
Cache.v
Layout.v
Log.v
Crash.v
Transaction.v
Inode.v
Console.v
Kbd.v
Fs.v
Content.v
Txn.v
Alloc.v
Bmap.v
Writei.v
Icache.v
Namei.v
Mkfs.v
MkImage.v
MkRun.v
MkTree.v
Kalloc.v
File.v
Pipes.v
Vm.v
PageTable.v
AddrSpace.v
Grow.v
Env.v
Exec.v
Bootmain.v
Syscall.v
Args.v
Trap.v
Boot.v
X86.v
X86Lemmas.v
Paging.v
Swtch.v
Trapasm.v
Inline.v
Start.v
Ucode.v
BootAsm.v
User.v
Umalloc.v
Utils.v
Grep.v
Sh.v
ShRun.v
Usertests.v
TestsOk.v
KernelExamples.v
FsExamples.v
MkExamples.v
VmExamples.v
AsmExamples.v
BootExamples.v
