(* ===== verification/Prelude.v ===== *)
(** * xv6 with a multi-level feedback queue scheduler: verification library

    The program is a small Unix for the PC (files under src/files): a kernel
    with processes, a buffer cache, a logged file system and device drivers,
    user programs with a shell and an allocator.  Its scheduler keeps four
    ready queues, moves waiting processes up after a time (aging) and draws
    lots among the processes of the lowest one.

    ** How the code is modelled

    Integers are [Z] with the wrap-around of their C type written out (this
    file).  Kernel code is written in the resumption monad [M] of this file
    over explicit state: a run returns, panics, faults, or waits at a point
    where control leaves the thread ([Wait], with the continuation), which is
    where a lock is busy and where swtch() is called.  The process table with its queues
    is [pstate] (ProcTable.v, Proc.v), a record whose last part is the state
    of the other components; for the kernel that part is [kres] (Kstate.v).
    Null pointers are 0 or [None]; pointers into a static table are indices.
    Assembly code runs on a model of the processor (X86.v): registers, segments
    with their hidden base, control registers, a paging unit that walks the
    tables in physical memory, gates, the task state, and a function [step] for
    the instructions that occur.  A source is a list of labels, instructions
    and data, and [placed] says that it was assembled somewhere, whatever the
    lengths of its instructions; the code of C functions is not placed, a
    theorem says in which state they are called and from which it goes on.
    User programs are trees of system calls (User.v) run against a handler.

    ** Parts, files and sources

    - Machine.v, Spinlock.v, CString.v: registers, interrupt flag, segment
      descriptors (x86.h, mmu.h, proc.h); spinlock.c, with the interleavings
      of CPUs as a step relation; string.c and the string routines of ulib.c.
    - ProcTable.v, Proc.v, Lifecycle.v: proc.h and all of proc.c.  Ready.v,
      Aging.v, ProcLemmas.v, Scheduler.v, Reach.v, Blocking.v, Family.v prove
      its properties; Examples.v has tables reached from boot.
    - Kstate.v, Sleeplock.v, Solo.v: the state of the rest of the kernel,
      sleeplock.c, and threads that run without contention.
    - Devices.v, Disk.v: ioapic.c, picirq.c, lapic.c, uart.c as accesses to
      ports and registers; memide.c and ide.c as instances of the class [Disk].
    - Bio.v, Cache.v: bio.c and its proof.  Log.v, Crash.v, Transaction.v:
      log.c, its behaviour over crashes, and the state inside a transaction.
    - Layout.v, Inode.v, Fs.v: fs.h and fs.c.  Content.v, Txn.v, Alloc.v,
      Bmap.v, Writei.v: reading, allocation and writing, proved inside a
      transaction over the cache and the log.  Icache.v, Namei.v: the inode
      cache with its reference counts, directories and path names.
    - Mkfs.v: mkfs.c, a program of the host.  MkImage.v, MkRun.v, MkTree.v: the
      image while it is built, the finished one, and what the kernel finds on it.
    - Console.v, Kbd.v: console.c, kbd.c, kbd.h.  File.v, Pipes.v: file.c and
      pipe.c.  Env.v ties proc.c to these.
    - Kalloc.v, Vm.v: kalloc.c and vm.c.  PageTable.v: page tables in memory as
      the processor walks them.  AddrSpace.v, Grow.v: address spaces, their
      kernel half, their copies, and how they grow and shrink.
    - Exec.v, Syscall.v, Trap.v, Boot.v: exec.c, elf.h, syscall.c, sysproc.c,
      sysfile.c, trap.c, main.c, mp.c.  Args.v: the arguments of system calls.
      Bootmain.v: bootmain.c, with the ports of the disk.
    - X86.v, X86Lemmas.v: the processor, and running kernel code on it with flat
      segments and a mapped kernel ([kspace]).  Paging.v: the paging unit on the tables
      of vm.c.  Swtch.v: swtch.S.  Trapasm.v: vectors.pl and trapasm.S with
      the layout of trap frame and task state.  Inline.v: the functions of
      x86.h that load registers, as switchuvm() uses them.  Start.v: the first run of
      a process.  Ucode.v: usys.S, syscall.h and initcode.S.  BootAsm.v:
      bootasm.S, entry.S, entryother.S and asm.h.
    - User.v, Umalloc.v, Utils.v, Grep.v, Sh.v, ShRun.v: user.h, ulib.c,
      printf.c, umalloc.c, the small programs, grep.c, sh.c.  Usertests.v,
      TestsOk.v: usertests.c, with a calculus of postconditions for programs.
    - KernelExamples.v, FsExamples.v, MkExamples.v, VmExamples.v: kernel states
      at which the theorems on the kernel are applied.  AsmExamples.v,
      BootExamples.v: an assembler and machines for those on assembly code.

    ** What is proved

    - Scheduling: in every reachable table the queues hold exactly the
      runnable processes, a round takes from the highest queue that has one, aging moves
      a waiting process up, and the lottery branch breaks the queues.
    - Processes: fork, exit, wait, wait2, sleep, wakeup and kill on
      every branch; no wake-up is lost; spin locks exclude each other.
    - Storage: the cache shows the disk and evicts the least recently used
      buffer; commit is atomic for a crash at any of its writes, and so is
      recovery; log_write keeps the transaction; balloc, readi, writei and
      the round trip of writei and readi.  namei follows the components of a
      path and leaks no reference.
    - From the host to the kernel: mkfs leaves a well-formed file system, on
      which namei finds every file under its name and readi returns its
      contents.  From the hand-over of the BIOS the boot sector reaches
      protected mode, bootmain() puts every segment of the kernel in place,
      entry turns on paging and jumps to main(), and the other processors that
      startothers() wakes reach mpenter().
    - Between C code and user code: a trap brings every register of user code
      to trap() and back, with the tables that tvinit(), seginit() and
      switchuvm() made and the instructions of switchuvm() load; swtch resumes
      a thread where it was suspended; a new process enters user mode
      with the registers of its frame; every stub of a system call reaches the
      function of its name; the first program asks for /init.
    - Memory: the page allocator and the user allocator keep their lists and
      return memory that nobody else has; the size computation of malloc wraps.
      mappages, setupkvm, allocuvm, deallocuvm and copyuvm change just the
      translations they should, as the processor would see them, give back all
      memory when they fail, and share no frame between parent and child.
      On the paging unit user code reaches the frames of its own pages only,
      never the kernel, and the text of the kernel is read-only.
      The arguments of system calls are read without a fault, whatever they are.
    - Pipes refine bounded queues.  The shell parses every printed command
      back and connects the programs as the command says.  grep agrees with
      the language of its expressions, wc counts, atoi reads what printf wrote.
    - The regression tests stay inside their arrays on every kernel that keeps
      to the interface; one of them accepts a file that is truncated.

    ** Bounds and fuel

    The class [Fuel] gives the number of rounds of loops whose end depends on
    other threads or on hardware; running out is the outcome [NoFuel], which
    no theorem takes for a result.  Assembly code runs for a number of
    steps that the theorem gives or shows to exist.  Loops over tables carry the size of the table and
    loops over data its length, which are enough, as the theorems about them
    show.  A program that never ends is [Endless].

    ** What is a parameter

    The values hardware returns on reads ([Hw]; for the boot loader the
    documented protocol of the disk, [ata_disk], and a keyboard controller that
    becomes ready), whether a push of a segment register writes two bytes or four
    ([Cpu]), where the assembler and the linker put labels and addresses
    ([Link], with what kernel.ld fixes of them in [link_ok]), and in proc.c the routines of other components ([ProcEnv], with
    the laws fork and exit rely on in [QuietEnv]; Env.v gives the kernel's own
    instance).  Storage theorems are over the disk in memory, memide.c; the
    thread runs without contention ([solo]).

    ** What is not modelled

    Headers that only declare (defs.h, types.h).  The machine code of C
    functions: a theorem about assembly code that calls one assumes of it what
    a compiler's calling convention and the C code give, in a record of its own
    ([trap_returned], [forkret_returned]).  The encoding of instructions, the
    segment limits, which are all 4 GB, and the caches of the processor.  The
    busy loops of the scheduler tests compute nothing and are left out. *)

From Stdlib Require Export ZArith Lia.
From stdpp Require Export base numbers strings gmap list.

Open Scope Z_scope.

(** ** Machine integers

    [uint], [int], [ushort], [short], [uchar] and [char] of the C sources are
    kept as [Z]; every operation that can leave the range of its type is
    wrapped with the matching function below.  Conversions to a signed type
    wrap around, as gcc compiles them. *)

Definition u8 (z : Z) : Z := z mod 2 ^ 8.
Definition u16 (z : Z) : Z := z mod 2 ^ 16.
Definition u32 (z : Z) : Z := z mod 2 ^ 32.
Definition s8 (z : Z) : Z := (z + 2 ^ 7) mod 2 ^ 8 - 2 ^ 7.
Definition s16 (z : Z) : Z := (z + 2 ^ 15) mod 2 ^ 16 - 2 ^ 15.
Definition s32 (z : Z) : Z := (z + 2 ^ 31) mod 2 ^ 32 - 2 ^ 31.

(** ** Record update

    [r <| f := v |>] is [r] with field [f] replaced and [r <| f ::= g |>] is
    [r] with [g] applied to field [f].  A record type gives its eta expansion
    once; the update of a field is derived from it. *)

Class Eta (R : Type) := eta : R → R.
Class Update {R T : Type} (proj : R → T) := update : (T → T) → R → R.
Arguments update {R T} proj {_} / _ _.

Ltac derive_update proj :=
  match type of proj with
  | ?R → ?T =>
      let inst := constr:(_ : Eta R) in
      let e := eval hnf in inst in
      match eval pattern proj in e with
      | ?body proj =>
          lazymatch body with
          | (fun _ => ?b) => fail
          | _ => exact (fun (f : T → T) => body (fun r => f (proj r)))
          end
      end
  end.
#[export] Hint Extern 1 (@Update _ _ ?proj) => derive_update proj : typeclass_instances.

Declare Scope record_scope.
Delimit Scope record_scope with record.
Open Scope record_scope.
Notation "r <| f := v |>" := (@update _ _ f _ (fun _ => v) r)
  (at level 1, left associativity, f at next level, v at level 200,
   format "r  <| f  :=  v |>") : record_scope.
Notation "r <| f ::= g |>" := (@update _ _ f _ g r)
  (at level 1, left associativity, f at next level, g at level 200,
   format "r  <| f  ::=  g |>") : record_scope.

(** ** Kernel computations

    A kernel routine runs on a state [S] and ends in one of five ways:
    - [Ret a s]: it returns [a] in state [s];
    - [Panic msg]: it calls [panic(msg)], which never returns;
    - [Fault]: it reads or writes outside an array or through a null pointer;
    - [NoFuel]: a loop that waits for another agent used up its bound;
    - [Wait w s k]: it gives up the processor (or spins) in state [s] for the
      reason [w]; other agents run, and the routine goes on as [k s'] in the
      state [s'] it finds when it is resumed. *)

Inductive reason :=
| Spin (lk : Z)               (** busy-waiting for the spin lock at address [lk] *)
| SwtchTo (p : nat)           (** swtch() from scheduler() to process [p] *)
| SwtchSched.                 (** swtch() from a process to its CPU's scheduler *)

Inductive out (S A : Type) : Type :=
| Ret (a : A) (s : S)
| Panic (msg : string)
| Fault
| NoFuel
| Wait (w : reason) (s : S) (k : S → out S A).
Arguments Ret {S A} _ _.
Arguments Panic {S A} _.
Arguments Fault {S A}.
Arguments NoFuel {S A}.
Arguments Wait {S A} _ _ _.

Definition M (S A : Type) : Type := S → out S A.

Fixpoint obind {S A B} (o : out S A) (f : A → M S B) : out S B :=
  match o with
  | Ret a s => f a s
  | Panic msg => Panic msg
  | Fault => Fault
  | NoFuel => NoFuel
  | Wait w s k => Wait w s (fun s' => obind (k s') f)
  end.

Definition ret {S A} (a : A) : M S A := fun s => Ret a s.
Definition bind {S A B} (m : M S A) (f : A → M S B) : M S B := fun s => obind (m s) f.

Declare Scope kernel_scope.
Delimit Scope kernel_scope with kernel.
Open Scope kernel_scope.
Notation "x <- m ;; k" := (bind m (fun x => k))
  (at level 100, m at next level, right associativity) : kernel_scope.
Notation "m ;;; k" := (bind m (fun _ => k))
  (at level 100, right associativity) : kernel_scope.

Section operations.
Context {S : Type}.

Definition panic {A} (msg : string) : M S A := fun _ => Panic msg.
Definition fault {A} : M S A := fun _ => Fault.
Definition gets {A} (f : S → A) : M S A := fun s => Ret (f s) s.
Definition modify (f : S → S) : M S unit := fun s => Ret tt (f s).
Definition suspend (w : reason) : M S unit := fun s => Wait w s (fun s' => Ret tt s').

(** An access that the C language leaves undefined when it is out of range. *)
Definition try_get {A} (f : S → option A) : M S A :=
  fun s => match f s with Some a => Ret a s | None => Fault end.
Definition try_modify (f : S → option S) : M S unit :=
  fun s => match f s with Some s' => Ret tt s' | None => Fault end.

(** Run a routine of a component on the part of the state the component owns. *)
Fixpoint ozoom {T A} (set : T → S → S) (get : S → T) (s : S) (o : out T A) : out S A :=
  match o with
  | Ret a t => Ret a (set t s)
  | Panic msg => Panic msg
  | Fault => Fault
  | NoFuel => NoFuel
  | Wait w t k => Wait w (set t s) (fun s' => ozoom set get s' (k (get s')))
  end.
Definition zoom {T A} (get : S → T) (set : T → S → S) (m : M T A) : M S A :=
  fun s => ozoom set get s (m (get s)).

(** [while(c) body;] for a loop whose body waits for other agents: at most
    [n] iterations, [NoFuel] beyond.  Leaving the loop costs no fuel. *)
Fixpoint while (n : nat) (c : M S bool) (body : M S unit) : M S unit :=
  b <- c ;;
  if b : bool then
    match n with
    | O => fun _ => NoFuel
    | Datatypes.S n' => body ;;; while n' c body
    end
  else ret tt.

(** [for(i = lo; i < lo + n; i++) body(i);] *)
Fixpoint for_range (lo n : nat) (body : nat → M S unit) : M S unit :=
  match n with
  | O => ret tt
  | Datatypes.S n' => body lo ;;; for_range (Datatypes.S lo) n' body
  end.
End operations.

(** The bound on the number of times one waiting loop goes to sleep or spins. *)
Class Fuel := fuel : nat.

(** ** Total correctness: [m] run in [s] returns, and [Q] holds of what it returns *)

Definition runs {S A} (m : M S A) (s : S) (Q : A → S → Prop) : Prop :=
  ∃ a s', m s = Ret a s' ∧ Q a s'.

Section runs.
Context {S : Type}.
Implicit Types s : S.

Lemma runs_ret {A} (a : A) s (Q : A → S → Prop) : Q a s → runs (ret a) s Q.
Proof. intros. exists a, s. done. Qed.

Lemma runs_bind {A B} (m : M S A) (f : A → M S B) s Q :
  runs m s (fun a s' => runs (f a) s' Q) → runs (bind m f) s Q.
Proof.
  intros (a & s' & Hm & b & s'' & Hf & HQ). exists b, s''. split; [|done].
  unfold bind. by rewrite Hm.
Qed.

Lemma runs_mono {A} (m : M S A) s (Q Q' : A → S → Prop) :
  runs m s Q → (∀ a s', Q a s' → Q' a s') → runs m s Q'.
Proof. intros (a & s' & Hm & Ha) HQ. exists a, s'. eauto. Qed.

Lemma bind_ret {A B} (m : M S A) (f : A → M S B) s a s' :
  m s = Ret a s' → bind m f s = f a s'.
Proof. intros H. unfold bind. by rewrite H. Qed.

Lemma runs_for_range (body : nat → M S unit) (I : nat → S → Prop) lo n s :
  I lo s →
  (∀ i s, lo ≤ i < lo + n → I i s → runs (body i) s (fun _ => I (i + 1)))%nat →
  runs (for_range lo n body) s (fun _ => I (lo + n)%nat).
Proof.
  revert lo s. induction n as [|n IH]; intros lo s HI Hb; simpl.
  - apply runs_ret. by rewrite Nat.add_0_r.
  - apply runs_bind. eapply runs_mono; [apply Hb; [lia|done]|].
    intros [] s' HI'. replace (lo + Datatypes.S n)%nat with (Datatypes.S lo + n)%nat by lia.
    apply IH; [by replace (Datatypes.S lo) with (lo + 1)%nat by lia|].
    intros i t Hi. apply Hb. lia.
Qed.
End runs.

(** ** Lists as arrays *)

Section lists.
Context {A : Type}.
Implicit Types l : list A.

(** Removing position [i], the effect of moving the tail down by one. *)
Definition remove_nth (i : nat) l : list A := take i l ++ drop (S i) l.

Lemma length_remove_nth i l : (i < length l)%nat → length (remove_nth i l) = (length l - 1)%nat.
Proof. intros. unfold remove_nth. rewrite length_app, length_take, length_drop. lia. Qed.

Lemma remove_nth_perm i l x : l !! i = Some x → l ≡ₚ x :: remove_nth i l.
Proof.
  intros H. unfold remove_nth. rewrite <- (take_drop_middle l i x H) at 1.
  symmetry. apply Permutation_middle.
Qed.

Lemma elem_of_remove_nth i l x y :
  NoDup l → l !! i = Some x → y ∈ remove_nth i l ↔ y ∈ l ∧ y ≠ x.
Proof.
  intros Hnd Hi. pose proof (remove_nth_perm _ _ _ Hi) as HP.
  assert (y ∈ l ↔ y ∈ x :: remove_nth i l) as -> by (by rewrite <- HP).
  rewrite HP in Hnd. apply NoDup_cons in Hnd as [Hni _].
  rewrite elem_of_cons. split; [|intros [[->|?] ?]; done].
  intros Hy. split; [by right|]. intros ->. done.
Qed.

Lemma NoDup_remove_nth i l : NoDup l → NoDup (remove_nth i l).
Proof.
  intros Hnd. destruct (l !! i) as [x|] eqn:Hi.
  - rewrite (remove_nth_perm _ _ _ Hi) in Hnd. by apply NoDup_cons in Hnd as [_ ?].
  - apply lookup_ge_None in Hi. unfold remove_nth.
    rewrite take_ge, drop_ge, app_nil_r by lia. done.
Qed.
End lists.

(** A duplicate-free list of numbers below [n] that misses one of them is
    shorter than [n]. *)
Lemma NoDup_below_length (l : list nat) (n i : nat) :
  NoDup l → (∀ j, j ∈ l → (j < n)%nat) → (i < n)%nat → i ∉ l → (length l < n)%nat.
Proof.
  intros Hnd Hb Hi Hni.
  assert (length (i :: l) ≤ length (seq 0 n))%nat as Hlen.
  { apply submseteq_length, NoDup_submseteq; [by constructor|].
    intros j. rewrite elem_of_cons, elem_of_seq. intros [->|Hj%Hb]; lia. }
  simpl in Hlen. rewrite length_seq in Hlen. lia.
Qed.

(** ** Automation *)

Create HintDb xv6 discriminated.
Create Rewrite HintDb len.
Create Rewrite HintDb links.
#[export] Hint Resolve NoDup_remove_nth : xv6.
#[export] Hint Rewrite @length_insert @length_app @length_take @length_drop
  @length_replicate @length_alter : len.

(** Turn boolean tests of the code into the propositions they decide. *)
Ltac breflect :=
  repeat match goal with
  | H : (_ && _)%bool = true |- _ => apply andb_true_iff in H as [? ?]
  | H : (_ || _)%bool = false |- _ => apply orb_false_iff in H as [? ?]
  | H : (_ =? _) = true |- _ => apply Z.eqb_eq in H
  | H : (_ =? _) = false |- _ => apply Z.eqb_neq in H
  | H : (_ <? _) = true |- _ => apply Z.ltb_lt in H
  | H : (_ <? _) = false |- _ => apply Z.ltb_ge in H
  | H : (_ <=? _) = true |- _ => apply Z.leb_le in H
  | H : (_ <=? _) = false |- _ => apply Z.leb_gt in H
  | H : bool_decide _ = true |- _ => apply bool_decide_eq_true in H
  | H : bool_decide _ = false |- _ => apply bool_decide_eq_false in H
  | H : negb _ = true |- _ => apply negb_true_iff in H
  | H : negb _ = false |- _ => apply negb_false_iff in H
  end.

(** Case analysis on the innermost test of the goal, with the test reflected. *)
Ltac split_if :=
  match goal with
  | |- context [if ?b then _ else _] =>
      lazymatch b with
      | context [if _ then _ else _] => fail
      | _ => let E := fresh "Hif" in destruct b eqn:E; breflect
      end
  end.
