(* ===== verification/Machine.v ===== *)
(** * The machine: constants, per-CPU state, segment descriptors

    What param.h, mmu.h, memlayout.h and proc.h say of the processor: the
    interrupt flag, the per-CPU structure [struct cpu], segment descriptors,
    and the routines of proc.c and vm.c that find and set up the current CPU.
    The stateful routines run on [mach], the state shared by all kernel code:
    the flags register and local APIC id of the processor that executes, the
    table of CPUs, and the spin locks by address. *)

From S2P Require Import Prelude.

(** ** param.h *)

Definition NPROC : nat := 64.
Definition KSTACKSIZE : Z := 4096.
Definition NCPU : Z := 8.
Definition NOFILE : nat := 16.
Definition INTERV : Z := 10.
Definition NUMFILAS : nat := 4.
Definition PRIO : Z := 1.
Definition T1TO2 : Z := 200.
Definition T2TO3 : Z := 150.
Definition T3TO4 : Z := 100.

(** ** mmu.h: flags, selectors, segment descriptors *)

Definition FL_IF : Z := 0x200.
Definition SEG_KCODE : nat := 1.
Definition SEG_KDATA : nat := 2.
Definition SEG_UCODE : nat := 3.
Definition SEG_UDATA : nat := 4.
Definition SEG_TSS : nat := 5.
Definition NSEGS : nat := 6.
Definition DPL_USER : Z := 3.
Definition STA_X : Z := 0x8.
Definition STA_W : Z := 0x2.
Definition STA_R : Z := 0x2.
Definition STS_T32A : Z := 0x9.

(** ** memlayout.h *)

Definition EXTMEM : Z := 0x100000.
Definition PHYSTOP : Z := 0xE000000.
Definition DEVSPACE : Z := 0xFE000000.
Definition KERNBASE : Z := 0x80000000.
Definition KERNLINK : Z := KERNBASE + EXTMEM.
Definition V2P (a : Z) : Z := u32 (a - KERNBASE).
Definition P2V (a : Z) : Z := u32 (a + KERNBASE).

Record segdesc := mk_segdesc {
  lim_15_0 : Z; base_15_0 : Z; base_23_16 : Z; seg_type : Z; seg_s : Z;
  seg_dpl : Z; seg_p : Z; lim_19_16 : Z; avl : Z; rsv1 : Z; db : Z; g : Z;
  base_31_24 : Z }.
#[export] Instance segdesc_eta : Eta segdesc := fun r =>
  mk_segdesc (lim_15_0 r) (base_15_0 r) (base_23_16 r) (seg_type r) (seg_s r)
    (seg_dpl r) (seg_p r) (lim_19_16 r) (avl r) (rsv1 r) (db r) (g r) (base_31_24 r).

Definition null_segdesc : segdesc := mk_segdesc 0 0 0 0 0 0 0 0 0 0 0 0 0.

(** The macros [SEG] and [SEG16]; [lim_19_16] is a 4-bit field. *)
Definition SEG (type base lim dpl : Z) : segdesc :=
  mk_segdesc (Z.land (Z.shiftr lim 12) 0xffff) (Z.land base 0xffff)
    (Z.land (Z.shiftr base 16) 0xff) type 1 dpl 1
    (Z.land (Z.shiftr lim 28) 0xf) 0 0 1 1 (Z.shiftr base 24).
Definition SEG16 (type base lim dpl : Z) : segdesc :=
  mk_segdesc (Z.land lim 0xffff) (Z.land base 0xffff)
    (Z.land (Z.shiftr base 16) 0xff) type 1 dpl 1
    (Z.land (Z.shiftr lim 16) 0xf) 0 0 1 0 (Z.shiftr base 24).

(** The fields of [struct taskstate] that the kernel sets. *)
Record taskstate := mk_taskstate { ss0 : Z; esp0 : Z; iomb : Z }.
#[export] Instance taskstate_eta : Eta taskstate := fun r =>
  mk_taskstate (ss0 r) (esp0 r) (iomb r).

(** ** proc.h: per-CPU state

    [cpu_proc] is [c->proc], an index of the process table or null; [gdt],
    [ts] and [cr3] are the descriptor table, task state and page-table base
    the CPU runs with. *)
Record cpu := mk_cpu {
  apicid : Z; started : Z; ncli : Z; intena : Z; cpu_proc : option nat;
  gdt : list segdesc; ts : taskstate; tr : Z; cr3 : Z }.
#[export] Instance cpu_eta : Eta cpu := fun c =>
  mk_cpu (apicid c) (started c) (ncli c) (intena c) (cpu_proc c) (gdt c) (ts c) (tr c) (cr3 c).

(** ** spinlock.h: [struct spinlock] without the debugging [pcs] *)
Record spinlock := mk_spinlock { locked : Z; lk_name : string; lk_cpu : option nat }.
#[export] Instance spinlock_eta : Eta spinlock := fun l =>
  mk_spinlock (locked l) (lk_name l) (lk_cpu l).

Record mach := mk_mach {
  eflags : Z; lapicid : Z; ncpu : Z; cpus : list cpu; locks : gmap Z spinlock }.
#[export] Instance mach_eta : Eta mach := fun m =>
  mk_mach (eflags m) (lapicid m) (ncpu m) (cpus m) (locks m).

(** ** x86.h: the flags register *)

Definition readeflags : M mach Z := gets eflags.
Definition cli : M mach unit := modify (fun m => m <| eflags ::= fun e => Z.ldiff e FL_IF |>).
Definition sti : M mach unit := modify (fun m => m <| eflags ::= fun e => Z.lor e FL_IF |>).

(** Interrupts are enabled on the executing processor. *)
Definition if_on (m : mach) : bool := negb (Z.land (eflags m) FL_IF =? 0).

(** ** proc.c: the current CPU

    The loop of [mycpu] over the first [ncpu] entries. *)
Fixpoint find_apicid (id : Z) (cs : list cpu) (i : nat) : option nat :=
  match cs with
  | [] => None
  | c :: cs' => if apicid c =? id then Some i else find_apicid id cs' (S i)
  end.

Definition mycpu : M mach nat :=
  e <- readeflags ;;
  if negb (Z.land e FL_IF =? 0) then panic "mycpu called with interrupts enabled"
  else m <- gets id ;;
    match find_apicid (lapicid m) (take (Z.to_nat (ncpu m)) (cpus m)) 0 with
    | Some i => ret i
    | None => panic "unknown apicid"
    end.

(** [mycpu()-cpus]: a pointer into [cpus] is its index. *)
Definition cpuid : M mach Z := c <- mycpu ;; ret (Z.of_nat c).

(** Field access through the pointer [mycpu()] returns. *)
Definition cpu_get (i : nat) : M mach cpu := try_get (fun m => cpus m !! i).
Definition cpu_set (i : nat) (f : cpu → cpu) : M mach unit :=
  modify (fun m => m <| cpus ::= alter f i |>).

(** ** vm.c: [seginit] *)
Definition seginit : M mach unit :=
  i <- cpuid ;;
  cpu_set (Z.to_nat i) (fun c => c <| gdt ::= fun d =>
    <[SEG_UDATA := SEG STA_W 0 0xffffffff DPL_USER]>
    (<[SEG_UCODE := SEG (Z.lor STA_X STA_R) 0 0xffffffff DPL_USER]>
    (<[SEG_KDATA := SEG STA_W 0 0xffffffff 0]>
    (<[SEG_KCODE := SEG (Z.lor STA_X STA_R) 0 0xffffffff 0]> d))) |>).

(** ** Well-formed machine states: the executing processor is one of the CPUs *)

Definition self (m : mach) : option nat :=
  find_apicid (lapicid m) (take (Z.to_nat (ncpu m)) (cpus m)) 0.

Lemma find_apicid_bound id cs i j :
  find_apicid id cs i = Some j → (i ≤ j < i + length cs)%nat.
Proof.
  revert i. induction cs as [|c cs IH]; intros i; simpl; [done|].
  split_if; [intros [= <-]; lia|]. intros ?%IH. lia.
Qed.

Lemma find_apicid_lookup id cs i j :
  find_apicid id cs i = Some j → ∃ c, cs !! (j - i)%nat = Some c ∧ apicid c = id.
Proof.
  revert i. induction cs as [|c cs IH]; intros i; simpl; [done|].
  split_if; [intros [= <-]; rewrite Nat.sub_diag; eauto|].
  intros Hf. pose proof (find_apicid_bound _ _ _ _ Hf). apply IH in Hf as (c' & Hc & ?).
  exists c'. split; [|done]. replace (j - i)%nat with (S (j - S i)) by lia. done.
Qed.

Lemma self_lookup m i : self m = Some i → ∃ c, cpus m !! i = Some c.
Proof.
  intros (c & Hc & _)%find_apicid_lookup. rewrite Nat.sub_0_r in Hc.
  exists c. by apply lookup_take_Some in Hc as [? _].
Qed.

Lemma mycpu_ret m i : if_on m = false → self m = Some i → mycpu m = Ret i m.
Proof.
  unfold if_on, self. intros Hif Hs. breflect. unfold mycpu, bind, readeflags, gets. simpl.
  rewrite Hif. simpl. by rewrite Hs.
Qed.

Lemma mycpu_panics_if_on m : if_on m = true → ∃ msg, mycpu m = Panic msg.
Proof.
  unfold if_on. intros H. unfold mycpu, bind, readeflags, gets. simpl. rewrite H. eauto.
Qed.

Lemma find_apicid_ext id cs cs' i :
  apicid <$> cs = apicid <$> cs' → find_apicid id cs i = find_apicid id cs' i.
Proof.
  revert cs' i. induction cs as [|c cs IH]; intros [|c' cs'] i; try done.
  simpl. intros [= Hc Hcs]. rewrite Hc. destruct (apicid c' =? id); [done|by apply IH].
Qed.

(** [self] reads only the APIC ids. *)
Lemma self_ext m m' :
  lapicid m = lapicid m' → ncpu m = ncpu m' → apicid <$> cpus m = apicid <$> cpus m' → self m = self m'.
Proof.
  intros H1 H2 H. unfold self. rewrite H1, H2. apply find_apicid_ext. by rewrite !fmap_take, H.
Qed.

Lemma apicids_alter f k (cs : list cpu) :
  (∀ c, apicid (f c) = apicid c) → apicid <$> alter f k cs = apicid <$> cs.
Proof.
  intros Hf. revert k. induction cs as [|c cs IH]; intros [|k]; [done|done| |].
  - simpl. by rewrite Hf.
  - simpl. f_equal. apply IH.
Qed.
Create Rewrite HintDb apic.
#[export] Hint Rewrite apicids_alter using done : apic.

Lemma self_alter m f k :
  (∀ c, apicid (f c) = apicid c) → self (m <| cpus ::= alter f k |>) = self m.
Proof. intros Hf. apply self_ext; [done|done|by apply apicids_alter]. Qed.

Lemma if_on_land e : negb (Z.land (Z.ldiff e FL_IF) FL_IF =? 0) = false.
Proof.
  apply negb_false_iff, Z.eqb_eq, Z.bits_inj'. intros n Hn.
  rewrite Z.land_spec, Z.ldiff_spec, Z.bits_0. by destruct (Z.testbit e n), (Z.testbit FL_IF n).
Qed.

Lemma if_on_lor e : negb (Z.land (Z.lor e FL_IF) FL_IF =? 0) = true.
Proof.
  apply negb_true_iff, Z.eqb_neq. intros H. apply (f_equal (fun z => Z.testbit z 9)) in H.
  rewrite Z.land_spec, Z.lor_spec in H. unfold FL_IF in H. simpl in H.
  by rewrite orb_true_r in H.
Qed.
