(* ===== verification/Spinlock.v ===== *)
(** * Spin locks (spinlock.c)

    [pushcli]/[popcli] nesting, [holding], [acquire] and [release] on the
    machine state.  A lock is named by its address.  The busy-wait of [acquire]
    is a [while] loop whose body waits for other CPUs. *)

From S2P Require Import Prelude Machine.

(** ** Operations *)

Definition lock_get (lk : Z) : M mach spinlock := try_get (fun m => locks m !! lk).
Definition lock_set (lk : Z) (f : spinlock → spinlock) : M mach unit :=
  modify (fun m => m <| locks ::= alter f lk |>).

(** [initlock] on memory that becomes a lock. *)
Definition initlock (lk : Z) (name : string) : M mach unit :=
  modify (fun m => m <| locks ::= <[lk := mk_spinlock 0 name None]> |>).

Definition pushcli : M mach unit :=
  e <- readeflags ;;
  cli ;;;
  i <- mycpu ;; c <- cpu_get i ;;
  (if ncli c =? 0 then
     j <- mycpu ;; cpu_set j (fun c => c <| intena := Z.land e FL_IF |>)
   else ret tt) ;;;
  j <- mycpu ;; cpu_set j (fun c => c <| ncli ::= fun n => n + 1 |>).

Definition popcli : M mach unit :=
  e <- readeflags ;;
  if negb (Z.land e FL_IF =? 0) then panic "popcli - interruptible"
  else
    i <- mycpu ;;
    cpu_set i (fun c => c <| ncli ::= fun n => n - 1 |>) ;;;
    c <- cpu_get i ;;
    if ncli c <? 0 then panic "popcli"
    else
      j <- mycpu ;; c <- cpu_get j ;;
      if (ncli c =? 0) && negb (intena c =? 0) then sti else ret tt.

(** [lk->cpu == mycpu()] on CPU indices. *)
Definition same_cpu (o : option nat) (i : nat) : bool := bool_decide (o = Some i).

Definition holding (lk : Z) : M mach bool :=
  pushcli ;;;
  l <- lock_get lk ;;
  r <- (if negb (locked l =? 0) then i <- mycpu ;; ret (same_cpu (lk_cpu l) i)
        else ret false) ;;
  popcli ;;;
  ret r.

Definition xchg (lk v : Z) : M mach Z :=
  l <- lock_get lk ;;
  lock_set lk (fun l => l <| locked := v |>) ;;;
  ret (locked l).

Definition acquire `{Fuel} (lk : Z) : M mach unit :=
  pushcli ;;;
  h <- holding lk ;;
  if h : bool then panic "acquire"
  else
    while fuel (r <- xchg lk 1 ;; ret (negb (r =? 0))) (suspend (Spin lk)) ;;;
    i <- mycpu ;;
    lock_set lk (fun l => l <| lk_cpu := Some i |>).

Definition release (lk : Z) : M mach unit :=
  h <- holding lk ;;
  if negb h then panic "release"
  else
    lock_set lk (fun l => l <| lk_cpu := None |>) ;;;
    lock_set lk (fun l => l <| locked := 0 |>) ;;;
    popcli.

(** ** What the operations do *)

Definition push_cpu (e : Z) (c : cpu) : cpu :=
  (if ncli c =? 0 then c <| intena := Z.land e FL_IF |> else c) <| ncli ::= fun n => n + 1 |>.

Definition pushed (i : nat) (m : mach) : mach :=
  m <| eflags ::= fun e => Z.ldiff e FL_IF |> <| cpus ::= alter (push_cpu (eflags m)) i |>.

Definition popped (i : nat) (c : cpu) (m : mach) : mach :=
  let m' := m <| cpus ::= alter (fun c => c <| ncli ::= fun n => n - 1 |>) i |> in
  if (ncli c =? 1) && negb (intena c =? 0)
  then m' <| eflags ::= fun e => Z.lor e FL_IF |> else m'.

Lemma push_cpu_apicid e c : apicid (push_cpu e c) = apicid c.
Proof. unfold push_cpu. by split_if. Qed.

Lemma self_pushed i m : self (pushed i m) = self m.
Proof.
  unfold pushed. rewrite self_alter; [done|apply push_cpu_apicid].
Qed.

Lemma if_on_pushed i m : if_on (pushed i m) = false.
Proof. apply if_on_land. Qed.

Lemma pushcli_ret m i : self m = Some i → pushcli m = Ret tt (pushed i m).
Proof.
  intros Hs. destruct (self_lookup _ _ Hs) as [c Hc].
  unfold pushcli, bind at 1, readeflags, gets. simpl.
  unfold bind at 1, cli, modify. simpl.
  set (m1 := mk_mach (Z.ldiff (eflags m) FL_IF) (lapicid m) (ncpu m) (cpus m) (locks m)).
  assert (if_on m1 = false) as Hif by apply if_on_land.
  assert (self m1 = Some i) as Hs1 by done.
  erewrite bind_ret by (by apply mycpu_ret).
  erewrite bind_ret by (unfold cpu_get, try_get; simpl; by rewrite Hc).
  destruct (ncli c =? 0) eqn:Hn; breflect.
  - erewrite bind_ret; [|erewrite bind_ret by (by apply mycpu_ret); reflexivity].
    erewrite bind_ret; [|apply mycpu_ret; [done|by rewrite self_alter]].
    unfold cpu_set, modify, pushed, m1. simpl. do 2 f_equal.
    rewrite list_alter_alter_eq. apply list_alter_ext; [|done].
    intros c' Hc'. rewrite Hc in Hc'. simplify_eq. unfold push_cpu, compose. simpl.
    by rewrite Hn.
  - rewrite (bind_ret _ _ _ tt m1) by done.
    erewrite bind_ret by (by apply mycpu_ret).
    unfold cpu_set, modify, pushed, m1. simpl. do 2 f_equal.
    apply list_alter_ext; [|done].
    intros c' Hc'. rewrite Hc in Hc'. simplify_eq. unfold push_cpu.
    destruct (Z.eqb_spec (ncli c') 0); done.
Qed.

Lemma popcli_ret m i c :
  self m = Some i → if_on m = false → cpus m !! i = Some c → 1 ≤ ncli c →
  popcli m = Ret tt (popped i c m).
Proof.
  intros Hs Hif Hc Hn. unfold popcli, bind at 1, readeflags, gets. simpl.
  pose proof Hif as Hif'. unfold if_on in Hif'. rewrite Hif'.
  erewrite bind_ret by (by apply mycpu_ret).
  set (m1 := m <| cpus ::= alter (fun c => c <| ncli ::= fun n => n - 1 |>) i |>).
  rewrite (bind_ret _ _ _ tt m1) by done.
  assert (cpus m1 !! i = Some (c <| ncli ::= fun n => n - 1 |>)) as Hc1.
  { subst m1. simpl. by rewrite list_lookup_alter_eq, Hc. }
  assert (self m1 = Some i) as Hs1 by (subst m1; rewrite self_alter; done).
  rewrite (bind_ret _ _ _ (c <| ncli ::= fun n => n - 1 |>) m1)
    by (unfold cpu_get, try_get; by rewrite Hc1).
  simpl. split_if; [lia|].
  erewrite bind_ret by (by apply mycpu_ret).
  rewrite (bind_ret _ _ _ (c <| ncli ::= fun n => n - 1 |>) m1)
    by (unfold cpu_get, try_get; by rewrite Hc1).
  simpl. unfold popped. fold m1.
  replace (ncli c - 1 =? 0) with (ncli c =? 1) by (destruct (Z.eqb_spec (ncli c) 1), (Z.eqb_spec (ncli c - 1) 0); lia).
  destruct ((ncli c =? 1) && negb (intena c =? 0)); done.
Qed.

(** The executing processor is CPU [i] with state [c], and interrupts are off
    while [pushcli] calls are outstanding. *)
Record mach_ok (m : mach) (i : nat) (c : cpu) : Prop := {
  ok_self : self m = Some i;
  ok_cpu : cpus m !! i = Some c;
  ok_ncli : 0 ≤ ncli c;
  ok_if : 0 < ncli c → if_on m = false }.
#[export] Hint Resolve ok_self ok_cpu ok_ncli ok_if : xv6.

Definition sync_cpu (e : Z) (c : cpu) : cpu :=
  if ncli c =? 0 then c <| intena := Z.land e FL_IF |> else c.
Definition synced (i : nat) (m : mach) : mach :=
  m <| cpus ::= alter (sync_cpu (eflags m)) i |>.

Lemma ldiff_off e : Z.land e FL_IF = 0 → Z.ldiff e FL_IF = e.
Proof.
  intros H. apply Z.bits_inj'. intros n Hn. rewrite Z.ldiff_spec.
  apply (f_equal (fun z => Z.testbit z n)) in H. rewrite Z.land_spec, Z.bits_0 in H.
  by destruct (Z.testbit e n), (Z.testbit FL_IF n).
Qed.

Lemma FL_IF_bit n : 0 ≤ n → Z.testbit FL_IF n = (n =? 9).
Proof. intros Hn. change FL_IF with (2 ^ 9). rewrite Z.pow2_bits_eqb by lia. apply Z.eqb_sym. Qed.

Lemma lor_ldiff_on e : Z.land e FL_IF ≠ 0 → Z.lor (Z.ldiff e FL_IF) FL_IF = e.
Proof.
  intros H.
  assert (Z.testbit e 9 = true) as H9.
  { destruct (Z.testbit e 9) eqn:E; [done|]. exfalso. apply H, Z.bits_inj'. intros n Hn.
    rewrite Z.land_spec, Z.bits_0, FL_IF_bit by done.
    destruct (Z.eqb_spec n 9) as [->|]; [by rewrite E|by rewrite andb_false_r]. }
  apply Z.bits_inj'. intros n Hn. rewrite Z.lor_spec, Z.ldiff_spec, FL_IF_bit by done.
  destruct (Z.eqb_spec n 9) as [->|]; [by rewrite H9|]. simpl.
  by rewrite andb_true_r, orb_false_r.
Qed.

Lemma mach_ok_pushed m i c :
  mach_ok m i c → mach_ok (pushed i m) i (push_cpu (eflags m) c).
Proof.
  intros [Hs Hc Hn Hif]. split.
  - by rewrite self_pushed.
  - unfold pushed; simpl. by rewrite list_lookup_alter_eq, Hc.
  - unfold push_cpu. split_if; simpl; lia.
  - intros _. apply if_on_pushed.
Qed.

Lemma popped_pushed m i c :
  mach_ok m i c → popped i (push_cpu (eflags m) c) (pushed i m) = synced i m.
Proof.
  intros [Hs Hc Hn Hif]. unfold popped, pushed, synced. simpl.
  rewrite list_alter_alter_eq.
  rewrite (list_alter_ext _ (sync_cpu (eflags m)) _ (cpus m)); [|
    intros [] ?; unfold compose, push_cpu, sync_cpu; simpl; split_if; simpl; f_equal; lia |done].
  unfold push_cpu. destruct (ncli c =? 0) eqn:E; breflect; simpl.
  - rewrite E. simpl. split_if; simpl.
    + f_equal. by apply lor_ldiff_on.
    + f_equal. by apply ldiff_off.
  - replace (ncli c + 1 =? 1) with false by lia. simpl. f_equal.
    apply ldiff_off. assert (if_on m = false) as H by (apply Hif; lia).
    unfold if_on in H. by breflect.
Qed.

Lemma synced_id m i c : mach_ok m i c → 0 < ncli c → synced i m = m.
Proof.
  intros [Hs Hc _ _] Hn. destruct m as [e a n cs ls]. unfold synced. simpl in *. f_equal.
  apply list_eq. intros j. destruct (decide (i = j)) as [<-|Hne].
  - rewrite list_lookup_alter_eq, Hc. simpl. unfold sync_cpu.
    by destruct (Z.eqb_spec (ncli c) 0); [lia|].
  - by rewrite list_lookup_alter_ne.
Qed.

Lemma mach_ok_synced m i c : mach_ok m i c → mach_ok (synced i m) i (sync_cpu (eflags m) c).
Proof.
  intros [Hs Hc Hn Hif]. unfold synced, sync_cpu. split.
  - rewrite self_alter; [done|]. intros c'. by split_if.
  - simpl. by rewrite list_lookup_alter_eq, Hc.
  - by split_if.
  - by split_if.
Qed.

Lemma holding_ret m i c lk l :
  mach_ok m i c → locks m !! lk = Some l →
  holding lk m = Ret (negb (locked l =? 0) && same_cpu (lk_cpu l) i) (synced i m).
Proof.
  intros Hok Hl. pose proof (mach_ok_pushed _ _ _ Hok) as Hok'. unfold holding.
  erewrite bind_ret by (apply pushcli_ret; by eauto with xv6).
  rewrite (bind_ret _ _ _ l (pushed i m)) by (unfold lock_get, try_get; simpl; by rewrite Hl).
  rewrite (bind_ret _ _ _ (negb (locked l =? 0) && same_cpu (lk_cpu l) i) (pushed i m)).
  2:{ destruct (locked l =? 0); [done|]. simpl.
      erewrite bind_ret by (apply mycpu_ret; [apply if_on_pushed|by eauto with xv6]). done. }
  erewrite bind_ret by (eapply popcli_ret; eauto using if_on_pushed with xv6;
    unfold push_cpu; pose proof (ok_ncli _ _ _ Hok); split_if; simpl; lia).
  by rewrite popped_pushed by done.
Qed.

Definition take_lock (i : nat) (l : spinlock) : spinlock := l <| locked := 1 |> <| lk_cpu := Some i |>.
Definition free_lock (l : spinlock) : spinlock := l <| lk_cpu := None |> <| locked := 0 |>.

Definition acquired (i : nat) (lk : Z) (m : mach) : mach :=
  (pushed i m) <| locks ::= alter (take_lock i) lk |>.
Definition released (i : nat) (c : cpu) (lk : Z) (m : mach) : mach :=
  popped i c (m <| locks ::= alter free_lock lk |>).

Lemma acquire_ret `{Fuel} m i c lk l :
  mach_ok m i c → locks m !! lk = Some l → locked l = 0 →
  acquire lk m = Ret tt (acquired i lk m).
Proof.
  intros Hok Hl H0. pose proof (mach_ok_pushed _ _ _ Hok) as Hok'. unfold acquire.
  erewrite bind_ret by (apply pushcli_ret; by eauto with xv6).
  erewrite bind_ret by (eapply holding_ret; eauto; done).
  rewrite H0. simpl. erewrite synced_id; [|done|].
  2:{ unfold push_cpu. pose proof (ok_ncli _ _ _ Hok). split_if; simpl; lia. }
  set (m1 := pushed i m). set (m2 := m1 <| locks ::= alter (fun l => l <| locked := 1 |>) lk |>).
  assert (bind (xchg lk 1) (fun r => ret (negb (r =? 0))) m1 = Ret false m2) as Hx.
  { unfold xchg, bind, lock_get, try_get, lock_set, modify, ret. simpl. rewrite Hl. simpl.
    by rewrite H0. }
  assert (∀ n, while n (bind (xchg lk 1) (fun r => ret (negb (r =? 0)))) (suspend (Spin lk)) m1 = Ret tt m2) as Hw.
  { intros [|n]; simpl; by rewrite (bind_ret _ _ _ _ _ Hx). }
  rewrite (bind_ret _ _ _ _ _ (Hw fuel)).
  erewrite bind_ret by (apply (mycpu_ret m2 i); [apply if_on_pushed|];
    unfold m2, m1; by apply (ok_self _ _ _ Hok')).
  unfold lock_set, modify, acquired, m2, m1. simpl. do 2 f_equal.
  apply map_eq. intros j. rewrite !lookup_alter. repeat case_decide; simplify_eq; [|done].
  by rewrite <- option_fmap_compose.
Qed.

Lemma mach_ok_acquired m i c lk :
  mach_ok m i c → mach_ok (acquired i lk m) i (push_cpu (eflags m) c).
Proof. intros Hok. destruct (mach_ok_pushed _ _ _ Hok) as [Hs Hc Hn Hif]. by split. Qed.

Lemma locks_acquired m i lk l :
  locks m !! lk = Some l → locks (acquired i lk m) !! lk = Some (take_lock i l).
Proof. intros Hl. unfold acquired. simpl. by rewrite lookup_alter_eq, Hl. Qed.

Lemma locks_acquired_ne m i lk lk' : lk ≠ lk' → locks (acquired i lk m) !! lk' = locks m !! lk'.
Proof. intros. unfold acquired. simpl. by rewrite lookup_alter_ne. Qed.

Lemma push_cpu_ncli e c : ncli (push_cpu e c) = ncli c + 1.
Proof. unfold push_cpu. by split_if. Qed.

Lemma popped_locks i c m g :
  popped i c (m <| locks ::= g |>) = (popped i c m) <| locks ::= g |>.
Proof. unfold popped. simpl. by split_if. Qed.

Lemma release_ret m i c lk l :
  mach_ok m i c → 0 < ncli c → locks m !! lk = Some l → locked l ≠ 0 → lk_cpu l = Some i →
  release lk m = Ret tt (released i c lk m).
Proof.
  intros Hok Hn Hl H0 Hi. unfold release.
  erewrite bind_ret by (by eapply holding_ret).
  rewrite Hi. unfold same_cpu. rewrite bool_decide_eq_true_2 by done.
  destruct (Z.eqb_spec (locked l) 0); [done|]. simpl. rewrite (synced_id _ _ _ Hok Hn).
  set (m2 := m <| locks ::= alter free_lock lk |>).
  transitivity (popcli m2).
  { unfold bind, lock_set, modify. simpl. f_equal. unfold m2. destruct m. simpl. f_equal.
    apply map_eq. intros j. rewrite !lookup_alter. repeat case_decide; simplify_eq; [|done].
    by rewrite <- option_fmap_compose. }
  destruct Hok as [Hs Hc ? Hif].
  apply (popcli_ret m2 i c); [done|by apply Hif|done|lia].
Qed.

(** A lock that nobody holds. *)
Definition is_free (l : spinlock) : Prop := locked l = 0 ∧ lk_cpu l = None.

Lemma released_acquired m i c lk l :
  mach_ok m i c → locks m !! lk = Some l → is_free l →
  released i (push_cpu (eflags m) c) lk (acquired i lk m) = synced i m.
Proof.
  intros Hok Hl [H0 Hi]. unfold released, acquired.
  rewrite <- (popped_pushed m i c Hok), !popped_locks.
  assert (locks (popped i (push_cpu (eflags m) c) (pushed i m)) = locks m) as Hx
    by (unfold popped; by split_if).
  destruct (popped _ _ _) as [e a n cs ls]. simpl in *. subst ls. f_equal.
  apply map_eq. intros j. rewrite !lookup_alter. repeat case_decide; simplify_eq; [|done].
  rewrite Hl. destruct l. simpl in *. by subst.
Qed.

(** A CPU that already holds the lock and acquires it again panics. *)
Lemma acquire_again_panics `{Fuel} m i c lk l :
  mach_ok m i c → locks m !! lk = Some l → locked l ≠ 0 → lk_cpu l = Some i →
  acquire lk m = Panic "acquire".
Proof.
  intros Hok Hl H0 Hi. pose proof (mach_ok_pushed _ _ _ Hok) as Hok'. unfold acquire.
  erewrite bind_ret by (apply pushcli_ret; by eauto with xv6).
  erewrite bind_ret by (eapply holding_ret; eauto; done).
  rewrite Hi. unfold same_cpu. rewrite bool_decide_eq_true_2 by done.
  by destruct (Z.eqb_spec (locked l) 0).
Qed.

(** [n] times the same routine. *)
Fixpoint iterM {S} (n : nat) (m : M S unit) : M S unit :=
  match n with O => ret tt | Datatypes.S n' => m ;;; iterM n' m end.

Lemma iterM_snoc {S} n (m : M S unit) s s1 s2 :
  iterM n m s = Ret tt s1 → m s1 = Ret tt s2 → iterM (Datatypes.S n) m s = Ret tt s2.
Proof.
  revert s. induction n as [|n IH]; intros s H1 H2.
  - simpl in H1. injection H1 as ->. simpl. by rewrite (bind_ret _ _ _ _ _ H2).
  - simpl in H1. unfold bind in H1. destruct (m s) as [[] s'| | | |] eqn:Hm; try done.
    simpl in H1. cbn [iterM]. rewrite (bind_ret _ _ _ _ _ Hm). by apply IH.
Qed.

Lemma iter_push_pop n m i c :
  mach_ok m i c →
  ∃ m', iterM (S n) pushcli m = Ret tt m' ∧ if_on m' = false ∧
        iterM (S n) popcli m' = Ret tt (synced i m).
Proof.
  revert m c. induction n as [|n IH]; intros m c Hok; pose proof (mach_ok_pushed _ _ _ Hok) as Hok'.
  all: assert (popcli (pushed i m) = Ret tt (synced i m)) as Hpop by
    (rewrite <- (popped_pushed m i c Hok); eapply popcli_ret;
     eauto using if_on_pushed with xv6; rewrite push_cpu_ncli;
     pose proof (ok_ncli _ _ _ Hok); lia).
  - exists (pushed i m). cbn [iterM].
    rewrite (bind_ret _ _ _ _ _ (pushcli_ret _ _ (ok_self _ _ _ Hok))).
    rewrite (bind_ret _ _ _ _ _ Hpop). auto using if_on_pushed.
  - destruct (IH _ _ Hok') as (m' & H1 & Hoff & H2). exists m'. split_and!; [|done|].
    + cbn [iterM] in *. by rewrite (bind_ret _ _ _ _ _ (pushcli_ret _ _ (ok_self _ _ _ Hok))).
    + rewrite (synced_id _ _ _ Hok') in H2
        by (rewrite push_cpu_ncli; pose proof (ok_ncli _ _ _ Hok); lia).
      by apply (iterM_snoc _ _ _ _ _ H2).
Qed.

(** ** Interleavings of several CPUs

    [acquire] and [release] at the granularity of their accesses to the lock:
    each transition is one access of one CPU, other CPUs may run in between. *)

Inductive pc := Idle | Spinning | Got | Critical | Clearing.

Record smp := mk_smp { the_lock : spinlock; pcs : gmap nat pc }.

Inductive smp_step : smp → smp → Prop :=
| smp_enter s i :            (* acquire: holding(lk) is false *)
    pcs s !! i = Some Idle →
    negb (locked (the_lock s) =? 0) && same_cpu (lk_cpu (the_lock s)) i = false →
    smp_step s (mk_smp (the_lock s) (<[i := Spinning]> (pcs s)))
| smp_xchg_busy s i :        (* xchg(&lk->locked, 1) returned non-zero *)
    pcs s !! i = Some Spinning → locked (the_lock s) ≠ 0 →
    smp_step s (mk_smp ((the_lock s) <| locked := 1 |>) (pcs s))
| smp_xchg_free s i :        (* xchg(&lk->locked, 1) returned 0 *)
    pcs s !! i = Some Spinning → locked (the_lock s) = 0 →
    smp_step s (mk_smp ((the_lock s) <| locked := 1 |>) (<[i := Got]> (pcs s)))
| smp_set_cpu s i :          (* lk->cpu = mycpu() *)
    pcs s !! i = Some Got →
    smp_step s (mk_smp ((the_lock s) <| lk_cpu := Some i |>) (<[i := Critical]> (pcs s)))
| smp_clear_cpu s i :        (* release: holding(lk) is true; lk->cpu = 0 *)
    pcs s !! i = Some Critical →
    negb (locked (the_lock s) =? 0) && same_cpu (lk_cpu (the_lock s)) i = true →
    smp_step s (mk_smp ((the_lock s) <| lk_cpu := None |>) (<[i := Clearing]> (pcs s)))
| smp_unlock s i :           (* movl $0, lk->locked *)
    pcs s !! i = Some Clearing →
    smp_step s (mk_smp ((the_lock s) <| locked := 0 |>) (<[i := Idle]> (pcs s))).

(** Every CPU idle, the lock free: the state after initlock. *)
Definition smp_init (s : smp) : Prop :=
  is_free (the_lock s) ∧ ∀ i p, pcs s !! i = Some p → p = Idle.

Inductive smp_reach : smp → Prop :=
| smp_reach_init s : smp_init s → smp_reach s
| smp_reach_step s s' : smp_reach s → smp_step s s' → smp_reach s'.

Definition owns (s : smp) (i : nat) : Prop :=
  ∃ p, pcs s !! i = Some p ∧ (p = Got ∨ p = Critical ∨ p = Clearing).

Record smp_inv (s : smp) : Prop := {
  inv_owner : ∀ i j, owns s i → owns s j → i = j;
  inv_locked : locked (the_lock s) = 0 → ∀ i, ¬ owns s i;
  inv_cpu : ∀ i, pcs s !! i = Some Critical → lk_cpu (the_lock s) = Some i;
  inv_bool : locked (the_lock s) = 0 ∨ locked (the_lock s) = 1 }.

Lemma smp_step_inv s s' : smp_inv s → smp_step s s' → smp_inv s'.
Proof.
  intros [Ho Hl Hc Hb] Hst.
  assert (∀ i p, pcs s !! i = Some p → (p = Got ∨ p = Critical ∨ p = Clearing) → owns s i) as Hown.
  { intros i p ??. by exists p. }
  destruct Hst as [s i Hi _|s i Hi Hbusy|s i Hi Hfree|s i Hi|s i Hi _|s i Hi];
    (split; simpl; [intros j1 j2 [p1 [H1 ?]] [p2 [H2 ?]]; simpl in *
                   |intros H0 j [p [H1 ?]]; simpl in *
                   |intros j H1; simpl in * |by auto]).
  all: repeat match goal with
    | H : <[?i := _]> _ !! ?j = Some _ |- _ =>
        apply lookup_insert_Some in H as [[? ?]|[? H]]; simplify_eq
    end.
  all: try (destruct_or?; congruence); eauto.
  all: exfalso; first
    [ by eapply Hl; eauto
    | match goal with H : ?i ≠ ?j |- _ => apply H; apply Ho; by eauto 6 end ].
Qed.

Lemma smp_reach_inv s : smp_reach s → smp_inv s.
Proof.
  induction 1 as [s [[H0 Hn] Hp]|s s' _ IH Hst].
  - assert (∀ i, ¬ owns s i) as Hno.
    { intros i (p & Hi & Hor). apply Hp in Hi. destruct_or?; congruence. }
    split; [|done| |by left].
    + intros i j Hi. by apply Hno in Hi.
    + intros i Hi. by apply Hp in Hi.
  - by eapply smp_step_inv.
Qed.

(** ** Theorems *)

(** [pushcli] and [popcli] are matched: after any number of nested
    [pushcli] calls interrupts are off, and as many [popcli] calls bring back
    the flags register and the nesting depth the processor started with. *)
Theorem pushcli_popcli_nest (n : nat) m i c :
  mach_ok m i c →
  ∃ m', iterM (S n) pushcli m = Ret tt m' ∧ if_on m' = false ∧
    ∃ m'', iterM (S n) popcli m' = Ret tt m'' ∧ eflags m'' = eflags m ∧ locks m'' = locks m ∧
      ncli <$> cpus m'' !! i = ncli <$> cpus m !! i.
Proof.
  intros Hok. destruct (iter_push_pop n m i c Hok) as (m' & H1 & H2 & H3).
  exists m'. split_and!; [done..|]. exists (synced i m). split_and!; try done.
  unfold synced. simpl. rewrite list_lookup_alter_eq, (ok_cpu _ _ _ Hok). simpl.
  unfold sync_cpu. by split_if.
Qed.

(** Taking a free lock and releasing it returns without panic, leaves the
    lock free, the flags register and every other lock as they were; between
    the two calls the CPU holds the lock with interrupts off, and a second
    [acquire] by the same CPU panics instead of deadlocking. *)
Theorem acquire_release `{Fuel} m i c lk l :
  mach_ok m i c → locks m !! lk = Some l → is_free l →
  ∃ m1, acquire lk m = Ret tt m1 ∧ if_on m1 = false ∧
    (∃ m2, holding lk m1 = Ret true m2) ∧
    acquire lk m1 = Panic "acquire" ∧
    ∃ m2, release lk m1 = Ret tt m2 ∧ eflags m2 = eflags m ∧ locks m2 = locks m.
Proof.
  intros Hok Hl Hf. exists (acquired i lk m).
  pose proof (mach_ok_acquired m i c lk Hok) as Hok'.
  pose proof (locks_acquired m i lk l Hl) as Hl'.
  assert (0 < ncli (push_cpu (eflags m) c)) as Hn
    by (rewrite push_cpu_ncli; pose proof (ok_ncli _ _ _ Hok); lia).
  split_and!.
  - by eapply acquire_ret; [| |destruct Hf].
  - by apply (ok_if _ _ _ Hok').
  - eexists. rewrite (holding_ret _ _ _ _ _ Hok' Hl'). simpl.
    unfold same_cpu. by rewrite bool_decide_eq_true_2.
  - by apply (acquire_again_panics _ _ _ _ _ Hok' Hl').
  - exists (synced i m). split_and!; [|done..].
    rewrite <- (released_acquired m i c lk l Hok Hl Hf).
    by apply (release_ret _ _ _ _ _ Hok' Hn Hl').
Qed.

(** C7. Mutual exclusion: in every interleaving of the accesses that any
    number of CPUs make in [acquire] and [release], at most one CPU is between
    the two, and its check [holding(lk)] in [release] succeeds. *)
Theorem spinlock_mutual_exclusion s :
  smp_reach s →
  (∀ i j, owns s i → owns s j → i = j) ∧
  (∀ i, pcs s !! i = Some Critical →
     negb (locked (the_lock s) =? 0) && same_cpu (lk_cpu (the_lock s)) i = true).
Proof.
  intros [Ho Hl Hc Hb]%smp_reach_inv. split; [done|]. intros i Hi.
  unfold same_cpu. rewrite bool_decide_eq_true_2 by auto. rewrite andb_true_r.
  apply negb_true_iff, Z.eqb_neq. intros H0. apply (Hl H0 i). exists Critical. auto.
Qed.

(** ** The theorems at concrete inputs *)

(** One CPU with interrupts enabled and a free lock at address 1. *)
Definition demo_cpu : cpu := mk_cpu 0 1 0 0 None (replicate NSEGS null_segdesc) (mk_taskstate 0 0 0) 0 0.
Definition demo_mach : mach :=
  mk_mach 0x202 0 1 [demo_cpu] {[ 1 := mk_spinlock 0 "ptable" None ]}.

Lemma demo_mach_ok : mach_ok demo_mach 0 demo_cpu.
Proof. split; [done|done|done|]. intros H. by vm_compute in H. Qed.

Lemma pushcli_popcli_nest_witness :
  ∃ m', iterM 3 pushcli demo_mach = Ret tt m' ∧ if_on m' = false ∧
    ∃ m'', iterM 3 popcli m' = Ret tt m'' ∧ eflags m'' = 0x202 ∧ locks m'' = locks demo_mach ∧
      ncli <$> cpus m'' !! 0%nat = Some 0.
Proof. apply (pushcli_popcli_nest 2 demo_mach 0 demo_cpu demo_mach_ok). Defined.

Lemma acquire_release_witness :
  ∃ m1, @acquire 5%nat 1 demo_mach = Ret tt m1 ∧ if_on m1 = false ∧
    (∃ m2, holding 1 m1 = Ret true m2) ∧
    @acquire 5%nat 1 m1 = Panic "acquire" ∧
    ∃ m2, release 1 m1 = Ret tt m2 ∧ eflags m2 = 0x202 ∧ locks m2 = locks demo_mach.
Proof.
  apply (@acquire_release 5%nat demo_mach 0 demo_cpu 1 (mk_spinlock 0 "ptable" None) demo_mach_ok).
  - reflexivity.
  - done.
Defined.

(** CPU 0 holds the lock while CPU 1 spins. *)
Definition demo_smp : smp :=
  mk_smp (mk_spinlock 1 "ptable" (Some 0%nat)) {[ 0%nat := Critical; 1%nat := Spinning ]}.

Lemma demo_smp_reach : smp_reach demo_smp.
Proof.
  set (l0 := mk_spinlock 0 "ptable" None).
  assert (smp_reach (mk_smp l0 {[ 0%nat := Idle; 1%nat := Idle ]})) as H0.
  { apply smp_reach_init. split; [done|]. intros i p Hp. cbn [pcs] in Hp.
    apply lookup_insert_Some in Hp as [[_ <-]|[_ [_ <-]%lookup_singleton_Some]]; done. }
  eapply smp_reach_step in H0; [|by apply (smp_enter _ 0%nat)].
  eapply smp_reach_step in H0; [|by apply (smp_enter _ 1%nat)].
  eapply smp_reach_step in H0; [|by apply (smp_xchg_free _ 0%nat)].
  eapply smp_reach_step in H0; [|by apply (smp_set_cpu _ 0%nat)].
  exact H0.
Qed.

Lemma spinlock_mutual_exclusion_witness :
  (∀ i j, owns demo_smp i → owns demo_smp j → i = j) ∧
  (∀ i, pcs demo_smp !! i = Some Critical →
     negb (locked (the_lock demo_smp) =? 0) && same_cpu (lk_cpu (the_lock demo_smp)) i = true).
Proof. apply (spinlock_mutual_exclusion demo_smp demo_smp_reach). Defined.
