(* ===== verification/CString.v ===== *)
(** * Memory and strings (string.c, ulib.c)

    [memset], [memcmp] and [memmove] run on a byte memory, a function from
    addresses to bytes, with the loops of the C code.  The string routines run
    on character arrays: a [char*] argument is the list of bytes from the
    pointer to the end of the array it points into, and reading or writing
    beyond that end is [None]. *)

From S2P Require Import Prelude.

Definition mem : Type := Z → Z.
Definition store (m : mem) (a v : Z) : mem := fun b => if b =? a then u8 v else m b.

(** x86.h: [rep stosb] and [rep stosl] *)
Definition stosb (m : mem) (a data cnt : Z) : mem :=
  fun b => if (a <=? b) && (b <? a + cnt) then u8 data else m b.
Definition stosl (m : mem) (a data cnt : Z) : mem :=
  fun b => if (a <=? b) && (b <? a + 4 * cnt)
           then u8 (Z.shiftr data (8 * ((b - a) mod 4))) else m b.

(** ** string.c, on memory *)

Definition memset (m : mem) (dst c n : Z) : mem :=
  if (Z.rem (s32 dst) 4 =? 0) && (n mod 4 =? 0) then
    let c := Z.land c 0xFF in
    stosl m dst (Z.lor (Z.lor (Z.lor (Z.shiftl c 24) (Z.shiftl c 16)) (Z.shiftl c 8)) c) (n / 4)
  else stosb m dst c n.

Fixpoint memcmp (m : mem) (s1 s2 : Z) (n : nat) : Z :=
  match n with
  | O => 0
  | S n' => if negb (m s1 =? m s2) then m s1 - m s2 else memcmp m (s1 + 1) (s2 + 1) n'
  end.

(** [while(n-- > 0) *--d = *--s;] and [while(n-- > 0) *d++ = *s++;] *)
Fixpoint copy_down (m : mem) (d s : Z) (n : nat) : mem :=
  match n with
  | O => m
  | S n' => copy_down (store m (d - 1) (m (s - 1))) (d - 1) (s - 1) n'
  end.
Fixpoint copy_up (m : mem) (d s : Z) (n : nat) : mem :=
  match n with
  | O => m
  | S n' => copy_up (store m d (m s)) (d + 1) (s + 1) n'
  end.

Definition memmove (m : mem) (dst src : Z) (n : nat) : mem :=
  if (src <? dst) && (dst <? src + Z.of_nat n)
  then copy_down m (dst + Z.of_nat n) (src + Z.of_nat n) n
  else copy_up m dst src n.

Definition memcpy (m : mem) (dst src : Z) (n : nat) : mem := memmove m dst src n.

(** ** string.c, on character arrays *)

Definition put (s : list Z) (i : nat) (v : Z) : option (list Z) :=
  if (i <? length s)%nat then Some (<[i := v]> s) else None.

(** [n], [p] and [q] advance together. *)
Fixpoint strncmp (p q : list Z) (n : nat) : option Z :=
  match n with
  | O => Some 0
  | S n' =>
      a ← head p;
      if a =? 0 then b ← head q; Some (u8 a - u8 b)
      else b ← head q;
        if a =? b then strncmp (tail p) (tail q) n' else Some (u8 a - u8 b)
  end.

(** [while(n-- > 0) *s++ = 0;] from index [i] *)
Fixpoint fill_zero (s : list Z) (i n : nat) : option (list Z) :=
  match n with
  | O => Some s
  | S n' => s' ← put s i 0; fill_zero s' (S i) n'
  end.

Fixpoint strncpy_from (s : list Z) (i : nat) (t : list Z) (n : nat) : option (list Z) :=
  match n with
  | O => Some s
  | S n' =>
      c ← t !! i;
      s' ← put s i c;
      if negb (c =? 0) then strncpy_from s' (S i) t n' else fill_zero s' (S i) n'
  end.
Definition strncpy (s t : list Z) (n : nat) : option (list Z) := strncpy_from s 0 t n.

(** The loop of [safestrcpy] with [n] the value of [--n]; then [*s = 0]. *)
Fixpoint safestrcpy_from (s : list Z) (i : nat) (t : list Z) (n : nat) : option (list Z) :=
  match n with
  | O => put s i 0
  | S n' =>
      c ← t !! i;
      s' ← put s i c;
      if negb (c =? 0) then safestrcpy_from s' (S i) t n' else put s' (S i) 0
  end.
Definition safestrcpy (s t : list Z) (n : Z) : option (list Z) :=
  if n <=? 0 then Some s else safestrcpy_from s 0 t (Z.to_nat (n - 1)).

Fixpoint strlen (s : list Z) : option nat :=
  match s with
  | [] => None
  | c :: s' => if c =? 0 then Some O else S <$> strlen s'
  end.

(** ** ulib.c *)

Fixpoint strcpy_from (s : list Z) (i : nat) (t : list Z) : option (list Z) :=
  match t with
  | [] => None
  | c :: t' => s' ← put s i c; if negb (c =? 0) then strcpy_from s' (S i) t' else Some s'
  end.
Definition strcpy (s t : list Z) : option (list Z) := strcpy_from s 0 t.

Fixpoint strcmp (p q : list Z) : option Z :=
  match p with
  | [] => None
  | a :: p' =>
      b ← head q;
      if negb (a =? 0) && (a =? b) then strcmp p' (tail q) else Some (u8 a - u8 b)
  end.

(** The pointer [strchr] returns is an index into [s], null is [None]. *)
Fixpoint strchr_from (s : list Z) (i : nat) (c : Z) : option (option nat) :=
  match s with
  | [] => None
  | a :: s' => if a =? 0 then Some None else if a =? c then Some (Some i) else strchr_from s' (S i) c
  end.
Definition strchr (s : list Z) (c : Z) : option (option nat) := strchr_from s 0 c.

Fixpoint atoi_from (s : list Z) (n : Z) : option Z :=
  match s with
  | [] => None
  | c :: s' => if (48 <=? c) && (c <=? 57) then atoi_from s' (s32 (n * 10 + c - 48)) else Some n
  end.
Definition atoi (s : list Z) : option Z := atoi_from s 0.

(** User-level [memmove] copies upwards only. *)
Definition umemmove (m : mem) (vdst vsrc : Z) (n : nat) : mem := copy_up m vdst vsrc n.

(** ** [memmove] copies correctly also when the regions overlap *)

Definition bytes (m : mem) : Prop := ∀ a, 0 ≤ m a < 256.

Lemma u8_small v : 0 ≤ v < 256 → u8 v = v.
Proof. intros. unfold u8. apply Z.mod_small. lia. Qed.

Lemma store_spec m a v b : bytes m → 0 ≤ v < 256 → store m a v b = if b =? a then v else m b.
Proof. intros. unfold store. by rewrite u8_small. Qed.

Lemma bytes_store m a v : bytes m → bytes (store m a v).
Proof. intros Hm b. unfold store. split_if; [|apply Hm]. apply Z.mod_pos_bound. lia. Qed.
#[export] Hint Resolve bytes_store : xv6.

Lemma copy_up_spec n m d s a :
  bytes m → d ≤ s ∨ s + Z.of_nat n ≤ d →
  copy_up m d s n a = if (d <=? a) && (a <? d + Z.of_nat n) then m (s + (a - d)) else m a.
Proof.
  revert m d s. induction n as [|n IH]; intros m d s Hm Hov.
  - cbn [copy_up]. split_if; [lia|done].
  - cbn [copy_up]. rewrite IH by (eauto with xv6; lia). rewrite !store_spec by done.
    destruct (Z.leb_spec (d + 1) a), (Z.ltb_spec a (d + 1 + Z.of_nat n)), (Z.leb_spec d a),
      (Z.ltb_spec a (d + Z.of_nat (S n))); simpl; try lia; try done.
    all: repeat match goal with |- context [?x =? ?y] => destruct (Z.eqb_spec x y) end;
      try done; try lia; f_equal; lia.
Qed.

Lemma copy_down_spec n m d s a :
  bytes m → s ≤ d →
  copy_down m d s n a =
  if (d - Z.of_nat n <=? a) && (a <? d) then m (s + (a - d)) else m a.
Proof.
  revert m d s. induction n as [|n IH]; intros m d s Hm Hov.
  - cbn [copy_down]. split_if; [lia|done].
  - cbn [copy_down]. rewrite IH by (eauto with xv6; lia). rewrite !store_spec by done.
    destruct (Z.leb_spec (d - 1 - Z.of_nat n) a), (Z.ltb_spec a (d - 1)), (Z.leb_spec (d - Z.of_nat (S n)) a),
      (Z.ltb_spec a d); simpl; try lia; try done.
    all: repeat match goal with |- context [?x =? ?y] => destruct (Z.eqb_spec x y) end;
      try done; try lia; f_equal; lia.
Qed.

(** [memmove] writes at every address of the destination the byte the
    source had there before the call, whether or not the regions overlap, and
    leaves every other address alone. *)
Theorem memmove_correct m dst src n a :
  bytes m →
  memmove m dst src n a =
  if (dst <=? a) && (a <? dst + Z.of_nat n) then m (src + (a - dst)) else m a.
Proof.
  intros Hm. unfold memmove. split_if.
  - rewrite copy_down_spec by (done || lia). replace (dst + Z.of_nat n - Z.of_nat n) with dst by lia.
    split_if; [|done]. f_equal. lia.
  - rewrite copy_up_spec; [done|done|].
    apply andb_false_iff in Hif as [?|?]; breflect; lia.
Qed.

(** ** [memset]: the word loop fills the same bytes as the byte loop *)

Definition word_of_byte (c : Z) : Z :=
  Z.lor (Z.lor (Z.lor (Z.shiftl c 24) (Z.shiftl c 16)) (Z.shiftl c 8)) c.

Lemma word_of_byte_bytes c k :
  0 ≤ c < 256 → 0 ≤ k < 4 → u8 (Z.shiftr (word_of_byte c) (8 * k)) = c.
Proof.
  intros Hc Hk.
  assert (forallb (fun c => forallb (fun k => u8 (Z.shiftr (word_of_byte c) (8 * k)) =? c) (seqZ 0 4))
            (seqZ 0 256) = true) as H by (by vm_compute).
  rewrite forallb_forall in H. specialize (H c). rewrite forallb_forall in H.
  apply Z.eqb_eq, H; apply list_elem_of_In, elem_of_seqZ; lia.
Qed.

Lemma memset_spec m dst c n a :
  0 ≤ n → memset m dst c n a = if (dst <=? a) && (a <? dst + n) then u8 c else m a.
Proof.
  intros Hn. unfold memset. split_if; [|done]. unfold stosl.
  assert (4 * (n / 4) = n) as -> by (pose proof (Z.div_mod n 4); lia).
  split_if; [|done]. change (Z.lor _ _) with (word_of_byte (Z.land c 255)).
  assert (Z.land c 255 = u8 c) as -> by apply (Z.land_ones c 8 ltac:(lia)).
  apply word_of_byte_bytes; [apply Z.mod_pos_bound|apply Z.mod_pos_bound]; lia.
Qed.

(** ** Bounded strings *)

(** The string in the first [n] bytes of [t]: up to its terminator, if any. *)
Fixpoint cstr (n : nat) (t : list Z) : list Z :=
  match n, t with
  | S n', c :: t' => if c =? 0 then [] else c :: cstr n' t'
  | _, _ => []
  end.

(** [t] can be read as a string of at most [n] bytes. *)
Definition readable (t : list Z) (n : nat) : Prop := 0 ∈ t ∨ (n ≤ length t)%nat.

Lemma put_Some s i v : (i < length s)%nat → put s i v = Some (<[i := v]> s).
Proof. intros H. unfold put. by destruct (Nat.ltb_spec i (length s)); [|lia]. Qed.

Lemma fill_zero_spec n s i :
  (i + n ≤ length s)%nat →
  ∃ s', fill_zero s i n = Some s' ∧ length s' = length s ∧
    ∀ j, s' !! j = if decide (i ≤ j < i + n)%nat then Some 0 else s !! j.
Proof.
  revert s i. induction n as [|n IH]; intros s i Hlen.
  - exists s. split_and!; [done..|]. intros j. by rewrite decide_False by lia.
  - cbn [fill_zero]. rewrite put_Some by lia. simpl.
    destruct (IH (<[i := 0]> s) (S i)) as (s' & -> & Hl & Hj); [rewrite length_insert; lia|].
    exists s'. rewrite length_insert in Hl. split_and!; [done..|]. intros j. rewrite Hj.
    destruct (decide (i = j)) as [<-|Hne].
    + rewrite decide_False, decide_True by lia. apply list_lookup_insert_eq. lia.
    + rewrite list_lookup_insert_ne by done. repeat case_decide; done || lia.
Qed.

Lemma strncpy_from_spec n s i t :
  (i + n ≤ length s)%nat → readable (drop i t) n →
  ∃ s', strncpy_from s i t n = Some s' ∧ length s' = length s ∧
    (∀ j, (j < i ∨ i + n ≤ j)%nat → s' !! j = s !! j) ∧
    strncmp (drop i t) (drop i s') n = Some 0.
Proof.
  revert s i. induction n as [|n IH]; intros s i Hlen Hr.
  { exists s. done. }
  destruct (t !! i) as [c|] eqn:Hc.
  2:{ apply lookup_ge_None in Hc. destruct Hr as [Hr|Hr].
      - rewrite drop_ge in Hr by done. by apply elem_of_nil in Hr.
      - rewrite length_drop in Hr. lia. }
  cbn [strncpy_from strncmp]. rewrite Hc. simpl. rewrite put_Some by lia. simpl.
  rewrite (drop_S t c i Hc). simpl. destruct (c =? 0) eqn:Hz; breflect; simpl.
  - destruct (fill_zero_spec n (<[i := c]> s) (S i)) as (s' & -> & Hl & Hj); [rewrite length_insert; lia|].
    rewrite length_insert in Hl. exists s'. split_and!; [done..| |].
    + intros j Hne. rewrite Hj, decide_False, list_lookup_insert_ne by lia. done.
    + assert (s' !! i = Some c) as Hi.
      { rewrite Hj, decide_False by lia. apply list_lookup_insert_eq. lia. }
      rewrite (drop_S _ _ _ Hi). simpl. by rewrite Z.sub_diag.
  - destruct (IH (<[i := c]> s) (S i)) as (s' & -> & Hl & Hj & Hcmp).
    { rewrite length_insert. lia. }
    { destruct Hr as [Hr|Hr].
      - rewrite (drop_S t c i Hc) in Hr. left. set_solver.
      - right. rewrite length_drop in *. lia. }
    rewrite length_insert in Hl. exists s'. split_and!; [done..| |].
    + intros j Hne. rewrite Hj, list_lookup_insert_ne by lia. done.
    + assert (s' !! i = Some c) as Hi.
      { rewrite Hj by lia. apply list_lookup_insert_eq. lia. }
      rewrite (drop_S _ _ _ Hi). simpl. by rewrite Z.eqb_refl.
Qed.

Lemma strncmp_zero n p q r :
  Forall (fun c => 0 ≤ c < 256) p → Forall (fun c => 0 ≤ c < 256) q →
  strncmp p q n = Some r → r = 0 ↔ cstr n p = cstr n q.
Proof.
  revert p q. induction n as [|n IH]; intros p q Hp Hq; simpl; [by intros [= <-]|].
  destruct Hp as [|a p Ha Hp]; [done|]. simpl.
  destruct (a =? 0) eqn:Hz; breflect; simpl.
  - destruct Hq as [|b q Hb Hq]; [done|]. simpl. intros [= <-].
    rewrite !u8_small by lia. split_if; [split; [done|lia]|]. split; [lia|done].
  - destruct Hq as [|b q Hb Hq]; [done|]. simpl. destruct (Z.eqb_spec a b) as [<-|Hne].
    + intros H. rewrite (IH p q Hp Hq H). destruct (Z.eqb_spec a 0); [done|].
      split; [by intros ->|by intros [= ->]].
    + intros [= <-]. rewrite !u8_small by lia. split; [lia|].
      destruct (b =? 0); intros [=]; lia.
Qed.

Lemma safestrcpy_from_spec n s i t :
  (i + n < length s)%nat → readable (drop i t) n →
  ∃ s', safestrcpy_from s i t n = Some s' ∧ length s' = length s ∧
    (∀ j, (j < i ∨ i + n < j)%nat → s' !! j = s !! j) ∧
    strlen (drop i s') = Some (length (cstr n (drop i t))) ∧
    take (length (cstr n (drop i t))) (drop i s') = cstr n (drop i t).
Proof.
  revert s i. induction n as [|n IH]; intros s i Hlen Hr.
  { cbn [safestrcpy_from cstr]. rewrite put_Some by lia. exists (<[i := 0]> s).
    rewrite length_insert. split_and!; [done|done| | |done].
    - intros j Hj. apply list_lookup_insert_ne. lia.
    - rewrite (drop_S (<[i:=0]> s) 0 i) by (apply list_lookup_insert_eq; lia). done. }
  destruct (t !! i) as [c|] eqn:Hc.
  2:{ apply lookup_ge_None in Hc. destruct Hr as [Hr|Hr].
      - rewrite drop_ge in Hr by done. by apply elem_of_nil in Hr.
      - rewrite length_drop in Hr. lia. }
  cbn [safestrcpy_from]. rewrite Hc. simpl. rewrite put_Some by lia. simpl.
  rewrite (drop_S t c i Hc). cbn [cstr]. destruct (c =? 0) eqn:Hz; breflect; simpl.
  - rewrite put_Some by (rewrite length_insert; lia). eexists. split; [done|].
    rewrite !length_insert. split_and!; [done| | |done].
    + intros j Hj. rewrite !list_lookup_insert_ne by lia. done.
    + erewrite (drop_S _ _ i) by (rewrite list_lookup_insert_ne by lia; apply list_lookup_insert_eq; lia).
      simpl. by subst c.
  - destruct (IH (<[i := c]> s) (S i)) as (s' & -> & Hl & Hj & Hsl & Htk).
    { rewrite length_insert. lia. }
    { destruct Hr as [Hr|Hr].
      - rewrite (drop_S t c i Hc) in Hr. left. set_solver.
      - right. rewrite length_drop in *. lia. }
    rewrite length_insert in Hl.
    assert (s' !! i = Some c) as Hi by (rewrite Hj by lia; apply list_lookup_insert_eq; lia).
    exists s'. rewrite (drop_S _ _ _ Hi). simpl. rewrite Hsl, Htk.
    destruct (Z.eqb_spec c 0); [done|]. split_and!; [done..| |done|done].
    intros j Hne. rewrite Hj, list_lookup_insert_ne by lia. done.
Qed.

(** The name [strncpy] stores in a field of [n] bytes compares equal with
    [strncmp] to the name it was given (as [dirlink] stores and [namecmp]
    compares), and bytes outside the field are unchanged. *)
Theorem strncpy_strncmp s t n :
  (n ≤ length s)%nat → readable t n →
  ∃ s', strncpy s t n = Some s' ∧ length s' = length s ∧ drop n s' = drop n s ∧
        strncmp t s' n = Some 0.
Proof.
  intros Hlen Hr. destruct (strncpy_from_spec n s 0 t) as (s' & H1 & H2 & H3 & H4); [done|by rewrite drop_0|].
  exists s'. rewrite !drop_0 in H4. split_and!; try done.
  apply list_eq. intros j. rewrite !lookup_drop. apply H3. lia.
Qed.

(** [safestrcpy] always leaves a terminated string: the longest prefix of
    the source that fits with its terminator. *)
Theorem safestrcpy_terminated s t n :
  0 < n → (Z.to_nat n ≤ length s)%nat → readable t (Z.to_nat (n - 1)) →
  ∃ s', safestrcpy s t n = Some s' ∧ length s' = length s ∧
        strlen s' = Some (length (cstr (Z.to_nat (n - 1)) t)) ∧
        take (length (cstr (Z.to_nat (n - 1)) t)) s' = cstr (Z.to_nat (n - 1)) t.
Proof.
  intros Hn Hlen Hr. unfold safestrcpy. destruct (Z.leb_spec n 0); [lia|].
  destruct (safestrcpy_from_spec (Z.to_nat (n - 1)) s 0 t) as (s' & H1 & H2 & H3 & H4 & H5);
    [lia|by rewrite drop_0|].
  exists s'. by rewrite !drop_0 in *.
Qed.

(** ** The theorems at concrete inputs *)

Definition demo_mem : mem := fun a => u8 a.

Lemma memmove_correct_witness :
  memmove demo_mem 12 10 5 14 = demo_mem 12.
Proof.
  rewrite (memmove_correct demo_mem 12 10 5 14); [reflexivity|].
  intros a. apply Z.mod_pos_bound. reflexivity.
Defined.

Lemma strncpy_strncmp_witness :
  ∃ s', strncpy (replicate 14 7) [108; 115; 0] 14 = Some s' ∧ length s' = 14%nat ∧
        drop 14 s' = [] ∧ strncmp [108; 115; 0] s' 14 = Some 0.
Proof.
  apply (strncpy_strncmp (replicate 14 7) [108; 115; 0] 14).
  - simpl. lia.
  - left. do 2 right. left.
Defined.

Lemma safestrcpy_terminated_witness :
  ∃ s', safestrcpy (replicate 16 7) [105; 110; 105; 116; 0] 16 = Some s' ∧ length s' = 16%nat ∧
        strlen s' = Some 4%nat ∧ take 4 s' = [105; 110; 105; 116].
Proof.
  apply (safestrcpy_terminated (replicate 16 7) [105; 110; 105; 116; 0] 16).
  - reflexivity.
  - simpl. lia.
  - left. do 4 right. left.
Defined.
