(* ===== verification/ProcTable.v ===== *)
(** * The process table and its ready queues (proc.h, proc.c)

    [struct proc], [ptable] with its four ready queues, and the fragments of
    proc.c that add a process to a queue and move a queue up after a removal.
    A pointer [struct proc*] is an index of [ptable.proc], null is [None].  An
    access outside an array is [None] at this level and [Fault] in a routine. *)

From S2P Require Import Prelude Machine.

(** ** proc.h *)

Inductive procstate := UNUSED | EMBRYO | SLEEPING | RUNNABLE | RUNNING | ZOMBIE.
#[export] Instance procstate_eq_dec : EqDecision procstate.
Proof. solve_decision. Defined.

Record context := mk_context { c_edi : Z; c_esi : Z; c_ebx : Z; c_ebp : Z; c_eip : Z }.
#[export] Instance context_eta : Eta context := fun c =>
  mk_context (c_edi c) (c_esi c) (c_ebx c) (c_ebp c) (c_eip c).
Definition zero_context : context := mk_context 0 0 0 0 0.

(** x86.h: the trap frame, without its padding *)
Record trapframe := mk_trapframe {
  t_edi : Z; t_esi : Z; t_ebp : Z; t_oesp : Z; t_ebx : Z; t_edx : Z; t_ecx : Z; t_eax : Z;
  t_gs : Z; t_fs : Z; t_es : Z; t_ds : Z; trapno : Z;
  t_err : Z; t_eip : Z; t_cs : Z; t_eflags : Z; t_esp : Z; t_ss : Z }.
#[export] Instance trapframe_eta : Eta trapframe := fun t =>
  mk_trapframe (t_edi t) (t_esi t) (t_ebp t) (t_oesp t) (t_ebx t) (t_edx t) (t_ecx t) (t_eax t)
    (t_gs t) (t_fs t) (t_es t) (t_ds t) (trapno t)
    (t_err t) (t_eip t) (t_cs t) (t_eflags t) (t_esp t) (t_ss t).
Definition zero_trapframe : trapframe := mk_trapframe 0 0 0 0 0 0 0 0 0 0 0 0 0 0 0 0 0 0 0.
Definition sizeof_trapframe : Z := 76.
Definition sizeof_context : Z := 20.

(** [tf_at] and [context_at] are the pointers [p->tf] and [p->context] into
    the kernel stack, [tf] and [ctx] what they point to, and [kret] the word
    that lies between the two. *)
Record proc := mk_proc {
  sz : Z; pgdir : Z; kstack : Z; state : procstate; pid : Z; parent : option nat;
  tf_at : Z; tf : trapframe; kret : Z; context_at : Z; ctx : context;
  chan : Z; killed : Z; ofile : list Z; cwd : Z; pname : list Z;
  ctime : Z; stime : Z; retime : Z; rutime : Z; bstime : Z;
  clock : Z; priority : Z; tickets : Z; estimatedburst : Z; previousburst : Z;
  readyTimeAging : Z }.
#[export] Instance proc_eta : Eta proc := fun p =>
  mk_proc (sz p) (pgdir p) (kstack p) (state p) (pid p) (parent p)
    (tf_at p) (tf p) (kret p) (context_at p) (ctx p)
    (chan p) (killed p) (ofile p) (cwd p) (pname p)
    (ctime p) (stime p) (retime p) (rutime p) (bstime p)
    (clock p) (priority p) (tickets p) (estimatedburst p) (previousburst p)
    (readyTimeAging p).

(** A slot of the table before its first use: static storage is zero. *)
Definition zero_proc : proc :=
  mk_proc 0 0 0 UNUSED 0 None 0 zero_trapframe 0 0 zero_context 0 0 (replicate NOFILE 0) 0
    (replicate 16 0) 0 0 0 0 0 0 0 0 0 0 0.

(** ** proc.c: [ptable] *)
Record ptbl := mk_ptbl {
  procs : list proc;
  queue_ready : list (list (option nat));
  count_queue : list Z }.
#[export] Instance ptbl_eta : Eta ptbl := fun t =>
  mk_ptbl (procs t) (queue_ready t) (count_queue t).

Definition zero_ptbl : ptbl :=
  mk_ptbl (replicate NPROC zero_proc) (replicate NUMFILAS (replicate NPROC None))
    (replicate NUMFILAS 0).

(** [p->f = v] for the process at index [i]. *)
Definition upd (i : nat) (f : proc → proc) (t : ptbl) : ptbl := t <| procs ::= alter f i |>.

(** A C array index: [None] when it is negative. *)
Definition index (z : Z) : option nat := if z <? 0 then None else Some (Z.to_nat z).

(** [ptable.queue_ready[k][ptable.count_queue[k]] = p; ptable.count_queue[k]++;] *)
Definition queue_add (prio : Z) (p : nat) (t : ptbl) : option ptbl :=
  k ← index prio;
  c ← count_queue t !! k;
  q ← queue_ready t !! k;
  j ← index c;
  if (j <? length q)%nat then
    Some (t <| queue_ready ::= <[k := <[j := Some p]> q]> |>
            <| count_queue ::= <[k := c + 1]> |>)
  else None.

(** [for(i = pos; i < pos + n; i++) q[i] = q[i+1];] *)
Fixpoint shift_down (n pos : nat) (q : list (option nat)) : option (list (option nat)) :=
  match n with
  | O => Some q
  | S n' => v ← q !! S pos; shift_down n' (S pos) (<[pos := v]> q)
  end.

(** [for(i = pos; i < ptable.count_queue[k] - 1; i++)
       ptable.queue_ready[k][i] = ptable.queue_ready[k][i+1];] *)
Definition queue_shift (k pos : nat) (t : ptbl) : option ptbl :=
  c ← count_queue t !! k;
  q ← queue_ready t !! k;
  q' ← shift_down (Z.to_nat (c - 1 - Z.of_nat pos)) pos q;
  Some (t <| queue_ready ::= <[k := q']> |>).

(** [ptable.count_queue[k]--;] *)
Definition count_dec (k : nat) (t : ptbl) : ptbl :=
  t <| count_queue ::= alter (fun c => c - 1) k |>.

(** ** The queues as lists *)

(** The processes of queue [k] in order: the first [count_queue[k]] cells. *)
Definition queue_of (t : ptbl) (k : nat) : option (list nat) :=
  c ← count_queue t !! k;
  q ← queue_ready t !! k;
  n ← index c;
  if (n <=? length q)%nat then mapM id (take n q) else None.

Record shape (t : ptbl) : Prop := {
  shape_procs : length (procs t) = NPROC;
  shape_queues : length (queue_ready t) = NUMFILAS;
  shape_counts : length (count_queue t) = NUMFILAS;
  shape_queue : ∀ k q, queue_ready t !! k = Some q → length q = NPROC }.

Lemma index_of_nat n : index (Z.of_nat n) = Some n.
Proof. unfold index. destruct (Z.ltb_spec (Z.of_nat n) 0); [lia|]. by rewrite Nat2Z.id. Qed.

Lemma index_Some z n : index z = Some n ↔ z = Z.of_nat n.
Proof.
  split; [|intros ->; apply index_of_nat]. unfold index. split_if; [done|]. intros [= <-]. lia.
Qed.

Lemma mapM_id_Some {A} (q : list (option A)) l : mapM id q = Some l ↔ q = Some <$> l.
Proof.
  rewrite mapM_Some. split.
  - induction 1 as [|x y q l Hxy _ IH]; [done|]. simpl in *. by subst.
  - intros ->. induction l; constructor; done.
Qed.

Lemma queue_of_Some t k l :
  queue_of t k = Some l ↔
  ∃ q, count_queue t !! k = Some (Z.of_nat (length l)) ∧ queue_ready t !! k = Some q ∧
       (length l ≤ length q)%nat ∧ take (length l) q = Some <$> l.
Proof.
  unfold queue_of. split.
  - intros H. destruct (count_queue t !! k) as [c|] eqn:Hc; [|done]. simpl in H.
    destruct (queue_ready t !! k) as [q|] eqn:Hq; [|done]. simpl in H.
    destruct (index c) as [n|] eqn:Hn; [|done]. simpl in H. apply index_Some in Hn as ->.
    destruct (Nat.leb_spec n (length q)); [|done]. apply mapM_id_Some in H.
    assert (length l = n) as <-.
    { apply (f_equal length) in H. rewrite length_take, length_fmap in H. lia. }
    eauto.
  - intros (q & -> & -> & Hlen & Hl). simpl. rewrite index_of_nat. simpl.
    destruct (Nat.leb_spec (length l) (length q)); [|lia]. by apply mapM_id_Some.
Qed.

Lemma queue_of_procs t ps k : queue_of (t <| procs := ps |>) k = queue_of t k.
Proof. done. Qed.

Lemma queue_of_upd t i f k : queue_of (upd i f t) k = queue_of t k.
Proof. done. Qed.

Lemma queue_add_procs pr j t t' : queue_add pr j t = Some t' → procs t' = procs t.
Proof.
  unfold queue_add. intros (? & _ & (? & _ & (? & _ & (? & _ & H)%bind_Some)%bind_Some)%bind_Some)%bind_Some.
  case_match; by simplify_eq.
Qed.

Lemma queue_shift_procs k pos t t' : queue_shift k pos t = Some t' → procs t' = procs t.
Proof.
  unfold queue_shift. intros (? & _ & (? & _ & (? & _ & H)%bind_Some)%bind_Some)%bind_Some.
  by simplify_eq.
Qed.

(** ** Adding a process appends it to its queue *)

Lemma queue_add_spec t k l p :
  shape t → queue_of t k = Some l → (length l < NPROC)%nat →
  ∃ t', queue_add (Z.of_nat k) p t = Some t' ∧ shape t' ∧ procs t' = procs t ∧
        queue_of t' k = Some (l ++ [p]) ∧ ∀ k', k' ≠ k → queue_of t' k' = queue_of t k'.
Proof.
  intros Hsh Hq Hlen. apply queue_of_Some in Hq as (q & Hc & Hq & Hle & Htk).
  pose proof (shape_queue _ Hsh _ _ Hq) as Hql.
  exists (t <| queue_ready ::= <[k := <[length l := Some p]> q]> |>
            <| count_queue ::= <[k := Z.of_nat (length l) + 1]> |>).
  split_and!.
  - unfold queue_add. rewrite index_of_nat. simpl. rewrite Hc. simpl. rewrite Hq. simpl.
    rewrite index_of_nat. simpl. destruct (Nat.ltb_spec (length l) (length q)); [done|lia].
  - destruct Hsh as [H1 H2 H3 H4]. split; simpl; [done|by rewrite length_insert..|].
    intros k' q' [(<- & <- & _)|[_ ?]]%list_lookup_insert_Some; [by rewrite length_insert|eauto].
  - done.
  - apply queue_of_Some. exists (<[length l := Some p]> q). simpl.
    rewrite list_lookup_insert_eq by (by eapply lookup_lt_Some).
    rewrite list_lookup_insert_eq by (by eapply lookup_lt_Some).
    rewrite length_app, length_insert. simpl. split_and!; [f_equal; lia|done|lia|].
    rewrite fmap_app. simpl. rewrite <- Htk.
    rewrite Nat.add_1_r. rewrite (take_S_r _ _ (Some p)) by (apply list_lookup_insert_eq; lia).
    f_equal. apply take_insert_ge. lia.
  - intros k' Hne. unfold queue_of. simpl. by rewrite !list_lookup_insert_ne.
Qed.

(** ** Moving the tail down removes one position *)

Lemma shift_down_spec n pos q :
  (pos + n < length q)%nat →
  ∃ q', shift_down n pos q = Some q' ∧ length q' = length q ∧
    ∀ j, q' !! j = if decide (pos ≤ j < pos + n)%nat then q !! S j else q !! j.
Proof.
  revert pos q. induction n as [|n IH]; intros pos q Hlen; simpl.
  - exists q. split_and!; [done..|]. intros j. case_decide; [lia|done].
  - destruct (q !! S pos) as [v|] eqn:Hv; [|apply lookup_ge_None in Hv; lia]. simpl.
    destruct (IH (S pos) (<[pos := v]> q)) as (q' & Hs & Hl & Hj); [rewrite length_insert; lia|].
    exists q'. split_and!; [done|by rewrite length_insert in Hl|]. intros j. rewrite Hj.
    destruct (decide (pos = j)) as [<-|Hne].
    + rewrite decide_False, decide_True by lia. rewrite list_lookup_insert_eq by lia. done.
    + repeat case_decide; rewrite ?list_lookup_insert_ne by lia; done || lia.
Qed.

Lemma queue_remove_spec t k l pos p :
  shape t → queue_of t k = Some l → l !! pos = Some p →
  ∃ t', queue_shift k pos t = Some t' ∧ shape (count_dec k t') ∧
        procs (count_dec k t') = procs t ∧
        queue_of (count_dec k t') k = Some (remove_nth pos l) ∧
        ∀ k', k' ≠ k → queue_of (count_dec k t') k' = queue_of t k'.
Proof.
  intros Hsh Hq Hp. apply queue_of_Some in Hq as (q & Hc & Hq & Hle & Htk).
  pose proof (lookup_lt_Some _ _ _ Hp) as Hpos.
  destruct (shift_down_spec (length l - 1 - pos) pos q) as (q' & Hs & Hl & Hj); [lia|].
  exists (t <| queue_ready ::= <[k := q']> |>). split_and!.
  - unfold queue_shift. rewrite Hc. simpl. rewrite Hq. simpl.
    replace (Z.to_nat (Z.of_nat (length l) - 1 - Z.of_nat pos)) with (length l - 1 - pos)%nat by lia.
    by rewrite Hs.
  - destruct Hsh as [H1 H2 H3 H4]. split; simpl; [done|by rewrite length_insert|by rewrite length_alter|].
    intros k' r [(<- & <- & _)|[_ ?]]%list_lookup_insert_Some; [|eauto].
    rewrite Hl. eauto.
  - done.
  - apply queue_of_Some. exists q'. simpl.
    rewrite list_lookup_insert_eq by (by eapply lookup_lt_Some).
    rewrite list_lookup_alter_eq, Hc, length_remove_nth by done. simpl.
    split_and!; [f_equal; lia|done|lia|].
    apply list_eq. intros j. rewrite list_lookup_fmap.
    assert (∀ i, (i < length l)%nat → q !! i = Some <$> l !! i) as Hql.
    { intros i Hi. rewrite <- list_lookup_fmap, <- Htk. by rewrite lookup_take_lt. }
    destruct (decide (j < length l - 1)%nat) as [Hlt|Hge].
    + rewrite lookup_take_lt, Hj by done. unfold remove_nth.
      destruct (decide (j < pos)%nat).
      * rewrite decide_False, Hql by lia. by rewrite lookup_app_l, lookup_take_lt by (rewrite ?length_take; lia).
      * rewrite decide_True, Hql by lia.
        rewrite lookup_app_r, lookup_drop by (rewrite length_take; lia).
        do 2 f_equal. rewrite length_take. lia.
    + rewrite lookup_take_ge by lia. rewrite lookup_ge_None_2; [done|].
      rewrite length_remove_nth by done. lia.
  - intros k' Hne. unfold queue_of. simpl.
    by rewrite list_lookup_insert_ne, list_lookup_alter_ne by done.
Qed.
