(* ===== verification/Proc.v ===== *)
(** * Processes and scheduling (proc.c)

    Every routine of proc.c that runs in the kernel, on the state [pstate]:
    the machine, the process table, the globals of proc.c and trap.c, and the
    resources the other components own.  What proc.c calls in kalloc.c, vm.c,
    file.c, fs.c and log.c is the interface [ProcEnv]. *)

From S2P Require Import Prelude Machine Spinlock CString ProcTable.

(** ** The scan loops of proc.c over [ptable.proc] *)

Fixpoint each_proc (ids : list nat) (body : nat → ptbl → option ptbl) (t : ptbl) : option ptbl :=
  match ids with
  | [] => Some t
  | i :: ids' => t' ← body i t; each_proc ids' body t'
  end.
Definition for_procs (body : nat → ptbl → option ptbl) (t : ptbl) : option ptbl :=
  each_proc (seq 0 NPROC) body t.

(** The first process that satisfies a test. *)
Fixpoint find_proc (test : proc → bool) (ps : list proc) (i : nat) : option nat :=
  match ps with
  | [] => None
  | p :: ps' => if test p then Some i else find_proc test ps' (S i)
  end.

Definition is_state (s : procstate) (p : proc) : bool := bool_decide (state p = s).

(** ** [wakeup1], [kill]: sleeping processes become runnable *)

(** The block that [wakeup1], [kill] and [yield] share: append to the queue of
    the process's priority, then mark it RUNNABLE. *)
Definition make_runnable (i : nat) (t : ptbl) : option ptbl :=
  p ← procs t !! i;
  t' ← queue_add (priority p) i t;
  Some (upd i (fun p => p <| state := RUNNABLE |>) t').

Definition wakeup1_body (ch : Z) (i : nat) (t : ptbl) : option ptbl :=
  p ← procs t !! i;
  if is_state SLEEPING p && (chan p =? ch) then make_runnable i t else Some t.
Definition wakeup1 (ch : Z) (t : ptbl) : option ptbl := for_procs (wakeup1_body ch) t.

Definition kill_tbl (the_pid : Z) (t : ptbl) : option (Z * ptbl) :=
  match find_proc (fun p => pid p =? the_pid) (procs t) 0 with
  | None => Some (-1, t)
  | Some i =>
      p ← procs t !! i;
      let t1 := upd i (fun p => p <| killed := 1 |>) t in
      t2 ← (if is_state SLEEPING p then make_runnable i t1 else Some t1);
      Some (0, t2)
  end.

(** ** Clock and aging *)

Definition updateClock_body (i : nat) (t : ptbl) : option ptbl :=
  p ← procs t !! i;
  Some (match state p with
        | SLEEPING => upd i (fun p => p <| stime ::= fun x => s32 (x + 1) |> <| clock := 0 |>) t
        | RUNNABLE => upd i (fun p => p <| retime ::= fun x => s32 (x + 1) |>
                                        <| readyTimeAging ::= fun x => s32 (x + 1) |>
                                        <| clock := 0 |>) t
        | RUNNING => upd i (fun p => p <| bstime ::= fun x => s32 (x + 1) |>
                                       <| rutime ::= fun x => s32 (x + 1) |>
                                       <| clock ::= fun x => s32 (x + 1) |>) t
        | _ => t
        end).
Definition updateClock_tbl (t : ptbl) : option ptbl := for_procs updateClock_body t.

(** The cells of queue [k] that a loop [for(i = 0; i < count_queue[k]; i++)]
    reads; [None] when the count runs past the array. *)
Definition cells (t : ptbl) (k : nat) : option (list (option nat)) :=
  c ← count_queue t !! k;
  q ← queue_ready t !! k;
  if (Z.to_nat c <=? length q)%nat then Some (take (Z.to_nat c) q) else None.

(** The search loop of [auxTrocarFilaPriority]: the last position of the old
    queue whose process has the same pid, 0 if there is none. *)
Fixpoint find_pid (the_pid : Z) (t : ptbl) (cells : list (option nat)) (i pos : nat) : option nat :=
  match cells with
  | [] => Some pos
  | c :: cells' =>
      j ← c; p ← procs t !! j;
      find_pid the_pid t cells' (S i) (if pid p =? the_pid then i else pos)
  end.

Definition auxTrocarFilaPriority (i : nat) (nova : Z) (t : ptbl) : option ptbl :=
  antiga ← index (nova - 1);
  p ← procs t !! i;
  cs ← cells t antiga;
  pos ← find_pid (pid p) t cs 0 0;
  t1 ← queue_shift antiga pos t;
  t2 ← queue_add nova i (count_dec antiga t1);
  Some (upd i (fun p => p <| readyTimeAging := 0 |>) t2).

Definition aging_body (i : nat) (t : ptbl) : option ptbl :=
  p ← procs t !! i;
  let up := upd i (fun p => p <| priority ::= fun x => x + 1 |>) t in
  if is_state RUNNABLE p && (priority p =? 0) && (T1TO2 <=? readyTimeAging p)
  then auxTrocarFilaPriority i 1 up
  else if is_state RUNNABLE p && (priority p =? 1) && (T2TO3 <=? readyTimeAging p)
  then auxTrocarFilaPriority i 2 up
  else if is_state RUNNABLE p && (priority p =? 2) && (T3TO4 <=? readyTimeAging p)
  then auxTrocarFilaPriority i 3 up
  else Some t.
Definition upgradePriority_Aging_tbl (t : ptbl) : option ptbl := for_procs aging_body t.

(** ** Choosing the next process *)

(** [(0.5 * e) + (0.5 * p)] is exact in double precision for 32-bit integers;
    the conversion to int truncates toward zero. *)
Definition updateBurst (p : proc) : proc :=
  p <| estimatedburst ::= fun e => Z.quot (e + previousburst p) 2 |>.

(** The loop of [shortestBurst] over the cells of queue 2. *)
Fixpoint shortest_loop (t : ptbl) (cells : list (option nat)) (i : nat) (shortest : Z) (pos : nat)
    : option nat :=
  match cells with
  | [] => Some pos
  | c :: cells' =>
      j ← c; p ← procs t !! j;
      if estimatedburst p <? shortest
      then shortest_loop t cells' (S i) (estimatedburst p) i
      else shortest_loop t cells' (S i) shortest pos
  end.

Definition shortestBurst (t : ptbl) : option nat :=
  cs ← cells t 2; shortest_loop t cs 0 10000 0.

Definition Random (next : Z) : Z := Z.rem (Z.quot (s32 (next * next)) 100) 10000.

(** [None]: division by zero. *)
Definition RandomInRange (min max : Z) (next : Z) : option (Z * Z) :=
  let next' := Random next in
  let d := s32 (max + 1 - min) in
  if d =? 0 then None else Some (s32 (Z.rem next' d + min), next').

Fixpoint total_loop (t : ptbl) (cells : list (option nat)) (acc : Z) : option Z :=
  match cells with
  | [] => Some acc
  | c :: cells' =>
      j ← c; p ← procs t !! j;
      if negb (is_state RUNNABLE p) then total_loop t cells' acc
      else total_loop t cells' (s32 (acc + tickets p))
  end.
Definition loteria_Total (t : ptbl) : option Z := cs ← cells t 0; total_loop t cs 0.

(** The search for the golden ticket: the process and the index [aux] at which
    the loop stops.  [last] is the value of [p] before the iteration. *)
Fixpoint lottery_loop (t : ptbl) (cells : list (option nat)) (aux : nat) (count golden : Z)
    (last : option nat) : option (nat * nat) :=
  match cells with
  | [] => l ← last; Some (l, aux)
  | c :: cells' =>
      j ← c; p ← procs t !! j;
      if s32 (count + tickets p) <? golden
      then lottery_loop t cells' (S aux) (s32 (count + tickets p)) golden (Some j)
      else Some (j, aux)
  end.

(** ** State *)

Record pstate (R : Type) := mk_pstate {
  machine : mach;
  ptable : ptbl;
  nextpid : Z;
  initproc : option nat;
  ticks : Z;
  rnd_next : Z;                (* static next in Random() *)
  first : bool;                (* static first in forkret() *)
  kpgdir : Z;                  (* vm.c: the kernel's own page table *)
  res : R }.
Arguments mk_pstate {R}.
Arguments machine {R}.
Arguments ptable {R}.
Arguments nextpid {R}.
Arguments initproc {R}.
Arguments ticks {R}.
Arguments rnd_next {R}.
Arguments first {R}.
Arguments kpgdir {R}.
Arguments res {R}.
#[export] Instance pstate_eta R : Eta (pstate R) := fun s =>
  mk_pstate (machine s) (ptable s) (nextpid s) (initproc s) (ticks s) (rnd_next s) (first s)
    (kpgdir s) (res s).

(** Addresses of the locks proc.c and trap.c own, and of the wait channels. *)
Definition ptable_lock : Z := 1.
Definition tickslock : Z := 2.
Definition ticks_chan : Z := 3.
(** [chan] of a process that waits for its children is its own address. *)
Definition proc_chan (i : nat) : Z := 4096 + Z.of_nat i.

(** ** What proc.c needs from the rest of the kernel *)
Class ProcEnv (R : Type) := {
  forkret_addr : Z;
  trapret_addr : Z;
  ts_addr : nat → Z;                    (* &cpus[i].ts *)
  kalloc : M (pstate R) Z;
  kfree : Z → M (pstate R) unit;
  setupkvm : M (pstate R) Z;
  inituvm : Z → M (pstate R) unit;
  allocuvm : Z → Z → Z → M (pstate R) Z;
  deallocuvm : Z → Z → Z → M (pstate R) Z;
  copyuvm : Z → Z → M (pstate R) Z;
  freevm : Z → M (pstate R) unit;
  filedup : Z → M (pstate R) Z;
  fileclose : Z → M (pstate R) unit;
  idup : Z → M (pstate R) Z;
  iput : Z → M (pstate R) unit;
  namei_root : M (pstate R) Z;          (* namei("/") *)
  begin_op : M (pstate R) unit;
  end_op : M (pstate R) unit;
  iinit : M (pstate R) unit;            (* iinit(ROOTDEV) *)
  initlog : M (pstate R) unit }.        (* initlog(ROOTDEV) *)

Section routines.
Context {R : Type} {PE : ProcEnv R} {FU : Fuel}.
Abbreviation K := (M (pstate R)).

Definition on_mach {A} (m : M mach A) : K A := zoom machine (fun m s => s <| machine := m |>) m.
Definition get_proc (i : nat) : K proc := try_get (fun s => procs (ptable s) !! i).
Definition set_proc (i : nat) (f : proc → proc) : K unit :=
  modify (fun s => s <| ptable ::= upd i f |>).
Definition on_ptable (f : ptbl → option ptbl) : K unit :=
  try_modify (fun s => t ← f (ptable s); Some (s <| ptable := t |>)).
Definition ask_ptable {A} (f : ptbl → option A) : K A := try_get (fun s => f (ptable s)).
Definition lock (lk : Z) : K unit := on_mach (acquire lk).
Definition unlock (lk : Z) : K unit := on_mach (release lk).

Definition pinit : K unit :=
  on_mach (initlock ptable_lock "ptable") ;;;
  modify (fun s => s <| ptable ::= fun t => t <| count_queue ::= fun c =>
    <[3%nat := 0]> (<[2%nat := 0]> (<[1%nat := 0]> (<[0%nat := 0]> c))) |> |>).

(** The process running on this CPU, null if there is none. *)
Definition myproc : K (option nat) :=
  on_mach (pushcli ;;; i <- mycpu ;; c <- cpu_get i ;; popcli ;;; ret (cpu_proc c)).
(** [myproc()->...]: a null pointer is dereferenced when there is none. *)
Definition curproc : K nat :=
  o <- myproc ;; match o with Some p => ret p | None => fault end.

(** ** vm.c: switching address spaces *)

(** [c] is the CPU that executes, whose register is loaded. *)
Definition switchkvm (c : nat) : K unit :=
  kpg <- gets kpgdir ;;
  on_mach (cpu_set c (fun u => u <| cr3 := V2P kpg |>)).

Definition sizeof_taskstate : Z := 104.
(** The descriptor and task state [switchuvm] loads for a process. *)
Definition load_tss (i : nat) (ks : Z) (c : cpu) : cpu :=
  c <| gdt ::= <[SEG_TSS := (SEG16 STS_T32A (ts_addr i) (sizeof_taskstate - 1) 0) <| seg_s := 0 |>]> |>
    <| ts := mk_taskstate (Z.shiftl (Z.of_nat SEG_KDATA) 3) (u32 (ks + KSTACKSIZE)) 0xFFFF |>
    <| tr := Z.shiftl (Z.of_nat SEG_TSS) 3 |>.

(** [p] is an index of the table, so the test for a null [p] is not needed. *)
Definition switchuvm (p : nat) : K unit :=
  q <- get_proc p ;;
  if kstack q =? 0 then panic "switchuvm: no kstack" else
  if pgdir q =? 0 then panic "switchuvm: no pgdir" else
  on_mach (
    pushcli ;;;
    i <- mycpu ;;
    cpu_set i (load_tss i (kstack q)) ;;;
    cpu_set i (fun c => c <| cr3 := V2P (pgdir q) |>) ;;;
    popcli).

(** ** Giving up the CPU *)

Definition sched : K unit :=
  p <- myproc ;;
  h <- on_mach (holding ptable_lock) ;;
  if negb h then panic "sched ptable.lock" else
  n <- on_mach (i <- mycpu ;; c <- cpu_get i ;; ret (ncli c)) ;;
  if negb (n =? 1) then panic "sched locks" else
  i <- match p with Some i => ret i | None => fault end ;;
  q <- get_proc i ;;
  if is_state RUNNING q then panic "sched running" else
  e <- on_mach readeflags ;;
  if negb (Z.land e FL_IF =? 0) then panic "sched interruptible" else
  ena <- on_mach (i <- mycpu ;; c <- cpu_get i ;; ret (intena c)) ;;
  suspend SwtchSched ;;;
  on_mach (i <- mycpu ;; cpu_set i (fun c => c <| intena := ena |>)).

Definition yield : K unit :=
  lock ptable_lock ;;;
  i <- curproc ;;
  on_ptable (make_runnable i) ;;;
  sched ;;;
  unlock ptable_lock.

Definition sleep (ch lk : Z) : K unit :=
  o <- myproc ;;
  match o with
  | None => panic "sleep"
  | Some p =>
      if lk =? 0 then panic "sleep without lk" else
      (if negb (lk =? ptable_lock) then lock ptable_lock ;;; unlock lk else ret tt) ;;;
      set_proc p (fun q => q <| previousburst := bstime q |>) ;;;
      set_proc p updateBurst ;;;
      set_proc p (fun q => q <| chan := ch |> <| state := SLEEPING |> <| bstime := 0 |>) ;;;
      sched ;;;
      set_proc p (fun q => q <| chan := 0 |>) ;;;
      (if negb (lk =? ptable_lock) then unlock ptable_lock ;;; lock lk else ret tt)
  end.

Definition wakeup (ch : Z) : K unit :=
  lock ptable_lock ;;; on_ptable (wakeup1 ch) ;;; unlock ptable_lock.

Definition kill (the_pid : Z) : K Z :=
  lock ptable_lock ;;;
  r <- ask_ptable (fun t => fst <$> kill_tbl the_pid t) ;;
  on_ptable (fun t => snd <$> kill_tbl the_pid t) ;;;
  unlock ptable_lock ;;;
  ret r.

(** ** The clock interrupt's part of proc.c *)

Definition updateClock : K unit :=
  lock ptable_lock ;;; on_ptable updateClock_tbl ;;; unlock ptable_lock.
Definition upgradePriority_Aging : K unit :=
  lock ptable_lock ;;; on_ptable upgradePriority_Aging_tbl ;;; unlock ptable_lock.

(** The warning that [change_prio] prints is console output. *)
Definition change_prio (prio : Z) : K Z :=
  if (prio <? 1) || (4 <? prio) then ret (-1)
  else
    i <- curproc ;;
    set_proc i (fun p => p <| priority := prio - 1 |>) ;;;
    yield ;;;
    i <- curproc ;;
    p <- get_proc i ;;
    (if is_state RUNNABLE p
     then i <- curproc ;; on_ptable (auxTrocarFilaPriority i (prio - 1))
     else ret tt) ;;;
    ret 0.

(** ** The scheduler *)

(** The code that the four branches share once process [p] is chosen at
    position [pos] of queue [k]; [dec] is the queue whose counter is
    decremented. *)
Definition dispatch (c p k pos dec : nat) : K unit :=
  set_proc p (fun q => q <| clock := 0 |> <| readyTimeAging := 0 |>) ;;;
  on_mach (cpu_set c (fun u => u <| cpu_proc := Some p |>)) ;;;
  switchuvm p ;;;
  on_ptable (queue_shift k pos) ;;;
  on_ptable (fun t => Some (count_dec dec t)) ;;;
  set_proc p (fun q => q <| state := RUNNING |>) ;;;
  suspend (SwtchTo p) ;;;
  switchkvm c ;;;
  on_mach (cpu_set c (fun u => u <| cpu_proc := None |>)).

(** [p = ptable.queue_ready[k][pos]], later dereferenced. *)
Definition queue_at (k pos : nat) (t : ptbl) : option nat :=
  q ← queue_ready t !! k; c ← q !! pos; c.

Definition count (k : nat) : K Z := ask_ptable (fun t => count_queue t !! k).

Definition run_fcfs (c : nat) : K unit :=
  p <- ask_ptable (queue_at 3 0) ;; dispatch c p 3 0 3.
Definition run_sjf (c : nat) : K unit :=
  pos <- ask_ptable shortestBurst ;;
  p <- ask_ptable (queue_at 2 pos) ;; dispatch c p 2 pos 2.
Definition run_rr (c : nat) : K unit :=
  p <- ask_ptable (queue_at 1 0) ;; dispatch c p 1 0 1.
Definition run_loteria (c : nat) : K unit :=
  total <- ask_ptable loteria_Total ;;
  golden <- try_get (fun s => RandomInRange 0 total (rnd_next s)) ;;
  modify (fun s => s <| rnd_next := snd golden |>) ;;;
  w <- ask_ptable (fun t => cs ← cells t 0; lottery_loop t cs 0 0 (fst golden) None) ;;
  dispatch c (fst w) 0 (snd w) 2.

(** The choice of a queue and of its policy. *)
Definition run_next (c : nat) : K unit :=
  n3 <- count 3 ;;
  if 0 <? n3 then run_fcfs c else
  n2 <- count 2 ;;
  if 0 <? n2 then run_sjf c else
  n1 <- count 1 ;;
  if 0 <? n1 then run_rr c else
  n0 <- count 0 ;;
  if 0 <? n0 then run_loteria c else ret tt.

(** One iteration of the loop of [scheduler]. *)
Definition scheduler_iter (c : nat) : K unit :=
  on_mach sti ;;;
  lock ptable_lock ;;;
  run_next c ;;;
  unlock ptable_lock.

Definition scheduler : K unit :=
  c <- on_mach mycpu ;;
  on_mach (cpu_set c (fun u => u <| cpu_proc := None |>)) ;;;
  while fuel (ret true) (scheduler_iter c).

Definition forkret : K unit :=
  unlock ptable_lock ;;;
  f <- gets first ;;
  if f : bool then modify (fun s => s <| first := false |>) ;;; iinit ;;; initlog else ret tt.
End routines.
