(* ===== verification/Lifecycle.v ===== *)
(** * Creating and reaping processes (proc.c)

    [allocproc], [userinit], [growproc], [fork], [exit], [wait] and [wait2]. *)

From S2P Require Import Prelude Machine Spinlock CString ProcTable Proc.

Definition PGSIZE : Z := 4096.

(** The string "initcode" with its terminator. *)
Definition initcode_name : list Z := [105; 110; 105; 116; 99; 111; 100; 101; 0].

(** The scan of [wait] and [wait2]: the first zombie child of [cur], and
    whether a child was seen before it. *)
Fixpoint wait_scan (ps : list proc) (i cur : nat) (havekids : bool) : option nat * bool :=
  match ps with
  | [] => (None, havekids)
  | p :: ps' =>
      if negb (bool_decide (parent p = Some cur)) then wait_scan ps' (S i) cur havekids
      else if is_state ZOMBIE p then (Some i, true)
      else wait_scan ps' (S i) cur true
  end.

(** [wakeup1(p)] for a pointer [p] to a process: the channel is the address. *)
Definition parent_chan (o : option nat) : Z :=
  match o with Some j => proc_chan j | None => 0 end.

(** [exit]: children of [cur] go to init; a zombie among them wakes init. *)
Definition reparent_body (cur : nat) (init : option nat) (i : nat) (t : ptbl) : option ptbl :=
  p ← procs t !! i;
  if bool_decide (parent p = Some cur) then
    let t' := upd i (fun p => p <| parent := init |>) t in
    if is_state ZOMBIE p then
      wakeup1 (parent_chan init) t'
    else Some t'
  else Some t.
Definition reparent (cur : nat) (init : option nat) (t : ptbl) : option ptbl :=
  for_procs (reparent_body cur init) t.

Section lifecycle.
Context {R : Type} {PE : ProcEnv R} {FU : Fuel}.
Abbreviation K := (M (pstate R)).

(** The fields [allocproc] sets in the slot it finds. *)
Definition embryo (the_pid now : Z) (p : proc) : proc :=
  p <| state := EMBRYO |> <| pid := the_pid |>
    <| ctime := now |> <| stime := 0 |> <| retime := 0 |> <| rutime := 0 |>
    <| tickets := 10 |>
    <| estimatedburst := 2 |> <| previousburst := 0 |> <| bstime := 0 |>
    <| readyTimeAging := 0 |>.

(** The kernel stack: trap frame, return address, context. *)
Definition setup_stack (ks : Z) (p : proc) : proc :=
  let sp := u32 (u32 (ks + KSTACKSIZE) - sizeof_trapframe) in
  let sp2 := u32 (sp - 4) in
  let sp3 := u32 (sp2 - sizeof_context) in
  p <| tf_at := sp |> <| kret := trapret_addr |> <| context_at := sp3 |>
    <| ctx := zero_context <| c_eip := forkret_addr |> |>.

Definition allocproc : K (option nat) :=
  lock ptable_lock ;;;
  o <- gets (fun s => find_proc (is_state UNUSED) (procs (ptable s)) 0) ;;
  match o with
  | None => unlock ptable_lock ;;; ret None
  | Some i =>
      n <- gets nextpid ;;
      now <- gets ticks ;;
      set_proc i (embryo n now) ;;;
      modify (fun s => s <| nextpid := s32 (n + 1) |>) ;;;
      unlock ptable_lock ;;;
      ks <- kalloc ;;
      set_proc i (fun p => p <| kstack := ks |>) ;;;
      if ks =? 0 then
        set_proc i (fun p => p <| state := UNUSED |>) ;;; ret None
      else
        set_proc i (setup_stack ks) ;;; ret (Some i)
  end.

(** [p->priority = PRIO], the queue insertion and [p->state = RUNNABLE] at the
    end of [userinit] and [fork]. *)
Definition enqueue_new (i : nat) (t : ptbl) : option ptbl :=
  t' ← queue_add PRIO i (upd i (fun p => p <| priority := PRIO |>) t);
  Some (upd i (fun p => p <| state := RUNNABLE |>) t').

Definition user_tf : trapframe :=
  let ds := Z.lor (Z.shiftl (Z.of_nat SEG_UDATA) 3) DPL_USER in
  zero_trapframe <| t_cs := Z.lor (Z.shiftl (Z.of_nat SEG_UCODE) 3) DPL_USER |>
    <| t_ds := ds |> <| t_es := ds |> <| t_ss := ds |>
    <| t_eflags := FL_IF |> <| t_esp := PGSIZE |> <| t_eip := 0 |>.

(** [safestrcpy(p->name, src, sizeof(p->name))] *)
Definition set_name (i : nat) (src : list Z) : K unit :=
  p <- get_proc i ;;
  nm <- try_get (fun _ => safestrcpy (pname p) src 16) ;;
  set_proc i (fun p => p <| pname := nm |>).

Definition userinit : K unit :=
  o <- allocproc ;;
  modify (fun s => s <| initproc := o |>) ;;;
  i <- match o with Some i => ret i | None => fault end ;;
  pg <- setupkvm ;;
  set_proc i (fun p => p <| pgdir := pg |>) ;;;
  if pg =? 0 then panic "userinit: out of memory?" else
  inituvm pg ;;;
  now <- gets ticks ;;
  set_proc i (fun p => p <| ctime := now |> <| sz := PGSIZE |> <| tf := user_tf |>) ;;;
  set_name i initcode_name ;;;
  root <- namei_root ;;
  set_proc i (fun p => p <| cwd := root |>) ;;;
  lock ptable_lock ;;;
  on_ptable (enqueue_new i) ;;;
  unlock ptable_lock.

Definition growproc (n : Z) : K Z :=
  i <- curproc ;;
  p <- get_proc i ;;
  r <- (if 0 <? n then allocuvm (pgdir p) (sz p) (u32 (sz p + n))
        else if n <? 0 then deallocuvm (pgdir p) (sz p) (u32 (sz p + n))
        else ret (sz p)) ;;
  if negb (n =? 0) && (u32 r =? 0) then ret (-1)
  else
    set_proc i (fun p => p <| sz := u32 r |>) ;;;
    switchuvm i ;;;
    ret 0.

(** [fork]: the child's descriptors. *)
Definition fork_files (cur np : nat) : K unit :=
  for_range 0 NOFILE (fun fd =>
    c <- get_proc cur ;;
    f <- try_get (fun _ => ofile c !! fd) ;;
    if f =? 0 then ret tt
    else f' <- filedup f ;; set_proc np (fun p => p <| ofile ::= <[fd := f']> |>)).

(** [fork], once the child has a page table. *)
Definition fork_child (cur np : nat) : K Z :=
  c <- get_proc cur ;;
  set_proc np (fun p => p <| sz := sz c |> <| parent := Some cur |> <| tf := tf c |>) ;;;
  set_proc np (fun p => p <| tf ::= fun t => t <| t_eax := 0 |> |>) ;;;
  fork_files cur np ;;;
  c <- get_proc cur ;;
  d <- idup (cwd c) ;;
  set_proc np (fun p => p <| cwd := d |>) ;;;
  c <- get_proc cur ;;
  set_name np (pname c) ;;;
  p <- get_proc np ;;
  let the_pid := pid p in
  lock ptable_lock ;;;
  on_ptable (enqueue_new np) ;;;
  unlock ptable_lock ;;;
  ret the_pid.

Definition fork : K Z :=
  cur <- curproc ;;
  o <- allocproc ;;
  match o with
  | None => ret (-1)
  | Some np =>
      c <- get_proc cur ;;
      pg <- copyuvm (pgdir c) (sz c) ;;
      set_proc np (fun p => p <| pgdir := pg |>) ;;;
      if pg =? 0 then
        p <- get_proc np ;;
        kfree (kstack p) ;;;
        set_proc np (fun p => p <| kstack := 0 |> <| state := UNUSED |>) ;;;
        ret (-1)
      else fork_child cur np
  end.

(** [exit], from the moment the files are closed. *)
Definition exit_zombie (cur : nat) : K unit :=
  lock ptable_lock ;;;
  c <- get_proc cur ;;
  on_ptable (wakeup1 (parent_chan (parent c))) ;;;
  init <- gets initproc ;;
  on_ptable (reparent cur init) ;;;
  set_proc cur (fun p => p <| state := ZOMBIE |>) ;;;
  sched ;;;
  panic "zombie exit".

Definition exit : K unit :=
  cur <- curproc ;;
  init <- gets initproc ;;
  if bool_decide (init = Some cur) then panic "init exiting" else
  for_range 0 NOFILE (fun fd =>
    c <- get_proc cur ;;
    f <- try_get (fun _ => ofile c !! fd) ;;
    if f =? 0 then ret tt
    else fileclose f ;;; set_proc cur (fun p => p <| ofile ::= <[fd := 0]> |>)) ;;;
  begin_op ;;;
  c <- get_proc cur ;;
  iput (cwd c) ;;;
  end_op ;;;
  set_proc cur (fun p => p <| cwd := 0 |>) ;;;
  exit_zombie cur.

Definition set_name0 (p : proc) : proc := p <| pname ::= <[0%nat := 0]> |>.

(** The slot of a reaped child, as [wait] leaves it. *)
Definition reap (i : nat) : K Z :=
  p <- get_proc i ;;
  kfree (kstack p) ;;;
  set_proc i (fun p => p <| kstack := 0 |>) ;;;
  freevm (pgdir p) ;;;
  set_proc i (fun p => (set_name0 (p <| pid := 0 |> <| parent := None |>))
               <| killed := 0 |> <| ctime := 0 |> <| state := UNUSED |>) ;;;
  unlock ptable_lock ;;;
  ret (pid p).

Fixpoint wait_loop (n cur : nat) : K Z :=
  r <- gets (fun s => wait_scan (procs (ptable s)) 0 cur false) ;;
  match fst r with
  | Some i => reap i
  | None =>
      p <- get_proc cur ;;
      if negb (snd r) || negb (killed p =? 0) then unlock ptable_lock ;;; ret (-1)
      else match n with
           | O => fun _ => NoFuel
           | S n' => sleep (proc_chan cur) ptable_lock ;;; wait_loop n' cur
           end
  end.

Definition wait : K Z :=
  cur <- curproc ;; lock ptable_lock ;;; wait_loop fuel cur.

(** The values [wait2] stores through its three pointers. *)
Definition reap2 (i : nat) : K (Z * option (Z * Z * Z)) :=
  p <- get_proc i ;;
  kfree (kstack p) ;;;
  set_proc i (fun p => p <| kstack := 0 |>) ;;;
  freevm (pgdir p) ;;;
  set_proc i (fun p => (set_name0 (p <| state := UNUSED |> <| pid := 0 |> <| parent := None |>))
               <| killed := 0 |> <| ctime := 0 |> <| retime := 0 |> <| rutime := 0 |>
               <| stime := 0 |>) ;;;
  unlock ptable_lock ;;;
  ret (pid p, Some (retime p, rutime p, stime p)).

Fixpoint wait2_loop (n : nat) : K (Z * option (Z * Z * Z)) :=
  cur <- curproc ;;
  r <- gets (fun s => wait_scan (procs (ptable s)) 0 cur false) ;;
  match fst r with
  | Some i => reap2 i
  | None =>
      p <- get_proc cur ;;
      if negb (snd r) || negb (killed p =? 0) then unlock ptable_lock ;;; ret (-1, None)
      else match n with
           | O => fun _ => NoFuel
           | S n' => sleep (proc_chan cur) ptable_lock ;;; wait2_loop n'
           end
  end.

Definition wait2 : K (Z * option (Z * Z * Z)) := lock ptable_lock ;;; wait2_loop fuel.
End lifecycle.
