(* ===== verification/Ready.v ===== *)
(** * The ready-queue invariant

    [ready_ok]: queue [k] lists, without repetition, exactly the RUNNABLE
    processes of priority [k].  Every change the table goes through when a
    process becomes runnable, is dispatched, sleeps, ages or exits preserves
    it, and no access to the queues is out of range. *)

From S2P Require Import Prelude Machine Spinlock CString ProcTable Proc Lifecycle.

Definition in_queue (t : ptbl) (k i : nat) : Prop :=
  ∃ p, procs t !! i = Some p ∧ state p = RUNNABLE ∧ priority p = Z.of_nat k.

(** States in which the priority of a process has been set. *)
Definition active (p : proc) : Prop :=
  state p = SLEEPING ∨ state p = RUNNABLE ∨ state p = RUNNING.

Record ready_ok (t : ptbl) : Prop := {
  ready_shape : shape t;
  ready_queue : ∀ k, (k < NUMFILAS)%nat →
    ∃ l, queue_of t k = Some l ∧ NoDup l ∧ ∀ i, i ∈ l ↔ in_queue t k i;
  ready_prio : ∀ i p, procs t !! i = Some p → active p → 0 ≤ priority p < Z.of_nat NUMFILAS }.

(** ** Lookup in an updated table *)

Lemma is_state_true s p : is_state s p = true ↔ state p = s.
Proof. unfold is_state. by rewrite bool_decide_eq_true. Qed.

Lemma is_state_false s p : is_state s p = false ↔ state p ≠ s.
Proof. unfold is_state. by rewrite bool_decide_eq_false. Qed.

Lemma lookup_upd_eq t i f p : procs t !! i = Some p → procs (upd i f t) !! i = Some (f p).
Proof. intros H. simpl. by rewrite list_lookup_alter_eq, H. Qed.

Lemma lookup_upd_ne t i j f : i ≠ j → procs (upd i f t) !! j = procs t !! j.
Proof. intros H. simpl. by rewrite list_lookup_alter_ne. Qed.

Lemma lookup_upd_Some t i j f q :
  procs (upd i f t) !! j = Some q →
  (i = j ∧ ∃ p, procs t !! i = Some p ∧ q = f p) ∨ (i ≠ j ∧ procs t !! j = Some q).
Proof.
  destruct (decide (i = j)) as [<-|Hne].
  - simpl. rewrite list_lookup_alter_eq. destruct (procs t !! i) as [p|]; [|done].
    intros [= <-]. left. eauto.
  - rewrite lookup_upd_ne by done. auto.
Qed.

Lemma shape_upd t i f : shape t → shape (upd i f t).
Proof. intros [H1 H2 H3 H4]. split; simpl; try done. by rewrite length_alter. Qed.

Lemma in_queue_bound t k i : shape t → in_queue t k i → (i < NPROC)%nat.
Proof. intros Hsh (p & Hp & _). rewrite <- (shape_procs _ Hsh). by eapply lookup_lt_Some. Qed.

(** The part of [ready_ok] that does not depend on the queues. *)
Definition prio_ok (t : ptbl) : Prop :=
  ∀ i p, procs t !! i = Some p → active p → 0 ≤ priority p < Z.of_nat NUMFILAS.

Lemma prio_ok_upd t i f p :
  prio_ok t → procs t !! i = Some p → (active (f p) → 0 ≤ priority (f p) < Z.of_nat NUMFILAS) →
  prio_ok (upd i f t).
Proof.
  intros Ht Hp Hf j q Hq Ha. apply lookup_upd_Some in Hq as [(-> & p' & Hp' & ->)|[_ Hq]]; [|by eauto].
  rewrite Hp in Hp'. simplify_eq. auto.
Qed.

(** [ready_ok] for a table built from another by touching queue [k] and process [i]. *)
Lemma ready_ok_intro t t' i k l :
  ready_ok t → shape t' → prio_ok t' →
  (∀ j, j ≠ i → procs t' !! j = procs t !! j) →
  (∀ k', k' ≠ k → queue_of t' k' = queue_of t k') →
  (∀ k', (k' < NUMFILAS)%nat → k' ≠ k → ¬ in_queue t k' i ∧ ¬ in_queue t' k' i) →
  queue_of t' k = Some l → NoDup l → (∀ j, j ∈ l ↔ in_queue t' k j) →
  ready_ok t'.
Proof.
  intros Hok Hsh Hpr Hj Hk Hi Hq Hnd Hl. split; [done| |done].
  intros k' Hlt. destruct (decide (k' = k)) as [->|Hne]; [by eauto|].
  destruct (ready_queue _ Hok k' Hlt) as (l' & Hl' & Hnd' & Hin).
  exists l'. rewrite Hk by done. split_and!; [done..|]. intros j. rewrite Hin.
  destruct (decide (j = i)) as [->|Hji].
  - destruct (Hi k' Hlt Hne). tauto.
  - unfold in_queue. by rewrite Hj.
Qed.

(** ** A process that is not RUNNABLE changes without becoming RUNNABLE, or a
       RUNNABLE one keeps its state and priority *)
Lemma ready_ok_touch t i f p :
  ready_ok t → procs t !! i = Some p →
  (state (f p) = RUNNABLE ↔ state p = RUNNABLE) →
  (state p = RUNNABLE → priority (f p) = priority p) →
  (active (f p) → 0 ≤ priority (f p) < Z.of_nat NUMFILAS) →
  ready_ok (upd i f t).
Proof.
  intros Hok Hp Hst Hpr Hb.
  assert (∀ k j, in_queue (upd i f t) k j ↔ in_queue t k j) as Hin.
  { intros k j. unfold in_queue. destruct (decide (i = j)) as [<-|Hne].
    - rewrite (lookup_upd_eq _ _ _ _ Hp), Hp. split; intros (q & [= <-] & Hr & Hq).
      + exists p. assert (state p = RUNNABLE) by tauto. rewrite <- Hpr by done. tauto.
      + exists (f p). rewrite Hpr by done. tauto.
    - by rewrite lookup_upd_ne. }
  split.
  - apply shape_upd, Hok.
  - intros k Hk. destruct (ready_queue _ Hok k Hk) as (l & Hl & Hnd & Hi).
    exists l. split_and!; [done..|]. intros j. by rewrite Hin.
  - eapply prio_ok_upd; [exact (ready_prio _ Hok)|done|done].
Qed.

(** ** A process becomes RUNNABLE at the end of the queue of its priority *)
Lemma ready_ok_enqueue t i p k f :
  ready_ok t → procs t !! i = Some p → state p ≠ RUNNABLE → (k < NUMFILAS)%nat →
  state (f p) = RUNNABLE → priority (f p) = Z.of_nat k →
  ∃ t' l, queue_add (Z.of_nat k) i t = Some t' ∧ ready_ok (upd i f t') ∧ procs t' = procs t ∧
    queue_of t k = Some l ∧ queue_of t' k = Some (l ++ [i]) ∧
    ∀ k', k' ≠ k → queue_of t' k' = queue_of t k'.
Proof.
  intros Hok Hp Hst Hk Hf Hpr. destruct (ready_queue _ Hok k Hk) as (l & Hl & Hnd & Hin).
  assert (i ∉ l) as Hni.
  { rewrite Hin. intros (q & Hq & Hr & _). rewrite Hp in Hq. simplify_eq. }
  assert (length l < NPROC)%nat as Hlen.
  { apply (NoDup_below_length l NPROC i); [done| | |done].
    - intros j Hj%Hin. eapply in_queue_bound; [apply Hok|done].
    - rewrite <- (shape_procs _ (ready_shape _ Hok)). by eapply lookup_lt_Some. }
  destruct (queue_add_spec t k l i (ready_shape _ Hok) Hl Hlen) as (t' & Ha & Hsh & Hpt & Hqk & Hqo).
  exists t', l. split_and!; [done| |done..].
  assert (procs t' !! i = Some p) as Hp' by (by rewrite Hpt).
  apply (ready_ok_intro t _ i k (l ++ [i])); try done.
  - by apply shape_upd.
  - eapply prio_ok_upd; [|done|intros _; rewrite Hpr; lia].
    intros j q. rewrite Hpt. apply (ready_prio _ Hok).
  - intros j Hj. rewrite lookup_upd_ne by done. by rewrite Hpt.
  - intros k' Hk' Hne. split.
    + intros (q & Hq & Hr & _). rewrite Hp in Hq. simplify_eq.
    + intros (q & Hq & _ & Hq2). rewrite (lookup_upd_eq _ _ _ _ Hp') in Hq. simplify_eq.
      rewrite Hpr in Hq2. lia.
  - apply NoDup_app. split_and!; [done| |apply NoDup_singleton].
    intros j Hj. rewrite list_elem_of_singleton. intros ->. done.
  - intros j. rewrite elem_of_app, list_elem_of_singleton, Hin. split.
    + intros [(q & Hq & Hr & Hq2)| ->].
      * assert (j ≠ i) by (intros ->; rewrite Hp in Hq; simplify_eq).
        exists q. rewrite lookup_upd_ne by done. by rewrite Hpt.
      * exists (f p). rewrite (lookup_upd_eq _ _ _ _ Hp'). done.
    + intros (q & Hq & Hr & Hq2). destruct (decide (j = i)) as [->|Hne]; [by right|left].
      exists q. rewrite lookup_upd_ne, Hpt in Hq by done. done.
Qed.

(** ** A RUNNABLE process leaves its queue *)
Lemma ready_ok_dequeue t i p k l pos f :
  ready_ok t → procs t !! i = Some p → (k < NUMFILAS)%nat →
  queue_of t k = Some l → l !! pos = Some i →
  state (f p) ≠ RUNNABLE → (active (f p) → 0 ≤ priority (f p) < Z.of_nat NUMFILAS) →
  ∃ t', queue_shift k pos t = Some t' ∧ ready_ok (upd i f (count_dec k t')) ∧
    procs (count_dec k t') = procs t ∧ queue_of (count_dec k t') k = Some (remove_nth pos l) ∧
    ∀ k', k' ≠ k → queue_of (count_dec k t') k' = queue_of t k'.
Proof.
  intros Hok Hp Hk Hl Hpos Hf Hb. destruct (ready_queue _ Hok k Hk) as (l' & Hl' & Hnd & Hin).
  rewrite Hl in Hl'. simplify_eq.
  assert (in_queue t k i) as (p' & Hp' & Hr & Hpk) by (apply Hin, list_elem_of_lookup; eauto).
  rewrite Hp in Hp'. simplify_eq.
  destruct (queue_remove_spec t k l' pos i (ready_shape _ Hok) Hl Hpos) as (t' & Hs & Hsh & Hpt & Hqk & Hqo).
  exists t'. split_and!; [done| |done..].
  set (t1 := count_dec k t') in *. assert (procs t1 !! i = Some p') as Hp1 by (by rewrite Hpt).
  apply (ready_ok_intro t _ i k (remove_nth pos l')); try done.
  - by apply shape_upd.
  - eapply prio_ok_upd; [|done|done]. intros j q. rewrite Hpt. apply (ready_prio _ Hok).
  - intros j Hj. rewrite lookup_upd_ne by done. by rewrite Hpt.
  - intros k' Hk' Hne. split.
    + intros (q & Hq & _ & Hq2). rewrite Hp in Hq. simplify_eq. rewrite Hpk in Hq2. lia.
    + intros (q & Hq & Hq1 & _). rewrite (lookup_upd_eq _ _ _ _ Hp1) in Hq. by simplify_eq.
  - by apply NoDup_remove_nth.
  - intros j. rewrite (elem_of_remove_nth _ _ _ _ Hnd Hpos), Hin. split.
    + intros [(q & Hq & ?) Hne]. exists q. rewrite lookup_upd_ne by done. by rewrite Hpt.
    + intros (q & Hq & Hq1 & Hq2). destruct (decide (j = i)) as [->|Hne].
      * rewrite (lookup_upd_eq _ _ _ _ Hp1) in Hq. by simplify_eq.
      * split; [|done]. rewrite lookup_upd_ne, Hpt in Hq by done. exists q. done.
Qed.

(** ** Unique process ids among the slots in use *)
Definition pids_ok (t : ptbl) : Prop :=
  ∀ i j p q, procs t !! i = Some p → procs t !! j = Some q →
    state p ≠ UNUSED → state q ≠ UNUSED → pid p = pid q → i = j.

Definition sched_ok (t : ptbl) : Prop := ready_ok t ∧ pids_ok t.

Lemma pids_ok_upd t i f p :
  pids_ok t → procs t !! i = Some p → (state (f p) ≠ UNUSED → state p ≠ UNUSED ∧ pid (f p) = pid p) →
  pids_ok (upd i f t).
Proof.
  intros Ht Hp Hf j1 j2 q1 q2 H1 H2 Hu1 Hu2 Hpid.
  apply lookup_upd_Some in H1 as [(-> & p1 & Hp1 & ->)|[Hne1 H1]];
  apply lookup_upd_Some in H2 as [(? & p2 & Hp2 & ->)|[Hne2 H2]]; subst; simplify_eq; try done.
  - destruct (Hf Hu1) as [Hu Hid]. rewrite Hid in Hpid. by eapply Ht.
  - destruct (Hf Hu2) as [Hu Hid]. rewrite Hid in Hpid. by eapply Ht.
  - by eapply Ht.
Qed.

Lemma pids_ok_procs t t' : procs t' = procs t → pids_ok t → pids_ok t'.
Proof. intros Heq Ht. unfold pids_ok. by rewrite Heq. Qed.

(** ** Loops over the table: one body per slot, a map over the table *)

Lemma each_proc_map (I : ptbl → Prop) (body : nat → ptbl → option ptbl) (g : proc → proc) n lo t :
  (∀ i t p, I t → procs t !! i = Some p →
     ∃ t', body i t = Some t' ∧ I t' ∧ procs t' = alter g i (procs t)) →
  I t → (lo + n = length (procs t))%nat →
  ∃ t', each_proc (seq lo n) body t = Some t' ∧ I t' ∧
        procs t' = take lo (procs t) ++ (g <$> drop lo (procs t)).
Proof.
  intros Hb. revert lo t. induction n as [|n IH]; intros lo t Ht Hlen.
  - exists t. split_and!; [done..|]. rewrite drop_ge by lia. rewrite take_ge by lia.
    by rewrite app_nil_r.
  - destruct (procs t !! lo) as [p|] eqn:Hp; [|apply lookup_ge_None in Hp; lia].
    destruct (Hb lo t p Ht Hp) as (t1 & H1 & Ht1 & Hp1).
    destruct (IH (S lo) t1 Ht1) as (t2 & H2 & Ht2 & Hp2); [rewrite Hp1, length_alter; lia|].
    exists t2. split_and!; [simpl; by rewrite H1|done|].
    rewrite Hp2, Hp1, (drop_S _ p lo Hp). rewrite drop_alter_lt by lia. simpl.
    rewrite (take_S_r _ lo (g p)) by (by rewrite list_lookup_alter_eq, Hp).
    rewrite take_alter_ge by lia. by rewrite <- app_assoc.
Qed.

Lemma for_procs_map (I : ptbl → Prop) body (g : proc → proc) t :
  (∀ i t p, I t → procs t !! i = Some p →
     ∃ t', body i t = Some t' ∧ I t' ∧ procs t' = alter g i (procs t)) →
  I t → length (procs t) = NPROC →
  ∃ t', for_procs body t = Some t' ∧ I t' ∧ procs t' = g <$> procs t.
Proof.
  intros Hb Ht Hlen. destruct (each_proc_map I body g NPROC 0 t Hb Ht) as (t' & H1 & H2 & H3); [lia|].
  exists t'. by rewrite drop_0 in H3.
Qed.

Lemma alter_id_ext (f : proc → proc) i (ps : list proc) :
  (∀ p, ps !! i = Some p → f p = p) → alter f i ps = ps.
Proof.
  intros H. apply list_eq. intros j. destruct (decide (i = j)) as [<-|Hne].
  - rewrite list_lookup_alter_eq. destruct (ps !! i) as [p|] eqn:Hp; [|done]. simpl. by rewrite H.
  - by rewrite list_lookup_alter_ne.
Qed.

(** ** [make_runnable], [wakeup1], [kill] *)

Lemma make_runnable_spec t i p :
  sched_ok t → procs t !! i = Some p → state p = SLEEPING ∨ state p = RUNNING →
  ∃ t' k l, make_runnable i t = Some t' ∧ sched_ok t' ∧
    procs t' = alter (fun p => p <| state := RUNNABLE |>) i (procs t) ∧
    priority p = Z.of_nat k ∧ queue_of t k = Some l ∧ queue_of t' k = Some (l ++ [i]) ∧
    ∀ k', k' ≠ k → queue_of t' k' = queue_of t k'.
Proof.
  intros [Hok Hpid] Hp Hst.
  assert (0 ≤ priority p < Z.of_nat NUMFILAS) as Hpr.
  { apply (ready_prio _ Hok i p Hp). unfold active. tauto. }
  destruct (ready_ok_enqueue t i p (Z.to_nat (priority p)) (fun p => p <| state := RUNNABLE |>))
    as (t' & l & Ha & Hok' & Hpt & Hl & Hl' & Ho); try done; [destruct Hst; congruence|lia|simpl; lia|].
  rewrite Z2Nat.id in Ha by lia.
  exists (upd i (fun p => p <| state := RUNNABLE |>) t'), (Z.to_nat (priority p)), l.
  split_and!; try done; [unfold make_runnable; by rewrite Hp; simpl; rewrite Ha| |by simpl; rewrite Hpt|lia].
  split; [done|]. apply (pids_ok_upd _ _ _ p); [by eapply pids_ok_procs|by rewrite Hpt|].
  intros _. split; [|done]. destruct Hst; congruence.
Qed.

(** What [wakeup1] does to one process. *)
Definition wake (ch : Z) (p : proc) : proc :=
  if is_state SLEEPING p && (chan p =? ch) then p <| state := RUNNABLE |> else p.

Lemma wakeup1_spec t ch :
  sched_ok t →
  ∃ t', wakeup1 ch t = Some t' ∧ sched_ok t' ∧ procs t' = wake ch <$> procs t.
Proof.
  intros Ht. apply for_procs_map; [|done|apply Ht].
  intros i t1 p Ht1 Hp. unfold wakeup1_body. rewrite Hp. simpl.
  destruct (is_state SLEEPING p && (chan p =? ch)) eqn:E.
  - assert (state p = SLEEPING) as Hst by (unfold is_state in E; by breflect).
    destruct (make_runnable_spec t1 i p) as (t2 & k & l & H1 & H2 & H3 & _); [done..|by left|].
    exists t2. split_and!; [done..|]. rewrite H3. apply list_alter_ext; [|done].
    intros q Hq. rewrite Hp in Hq. simplify_eq. unfold wake. by rewrite E.
  - exists t1. split_and!; [done..|]. symmetry. apply alter_id_ext.
    intros q Hq. rewrite Hp in Hq. simplify_eq. unfold wake. by rewrite E.
Qed.

Lemma sched_ok_touch t i f p :
  sched_ok t → procs t !! i = Some p →
  state (f p) = state p → priority (f p) = priority p → pid (f p) = pid p →
  sched_ok (upd i f t).
Proof.
  intros [Hok Hpid] Hp Hst Hpr Hid. split.
  - eapply ready_ok_touch; try done; [by rewrite Hst|].
    unfold active. rewrite Hst, Hpr. apply (ready_prio _ Hok i p Hp).
  - eapply pids_ok_upd; [done..|]. rewrite Hst. done.
Qed.

Lemma find_proc_Some test ps i j :
  find_proc test ps i = Some j →
  (i ≤ j)%nat ∧ (∃ p, ps !! (j - i)%nat = Some p ∧ test p = true) ∧
  ∀ j' p, (j' < j - i)%nat → ps !! j' = Some p → test p = false.
Proof.
  revert i. induction ps as [|p ps IH]; intros i; simpl; [done|].
  destruct (test p) eqn:E.
  - intros [= <-]. rewrite Nat.sub_diag. split_and!; [lia|by eauto|lia].
  - intros (Hle & (q & Hq & Hqt) & Hall)%IH. replace (j - i)%nat with (S (j - S i)) by lia.
    split_and!; [lia|by eauto|]. intros [|j'] q' Hlt Hj'; simpl in *; [by simplify_eq|].
    eapply Hall; [|done]. lia.
Qed.

Lemma find_proc_None test ps i :
  find_proc test ps i = None → ∀ j p, ps !! j = Some p → test p = false.
Proof.
  revert i. induction ps as [|p ps IH]; intros i; simpl; [done|].
  destruct (test p) eqn:E; [done|]. intros H [|j] q Hq; simpl in Hq; [by simplify_eq|by eauto].
Qed.

Lemma kill_tbl_spec t the_pid :
  sched_ok t →
  ∃ r t', kill_tbl the_pid t = Some (r, t') ∧ sched_ok t' ∧
    ((r = -1 ∧ t' = t ∧ ∀ i p, procs t !! i = Some p → pid p ≠ the_pid) ∨
     (r = 0 ∧ ∃ i p, procs t !! i = Some p ∧ pid p = the_pid ∧
        procs t' = alter (fun p => (if is_state SLEEPING p then p <| state := RUNNABLE |> else p)
                                     <| killed := 1 |>) i (procs t))).
Proof.
  intros Ht. unfold kill_tbl.
  destruct (find_proc (fun p => pid p =? the_pid) (procs t) 0) as [i|] eqn:Hf.
  2:{ exists (-1), t. split_and!; [done..|]. left. split_and!; [done..|]. intros i p Hp.
      pose proof (find_proc_None _ _ _ Hf i p Hp). simpl in *. by breflect. }
  apply find_proc_Some in Hf as (_ & (p & Hp & Hid) & _). rewrite Nat.sub_0_r in Hp. breflect.
  rewrite Hp. cbn [mbind option_bind]. set (t1 := upd i (fun p => p <| killed := 1 |>) t).
  assert (sched_ok t1) as Ht1 by (by apply (sched_ok_touch _ _ _ p)).
  assert (procs t1 !! i = Some (p <| killed := 1 |>)) as Hp1 by (by apply lookup_upd_eq).
  destruct (is_state SLEEPING p) eqn:E.
  - destruct (make_runnable_spec t1 i _ Ht1 Hp1) as (t2 & k & l & H1 & H2 & H3 & _);
      [left; by apply is_state_true|].
    exists 0, t2. rewrite H1. split_and!; [done..|]. right. split; [done|]. exists i, p.
    split_and!; [done..|]. rewrite H3. simpl. rewrite list_alter_alter_eq.
    apply list_alter_ext; [|done]. intros q Hq. rewrite Hp in Hq. simplify_eq/=.
    by rewrite E.
  - exists 0, t1. split_and!; [done..|]. right. split; [done|]. exists i, p.
    split_and!; [done..|]. simpl. apply list_alter_ext; [|done]. intros q Hq. rewrite Hp in Hq.
    simplify_eq. by rewrite E.
Qed.
