(* ===== verification/Aging.v ===== *)
(** * The clock tick: accounting and aging (proc.c)

    [updateClock] and [upgradePriority_Aging] as maps over the process table,
    the preservation of the ready-queue invariant by the moves between queues,
    and the bound on the ticks a runnable process waits below queue 3. *)

From S2P Require Import Prelude Machine Spinlock CString ProcTable Proc Lifecycle Ready.

(** ** [updateClock] *)

(** What one tick does to one process. *)
Definition clk (p : proc) : proc :=
  match state p with
  | SLEEPING => p <| stime ::= fun x => s32 (x + 1) |> <| clock := 0 |>
  | RUNNABLE => p <| retime ::= fun x => s32 (x + 1) |>
                  <| readyTimeAging ::= fun x => s32 (x + 1) |> <| clock := 0 |>
  | RUNNING => p <| bstime ::= fun x => s32 (x + 1) |>
                 <| rutime ::= fun x => s32 (x + 1) |> <| clock ::= fun x => s32 (x + 1) |>
  | _ => p
  end.

Lemma clk_fields p : state (clk p) = state p ∧ priority (clk p) = priority p ∧ pid (clk p) = pid p.
Proof. unfold clk. by destruct (state p) eqn:E; simpl; rewrite ?E. Qed.

Lemma updateClock_tbl_spec t :
  sched_ok t →
  ∃ t', updateClock_tbl t = Some t' ∧ sched_ok t' ∧ procs t' = clk <$> procs t.
Proof.
  intros Ht. apply for_procs_map; [|done|apply Ht].
  intros i t1 p Ht1 Hp. exists (upd i clk t1). split_and!.
  - unfold updateClock_body. rewrite Hp. cbn [mbind option_bind]. f_equal.
    unfold upd. destruct t1 as [ps qs cs]. simpl in *. unfold clk.
    destruct (state p) eqn:E; simpl; f_equal; try (symmetry; apply alter_id_ext);
      try apply list_alter_ext; try done;
      intros q Hq; rewrite Hp in Hq; simplify_eq; by rewrite E.
  - destruct (clk_fields p) as (? & ? & ?). by apply (sched_ok_touch _ _ _ p).
  - done.
Qed.

(** ** Moving a process to the next queue *)

Lemma queue_add_upd pr j i f t : queue_add pr j (upd i f t) = upd i f <$> queue_add pr j t.
Proof.
  unfold queue_add. simpl. destruct (index pr) as [k|]; [|done]. simpl.
  destruct (count_queue t !! k) as [c|]; [|done]. simpl.
  destruct (queue_ready t !! k) as [q|]; [|done]. simpl.
  destruct (index c) as [n|]; [|done]. simpl. by destruct (n <? length q)%nat.
Qed.

Lemma queue_shift_upd k pos i f t : queue_shift k pos (upd i f t) = upd i f <$> queue_shift k pos t.
Proof.
  unfold queue_shift. simpl. destruct (count_queue t !! k) as [c|]; [|done]. simpl.
  destruct (queue_ready t !! k) as [q|]; [|done]. simpl.
  by destruct (shift_down _ pos q).
Qed.

Lemma count_dec_upd k i f t : count_dec k (upd i f t) = upd i f (count_dec k t).
Proof. done. Qed.

Lemma upd_upd i f h t : upd i f (upd i h t) = upd i (f ∘ h) t.
Proof. unfold upd. simpl. by rewrite list_alter_alter_eq. Qed.

Lemma upd_ext i f h t p : procs t !! i = Some p → f p = h p → upd i f t = upd i h t.
Proof.
  intros Hp Hfh. unfold upd. simpl. f_equal. apply list_alter_ext; [|done].
  intros q Hq. rewrite Hp in Hq. by simplify_eq.
Qed.

Lemma cells_queue_of t k l : queue_of t k = Some l → cells t k = Some (Some <$> l).
Proof.
  intros (q & Hc & Hq & Hle & Htk)%queue_of_Some. unfold cells. rewrite Hc. simpl. rewrite Hq. simpl.
  rewrite Nat2Z.id, Htk. by destruct (Nat.leb_spec (length l) (length q)); [|lia].
Qed.

(** The search by pid stops at the position of the process itself. *)
Lemma find_pid_spec t the_pid l off d :
  (∀ j, j ∈ l → is_Some (procs t !! j)) →
  (∀ pos, (∀ r j p, l !! r = Some j → procs t !! j = Some p → pid p = the_pid → r = pos) →
     (∃ j p, l !! pos = Some j ∧ procs t !! j = Some p ∧ pid p = the_pid) →
     find_pid the_pid t (Some <$> l) off d = Some (off + pos)%nat) ∧
  ((∀ j p, j ∈ l → procs t !! j = Some p → pid p ≠ the_pid) →
     find_pid the_pid t (Some <$> l) off d = Some d).
Proof.
  revert off d. induction l as [|j l IH]; intros off d Hin.
  - split; [|done]. intros pos _ (j & p & Hj & _). done.
  - destruct (Hin j) as [p Hp]; [by left|]. cbn [find_pid fmap list_fmap].
    destruct (IH (S off) (if pid p =? the_pid then off else d)) as [IH1 IH2].
    { intros j' Hj'. apply Hin. by right. }
    split.
    + intros pos Hu (j' & q & Hj' & Hq & Hid). simpl. rewrite Hp. simpl.
      destruct (Z.eqb_spec (pid p) the_pid) as [E|E].
      * assert (0%nat = pos) as <- by (by eapply (Hu 0%nat)). rewrite Nat.add_0_r.
        apply IH2. intros j2 p2 [r Hr]%list_elem_of_lookup Hp2 Hid2.
        pose proof (Hu (S r) j2 p2 Hr Hp2 Hid2). lia.
      * destruct pos as [|pos]; [simpl in Hj'; simplify_eq|].
        rewrite (IH1 pos); [f_equal; lia| |by eauto].
        intros r j2 p2 Hr Hp2 Hid2. pose proof (Hu (S r) j2 p2 Hr Hp2 Hid2). lia.
    + intros Hno. simpl. rewrite Hp. simpl.
      destruct (Z.eqb_spec (pid p) the_pid) as [E|E]; [by destruct (Hno j p); [left|..]|].
      apply IH2. intros j2 p2 Hj2. apply Hno. by right.
Qed.

Lemma find_pid_upd the_pid i f t cs off d :
  (∀ q, pid (f q) = pid q) → find_pid the_pid (upd i f t) cs off d = find_pid the_pid t cs off d.
Proof.
  intros Hf. revert off d. induction cs as [|[j|] cs IH]; intros off d; [done| |done].
  cbn [find_pid mbind option_bind]. destruct (decide (i = j)) as [<-|Hne].
  - destruct (procs t !! i) as [q|] eqn:Hq.
    + rewrite (lookup_upd_eq _ _ _ _ Hq). cbn [mbind option_bind]. rewrite Hf. apply IH.
    + simpl. by rewrite list_lookup_alter_eq, Hq.
  - rewrite lookup_upd_ne by done. destruct (procs t !! j); [|done]. apply IH.
Qed.

(** What a promotion does to the process. *)
Definition promote (p : proc) : proc :=
  p <| priority ::= fun x => x + 1 |> <| readyTimeAging := 0 |>.

(** The position the search finds is the position of the process. *)
Lemma find_own_pid t i p k l pos :
  sched_ok t → procs t !! i = Some p → state p = RUNNABLE →
  queue_of t k = Some l → NoDup l → (∀ j, j ∈ l ↔ in_queue t k j) → l !! pos = Some i →
  find_pid (pid p) t (Some <$> l) 0 0 = Some pos.
Proof.
  intros [Hok Hpid] Hp Hst Hl Hnd Hin Hpos.
  assert (∀ j, j ∈ l → is_Some (procs t !! j)) as Hall by (intros j (q & Hq & _)%Hin; eauto).
  destruct (find_pid_spec t (pid p) l 0 0 Hall) as [Hf _]. apply (Hf pos); [|by eauto].
  intros r j q Hr Hq Hid.
  assert (in_queue t k j) as (q' & Hq' & Hqs & _) by (apply Hin, list_elem_of_lookup; eauto).
  rewrite Hq in Hq'. simplify_eq.
  assert (j = i) as -> by (apply (Hpid j i q' p); congruence).
  by eapply NoDup_lookup.
Qed.

(** Taking a process out of queue [k] and appending it to queue [k + 1]. *)
Lemma move_queue t i p k l pos :
  ready_ok t → procs t !! i = Some p → state p = RUNNABLE → priority p = Z.of_nat k →
  (k + 1 < NUMFILAS)%nat → queue_of t k = Some l → l !! pos = Some i →
  ∃ t1 t2, queue_shift k pos t = Some t1 ∧
    queue_add (Z.of_nat k + 1) i (count_dec k t1) = Some t2 ∧
    procs t2 = procs t ∧ ready_ok (upd i promote t2).
Proof.
  intros Hok Hp Hst Hpr Hk Hl Hpos. set (off := fun p => p <| state := EMBRYO |>).
  destruct (ready_ok_dequeue t i p k l pos off)
    as (t1 & Hs & Hok1 & Hpt1 & _); try done; [lia|by intros [?|[?|?]]|].
  assert (procs (upd i off (count_dec k t1)) !! i = Some (off p)) as Hp2
    by (apply lookup_upd_eq; by rewrite Hpt1).
  destruct (ready_ok_enqueue _ i _ (k + 1) (fun q => (promote q) <| state := RUNNABLE |>) Hok1 Hp2)
    as (t3 & l3 & Ha & Hok3 & Hpt3 & _); try done; [simpl; lia|].
  rewrite Nat2Z.inj_add, queue_add_upd in Ha. simpl (Z.of_nat 1) in Ha.
  destruct (queue_add _ i (count_dec k t1)) as [t4|] eqn:Ha4; [|done]. simpl in Ha. simplify_eq.
  assert (procs t4 = procs t) as Hp4 by (rewrite (queue_add_procs _ _ _ _ Ha4); done).
  exists t1, t4. split_and!; [done..|].
  rewrite upd_upd in Hok3. erewrite (upd_ext _ promote); [done|by rewrite Hp4|].
  unfold compose, promote, off. destruct p. simpl in *. by subst.
Qed.

Lemma promote_spec t i p k :
  sched_ok t → procs t !! i = Some p → state p = RUNNABLE → priority p = Z.of_nat k →
  (k + 1 < NUMFILAS)%nat →
  ∃ t', auxTrocarFilaPriority i (Z.of_nat k + 1) (upd i (fun p => p <| priority ::= fun x => x + 1 |>) t)
          = Some t' ∧ sched_ok t' ∧ procs t' = alter promote i (procs t).
Proof.
  intros Ht Hp Hst Hpr Hk. pose proof Ht as [Hok Hpid].
  destruct (ready_queue _ Hok k ltac:(lia)) as (l & Hl & Hnd & Hin).
  assert (i ∈ l) as [pos Hpos]%list_elem_of_lookup by (apply Hin; by exists p).
  destruct (move_queue t i p k l pos) as (t1 & t2 & Hs & Ha & Hp2 & Hok2); [done..|].
  exists (upd i promote t2). split_and!.
  - unfold auxTrocarFilaPriority.
    replace (Z.of_nat k + 1 - 1) with (Z.of_nat k) by lia. rewrite index_of_nat. cbn [mbind option_bind].
    erewrite lookup_upd_eq by done. cbn [mbind option_bind].
    assert (∀ f, cells (upd i f t) k = cells t k) as -> by done.
    rewrite (cells_queue_of _ _ _ Hl). cbn [mbind option_bind]. rewrite find_pid_upd by done.
    simpl pid. rewrite (find_own_pid t i p k l pos) by done. cbn [mbind option_bind].
    rewrite queue_shift_upd, Hs. cbn [fmap option_fmap option_map mbind option_bind].
    rewrite count_dec_upd, queue_add_upd, Ha. cbn [fmap option_fmap option_map mbind option_bind].
    by rewrite upd_upd.
  - split; [done|]. eapply pids_ok_upd; [by eapply pids_ok_procs|by rewrite Hp2|].
    intros _. split; [by rewrite Hst|done].
  - simpl. by rewrite Hp2.
Qed.

(** ** [upgradePriority_Aging] *)

(** What it does to one process. *)
Definition age (p : proc) : proc :=
  if is_state RUNNABLE p &&
     (((priority p =? 0) && (T1TO2 <=? readyTimeAging p)) ||
      ((priority p =? 1) && (T2TO3 <=? readyTimeAging p)) ||
      ((priority p =? 2) && (T3TO4 <=? readyTimeAging p)))
  then promote p else p.

Lemma aging_body_spec t i p :
  sched_ok t → procs t !! i = Some p →
  ∃ t', aging_body i t = Some t' ∧ sched_ok t' ∧ procs t' = alter age i (procs t).
Proof.
  intros Ht Hp. unfold aging_body. rewrite Hp. cbn [mbind option_bind].
  assert (∀ t', procs t' = alter promote i (procs t) → age p = promote p →
            procs t' = alter age i (procs t)) as Hage.
  { intros t' -> Ha. apply list_alter_ext; [|done]. intros q Hq. rewrite Hp in Hq. by simplify_eq. }
  unfold age in *.
  destruct (is_state RUNNABLE p) eqn:Hst; simpl.
  2:{ exists t. split_and!; [done..|]. symmetry. apply alter_id_ext. intros q Hq. rewrite Hp in Hq.
      simplify_eq. by rewrite Hst. }
  apply is_state_true in Hst.
  destruct ((priority p =? 0) && (T1TO2 <=? readyTimeAging p)) eqn:E0; simpl in *.
  { breflect. destruct (promote_spec t i p 0) as (t' & ? & ? & ?); try done; [unfold NUMFILAS; lia|].
    exists t'. auto. }
  destruct ((priority p =? 1) && (T2TO3 <=? readyTimeAging p)) eqn:E1; simpl in *.
  { breflect. destruct (promote_spec t i p 1) as (t' & ? & ? & ?); try done; [unfold NUMFILAS; lia|].
    exists t'. auto. }
  destruct ((priority p =? 2) && (T3TO4 <=? readyTimeAging p)) eqn:E2; simpl in *.
  { breflect. destruct (promote_spec t i p 2) as (t' & ? & ? & ?); try done; [unfold NUMFILAS; lia|].
    exists t'. auto. }
  exists t. split_and!; [done..|]. symmetry. apply alter_id_ext. intros q Hq. rewrite Hp in Hq.
  simplify_eq. rewrite E0, E1, E2. by rewrite andb_false_r.
Qed.

Lemma aging_tbl_spec t :
  sched_ok t →
  ∃ t', upgradePriority_Aging_tbl t = Some t' ∧ sched_ok t' ∧ procs t' = age <$> procs t.
Proof.
  intros Ht. apply for_procs_map; [|done|apply Ht]. intros i t1 p Ht1 Hp. by apply (aging_body_spec t1 i p).
Qed.

(** ** The work of one timer interrupt on the table (trap.c, CPU 0) *)

Definition tick_tbl (t : ptbl) : option ptbl :=
  t' ← updateClock_tbl t; upgradePriority_Aging_tbl t'.

Fixpoint ticks_tbl (n : nat) (t : ptbl) : option ptbl :=
  match n with O => Some t | S n' => t' ← tick_tbl t; ticks_tbl n' t' end.

Lemma tick_tbl_spec t :
  sched_ok t → ∃ t', tick_tbl t = Some t' ∧ sched_ok t' ∧ procs t' = (age ∘ clk) <$> procs t.
Proof.
  intros Ht. destruct (updateClock_tbl_spec t Ht) as (t1 & H1 & Ht1 & Hp1).
  destruct (aging_tbl_spec t1 Ht1) as (t2 & H2 & Ht2 & Hp2).
  exists t2. unfold tick_tbl. rewrite H1. cbn [mbind option_bind]. split_and!; [done..|].
  by rewrite Hp2, Hp1, <- list_fmap_compose.
Qed.

(** ** How long a runnable process can stay below queue 3 *)

(** Ticks until a RUNNABLE process reaches queue 3. *)
Definition ticks_left (p : proc) : Z :=
  if priority p =? 0 then Z.max 1 (T1TO2 - readyTimeAging p) + T2TO3 + T3TO4
  else if priority p =? 1 then Z.max 1 (T2TO3 - readyTimeAging p) + T3TO4
  else if priority p =? 2 then Z.max 1 (T3TO4 - readyTimeAging p)
  else 0.

(** A RUNNABLE process whose counters are in range. *)
Definition waiting (p : proc) : Prop :=
  state p = RUNNABLE ∧ 0 ≤ priority p ≤ 3 ∧
  (priority p < 3 → 0 ≤ readyTimeAging p < 2 ^ 31 - 1).

Lemma s32_small z : - 2 ^ 31 ≤ z < 2 ^ 31 → s32 z = z.
Proof. intros H. unfold s32. rewrite Z.mod_small; lia. Qed.

Lemma age_clk_step p :
  waiting p → waiting (age (clk p)) ∧
  (ticks_left (age (clk p)) ≤ Z.max 0 (ticks_left p - 1)).
Proof.
  intros (Hst & Hpr & Hra). unfold clk. rewrite Hst.
  unfold age, is_state, ticks_left, waiting. simpl. rewrite Hst. simpl.
  unfold T1TO2, T2TO3, T3TO4.
  assert (priority p = 0 ∨ priority p = 1 ∨ priority p = 2 ∨ priority p = 3) as Hc by lia.
  destruct Hc as [E|[E|[E|E]]]; rewrite E; simpl.
  1-3: rewrite s32_small by lia; split_if; simpl; rewrite ?E; simpl; split_and!; try done; try lia.
  rewrite ?E. split_and!; try done; lia.
Qed.

Lemma ticks_tbl_wait n t i p :
  sched_ok t → procs t !! i = Some p → waiting p →
  ∃ t' p', ticks_tbl n t = Some t' ∧ sched_ok t' ∧ procs t' !! i = Some p' ∧ waiting p' ∧
    ticks_left p' ≤ Z.max 0 (ticks_left p - Z.of_nat n).
Proof.
  revert t p. induction n as [|n IH]; intros t p Ht Hp Hw.
  - exists t, p. split_and!; try done. lia.
  - destruct (tick_tbl_spec t Ht) as (t1 & H1 & Ht1 & Hp1).
    destruct (age_clk_step p Hw) as [Hw1 Hl1].
    destruct (IH t1 (age (clk p)) Ht1) as (t' & p' & H2 & Ht' & Hp' & Hw' & Hl'); [|done|].
    { by rewrite Hp1, list_lookup_fmap, Hp. }
    exists t', p'. split_and!; try done; [cbn [ticks_tbl]; rewrite H1; done|lia].
Qed.

Lemma ticks_left_0 p : 0 ≤ priority p ≤ 3 → ticks_left p ≤ 0 → priority p = 3.
Proof.
  intros H. unfold ticks_left, T1TO2, T2TO3, T3TO4. repeat split_if; lia.
Qed.

