(* ===== verification/ProcLemmas.v ===== *)
(** * Stepping through kernel routines

    What the locking and table accesses of proc.c return in a state whose
    machine is well formed, and the machine states they leave. *)

From S2P Require Import Prelude Machine Spinlock CString ProcTable Proc Lifecycle Ready Aging.

(** Changes of a CPU record that commute with the nesting depth of [pushcli]
    and leave what identifies the CPU. *)
Record cpu_neutral (f : cpu → cpu) : Prop := {
  neutral_apicid : ∀ c, apicid (f c) = apicid c;
  neutral_ncli : ∀ c g, f (c <| ncli ::= g |>) = (f c) <| ncli ::= g |>;
  neutral_intena : ∀ c, intena (f c) = intena c }.

Lemma neutral_ncli_eq f c : cpu_neutral f → ncli (f c) = ncli c.
Proof.
  intros Hf. assert (c = c <| ncli ::= fun _ => ncli c |>) as Hc by (by destruct c).
  rewrite Hc at 1. by rewrite (neutral_ncli _ Hf).
Qed.

Lemma mach_ok_alter m i c f :
  cpu_neutral f → mach_ok m i c → mach_ok (m <| cpus ::= alter f i |>) i (f c).
Proof.
  intros Hf [Hs Hc Hn Hif]. split.
  - rewrite self_alter; [done|apply Hf].
  - simpl. by rewrite list_lookup_alter_eq, Hc.
  - by rewrite neutral_ncli_eq.
  - rewrite neutral_ncli_eq by done. exact Hif.
Qed.

(** A change of this CPU's record bracketed by [pushcli] and [popcli] while a
    lock is held. *)
Lemma popped_alter_pushed m i c f :
  cpu_neutral f → mach_ok m i c → 0 < ncli c →
  popped i (f (push_cpu (eflags m) c)) ((pushed i m) <| cpus ::= alter f i |>) =
  m <| cpus ::= alter f i |>.
Proof.
  intros Hf [Hs Hc Hn Hif] Hpos. pose proof (Hif Hpos) as Hoff. unfold if_on in Hoff. breflect.
  unfold popped, pushed. rewrite (neutral_ncli_eq _ _ Hf), push_cpu_ncli.
  replace (ncli c + 1 =? 1) with false by lia. simpl. rewrite ldiff_off by done.
  f_equal. rewrite !list_alter_alter_eq.
  apply list_eq. intros j. destruct (decide (i = j)) as [<-|Hne].
  2:{ by rewrite !list_lookup_alter_ne. }
  rewrite !list_lookup_alter_eq, Hc. simpl. f_equal.
  assert (push_cpu (eflags m) c = c <| ncli ::= fun n => n + 1 |>) as ->.
  { unfold push_cpu. by destruct (Z.eqb_spec (ncli c) 0); [lia|]. }
  rewrite (neutral_ncli _ Hf). destruct (f c). simpl. f_equal. lia.
Qed.

(** CPU [c] holds exactly the lock at [lk]; it holds no lock and [lk] is free. *)
Record holds_only (m : mach) (c : nat) (u : cpu) (lk : Z) : Prop := {
  ho_ok : mach_ok m c u;
  ho_ncli : ncli u = 1;
  ho_lock : ∃ l, locks m !! lk = Some l ∧ locked l ≠ 0 ∧ lk_cpu l = Some c }.
Record no_lock (m : mach) (c : nat) (u : cpu) (lk : Z) : Prop := {
  nl_ok : mach_ok m c u;
  nl_ncli : ncli u = 0;
  nl_lock : ∃ l, locks m !! lk = Some l ∧ is_free l }.

Lemma holds_only_alter m c u lk f :
  cpu_neutral f → holds_only m c u lk → holds_only (m <| cpus ::= alter f c |>) c (f u) lk.
Proof.
  intros Hf [Hok Hn Hl]. split; [by apply mach_ok_alter|by rewrite neutral_ncli_eq|done].
Qed.

Lemma acquired_holds_only m c u lk :
  no_lock m c u lk → holds_only (acquired c lk m) c (push_cpu (eflags m) u) lk.
Proof.
  intros [Hok Hn (l & Hl & H0 & _)]. split.
  - by apply mach_ok_acquired.
  - rewrite push_cpu_ncli. lia.
  - exists (take_lock c l). by rewrite (locks_acquired _ _ _ _ Hl).
Qed.

Lemma released_no_lock m c u lk :
  holds_only m c u lk → no_lock (released c u lk m) c (u <| ncli := 0 |>) lk.
Proof.
  intros [[Hs Hc Hn Hif] H1 (l & Hl & H0 & Hcpu)]. unfold released, popped. rewrite H1. simpl.
  assert (∀ m', cpus m' = cpus m → lapicid m' = lapicid m → ncpu m' = ncpu m →
            self (m' <| cpus ::= alter (fun c => c <| ncli ::= fun n => n - 1 |>) c |>) = Some c) as Hself.
  { intros m' Hm1 Hm2 Hm3. rewrite self_alter by done. unfold self in *. by rewrite Hm1, Hm2, Hm3. }
  assert (alter (fun c => c <| ncli ::= fun n => n - 1 |>) c (cpus m) !! c = Some (u <| ncli := 0 |>)) as Hlk.
  { rewrite list_lookup_alter_eq, Hc. simpl. do 2 f_equal. lia. }
  split; [split|done|exists (free_lock l)]; try (by split_if); try done.
  - split_if; by apply Hself.
  - split_if; simpl; rewrite lookup_alter_eq, Hl; done.
Qed.

Section stepping.
Context {R : Type} {PE : ProcEnv R} {FU : Fuel}.
Implicit Types s : pstate R.

Lemma on_mach_ret {A} (f : M mach A) s a m' :
  f (machine s) = Ret a m' → on_mach f s = Ret a (s <| machine := m' |>).
Proof. intros H. unfold on_mach, zoom. by rewrite H. Qed.

Lemma ask_ptable_ret {A} (f : ptbl → option A) s a : f (ptable s) = Some a → ask_ptable f s = Ret a s.
Proof. intros H. unfold ask_ptable, try_get. by rewrite H. Qed.

Lemma on_ptable_ret f s t : f (ptable s) = Some t → on_ptable f s = Ret tt (s <| ptable := t |>).
Proof. intros H. unfold on_ptable, try_modify. by rewrite H. Qed.

Lemma get_proc_ret i s p : procs (ptable s) !! i = Some p → get_proc i s = Ret p s.
Proof. intros H. unfold get_proc, try_get. by rewrite H. Qed.

Lemma set_machine_id s : s <| machine := machine s |> = s.
Proof. by destruct s. Qed.

Lemma lock_ret lk s i c l :
  mach_ok (machine s) i c → locks (machine s) !! lk = Some l → locked l = 0 →
  lock lk s = Ret tt (s <| machine ::= acquired i lk |>).
Proof. intros Hok Hl H0. apply on_mach_ret. by eapply acquire_ret. Qed.

Lemma unlock_ret lk s i c l :
  mach_ok (machine s) i c → 0 < ncli c → locks (machine s) !! lk = Some l →
  locked l ≠ 0 → lk_cpu l = Some i →
  unlock lk s = Ret tt (s <| machine ::= released i c lk |>).
Proof. intros Hok Hn Hl H0 Hi. apply on_mach_ret. by eapply release_ret. Qed.

Lemma myproc_ret s i c :
  mach_ok (machine s) i c → myproc s = Ret (cpu_proc c) (s <| machine ::= synced i |>).
Proof.
  intros Hok. apply on_mach_ret. pose proof (mach_ok_pushed _ _ _ Hok) as Hok'.
  erewrite bind_ret by (apply pushcli_ret; by eauto with xv6).
  erewrite bind_ret by (apply mycpu_ret; [apply if_on_pushed|by eauto with xv6]).
  erewrite bind_ret by (unfold cpu_get, try_get; by rewrite (ok_cpu _ _ _ Hok')).
  erewrite bind_ret by (eapply popcli_ret; eauto using if_on_pushed with xv6;
    rewrite push_cpu_ncli; pose proof (ok_ncli _ _ _ Hok); lia).
  rewrite popped_pushed by done. unfold ret, push_cpu. by split_if.
Qed.

Lemma lock_ret' lk s c u :
  no_lock (machine s) c u lk → lock lk s = Ret tt (s <| machine ::= acquired c lk |>).
Proof. intros [Hok _ (l & Hl & H0 & _)]. by eapply lock_ret. Qed.

Lemma unlock_ret' lk s c u :
  holds_only (machine s) c u lk → unlock lk s = Ret tt (s <| machine ::= released c u lk |>).
Proof. intros [Hok H1 (l & Hl & H0 & Hc)]. eapply unlock_ret; eauto. lia. Qed.

(** While a lock is held the call leaves no trace. *)
Lemma myproc_locked s i c :
  mach_ok (machine s) i c → 0 < ncli c → myproc s = Ret (cpu_proc c) s.
Proof.
  intros Hok Hn. rewrite (myproc_ret _ _ _ Hok). f_equal. destruct s. simpl in *.
  f_equal. by eapply synced_id.
Qed.

Lemma curproc_locked s i c p :
  mach_ok (machine s) i c → 0 < ncli c → cpu_proc c = Some p → curproc s = Ret p s.
Proof.
  intros Hok Hn Hp. unfold curproc. rewrite (bind_ret _ _ _ _ _ (myproc_locked _ _ _ Hok Hn)).
  by rewrite Hp.
Qed.

(** ** [switchuvm] *)

Definition enter (i : nat) (q : proc) (c : cpu) : cpu :=
  (load_tss i (kstack q) c) <| cr3 := V2P (pgdir q) |>.

Lemma enter_neutral i q : cpu_neutral (enter i q).
Proof. by split; intros []. Qed.

Lemma switchuvm_ret s p q i c :
  mach_ok (machine s) i c → 0 < ncli c → procs (ptable s) !! p = Some q →
  kstack q ≠ 0 → pgdir q ≠ 0 →
  switchuvm p s = Ret tt (s <| machine ::= fun m => m <| cpus ::= alter (enter i q) i |> |>).
Proof.
  intros Hok Hn Hp Hk Hg. unfold switchuvm. rewrite (bind_ret _ _ _ _ _ (get_proc_ret _ _ _ Hp)).
  destruct (Z.eqb_spec (kstack q) 0); [done|]. destruct (Z.eqb_spec (pgdir q) 0); [done|].
  apply (on_mach_ret _ s tt ((machine s) <| cpus ::= alter (enter i q) i |>)). pose proof (mach_ok_pushed _ _ _ Hok) as Hok'.
  erewrite bind_ret by (apply pushcli_ret; by eauto with xv6).
  erewrite bind_ret by (apply mycpu_ret; [apply if_on_pushed|by eauto with xv6]).
  erewrite bind_ret by reflexivity. erewrite bind_ret by reflexivity.
  set (m1 := (pushed i (machine s)) <| cpus ::= alter (enter i q) i |>).
  transitivity (popcli m1).
  { f_equal. unfold m1. simpl. f_equal. by rewrite list_alter_alter_eq. }
  pose proof (mach_ok_alter _ _ _ _ (enter_neutral i q) Hok') as Hok1.
  rewrite <- (popped_alter_pushed _ _ _ _ (enter_neutral i q) Hok Hn).
  eapply popcli_ret; [apply Hok1|apply if_on_pushed|apply Hok1|].
  rewrite neutral_ncli_eq, push_cpu_ncli by apply enter_neutral. lia.
Qed.
End stepping.
