(* ===== verification/Scheduler.v ===== *)
(** * Scheduling decisions (proc.c)

    What [scheduler] does in one iteration, from the ready queues as lists: the
    order of the queues, FCFS and round robin heads, the shortest estimated
    burst, the lottery and its random numbers; and the effect of the iteration
    on the ready-queue invariant. *)

From S2P Require Import Prelude Machine Spinlock CString ProcTable Proc Lifecycle Ready Aging ProcLemmas.

(** ** Shortest job first *)

(** Every process of a list is in the table. *)
Definition present (t : ptbl) (l : list nat) : Prop := ∀ j, j ∈ l → is_Some (procs t !! j).

Definition burst (t : ptbl) (j : nat) : Z :=
  match procs t !! j with Some p => estimatedburst p | None => 0 end.

Lemma present_cons t j l : present t (j :: l) → is_Some (procs t !! j) ∧ present t l.
Proof. intros H. split; [apply H; by left|]. intros j' Hj'. apply H. by right. Qed.

(** The loop keeps a position whose burst is the smallest seen. *)
Lemma shortest_loop_spec t l off sh pos :
  present t l →
  ∃ r, shortest_loop t (Some <$> l) off sh pos = Some r ∧
    ((r = pos ∧ ∀ j, j ∈ l → sh ≤ burst t j) ∨
     (∃ n j, r = (off + n)%nat ∧ l !! n = Some j ∧ burst t j < sh ∧
        (∀ j', j' ∈ l → burst t j ≤ burst t j') ∧
        ∀ n' j', (n' < n)%nat → l !! n' = Some j' → burst t j < burst t j')).
Proof.
  revert off sh pos. induction l as [|j l IH]; intros off sh pos Hpr.
  { exists pos. split; [done|]. left. split; [done|]. intros j Hj. by apply elem_of_nil in Hj. }
  apply present_cons in Hpr as [[p Hp] Hpr].
  assert (burst t j = estimatedburst p) as Hb by (unfold burst; by rewrite Hp).
  cbn [shortest_loop fmap list_fmap mbind option_bind]. rewrite Hp. cbn [mbind option_bind].
  rewrite <- Hb. destruct (Z.ltb_spec (burst t j) sh) as [Hlt|Hge].
  - destruct (IH (S off) (burst t j) off Hpr) as (r & Hr & Hcase). exists r. split; [done|]. right.
    destruct Hcase as [[-> Hmin]|(n & j2 & -> & Hn & Hlt2 & Hmin & Hfirst)].
    + exists 0%nat, j. split_and!; [lia|done|done| |lia].
      intros j' [->|Hj']%elem_of_cons; [lia|by apply Hmin].
    + exists (S n), j2. split_and!; [lia|done|lia| |].
      * intros j' [->|Hj']%elem_of_cons; [lia|by apply Hmin].
      * intros [|n'] j' Hn' Hj'; simpl in Hj'; [by simplify_eq|]. eapply Hfirst; [|done]. lia.
  - destruct (IH (S off) sh pos Hpr) as (r & Hr & Hcase). exists r. split; [done|].
    destruct Hcase as [[-> Hmin]|(n & j2 & -> & Hn & Hlt2 & Hmin & Hfirst)].
    + left. split; [done|]. intros j' [->|Hj']%elem_of_cons; [done|by apply Hmin].
    + right. exists (S n), j2. split_and!; [lia|done|done| |].
      * intros j' [->|Hj']%elem_of_cons; [lia|by apply Hmin].
      * intros [|n'] j' Hn' Hj'; simpl in Hj'; [simplify_eq; lia|]. eapply Hfirst; [|done]. lia.
Qed.

(** The position SJF takes: the first process of least estimated burst, or the
    head when no estimate is below 10000. *)
Definition sjf_choice (t : ptbl) (l : list nat) (pos j : nat) : Prop :=
  l !! pos = Some j ∧
  ((pos = 0%nat ∧ ∀ j', j' ∈ l → 10000 ≤ burst t j') ∨
   (burst t j < 10000 ∧ (∀ j', j' ∈ l → burst t j ≤ burst t j') ∧
    ∀ n' j', (n' < pos)%nat → l !! n' = Some j' → burst t j < burst t j')).

Lemma shortestBurst_spec t l :
  queue_of t 2 = Some l → present t l → l ≠ [] →
  ∃ pos j, shortestBurst t = Some pos ∧ sjf_choice t l pos j.
Proof.
  intros Hq Hpr Hne. unfold shortestBurst. rewrite (cells_queue_of _ _ _ Hq). cbn [mbind option_bind].
  destruct (shortest_loop_spec t l 0 10000 0 Hpr) as (r & Hr & Hcase).
  destruct Hcase as [[-> Hmin]|(n & j & -> & Hn & Hlt & Hmin & Hfirst)].
  - destruct l as [|j l]; [done|]. exists 0%nat, j. split; [done|]. split; [done|]. by left.
  - exists n, j. split; [done|]. split; [done|]. by right.
Qed.

(** ** The lottery *)

Definition tk (t : ptbl) (j : nat) : Z :=
  match procs t !! j with Some p => tickets p | None => 0 end.
Definition ticket_sum (t : ptbl) (l : list nat) : Z := foldr (fun j acc => tk t j + acc) 0 l.

Lemma ticket_sum_nonneg t l : (∀ j, j ∈ l → 0 ≤ tk t j) → 0 ≤ ticket_sum t l.
Proof.
  induction l as [|j l IH]; intros H; simpl; [done|].
  assert (0 ≤ tk t j) by (apply H; by left). assert (0 ≤ ticket_sum t l); [|lia].
  apply IH. intros j' Hj'. apply H. by right.
Qed.

Lemma total_loop_spec t l acc :
  (∀ j, j ∈ l → ∃ p, procs t !! j = Some p ∧ state p = RUNNABLE ∧ 0 ≤ tickets p) →
  0 ≤ acc → acc + ticket_sum t l < 2 ^ 31 →
  total_loop t (Some <$> l) acc = Some (acc + ticket_sum t l).
Proof.
  revert acc. induction l as [|j l IH]; intros acc Hin Hacc Hb; simpl in *; [f_equal; lia|].
  destruct (Hin j) as (p & Hp & Hst & Htk); [by left|].
  assert (∀ j, j ∈ l → ∃ p, procs t !! j = Some p ∧ state p = RUNNABLE ∧ 0 ≤ tickets p) as Hin'.
  { intros j' Hj'. apply Hin. by right. }
  assert (0 ≤ ticket_sum t l).
  { apply ticket_sum_nonneg. intros j' (q & Hq & _ & ?)%Hin'. unfold tk. by rewrite Hq. }
  assert (tk t j = tickets p) as Hj by (unfold tk; by rewrite Hp).
  rewrite Hp. simpl. rewrite (proj2 (is_state_true _ _) Hst). simpl.
  rewrite s32_small by lia. rewrite IH by (done || lia). f_equal. lia.
Qed.

(** The winner of ticket [golden]: the tickets before it do not reach it,
    those up to and including its own do. *)
Definition winner (t : ptbl) (l : list nat) (golden : Z) (aux j : nat) : Prop :=
  l !! aux = Some j ∧ (aux = 0%nat ∨ ticket_sum t (take aux l) < golden) ∧
  golden ≤ ticket_sum t (take (S aux) l).

Lemma lottery_loop_spec t l aux count golden last :
  (∀ j, j ∈ l → ∃ p, procs t !! j = Some p ∧ 0 ≤ tickets p) →
  0 ≤ count → count + ticket_sum t l < 2 ^ 31 → l ≠ [] →
  golden ≤ count + ticket_sum t l →
  ∃ n j, lottery_loop t (Some <$> l) aux count golden last = Some (j, (aux + n)%nat) ∧
    l !! n = Some j ∧ (n = 0%nat ∨ count + ticket_sum t (take n l) < golden) ∧
    golden ≤ count + ticket_sum t (take (S n) l).
Proof.
  revert aux count last. induction l as [|j l IH]; intros aux count last Hin Hc Hb Hne Hg; [done|].
  destruct (Hin j) as (p & Hp & Htk); [by left|].
  assert (∀ j, j ∈ l → ∃ p, procs t !! j = Some p ∧ 0 ≤ tickets p) as Hin'.
  { intros j' Hj'. apply Hin. by right. }
  assert (0 ≤ ticket_sum t l).
  { apply ticket_sum_nonneg. intros j' (q & Hq & ?)%Hin'. unfold tk. by rewrite Hq. }
  assert (tk t j = tickets p) as Hj by (unfold tk; by rewrite Hp).
  cbn [lottery_loop fmap list_fmap mbind option_bind]. rewrite Hp. cbn [mbind option_bind].
  cbn [ticket_sum foldr] in Hb, Hg. fold (ticket_sum t l) in Hb, Hg.
  rewrite s32_small by lia. destruct (Z.ltb_spec (count + tickets p) golden) as [Hlt|Hge].
  - destruct (IH (S aux) (count + tickets p) (Some j)) as (n & j2 & Hr & Hn & Hlo & Hhi);
      [done|lia|lia|intros ->; simpl in *; lia|lia|].
    exists (S n), j2. rewrite Hr. split_and!; [f_equal; f_equal; lia|done| |].
    + right. cbn [take ticket_sum foldr]. fold (ticket_sum t (take n l)).
      destruct Hlo as [->|Hlo]; [simpl; lia|lia].
    + cbn [take ticket_sum foldr]. fold (ticket_sum t (take (S n) l)). lia.
  - exists 0%nat, j. split_and!; [by rewrite Nat.add_0_r|done|by left|]. simpl. lia.
Qed.

(** ** Random numbers *)

Lemma Random_range x : 0 ≤ x < 10000 → 0 ≤ Random x < 10000.
Proof.
  intros Hx. unfold Random. rewrite s32_small by nia.
  assert (0 ≤ x * x) by nia. rewrite Z.quot_div_nonneg, Z.rem_mod_nonneg by lia || (apply Z.div_pos; lia).
  apply Z.mod_pos_bound. lia.
Qed.

Lemma RandomInRange_spec total x :
  0 ≤ x < 10000 → 0 ≤ total < 2 ^ 31 - 1 →
  ∃ g, RandomInRange 0 total x = Some (g, Random x) ∧ 0 ≤ g ≤ total.
Proof.
  intros Hx Ht. pose proof (Random_range x Hx). unfold RandomInRange.
  rewrite (s32_small (total + 1 - 0)) by lia.
  destruct (Z.eqb_spec (total + 1 - 0) 0); [lia|].
  rewrite Z.rem_mod_nonneg by lia.
  pose proof (Z.mod_pos_bound (Random x) (total + 1 - 0)).
  exists (Random x mod (total + 1 - 0)). split; [|lia]. do 2 f_equal. rewrite s32_small; lia.
Qed.

(** ** The scheduler's iteration *)

(** What the dispatch of a process changes in its record and in its CPU's. *)
Definition to_running (q : proc) : proc :=
  q <| clock := 0 |> <| readyTimeAging := 0 |> <| state := RUNNING |>.

(** RUNNABLE processes have a kernel stack and a page table. *)
Definition loadable (t : ptbl) : Prop :=
  ∀ i p, procs t !! i = Some p → state p = RUNNABLE → kstack p ≠ 0 ∧ pgdir p ≠ 0.

Section scheduling.
Context {R : Type} {PE : ProcEnv R} {FU : Fuel}.
Implicit Types s : pstate R.

Definition run_cpu (c p : nat) (q : proc) (u : cpu) : cpu := enter c q (u <| cpu_proc := Some p |>).

Definition after_switch (c : nat) : M (pstate R) unit :=
  switchkvm c ;;; on_mach (cpu_set c (fun u => u <| cpu_proc := None |>)).

Lemma set_cpu_proc_neutral o : cpu_neutral (fun u => u <| cpu_proc := o |>).
Proof. by split; intros []. Qed.

Lemma run_cpu_neutral c p q : cpu_neutral (run_cpu c p q).
Proof. by split; intros []. Qed.

Lemma dispatch_wait c p k pos dec s u q t' :
  mach_ok (machine s) c u → 0 < ncli u → procs (ptable s) !! p = Some q →
  kstack q ≠ 0 → pgdir q ≠ 0 → queue_shift k pos (ptable s) = Some t' →
  dispatch c p k pos dec s =
    Wait (SwtchTo p)
      (s <| machine ::= fun m => m <| cpus ::= alter (run_cpu c p q) c |> |>
         <| ptable := upd p to_running (count_dec dec t') |>)
      (after_switch c).
Proof.
  intros Hok Hn Hq Hk Hg Hs. unfold dispatch.
  set (f := fun q : proc => q <| clock := 0 |> <| readyTimeAging := 0 |>).
  erewrite bind_ret by reflexivity. erewrite bind_ret by (by apply on_mach_ret).
  erewrite bind_ret.
  2:{ eapply (switchuvm_ret _ p (f q) c).
      - apply (mach_ok_alter _ _ _ _ (set_cpu_proc_neutral (Some p)) Hok).
      - done.
      - simpl. by rewrite list_lookup_alter_eq, Hq.
      - done.
      - done. }
  erewrite bind_ret by (apply (on_ptable_ret _ _ (upd p f t')); simpl; fold (upd p f (ptable s));
    by rewrite queue_shift_upd, Hs).
  unfold bind, suspend. simpl. f_equal. destruct s. simpl. f_equal.
  all: unfold upd, count_dec; simpl; by rewrite list_alter_alter_eq.
Qed.

(** The table after process [i] at position [pos] of queue [k] was dispatched. *)
Record dispatched (t t' : ptbl) (k : nat) (l : list nat) (pos i : nat) : Prop := {
  disp_procs : procs t' = alter to_running i (procs t);
  disp_queue : queue_of t' k = Some (remove_nth pos l);
  disp_other : ∀ k', k' ≠ k → queue_of t' k' = queue_of t k';
  disp_ok : sched_ok t' }.

Lemma dispatch_ok c s u k l pos i :
  mach_ok (machine s) c u → 0 < ncli u → sched_ok (ptable s) → loadable (ptable s) →
  (k < NUMFILAS)%nat → queue_of (ptable s) k = Some l → l !! pos = Some i →
  ∃ q t', procs (ptable s) !! i = Some q ∧ dispatched (ptable s) t' k l pos i ∧
    dispatch c i k pos k s =
    Wait (SwtchTo i)
      (s <| machine ::= fun m => m <| cpus ::= alter (run_cpu c i q) c |> |> <| ptable := t' |>)
      (after_switch c).
Proof.
  intros Hok Hn [Hr Hpid] Hld Hk Hl Hpos.
  destruct (ready_queue _ Hr k Hk) as (l' & Hl' & Hnd & Hin). rewrite Hl in Hl'. simplify_eq.
  assert (in_queue (ptable s) k i) as (q & Hq & Hst & Hpr) by (apply Hin, list_elem_of_lookup; eauto).
  destruct (Hld i q Hq Hst) as [Hks Hpg].
  destruct (ready_ok_dequeue (ptable s) i q k l' pos to_running) as (t' & Hs & Hr' & Hp' & Hqk & Hqo);
    try done; [simpl; intros _; apply (ready_prio _ Hr i q Hq); right; by left|].
  exists q, (upd i to_running (count_dec k t')). split_and!; [done| |by apply (dispatch_wait _ _ _ _ _ _ u)].
  split; [cbn [upd update procs]; by rewrite <- Hp'|done|done|].
  split; [done|]. eapply (pids_ok_upd _ _ _ q); [by eapply pids_ok_procs|by rewrite Hp'|].
  intros _. split; [congruence|done].
Qed.

(** ** Which process runs next *)

(** The policy of the queues 3, 2 and 1: the first process of queue 3; if that
    is empty, the first one with the shortest estimated burst of queue 2; if
    that is empty too, the first of queue 1. *)
Definition choice (t : ptbl) (k : nat) (l : list nat) (pos i : nat) : Prop :=
  queue_of t k = Some l ∧ (∀ k', (k < k' < NUMFILAS)%nat → queue_of t k' = Some []) ∧
  ((k = 3%nat ∧ pos = 0%nat ∧ l !! pos = Some i) ∨
   (k = 2%nat ∧ sjf_choice t l pos i) ∨
   (k = 1%nat ∧ pos = 0%nat ∧ l !! pos = Some i)).

Lemma queue_count s k l :
  queue_of (ptable s) k = Some l → count k s = Ret (Z.of_nat (length l)) s.
Proof. intros (q & Hc & _)%queue_of_Some. by apply ask_ptable_ret. Qed.

Lemma queue_head s k i l :
  queue_of (ptable s) k = Some (i :: l) → ask_ptable (queue_at k 0) s = Ret i s.
Proof.
  intros (q & _ & Hq & _ & Htk)%queue_of_Some. apply ask_ptable_ret. unfold queue_at.
  rewrite Hq. simpl. destruct q as [|o q]; [done|]. simpl in Htk. by simplify_eq/=.
Qed.

Lemma queue_nth s k l pos i :
  queue_of (ptable s) k = Some l → l !! pos = Some i → ask_ptable (queue_at k pos) s = Ret i s.
Proof.
  intros (q & _ & Hq & Hle & Htk)%queue_of_Some Hi. apply ask_ptable_ret. unfold queue_at.
  rewrite Hq. simpl. pose proof (lookup_lt_Some _ _ _ Hi).
  rewrite <- (lookup_take_lt q (length l)), Htk, list_lookup_fmap, Hi by done. done.
Qed.

Lemma queue_present t k l :
  sched_ok t → (k < NUMFILAS)%nat → queue_of t k = Some l → present t l.
Proof.
  intros [Hr _] Hk Hl j Hj. destruct (ready_queue _ Hr k Hk) as (l' & Hl' & _ & Hin).
  rewrite Hl in Hl'. simplify_eq. apply Hin in Hj as (p & Hp & _). eauto.
Qed.

(** The four queues of a consistent table. *)
Lemma four_queues t :
  sched_ok t →
  ∃ l0 l1 l2 l3, queue_of t 0 = Some l0 ∧ queue_of t 1 = Some l1 ∧
                 queue_of t 2 = Some l2 ∧ queue_of t 3 = Some l3.
Proof.
  intros [Hr _]. unfold NUMFILAS in *.
  destruct (ready_queue _ Hr 0) as (l0 & ? & _); [unfold NUMFILAS; lia|].
  destruct (ready_queue _ Hr 1) as (l1 & ? & _); [unfold NUMFILAS; lia|].
  destruct (ready_queue _ Hr 2) as (l2 & ? & _); [unfold NUMFILAS; lia|].
  destruct (ready_queue _ Hr 3) as (l3 & ? & _); [unfold NUMFILAS; lia|].
  exists l0, l1, l2, l3. done.
Qed.

Lemma run_next_picks c s u :
  mach_ok (machine s) c u → 0 < ncli u → sched_ok (ptable s) → loadable (ptable s) →
  (∃ k i l, (1 ≤ k < NUMFILAS)%nat ∧ queue_of (ptable s) k = Some (i :: l)) →
  ∃ k l pos i q t', choice (ptable s) k l pos i ∧ procs (ptable s) !! i = Some q ∧
    dispatched (ptable s) t' k l pos i ∧
    run_next c s =
    Wait (SwtchTo i)
      (s <| machine ::= fun m => m <| cpus ::= alter (run_cpu c i q) c |> |> <| ptable := t' |>)
      (after_switch c).
Proof.
  intros Hok Hn Ht Hld (k0 & i0 & r0 & Hk0 & Hq0). unfold NUMFILAS in Hk0.
  destruct (four_queues _ Ht) as (l0 & l1 & l2 & l3 & H0 & H1 & H2 & H3).
  unfold run_next. rewrite (bind_ret _ _ _ _ _ (queue_count _ _ _ H3)).
  destruct l3 as [|i l3]; simpl.
  2:{ destruct (dispatch_ok c s u 3 (i :: l3) 0 i) as (q & t' & Hq & Hd & Hw); try done; [unfold NUMFILAS; lia|].
      exists 3%nat, (i :: l3), 0%nat, i, q, t'. split_and!; try done.
      - split_and!; [done|unfold NUMFILAS; lia|by left].
      - unfold run_fcfs. by rewrite (bind_ret _ _ _ _ _ (queue_head _ _ _ _ H3)). }
  rewrite (bind_ret _ _ _ _ _ (queue_count _ _ _ H2)).
  assert (∀ k', (2 < k' < NUMFILAS)%nat → queue_of (ptable s) k' = Some []) as E3.
  { intros k' ?. unfold NUMFILAS in *. by assert (k' = 3)%nat as -> by lia. }
  destruct l2 as [|j l2]; simpl.
  2:{ destruct (shortestBurst_spec (ptable s) (j :: l2)) as (pos & i & Hs & Hc);
        [done|by apply (queue_present _ 2); [|unfold NUMFILAS; lia|]|done|].
      destruct (dispatch_ok c s u 2 (j :: l2) pos i) as (q & t' & Hq & Hd & Hw); try done;
        [unfold NUMFILAS; lia|apply Hc|].
      exists 2%nat, (j :: l2), pos, i, q, t'. split_and!; try done.
      - split_and!; [done|done|by right; left].
      - unfold run_sjf. rewrite (bind_ret _ _ _ _ _ (ask_ptable_ret _ _ _ Hs)).
        by rewrite (bind_ret _ _ _ _ _ (queue_nth _ _ _ _ _ H2 (proj1 Hc))). }
  rewrite (bind_ret _ _ _ _ _ (queue_count _ _ _ H1)).
  destruct l1 as [|i l1]; simpl.
  { exfalso. assert (k0 = 1%nat ∨ k0 = 2%nat ∨ k0 = 3%nat) as [->|[->| ->]] by lia; congruence. }
  destruct (dispatch_ok c s u 1 (i :: l1) 0 i) as (q & t' & Hq & Hd & Hw); try done; [unfold NUMFILAS; lia|].
  exists 1%nat, (i :: l1), 0%nat, i, q, t'. split_and!; try done.
  - split_and!; [done| |by right; right]. intros k' Hk'. unfold NUMFILAS in *.
    by assert (k' = 2%nat ∨ k' = 3%nat) as [->| ->] by lia.
  - unfold run_rr. by rewrite (bind_ret _ _ _ _ _ (queue_head _ _ _ _ H1)).
Qed.

(** ** The whole iteration *)

(** The state in which the choice is made: interrupts were enabled for an
    instant, then the lock was taken. *)
Definition taken (c : nat) (s : pstate R) : pstate R :=
  s <| machine ::= fun m => acquired c ptable_lock (m <| eflags ::= fun e => Z.lor e FL_IF |>) |>.

Lemma no_lock_sti m c u lk :
  no_lock m c u lk → no_lock (m <| eflags ::= fun e => Z.lor e FL_IF |>) c u lk.
Proof.
  intros [[Hs Hc Hn Hif] H0 Hl]. split; [split|..]; try done. rewrite H0. lia.
Qed.

Lemma scheduler_iter_start c s u :
  no_lock (machine s) c u ptable_lock →
  scheduler_iter c s = bind (run_next c) (fun _ => unlock ptable_lock) (taken c s) ∧
  ∃ u', holds_only (machine (taken c s)) c u' ptable_lock.
Proof.
  intros Hnl. apply no_lock_sti in Hnl. split; [|eexists; by apply acquired_holds_only].
  unfold scheduler_iter. erewrite bind_ret by (by apply on_mach_ret).
  by erewrite bind_ret by (by eapply lock_ret').
Qed.

(** The rest of the iteration, once the process has switched back. *)
Lemma after_switch_ret c s u :
  holds_only (machine s) c u ptable_lock →
  ∃ s' u', obind (after_switch c s) (fun _ => unlock ptable_lock) = Ret tt s' ∧
    ptable s' = ptable s ∧ no_lock (machine s') c u' ptable_lock ∧ cpu_proc u' = None ∧
    cr3 u' = V2P (kpgdir s).
Proof.
  intros Hh. set (f := fun u => u <| cr3 := V2P (kpgdir s) |> <| cpu_proc := None |>).
  assert (cpu_neutral f) as Hf by (by split; intros []).
  assert (after_switch c s = Ret tt (s <| machine ::= fun m => m <| cpus ::= alter f c |> |>)) as ->.
  { unfold after_switch, switchkvm, bind, gets, on_mach, zoom, cpu_set, modify. simpl.
    do 3 f_equal. by rewrite list_alter_alter_eq. }
  pose proof (holds_only_alter _ _ _ _ _ Hf Hh) as Hh'. simpl obind.
  erewrite unlock_ret' by (by apply Hh').
  eexists _, _. split_and!; [done|done|by apply released_no_lock|done|done].
Qed.

(** A non-empty lottery queue, all other queues empty. *)
Lemma run_next_lottery c s u l0 :
  mach_ok (machine s) c u → 0 < ncli u → sched_ok (ptable s) → loadable (ptable s) →
  queue_of (ptable s) 0 = Some l0 → l0 ≠ [] →
  (∀ k, (1 ≤ k < NUMFILAS)%nat → queue_of (ptable s) k = Some []) →
  (∀ j, j ∈ l0 → 0 ≤ tk (ptable s) j) → ticket_sum (ptable s) l0 < 2 ^ 31 - 1 →
  0 ≤ rnd_next s < 10000 →
  ∃ i pos q t' golden, winner (ptable s) l0 golden pos i ∧
    0 ≤ golden ≤ ticket_sum (ptable s) l0 ∧ procs (ptable s) !! i = Some q ∧
    queue_shift 0 pos (ptable s) = Some t' ∧
    run_next c s =
    Wait (SwtchTo i)
      (s <| rnd_next := Random (rnd_next s) |>
         <| machine ::= fun m => m <| cpus ::= alter (run_cpu c i q) c |> |>
         <| ptable := upd i to_running (count_dec 2 t') |>)
      (after_switch c).
Proof.
  intros Hok Hn Ht Hld Hl0 Hne He Htk Hsum Hrnd. pose proof Ht as [Hr _].
  assert (∀ j, j ∈ l0 → ∃ p, procs (ptable s) !! j = Some p ∧ state p = RUNNABLE ∧ 0 ≤ tickets p) as Hin.
  { intros j Hj. pose proof (Htk j Hj) as Htj.
    destruct (ready_queue _ Hr 0) as (l' & Hl' & _ & Hq); [unfold NUMFILAS; lia|].
    rewrite Hl0 in Hl'. simplify_eq. apply Hq in Hj as (p & Hp & Hst & _).
    exists p. unfold tk in Htj. by rewrite Hp in Htj. }
  pose proof (ticket_sum_nonneg _ _ Htk) as Hs0.
  destruct (RandomInRange_spec (ticket_sum (ptable s) l0) (rnd_next s)) as (g & Hg & Hgb); [done|lia|].
  destruct (lottery_loop_spec (ptable s) l0 0 0 g None) as (pos & i & Hlp & Hi & Hlo & Hhi);
    [intros j (p & ? & _ & ?)%Hin; eauto|lia|lia|done|lia|].
  destruct (Hin i) as (q & Hq & Hst & _); [apply list_elem_of_lookup; eauto|].
  destruct (Hld i q Hq Hst) as [Hks Hpg].
  destruct (queue_remove_spec (ptable s) 0 l0 pos i (ready_shape _ Hr) Hl0 Hi) as (t' & Hsh & _).
  rewrite Z.add_0_l in Hhi, Hlo.
  exists i, pos, q, t', g. split; [done|]. split_and!; [lia|lia|done|done|].
  assert (∀ k, (1 ≤ k < NUMFILAS)%nat → count k s = Ret 0 s) as Hc
    by (intros k Hk; by apply (queue_count s k []), He).
  unfold run_next. do 3 (rewrite (bind_ret _ _ _ 0 s) by (apply Hc; unfold NUMFILAS; split; lia); simpl).
  rewrite (bind_ret _ _ _ _ _ (queue_count _ _ _ Hl0)).
  destruct (Z.ltb_spec 0 (Z.of_nat (length l0))); [|by destruct l0; [|simpl in *; lia]].
  unfold run_loteria.
  erewrite bind_ret by (apply ask_ptable_ret; unfold loteria_Total; rewrite (cells_queue_of _ _ _ Hl0);
    cbn [mbind option_bind]; apply total_loop_spec; [done|lia|lia]).
  erewrite bind_ret by (unfold try_get; rewrite Z.add_0_l, Hg; reflexivity).
  erewrite bind_ret by reflexivity.
  erewrite bind_ret by (apply ask_ptable_ret;
    change (ptable (s <| rnd_next := _ |>)) with (ptable s); rewrite (cells_queue_of _ _ _ Hl0);
    cbn [mbind option_bind]; apply Hlp).
  cbn [fst snd]. by rewrite (dispatch_wait c i 0 pos 2 (s <| rnd_next := Random (rnd_next s) |>) u q t').
Qed.
End scheduling.

(** The counter of queue 2 after the lottery branch. *)
Lemma lottery_table t i pos t' :
  sched_ok t → queue_shift 0 pos t = Some t' → queue_of t 2 = Some [] →
  count_queue (upd i to_running (count_dec 2 t')) !! 2%nat = Some (-1) ∧
  count_queue (upd i to_running (count_dec 2 t')) !! 0%nat = count_queue t !! 0%nat.
Proof.
  intros Ht Hs (q & Hc & _)%queue_of_Some. simpl in Hc.
  assert (count_queue t' = count_queue t) as Hct.
  { unfold queue_shift in Hs. apply bind_Some in Hs as (? & _ & Hs).
    apply bind_Some in Hs as (? & _ & Hs). apply bind_Some in Hs as (? & _ & Hs). by simplify_eq. }
  simpl. rewrite Hct, list_lookup_alter_eq, Hc, list_lookup_alter_ne by lia. done.
Qed.

Lemma count_negative t k : count_queue t !! k = Some (-1) → (k < NUMFILAS)%nat →
  ¬ ready_ok t ∧ ∀ j, queue_add (Z.of_nat k) j t = None.
Proof.
  intros Hc Hk. split.
  - intros Hr. destruct (ready_queue _ Hr k Hk) as (l & (q & Hl & _)%queue_of_Some & _).
    rewrite Hc in Hl. injection Hl. lia.
  - intros j. unfold queue_add. rewrite index_of_nat. simpl. rewrite Hc. simpl.
    by destruct (queue_ready t !! k).
Qed.

Section theorems.
Context {R : Type} {PE : ProcEnv R} {FU : Fuel}.
Implicit Types s : pstate R.


(** When no process is ready the iteration only takes and releases the
    lock: it returns with the process table untouched. *)
Theorem scheduler_idle c s u :
  no_lock (machine s) c u ptable_lock →
  (∀ k, (k < NUMFILAS)%nat → queue_of (ptable s) k = Some []) →
  ∃ s' u', scheduler_iter c s = Ret tt s' ∧ ptable s' = ptable s ∧
    no_lock (machine s') c u' ptable_lock ∧ if_on (machine s') = true.
Proof.
  intros Hnl He. destruct (scheduler_iter_start c s u Hnl) as (Hst & u1 & Hh).
  assert (∀ k, (k < NUMFILAS)%nat → count k (taken c s) = Ret 0 (taken c s)) as Hc
    by (intros k Hk; by apply (queue_count (taken c s) k []), He).
  assert (run_next c (taken c s) = Ret tt (taken c s)) as Hrn.
  { unfold run_next. do 4 (rewrite (bind_ret _ _ _ 0 (taken c s)) by (apply Hc; unfold NUMFILAS; lia); simpl).
    done. }
  exists (s <| machine ::= fun m => synced c (m <| eflags ::= fun e => Z.lor e FL_IF |>) |>).
  eexists. apply no_lock_sti in Hnl as [Hok Hn (l & Hl & Hf)].
  split_and!; [|done| |apply if_on_lor].
  - rewrite Hst, (bind_ret _ _ _ _ _ Hrn). erewrite unlock_ret' by exact Hh.
    f_equal. destruct s. simpl. f_equal. simpl in *.
    rewrite <- (released_acquired _ _ _ _ _ Hok Hl Hf). f_equal.
    pose proof (ok_cpu _ _ _ (mach_ok_acquired _ _ _ ptable_lock Hok)) as H2.
    pose proof (ok_cpu _ _ _ (ho_ok _ _ _ _ Hh)) as H3. simpl in *. congruence.
  - split; [by apply mach_ok_synced| |by exists l]. unfold sync_cpu. by split_if.
Qed.

(** C30. The lottery branch breaks the ready queues: it removes the winner's cell
    from queue 0 but decrements the counter of queue 2, whose queue is empty.
    The golden ticket and the winner are as intended, but in the state in which
    the winner runs the counter of queue 2 is -1, the counter of queue 0 still
    counts the winner, and the next process that becomes ready with priority 2
    is written before the start of its queue. *)
Theorem lottery_corrupts_queues c s u l0 :
  no_lock (machine s) c u ptable_lock → sched_ok (ptable s) → loadable (ptable s) →
  queue_of (ptable s) 0 = Some l0 → l0 ≠ [] →
  (∀ k, (1 ≤ k < NUMFILAS)%nat → queue_of (ptable s) k = Some []) →
  (∀ j, j ∈ l0 → 0 ≤ tk (ptable s) j) → ticket_sum (ptable s) l0 < 2 ^ 31 - 1 →
  0 ≤ rnd_next s < 10000 →
  ∃ i pos golden s' kont, winner (ptable s) l0 golden pos i ∧
    0 ≤ golden ≤ ticket_sum (ptable s) l0 ∧
    scheduler_iter c s = Wait (SwtchTo i) s' kont ∧
    count_queue (ptable s') !! 2%nat = Some (-1) ∧
    count_queue (ptable s') !! 0%nat = Some (Z.of_nat (length l0)) ∧
    ¬ ready_ok (ptable s') ∧ ∀ j, queue_add 2 j (ptable s') = None.
Proof.
  intros Hnl Ht Hld Hl0 Hne He Htk Hsum Hrnd. destruct (scheduler_iter_start c s u Hnl) as (Hst & u1 & Hh).
  destruct (run_next_lottery c (taken c s) u1 l0) as (i & pos & q & t' & g & Hw & Hg & Hq & Hs & Hrun);
    try done; [apply Hh|rewrite (ho_ncli _ _ _ _ Hh); lia|].
  destruct (lottery_table (ptable s) i pos t') as [H2 H0]; [done|done|by apply He; unfold NUMFILAS; lia|].
  destruct (count_negative _ _ H2) as [Hnr Hadd]; [unfold NUMFILAS; lia|].
  eexists i, pos, g, _, _. split; [exact Hw|]. split; [done|].
  split; [rewrite Hst; unfold bind; rewrite Hrun; reflexivity|].
  split_and!; [exact H2| |exact Hnr|exact Hadd].
  transitivity (count_queue (ptable s) !! 0%nat); [exact H0|].
  by apply queue_of_Some in Hl0 as (? & ? & _).
Qed.
End theorems.

(** The random numbers of the lottery degenerate: from the 101st draw on,
    [Random] only yields 4100, 8100, 6100 and 2100, in this order. *)
Theorem random_degenerates n :
  (101 ≤ n)%nat →
  Nat.iter n Random 3251 ∈ [4100; 8100; 6100; 2100] ∧
  Nat.iter (n + 4) Random 3251 = Nat.iter n Random 3251.
Proof.
  intros Hn.
  assert (Nat.iter n Random 3251 ∈ [4100; 8100; 6100; 2100]) as Hin.
  { replace n with ((n - 101) + 101)%nat by lia. generalize (n - 101)%nat as k. intros k.
    rewrite Nat.iter_add. replace (Nat.iter 101 Random 3251) with 4100 by (by vm_compute).
    induction k as [|k IH]; [left|]. cbn [Nat.iter nat_rect].
    change (Random (Nat.iter k Random 4100) ∈ [4100; 8100; 6100; 2100]). revert IH.
    generalize (Nat.iter k Random 4100) as x. intros x Hx.
    repeat (apply elem_of_cons in Hx as [->|Hx]; [vm_compute; set_solver|]).
    by apply elem_of_nil in Hx. }
  split; [done|]. rewrite Nat.add_comm, Nat.iter_add. revert Hin.
  generalize (Nat.iter n Random 3251) as x. intros x Hx.
  repeat (apply elem_of_cons in Hx as [->|Hx]; [by vm_compute|]). by apply elem_of_nil in Hx.
Qed.
