(* ===== verification/Reach.v ===== *)
(** * Every table the kernel reaches is consistent

    The transitions that proc.c and trap.c make on the process table while
    they hold [ptable.lock], as a step relation whose rules call the routines
    of the model, and the invariant of every reachable table. *)

From S2P Require Import Prelude Machine Spinlock CString ProcTable Proc Lifecycle Ready Aging.
From S2P Require Import ProcLemmas Scheduler.

(** ** Single processes *)

(** A process that is not RUNNABLE changes and does not become RUNNABLE. *)
Lemma sched_ok_off t i f p :
  sched_ok t → procs t !! i = Some p → state p ≠ RUNNABLE → state (f p) ≠ RUNNABLE →
  (active (f p) → 0 ≤ priority (f p) < Z.of_nat NUMFILAS) →
  (state (f p) ≠ UNUSED → state p ≠ UNUSED ∧ pid (f p) = pid p) →
  sched_ok (upd i f t).
Proof.
  intros [Hr Hpid] Hp Hs Hs' Hpr Hid. split; [|by eapply pids_ok_upd].
  by eapply ready_ok_touch.
Qed.

(** Consistent tables have the same slots. *)
Lemma same_slots t t' j p :
  sched_ok t → sched_ok t' → procs t' !! j = Some p → ∃ p0, procs t !! j = Some p0.
Proof.
  intros [[Hs _ _] _] [[Hs' _ _] _] Hp%lookup_lt_Some. apply lookup_lt_is_Some_2.
  rewrite (shape_procs _ Hs). by rewrite (shape_procs _ Hs') in Hp.
Qed.

(** Process ids in use are below [nextpid]. *)
Definition pids_below (n : Z) (t : ptbl) : Prop :=
  ∀ i p, procs t !! i = Some p → state p ≠ UNUSED → 0 < pid p < n.

Definition table_ok (c : ptbl * Z) : Prop := sched_ok c.1 ∧ pids_below c.2 c.1 ∧ 0 < c.2.

Lemma pids_below_upd n t i f p :
  pids_below n t → procs t !! i = Some p →
  (state (f p) ≠ UNUSED → 0 < pid (f p) < n) → pids_below n (upd i f t).
Proof.
  intros Ht Hp Hf j q Hq Hu. apply lookup_upd_Some in Hq as [(-> & p' & Hp' & ->)|[_ Hq]]; [|by eauto].
  rewrite Hp in Hp'. simplify_eq. auto.
Qed.

Lemma pids_below_map n t t' (g : proc → proc) :
  procs t' = g <$> procs t →
  (∀ p, pid (g p) = pid p ∧ (state (g p) ≠ UNUSED → state p ≠ UNUSED)) →
  pids_below n t → pids_below n t'.
Proof.
  intros Hp Hg Ht j q Hq Hu. rewrite Hp, list_lookup_fmap in Hq.
  destruct (procs t !! j) as [p|] eqn:Hj; [|done]. simpl in Hq. simplify_eq.
  destruct (Hg p) as [-> Hs]. apply (Ht j p Hj). auto.
Qed.

Lemma pids_below_procs n t t' : procs t' = procs t → pids_below n t → pids_below n t'.
Proof. intros Heq Ht. unfold pids_below. by rewrite Heq. Qed.

(** ** Allocation *)

Lemma alloc_ok t n now i :
  table_ok (t, n) → find_proc (is_state UNUSED) (procs t) 0 = Some i →
  table_ok (upd i (embryo n now) t, n + 1).
Proof.
  intros ([Hr Hpid] & Hb & Hn) Hf. simpl in *.
  apply find_proc_Some in Hf as (_ & (p & Hp & Hu) & _). rewrite Nat.sub_0_r in Hp.
  apply is_state_true in Hu. split_and!; simpl; [split| |lia].
  - eapply ready_ok_touch; [done|done|by rewrite Hu|by rewrite Hu|by intros [?|[?|?]]].
  - intros j1 j2 q1 q2 H1 H2 Hu1 Hu2 He.
    apply lookup_upd_Some in H1 as [(-> & p1 & Hp1 & ->)|[Hne1 H1]];
    apply lookup_upd_Some in H2 as [(? & p2 & Hp2 & ->)|[Hne2 H2]]; subst; simplify_eq; try done.
    + simpl in He. pose proof (Hb _ _ H2 Hu2). lia.
    + simpl in He. pose proof (Hb _ _ H1 Hu1). lia.
    + by eapply Hpid.
  - eapply pids_below_upd; [|done|simpl; lia].
    intros j q Hq Hq'. pose proof (Hb j q Hq Hq'). lia.
Qed.

Lemma enqueue_new_ok t n i p :
  table_ok (t, n) → procs t !! i = Some p → state p = EMBRYO →
  ∃ t', enqueue_new i t = Some t' ∧ table_ok (t', n) ∧
    procs t' = alter (fun p => p <| priority := PRIO |> <| state := RUNNABLE |>) i (procs t) ∧
    ∃ l, queue_of t 1 = Some l ∧ queue_of t' 1 = Some (l ++ [i]).
Proof.
  intros ([Hr Hpid] & Hb & Hn) Hp Hst. simpl in *. set (f := fun p : proc => p <| priority := PRIO |>).
  assert (sched_ok (upd i f t)) as [Hr1 Hpid1].
  { eapply sched_ok_off; try done; simpl; congruence. }
  assert (procs (upd i f t) !! i = Some (f p)) as Hp1 by (by apply lookup_upd_eq).
  destruct (ready_ok_enqueue (upd i f t) i (f p) 1 (fun q => q <| state := RUNNABLE |>))
    as (t' & l & Ha & Hok & Hpt & Hl & Hl' & _); try done; [simpl; congruence|unfold NUMFILAS; lia|].
  exists (upd i (fun q => q <| state := RUNNABLE |>) t').
  assert (procs t' !! i = Some (f p)) as Hp' by (by rewrite Hpt).
  split_and!; [unfold enqueue_new; fold f; change PRIO with (Z.of_nat 1) at 1; by rewrite Ha| | |by exists l].
  - split_and!; simpl; [split| |done].
    + done.
    + eapply pids_ok_upd; [by eapply pids_ok_procs|done|]. intros _. simpl. by rewrite Hst.
    + eapply pids_below_upd; [|done|].
      * apply (pids_below_procs _ (upd i f t)); [done|]. eapply pids_below_upd; [done|done|].
        simpl. intros Hx. apply (Hb i p Hp). done.
      * simpl. intros _. apply (Hb i p Hp). congruence.
  - simpl. rewrite Hpt. simpl. by rewrite list_alter_alter_eq.
Qed.

(** ** Loops over the table with an invariant *)

Lemma each_proc_inv (I : nat → ptbl → Prop) body n lo t :
  (∀ i t, (lo ≤ i < lo + n)%nat → I i t → ∃ t', body i t = Some t' ∧ I (S i) t') →
  I lo t → ∃ t', each_proc (seq lo n) body t = Some t' ∧ I (lo + n)%nat t'.
Proof.
  revert lo t. induction n as [|n IH]; intros lo t Hb Ht.
  - exists t. by rewrite Nat.add_0_r.
  - destruct (Hb lo t) as (t1 & H1 & Ht1); [lia|done|].
    destruct (IH (S lo) t1) as (t2 & H2 & Ht2); [intros i t' ?; apply Hb; lia|done|].
    exists t2. simpl. rewrite H1. replace (lo + S n)%nat with (S lo + n)%nat by lia. done.
Qed.

(** What [exit] does to another process: children of [cur] go to [init], and
    processes that sleep on the channel of [init] may be woken. *)
Definition reparented (cur : nat) (init : option nat) (done_ : bool) (p q : proc) : Prop :=
  q = p <| parent := if done_ && bool_decide (parent p = Some cur) then init else parent p |>
        <| state := state q |> ∧
  (state q = state p ∨
   (state p = SLEEPING ∧ state q = RUNNABLE ∧ chan p = parent_chan init)).

Lemma reparented_refl cur init p : reparented cur init false p p.
Proof. split; [by destruct p|by left]. Qed.

Lemma reparented_wake cur init d p q :
  reparented cur init d p q → reparented cur init d p (wake (parent_chan init) q).
Proof.
  intros [Hq Hs]. unfold wake. destruct (is_state SLEEPING q && _) eqn:E; [|done].
  breflect. apply is_state_true in H.
  assert (state p = SLEEPING ∧ chan p = parent_chan init) as [Hp Hc].
  { split; [destruct Hs as [?|(?&?&?)]; congruence|]. rewrite Hq in H0. done. }
  split; [|right; by rewrite Hp]. rewrite Hq. by destruct p.
Qed.

Lemma wake_fields ch p :
  pid (wake ch p) = pid p ∧ parent (wake ch p) = parent p ∧ priority (wake ch p) = priority p ∧
  (state (wake ch p) = UNUSED ↔ state p = UNUSED) ∧ (state (wake ch p) = ZOMBIE ↔ state p = ZOMBIE) ∧
  (state (wake ch p) = RUNNING ↔ state p = RUNNING).
Proof.
  unfold wake. destruct (is_state SLEEPING p && _) eqn:E; [|done].
  breflect. apply is_state_true in H. simpl. rewrite H. done.
Qed.

Definition reparent_inv (t0 : ptbl) (cur : nat) (init : option nat) (i : nat) (t : ptbl) : Prop :=
  sched_ok t ∧ ∀ j p, procs t0 !! j = Some p →
    ∃ q, procs t !! j = Some q ∧ reparented cur init (bool_decide (j < i)%nat) p q.

Lemma reparent_inv_wake t0 cur init i t t' :
  reparent_inv t0 cur init i t → wakeup1 (parent_chan init) t = Some t' →
  reparent_inv t0 cur init i t'.
Proof.
  intros [Hok Hrel] Hw. destruct (wakeup1_spec t (parent_chan init) Hok) as (t1 & Hw1 & Hok1 & Hp1).
  rewrite Hw in Hw1. simplify_eq. split; [done|]. intros j p Hp.
  destruct (Hrel j p Hp) as (q & Hq & Hr). exists (wake (parent_chan init) q).
  rewrite Hp1, list_lookup_fmap, Hq. split; [done|]. by apply reparented_wake.
Qed.

Lemma bool_decide_lt_S j i : j ≠ i → bool_decide (j < S i)%nat = bool_decide (j < i)%nat.
Proof. intros. apply bool_decide_ext. lia. Qed.

(** One slot of the loop. *)
Lemma reparent_inv_step t0 cur init i t :
  (i < length (procs t0))%nat → reparent_inv t0 cur init i t →
  ∃ t', reparent_body cur init i t = Some t' ∧ reparent_inv t0 cur init (S i) t'.
Proof.
  intros Hi [Hok Hrel]. destruct (lookup_lt_is_Some_2 _ _ Hi) as [p0 Hp0].
  destruct (Hrel i p0 Hp0) as (p & Hp & Hr). rewrite bool_decide_eq_false_2 in Hr by lia.
  assert (parent p = parent p0) as Hpar by (destruct Hr as [-> _]; done).
  unfold reparent_body. rewrite Hp. cbn [mbind option_bind]. case_bool_decide as Hc.
  - set (t1 := upd i (fun p => p <| parent := init |>) t).
    assert (reparent_inv t0 cur init (S i) t1) as Hinv.
    { split; [by eapply sched_ok_touch|]. intros j q Hq. destruct (decide (j = i)) as [->|Hne].
      - exists (p <| parent := init |>). split; [by apply lookup_upd_eq|]. simplify_eq.
        rewrite bool_decide_eq_true_2 by lia. destruct Hr as [Hpeq Hs]. split; [|done].
        simpl in Hpeq. rewrite Hpeq. simpl. rewrite bool_decide_eq_true_2 by congruence. done.
      - destruct (Hrel j q Hq) as (q' & ? & ?). exists q'. unfold t1. rewrite lookup_upd_ne by done.
        by rewrite bool_decide_lt_S. }
    destruct (is_state ZOMBIE p); [|by eauto].
    destruct (wakeup1_spec t1 (parent_chan init)) as (t2 & Hw & _); [apply Hinv|].
    exists t2. split; [done|]. by eapply reparent_inv_wake.
  - exists t. split; [done|]. split; [done|]. intros j q Hq. destruct (decide (j = i)) as [->|Hne].
    + exists p. simplify_eq. split; [done|]. rewrite bool_decide_eq_true_2 by lia.
      destruct Hr as [Hpeq Hs]. split; [|done]. rewrite Hpeq at 1. simpl.
      by rewrite bool_decide_eq_false_2 by congruence.
    + destruct (Hrel j q Hq) as (q' & ? & ?). exists q'. by rewrite bool_decide_lt_S.
Qed.

Lemma reparent_spec t cur init :
  sched_ok t →
  ∃ t', reparent cur init t = Some t' ∧ sched_ok t' ∧
    ∀ j p, procs t !! j = Some p → ∃ q, procs t' !! j = Some q ∧ reparented cur init true p q.
Proof.
  intros Hok. pose proof (shape_procs _ (ready_shape _ (proj1 Hok))) as Hlen.
  destruct (each_proc_inv (reparent_inv t cur init) (reparent_body cur init) NPROC 0 t) as (t' & Ht' & Hok' & Hrel).
  - intros i t' Hi. apply reparent_inv_step. lia.
  - split; [done|]. intros j p Hp. exists p. rewrite bool_decide_eq_false_2 by lia.
    split; [done|apply reparented_refl].
  - exists t'. split_and!; [done..|]. intros j p Hp. destruct (Hrel j p Hp) as (q & Hq & Hr).
    exists q. rewrite bool_decide_eq_true_2 in Hr; [done|]. apply lookup_lt_Some in Hp. lia.
Qed.

Lemma pids_below_rel n t t' (rel : proc → proc → Prop) :
  length (procs t') = length (procs t) →
  (∀ p q, rel p q → pid q = pid p ∧ (state q ≠ UNUSED → state p ≠ UNUSED)) →
  (∀ j p, procs t !! j = Some p → ∃ q, procs t' !! j = Some q ∧ rel p q) →
  pids_below n t → pids_below n t'.
Proof.
  intros Hlen Hg Hrel Ht j q Hq Hu. destruct (procs t !! j) as [p|] eqn:Hj.
  - destruct (Hrel j p Hj) as (q' & Hq' & Hr). simplify_eq. destruct (Hg _ _ Hr) as [-> Hs]. eauto.
  - apply lookup_lt_Some in Hq. apply lookup_ge_None in Hj. lia.
Qed.

Lemma reparented_fields cur init d p q :
  reparented cur init d p q →
  pid q = pid p ∧ (state q ≠ UNUSED → state p ≠ UNUSED) ∧ (state p = RUNNING → state q = RUNNING) ∧
  priority q = priority p.
Proof.
  intros [Hq Hs]. assert (pid q = pid p ∧ priority q = priority p) as [-> ->] by (by rewrite Hq).
  intuition congruence.
Qed.

(** ** [exit] on the table: wake the parent, give the children to init, become
       a zombie *)
Definition exit_tbl (cur : nat) (init : option nat) (t : ptbl) : option ptbl :=
  p ← procs t !! cur;
  t1 ← wakeup1 (parent_chan (parent p)) t;
  t2 ← reparent cur init t1;
  Some (upd cur (fun p => p <| state := ZOMBIE |>) t2).

Lemma exit_tbl_spec t n cur init p :
  table_ok (t, n) → procs t !! cur = Some p → state p = RUNNING →
  ∃ t', exit_tbl cur init t = Some t' ∧ table_ok (t', n) ∧
    (∃ q, procs t' !! cur = Some q ∧ state q = ZOMBIE ∧ pid q = pid p ∧
       (parent p ≠ Some cur → parent q = parent p)) ∧
    ∀ j q, j ≠ cur → procs t !! j = Some q → ∃ q', procs t' !! j = Some q' ∧
      reparented cur init true (wake (parent_chan (parent p)) q) q'.
Proof.
  intros (Hok & Hb & Hn) Hp Hst. simpl in *. unfold exit_tbl. rewrite Hp. cbn [mbind option_bind].
  destruct (wakeup1_spec t (parent_chan (parent p)) Hok) as (t1 & -> & Hok1 & Hp1). cbn [mbind option_bind].
  destruct (reparent_spec t1 cur init Hok1) as (t2 & -> & Hok2 & Hrel). cbn [mbind option_bind].
  assert (∀ j q, procs t !! j = Some q → ∃ q', procs t2 !! j = Some q' ∧
            reparented cur init true (wake (parent_chan (parent p)) q) q') as Hall.
  { intros j q Hq. apply Hrel. by rewrite Hp1, list_lookup_fmap, Hq. }
  destruct (Hall cur p Hp) as (q & Hq & Hr).
  destruct (reparented_fields _ _ _ _ _ Hr) as (Hid & _ & Hrun & _).
  pose proof (wake_fields (parent_chan (parent p)) p) as (Hwid & _ & _ & _ & _ & Hwr).
  assert (state q = RUNNING) as Hqs by (apply Hrun, Hwr; done).
  exists (upd cur (fun p => p <| state := ZOMBIE |>) t2). split_and!; [done| | |].
  - split_and!; simpl; [|  |done].
    + eapply sched_ok_off; try done; simpl; try congruence; [by intros [?|[?|?]]|].
      intros _. split; congruence.
    + eapply pids_below_upd; [|done|].
      * eapply (pids_below_rel n t t2); [|intros a b Hab|apply Hall|done].
        -- rewrite (shape_procs _ (ready_shape _ (proj1 Hok2))).
           by rewrite (shape_procs _ (ready_shape _ (proj1 Hok))).
        -- destruct (reparented_fields _ _ _ _ _ Hab) as (H1 & H2 & _).
           pose proof (wake_fields (parent_chan (parent p)) a). intuition congruence.
      * simpl. intros _. rewrite Hid, Hwid. apply (Hb cur p Hp). congruence.
  - exists (q <| state := ZOMBIE |>). split_and!; [by apply lookup_upd_eq|done|simpl; congruence|].
    intros Hnp. simpl. destruct Hr as [Hqr _]. rewrite Hqr. simpl.
    pose proof (wake_fields (parent_chan (parent p)) p) as (_ & -> & _).
    by rewrite bool_decide_eq_false_2.
  - intros j q' Hne Hq'. rewrite lookup_upd_ne by done. by apply Hall.
Qed.

(** ** The transitions *)

(** The fields [sleep] sets before it calls [sched]. *)
Definition go_to_sleep (ch : Z) (q : proc) : proc :=
  (updateBurst (q <| previousburst := bstime q |>))
    <| chan := ch |> <| state := SLEEPING |> <| bstime := 0 |>.

Inductive tstep : ptbl * Z → ptbl * Z → Prop :=
| t_wakeup ch t t' n : wakeup1 ch t = Some t' → tstep (t, n) (t', n)
| t_kill the_pid r t t' n : kill_tbl the_pid t = Some (r, t') → tstep (t, n) (t', n)
| t_clock t t' n : updateClock_tbl t = Some t' → tstep (t, n) (t', n)
| t_aging t t' n : upgradePriority_Aging_tbl t = Some t' → tstep (t, n) (t', n)
| t_alloc i now t n :                      (* allocproc, before nextpid wraps around *)
    find_proc (is_state UNUSED) (procs t) 0 = Some i → n < 2 ^ 31 - 1 →
    tstep (t, n) (upd i (embryo n now) t, s32 (n + 1))
| t_alloc_fail i p t n :                   (* kalloc or copyuvm failed *)
    procs t !! i = Some p → state p = EMBRYO →
    tstep (t, n) (upd i (fun p => p <| state := UNUSED |>) t, n)
| t_private i p f t n :                    (* fields only the process or its creator uses *)
    procs t !! i = Some p → state p = EMBRYO ∨ state p = RUNNING →
    state (f p) = state p → priority (f p) = priority p → pid (f p) = pid p →
    tstep (t, n) (upd i f t, n)
| t_enqueue i p t t' n :                   (* fork, userinit *)
    procs t !! i = Some p → state p = EMBRYO → enqueue_new i t = Some t' → tstep (t, n) (t', n)
| t_prio i p pr t n :                      (* change_prio *)
    procs t !! i = Some p → state p = RUNNING → 1 ≤ pr ≤ 4 →
    tstep (t, n) (upd i (fun p => p <| priority := pr - 1 |>) t, n)
| t_yield i p t t' n :
    procs t !! i = Some p → state p = RUNNING → make_runnable i t = Some t' → tstep (t, n) (t', n)
| t_sleep i p ch t n :
    procs t !! i = Some p → state p = RUNNING → tstep (t, n) (upd i (go_to_sleep ch) t, n)
| t_exit i p init t t' n :
    procs t !! i = Some p → state p = RUNNING → exit_tbl i init t = Some t' → tstep (t, n) (t', n)
| t_reap i p f t n :                       (* wait, wait2 *)
    procs t !! i = Some p → state p = ZOMBIE → state (f p) = UNUSED → tstep (t, n) (upd i f t, n)
| t_dispatch k l pos i t t' n :            (* scheduler, queues 1 to 3 *)
    choice t k l pos i → queue_shift k pos t = Some t' →
    tstep (t, n) (upd i to_running (count_dec k t'), n).

Inductive treach : ptbl * Z → Prop :=
| treach_init : treach (zero_ptbl, 1)
| treach_step c c' : treach c → tstep c c' → treach c'.

Lemma zero_table_ok : table_ok (zero_ptbl, 1).
Proof.
  assert (∀ i p, procs zero_ptbl !! i = Some p → p = zero_proc) as Hz
    by (intros i p [-> _]%lookup_replicate_1; done).
  split_and!; [split|..]; [split| | |done].
  - split; try done. intros k q [-> _]%lookup_replicate_1. by rewrite length_replicate.
  - intros k Hk. exists []. split_and!; [|constructor|].
    + unfold NUMFILAS in Hk. assert (k = 0 ∨ k = 1 ∨ k = 2 ∨ k = 3)%nat as Hc by lia.
      by destruct Hc as [->|[->|[->| ->]]].
    + intros i. split; [by intros ?%elem_of_nil|]. intros (p & ->%Hz & ? & _). done.
  - intros i p ->%Hz [?|[?|?]]; done.
  - intros i j p q ->%Hz _ Hu. done.
  - intros i p ->%Hz Hu. done.
Qed.

Lemma table_ok_map t t' n (g : proc → proc) :
  sched_ok t' → procs t' = g <$> procs t →
  (∀ p, pid (g p) = pid p ∧ (state (g p) ≠ UNUSED → state p ≠ UNUSED)) →
  table_ok (t, n) → table_ok (t', n).
Proof. intros H1 H2 H3 (_ & Hb & Hn). split_and!; [done| |done]. by eapply pids_below_map. Qed.

Lemma table_ok_upd t n i f p :
  table_ok (t, n) → procs t !! i = Some p → sched_ok (upd i f t) →
  (state (f p) ≠ UNUSED → state p ≠ UNUSED ∧ pid (f p) = pid p) → table_ok (upd i f t, n).
Proof.
  intros (_ & Hb & Hn) Hp H1 H2. split_and!; [done| |done]. eapply pids_below_upd; [done..|].
  intros [Hu ->]%H2. by apply (Hb i p).
Qed.

Lemma table_ok_off t n i f p :
  table_ok (t, n) → procs t !! i = Some p → state p ≠ RUNNABLE → state (f p) ≠ RUNNABLE →
  (active (f p) → 0 ≤ priority (f p) < Z.of_nat NUMFILAS) →
  (state (f p) ≠ UNUSED → state p ≠ UNUSED ∧ pid (f p) = pid p) →
  table_ok (upd i f t, n).
Proof. intros Ht ?????. eapply table_ok_upd; eauto. eapply sched_ok_off; eauto. apply Ht. Qed.

(** A process that is scheduled has a valid priority. *)
Lemma table_ok_prio t n i p :
  table_ok (t, n) → procs t !! i = Some p → active p → 0 ≤ priority p < Z.of_nat NUMFILAS.
Proof. intros [[Hr _] _] Hp Ha. by eapply (ready_prio _ Hr). Qed.

Lemma make_runnable_ok t n i p :
  table_ok (t, n) → procs t !! i = Some p → state p = SLEEPING ∨ state p = RUNNING →
  ∃ t' k l, make_runnable i t = Some t' ∧ table_ok (t', n) ∧
    procs t' = alter (fun p => p <| state := RUNNABLE |>) i (procs t) ∧
    priority p = Z.of_nat k ∧ queue_of t k = Some l ∧ queue_of t' k = Some (l ++ [i]).
Proof.
  intros Ht Hp Hst. destruct (make_runnable_spec t i p) as (t' & k & l & H1 & H2 & H3 & H4 & H5 & H6 & _);
    [apply Ht|done|done|].
  exists t', k, l. split_and!; try done. split_and!; [done| |apply Ht].
  apply (pids_below_procs _ (upd i (fun p => p <| state := RUNNABLE |>) t)); [done|].
  eapply pids_below_upd; [apply Ht|done|]. intros _. simpl. apply (proj1 (proj2 Ht) i p Hp).
  destruct Hst; congruence.
Qed.

Lemma kill_ok t n the_pid :
  table_ok (t, n) → ∃ r t', kill_tbl the_pid t = Some (r, t') ∧ table_ok (t', n).
Proof.
  intros Ht. destruct (kill_tbl_spec t the_pid) as (r & t' & H1 & H2 & H3); [apply Ht|].
  exists r, t'. split_and!; try done. split_and!; [done| |apply Ht].
  destruct H3 as [(_ & -> & _)|(_ & i & p & Hp & _ & Hp')]; [apply Ht|].
  apply (pids_below_procs _ (upd i (fun p => (if is_state SLEEPING p then p <| state := RUNNABLE |> else p)
                                     <| killed := 1 |>) t)); [done|].
  eapply pids_below_upd; [apply Ht|done|]. intros Hu.
  assert (state p ≠ UNUSED) as Hne.
  { intros E. apply Hu. unfold is_state. by rewrite E. }
  destruct (is_state SLEEPING p); simpl; by apply (proj1 (proj2 Ht) i p Hp).
Qed.

Lemma dispatch_table_ok t n k l pos i t' :
  table_ok (t, n) → choice t k l pos i → queue_shift k pos t = Some t' →
  table_ok (upd i to_running (count_dec k t'), n).
Proof.
  intros (Hok & Hb & Hn) (Hl & _ & Hch) Hs. simpl in *.
  assert ((k < NUMFILAS)%nat ∧ l !! pos = Some i) as [Hk Hi].
  { unfold NUMFILAS. destruct Hch as [(-> & -> & ?)|[(-> & ? & _)|(-> & -> & ?)]]; split; try done; lia. }
  destruct (ready_queue _ (proj1 Hok) k Hk) as (l' & Hl' & _ & Hin). rewrite Hl in Hl'. simplify_eq.
  assert (in_queue t k i) as (q & Hq & Hst & _) by (apply Hin, list_elem_of_lookup; eauto).
  destruct (ready_ok_dequeue t i q k l' pos to_running) as (t2 & Hs2 & Hr & Hp & _); try done;
    [apply Hok|intros _; simpl; apply (ready_prio _ (proj1 Hok) i q Hq); right; by left|].
  rewrite Hs in Hs2. simplify_eq. split_and!; simpl; [split; [done|]| |done].
  - eapply pids_ok_upd; [by eapply pids_ok_procs; [|apply Hok]|by rewrite Hp|]. intros _.
    split; [congruence|done].
  - eapply (pids_below_upd _ _ _ _ q); [by eapply pids_below_procs|by rewrite Hp|].
    intros _. apply (Hb i q Hq). congruence.
Qed.

Lemma tstep_ok c c' : table_ok c → tstep c c' → table_ok c'.
Proof.
  intros Ht Hst.
  destruct Hst as [ch t t' n H|id r t t' n H|t t' n H|t t' n H|i now t n Hf Hn|i p t n Hp Hs
    |i p f t n Hp Hs H1 H2 H3|i p t t' n Hp Hs H|i p pr t n Hp Hs Hpr|i p t t' n Hp Hs H
    |i p ch t n Hp Hs|i p init t t' n Hp Hs H|i p f t n Hp Hs H|k l pos i t t' n Hc H].
  - destruct (wakeup1_spec t ch (proj1 Ht)) as (t1 & H1 & Hok & Hp). rewrite H in H1. simplify_eq.
    eapply (table_ok_map t); try done. intros p. pose proof (wake_fields ch p). intuition congruence.
  - destruct (kill_ok t n id Ht) as (r' & t1 & H1 & Hok). rewrite H in H1. by simplify_eq.
  - destruct (updateClock_tbl_spec t (proj1 Ht)) as (t1 & H1 & Hok & Hp). rewrite H in H1. simplify_eq.
    eapply (table_ok_map t); try done. intros p. pose proof (clk_fields p). intuition congruence.
  - destruct (aging_tbl_spec t (proj1 Ht)) as (t1 & H1 & Hok & Hp). rewrite H in H1. simplify_eq.
    eapply (table_ok_map t); try done. intros p. unfold age. by split_if.
  - rewrite s32_small by (pose proof (proj2 (proj2 Ht)); simpl in *; lia). by apply alloc_ok.
  - eapply table_ok_off; try done; simpl; try congruence. by intros [?|[?|?]].
  - eapply table_ok_upd; [done|done|eapply sched_ok_touch; try done; apply Ht|].
    rewrite H1. done.
  - destruct (enqueue_new_ok t n i p Ht Hp Hs) as (t1 & H1 & Hok & _). rewrite H in H1. by simplify_eq.
  - eapply table_ok_off; try done; simpl; rewrite ?Hs; try done. unfold NUMFILAS. lia.
  - destruct (make_runnable_ok t n i p Ht Hp) as (t1 & k & l & H1 & Hok & _); [by right|].
    rewrite H in H1. by simplify_eq.
  - eapply table_ok_off; try done; simpl; rewrite ?Hs; try done.
    intros _. eapply table_ok_prio; [done|done|]. by right; right.
  - destruct (exit_tbl_spec t n i init p Ht Hp Hs) as (t1 & H1 & Hok & _). rewrite H in H1. by simplify_eq.
  - eapply table_ok_off; try done; simpl; try congruence. intros [?|[?|?]]; congruence.
  - by eapply dispatch_table_ok.
Qed.

Lemma treach_ok c : treach c → table_ok c.
Proof. induction 1; [apply zero_table_ok|by eapply tstep_ok]. Qed.

