(* ===== verification/Blocking.v ===== *)
(** * Giving up the CPU and being woken (proc.c)

    [sched], [yield], [sleep] and [wakeup] as they run on one CPU: none of the
    checks of [sched] fails, the table changes exactly once before the switch,
    and the interrupt state of the kernel thread survives a switch of CPU. *)

From S2P Require Import Prelude Machine Spinlock CString ProcTable Proc Lifecycle Ready Aging.
From S2P Require Import ProcLemmas Scheduler Reach.

(** The lock at [lk] is not held. *)
Definition lock_free (m : mach) (lk : Z) : Prop := ∃ l, locks m !! lk = Some l ∧ is_free l.

Lemma no_lock_intro m c u lk : mach_ok m c u → ncli u = 0 → lock_free m lk → no_lock m c u lk.
Proof. by split. Qed.

Lemma set_intena_neutral_ok m c u lk v :
  holds_only m c u lk → holds_only (m <| cpus ::= alter (fun c => c <| intena := v |>) c |>) c (u <| intena := v |>) lk.
Proof.
  intros [[Hs Hc Hn Hif] H1 Hl]. split; [split|done|done].
  - by rewrite self_alter.
  - simpl. by rewrite list_lookup_alter_eq, Hc.
  - done.
  - done.
Qed.

(** Whether releasing the only lock turns interrupts on. *)
Lemma if_on_released m c u lk :
  holds_only m c u lk → if_on (released c u lk m) = negb (intena u =? 0).
Proof.
  intros [[_ _ _ Hif] H1 _]. unfold released, popped. rewrite H1. simpl.
  destruct (Z.eqb_spec (intena u) 0); simpl; [by apply Hif; lia|apply if_on_lor].
Qed.

Lemma push_cpu_intena m u : ncli u = 0 → negb (intena (push_cpu (eflags m) u) =? 0) = if_on m.
Proof. intros H. unfold push_cpu, if_on. by rewrite H. Qed.

Lemma push_cpu_proc e u : cpu_proc (push_cpu e u) = cpu_proc u.
Proof. unfold push_cpu. by split_if. Qed.

Lemma lock_free_acquired m c lk lk' : lk ≠ lk' → lock_free m lk' → lock_free (acquired c lk m) lk'.
Proof. intros Hne (l & Hl & Hf). exists l. by rewrite locks_acquired_ne. Qed.

Lemma locks_popped c u m : locks (popped c u m) = locks m.
Proof. unfold popped. by split_if. Qed.

Lemma lock_free_released m c u lk l :
  locks m !! lk = Some l → lock_free (released c u lk m) lk.
Proof.
  intros Hl. exists (free_lock l). unfold released. rewrite locks_popped. simpl.
  by rewrite lookup_alter_eq, Hl.
Qed.

Lemma lock_free_released_ne m c u lk lk' :
  lk ≠ lk' → lock_free m lk' → lock_free (released c u lk m) lk'.
Proof.
  intros Hne (l & Hl & Hf). exists l. unfold released. rewrite locks_popped. simpl.
  by rewrite lookup_alter_ne.
Qed.

(** Taking [ptable.lock] and dropping the only other lock: the CPU ends with
    [ptable.lock] alone. *)
Lemma exchange_locks m c u lk lk' l :
  lk ≠ lk' → holds_only m c u lk → lock_free m lk' →
  let m1 := acquired c lk' m in let u1 := push_cpu (eflags m) u in
  locks m !! lk = Some l →
  mach_ok m1 c u1 ∧ 0 < ncli u1 ∧ locks m1 !! lk = Some l ∧
  holds_only (released c u1 lk m1) c u lk' ∧ lock_free (released c u1 lk m1) lk.
Proof.
  intros Hne [Hok H1 _] (l' & Hl' & _) m1 u1 Hl.
  assert (mach_ok m1 c u1) as Hok1 by (by apply mach_ok_acquired).
  assert (locks m1 !! lk = Some l) as Hl1 by (unfold m1; by rewrite locks_acquired_ne).
  assert (u1 = u <| ncli := 2 |>) as Hu1.
  { unfold u1, push_cpu. rewrite H1. simpl. destruct u. simpl in *. by subst. }
  split_and!; [done|by rewrite Hu1|done| |by eapply lock_free_released].
  unfold released, popped. rewrite Hu1. simpl. destruct Hok1 as [Hs Hc Hn Hif]. split; [split|done|].
  - rewrite <- Hs. apply self_ext; [done|done|]. by apply apicids_alter.
  - simpl. simpl in Hc. rewrite list_lookup_alter_eq, Hc, Hu1. simpl. f_equal. destruct u. simpl in *. by subst.
  - lia.
  - intros _. apply Hif. by rewrite Hu1.
  - exists (take_lock c l'). simpl. rewrite lookup_alter_ne by done. by rewrite lookup_alter_eq, Hl'.
Qed.

Section blocking.
Context {R : Type} {PE : ProcEnv R} {FU : Fuel}.
Implicit Types s : pstate R.

(** The current CPU's fields, read with interrupts off. *)
Lemma read_cpu_ret {A} (f : cpu → A) s c u :
  mach_ok (machine s) c u → 0 < ncli u →
  on_mach (i <- mycpu ;; c <- cpu_get i ;; ret (f c)) s = Ret (f u) s.
Proof.
  intros Hok Hn. rewrite <- (set_machine_id s) at 2. apply on_mach_ret.
  rewrite (bind_ret _ _ _ _ _ (mycpu_ret _ _ (ok_if _ _ _ Hok Hn) (ok_self _ _ _ Hok))).
  unfold bind, cpu_get, try_get. by rewrite (ok_cpu _ _ _ Hok).
Qed.

(** What a thread does when it is switched to again. *)
Definition resume_sched (ena : Z) : M (pstate R) unit :=
  on_mach (i <- mycpu ;; cpu_set i (fun c => c <| intena := ena |>)).

Lemma sched_wait s c u p q :
  holds_only (machine s) c u ptable_lock → cpu_proc u = Some p →
  procs (ptable s) !! p = Some q → state q ≠ RUNNING →
  sched s = Wait SwtchSched s (resume_sched (intena u)).
Proof.
  intros [Hok H1 (l & Hl & H0 & Hc)] Hp Hq Hst. assert (0 < ncli u) as Hn by lia. unfold sched.
  rewrite (bind_ret _ _ _ _ _ (myproc_locked _ _ _ Hok Hn)).
  rewrite (bind_ret _ _ _ true s).
  2:{ unfold on_mach, zoom. rewrite (holding_ret _ _ _ _ _ Hok Hl), (synced_id _ _ _ Hok Hn). simpl.
      destruct (Z.eqb_spec (locked l) 0); [done|]. simpl. unfold same_cpu.
      rewrite bool_decide_eq_true_2 by done. by destruct s. }
  cbn [negb]. rewrite (bind_ret _ _ _ _ _ (read_cpu_ret ncli _ _ _ Hok Hn)).
  rewrite H1. cbn [negb Z.eqb Pos.eqb]. rewrite Hp, (bind_ret _ _ _ p s) by done.
  rewrite (bind_ret _ _ _ _ _ (get_proc_ret _ _ _ Hq)).
  rewrite (proj2 (is_state_false _ _) Hst).
  rewrite (bind_ret _ _ _ (eflags (machine s)) s) by (unfold on_mach, zoom; simpl; by destruct s).
  pose proof (ok_if _ _ _ Hok Hn) as Hoff. unfold if_on in Hoff. rewrite Hoff.
  by rewrite (bind_ret _ _ _ _ _ (read_cpu_ret intena _ _ _ Hok Hn)).
Qed.

Lemma resume_sched_ret ena s c u :
  holds_only (machine s) c u ptable_lock →
  resume_sched ena s =
  Ret tt (s <| machine ::= fun m => m <| cpus ::= alter (fun c => c <| intena := ena |>) c |> |>).
Proof.
  intros [Hok H1 _]. apply on_mach_ret. assert (0 < ncli u) as Hn by lia.
  by rewrite (bind_ret _ _ _ _ _ (mycpu_ret _ _ (ok_if _ _ _ Hok Hn) (ok_self _ _ _ Hok))).
Qed.

(** Resumed with [ptable.lock] held, then releasing it. *)
Lemma resume_unlock ena s c u :
  holds_only (machine s) c u ptable_lock →
  ∃ s' u', bind (resume_sched ena) (fun _ => unlock ptable_lock) s = Ret tt s' ∧
    ptable s' = ptable s ∧ no_lock (machine s') c u' ptable_lock ∧
    cpu_proc u' = cpu_proc u ∧ if_on (machine s') = negb (ena =? 0).
Proof.
  intros Hh. pose proof (set_intena_neutral_ok _ _ _ _ ena Hh) as Hh'.
  rewrite (bind_ret _ _ _ _ _ (resume_sched_ret ena _ _ _ Hh)).
  erewrite unlock_ret' by exact Hh'. eexists _, _.
  split_and!; [done|done|by apply released_no_lock|done|].
  apply (if_on_released _ _ _ _ Hh').
Qed.

Lemma bind_wait {A B} (m : M (pstate R) A) (f : A → M (pstate R) B) s w s' k :
  m s = Wait w s' k → bind m f s = Wait w s' (bind k f).
Proof. intros H. unfold bind. by rewrite H. Qed.

(** ** [yield] *)

(** [yield] passes every check of [sched]: it takes [ptable.lock], appends
    the process to the queue of its priority, marks it RUNNABLE and switches to
    the scheduler holding only that lock.  When the process is switched to
    again, on whatever CPU, it releases the lock and goes on with interrupts
    enabled exactly if they were enabled when it yielded. *)
Theorem yield_correct s c u p q n :
  no_lock (machine s) c u ptable_lock → cpu_proc u = Some p →
  table_ok (ptable s, n) → procs (ptable s) !! p = Some q → state q = RUNNING →
  ∃ s' u' k l kont, yield s = Wait SwtchSched s' kont ∧
    holds_only (machine s') c u' ptable_lock ∧ table_ok (ptable s', n) ∧
    procs (ptable s') = alter (fun q => q <| state := RUNNABLE |>) p (procs (ptable s)) ∧
    priority q = Z.of_nat k ∧ queue_of (ptable s) k = Some l ∧ queue_of (ptable s') k = Some (l ++ [p]) ∧
    ∀ s2 c2 u2, holds_only (machine s2) c2 u2 ptable_lock →
      ∃ s3 u3, kont s2 = Ret tt s3 ∧ ptable s3 = ptable s2 ∧
        no_lock (machine s3) c2 u3 ptable_lock ∧ if_on (machine s3) = if_on (machine s).
Proof.
  intros Hnl Hp Ht Hq Hst. pose proof (acquired_holds_only _ _ _ _ Hnl) as Hh.
  destruct (make_runnable_ok (ptable s) n p q Ht Hq) as (t' & k & l & Hm & Ht' & Hpt & Hk & Hl & Hl'); [by right|].
  set (s1 := s <| machine ::= acquired c ptable_lock |>).
  set (u1 := push_cpu (eflags (machine s)) u) in *.
  assert (0 < ncli u1) as Hn by (rewrite (ho_ncli _ _ _ _ Hh); lia).
  assert (cpu_proc u1 = Some p) as Hp1 by (unfold u1; by rewrite push_cpu_proc).
  exists (s1 <| ptable := t' |>), u1, k, l, (bind (resume_sched (intena u1)) (fun _ => unlock ptable_lock)).
  split_and!; try done.
  - unfold yield. rewrite (bind_ret _ _ _ _ _ (lock_ret' _ _ _ _ Hnl)). fold s1.
    rewrite (bind_ret _ _ _ _ _ (curproc_locked s1 c u1 p (ho_ok _ _ _ _ Hh) Hn Hp1)).
    rewrite (bind_ret _ _ _ _ _ (on_ptable_ret _ s1 t' Hm)).
    apply bind_wait. eapply (sched_wait _ c u1 p (q <| state := RUNNABLE |>)); try done.
    simpl. by rewrite Hpt, list_lookup_alter_eq, Hq.
  - intros s2 c2 u2 H2. destruct (resume_unlock (intena u1) s2 c2 u2 H2) as (s3 & u3 & H3 & H4 & H5 & _ & H6).
    exists s3, u3. split_and!; try done. rewrite H6. apply push_cpu_intena, (nl_ncli _ _ _ _ Hnl).
Qed.

(** ** [sleep] *)

(** The end of [sleep], once the process is switched to again. *)
Lemma sleep_resume ena p lk s c u :
  lk ≠ ptable_lock → holds_only (machine s) c u ptable_lock → lock_free (machine s) lk →
  ∃ s' u', bind (resume_sched ena) (fun _ =>
      set_proc p (fun q => q <| chan := 0 |>) ;;; unlock ptable_lock ;;; lock lk) s = Ret tt s' ∧
    ptable s' = upd p (fun q => q <| chan := 0 |>) (ptable s) ∧
    holds_only (machine s') c u' lk ∧ lock_free (machine s') ptable_lock ∧
    negb (intena u' =? 0) = negb (ena =? 0).
Proof.
  intros Hne Hh Hf. pose proof (set_intena_neutral_ok _ _ _ _ ena Hh) as Hh'.
  rewrite (bind_ret _ _ _ _ _ (resume_sched_ret ena _ _ _ Hh)).
  erewrite bind_ret by reflexivity.
  erewrite bind_ret by (eapply unlock_ret'; exact Hh').
  pose proof (released_no_lock _ _ _ _ Hh') as Hr. pose proof (if_on_released _ _ _ _ Hh') as Hio.
  set (m2 := released _ _ _ _) in *. set (u2 := _ <| ncli := 0 |>) in *.
  assert (no_lock m2 c u2 lk) as Hnl.
  { apply no_lock_intro; [apply Hr|done|]. by apply lock_free_released_ne. }
  eexists _, (push_cpu (eflags m2) u2). split; [by apply (lock_ret' _ _ c u2)|]. split_and!; [done| | |].
  - by apply acquired_holds_only.
  - apply lock_free_acquired; [done|apply Hr].
  - rewrite (push_cpu_intena m2 u2) by done. done.
Qed.


(** ** Routines that only work on the table *)

(** A change of the table between [acquire] and [release]. *)
Lemma with_ptable_lock {A} (f : ptbl → option ptbl) (a : A) s c u t :
  mach_ok (machine s) c u → lock_free (machine s) ptable_lock → f (ptable s) = Some t →
  (lock ptable_lock ;;; on_ptable f ;;; unlock ptable_lock ;;; ret a) s =
  Ret a (s <| machine ::= synced c |> <| ptable := t |>).
Proof.
  intros Hok (l & Hl & Hf) Ht. pose proof Hf as [H0 _].
  erewrite bind_ret by (by eapply lock_ret).
  erewrite bind_ret by (by apply on_ptable_ret).
  pose proof (mach_ok_acquired _ _ _ ptable_lock Hok) as Hok1.
  erewrite bind_ret.
  2:{ eapply (unlock_ret _ _ c); [exact Hok1| |by apply locks_acquired|done|done].
      rewrite push_cpu_ncli. pose proof (ok_ncli _ _ _ Hok). lia. }
  unfold ret. f_equal. simpl. f_equal. by eapply released_acquired.
Qed.

Lemma with_ptable_lock_unit (f : ptbl → option ptbl) s c u t :
  mach_ok (machine s) c u → lock_free (machine s) ptable_lock → f (ptable s) = Some t →
  (lock ptable_lock ;;; on_ptable f ;;; unlock ptable_lock) s =
  Ret tt (s <| machine ::= synced c |> <| ptable := t |>).
Proof.
  intros Hok Hl Ht. pose proof (with_ptable_lock f tt s c u t Hok Hl Ht) as H.
  unfold bind in *. destruct (lock ptable_lock s) as [[] s1| | | |]; try done. simpl in *.
  destruct (on_ptable f s1) as [[] s2| | | |]; try done. simpl in *.
  by destruct (unlock ptable_lock s2) as [[] s3| | | |].
Qed.

(** [wakeup(chan)] makes RUNNABLE exactly the processes that sleep on
    [chan], each at the end of the queue of its priority, changes no other
    process, and leaves [ptable.lock] free. *)
Theorem wakeup_exact s c u ch :
  mach_ok (machine s) c u → lock_free (machine s) ptable_lock → sched_ok (ptable s) →
  ∃ s', wakeup ch s = Ret tt s' ∧ sched_ok (ptable s') ∧ lock_free (machine s') ptable_lock ∧
    if_on (machine s') = if_on (machine s) ∧
    ∀ i p, procs (ptable s) !! i = Some p →
      procs (ptable s') !! i =
        Some (if decide (state p = SLEEPING ∧ chan p = ch) then p <| state := RUNNABLE |> else p).
Proof.
  intros Hok Hl Ht. destruct (wakeup1_spec (ptable s) ch Ht) as (t & Hw & Ht' & Hp).
  eexists. split; [by eapply with_ptable_lock_unit|]. split_and!; [done|exact Hl|done|].
  intros i p Hi. simpl. rewrite Hp, list_lookup_fmap, Hi. simpl. f_equal. unfold wake.
  case_decide as E; destruct (is_state SLEEPING p && (chan p =? ch)) eqn:Eb; try done.
  - destruct E as [E1 E2]. rewrite (proj2 (is_state_true _ _) E1), (proj2 (Z.eqb_eq _ _) E2) in Eb. done.
  - breflect. apply is_state_true in H. tauto.
Qed.

Lemma kill_ret s c u the_pid r t :
  mach_ok (machine s) c u → lock_free (machine s) ptable_lock →
  kill_tbl the_pid (ptable s) = Some (r, t) →
  kill the_pid s = Ret r (s <| machine ::= synced c |> <| ptable := t |>).
Proof.
  intros Hok Hl Ht.
  assert ((fun t => snd <$> kill_tbl the_pid t) (ptable s) = Some t) as Ht2 by (by rewrite Ht).
  pose proof (with_ptable_lock (fun t => snd <$> kill_tbl the_pid t) r s c u t Hok Hl Ht2) as H.
  etrans; [|exact H]. destruct Hl as (l & Hl & Hf & _). unfold kill.
  erewrite !(bind_ret (lock ptable_lock)) by (by eapply lock_ret).
  erewrite bind_ret; [done|]. apply ask_ptable_ret. simpl. by rewrite Ht.
Qed.
End blocking.

(** ** [kill] *)

Section kill_theorems.
Context {R : Type} {PE : ProcEnv R} {FU : Fuel}.
Implicit Types s : pstate R.

(** [kill(pid)] of a process in use sets its [killed] flag and wakes it if
    it sleeps; it returns 0, changes no other process and keeps the queues
    consistent.  If no slot has the pid it returns -1 and changes nothing. *)
Theorem kill_correct s c u the_pid n :
  mach_ok (machine s) c u → lock_free (machine s) ptable_lock → table_ok (ptable s, n) →
  ∃ r s', kill the_pid s = Ret r s' ∧ table_ok (ptable s', n) ∧ lock_free (machine s') ptable_lock ∧
    ((r = -1 ∧ ptable s' = ptable s ∧ ∀ i p, procs (ptable s) !! i = Some p → pid p ≠ the_pid) ∨
     (r = 0 ∧ ∃ i p, procs (ptable s) !! i = Some p ∧ pid p = the_pid ∧
        procs (ptable s') !! i =
          Some ((if decide (state p = SLEEPING) then p <| state := RUNNABLE |> else p) <| killed := 1 |>) ∧
        ∀ j, j ≠ i → procs (ptable s') !! j = procs (ptable s) !! j)).
Proof.
  intros Hok Hl Ht. destruct (kill_ok (ptable s) n the_pid Ht) as (r & t & Hk & Ht').
  destruct (kill_tbl_spec (ptable s) the_pid (proj1 Ht)) as (r' & t' & Hk' & _ & Hcase).
  rewrite Hk in Hk'. simplify_eq. eexists r', _. split; [by eapply kill_ret|].
  split_and!; [exact Ht'|exact Hl|]. destruct Hcase as [?|(-> & i & p & Hp & Hid & Hpt)]; [by left|right].
  split; [done|]. exists i, p. simpl. rewrite Hpt. split_and!; [done|done| |].
  - rewrite list_lookup_alter_eq, Hp. simpl. unfold is_state.
    case_decide; [by rewrite bool_decide_eq_true_2|by rewrite bool_decide_eq_false_2].
  - intros j Hj. by rewrite list_lookup_alter_ne.
Qed.

(** C38. [kill(0)] is not rejected: in-use processes have positive pids, but a
    free slot whose pid is 0 matches.  The call returns 0 and marks the slot
    killed; [allocproc] does not clear the mark, so the next process created
    in that slot is killed before it starts. *)
Theorem kill_zero_hits_next_process s c u n i p now :
  mach_ok (machine s) c u → lock_free (machine s) ptable_lock → table_ok (ptable s, n) →
  find_proc (is_state UNUSED) (procs (ptable s)) 0 = Some i →
  find_proc (fun p => pid p =? 0) (procs (ptable s)) 0 = Some i →
  procs (ptable s) !! i = Some p →
  ∃ s', kill 0 s = Ret 0 s' ∧ find_proc (is_state UNUSED) (procs (ptable s')) 0 = Some i ∧
    ∃ q, procs (upd i (embryo n now) (ptable s')) !! i = Some q ∧
      state q = EMBRYO ∧ pid q = n ∧ killed q = 1.
Proof.
  intros Hok Hl Ht Hf Hf0 Hp.
  assert (state p = UNUSED) as Hu.
  { apply find_proc_Some in Hf as (_ & (p' & Hp' & Hs) & _). rewrite Nat.sub_0_r in Hp'.
    simplify_eq. by apply is_state_true. }
  set (t := upd i (fun p => p <| killed := 1 |>) (ptable s)).
  assert (kill_tbl 0 (ptable s) = Some (0, t)) as Hk.
  { unfold kill_tbl. rewrite Hf0, Hp. cbn [mbind option_bind]. unfold is_state. by rewrite Hu. }
  eexists. split; [by eapply kill_ret|]. simpl ptable.
  assert (procs t !! i = Some (p <| killed := 1 |>)) as Hpt by (by apply lookup_upd_eq).
  split; [|eexists; split; [by apply lookup_upd_eq|done]].
  rewrite <- Hf. simpl. generalize (procs (ptable s)) as ps. clear. generalize 0%nat as o. intros o ps. revert i o.
  induction ps as [|q ps IH]; intros [|i] o; simpl; try done.
  destruct (is_state UNUSED q); [done|apply IH].
Qed.
End kill_theorems.
