(* ===== verification/Family.v ===== *)
(** * Parents and children (proc.c)

    [allocproc] and [fork], [exit] and [wait], against the interface [QuietEnv]
    of the allocators and of the file layer: what proc.c relies on when it
    calls them without holding a lock. *)

From S2P Require Import Prelude Machine Spinlock CString ProcTable Proc Lifecycle Ready Aging.
From S2P Require Import ProcLemmas Scheduler Reach Blocking.

Section frames.
Context {R : Type}.
Implicit Types s : pstate R.

(** Process [p] runs on CPU [c] and holds no lock. *)
Definition thread s (c p : nat) : Prop :=
  ∃ u, mach_ok (machine s) c u ∧ ncli u = 0 ∧ cpu_proc u = Some p ∧ lock_free (machine s) ptable_lock.

(** What a call into another component leaves as it was. *)
Definition frame s s' : Prop :=
  ptable s' = ptable s ∧ nextpid s' = nextpid s ∧ initproc s' = initproc s ∧ ticks s' = ticks s.

Lemma frame_refl s : frame s s.
Proof. done. Qed.

Lemma thread_synced s c p : thread s c p → thread (s <| machine ::= synced c |>) c p.
Proof.
  intros (u & Hok & Hn & Hp & Hl). exists (sync_cpu (eflags (machine s)) u).
  split_and!; [by apply mach_ok_synced| | |done]; unfold sync_cpu; by split_if.
Qed.

(** Process [p] runs on CPU [c] and holds only [ptable.lock]. *)
Definition thread_locked s (c p : nat) : Prop :=
  ∃ u, holds_only (machine s) c u ptable_lock ∧ cpu_proc u = Some p.

Lemma thread_machine s s' c p : machine s' = machine s → thread s c p → thread s' c p.
Proof. unfold thread. by intros ->. Qed.
End frames.

(** What proc.c holds of the other components: pages, address spaces of a
    given size, open files and inodes it has references to, the memory of a
    dead process (kernel stack and page directory), and what is left of it
    once the stack is freed. *)
Class EnvRes (R : Type) := {
  env_page : R → Z → Prop;
  env_space : R → Z → Z → Prop;
  env_file : R → Z → Prop;
  env_inode : R → Z → Prop;
  env_image : R → Z → Z → Prop;
  env_pgdir : R → Z → Prop }.

(** Nothing that was held is lost. *)
Definition keeps {R} {ER : EnvRes R} (r r' : R) : Prop :=
  (∀ a, env_page r a → env_page r' a) ∧ (∀ pg n, env_space r pg n → env_space r' pg n) ∧
  (∀ f, env_file r f → env_file r' f) ∧ (∀ i, env_inode r i → env_inode r' i).

(** The allocators and the file layer, as seen by a running process that holds
    no lock: they return, they leave the process table alone and what the
    process holds, and [filedup] and [idup] return their argument.  Everything
    is asked only of arguments that the process holds. *)
Class QuietEnv (R : Type) {PE : ProcEnv R} {ER : EnvRes R} := {
  env_ok : pstate R → Prop;
  env_ok_ext : ∀ s s', res s = res s' →
    (∀ lk, lk ≠ ptable_lock → locks (machine s) !! lk = locks (machine s') !! lk) →
    env_ok s → env_ok s';
  kalloc_quiet : ∀ s c p, thread s c p → env_ok s →
    runs kalloc s (fun a s' => frame s s' ∧ thread s' c p ∧ env_ok s' ∧ keeps (res s) (res s') ∧
      (a ≠ 0 → env_page (res s') a));
  kfree_quiet : ∀ a s c p, thread s c p → env_ok s → env_page (res s) a →
    runs (kfree a) s (fun _ s' => frame s s' ∧ thread s' c p ∧ env_ok s');
  copyuvm_quiet : ∀ pg n s c p, thread s c p → env_ok s → env_space (res s) pg n →
    runs (copyuvm pg n) s (fun _ s' => frame s s' ∧ thread s' c p ∧ env_ok s' ∧ keeps (res s) (res s'));
  filedup_quiet : ∀ f s c p, thread s c p → env_ok s → env_file (res s) f →
    runs (filedup f) s (fun f' s' => f' = f ∧ frame s s' ∧ thread s' c p ∧ env_ok s' ∧ keeps (res s) (res s'));
  idup_quiet : ∀ i s c p, thread s c p → env_ok s → env_inode (res s) i →
    runs (idup i) s (fun i' s' => i' = i ∧ frame s s' ∧ thread s' c p ∧ env_ok s' ∧ keeps (res s) (res s'));
  (* with ptable.lock held *)
  kfree_locked : ∀ a pg s c p, thread_locked s c p → env_ok s → env_image (res s) a pg →
    runs (kfree a) s (fun _ s' => frame s s' ∧ thread_locked s' c p ∧ env_ok s' ∧ env_pgdir (res s') pg);
  freevm_locked : ∀ pg s c p, thread_locked s c p → env_ok s → env_pgdir (res s) pg →
    runs (freevm pg) s (fun _ s' => frame s s' ∧ thread_locked s' c p ∧ env_ok s') }.

(** What the current process must hold to fork. *)
Definition forkable {R} {ER : EnvRes R} (r : R) (q : proc) : Prop :=
  env_space r (pgdir q) (sz q) ∧ env_inode r (cwd q) ∧
  ∀ k f, ofile q !! k = Some f → f ≠ 0 → env_file r f.

Lemma keeps_refl {R} {ER : EnvRes R} (r : R) : keeps r r.
Proof. by repeat split. Qed.
Lemma keeps_trans {R} {ER : EnvRes R} (r1 r2 r3 : R) : keeps r1 r2 → keeps r2 r3 → keeps r1 r3.
Proof. intros (?&?&?&?) (?&?&?&?). repeat split; eauto. Qed.
Lemma keeps_forkable {R} {ER : EnvRes R} (r r' : R) q : keeps r r' → forkable r q → forkable r' q.
Proof. intros (_ & H1 & H2 & H3) (? & ? & Hf). repeat split; eauto. Qed.

Section family.
Context {R : Type} {PE : ProcEnv R} {ER : EnvRes R} {QE : QuietEnv R} {FU : Fuel}.
Implicit Types s : pstate R.

(** ** Steps of a thread that holds no lock *)

Lemma ptable_upd s f : ptable (s <| ptable ::= f |>) = f (ptable s).
Proof. done. Qed.

Lemma env_ok_machine s s' :
  res s = res s' → locks (machine s) = locks (machine s') → env_ok s → env_ok s'.
Proof. intros Hr Hl. apply env_ok_ext; [done|]. intros lk _. by rewrite Hl. Qed.

Lemma curproc_runs s c p (Q : nat → pstate R → Prop) :
  thread s c p → env_ok s →
  (∀ s', frame s s' → thread s' c p → env_ok s' → res s' = res s → Q p s') → runs curproc s Q.
Proof.
  intros Ht He HQ. pose proof Ht as (u & Hok & Hn & Hp & Hl). exists p, (s <| machine ::= synced c |>).
  split; [|apply HQ; [done|by apply thread_synced|by eapply env_ok_machine; [| |exact He]|done]].
  unfold curproc. rewrite (bind_ret _ _ _ _ _ (myproc_ret _ _ _ Hok)). by rewrite Hp.
Qed.

Lemma set_proc_runs i f s (Q : unit → pstate R → Prop) :
  Q tt (s <| ptable ::= upd i f |>) → runs (set_proc i f) s Q.
Proof. intros H. by exists tt, (s <| ptable ::= upd i f |>). Qed.

Lemma get_proc_runs i s q (Q : proc → pstate R → Prop) :
  procs (ptable s) !! i = Some q → Q q s → runs (get_proc i) s Q.
Proof. intros Hq H. exists q, s. by rewrite (get_proc_ret _ _ _ Hq). Qed.

Lemma runs_gets {A} (f : pstate R → A) s (Q : A → pstate R → Prop) : Q (f s) s → runs (gets f) s Q.
Proof. intros H. by exists (f s), s. Qed.

Lemma runs_modify (f : pstate R → pstate R) s (Q : unit → pstate R → Prop) : Q tt (f s) → runs (modify f) s Q.
Proof. intros H. by exists tt, (f s). Qed.

(** A critical section on the table. *)
Lemma critical_runs {A} (f : ptbl → option ptbl) (a : A) s c p t (Q : A → pstate R → Prop) :
  thread s c p → env_ok s → f (ptable s) = Some t →
  (∀ s', ptable s' = t → nextpid s' = nextpid s → thread s' c p → env_ok s' → Q a s') →
  runs (lock ptable_lock ;;; on_ptable f ;;; unlock ptable_lock ;;; ret a) s Q.
Proof.
  intros Ht He Hf HQ. pose proof Ht as (u & Hok & Hn & Hp & Hl).
  eexists _, _. split; [by eapply with_ptable_lock|]. apply HQ; try done.
  - apply (thread_synced s c p Ht).
  - by eapply env_ok_machine; [| |exact He].
Qed.

(** Releasing a lock that was just taken. *)
Lemma unlock_acquired s m c u :
  mach_ok m c u → lock_free m ptable_lock → machine s = acquired c ptable_lock m →
  unlock ptable_lock s = Ret tt (s <| machine := synced c m |>).
Proof.
  intros Hok (l & Hl & Hf) Hm. pose proof (mach_ok_acquired _ _ _ ptable_lock Hok) as Hok1.
  erewrite unlock_ret; [|by rewrite Hm| |by rewrite Hm; apply locks_acquired|done|done].
  - destruct s. simpl in *. subst. do 2 f_equal. by eapply released_acquired.
  - rewrite push_cpu_ncli. pose proof (ok_ncli _ _ _ Hok). lia.
Qed.

(** ** [allocproc] *)

(** The slot as [allocproc] leaves it when the kernel stack is at [ks]. *)
Definition new_proc (n now ks : Z) (p : proc) : proc := setup_stack ks ((embryo n now p) <| kstack := ks |>).
(** The slot when there is no memory for the stack. *)
Definition failed_proc (n now : Z) (p : proc) : proc :=
  (embryo n now p) <| kstack := 0 |> <| state := UNUSED |>.

Definition alloc_post s c p (o : option nat) s' : Prop :=
  thread s' c p ∧ env_ok s' ∧ keeps (res s) (res s') ∧
  match find_proc (is_state UNUSED) (procs (ptable s)) 0 with
  | None => o = None ∧ ptable s' = ptable s ∧ nextpid s' = nextpid s
  | Some i =>
      nextpid s' = s32 (nextpid s + 1) ∧
      ((o = None ∧ ptable s' = upd i (failed_proc (nextpid s) (ticks s)) (ptable s)) ∨
       (o = Some i ∧ ∃ ks, ks ≠ 0 ∧ env_page (res s') ks ∧
          ptable s' = upd i (new_proc (nextpid s) (ticks s) ks) (ptable s)))
  end.

(** [allocproc] once the slot is reserved and the lock released. *)
Lemma alloc_stack_runs s0 s c p i :
  thread s c p → env_ok s → res s = res s0 → find_proc (is_state UNUSED) (procs (ptable s0)) 0 = Some i →
  ptable s = upd i (embryo (nextpid s0) (ticks s0)) (ptable s0) → nextpid s = s32 (nextpid s0 + 1) →
  runs (ks <- kalloc ;;
        set_proc i (fun p => p <| kstack := ks |>) ;;;
        if ks =? 0 then set_proc i (fun p => p <| state := UNUSED |>) ;;; ret None
        else set_proc i (setup_stack ks) ;;; ret (Some i)) s (alloc_post s0 c p).
Proof.
  intros Ht He Hres Hf Hpt Hn. apply runs_bind. eapply runs_mono; [by apply (kalloc_quiet s c p)|].
  intros ks s1 ((Hp1 & Hn1 & _) & Ht1 & He1 & Hk1 & Hpg1). rewrite Hres in Hk1.
  apply runs_bind, set_proc_runs.
  destruct (Z.eqb_spec ks 0) as [->|Hks]; apply runs_bind, set_proc_runs, runs_ret.
  - split_and!; [by eapply thread_machine; [|exact Ht1]|by eapply env_ok_machine; [| |exact He1]|exact Hk1|].
    rewrite Hf. split; [simpl; congruence|]. left. split; [done|].
    rewrite !ptable_upd, Hp1, Hpt, !upd_upd. reflexivity.
  - split_and!; [by eapply thread_machine; [|exact Ht1]|by eapply env_ok_machine; [| |exact He1]|exact Hk1|].
    rewrite Hf. split; [simpl; congruence|]. right. split; [done|]. exists ks. split; [done|].
    split; [by apply Hpg1|].
    rewrite !ptable_upd, Hp1, Hpt, !upd_upd. reflexivity.
Qed.

Lemma allocproc_runs s c p : thread s c p → env_ok s → runs allocproc s (alloc_post s c p).
Proof.
  intros Ht He. pose proof Ht as (u & Hok & Hn & Hp & Hl). destruct Hl as (l & Hl & Hf).
  assert (lock_free (machine s) ptable_lock) as Hlf by (by exists l).
  set (s1 := s <| machine ::= acquired c ptable_lock |>).
  unfold allocproc. apply runs_bind. exists tt, s1. split; [eapply lock_ret; [done|done|apply Hf]|].
  apply runs_bind, runs_gets. simpl ptable.
  destruct (find_proc (is_state UNUSED) (procs (ptable s)) 0) as [i|] eqn:Hfind.
  2:{ apply runs_bind. exists tt, (s <| machine ::= synced c |>).
      split; [by apply (unlock_acquired s1 (machine s) c u)|]. apply runs_ret.
      split_and!; [by apply thread_synced|by eapply env_ok_machine; [| |exact He]|apply keeps_refl|by rewrite Hfind]. }
  apply runs_bind, runs_gets, runs_bind, runs_gets, runs_bind, set_proc_runs, runs_bind, runs_modify.
  apply runs_bind. eexists tt, _. split; [by apply (unlock_acquired _ (machine s) c u)|].
  apply (alloc_stack_runs s); try done.
  - eapply thread_machine; [|apply (thread_synced s c p Ht)]. done.
  - by eapply env_ok_machine; [| |exact He].
Qed.

(** ** [fork] *)

(** The descriptors of the child: those of the parent, and what the slot had
    where the parent has none. *)
Fixpoint dup_files (k : nat) (src dst : list Z) : list Z :=
  match k with
  | O => dst
  | S k' =>
      match src !! k' with
      | Some f => if f =? 0 then dup_files k' src dst else <[k' := f]> (dup_files k' src dst)
      | None => dup_files k' src dst
      end
  end.

Definition files_inv s0 c cur np (src : list Z) (k : nat) s : Prop :=
  thread s c cur ∧ env_ok s ∧ keeps (res s0) (res s) ∧ nextpid s = nextpid s0 ∧
  ptable s = upd np (fun p => p <| ofile ::= dup_files k src |>) (ptable s0).

Lemma fork_files_runs s c cur np q :
  thread s c cur → env_ok s → forkable (res s) q →
  procs (ptable s) !! cur = Some q → cur ≠ np → length (ofile q) = NOFILE →
  runs (fork_files cur np) s (fun _ => files_inv s c cur np (ofile q) NOFILE).
Proof.
  intros Ht He Hfk Hq Hne Hlen.
  apply (runs_for_range _ (files_inv s c cur np (ofile q))).
  { split_and!; try done. unfold upd. destruct (ptable s) as [ps qs cs]. simpl. f_equal.
    symmetry. apply alter_id_ext. by intros []. }
  intros k s1 Hk (Ht1 & He1 & Hk1 & Hn1 & Hp1).
  assert (procs (ptable s1) !! cur = Some q) as Hq1 by (by rewrite Hp1, lookup_upd_ne).
  apply runs_bind, (get_proc_runs _ _ q); [done|]. apply runs_bind.
  destruct (lookup_lt_is_Some_2 (ofile q) k) as [f Hf]; [lia|].
  exists f, s1. split; [unfold try_get; by rewrite Hf|].
  rewrite Nat.add_1_r. unfold files_inv. cbn [dup_files]. rewrite Hf.
  destruct (Z.eqb_spec f 0) as [E|E]; [by apply runs_ret|].
  destruct (keeps_forkable _ _ _ Hk1 Hfk) as (_ & _ & Hfile).
  apply runs_bind. eapply runs_mono; [apply (filedup_quiet f s1 c cur); eauto|].
  intros f' s2 (-> & (Hp2 & Hn2 & _) & Ht2 & He2 & Hk2). apply set_proc_runs.
  split_and!; [by eapply thread_machine; [|exact Ht2]|by eapply env_ok_machine; [| |exact He2]
    |by eapply keeps_trans|simpl; congruence|].
  rewrite ptable_upd, Hp2, Hp1, upd_upd. reflexivity.
Qed.

#[local] Opaque dup_files.

(** The child just before it is made RUNNABLE. *)
Definition child (q : proc) (cur : nat) (nm : list Z) (p : proc) : proc :=
  p <| sz := sz q |> <| parent := Some cur |> <| tf := (tf q) <| t_eax := 0 |> |>
    <| ofile := dup_files NOFILE (ofile q) (ofile p) |> <| cwd := cwd q |> <| pname := nm |>.

Definition wf_proc (p : proc) : Prop := length (ofile p) = NOFILE ∧ length (pname p) = 16%nat.

Lemma set_name_runs i src s p :
  procs (ptable s) !! i = Some p → length (pname p) = 16%nat → length src = 16%nat →
  ∃ nm, length nm = 16%nat ∧ strlen nm = Some (length (cstr 15 src)) ∧
    set_name i src s = Ret tt (s <| ptable ::= upd i (fun p => p <| pname := nm |>) |>).
Proof.
  intros Hp Hl Hs.
  destruct (safestrcpy_from_spec 15 (pname p) 0 src) as (nm & H1 & H2 & _ & H3 & _);
    [lia|right; rewrite drop_0; lia|].
  rewrite !drop_0 in H3. exists nm. split_and!; [congruence|done|].
  unfold set_name. rewrite (bind_ret _ _ _ _ _ (get_proc_ret _ _ _ Hp)).
  unfold safestrcpy. simpl (16 <=? 0). cbv iota. change (Z.to_nat (16 - 1)) with 15%nat.
  unfold bind at 1, try_get. by rewrite H1.
Qed.

Lemma fork_child_runs s c cur np q p n :
  thread s c cur → env_ok s → forkable (res s) q → cur ≠ np → table_ok (ptable s, n) → nextpid s = n →
  procs (ptable s) !! cur = Some q → wf_proc q →
  procs (ptable s) !! np = Some p → state p = EMBRYO → wf_proc p →
  runs (fork_child cur np) s (fun r s' =>
    thread s' c cur ∧ env_ok s' ∧ nextpid s' = n ∧ r = pid p ∧ table_ok (ptable s', n) ∧
    ∃ nm l, strlen nm = Some (length (cstr 15 (pname q))) ∧
      procs (ptable s') = alter (fun p => (child q cur nm p) <| priority := PRIO |> <| state := RUNNABLE |>)
                            np (procs (ptable s)) ∧
      queue_of (ptable s) 1 = Some l ∧ queue_of (ptable s') 1 = Some (l ++ [np])).
Proof.
  intros Ht He Hfk Hne Htab Hn Hq [Hqo Hqn] Hp Hst [Hpo Hpn]. unfold fork_child.
  set (f1 := fun p : proc => p <| sz := sz q |> <| parent := Some cur |> <| tf := tf q |>).
  set (f2 := fun p : proc => p <| tf ::= fun t => t <| t_eax := 0 |> |>).
  apply runs_bind, (get_proc_runs _ _ q); [done|].
  apply runs_bind, set_proc_runs, runs_bind, set_proc_runs.
  apply runs_bind. eapply runs_mono.
  { apply (fork_files_runs _ c cur np q); [exact Ht|by eapply env_ok_machine; [| |exact He]|exact Hfk| |done|done].
    rewrite !ptable_upd, !lookup_upd_ne by done. exact Hq. }
  intros [] s1 (Ht1 & He1 & Hk1 & Hn1 & Hp1). rewrite !ptable_upd, !upd_upd in Hp1. set (f3 := compose _ _) in Hp1.
  assert (procs (ptable s1) !! cur = Some q) as Hq1 by (by rewrite Hp1, lookup_upd_ne).
  apply runs_bind, (get_proc_runs _ _ q); [done|].
  apply runs_bind. eapply runs_mono; [apply (idup_quiet (cwd q) s1 c cur Ht1 He1), (keeps_forkable _ _ _ Hk1 Hfk)|].
  intros d s2 (-> & (Hp2 & Hn2 & _) & Ht2 & He2 & _).
  apply runs_bind, set_proc_runs.
  set (s3 := s2 <| ptable ::= upd np (fun p => p <| cwd := cwd q |>) |>).
  assert (ptable s3 = upd np ((fun p => p <| cwd := cwd q |>) ∘ f3) (ptable s)) as Hp3.
  { unfold s3. by rewrite ptable_upd, Hp2, Hp1, upd_upd. }
  set (f4 := compose _ f3) in Hp3.
  assert (procs (ptable s3) !! cur = Some q) as Hq3 by (by rewrite Hp3, lookup_upd_ne).
  assert (procs (ptable s3) !! np = Some (f4 p)) as Hnp3 by (rewrite Hp3; by apply lookup_upd_eq).
  apply runs_bind, (get_proc_runs _ _ q); [done|].
  destruct (set_name_runs np (pname q) s3 (f4 p)) as (nm & Hnml & Hnm & Hset); [done|done|done|].
  apply runs_bind. exists tt, (s3 <| ptable ::= upd np (fun p => p <| pname := nm |>) |>).
  split; [exact Hset|]. set (s4 := s3 <| ptable ::= _ |>).
  assert (ptable s4 = upd np (child q cur nm) (ptable s)) as Hp4.
  { unfold s4. rewrite ptable_upd, Hp3, upd_upd. apply (upd_ext _ _ _ _ p Hp).
    unfold f4, f3, f2, f1, compose, child. generalize (dup_files NOFILE (ofile q)). by destruct p. }
  assert (nextpid s4 = n) as Hn4 by (trans (nextpid s2); [reflexivity|]; rewrite Hn2, Hn1; exact Hn).
  assert (thread s4 c cur) as Ht4 by (eapply thread_machine; [|exact Ht2]; reflexivity).
  assert (env_ok s4) as He4 by (eapply env_ok_machine; [| |exact He2]; reflexivity).
  clearbody s4. clear s3 Hp3 Hset Hq3 Hnp3.
  assert (procs (ptable s4) !! np = Some (child q cur nm p)) as Hnp4 by (rewrite Hp4; by apply lookup_upd_eq).
  apply runs_bind, (get_proc_runs _ _ (child q cur nm p)); [done|].
  assert (table_ok (ptable s4, n)) as Htab4.
  { rewrite Hp4. apply (tstep_ok (ptable s, n)); [done|]. eapply t_private; [done|by left|..]; reflexivity. }
  destruct (enqueue_new_ok (ptable s4) n np _ Htab4 Hnp4 Hst) as (t' & Hen & Htab' & Hpr & l & Hl & Hl').
  eapply (critical_runs _ _ _ c cur t'); [done|done|exact Hen|].
  intros s5 Hp5 Hn5 Ht5 He5. rewrite Hp5. split_and!; try done.
  { by rewrite Hn5. }
  exists nm, l. split_and!; try done.
  - rewrite Hpr, Hp4. apply list_alter_alter_eq.
  - by rewrite <- Hl, Hp4.
Qed.

Lemma new_proc_table t n now ks i :
  table_ok (t, n) → n < 2 ^ 31 - 1 → find_proc (is_state UNUSED) (procs t) 0 = Some i →
  table_ok (upd i (new_proc n now ks) t, s32 (n + 1)).
Proof.
  intros Ht Hn Hf.
  assert (table_ok (upd i (embryo n now) t, s32 (n + 1))) as Ht1 by (eapply tstep_ok; [done|by apply t_alloc]).
  apply find_proc_Some in Hf as (_ & (p & Hp & _) & _). rewrite Nat.sub_0_r in Hp.
  replace (upd i (new_proc n now ks) t)
    with (upd i (fun p => setup_stack ks (p <| kstack := ks |>)) (upd i (embryo n now) t)) by (apply upd_upd).
  eapply tstep_ok; [done|]. eapply t_private; [by apply lookup_upd_eq|by left|..]; cbn; reflexivity.
Qed.

Lemma failed_proc_table t n now i :
  table_ok (t, n) → n < 2 ^ 31 - 1 → find_proc (is_state UNUSED) (procs t) 0 = Some i →
  table_ok (upd i (failed_proc n now) t, s32 (n + 1)).
Proof.
  intros Ht Hn Hf.
  assert (table_ok (upd i (embryo n now) t, s32 (n + 1))) as Ht1 by (eapply tstep_ok; [done|by apply t_alloc]).
  apply find_proc_Some in Hf as (_ & (p & Hp & _) & _). rewrite Nat.sub_0_r in Hp.
  replace (upd i (failed_proc n now) t)
    with (upd i (fun p => p <| kstack := 0 |> <| state := UNUSED |>) (upd i (embryo n now) t)) by (apply upd_upd).
  eapply table_ok_off; [done|by apply lookup_upd_eq|done|done|by intros [?|[?|?]]|done].
Qed.

(** The free slot that [allocproc] takes. *)
Lemma free_slot t i :
  find_proc (is_state UNUSED) (procs t) 0 = Some i → ∃ p, procs t !! i = Some p ∧ state p = UNUSED.
Proof.
  intros (_ & (p & Hp & Hs) & _)%find_proc_Some. rewrite Nat.sub_0_r in Hp.
  exists p. split; [done|]. by apply is_state_true.
Qed.

(** No process is created and none in use is changed. *)
Definition same_processes (t t' : ptbl) : Prop :=
  ∀ i p, state p ≠ UNUSED → procs t !! i = Some p ↔ procs t' !! i = Some p.

Lemma same_processes_upd t i f p :
  procs t !! i = Some p → state p = UNUSED → state (f p) = UNUSED → same_processes t (upd i f t).
Proof.
  intros Hp Hs Hs' j q Hq. destruct (decide (i = j)) as [<-|Hne]; [|by rewrite lookup_upd_ne].
  rewrite (lookup_upd_eq _ _ _ _ Hp), Hp. split; intros [= <-]; done.
Qed.

(** The child of process [cur] (with record [q]) in slot [np]. *)
Record forked (t t' : ptbl) (cur np : nat) (q : proc) (n : Z) : Prop := {
  forked_slot : find_proc (is_state UNUSED) (procs t) 0 = Some np;
  forked_child : ∃ p', procs t' !! np = Some p' ∧ state p' = RUNNABLE ∧ pid p' = n ∧
    parent p' = Some cur ∧ priority p' = PRIO ∧ sz p' = sz q ∧ pgdir p' ≠ 0 ∧ kstack p' ≠ 0 ∧
    tf p' = (tf q) <| t_eax := 0 |> ∧ c_eip (ctx p') = forkret_addr ∧ cwd p' = cwd q;
  forked_others : ∀ j, j ≠ np → procs t' !! j = procs t !! j;
  forked_queue : ∃ l, queue_of t 1 = Some l ∧ queue_of t' 1 = Some (l ++ [np]) }.

Lemma fork_alloced_runs s s1 c cur q np ks p0 :
  procs (ptable s) !! np = Some p0 → state p0 = UNUSED → wf_proc p0 → cur ≠ np →
  find_proc (is_state UNUSED) (procs (ptable s)) 0 = Some np →
  procs (ptable s) !! cur = Some q → wf_proc q →
  thread s1 c cur → env_ok s1 → forkable (res s1) q → env_page (res s1) ks → nextpid s1 = nextpid s + 1 → ks ≠ 0 →
  ptable s1 = upd np (new_proc (nextpid s) (ticks s) ks) (ptable s) →
  table_ok (ptable s1, nextpid s1) →
  runs (c <- get_proc cur ;;
        pg <- copyuvm (pgdir c) (sz c) ;;
        set_proc np (fun p => p <| pgdir := pg |>) ;;;
        if pg =? 0 then
          p <- get_proc np ;;
          kfree (kstack p) ;;;
          set_proc np (fun p => p <| kstack := 0 |> <| state := UNUSED |>) ;;;
          ret (-1)
        else fork_child cur np) s1
    (fun r s' => thread s' c cur ∧ env_ok s' ∧ table_ok (ptable s', nextpid s') ∧
       ((r = -1 ∧ same_processes (ptable s) (ptable s')) ∨
        (r = nextpid s ∧ ∃ np, forked (ptable s) (ptable s') cur np q (nextpid s)))).
Proof.
  intros Hp0 Hs0 Hw0 Hne Hf Hq Hwq Ht1 He1 Hfk1 Hpg1 Hn1 Hks Hp1 Htab1.
  set (p1 := new_proc (nextpid s) (ticks s) ks p0).
  assert (procs (ptable s1) !! cur = Some q) as Hq1 by (by rewrite Hp1, lookup_upd_ne).
  apply runs_bind, (get_proc_runs _ _ q); [done|].
  apply runs_bind. eapply runs_mono; [by apply (copyuvm_quiet _ _ s1 c cur), Hfk1|].
  intros pg s2 ((Hp2 & Hn2 & _) & Ht2 & He2 & Hk2). apply runs_bind, set_proc_runs.
  set (s3 := s2 <| ptable ::= upd np (fun p => p <| pgdir := pg |>) |>).
  assert (ptable s3 = upd np (fun p => (new_proc (nextpid s) (ticks s) ks p) <| pgdir := pg |>) (ptable s)) as Hp3.
  { unfold s3. rewrite ptable_upd, Hp2, Hp1, upd_upd. reflexivity. }
  assert (thread s3 c cur) as Ht3 by (eapply thread_machine; [|exact Ht2]; reflexivity).
  assert (env_ok s3) as He3 by (eapply env_ok_machine; [| |exact He2]; reflexivity).
  assert (nextpid s3 = nextpid s1) as Hn3 by exact Hn2.
  assert (keeps (res s1) (res s3)) as Hk3 by exact Hk2. clearbody s3.
  assert (procs (ptable s3) !! np = Some (p1 <| pgdir := pg |>)) as Hnp3
    by (rewrite Hp3; exact (lookup_upd_eq _ _ _ _ Hp0)).
  assert (table_ok (ptable s3, nextpid s1)) as Htab3.
  { replace (ptable s3) with (upd np (fun p => p <| pgdir := pg |>) (ptable s1))
      by (rewrite Hp3, Hp1, upd_upd; reflexivity).
    eapply tstep_ok; [done|].
    eapply t_private; [rewrite Hp1; by apply lookup_upd_eq|by left|..]; cbn; reflexivity. }
  destruct (Z.eqb_spec pg 0) as [->|Hpg].
  - apply runs_bind, (get_proc_runs _ _ (p1 <| pgdir := 0 |>)); [done|].
    apply runs_bind. eapply runs_mono; [apply (kfree_quiet _ s3 c cur); [done|done|by apply (proj1 Hk3)]|].
    intros _ s4 ((Hp4 & Hn4 & _) & Ht4 & He4). apply runs_bind, set_proc_runs, runs_ret.
    set (dead := fun p : proc => p <| kstack := 0 |> <| state := UNUSED |>).
    split_and!; [by eapply thread_machine; [|exact Ht4]|by eapply env_ok_machine; [| |exact He4]| |left].
    + rewrite ptable_upd, Hp4. change (nextpid (_ <| ptable ::= _ |>)) with (nextpid s4). rewrite Hn4, Hn3.
      eapply table_ok_off; [done|done|done|done|by intros [?|[?|?]]|done].
    + split; [done|]. rewrite ptable_upd, Hp4, Hp3, upd_upd. by eapply same_processes_upd.
  - eapply runs_mono; [eapply (fork_child_runs s3 c cur np q (p1 <| pgdir := pg |>) (nextpid s1)); try done|];
      [by eapply keeps_forkable| |].
    { by rewrite Hp3, lookup_upd_ne. }
    intros r s4 (Ht4 & He4 & Hn4 & -> & Htab4 & nm & l & Hnm & Hp4 & Hl & Hl').
    split_and!; [done|done|by rewrite Hn4|right]. split; [done|]. exists np. split.
    + done.
    + eexists. split; [rewrite Hp4, list_lookup_alter_eq, Hnp3; reflexivity|].
      cbn. split_and!; done.
    + intros j Hj. rewrite Hp4, list_lookup_alter_ne by done. by rewrite Hp3, lookup_upd_ne.
    + exists l. split; [|done]. rewrite <- Hl, Hp3. done.
Qed.


(** ** [exit] *)

Lemma thread_lock s c p :
  thread s c p → env_ok s →
  ∃ s1, lock ptable_lock s = Ret tt s1 ∧ thread_locked s1 c p ∧ env_ok s1 ∧
    ptable s1 = ptable s ∧ initproc s1 = initproc s ∧ nextpid s1 = nextpid s ∧ res s1 = res s.
Proof.
  intros (u & Hok & Hn & Hp & Hl) He.
  assert (no_lock (machine s) c u ptable_lock) as Hnl by (by apply no_lock_intro).
  exists (s <| machine ::= acquired c ptable_lock |>). split_and!; try done.
  - by eapply lock_ret'.
  - exists (push_cpu (eflags (machine s)) u). rewrite push_cpu_proc.
    split; [by apply acquired_holds_only|done].
  - eapply env_ok_ext; [| |exact He]; [done|]. intros lk Hlk.
    symmetry. by apply locks_acquired_ne.
Qed.

Lemma thread_unlock s c p :
  thread_locked s c p → env_ok s →
  ∃ s1, unlock ptable_lock s = Ret tt s1 ∧ thread s1 c p ∧ env_ok s1 ∧
    ptable s1 = ptable s ∧ nextpid s1 = nextpid s.
Proof.
  intros (u & Hh & Hp) He. pose proof (released_no_lock _ _ _ _ Hh) as [Hok Hn Hl].
  exists (s <| machine ::= released c u ptable_lock |>). split_and!; try done.
  - by eapply unlock_ret'.
  - exists (u <| ncli := 0 |>). done.
  - eapply env_ok_ext; [| |exact He]; [done|]. intros lk Hlk. simpl. unfold released.
    rewrite locks_popped. simpl. by rewrite lookup_alter_ne.
Qed.

(** [sched] called by a thread that holds [ptable.lock]. *)
Lemma sched_locked s c p q :
  thread_locked s c p → procs (ptable s) !! p = Some q → state q ≠ RUNNING →
  ∃ ena, sched s = Wait SwtchSched s (resume_sched ena).
Proof. intros (u & Hh & Hp) Hq Hst. exists (intena u). by eapply sched_wait. Qed.

(** The scan of [wait]. *)
Lemma wait_scan_Some ps o cur hk i :
  (wait_scan ps o cur hk).1 = Some i →
  (wait_scan ps o cur hk).2 = true ∧ (o ≤ i)%nat ∧
  ∃ p, ps !! (i - o)%nat = Some p ∧ parent p = Some cur ∧ state p = ZOMBIE.
Proof.
  revert o hk. induction ps as [|p ps IH]; intros o hk; simpl; [done|].
  assert (∀ hk', (wait_scan ps (S o) cur hk').1 = Some i →
    (wait_scan ps (S o) cur hk').2 = true ∧ (o ≤ i)%nat ∧
    ∃ q, (p :: ps) !! (i - o)%nat = Some q ∧ parent q = Some cur ∧ state q = ZOMBIE) as Hrec.
  { intros hk' (H1 & H2 & q & Hq & ?)%IH. split_and!; [done|lia|]. exists q.
    by replace (i - o)%nat with (S (i - S o)) by lia. }
  case_bool_decide as Hc; simpl; [|apply Hrec].
  destruct (is_state ZOMBIE p) eqn:E; [|apply Hrec].
  intros [= ->]. rewrite Nat.sub_diag. apply is_state_true in E. eauto 6.
Qed.

Lemma wait_scan_None ps o cur hk :
  (wait_scan ps o cur hk).1 = None →
  (∀ j p, ps !! j = Some p → parent p = Some cur → state p ≠ ZOMBIE) ∧
  ((wait_scan ps o cur hk).2 = false → hk = false ∧ ∀ j p, ps !! j = Some p → parent p ≠ Some cur).
Proof.
  revert o hk. induction ps as [|p ps IH]; intros o hk; simpl; [done|].
  case_bool_decide as Hc; simpl.
  - destruct (is_state ZOMBIE p) eqn:E; [done|]. apply is_state_false in E. intros [H1 H2]%IH.
    split; [intros [|j] q Hq Hp; simpl in Hq; simplify_eq; eauto|]. intros [? _]%H2. done.
  - intros [H1 H2]%IH. split; [intros [|j] q Hq Hp; simpl in Hq; simplify_eq; eauto|].
    intros [-> H3]%H2. split; [done|]. intros [|j] q Hq; simpl in Hq; simplify_eq; eauto.
Qed.

Lemma wait_scan_finds ps o cur hk j p :
  ps !! j = Some p → parent p = Some cur → state p = ZOMBIE →
  ∃ i, (wait_scan ps o cur hk).1 = Some i.
Proof.
  intros Hp Hc Hz. destruct ((wait_scan ps o cur hk).1) as [i|] eqn:E; [by eauto|].
  apply wait_scan_None in E as [E _]. by destruct (E j p).
Qed.


(** ** [wait] and [wait2] *)

(** The slot of a reaped child. *)
Definition reaped (q : proc) : proc :=
  (set_name0 (q <| kstack := 0 |> <| pid := 0 |> <| parent := None |>))
    <| killed := 0 |> <| ctime := 0 |> <| state := UNUSED |>.
Definition reaped2 (q : proc) : proc :=
  (set_name0 (q <| kstack := 0 |> <| state := UNUSED |> <| pid := 0 |> <| parent := None |>))
    <| killed := 0 |> <| ctime := 0 |> <| retime := 0 |> <| rutime := 0 |> <| stime := 0 |>.

(** The stack and the page table of the child are freed, the lock released. *)
Lemma reap_common_runs {A} s c p i q (f : proc → proc) (a : A) :
  thread_locked s c p → env_ok s → env_image (res s) (kstack q) (pgdir q) → procs (ptable s) !! i = Some q →
  runs (kfree (kstack q) ;;; set_proc i (fun p => p <| kstack := 0 |>) ;;; freevm (pgdir q) ;;;
        set_proc i f ;;; unlock ptable_lock ;;; ret a) s
    (fun r s' => r = a ∧ thread s' c p ∧ env_ok s' ∧ nextpid s' = nextpid s ∧
       ptable s' = upd i (f ∘ (fun p => p <| kstack := 0 |>)) (ptable s)).
Proof.
  intros Ht He Him Hq. apply runs_bind. eapply runs_mono; [by apply (kfree_locked _ (pgdir q) s c p)|].
  intros _ s1 ((Hp1 & Hn1 & _) & Ht1 & He1 & Hpg1). apply runs_bind, set_proc_runs.
  apply runs_bind. eapply runs_mono.
  { apply (freevm_locked _ _ c p); [exact Ht1|by eapply env_ok_machine; [| |exact He1]|exact Hpg1]. }
  intros _ s2 ((Hp2 & Hn2 & _) & Ht2 & He2). apply runs_bind, set_proc_runs.
  set (s3 := s2 <| ptable ::= upd i f |>).
  destruct (thread_unlock s3 c p) as (s4 & Hu & Ht4 & He4 & Hp4 & Hn4);
    [exact Ht2|by eapply env_ok_machine; [| |exact He2]|].
  apply runs_bind. exists tt, s4. split; [done|]. apply runs_ret. split_and!; try done.
  - rewrite Hn4. unfold s3. trans (nextpid s2); [reflexivity|]. by rewrite Hn2.
  - rewrite Hp4. unfold s3. by rewrite ptable_upd, Hp2, ptable_upd, Hp1, upd_upd.
Qed.

Lemma reap_runs s c p i q :
  thread_locked s c p → env_ok s → env_image (res s) (kstack q) (pgdir q) → procs (ptable s) !! i = Some q →
  runs (reap i) s (fun r s' => r = pid q ∧ thread s' c p ∧ env_ok s' ∧ nextpid s' = nextpid s ∧
    ptable s' = upd i reaped (ptable s)).
Proof.
  intros Ht He Him Hq. unfold reap. apply runs_bind, (get_proc_runs _ _ q); [done|].
  eapply runs_mono; [by apply (reap_common_runs s c p i q _ (pid q))|].
  intros r s' (-> & ? & ? & ? & Hp). split_and!; [done..|]. rewrite Hp. reflexivity.
Qed.

Lemma reap2_runs s c p i q :
  thread_locked s c p → env_ok s → env_image (res s) (kstack q) (pgdir q) → procs (ptable s) !! i = Some q →
  runs (reap2 i) s (fun r s' => r = (pid q, Some (retime q, rutime q, stime q)) ∧
    thread s' c p ∧ env_ok s' ∧ nextpid s' = nextpid s ∧ ptable s' = upd i reaped2 (ptable s)).
Proof.
  intros Ht He Him Hq. unfold reap2. apply runs_bind, (get_proc_runs _ _ q); [done|].
  eapply runs_mono; [by apply (reap_common_runs s c p i q _ (pid q, Some (retime q, rutime q, stime q)))|].
  intros r s' (-> & ? & ? & ? & Hp). split_and!; [done..|]. rewrite Hp. reflexivity.
Qed.

(** [sleep(chan, &ptable.lock)]: the lock is kept until the switch. *)
Lemma sleep_ptable_lock s c p q ch :
  thread_locked s c p → procs (ptable s) !! p = Some q →
  ∃ kont, sleep ch ptable_lock s =
    Wait SwtchSched (s <| ptable ::= upd p (go_to_sleep ch) |>) kont.
Proof.
  intros Ht Hq. pose proof Ht as (u & Hh & Hp). set (s' := s <| ptable ::= upd p (go_to_sleep ch) |>).
  destruct (sched_locked s' c p (go_to_sleep ch q)) as [ena Hs]; [exact Ht|by apply lookup_upd_eq|done|].
  unfold sleep. eexists. rewrite (bind_ret _ _ _ _ _ (myproc_locked _ _ _ (ho_ok _ _ _ _ Hh)
    ltac:(rewrite (ho_ncli _ _ _ _ Hh); lia))), Hp.
  cbn [ptable_lock Z.eqb Pos.eqb negb]. do 4 erewrite bind_ret by reflexivity.
  apply bind_wait. etrans; [|exact Hs]. f_equal. unfold s'. destruct s. simpl. f_equal.
  unfold upd. simpl. by rewrite !list_alter_alter_eq.
Qed.

(** The children of [cur] in a table. *)
Definition child_of (t : ptbl) (cur i : nat) (p : proc) : Prop :=
  procs t !! i = Some p ∧ parent p = Some cur.

(** The memory of dead children. *)
Definition zombies_held s (cur : nat) : Prop :=
  ∀ i p, child_of (ptable s) cur i p → state p = ZOMBIE → env_image (res s) (kstack p) (pgdir p).

Lemma wait_locked s c cur q n :
  (0 < fuel)%nat →
  thread_locked s c cur → env_ok s → zombies_held s cur → table_ok (ptable s, n) → procs (ptable s) !! cur = Some q →
  (∃ i p, child_of (ptable s) cur i p ∧ state p = ZOMBIE ∧
     runs (wait_loop fuel cur) s (fun r s' => r = pid p ∧ thread s' c cur ∧ env_ok s' ∧
       ptable s' = upd i reaped (ptable s))) ∨
  ((∀ i p, child_of (ptable s) cur i p → state p ≠ ZOMBIE) ∧
   (((∀ i p, ¬ child_of (ptable s) cur i p) ∨ killed q ≠ 0) ∧
      runs (wait_loop fuel cur) s (fun r s' => r = -1 ∧ thread s' c cur ∧ env_ok s' ∧ ptable s' = ptable s) ∨
    killed q = 0 ∧ ∃ kont, wait_loop fuel cur s =
      Wait SwtchSched (s <| ptable ::= upd cur (go_to_sleep (proc_chan cur)) |>) kont)).
Proof.
  intros Hfuel Ht He Hzh Htab Hq. destruct fuel as [|k] eqn:Hk; [lia|]. cbn [wait_loop].
  destruct (wait_scan (procs (ptable s)) 0 cur false) as [o hk] eqn:Hscan.
  destruct o as [i|].
  - left. destruct (wait_scan_Some (procs (ptable s)) 0 cur false i) as (_ & _ & p & Hp & Hpc & Hz); [by rewrite Hscan|].
    rewrite Nat.sub_0_r in Hp. exists i, p. split_and!; try done.
    apply runs_bind, runs_gets. rewrite Hscan. simpl.
    eapply runs_mono; [apply (reap_runs s c cur i p); [done|done|by eapply Hzh|done]|]. intros r s' (?&?&?&_&?). done.
  - right. destruct (wait_scan_None (procs (ptable s)) 0 cur false) as [H1 H2]; [by rewrite Hscan|].
    rewrite Hscan in H2. simpl in H2. split; [intros i p [? ?]; eauto|].
    destruct (negb hk || negb (killed q =? 0)) eqn:E.
    + left. split.
      { apply orb_true_iff in E as [E|E]; breflect; [left|by right].
        intros i p [Hp Hpc]. apply H2 in E as [_ E]. by apply (E i p). }
      apply runs_bind, runs_gets. rewrite Hscan. simpl.
      apply runs_bind, (get_proc_runs _ _ q); [done|]. rewrite E.
      destruct (thread_unlock s c cur Ht He) as (s1 & Hu & Ht1 & He1 & Hp1 & _).
      apply runs_bind. exists tt, s1. split; [done|]. by apply runs_ret.
    + right. apply orb_false_iff in E as [E1 E2]. breflect. split; [done|].
      destruct (sleep_ptable_lock s c cur q (proc_chan cur) Ht Hq) as [kont Hsl].
      eexists. erewrite bind_ret by reflexivity. rewrite Hscan. cbn [fst snd].
      rewrite (bind_ret _ _ _ _ _ (get_proc_ret _ _ _ Hq)), E1, E2. cbn [negb orb Z.eqb].
      by apply bind_wait.
Qed.


(** [wait2] reports the statistics of the child it reaps: its pid and the
    ticks it spent ready, running and sleeping; and -1 with nothing stored and
    nothing changed when the caller has no children. *)
Theorem wait2_correct s c cur q n :
  (0 < fuel)%nat →
  thread s c cur → env_ok s → zombies_held s cur → table_ok (ptable s, n) → procs (ptable s) !! cur = Some q →
  ((∃ i p, child_of (ptable s) cur i p ∧ state p = ZOMBIE) →
   ∃ i p, child_of (ptable s) cur i p ∧ state p = ZOMBIE ∧
     runs wait2 s (fun r s' => r = (pid p, Some (retime p, rutime p, stime p)) ∧
       thread s' c cur ∧ env_ok s' ∧ ptable s' = upd i reaped2 (ptable s) ∧ table_ok (ptable s', n))) ∧
  ((∀ i p, ¬ child_of (ptable s) cur i p) →
   runs wait2 s (fun r s' => r = (-1, None) ∧ thread s' c cur ∧ env_ok s' ∧ ptable s' = ptable s)).
Proof.
  intros Hfuel Ht He Hzh Htab Hq.
  destruct (thread_lock s c cur Ht He) as (s1 & Hl & Ht1 & He1 & Hp1 & _ & Hn1 & Hr1).
  pose proof Ht1 as (u & Hh & Hu).
  assert (∀ Q, runs (wait2_loop fuel) s1 Q → runs wait2 s Q) as Hw.
  { intros Q HQ. unfold wait2. apply runs_bind. by exists tt, s1. }
  assert (curproc s1 = Ret cur s1) as Hc
    by (eapply (curproc_locked _ c u); [apply Hh|rewrite (ho_ncli _ _ _ _ Hh); lia|done]).
  destruct fuel as [|k]; [lia|]. cbn [wait2_loop] in Hw.
  split.
  - intros (i0 & p0 & [Hp0 Hc0] & Hz0).
    destruct (wait_scan_finds (procs (ptable s)) 0 cur false i0 p0 Hp0 Hc0 Hz0) as [i Hi].
    destruct (wait_scan_Some _ _ _ _ _ Hi) as (_ & _ & p & Hp & Hpc & Hz). rewrite Nat.sub_0_r in Hp.
    exists i, p. split_and!; [done|done|]. apply Hw, runs_bind. exists cur, s1. split; [done|].
    apply runs_bind, runs_gets. rewrite Hp1, Hi.
    eapply runs_mono; [apply (reap2_runs s1 c cur i p Ht1 He1); [rewrite Hr1; by eapply Hzh|by rewrite Hp1]|].
    intros r s' (-> & ? & ? & _ & Hp'). rewrite Hp1 in Hp'. split_and!; try done.
    rewrite Hp'. eapply table_ok_off; [done|exact Hp|congruence|done|by intros [?|[?|?]]|done].
  - intros Hno. apply Hw, runs_bind. exists cur, s1. split; [done|]. apply runs_bind, runs_gets. rewrite Hp1.
    destruct (wait_scan (procs (ptable s)) 0 cur false) as [o hk] eqn:Hscan. destruct o as [i|].
    { destruct (wait_scan_Some (procs (ptable s)) 0 cur false i) as (_ & _ & p & Hp & Hpc & _); [by rewrite Hscan|].
      by destruct (Hno _ _ (conj Hp Hpc)). }
    simpl fst. cbv iota. apply runs_bind, (get_proc_runs _ _ q); [by rewrite Hp1|].
    assert (hk = false) as ->.
    { clear -Hscan Hno. destruct hk; [|done]. exfalso. revert Hscan Hno. unfold child_of.
      generalize (procs (ptable s)) as ps. generalize 0%nat as o. intros o ps. revert o.
      induction ps as [|p ps IH]; intros o; simpl; [done|]. intros H Hno.
      rewrite bool_decide_eq_false_2 in H by (intros Hpc; by apply (Hno 0%nat p)). simpl in H.
      apply (IH _ H). intros i p' [? ?]. by apply (Hno (S i) p'). }
    destruct (thread_unlock s1 c cur Ht1 He1) as (s2 & Hu2 & Ht2 & He2 & Hp2 & _).
    apply runs_bind. exists tt, s2. split; [done|]. apply runs_ret. split_and!; try done. congruence.
Qed.
End family.
