(* ===== verification/Examples.v ===== *)
(** * Concrete runs

    Process tables reached by an explicit sequence of steps from boot, and a
    small machine and environment, at which the theorems of the process
    manager are applied. *)

From S2P Require Import Prelude Machine Spinlock CString ProcTable Proc Lifecycle Ready Aging.
From S2P Require Import ProcLemmas Scheduler Reach Blocking Family.

(** ** Tables *)

Definition own (parent_ : option nat) (p : proc) : proc :=
  p <| kstack := 0x80400000 |> <| pgdir := 0x80500000 |> <| parent := parent_ |>.
Definition tbl (o : option ptbl) : ptbl := default zero_ptbl o.
(** The scheduler takes the head of queue 1. *)
Definition run_head (i : nat) (t : ptbl) : ptbl := upd i to_running (count_dec 1 (tbl (queue_shift 1 0 t))).

(** The first process is created and runs. *)
Definition t_boot : ptbl := tbl (enqueue_new 0 (upd 0 (own None) (upd 0 (embryo 1 0) zero_ptbl))).
Definition t_init : ptbl := run_head 0 t_boot.
(** It has forked a child. *)
Definition t_fork : ptbl := tbl (enqueue_new 1 (upd 1 (own (Some 0%nat)) (upd 1 (embryo 2 0) t_init))).
(** It waits; the child runs, *)
Definition t_wait : ptbl := run_head 1 (upd 0 (go_to_sleep (proc_chan 0)) t_fork).
(** and exits; the parent runs again. *)
Definition t_zombie : ptbl := run_head 0 (tbl (exit_tbl 1 (Some 0%nat) t_wait)).
(** The first process has lowered its priority to queue 0 and yielded. *)
Definition t_lottery : ptbl := tbl (make_runnable 0 (upd 0 (fun p => p <| priority := 1 - 1 |>) t_init)).

Definition proc_of (t : ptbl) (i : nat) : proc := default zero_proc (procs t !! i).
Definition some {A} (o : option A) : bool := match o with Some _ => true | None => false end.

Lemma proc_of_lookup t i : some (procs t !! i) = true → procs t !! i = Some (proc_of t i).
Proof. unfold proc_of. by destruct (procs t !! i). Qed.
Lemma tbl_Some o : some o = true → o = Some (tbl o).
Proof. by destruct o. Qed.

Lemma reach_new t n i par :
  treach (t, n) → find_proc (is_state UNUSED) (procs t) 0 = Some i → n < 2 ^ 31 - 1 →
  some (procs t !! i) = true → some (enqueue_new i (upd i (own par) (upd i (embryo n 0) t))) = true →
  treach (tbl (enqueue_new i (upd i (own par) (upd i (embryo n 0) t))), s32 (n + 1)).
Proof.
  intros Hr Hf Hn Hs He. apply proc_of_lookup in Hs.
  assert (procs (upd i (embryo n 0) t) !! i = Some (embryo n 0 (proc_of t i))) as H1 by (by apply lookup_upd_eq).
  eapply treach_step; [|apply (t_enqueue i (own par (embryo n 0 (proc_of t i))) (upd i (own par) (upd i (embryo n 0) t)));
    [by apply lookup_upd_eq|reflexivity|by apply tbl_Some]].
  eapply treach_step; [|apply (t_private i _ (own par) _ _ H1); [by left|cbn; reflexivity..]].
  eapply treach_step; [exact Hr|]. by apply t_alloc.
Qed.

Lemma reach_head t n i l :
  treach (t, n) → queue_of t 1 = Some (i :: l) → queue_of t 2 = Some [] → queue_of t 3 = Some [] →
  some (queue_shift 1 0 t) = true → treach (run_head i t, n).
Proof.
  intros Hr H1 H2 H3 Hs. eapply treach_step; [exact Hr|]. eapply t_dispatch; [|by apply tbl_Some].
  split; [exact H1|]. split; [|do 2 right; by repeat split].
  intros k Hk. assert (k = 2 ∨ k = 3)%nat as [-> | ->] by (unfold NUMFILAS in Hk; lia); done.
Qed.

Lemma t_boot_reach : treach (t_boot, 2).
Proof. apply (reach_new zero_ptbl 1 0 None); [apply treach_init|by vm_compute..]. Qed.

Lemma t_init_reach : treach (t_init, 2).
Proof. apply (reach_head _ _ _ []); [apply t_boot_reach|by vm_compute..]. Qed.

Lemma t_fork_reach : treach (t_fork, 3).
Proof. apply (reach_new t_init 2 1 (Some 0%nat)); [apply t_init_reach|by vm_compute..]. Qed.

Lemma t_wait_reach : treach (t_wait, 3).
Proof.
  apply (reach_head _ _ _ []); [|by vm_compute..]. eapply treach_step; [apply t_fork_reach|].
  eapply t_sleep; [by apply proc_of_lookup|by vm_compute].
Qed.

Lemma t_zombie_reach : treach (t_zombie, 3).
Proof.
  apply (reach_head _ _ _ []); [|by vm_compute..]. eapply treach_step; [apply t_wait_reach|].
  eapply t_exit; [by apply (proc_of_lookup _ 1)|by vm_compute|by apply tbl_Some; vm_compute].
Qed.

Lemma t_lottery_reach : treach (t_lottery, 2).
Proof.
  assert (procs t_init !! 0%nat = Some (proc_of t_init 0)) as H by (by apply proc_of_lookup).
  eapply treach_step; [|apply (t_yield 0 ((proc_of t_init 0) <| priority := 1 - 1 |>));
    [by apply lookup_upd_eq|by vm_compute|by apply tbl_Some; vm_compute]].
  eapply treach_step; [apply t_init_reach|]. apply (t_prio 0 _ 1 _ _ H); [by vm_compute|lia].
Qed.

(** ** Machine states *)

(** A CPU that runs process 0 with interrupts enabled, and free locks. *)
Definition run_cpu0 : cpu := demo_cpu <| cpu_proc := Some 0%nat |> <| intena := 0x200 |>.
Definition free_locks : gmap Z spinlock :=
  {[ ptable_lock := mk_spinlock 0 "ptable" None; tickslock := mk_spinlock 0 "time" None ]}.
Definition run_mach : mach := mk_mach 0x202 0 1 [run_cpu0] free_locks.
(** It has taken [tickslock]. *)
Definition busy_cpu0 : cpu := run_cpu0 <| ncli := 1 |>.
Definition busy_mach : mach :=
  mk_mach 0x2 0 1 [busy_cpu0] (<[tickslock := mk_spinlock 1 "time" (Some 0%nat)]> free_locks).

Lemma run_mach_ok : mach_ok run_mach 0 run_cpu0.
Proof. split; [done|done|done|]. intros H. by vm_compute in H. Qed.
Lemma run_mach_free lk : lk = ptable_lock ∨ lk = tickslock → lock_free run_mach lk.
Proof. intros [-> | ->]; eexists; (split; [reflexivity|done]). Qed.
Lemma run_mach_no_lock : no_lock run_mach 0 run_cpu0 ptable_lock.
Proof. split; [apply run_mach_ok|done|apply run_mach_free; by left]. Qed.
Lemma busy_mach_holds : holds_only busy_mach 0 busy_cpu0 tickslock.
Proof. split; [by split|done|]. eexists. by split; [reflexivity|]. Qed.
Lemma busy_mach_free : lock_free busy_mach ptable_lock.
Proof. eexists. by split; [reflexivity|]. Qed.

(** The rest of the kernel: one page is always there, nothing is ever used up. *)
#[export] Instance demo_env : ProcEnv unit := {|
  forkret_addr := 0x80104000; trapret_addr := 0x80105000; ts_addr i := 0x80110000 + 176 * Z.of_nat i;
  kalloc := ret 0x80600000; kfree _ := ret tt; setupkvm := ret 0x80500000; inituvm _ := ret tt;
  allocuvm _ _ n := ret n; deallocuvm _ _ n := ret n; copyuvm _ _ := ret 0x80700000; freevm _ := ret tt;
  filedup f := ret f; fileclose _ := ret tt; idup i := ret i; iput _ := ret tt; namei_root := ret 1;
  begin_op := ret tt; end_op := ret tt; iinit := ret tt; initlog := ret tt |}.
#[export] Instance demo_res : EnvRes unit := {|
  env_page _ a := a = 0x80600000; env_space _ _ _ := True; env_file _ f := f ≠ 0; env_inode _ _ := True;
  env_image _ _ _ := True; env_pgdir _ _ := True |}.

Lemma runs_ret_demo {A} (a : A) (s : pstate unit) Q : Q a s → runs (ret a) s Q.
Proof. apply runs_ret. Qed.

#[export] Instance demo_quiet : QuietEnv unit.
Proof.
  refine {| env_ok _ := True |}; [done|..]; intros; apply runs_ret_demo;
    repeat (first [split|done|apply keeps_refl]).
Defined.
#[export] Instance demo_fuel : Fuel := 8%nat.

Definition demo_state (m : mach) (t : ptbl) (n : Z) : pstate unit :=
  mk_pstate m t n (Some 0%nat) 0 3251 false 0x803ff000 tt.

Lemma thread_demo t n : thread (demo_state run_mach t n) 0 0.
Proof.
  exists run_cpu0. split; [apply run_mach_ok|]. split; [done|]. split; [done|].
  apply run_mach_free. by left.
Qed.

(** ** The theorems at these states *)



Lemma loadable_table (t : ptbl) :
  forallb (fun p => negb (is_state RUNNABLE p) || (negb (kstack p =? 0) && negb (pgdir p =? 0))) (procs t) = true →
  loadable t.
Proof.
  intros H i p Hp Hs. rewrite forallb_forall in H.
  specialize (H p (proj1 (list_elem_of_In _ _) (list_elem_of_lookup_2 _ _ _ Hp))).
  rewrite (proj2 (is_state_true RUNNABLE p) Hs) in H. cbn [negb orb] in H. breflect. done.
Qed.


Lemma scheduler_idle_witness :
  ∃ s', scheduler_iter 0 (demo_state run_mach t_init 2) = Ret tt s' ∧ ptable s' = t_init.
Proof.
  destruct (scheduler_idle 0 (demo_state run_mach t_init 2) run_cpu0) as (s' & u' & H1 & H2 & _).
  - apply run_mach_no_lock.
  - intros k Hk. unfold NUMFILAS in Hk. assert (k = 0 ∨ k = 1 ∨ k = 2 ∨ k = 3)%nat as Hc by lia.
    destruct Hc as [->|[->|[->| ->]]]; by vm_compute.
  - eauto.
Defined.

Lemma lottery_corrupts_queues_witness :
  ∃ i s' kont, scheduler_iter 0 (demo_state run_mach t_lottery 2) = Wait (SwtchTo i) s' kont ∧
    count_queue (ptable s') !! 2%nat = Some (-1).
Proof.
  destruct (lottery_corrupts_queues 0 (demo_state run_mach t_lottery 2) run_cpu0 [0%nat])
    as (i & pos & golden & s' & kont & _ & _ & Hw & Hc & _).
  - apply run_mach_no_lock.
  - apply (treach_ok (t_lottery, 2)), t_lottery_reach.
  - apply loadable_table. by vm_compute.
  - by vm_compute.
  - done.
  - intros k Hk. unfold NUMFILAS in Hk. assert (k = 1 ∨ k = 2 ∨ k = 3)%nat as Hc by lia.
    destruct Hc as [->|[->| ->]]; by vm_compute.
  - intros j Hj. apply list_elem_of_singleton in Hj as ->. vm_compute. congruence.
  - by vm_compute.
  - simpl. lia.
  - eauto.
Defined.

Lemma random_degenerates_witness : Nat.iter 101 Random 3251 ∈ [4100; 8100; 6100; 2100].
Proof. apply (random_degenerates 101). lia. Defined.

Lemma yield_correct_witness :
  ∃ s' kont, yield (demo_state run_mach t_init 2) = Wait SwtchSched s' kont ∧
    queue_of (ptable s') 1 = Some [0%nat].
Proof.
  destruct (yield_correct (demo_state run_mach t_init 2) 0 run_cpu0 0 (proc_of t_init 0) 2)
    as (s' & u' & k & l & kont & Hy & _ & _ & _ & Hk & Hl & Hl' & _).
  - apply run_mach_no_lock.
  - done.
  - apply treach_ok, t_init_reach.
  - by apply proc_of_lookup.
  - by vm_compute.
  - assert (priority (proc_of t_init 0) = 1) as Hp by (by vm_compute). rewrite Hp in Hk.
    assert (k = 1%nat) as -> by lia. vm_compute in Hl. injection Hl as <-. eauto.
Defined.


Lemma wakeup_exact_witness :
  ∃ s', wakeup (proc_chan 0) (demo_state run_mach t_wait 3) = Ret tt s' ∧ sched_ok (ptable s').
Proof.
  destruct (wakeup_exact (demo_state run_mach t_wait 3) 0 run_cpu0 (proc_chan 0)) as (s' & H1 & H2 & _).
  - apply run_mach_ok.
  - apply run_mach_free. by left.
  - apply (treach_ok (t_wait, 3)), t_wait_reach.
  - eauto.
Defined.

Lemma kill_correct_witness :
  ∃ r s', kill 2 (demo_state run_mach t_fork 3) = Ret r s' ∧ table_ok (ptable s', 3).
Proof.
  destruct (kill_correct (demo_state run_mach t_fork 3) 0 run_cpu0 2 3) as (r & s' & H1 & H2 & _).
  - apply run_mach_ok.
  - apply run_mach_free. by left.
  - apply treach_ok, t_fork_reach.
  - eauto.
Defined.

Lemma kill_zero_hits_next_process_witness :
  ∃ s', kill 0 (demo_state run_mach t_fork 3) = Ret 0 s' ∧
    killed (embryo 3 0 (proc_of (ptable s') 2)) = 1.
Proof.
  destruct (kill_zero_hits_next_process (demo_state run_mach t_fork 3) 0 run_cpu0 3 2 (proc_of t_fork 2) 0)
    as (s' & H1 & _ & q & Hq & _ & _ & Hk).
  - apply run_mach_ok.
  - apply run_mach_free. by left.
  - apply treach_ok, t_fork_reach.
  - by vm_compute.
  - by vm_compute.
  - by apply proc_of_lookup.
  - exists s'. split; [exact H1|]. unfold upd in Hq. cbn in Hq. rewrite list_lookup_alter_eq in Hq.
    unfold proc_of. destruct (procs (ptable s') !! 2%nat); [|done]. injection Hq as <-. exact Hk.
Defined.

Lemma wf_table (t : ptbl) :
  forallb (fun p => (length (ofile p) =? NOFILE)%nat && (length (pname p) =? 16)%nat) (procs t) = true →
  ∀ i p, procs t !! i = Some p → wf_proc p.
Proof.
  intros H i p Hp. rewrite forallb_forall in H.
  specialize (H p (proj1 (list_elem_of_In _ _) (list_elem_of_lookup_2 _ _ _ Hp))).
  apply andb_true_iff in H as [H1%Nat.eqb_eq H2%Nat.eqb_eq]. done.
Qed.


(** Process 1 runs on the CPU. *)
Definition child_mach : mach := run_mach <| cpus := [run_cpu0 <| cpu_proc := Some 1%nat |>] |>.



Lemma wait2_correct_witness :
  ∃ i p, child_of t_zombie 0 i p ∧ runs wait2 (demo_state run_mach t_zombie 3)
    (fun r s' => r = (pid p, Some (retime p, rutime p, stime p))).
Proof.
  destruct (wait2_correct (demo_state run_mach t_zombie 3) 0 0 (proc_of t_zombie 0) 3) as [H _].
  - unfold fuel, demo_fuel. lia.
  - apply thread_demo.
  - done.
  - by intros.
  - apply treach_ok, t_zombie_reach.
  - by apply proc_of_lookup.
  - destruct H as (i & p & Hc & _ & Hr).
    { exists 1%nat, (proc_of t_zombie 1). split; [split; [by apply proc_of_lookup|]|]; by vm_compute. }
    exists i, p. split; [exact Hc|]. eapply runs_mono; [exact Hr|]. intros r s' (H & _). exact H.
Defined.
