(* ===== verification/Kstate.v ===== *)
(** * The state of the rest of the kernel

    The structures of sleeplock.h, buf.h, fs.h, file.h, log.c, pipe.c, kalloc.c
    and console.c, and [kres], the part of the kernel state that proc.c does
    not own.  The kernel runs on [kstate], that is [pstate kres]. *)

From S2P Require Import Prelude Machine Spinlock CString ProcTable Proc Lifecycle.

(** ** param.h, fs.h, stat.h *)

Definition NFILE : nat := 100.
Definition NINODE : nat := 50.
Definition NDEV : Z := 10.
Definition ROOTDEV : Z := 1.
Definition MAXARG : nat := 32.
Definition MAXOPBLOCKS : Z := 10.
Definition LOGSIZE : Z := MAXOPBLOCKS * 3.
Definition NBUF : nat := 30.
Definition FSSIZE : Z := 1000.
Definition ROOTINO : Z := 1.
Definition BSIZE : Z := 512.
Definition NDIRECT : Z := 12.
Definition NINDIRECT : Z := BSIZE / 4.
Definition MAXFILE : Z := NDIRECT + NINDIRECT.
Definition T_DIR : Z := 1.
Definition T_FILE : Z := 2.
Definition T_DEV : Z := 3.
Definition CONSOLE : Z := 1.
Definition DIRSIZ : nat := 14.
Definition B_VALID : Z := 0x2.
Definition B_DIRTY : Z := 0x4.

(** sleeplock.h, without the spin lock, which is in the machine's table *)
Record sleeplock := mk_sleeplock { sl_locked : Z; sl_name : string; sl_pid : Z }.
#[export] Instance sleeplock_eta : Eta sleeplock := fun l =>
  mk_sleeplock (sl_locked l) (sl_name l) (sl_pid l).

(** buf.h: [prev] and [next] are indices of [bcache.buf], the last one is
    [bcache.head]; the sleep lock of buffer [i] is at address [buf_lock i]. *)
Record buf := mk_buf {
  bflags : Z; bdev : Z; blockno : Z; refcnt : Z;
  bprev : nat; bnext : nat; qnext : option nat; bdata : list Z }.
#[export] Instance buf_eta : Eta buf := fun b =>
  mk_buf (bflags b) (bdev b) (blockno b) (refcnt b) (bprev b) (bnext b) (qnext b) (bdata b).

(** fs.h *)
Record superblock := mk_superblock {
  sb_size : Z; sb_nblocks : Z; sb_ninodes : Z; sb_nlog : Z;
  sb_logstart : Z; sb_inodestart : Z; sb_bmapstart : Z }.

(** log.c: the fields of [struct logheader] are [lh_n] and [lh_block] *)
Record logstate := mk_logstate {
  log_start : Z; log_size : Z; outstanding : Z; committing : Z; log_dev : Z;
  lh_n : Z; lh_block : list Z }.
#[export] Instance logstate_eta : Eta logstate := fun l =>
  mk_logstate (log_start l) (log_size l) (outstanding l) (committing l) (log_dev l) (lh_n l) (lh_block l).

(** file.h: inode [i] of the cache has its sleep lock at [inode_lock i] *)
Record inode := mk_inode {
  i_dev : Z; i_inum : Z; i_ref : Z; i_valid : Z;
  i_type : Z; i_major : Z; i_minor : Z; i_nlink : Z; i_size : Z; i_addrs : list Z }.
#[export] Instance inode_eta : Eta inode := fun i =>
  mk_inode (i_dev i) (i_inum i) (i_ref i) (i_valid i) (i_type i) (i_major i) (i_minor i)
    (i_nlink i) (i_size i) (i_addrs i).

Inductive filetype := FD_NONE | FD_PIPE | FD_INODE.
#[export] Instance filetype_eq_dec : EqDecision filetype.
Proof. solve_decision. Defined.

Record file := mk_file {
  f_type : filetype; f_ref : Z; f_readable : Z; f_writable : Z; f_pipe : Z; f_ip : Z; f_off : Z }.
#[export] Instance file_eta : Eta file := fun f =>
  mk_file (f_type f) (f_ref f) (f_readable f) (f_writable f) (f_pipe f) (f_ip f) (f_off f).

(** Entries of [devsw]: no functions, or those of the console. *)
Inductive devfun := DevNone | DevConsole.

(** pipe.c *)
Definition PIPESIZE : Z := 512.
Record pipe := mk_pipe {
  p_data : list Z; p_nread : Z; p_nwrite : Z; p_readopen : Z; p_writeopen : Z }.
#[export] Instance pipe_eta : Eta pipe := fun p =>
  mk_pipe (p_data p) (p_nread p) (p_nwrite p) (p_readopen p) (p_writeopen p).

(** console.c: the input ring [input.buf] with its three cursors, [cons.locking],
    [panicked] and the CGA memory [crt]. *)
Definition INPUT_BUF : Z := 128.
Record console := mk_console {
  in_buf : list Z; in_r : Z; in_w : Z; in_e : Z;
  cons_locking : Z; panicked : Z; crt : list Z }.
#[export] Instance console_eta : Eta console := fun c =>
  mk_console (in_buf c) (in_r c) (in_w c) (in_e c) (cons_locking c) (panicked c) (crt c).

(** ide.c *)
Record idestate := mk_idestate { idequeue : option nat; havedisk1 : Z }.
#[export] Instance idestate_eta : Eta idestate := fun i => mk_idestate (idequeue i) (havedisk1 i).

(** ** Devices

    Every access to an I/O port or to a memory-mapped register of the local
    APIC and the I/O APIC, latest first.  What a device answers to a read is a
    function of the accesses before it: the hardware is the parameter [Hw]. *)
Inductive io := Out (port v : Z) | In (port v : Z) | MOut (reg v : Z) | MIn (reg v : Z).
(** [hw_cr2] is the fault address register. *)
Class Hw := { hw_in : list io → Z → Z; hw_min : list io → Z → Z; hw_cr2 : list io → Z }.

(** mmu.h: gate descriptors *)
Record gatedesc := mk_gatedesc {
  off_15_0 : Z; g_cs : Z; g_args : Z; g_rsv1 : Z; g_type : Z; g_s : Z; g_dpl : Z; g_p : Z; off_31_16 : Z }.

(** [lapic_set]: mp.c found the local APIC; [ioapicid]: the number it gives for
    the I/O APIC; [uart]: there is a serial port; [shift]: of kbd.c; [idt]: of trap.c. *)
Record devstate := mk_devstate { iolog : list io; lapic_set : bool; ioapicid : Z; uart : Z; shift : Z;
  idt : list gatedesc }.
#[export] Instance devstate_eta : Eta devstate := fun d =>
  mk_devstate (iolog d) (lapic_set d) (ioapicid d) (uart d) (shift d) (idt d).

(** ** Everything together

    [memdisk] is the disk as a list of blocks.  [writes] records the blocks
    written to it, oldest first; no code reads it.  [pmem] is the physical
    memory, [use_lock] and [freelist] are the fields of [kmem]. *)
Record kres := mk_kres {
  slocks : gmap Z sleeplock;
  bufs : list buf;
  memdisk : list (list Z);
  writes : list (Z * list Z);
  ide : idestate;
  dev : devstate;
  sb : superblock;
  log : logstate;
  inodes : list inode;
  files : list file;
  devsw : list devfun;
  pipes : gmap Z pipe;
  use_lock : Z; freelist : Z; pmem : mem;
  con : console }.
#[export] Instance kres_eta : Eta kres := fun r =>
  mk_kres (slocks r) (bufs r) (memdisk r) (writes r) (ide r) (dev r) (sb r) (log r) (inodes r) (files r)
    (devsw r) (pipes r) (use_lock r) (freelist r) (pmem r) (con r).

Abbreviation kstate := (pstate kres).
Abbreviation K := (M kstate).

(** ** Addresses of locks and wait channels *)

Definition bcache_lock : Z := 10.
Definition idelock : Z := 11.
Definition log_lock : Z := 12.
Definition log_chan : Z := 13.
Definition icache_lock : Z := 14.
Definition ftable_lock : Z := 15.
Definition kmem_lock : Z := 16.
Definition cons_lock : Z := 17.
Definition input_chan : Z := 18.
Definition buf_chan (i : nat) : Z := 8192 + Z.of_nat i.
Definition buf_lock (i : nat) : Z := 0x10000 + 64 * Z.of_nat i.
Definition inode_lock (i : nat) : Z := 0x20000 + 64 * Z.of_nat i.
(** The spin lock inside the sleep lock at [a]. *)
Definition sl_spin (a : Z) : Z := a + 4.

(** ** Access to the parts *)

Definition rget {A} (f : kres → A) : K A := gets (fun s => f (res s)).
Definition rmod (f : kres → kres) : K unit := modify (fun s => s <| res ::= f |>).
Definition buf_get (i : nat) : K buf := try_get (fun s => bufs (res s) !! i).
Definition buf_set (i : nat) (f : buf → buf) : K unit := rmod (fun r => r <| bufs ::= alter f i |>).
Definition inode_get (i : nat) : K inode := try_get (fun s => inodes (res s) !! i).
Definition inode_set (i : nat) (f : inode → inode) : K unit := rmod (fun r => r <| inodes ::= alter f i |>).
Definition file_get (i : nat) : K file := try_get (fun s => files (res s) !! i).
Definition file_set (i : nat) (f : file → file) : K unit := rmod (fun r => r <| files ::= alter f i |>).
Definition log_set (f : logstate → logstate) : K unit := rmod (fun r => r <| log ::= f |>).

(** Pointers to entries of the file table and of the inode cache as the
    process table holds them: 0 is null. *)
Definition ptr (i : nat) : Z := Z.of_nat i + 1.
Definition unptr (p : Z) : option nat := if p <=? 0 then None else Some (Z.to_nat (p - 1)).

Lemma unptr_ptr i : unptr (ptr i) = Some i.
Proof.
  unfold unptr, ptr. destruct (Z.leb_spec (Z.of_nat i + 1) 0); [lia|]. f_equal. lia.
Qed.

Lemma ptr_nonzero i : ptr i ≠ 0.
Proof. unfold ptr. lia. Qed.
