(* ===== verification/Sleeplock.v ===== *)
(** * Sleep locks (sleeplock.c) *)

From S2P Require Import Prelude Machine Spinlock CString ProcTable Proc Lifecycle Kstate.

Section sleeplocks.
Context {FU : Fuel}.

Definition sl_get (a : Z) : K sleeplock := try_get (fun s => slocks (res s) !! a).
Definition sl_set (a : Z) (f : sleeplock → sleeplock) : K unit := rmod (fun r => r <| slocks ::= alter f a |>).

(** [myproc()->pid] *)
Definition mypid : K Z := p <- curproc ;; q <- get_proc p ;; ret (pid q).
(** [myproc()->killed] *)
Definition mykilled : K bool := p <- curproc ;; q <- get_proc p ;; ret (negb (killed q =? 0)).

Definition initsleeplock (a : Z) (name : string) : K unit :=
  on_mach (initlock (sl_spin a) "sleep lock") ;;;
  rmod (fun r => r <| slocks ::= <[a := mk_sleeplock 0 name 0]> |>).

Definition acquiresleep (a : Z) : K unit :=
  lock (sl_spin a) ;;;
  while fuel (l <- sl_get a ;; ret (negb (sl_locked l =? 0))) (sleep a (sl_spin a)) ;;;
  sl_set a (fun l => l <| sl_locked := 1 |>) ;;;
  p <- mypid ;;
  sl_set a (fun l => l <| sl_pid := p |>) ;;;
  unlock (sl_spin a).

Definition releasesleep (a : Z) : K unit :=
  lock (sl_spin a) ;;;
  sl_set a (fun l => l <| sl_locked := 0 |>) ;;;
  sl_set a (fun l => l <| sl_pid := 0 |>) ;;;
  wakeup a ;;;
  unlock (sl_spin a).

Definition holdingsleep (a : Z) : K bool :=
  lock (sl_spin a) ;;;
  l <- sl_get a ;;
  r <- (if negb (sl_locked l =? 0) then p <- mypid ;; ret (sl_pid l =? p) else ret false) ;;
  unlock (sl_spin a) ;;;
  ret r.
End sleeplocks.
