(* ===== verification/Solo.v ===== *)
(** * One thread at a time

    A kernel thread that runs while no lock is held and no process sleeps: it
    never waits, so that a routine of the storage system started in such a
    state is a function of the storage state.  [solo s] says so of [s]; the
    lemmas give what the locking primitives return there. *)

From S2P Require Import Prelude Machine Spinlock CString ProcTable Proc Lifecycle Ready Aging.
From S2P Require Import ProcLemmas Scheduler Reach Blocking Kstate Sleeplock.

(** The locks the kernel initialises at boot. *)
Definition klock (lk : Z) : Prop :=
  lk = ptable_lock ∨ lk = bcache_lock ∨ lk = idelock ∨ lk = log_lock ∨ lk = icache_lock ∨
  lk = ftable_lock ∨ lk = kmem_lock ∨ lk = cons_lock ∨
  (∃ i, (i < NBUF)%nat ∧ lk = sl_spin (buf_lock i)) ∨
  (∃ i, (i < NINODE)%nat ∧ lk = sl_spin (inode_lock i)).

(** Process [p] (with record [q]) runs on CPU [c]. *)
Record solo (s : kstate) (c p : nat) (u : cpu) (q : proc) : Prop := {
  solo_mach : mach_ok (machine s) c u;
  solo_ncli : ncli u = 0;
  solo_sync : synced c (machine s) = machine s;
  solo_cpu : cpu_proc u = Some p;
  solo_proc : procs (ptable s) !! p = Some q;
  solo_free : ∀ lk l, locks (machine s) !! lk = Some l → is_free l;
  solo_locks : ∀ lk, klock lk → is_Some (locks (machine s) !! lk);
  solo_slots : length (procs (ptable s)) = NPROC;
  solo_awake : ∀ i p, procs (ptable s) !! i = Some p → state p ≠ SLEEPING }.

(** [s] with storage state [r]. *)
Definition with_res (s : kstate) (r : kres) : kstate := s <| res := r |>.

Lemma solo_res s c p u q r : solo s c p u q → solo (with_res s r) c p u q.
Proof. by intros []. Qed.

Lemma solo_lock_free s c p u q lk : solo s c p u q → klock lk → lock_free (machine s) lk.
Proof.
  intros Hs Hk. destruct (solo_locks _ _ _ _ _ Hs lk Hk) as [l Hl]. exists l. split; [done|].
  by eapply solo_free.
Qed.

Lemma klock_ptable : klock ptable_lock.
Proof. by left. Qed.
Lemma klock_buf i : (i < NBUF)%nat → klock (sl_spin (buf_lock i)).
Proof. intros. do 8 right. left. eauto. Qed.
Lemma klock_inode i : (i < NINODE)%nat → klock (sl_spin (inode_lock i)).
Proof. intros. do 9 right. eauto. Qed.
#[export] Hint Resolve klock_ptable klock_buf klock_inode : xv6.

(** Waking nobody. *)
Lemma wakeup1_nobody ch t :
  length (procs t) = NPROC → (∀ i p, procs t !! i = Some p → state p ≠ SLEEPING) →
  wakeup1 ch t = Some t.
Proof.
  intros Hlen Hno. unfold wakeup1, for_procs.
  assert (∀ ids, Forall (fun i => (i < NPROC)%nat) ids → each_proc ids (wakeup1_body ch) t = Some t) as H.
  { induction ids as [|i ids IH]; intros Hb; [done|]. apply Forall_cons in Hb as [Hi Hb]. cbn [each_proc].
    destruct (lookup_lt_is_Some_2 (procs t) i) as [p Hp]; [lia|].
    assert (wakeup1_body ch i t = Some t) as ->; [|by apply IH].
    unfold wakeup1_body. rewrite Hp. cbn [mbind option_bind].
    by rewrite (proj2 (is_state_false _ _) (Hno i p Hp)). }
  apply H, Forall_forall. intros i Hi%elem_of_seq. lia.
Qed.

Section solo.
Context {FU : Fuel}.
Context {s : kstate} {c p : nat} {u : cpu} {q : proc} (Hsolo : solo s c p u q).

(** The state between [acquire(lk)] and [release(lk)]. *)
Definition inside (c : nat) (lk : Z) (s : kstate) : kstate := s <| machine ::= acquired c lk |>.

Lemma lock_free_solo lk r :
  lock_free (machine s) lk → lock lk (with_res s r) = Ret tt (inside c lk (with_res s r)).
Proof.
  intros (l & Hl & H0 & _). by apply (lock_ret lk _ c u l (solo_mach _ _ _ _ _ (solo_res _ _ _ _ _ r Hsolo))).
Qed.

Lemma unlock_free_solo lk r :
  lock_free (machine s) lk → unlock lk (inside c lk (with_res s r)) = Ret tt (with_res s r).
Proof.
  intros (l & Hl & Hf).
  pose proof (solo_mach _ _ _ _ _ Hsolo) as Hok. pose proof (mach_ok_acquired _ _ _ lk Hok) as Hok1.
  rewrite (unlock_ret lk _ c (push_cpu (eflags (machine s)) u) (take_lock c l)); try done.
  - f_equal. unfold inside, with_res. simpl. f_equal.
    rewrite (released_acquired _ _ _ _ _ Hok Hl Hf). apply (solo_sync _ _ _ _ _ Hsolo).
  - rewrite push_cpu_ncli. rewrite (solo_ncli _ _ _ _ _ Hsolo). lia.
  - by apply locks_acquired.
Qed.

Lemma lock_solo lk r :
  klock lk → lock lk (with_res s r) = Ret tt (inside c lk (with_res s r)).
Proof. intros Hk. by apply lock_free_solo, (solo_lock_free _ _ _ _ _ lk Hsolo). Qed.

Lemma unlock_solo lk r :
  klock lk → unlock lk (inside c lk (with_res s r)) = Ret tt (with_res s r).
Proof. intros Hk. by apply unlock_free_solo, (solo_lock_free _ _ _ _ _ lk Hsolo). Qed.

Lemma curproc_solo r : curproc (with_res s r) = Ret p (with_res s r).
Proof.
  unfold curproc. rewrite (bind_ret _ _ _ _ _ (myproc_ret _ _ _ (solo_mach _ _ _ _ _ (solo_res _ _ _ _ _ r Hsolo)))).
  rewrite (solo_cpu _ _ _ _ _ Hsolo). unfold ret. f_equal. unfold with_res. simpl. f_equal. apply (solo_sync _ _ _ _ _ Hsolo).
Qed.

Lemma mypid_solo r : mypid (with_res s r) = Ret (pid q) (with_res s r).
Proof.
  unfold mypid. rewrite (bind_ret _ _ _ _ _ (curproc_solo r)).
  by rewrite (bind_ret _ _ _ _ _ (get_proc_ret p (with_res s r) q (solo_proc _ _ _ _ _ Hsolo))).
Qed.

Lemma mypid_inside lk r :
  mypid (inside c lk (with_res s r)) = Ret (pid q) (inside c lk (with_res s r)).
Proof.
  pose proof (mach_ok_acquired _ _ _ lk (solo_mach _ _ _ _ _ Hsolo)) as Hok. unfold mypid.
  erewrite bind_ret.
  2:{ eapply (curproc_locked (inside c lk (with_res s r)) c _ p Hok).
      - rewrite push_cpu_ncli, (solo_ncli _ _ _ _ _ Hsolo). lia.
      - rewrite push_cpu_proc. apply (solo_cpu _ _ _ _ _ Hsolo). }
  by rewrite (bind_ret _ _ _ _ _ (get_proc_ret p (inside c lk (with_res s r)) q (solo_proc _ _ _ _ _ Hsolo))).
Qed.

Lemma wakeup_inside ch lk r :
  lk ≠ ptable_lock →
  wakeup ch (inside c lk (with_res s r)) = Ret tt (inside c lk (with_res s r)).
Proof.
  intros Hne. pose proof (mach_ok_acquired _ _ _ lk (solo_mach _ _ _ _ _ Hsolo)) as Hok.
  unfold wakeup. erewrite (with_ptable_lock_unit _ _ c _ (ptable s)); [|exact Hok| |].
  - assert (synced c (acquired c lk (machine s)) = acquired c lk (machine s)) as Hsy.
    { apply (synced_id _ _ _ Hok). rewrite push_cpu_ncli, (solo_ncli _ _ _ _ _ Hsolo). lia. }
    f_equal. unfold inside, with_res. destruct s. simpl in *. by rewrite Hsy.
  - apply lock_free_acquired; [done|]. apply (solo_lock_free s c p u q); [done|apply klock_ptable].
  - apply wakeup1_nobody; [apply (solo_slots _ _ _ _ _ Hsolo)|apply (solo_awake _ _ _ _ _ Hsolo)].
Qed.

Lemma wakeup_solo ch r : wakeup ch (with_res s r) = Ret tt (with_res s r).
Proof.
  unfold wakeup. erewrite (with_ptable_lock_unit _ _ c u (ptable s)); [|apply Hsolo| |].
  - f_equal. unfold with_res. simpl. f_equal. apply (solo_sync _ _ _ _ _ Hsolo).
  - apply (solo_lock_free s c p u q); [done|apply klock_ptable].
  - apply wakeup1_nobody; [apply (solo_slots _ _ _ _ _ Hsolo)|apply (solo_awake _ _ _ _ _ Hsolo)].
Qed.

(** ** Sleep locks *)

Definition hold (the_pid : Z) (l : sleeplock) : sleeplock := l <| sl_locked := 1 |> <| sl_pid := the_pid |>.
Definition drop_sl (l : sleeplock) : sleeplock := l <| sl_locked := 0 |> <| sl_pid := 0 |>.

Lemma alter_alter_gmap (f g : sleeplock → sleeplock) a (m : gmap Z sleeplock) :
  alter f a (alter g a m) = alter (f ∘ g) a m.
Proof.
  apply map_eq. intros j. rewrite !lookup_alter. repeat case_decide; simplify_eq; [|done].
  by rewrite <- option_fmap_compose.
Qed.

Lemma acquiresleep_solo a r l :
  klock (sl_spin a) → slocks r !! a = Some l → sl_locked l = 0 →
  acquiresleep a (with_res s r) = Ret tt (with_res s (r <| slocks ::= alter (hold (pid q)) a |>)).
Proof.
  intros Hk Hl H0. unfold acquiresleep. rewrite (bind_ret _ _ _ _ _ (lock_solo _ r Hk)).
  rewrite (bind_ret _ _ _ tt (inside c (sl_spin a) (with_res s r))).
  2:{ assert (bind (sl_get a) (fun l => ret (negb (sl_locked l =? 0))) (inside c (sl_spin a) (with_res s r))
              = Ret false (inside c (sl_spin a) (with_res s r))) as Hc.
      { unfold sl_get, bind, try_get. simpl. rewrite Hl. simpl. by rewrite H0. }
      by destruct fuel; simpl; rewrite (bind_ret _ _ _ _ _ Hc). }
  set (r1 := r <| slocks ::= alter (fun l => l <| sl_locked := 1 |>) a |>).
  rewrite (bind_ret _ _ _ tt (inside c (sl_spin a) (with_res s r1))) by done.
  rewrite (bind_ret _ _ _ _ _ (mypid_inside _ r1)).
  set (r2 := r1 <| slocks ::= alter (fun l => l <| sl_pid := pid q |>) a |>).
  rewrite (bind_ret _ _ _ tt (inside c (sl_spin a) (with_res s r2))) by done.
  rewrite (unlock_solo _ r2 Hk). unfold r2, r1, with_res. simpl. by rewrite alter_alter_gmap.
Qed.

Lemma releasesleep_solo a r :
  klock (sl_spin a) → sl_spin a ≠ ptable_lock →
  releasesleep a (with_res s r) = Ret tt (with_res s (r <| slocks ::= alter drop_sl a |>)).
Proof.
  intros Hk Hne. unfold releasesleep. rewrite (bind_ret _ _ _ _ _ (lock_solo _ r Hk)).
  set (r1 := r <| slocks ::= alter (fun l => l <| sl_locked := 0 |>) a |>).
  rewrite (bind_ret _ _ _ tt (inside c (sl_spin a) (with_res s r1))) by done.
  set (r2 := r1 <| slocks ::= alter (fun l => l <| sl_pid := 0 |>) a |>).
  rewrite (bind_ret _ _ _ tt (inside c (sl_spin a) (with_res s r2))) by done.
  rewrite (bind_ret _ _ _ _ _ (wakeup_inside _ _ r2 Hne)).
  rewrite (unlock_solo _ r2 Hk). unfold r2, r1, with_res. simpl. by rewrite alter_alter_gmap.
Qed.

Lemma holdingsleep_solo a r l :
  klock (sl_spin a) → slocks r !! a = Some l →
  holdingsleep a (with_res s r) =
  Ret (negb (sl_locked l =? 0) && (sl_pid l =? pid q)) (with_res s r).
Proof.
  intros Hk Hl. unfold holdingsleep. rewrite (bind_ret _ _ _ _ _ (lock_solo _ r Hk)).
  rewrite (bind_ret _ _ _ l (inside c (sl_spin a) (with_res s r)))
    by (unfold sl_get, try_get; simpl; by rewrite Hl).
  rewrite (bind_ret _ _ _ (negb (sl_locked l =? 0) && (sl_pid l =? pid q)) (inside c (sl_spin a) (with_res s r))).
  2:{ destruct (sl_locked l =? 0); [done|]. cbn [negb andb].
      by rewrite (bind_ret _ _ _ _ _ (mypid_inside _ r)). }
  by rewrite (bind_ret _ _ _ _ _ (unlock_solo _ r Hk)).
Qed.

(** A critical section that only changes the storage state. *)
Lemma crit_solo {A} lk (body : K A) r a r' :
  klock lk →
  body (inside c lk (with_res s r)) = Ret a (inside c lk (with_res s r')) →
  bind (lock lk) (fun _ => bind body (fun a => bind (unlock lk) (fun _ => ret a))) (with_res s r)
  = Ret a (with_res s r').
Proof.
  intros Hk Hb. rewrite (bind_ret _ _ _ _ _ (lock_solo _ r Hk)), (bind_ret _ _ _ _ _ Hb).
  by rewrite (bind_ret _ _ _ _ _ (unlock_solo _ r' Hk)).
Qed.
End solo.
