(* ===== verification/Devices.v ===== *)
(** * Interrupt controllers, serial port and clock (ioapic.c, picirq.c,
      lapic.c, uart.c)

    Port and register accesses are recorded in [iolog]; what the devices answer
    comes from the parameter [Hw]. *)

From S2P Require Import Prelude Machine Spinlock CString ProcTable Proc Lifecycle Kstate.

(** ** traps.h *)

Definition T_SYSCALL : Z := 64.
Definition T_IRQ0 : Z := 32.
Definition IRQ_TIMER : Z := 0.
Definition IRQ_KBD : Z := 1.
Definition IRQ_COM1 : Z := 4.
Definition IRQ_IDE : Z := 14.
Definition IRQ_ERROR : Z := 19.
Definition IRQ_SPURIOUS : Z := 31.
Definition T_PGFLT : Z := 14.

Section devices.
Context {FU : Fuel} {HW : Hw}.

Definition io_add (e : io) : K unit := rmod (fun r => r <| dev ::= fun d => d <| iolog ::= cons e |> |>).

(** ** x86.h *)
Definition outb (port v : Z) : K unit := io_add (Out port (u8 v)).
Definition inb (port : Z) : K Z :=
  v <- rget (fun r => u8 (hw_in (iolog (dev r)) port)) ;;
  io_add (In port v) ;;;
  ret v.

(** A loop that polls a device until the condition is false. *)
Definition poll (c : K bool) : K unit := while fuel c (ret tt).

(** ** ioapic.c: the register selected and the data window *)
Definition REG_ID : Z := 0x00.
Definition REG_VER : Z := 0x01.
Definition REG_TABLE : Z := 0x10.
Definition INT_DISABLED : Z := 0x00010000.
Definition IOAPIC_REG : Z := 0xFEC00000.
Definition IOAPIC_DATA : Z := 0xFEC00010.

Definition mwrite (reg v : Z) : K unit := io_add (MOut reg (u32 v)).
Definition mread (reg : Z) : K Z :=
  v <- rget (fun r => u32 (hw_min (iolog (dev r)) reg)) ;;
  io_add (MIn reg v) ;;;
  ret v.

Definition ioapicread (reg : Z) : K Z := mwrite IOAPIC_REG reg ;;; mread IOAPIC_DATA.
Definition ioapicwrite (reg data : Z) : K unit := mwrite IOAPIC_REG reg ;;; mwrite IOAPIC_DATA data.

Definition ioapicenable (irq cpunum : Z) : K unit :=
  ioapicwrite (REG_TABLE + 2 * irq) (T_IRQ0 + irq) ;;;
  ioapicwrite (REG_TABLE + 2 * irq + 1) (Z.shiftl cpunum 24).

(** ** picirq.c *)
Definition IO_PIC1 : Z := 0x20.
Definition IO_PIC2 : Z := 0xA0.
Definition picinit : K unit := outb (IO_PIC1 + 1) 0xFF ;;; outb (IO_PIC2 + 1) 0xFF.

(** ** lapic.c: register indices *)
Definition ID : Z := 0x0020 / 4.
Definition VER : Z := 0x0030 / 4.
Definition TPR : Z := 0x0080 / 4.
Definition EOI : Z := 0x00B0 / 4.
Definition SVR : Z := 0x00F0 / 4.
Definition ENABLE : Z := 0x00000100.
Definition ESR : Z := 0x0280 / 4.
Definition ICRLO : Z := 0x0300 / 4.
Definition INIT : Z := 0x00000500.
Definition STARTUP : Z := 0x00000600.
Definition DELIVS : Z := 0x00001000.
Definition ASSERT : Z := 0x00004000.
Definition LEVEL : Z := 0x00008000.
Definition BCAST : Z := 0x00080000.
Definition ICRHI : Z := 0x0310 / 4.
Definition TIMER : Z := 0x0320 / 4.
Definition X1 : Z := 0x0000000B.
Definition PERIODIC : Z := 0x00020000.
Definition PCINT : Z := 0x0340 / 4.
Definition LINT0 : Z := 0x0350 / 4.
Definition LINT1 : Z := 0x0360 / 4.
Definition ERROR : Z := 0x0370 / 4.
Definition MASKED : Z := 0x00010000.
Definition TICR : Z := 0x0380 / 4.
Definition TDCR : Z := 0x03E0 / 4.

Definition lapicw (index value : Z) : K unit := mwrite index value ;;; mread ID ;;; ret tt.

Definition lapicinit : K unit :=
  on <- rget (fun r => lapic_set (dev r)) ;;
  if negb on then ret tt else
  lapicw SVR (Z.lor ENABLE (T_IRQ0 + IRQ_SPURIOUS)) ;;;
  lapicw TDCR X1 ;;;
  lapicw TIMER (Z.lor PERIODIC (T_IRQ0 + IRQ_TIMER)) ;;;
  lapicw TICR 10000000 ;;;
  lapicw LINT0 MASKED ;;;
  lapicw LINT1 MASKED ;;;
  v <- mread VER ;;
  (if 4 <=? Z.land (Z.shiftr v 16) 0xFF then lapicw PCINT MASKED else ret tt) ;;;
  lapicw ERROR (T_IRQ0 + IRQ_ERROR) ;;;
  lapicw ESR 0 ;;;
  lapicw ESR 0 ;;;
  lapicw EOI 0 ;;;
  lapicw ICRHI 0 ;;;
  lapicw ICRLO (Z.lor (Z.lor BCAST INIT) LEVEL) ;;;
  poll (v <- mread ICRLO ;; ret (negb (Z.land v DELIVS =? 0))) ;;;
  lapicw TPR 0.

Definition lapiceoi : K unit :=
  on <- rget (fun r => lapic_set (dev r)) ;;
  if on : bool then lapicw EOI 0 else ret tt.

Definition microdelay (us : Z) : K unit := ret tt.

Definition CMOS_PORT : Z := 0x70.
Definition CMOS_RETURN : Z := 0x71.

(** [P2V((0x40<<4 | 0x67))], the warm reset vector, as a physical address *)
Definition WRV : Z := Z.lor (Z.shiftl 0x40 4) 0x67.
Definition store16 (m : mem) (a v : Z) : mem := store (store m a v) (a + 1) (Z.shiftr v 8).

Definition lapicstartap (apicid addr : Z) : K unit :=
  outb CMOS_PORT 0xF ;;;
  outb (CMOS_PORT + 1) 0x0A ;;;
  rmod (fun r => r <| pmem ::= fun m => store16 (store16 m WRV 0) (WRV + 2) (u16 (Z.shiftr addr 4)) |>) ;;;
  lapicw ICRHI (Z.shiftl apicid 24) ;;;
  lapicw ICRLO (Z.lor (Z.lor INIT LEVEL) ASSERT) ;;;
  microdelay 200 ;;;
  lapicw ICRLO (Z.lor INIT LEVEL) ;;;
  microdelay 100 ;;;
  for_range 0 2 (fun _ =>
    lapicw ICRHI (Z.shiftl apicid 24) ;;;
    lapicw ICRLO (Z.lor STARTUP (Z.shiftr addr 12)) ;;;
    microdelay 200).

(** ** The real-time clock *)
Definition CMOS_STATA : Z := 0x0a.
Definition CMOS_STATB : Z := 0x0b.
Definition CMOS_UIP : Z := Z.shiftl 1 7.

Record rtcdate := mk_rtcdate { second : Z; minute : Z; hour : Z; day : Z; month : Z; year : Z }.

Definition cmos_read (reg : Z) : K Z :=
  outb CMOS_PORT reg ;;; microdelay 200 ;;; inb CMOS_RETURN.

Definition fill_rtcdate : K rtcdate :=
  a <- cmos_read 0x00 ;; b <- cmos_read 0x02 ;; c <- cmos_read 0x04 ;;
  d <- cmos_read 0x07 ;; e <- cmos_read 0x08 ;; f <- cmos_read 0x09 ;;
  ret (mk_rtcdate a b c d e f).

Definition rtc_eqb (a b : rtcdate) : bool :=
  (second a =? second b) && (minute a =? minute b) && (hour a =? hour b) &&
  (day a =? day b) && (month a =? month b) && (year a =? year b).

(** Two equal readings with no update in progress. *)
Fixpoint read_stable (n : nat) : K rtcdate :=
  match n with
  | O => fun _ => NoFuel
  | S n' =>
      t1 <- fill_rtcdate ;;
      v <- cmos_read CMOS_STATA ;;
      if negb (Z.land v CMOS_UIP =? 0) then read_stable n' else
      t2 <- fill_rtcdate ;;
      if rtc_eqb t1 t2 then ret t1 else read_stable n'
  end.

Definition CONV (x : Z) : Z := Z.shiftr x 4 * 10 + Z.land x 0xf.

Definition cmostime : K rtcdate :=
  sb <- cmos_read CMOS_STATB ;;
  let bcd := Z.land sb (Z.shiftl 1 2) =? 0 in
  t1 <- read_stable fuel ;;
  let t := if bcd then mk_rtcdate (CONV (second t1)) (CONV (minute t1)) (CONV (hour t1))
                         (CONV (day t1)) (CONV (month t1)) (CONV (year t1)) else t1 in
  ret (mk_rtcdate (second t) (minute t) (hour t) (day t) (month t) (year t + 2000)).

(** ** uart.c *)
Definition COM1 : Z := 0x3f8.

Definition uartputc (c : Z) : K unit :=
  u <- rget (fun r => uart (dev r)) ;;
  if u =? 0 then ret tt else
  (fix wait_ready (n : nat) : K unit :=
     match n with
     | O => ret tt
     | S n' => v <- inb (COM1 + 5) ;;
               if negb (Z.land v 0x20 =? 0) then ret tt else microdelay 10 ;;; wait_ready n'
     end) 128%nat ;;;
  outb (COM1 + 0) c.

Definition uartinit : K unit :=
  outb (COM1 + 2) 0 ;;;
  outb (COM1 + 3) 0x80 ;;;
  outb (COM1 + 0) (115200 / 9600) ;;;
  outb (COM1 + 1) 0 ;;;
  outb (COM1 + 3) 0x03 ;;;
  outb (COM1 + 4) 0 ;;;
  outb (COM1 + 1) 0x01 ;;;
  st <- inb (COM1 + 5) ;;
  if st =? 0xFF then ret tt else
  rmod (fun r => r <| dev ::= fun d => d <| uart := 1 |> |>) ;;;
  inb (COM1 + 2) ;;;
  inb (COM1 + 0) ;;;
  ioapicenable IRQ_COM1 0 ;;;
  (fix announce (l : list Z) : K unit :=
     match l with [] => ret tt | c :: l' => uartputc c ;;; announce l' end)
    [120; 118; 54; 46; 46; 46; 10].

Definition uartgetc : K Z :=
  u <- rget (fun r => uart (dev r)) ;;
  if u =? 0 then ret (-1) else
  v <- inb (COM1 + 5) ;;
  if Z.land v 0x01 =? 0 then ret (-1) else inb (COM1 + 0).
End devices.

(** ** Theorems *)

(** The BCD encoding of a two-digit number. *)
Definition to_bcd (n : Z) : Z := Z.lor (Z.shiftl (n / 10) 4) (n mod 10).

(** The conversion of the clock registers decodes binary-coded decimal:
    it is the left inverse of the encoding for every value a register holds. *)
Theorem bcd_roundtrip n : 0 ≤ n < 100 → CONV (to_bcd n) = n.
Proof.
  intros Hn.
  assert (forallb (fun n => CONV (to_bcd n) =? n) (seqZ 0 100) = true) as H by (by vm_compute).
  rewrite forallb_forall in H. apply Z.eqb_eq, H, list_elem_of_In, elem_of_seqZ. lia.
Qed.

Lemma bcd_roundtrip_witness : CONV (to_bcd 59) = 59.
Proof. apply (bcd_roundtrip 59). lia. Defined.
