(* ===== verification/Disk.v ===== *)
(** * Disk drivers (memide.c, ide.c)

    The two implementations of [iderw]: the disk in memory, which copies the
    block at once, and the IDE driver, which queues the buffer, programs the
    controller and sleeps until the interrupt.  [Disk] is the interface the
    buffer cache uses. *)

From S2P Require Import Prelude Machine Spinlock CString ProcTable Proc Lifecycle Kstate.
From S2P Require Import Sleeplock Devices.

(** What a driver offers: start-up, the interrupt handler, and to sync a
    buffer with the disk. *)
Class Disk := { ideinit : K unit; ideintr : K unit; iderw : nat → K unit }.

Section drivers.
Context {FU : Fuel}.

(** The tests both versions of [iderw] start with. *)
Definition not_to_do (x : buf) : bool := Z.land (bflags x) (Z.lor B_VALID B_DIRTY) =? B_VALID.

(** ** memide.c: [memdisk] as a list of blocks *)

(** [img] is the file system image linked into the kernel. *)
Definition memide_ideinit (img : list (list Z)) : K unit := rmod (fun r => r <| memdisk := img |>).

Definition memide_iderw (b : nat) : K unit :=
  h <- holdingsleep (buf_lock b) ;;
  if negb h then panic "iderw: buf not locked" else
  x <- buf_get b ;;
  if not_to_do x then panic "iderw: nothing to do" else
  if negb (bdev x =? 1) then panic "iderw: request not for disk 1" else
  disksize <- rget (fun r => Z.of_nat (length (memdisk r))) ;;
  if disksize <=? blockno x then panic "iderw: block out of range" else
  (if negb (Z.land (bflags x) B_DIRTY =? 0) then
     buf_set b (fun x => x <| bflags ::= fun f => Z.ldiff f B_DIRTY |>) ;;;
     rmod (fun r => r <| memdisk ::= <[Z.to_nat (blockno x) := bdata x]> |>
                      <| writes ::= fun w => w ++ [(blockno x, bdata x)] |>)
   else
     d <- try_get (fun s => memdisk (res s) !! Z.to_nat (blockno x)) ;;
     buf_set b (fun x => x <| bdata := d |>)) ;;;
  buf_set b (fun x => x <| bflags ::= fun f => Z.lor f B_VALID |>).

(** [ideintr] does nothing. *)
Definition memide_ideintr : K unit := ret tt.

(** ** ide.c *)
Context {HW : Hw}.

Definition SECTOR_SIZE : Z := 512.
Definition IDE_BSY : Z := 0x80.
Definition IDE_DRDY : Z := 0x40.
Definition IDE_DF : Z := 0x20.
Definition IDE_ERR : Z := 0x01.
Definition IDE_CMD_READ : Z := 0x20.
Definition IDE_CMD_WRITE : Z := 0x30.
Definition IDE_CMD_RDMUL : Z := 0xc4.
Definition IDE_CMD_WRMUL : Z := 0xc5.

(** The polling loop; [r] is the last status read. *)
Fixpoint idewait_loop (n : nat) : K Z :=
  r <- inb 0x1f7 ;;
  if negb (Z.land r (Z.lor IDE_BSY IDE_DRDY) =? IDE_DRDY) then
    match n with O => fun _ => NoFuel | S n' => idewait_loop n' end
  else ret r.

Definition idewait (checkerr : bool) : K Z :=
  r <- idewait_loop fuel ;;
  if checkerr && negb (Z.land r (Z.lor IDE_DF IDE_ERR) =? 0) then ret (-1) else ret 0.

Definition ide_set (f : idestate → idestate) : K unit := rmod (fun r => r <| ide ::= f |>).

(** [for(i=0; i<1000; i++) if(inb(0x1f7) != 0){ havedisk1 = 1; break; }] *)
Fixpoint probe_disk1 (n : nat) : K unit :=
  match n with
  | O => ret tt
  | S n' =>
      v <- inb 0x1f7 ;;
      if negb (v =? 0) then ide_set (fun i => i <| havedisk1 := 1 |>) else probe_disk1 n'
  end.

Definition ide_ideinit : K unit :=
  on_mach (initlock idelock "ide") ;;;
  n <- on_mach (gets ncpu) ;;
  ioapicenable IRQ_IDE (n - 1) ;;;
  idewait false ;;;
  outb 0x1f6 (Z.lor 0xe0 (Z.shiftl 1 4)) ;;;
  probe_disk1 1000 ;;;
  outb 0x1f6 (Z.lor 0xe0 (Z.shiftl 0 4)).

(** Little-endian words of a byte buffer, as [outsl] sends them. *)
Fixpoint words (l : list Z) : list Z :=
  match l with
  | a :: b :: c :: d :: l' =>
      Z.lor a (Z.lor (Z.shiftl b 8) (Z.lor (Z.shiftl c 16) (Z.shiftl d 24))) :: words l'
  | _ => []
  end.
Definition unword (w : Z) : list Z :=
  [u8 w; u8 (Z.shiftr w 8); u8 (Z.shiftr w 16); u8 (Z.shiftr w 24)].

Fixpoint outsl (port : Z) (ws : list Z) : K unit :=
  match ws with [] => ret tt | w :: ws' => io_add (Out port w) ;;; outsl port ws' end.

(** [insl]: [n] words read from the port. *)
Fixpoint insl (port : Z) (n : nat) : K (list Z) :=
  match n with
  | O => ret []
  | S n' =>
      v <- rget (fun r => u32 (hw_in (iolog (dev r)) port)) ;;
      io_add (In port v) ;;;
      l <- insl port n' ;;
      ret (unword v ++ l)
  end.

(** [b] is an index, so the test for a null [b] is not needed. *)
Definition idestart (b : nat) : K unit :=
  x <- buf_get b ;;
  if FSSIZE <=? blockno x then panic "incorrect blockno" else
  let sector_per_block := BSIZE / SECTOR_SIZE in
  let sector := s32 (blockno x * sector_per_block) in
  let read_cmd := if sector_per_block =? 1 then IDE_CMD_READ else IDE_CMD_RDMUL in
  let write_cmd := if sector_per_block =? 1 then IDE_CMD_WRITE else IDE_CMD_WRMUL in
  if 7 <? sector_per_block then panic "idestart" else
  idewait false ;;;
  outb 0x3f6 0 ;;;
  outb 0x1f2 sector_per_block ;;;
  outb 0x1f3 (Z.land sector 0xff) ;;;
  outb 0x1f4 (Z.land (Z.shiftr sector 8) 0xff) ;;;
  outb 0x1f5 (Z.land (Z.shiftr sector 16) 0xff) ;;;
  outb 0x1f6 (Z.lor (Z.lor 0xe0 (Z.shiftl (Z.land (bdev x) 1) 4)) (Z.land (Z.shiftr sector 24) 0x0f)) ;;;
  if negb (Z.land (bflags x) B_DIRTY =? 0) then
    outb 0x1f7 write_cmd ;;; outsl 0x1f0 (words (bdata x))
  else outb 0x1f7 read_cmd.

Definition ide_ideintr : K unit :=
  lock idelock ;;;
  q <- rget (fun r => idequeue (ide r)) ;;
  match q with
  | None => unlock idelock
  | Some b =>
      x <- buf_get b ;;
      ide_set (fun i => i <| idequeue := qnext x |>) ;;;
      (if Z.land (bflags x) B_DIRTY =? 0 then
         r <- idewait true ;;
         if 0 <=? r then d <- insl 0x1f0 (Z.to_nat (BSIZE / 4)) ;; buf_set b (fun x => x <| bdata := d |>)
         else ret tt
       else ret tt) ;;;
      buf_set b (fun x => x <| bflags ::= fun f => Z.ldiff (Z.lor f B_VALID) B_DIRTY |>) ;;;
      wakeup (buf_chan b) ;;;
      q <- rget (fun r => idequeue (ide r)) ;;
      match q with Some b' => idestart b' | None => ret tt end ;;;
      unlock idelock
  end.

(** The walk of [pp] along the [qnext] pointers to the end of [idequeue],
    where [b] is stored: the last buffer of the queue that starts at [b].  A queue longer than the number
    of buffers would be a cycle. *)
Fixpoint queue_last (n : nat) (bs : list buf) (b : nat) : option nat :=
  match n with
  | O => None
  | S n' =>
      x ← bs !! b;
      match qnext x with None => Some b | Some b' => queue_last n' bs b' end
  end.

Definition ide_append (b : nat) : K unit :=
  buf_set b (fun x => x <| qnext := None |>) ;;;
  q <- rget (fun r => idequeue (ide r)) ;;
  match q with
  | None => ide_set (fun i => i <| idequeue := Some b |>)
  | Some h =>
      t <- try_get (fun s => queue_last (length (bufs (res s))) (bufs (res s)) h) ;;
      buf_set t (fun x => x <| qnext := Some b |>)
  end.

Definition ide_iderw (b : nat) : K unit :=
  h <- holdingsleep (buf_lock b) ;;
  if negb h then panic "iderw: buf not locked" else
  x <- buf_get b ;;
  if not_to_do x then panic "iderw: nothing to do" else
  d1 <- rget (fun r => havedisk1 (ide r)) ;;
  if negb (bdev x =? 0) && (d1 =? 0) then panic "iderw: ide disk 1 not present" else
  lock idelock ;;;
  ide_append b ;;;
  q <- rget (fun r => idequeue (ide r)) ;;
  (if bool_decide (q = Some b) then idestart b else ret tt) ;;;
  while fuel (x <- buf_get b ;; ret (negb (not_to_do x))) (sleep (buf_chan b) idelock) ;;;
  unlock idelock.
End drivers.

Definition memide_disk {FU : Fuel} (img : list (list Z)) : Disk :=
  {| ideinit := memide_ideinit img; ideintr := memide_ideintr; iderw := memide_iderw |}.
Definition ide_disk {FU : Fuel} {HW : Hw} : Disk :=
  {| ideinit := ide_ideinit; ideintr := ide_ideintr; iderw := ide_iderw |}.
