(* ===== verification/Bio.v ===== *)
(** * The buffer cache (bio.c)

    [bcache.buf] is the list [bufs] of the state; its last element is
    [bcache.head], the sentinel of the doubly linked list through [bprev] and
    [bnext]. *)

From S2P Require Import Prelude Machine Spinlock CString ProcTable Proc Lifecycle Ready Aging.
From S2P Require Import ProcLemmas Scheduler Reach Blocking Kstate Sleeplock Solo Devices Disk.

(** The index of [bcache.head]. *)
Definition bhead : nat := NBUF.

(** ** Pointer operations on the list *)

Definition set_next (b n : nat) (bs : list buf) : list buf := alter (fun x => x <| bnext := n |>) b bs.
Definition set_prev (b n : nat) (bs : list buf) : list buf := alter (fun x => x <| bprev := n |>) b bs.

(** [b->next = head.next; b->prev = &head; head.next->prev = b; head.next = b;] *)
Definition link_front (b : nat) (bs : list buf) : option (list buf) :=
  h ← bs !! bhead;
  let bs := set_prev b bhead (set_next b (bnext h) bs) in
  h ← bs !! bhead;
  let bs := set_prev (bnext h) b bs in
  Some (set_next bhead b bs).

(** [b->next->prev = b->prev; b->prev->next = b->next;] *)
Definition unlink (b : nat) (bs : list buf) : option (list buf) :=
  x ← bs !! b;
  let bs := set_prev (bnext x) (bprev x) bs in
  x ← bs !! b;
  Some (set_next (bprev x) (bnext x) bs).

(** [for(b = head.next; b != &head; b = b->next)]: the first buffer of the
    list that satisfies the test, at most [n] steps from [b].  The outer
    [None] is a bad pointer or a list that does not end. *)
Fixpoint scan_next (n : nat) (bs : list buf) (test : buf → bool) (b : nat) : option (option nat) :=
  if (b =? bhead)%nat then Some None else
  match n with
  | O => None
  | S n' => x ← bs !! b; if test x then Some (Some b) else scan_next n' bs test (bnext x)
  end.
Fixpoint scan_prev (n : nat) (bs : list buf) (test : buf → bool) (b : nat) : option (option nat) :=
  if (b =? bhead)%nat then Some None else
  match n with
  | O => None
  | S n' => x ← bs !! b; if test x then Some (Some b) else scan_prev n' bs test (bprev x)
  end.

Definition cached (dev bn : Z) (x : buf) : bool := (bdev x =? dev) && (blockno x =? bn).
Definition unused (x : buf) : bool := (refcnt x =? 0) && (Z.land (bflags x) B_DIRTY =? 0).

Section bio.
Context {FU : Fuel} {DK : Disk}.

Definition on_bufs (f : list buf → option (list buf)) : K unit :=
  try_modify (fun s => bs ← f (bufs (res s)); Some (s <| res ::= fun r => r <| bufs := bs |> |>)).
Definition ask_bufs {A} (f : list buf → option A) : K A := try_get (fun s => f (bufs (res s))).

Definition binit : K unit :=
  on_mach (initlock bcache_lock "bcache") ;;;
  on_bufs (fun bs => Some (set_next bhead bhead (set_prev bhead bhead bs))) ;;;
  for_range 0 NBUF (fun b =>
    on_bufs (fun bs => h ← bs !! bhead; Some (set_prev b bhead (set_next b (bnext h) bs))) ;;;
    initsleeplock (buf_lock b) "buffer" ;;;
    on_bufs (fun bs => h ← bs !! bhead; Some (set_next bhead b (set_prev (bnext h) b bs)))).

Definition bget (dev bn : Z) : K nat :=
  lock bcache_lock ;;;
  o <- ask_bufs (fun bs => h ← bs !! bhead; scan_next NBUF bs (cached dev bn) (bnext h)) ;;
  match o with
  | Some b =>
      buf_set b (fun x => x <| refcnt ::= fun n => u32 (n + 1) |>) ;;;
      unlock bcache_lock ;;;
      acquiresleep (buf_lock b) ;;;
      ret b
  | None =>
      o <- ask_bufs (fun bs => h ← bs !! bhead; scan_prev NBUF bs unused (bprev h)) ;;
      match o with
      | Some b =>
          buf_set b (fun x => x <| bdev := dev |> <| blockno := bn |> <| bflags := 0 |> <| refcnt := 1 |>) ;;;
          unlock bcache_lock ;;;
          acquiresleep (buf_lock b) ;;;
          ret b
      | None => panic "bget: no buffers"
      end
  end.

Definition bread (dev bn : Z) : K nat :=
  b <- bget dev bn ;;
  x <- buf_get b ;;
  (if Z.land (bflags x) B_VALID =? 0 then iderw b else ret tt) ;;;
  ret b.

Definition bwrite (b : nat) : K unit :=
  h <- holdingsleep (buf_lock b) ;;
  if negb h then panic "bwrite" else
  buf_set b (fun x => x <| bflags ::= fun f => Z.lor f B_DIRTY |>) ;;;
  iderw b.

Definition brelse (b : nat) : K unit :=
  h <- holdingsleep (buf_lock b) ;;
  if negb h then panic "brelse" else
  releasesleep (buf_lock b) ;;;
  lock bcache_lock ;;;
  buf_set b (fun x => x <| refcnt ::= fun n => u32 (n - 1) |>) ;;;
  x <- buf_get b ;;
  (if refcnt x =? 0 then on_bufs (fun bs => bs ← unlink b bs; link_front b bs) else ret tt) ;;;
  unlock bcache_lock.
End bio.
