(* ===== verification/Cache.v ===== *)
(** * The buffer cache is a least-recently-used cache of the disk (bio.c)

    [ring] relates the doubly linked list of buffers to a plain list in order
    of use; [unlink] and [link_front] are removal and insertion at the front.
    [cache_ok] is the invariant of the cache; [view] is the disk as its
    clients see it.  The last part gives what [bread], [bwrite] and [brelse]
    do when one thread runs alone. *)

From S2P Require Import Prelude Machine Spinlock CString ProcTable Proc Lifecycle Ready Aging.
From S2P Require Import ProcLemmas Scheduler Reach Blocking Kstate Sleeplock Solo Devices Disk Bio.

(** ** The linked list *)

(** Along [a :: l], each element is linked to the next one both ways. *)
Definition linked (bs : list buf) (a : nat) (l : list nat) : Prop :=
  ∀ k x y, (a :: l) !! k = Some x → l !! k = Some y →
    bnext <$> bs !! x = Some y ∧ bprev <$> bs !! y = Some x.

(** The buffers in the order of the list, most recently used first. *)
Record ring (bs : list buf) (l : list nat) : Prop := {
  ring_length : length bs = S NBUF;
  ring_perm : l ≡ₚ seq 0 NBUF;
  ring_linked : linked bs bhead (l ++ [bhead]) }.

Lemma ring_in bs l b : ring bs l → b ∈ l ↔ (b < NBUF)%nat.
Proof. intros Hr. rewrite (ring_perm _ _ Hr), elem_of_seq. lia. Qed.

Lemma ring_nodup bs l : ring bs l → NoDup (bhead :: l).
Proof.
  intros Hr. constructor; [rewrite (ring_in _ _ _ Hr); unfold bhead; lia|].
  rewrite (ring_perm _ _ Hr). apply NoDup_seq.
Qed.

Lemma next_set_next b v bs x :
  bnext <$> set_next b v bs !! x = if decide (b = x) then (fun _ => v) <$> bs !! x else bnext <$> bs !! x.
Proof. unfold set_next. rewrite list_lookup_alter. case_decide; [subst|done]. by destruct (bs !! x). Qed.
Lemma next_set_prev b v bs x : bnext <$> set_prev b v bs !! x = bnext <$> bs !! x.
Proof. unfold set_prev. rewrite list_lookup_alter. case_decide; [subst|done]. by destruct (bs !! x). Qed.
Lemma prev_set_prev b v bs x :
  bprev <$> set_prev b v bs !! x = if decide (b = x) then (fun _ => v) <$> bs !! x else bprev <$> bs !! x.
Proof. unfold set_prev. rewrite list_lookup_alter. case_decide; [subst|done]. by destruct (bs !! x). Qed.
Lemma prev_set_next b v bs x : bprev <$> set_next b v bs !! x = bprev <$> bs !! x.
Proof. unfold set_next. rewrite list_lookup_alter. case_decide; [subst|done]. by destruct (bs !! x). Qed.

Lemma lookup_set_next_ne b v bs x : b ≠ x → set_next b v bs !! x = bs !! x.
Proof. apply list_lookup_alter_ne. Qed.
Lemma lookup_set_prev_ne b v bs x : b ≠ x → set_prev b v bs !! x = bs !! x.
Proof. apply list_lookup_alter_ne. Qed.
Lemma const_set_next b v w bs x : (fun _ : buf => w : nat) <$> set_next b v bs !! x = (fun _ => w) <$> bs !! x.
Proof. unfold set_next. rewrite list_lookup_alter. case_decide; [subst|done]. by destruct (bs !! x). Qed.
Lemma const_set_prev b v w bs x : (fun _ : buf => w : nat) <$> set_prev b v bs !! x = (fun _ => w) <$> bs !! x.
Proof. unfold set_prev. rewrite list_lookup_alter. case_decide; [subst|done]. by destruct (bs !! x). Qed.

(** Buffers up to their links. *)
Definition same_but_links (x y : buf) : Prop :=
  y = x <| bprev := bprev y |> <| bnext := bnext y |>.
Lemma same_fields x y : same_but_links x y →
  bflags x = bflags y ∧ bdev x = bdev y ∧ blockno x = blockno y ∧ refcnt x = refcnt y ∧ bdata x = bdata y.
Proof. intros ->. done. Qed.
Definition relinked (bs bs' : list buf) : Prop := Forall2 same_but_links bs bs'.

Lemma relinked_refl bs : relinked bs bs.
Proof. apply Forall2_same_length_lookup. split; [done|]. intros i [] y Hx Hy. by simplify_eq. Qed.
Lemma relinked_trans b1 b2 b3 : relinked b1 b2 → relinked b2 b3 → relinked b1 b3.
Proof.
  intros H. revert b3. induction H as [|x y b1 b2 Hxy _ IH]; intros b3 H3; inversion H3 as [|? z ? b3' Hyz H3']; subst.
  - constructor.
  - constructor; [|by apply IH]. destruct x, y, z. unfold same_but_links in *. cbn in *. congruence.
Qed.
Lemma relinked_set_next b v bs : relinked bs (set_next b v bs).
Proof.
  apply Forall2_same_length_lookup. split; [symmetry; apply length_alter|]. intros i x y Hx Hy.
  unfold set_next in Hy. rewrite list_lookup_alter in Hy. case_decide; subst; rewrite Hx in Hy; destruct x; by simplify_eq/=.
Qed.
Lemma relinked_set_prev b v bs : relinked bs (set_prev b v bs).
Proof.
  apply Forall2_same_length_lookup. split; [symmetry; apply length_alter|]. intros i x y Hx Hy.
  unfold set_prev in Hy. rewrite list_lookup_alter in Hy. case_decide; subst; rewrite Hx in Hy; destruct x; by simplify_eq/=.
Qed.
Lemma length_relinked bs bs' : relinked bs bs' → length bs' = length bs.
Proof. intros H. symmetry. by eapply Forall2_length. Qed.

Lemma relinked_lookup bs bs' i x :
  relinked bs bs' → bs !! i = Some x → ∃ y, bs' !! i = Some y ∧ same_but_links x y.
Proof. intros H Hx. destruct (Forall2_lookup_l _ _ _ _ _ H Hx) as (y & ? & ?). eauto. Qed.
Lemma relinked_lookup_r bs bs' i y :
  relinked bs bs' → bs' !! i = Some y → ∃ x, bs !! i = Some x ∧ same_but_links x y.
Proof. intros H Hy. destruct (Forall2_lookup_r _ _ _ _ _ H Hy) as (x & ? & ?). eauto. Qed.

#[export] Hint Rewrite next_set_next next_set_prev prev_set_prev prev_set_next const_set_next const_set_prev : links.

(** The element before [b] in [bhead :: l1] and the one after it. *)
Lemma linked_mid bs l1 b l2 p n :
  linked bs bhead (l1 ++ b :: l2 ++ [bhead]) →
  (bhead :: l1) !! length l1 = Some p → (l2 ++ [bhead]) !! 0%nat = Some n →
  bprev <$> bs !! b = Some p ∧ bnext <$> bs !! b = Some n.
Proof.
  intros Hl Hp Hn. split.
  - apply (Hl (length l1) p b).
    + rewrite app_comm_cons, lookup_app_l by (simpl; lia). done.
    + by apply list_lookup_middle.
  - apply (Hl (S (length l1)) b n).
    + change ((l1 ++ b :: l2 ++ [bhead]) !! length l1 = Some b). by apply list_lookup_middle.
    + rewrite lookup_app_r by lia. by replace (S (length l1) - length l1)%nat with 1%nat by lia.
Qed.

Lemma linked_ends l1 l2 : ∃ p n, (bhead :: l1) !! length l1 = Some p ∧ (l2 ++ [bhead]) !! 0%nat = Some n.
Proof.
  destruct (lookup_lt_is_Some_2 (bhead :: l1) (length l1)) as [p Hp]; [simpl; lia|].
  destruct (lookup_lt_is_Some_2 (l2 ++ [bhead]) 0) as [n Hn]; [rewrite length_app; simpl; lia|]. eauto.
Qed.

(** Removing [b] from the list. *)
Lemma linked_remove bs l1 b l2 p n bs' :
  linked bs bhead (l1 ++ b :: l2 ++ [bhead]) → NoDup (bhead :: l1 ++ b :: l2) →
  (bhead :: l1) !! length l1 = Some p → (l2 ++ [bhead]) !! 0%nat = Some n →
  is_Some (bs !! p) → is_Some (bs !! n) →
  bs' = set_next p n (set_prev n p bs) → linked bs' bhead (l1 ++ l2 ++ [bhead]).
Proof.
  intros Hl Hnd Hp Hn [xp Hxp] [xn Hxn] -> k x y Hx Hy.
  assert (NoDup (bhead :: l1 ++ l2)) as Hs.
  { eapply sublist_NoDup; [exact Hnd|]. apply sublist_skip, sublist_app; [done|]. by apply sublist_cons. }
  assert (NoDup (l1 ++ l2 ++ [bhead])) as Ht.
  { rewrite app_assoc. by rewrite <- Permutation_cons_append. }
  autorewrite with links.
  destruct (decide (k = length l1)) as [->|Hk].
  - assert (x = p) as ->.
    { rewrite app_comm_cons, lookup_app_l in Hx by (simpl; lia). congruence. }
    assert (y = n) as ->.
    { rewrite lookup_app_r, Nat.sub_diag in Hy by lia. congruence. }
    rewrite !decide_True by done. autorewrite with links. by rewrite Hxp, Hxn.
  - assert (x ≠ p) as Hxp'.
    { intros ->. apply Hk. eapply (NoDup_lookup (bhead :: l1 ++ l2)); [done| |].
      - rewrite app_comm_cons, app_assoc in Hx. rewrite lookup_app_l in Hx; [exact Hx|].
        apply lookup_lt_Some in Hy. rewrite !length_app in Hy. simpl in *. rewrite length_app. lia.
      - rewrite app_comm_cons, lookup_app_l by (simpl; lia). exact Hp. }
    assert (y ≠ n) as Hyn.
    { intros ->. apply Hk. eapply (NoDup_lookup (l1 ++ l2 ++ [bhead])); [done|exact Hy|].
      rewrite lookup_app_r, Nat.sub_diag by lia. exact Hn. }
    rewrite !decide_False by done.
    destruct (decide (k < length l1)%nat).
    + apply (Hl k).
      * rewrite app_comm_cons, lookup_app_l in Hx by (simpl; lia).
        rewrite app_comm_cons, lookup_app_l by (simpl; lia). done.
      * rewrite lookup_app_l in Hy |- * by lia. done.
    + apply (Hl (S k)).
      * rewrite app_comm_cons, lookup_app_r in Hx |- * by (simpl; lia). simpl length in *.
        replace (S k - S (length l1))%nat with (S (k - S (length l1))) by lia. done.
      * rewrite lookup_app_r in Hy |- * by lia.
        replace (S k - length l1)%nat with (S (k - length l1)) by lia. done.
Qed.

(** Inserting [b] at the front. *)
Lemma linked_insert bs b l n bs' :
  linked bs bhead (l ++ [bhead]) → NoDup (bhead :: b :: l) → (l ++ [bhead]) !! 0%nat = Some n →
  is_Some (bs !! b) → is_Some (bs !! n) → is_Some (bs !! bhead) →
  bs' = set_next bhead b (set_prev n b (set_prev b bhead (set_next b n bs))) →
  linked bs' bhead (b :: l ++ [bhead]).
Proof.
  intros Hl Hnd Hn [xb Hxb] [xn Hxn] [xh Hxh] -> k x y Hx Hy. autorewrite with links.
  assert (b ≠ bhead ∧ b ∉ l) as [Hbh Hbl].
  { apply NoDup_cons in Hnd as [H1 H2]. apply NoDup_cons in H2 as [H2 _]. split; [|done]. set_solver. }
  assert (NoDup (b :: l ++ [bhead])) as Ht.
  { change (b :: l ++ [bhead]) with ((b :: l) ++ [bhead]). by rewrite <- Permutation_cons_append. }
  destruct k as [|[|k]]; simpl in Hx, Hy; simplify_eq.
  - rewrite decide_True by done. autorewrite with links. split; [by rewrite Hxh|].
    rewrite (decide_True (P := y = y)) by done. destruct (decide (n = y)) as [->|]; [|by rewrite Hxb].
    exfalso. apply NoDup_cons in Ht as [Ht _]. apply Ht. by eapply list_elem_of_lookup_2.
  - rewrite (decide_False (P := bhead = x)), !decide_True by done. autorewrite with links. by rewrite Hxb, Hxn.
  - assert (x ≠ bhead).
    { intros ->. apply NoDup_cons in Hnd as [H1 _]. apply H1. right.
      assert (k < length l)%nat. { apply lookup_lt_Some in Hy. rewrite length_app in Hy. simpl in Hy. lia. }
      rewrite lookup_app_l in Hx by lia. by eapply list_elem_of_lookup_2. }
    assert (x ≠ b ∧ y ≠ b) as [? ?].
    { apply NoDup_cons in Ht as [Ht _]. split; intros ->; apply Ht; by eapply list_elem_of_lookup_2. }
    assert (y ≠ n).
    { intros ->. apply NoDup_cons in Ht as [_ Ht]. assert (S k = 0%nat); [|lia].
      by eapply (NoDup_lookup (l ++ [bhead])). }
    rewrite !decide_False by done. by apply (Hl (S k)).
Qed.

(** ** Walking the list *)

(** The first buffer of [l] that satisfies the test. *)
Fixpoint pick (bs : list buf) (test : buf → bool) (l : list nat) : option nat :=
  match l with
  | [] => None
  | b :: l' =>
      match bs !! b with
      | Some x => if test x then Some b else pick bs test l'
      | None => None
      end
  end.

Lemma pick_Some bs test l b :
  pick bs test l = Some b → b ∈ l ∧ ∃ x, bs !! b = Some x ∧ test x = true.
Proof.
  induction l as [|c l IH]; simpl; [done|]. destruct (bs !! c) as [x|] eqn:Hc; [|done].
  destruct (test x) eqn:Ht; [intros [= <-]; split; [by left|eauto]|].
  intros [H1 H2]%IH. split; [by right|done].
Qed.

Lemma pick_None bs test l :
  (∀ b, b ∈ l → is_Some (bs !! b)) → pick bs test l = None →
  ∀ b x, b ∈ l → bs !! b = Some x → test x = false.
Proof.
  induction l as [|c l IH]; simpl; intros Hin; [intros _ b x []%elem_of_nil|].
  destruct (Hin c) as [x Hc]; [by left|]. rewrite Hc. destruct (test x) eqn:Ht; [done|].
  intros Hp b y [->|Hb]%elem_of_cons Hy; [by simplify_eq|]. eapply IH; [|done|done|done].
  intros b' Hb'. apply Hin. by right.
Qed.

Lemma linked_cons bs a b l : linked bs a (b :: l) → bnext <$> bs !! a = Some b ∧ linked bs b l.
Proof.
  intros H. split; [by apply (H 0%nat a b)|]. intros k x y Hx Hy. by apply (H (S k)).
Qed.

Lemma linked_app_l bs a l1 l2 : linked bs a (l1 ++ l2) → linked bs a l1.
Proof.
  intros H k x y Hx Hy. pose proof (lookup_lt_Some _ _ _ Hy). apply (H k).
  - rewrite app_comm_cons. by apply lookup_app_l_Some.
  - by apply lookup_app_l_Some.
Qed.

Lemma scan_next_spec bs test l a n c :
  linked bs a (l ++ [bhead]) → bhead ∉ l → (∀ b, b ∈ l → is_Some (bs !! b)) → (length l ≤ n)%nat →
  (l ++ [bhead]) !! 0%nat = Some c → scan_next n bs test c = Some (pick bs test l).
Proof.
  revert a n c. induction l as [|b l IH]; intros a n c Hl Hh Hin Hn; simpl.
  - intros [= <-]. by destruct n.
  - intros [= <-]. destruct n as [|n]; [simpl in Hn; lia|]. cbn [scan_next].
    apply not_elem_of_cons in Hh as [Hb Hh]. rewrite (proj2 (Nat.eqb_neq b bhead)) by done.
    destruct (Hin b) as [x Hx]; [by left|]. rewrite Hx. cbn [mbind option_bind].
    destruct (test x); [done|]. rewrite <- app_comm_cons in Hl. apply linked_cons in Hl as [_ Hl].
    assert ((l ++ [bhead]) !! 0%nat = Some (bnext x)) as Hc.
    { destruct (l ++ [bhead]) as [|d l'] eqn:E; [by destruct l|].
      apply linked_cons in Hl as [Hl _]. rewrite Hx in Hl. simpl in *. congruence. }
    eapply IH; [exact Hl|done| |simpl in Hn; lia|done]. intros b' Hb'. apply Hin. by right.
Qed.

Lemma scan_prev_spec bs test l n c :
  linked bs bhead l → bhead ∉ l → (∀ b, b ∈ l → is_Some (bs !! b)) → (length l ≤ n)%nat →
  (bhead :: l) !! length l = Some c → scan_prev n bs test c = Some (pick bs test (rev l)).
Proof.
  revert n c. induction l as [|b l IH] using rev_ind; intros n c Hl Hh Hin Hn Hc.
  - simpl in Hc. simplify_eq. by destruct n.
  - rewrite length_app in Hn, Hc. simpl in Hn. rewrite Nat.add_1_r in Hc. simpl in Hc.
    rewrite lookup_app_r, Nat.sub_diag in Hc by lia. injection Hc as <-.
    destruct n as [|n]; [lia|]. cbn [scan_prev]. apply not_elem_of_app in Hh as [Hh Hb].
    rewrite (proj2 (Nat.eqb_neq b bhead)) by set_solver.
    destruct (Hin b) as [x Hx]; [set_solver|]. rewrite Hx. cbn [mbind option_bind].
    rewrite rev_app_distr. cbn [rev app pick]. rewrite Hx. destruct (test x); [done|].
    apply IH; [by eapply linked_app_l|done|set_solver|lia|].
    destruct (lookup_lt_is_Some_2 (bhead :: l) (length l)) as [d Hd]; [simpl; lia|]. rewrite Hd. f_equal.
    destruct (Hl (length l) d b) as [_ Hp].
    + rewrite app_comm_cons. by apply lookup_app_l_Some.
    + rewrite lookup_app_r, Nat.sub_diag by lia. done.
    + rewrite Hx in Hp. by injection Hp.
Qed.

Section walks.
Context {bs : list buf} {l : list nat} (Hr : ring bs l).

Lemma ring_is_Some b : (b ≤ NBUF)%nat → is_Some (bs !! b).
Proof. intros. apply lookup_lt_is_Some_2. rewrite (ring_length _ _ Hr). lia. Qed.

Lemma ring_length_list : length l = NBUF.
Proof. rewrite (ring_perm _ _ Hr). apply length_seq. Qed.

Lemma ring_next test h :
  bs !! bhead = Some h → scan_next NBUF bs test (bnext h) = Some (pick bs test l).
Proof.
  intros Hh. eapply (scan_next_spec _ _ _ bhead); [apply Hr| |..].
  - by apply (NoDup_cons _ _), (ring_nodup _ _ Hr).
  - intros b Hb. apply ring_is_Some. apply (ring_in _ _ _ Hr) in Hb. lia.
  - by rewrite ring_length_list.
  - destruct (l ++ [bhead]) as [|c l'] eqn:E; [by destruct l|]. pose proof (ring_linked _ _ Hr) as Hl.
    rewrite E in Hl. apply linked_cons in Hl as [Hl _]. rewrite Hh in Hl. simpl in *. congruence.
Qed.

Lemma ring_prev test h :
  bs !! bhead = Some h → scan_prev NBUF bs test (bprev h) = Some (pick bs test (rev l)).
Proof.
  intros Hh. apply scan_prev_spec; [eapply linked_app_l, Hr| |..].
  - by apply (NoDup_cons _ _), (ring_nodup _ _ Hr).
  - intros b Hb. apply ring_is_Some. apply (ring_in _ _ _ Hr) in Hb. lia.
  - by rewrite ring_length_list.
  - destruct (lookup_lt_is_Some_2 (bhead :: l) (length l)) as [d Hd]; [simpl; lia|]. rewrite Hd. f_equal.
    destruct (ring_linked _ _ Hr (length l) d bhead) as [_ Hp].
    + rewrite app_comm_cons. by apply lookup_app_l_Some.
    + rewrite lookup_app_r, Nat.sub_diag by lia. done.
    + rewrite Hh in Hp. by injection Hp.
Qed.
End walks.

(** ** Moving a buffer to the front *)

Lemma unlink_spec bs l1 b l2 :
  ring bs (l1 ++ b :: l2) →
  ∃ bs', unlink b bs = Some bs' ∧ relinked bs bs' ∧ linked bs' bhead ((l1 ++ l2) ++ [bhead]).
Proof.
  intros Hr. pose proof (ring_linked _ _ Hr) as Hl. rewrite <- app_assoc, <- app_comm_cons in Hl.
  pose proof (ring_nodup _ _ Hr) as Hnd. destruct (linked_ends l1 l2) as (p & n & Hp & Hn).
  destruct (linked_mid _ _ _ _ _ _ Hl Hp Hn) as [Hbp Hbn].
  assert (∀ x, x ∈ bhead :: l1 ++ b :: l2 → is_Some (bs !! x)) as Hin.
  { intros x Hx. apply (ring_is_Some Hr). apply elem_of_cons in Hx as [->|Hx]; [done|].
    apply (ring_in _ _ _ Hr) in Hx. lia. }
  assert (p ∈ bhead :: l1) as Hpin by (by eapply list_elem_of_lookup_2).
  assert (n ∈ l2 ++ [bhead]) as Hnin by (by eapply list_elem_of_lookup_2).
  assert (n ≠ b) as Hnb.
  { intros ->. apply NoDup_cons in Hnd as [Hh Hnd]. apply NoDup_app in Hnd as (_ & _ & Hnd).
    apply NoDup_cons in Hnd as [Hnd _]. set_solver. }
  destruct (Hin b) as [x Hx]; [set_solver|]. rewrite Hx in Hbp, Hbn. cbn in Hbp, Hbn. injection Hbp as Hbp. injection Hbn as Hbn.
  exists (set_next p n (set_prev n p bs)). split_and!.
  - unfold unlink. rewrite Hx. cbn [mbind option_bind]. rewrite Hbp, Hbn.
    rewrite lookup_set_prev_ne, Hx by done. cbn [mbind option_bind]. by rewrite Hbp, Hbn.
  - eapply relinked_trans; [apply relinked_set_prev|apply relinked_set_next].
  - rewrite <- app_assoc. eapply linked_remove; [exact Hl|done|exact Hp|exact Hn| |  |done]; apply Hin; set_solver.
Qed.

Lemma link_front_spec bs b l :
  linked bs bhead (l ++ [bhead]) → length bs = S NBUF → NoDup (bhead :: b :: l) → (b < NBUF)%nat →
  (∀ x, x ∈ l → (x < NBUF)%nat) →
  ∃ bs', link_front b bs = Some bs' ∧ relinked bs bs' ∧ linked bs' bhead (b :: l ++ [bhead]).
Proof.
  intros Hl Hlen Hnd Hb Hin.
  assert (∀ x, (x ≤ NBUF)%nat → is_Some (bs !! x)) as Hs by (intros; apply lookup_lt_is_Some_2; lia).
  destruct (Hs bhead) as [h Hh]; [done|]. destruct (linked_ends [] l) as (p & n & _ & Hn).
  assert (bnext h = n) as Hbn.
  { destruct (Hl 0%nat bhead n) as [H _]; [done|done|]. rewrite Hh in H. by injection H. }
  assert (b ≠ bhead) as Hbh by (unfold bhead; lia).
  exists (set_next bhead b (set_prev n b (set_prev b bhead (set_next b n bs)))). split_and!.
  - unfold link_front. rewrite Hh. cbn [mbind option_bind]. rewrite Hbn.
    rewrite lookup_set_prev_ne, lookup_set_next_ne, Hh by done. cbn [mbind option_bind].
    by rewrite Hbn.
  - eapply relinked_trans; [apply relinked_set_next|]. eapply relinked_trans; [apply relinked_set_prev|].
    eapply relinked_trans; [apply relinked_set_prev|apply relinked_set_next].
  - eapply linked_insert; [exact Hl|done|exact Hn| | | |done].
    + apply Hs. lia.
    + apply Hs. assert (n ∈ l ++ [bhead]) as [Hn'%Hin|Hn'%list_elem_of_singleton]%elem_of_app
        by (by eapply list_elem_of_lookup_2); unfold bhead in *; lia.
    + by apply Hs.
Qed.

(** What [brelse] does to the list when the last user is gone. *)
Lemma touch_spec bs l1 b l2 :
  ring bs (l1 ++ b :: l2) →
  ∃ bs', (bs1 ← unlink b bs; link_front b bs1) = Some bs' ∧ relinked bs bs' ∧ ring bs' (b :: l1 ++ l2).
Proof.
  intros Hr. pose proof (ring_nodup _ _ Hr) as Hnd. pose proof (ring_length _ _ Hr) as Hlen.
  assert (l1 ++ b :: l2 ≡ₚ b :: l1 ++ l2) as HP by (symmetry; apply Permutation_middle).
  rewrite HP in Hnd.
  destruct (unlink_spec _ _ _ _ Hr) as (bs1 & Hu & Hrel1 & Hl1).
  pose proof (length_relinked _ _ Hrel1) as Hlen1.
  destruct (link_front_spec bs1 b (l1 ++ l2)) as (bs2 & Hf & Hrel2 & Hl2); [done|congruence|done|..].
  - apply (ring_in _ _ _ Hr). set_solver.
  - intros x Hx. apply (ring_in _ _ _ Hr). set_solver.
  - exists bs2. rewrite Hu. cbn [mbind option_bind]. split; [done|].
    split; [by eapply relinked_trans|]. split; [by rewrite (length_relinked _ _ Hrel2), Hlen1| |done].
    by rewrite <- HP, (ring_perm _ _ Hr).
Qed.

(** ** The invariant of the cache

    [me] is the pid of the running process, [l] the buffers in order of use,
    [h] those it holds.  The only disk in use is number 1. *)

Record buf_ok (nblocks : nat) (x : buf) : Prop := {
  bok_len : length (bdata x) = Z.to_nat BSIZE;
  bok_used : bdev x = 1 → 0 ≤ blockno x < Z.of_nat nblocks ∧ (bflags x = B_VALID ∨ bflags x = Z.lor B_VALID B_DIRTY);
  bok_unused : bdev x ≠ 1 → bflags x = 0 }.

(** A clean buffer has the contents of the disk. *)
Definition clean (D : list (list Z)) (x : buf) : Prop :=
  bdev x = 1 → bflags x = B_VALID → D !! Z.to_nat (blockno x) = Some (bdata x).

Record cache_ok (me : Z) (r : kres) (l h : list nat) : Prop := {
  cache_ring : ring (bufs r) l;
  cache_bufs : ∀ b x, (b < NBUF)%nat → bufs r !! b = Some x → buf_ok (length (memdisk r)) x;
  cache_clean : ∀ b x, (b < NBUF)%nat → b ∉ h → bufs r !! b = Some x → clean (memdisk r) x;
  cache_uniq : ∀ a b x y, (a < NBUF)%nat → (b < NBUF)%nat → bufs r !! a = Some x → bufs r !! b = Some y →
    bdev x = 1 → bdev y = 1 → blockno x = blockno y → a = b;
  cache_disk : ∀ n d, memdisk r !! n = Some d → length d = Z.to_nat BSIZE;
  cache_refs : ∀ b x, (b < NBUF)%nat → bufs r !! b = Some x → refcnt x = if decide (b ∈ h) then 1 else 0;
  cache_locks : ∀ b, (b < NBUF)%nat → ∃ k, slocks r !! buf_lock b = Some k ∧
    if decide (b ∈ h) then sl_locked k = 1 ∧ sl_pid k = me else sl_locked k = 0;
  cache_mine : ∀ b, b ∈ h → (b < NBUF)%nat ∧ ∃ x, bufs r !! b = Some x ∧ bdev x = 1 }.

(** The disk as seen through the cache. *)
Definition view (r : kres) (n : Z) : option (list Z) :=
  match pick (bufs r) (cached 1 n) (seq 0 NBUF) with
  | Some b => bdata <$> bufs r !! b
  | None => memdisk r !! Z.to_nat n
  end.

(** Buffer [b] holds block [n]. *)
Definition holds (r : kres) (b : nat) (n : Z) (x : buf) : Prop :=
  (b < NBUF)%nat ∧ bufs r !! b = Some x ∧ bdev x = 1 ∧ blockno x = n.

Lemma cached_true n x : cached 1 n x = true ↔ bdev x = 1 ∧ blockno x = n.
Proof. unfold cached. rewrite andb_true_iff, !Z.eqb_eq. done. Qed.

Section invariant.
Context {me : Z} {r : kres} {l h : list nat} (Hok : cache_ok me r l h).

Lemma cache_lookup b : (b < NBUF)%nat → is_Some (bufs r !! b).
Proof. intros. apply (ring_is_Some (cache_ring _ _ _ _ Hok)). lia. Qed.

(** Any order of the buffers finds the same one. *)
Lemma pick_cached m n b x :
  m ≡ₚ seq 0 NBUF → holds r b n x → pick (bufs r) (cached 1 n) m = Some b.
Proof.
  intros Hm (Hb & Hx & Hd & Hn).
  assert (∀ c, c ∈ m → is_Some (bufs r !! c)) as Hin.
  { intros c Hc. rewrite Hm in Hc. apply elem_of_seq in Hc. apply cache_lookup. lia. }
  destruct (pick (bufs r) (cached 1 n) m) as [c|] eqn:Hp.
  - apply pick_Some in Hp as (Hc & y & Hy & [Hyd Hyn]%cached_true). rewrite Hm in Hc. apply elem_of_seq in Hc.
    f_equal. eapply (cache_uniq _ _ _ _ Hok); eauto; [lia|congruence].
  - assert (cached 1 n x = false) as Hf.
    { eapply pick_None; [exact Hin|exact Hp| |exact Hx]. rewrite Hm. apply elem_of_seq. lia. }
    exfalso. assert (cached 1 n x = true) by (by apply cached_true). congruence.
Qed.

Lemma pick_uncached m n :
  m ≡ₚ seq 0 NBUF → (∀ b x, ¬ holds r b n x) → pick (bufs r) (cached 1 n) m = None.
Proof.
  intros Hm Hno. destruct (pick (bufs r) (cached 1 n) m) as [c|] eqn:Hp; [|done].
  apply pick_Some in Hp as (Hc & y & Hy & [Hyd Hyn]%cached_true). rewrite Hm in Hc. apply elem_of_seq in Hc.
  exfalso. apply (Hno c y). split; [lia|done].
Qed.

Lemma view_cached b n x : holds r b n x → view r n = Some (bdata x).
Proof.
  intros Hh. unfold view. rewrite (pick_cached _ _ _ _ (reflexivity _) Hh).
  destruct Hh as (_ & -> & _). done.
Qed.

Lemma view_uncached n : (∀ b x, ¬ holds r b n x) → view r n = memdisk r !! Z.to_nat n.
Proof. intros Hno. unfold view. by rewrite (pick_uncached _ _ (reflexivity _) Hno). Qed.

Lemma holds_dec n : (∃ b x, holds r b n x) ∨ (∀ b x, ¬ holds r b n x).
Proof.
  destruct (pick (bufs r) (cached 1 n) (seq 0 NBUF)) as [b|] eqn:Hp.
  - left. apply pick_Some in Hp as (Hc & y & Hy & [Hyd Hyn]%cached_true). apply elem_of_seq in Hc.
    exists b, y. split; [lia|done].
  - right. intros b x Hh. rewrite (pick_cached _ _ _ _ (reflexivity _) Hh) in Hp. done.
Qed.
End invariant.

(** ** Steps of the routines *)

Definition with_buf (b : nat) (x : buf) (r : kres) : kres := r <| bufs := <[b := x]> (bufs r) |>.
Definition with_sl (b : nat) (k : sleeplock) (r : kres) : kres :=
  r <| slocks := <[buf_lock b := k]> (slocks r) |>.

Lemma alter_as_insert {A} (f : A → A) i (m : list A) x : m !! i = Some x → alter f i m = <[i := f x]> m.
Proof.
  intros Hx. apply list_eq. intros j. rewrite list_lookup_alter, list_lookup_insert.
  pose proof (lookup_lt_Some _ _ _ Hx). case_decide; subst; [|by rewrite decide_False by tauto].
  rewrite Hx. by rewrite decide_True.
Qed.

Lemma with_buf_with_buf b x y r : with_buf b y (with_buf b x r) = with_buf b y r.
Proof. unfold with_buf. simpl. by rewrite list_insert_insert_eq. Qed.
Lemma with_buf_with_sl b x a k r : with_buf b x (with_sl a k r) = with_sl a k (with_buf b x r).
Proof. reflexivity. Qed.

Lemma lookup_with_buf b x r : is_Some (bufs r !! b) → bufs (with_buf b x r) !! b = Some x.
Proof. intros H. apply list_lookup_insert_eq. by apply lookup_lt_is_Some. Qed.
Lemma lookup_with_buf_ne b c x r : b ≠ c → bufs (with_buf b x r) !! c = bufs r !! c.
Proof. intros. by apply list_lookup_insert_ne. Qed.

Lemma linked_with_buf bs b x y a l :
  bs !! b = Some x → bnext y = bnext x → bprev y = bprev x → linked bs a l → linked (<[b := y]> bs) a l.
Proof.
  intros Hx Hn Hp Hl k c d Hc Hd. destruct (Hl k c d Hc Hd) as [H1 H2].
  pose proof (lookup_lt_Some _ _ _ Hx). split; rewrite list_lookup_insert; case_decide as E; try done;
    destruct E as [-> _]; rewrite Hx in *; simpl in *; congruence.
Qed.

Lemma ring_with_buf bs b x y l :
  bs !! b = Some x → bnext y = bnext x → bprev y = bprev x → ring bs l → ring (<[b := y]> bs) l.
Proof.
  intros Hx Hn Hp [Hlen Hperm Hl]. split; [by rewrite length_insert|done|by eapply linked_with_buf].
Qed.

Section steps.
Context {FU : Fuel}.
Context {s : kstate} {c p : nat} {u : cpu} {q : proc} (Hsolo : solo s c p u q).

Lemma buf_get_ret b x st : bufs (res st) !! b = Some x → buf_get b st = Ret x st.
Proof. intros H. unfold buf_get, try_get. by rewrite H. Qed.

Lemma buf_set_solo b f x r :
  bufs r !! b = Some x → buf_set b f (with_res s r) = Ret tt (with_res s (with_buf b (f x) r)).
Proof.
  intros Hx. unfold buf_set, rmod, modify, with_buf. rewrite <- (alter_as_insert f _ _ _ Hx). reflexivity.
Qed.
Lemma buf_set_inside b f x lk r :
  bufs r !! b = Some x →
  buf_set b f (inside c lk (with_res s r)) = Ret tt (inside c lk (with_res s (with_buf b (f x) r))).
Proof.
  intros Hx. unfold buf_set, rmod, modify, with_buf. rewrite <- (alter_as_insert f _ _ _ Hx). reflexivity.
Qed.

Lemma gmap_alter_insert {A} (f : A → A) i (m : gmap Z A) x : m !! i = Some x → alter f i m = <[i := f x]> m.
Proof.
  intros Hx. apply map_eq. intros j. rewrite lookup_alter, lookup_insert. case_decide; subst; [|done].
  by rewrite Hx.
Qed.

Lemma klock_bcache : klock bcache_lock.
Proof. unfold klock. tauto. Qed.

Lemma acquire_buf b k r :
  (b < NBUF)%nat → slocks r !! buf_lock b = Some k → sl_locked k = 0 →
  acquiresleep (buf_lock b) (with_res s r) = Ret tt (with_res s (with_sl b (hold (pid q) k) r)).
Proof.
  intros Hb Hk H0. rewrite (acquiresleep_solo Hsolo _ r k) by (by try apply klock_buf).
  unfold with_sl. rewrite <- (gmap_alter_insert _ _ _ _ Hk). reflexivity.
Qed.

Lemma release_buf b k r :
  (b < NBUF)%nat → slocks r !! buf_lock b = Some k →
  releasesleep (buf_lock b) (with_res s r) = Ret tt (with_res s (with_sl b (drop_sl k) r)).
Proof.
  intros Hb Hk. rewrite (releasesleep_solo Hsolo).
  - unfold with_sl. rewrite <- (gmap_alter_insert _ _ _ _ Hk). reflexivity.
  - by apply klock_buf.
  - unfold sl_spin, buf_lock, ptable_lock. lia.
Qed.

Lemma holding_buf b k r :
  (b < NBUF)%nat → slocks r !! buf_lock b = Some k → sl_locked k = 1 → sl_pid k = pid q →
  holdingsleep (buf_lock b) (with_res s r) = Ret true (with_res s r).
Proof.
  intros Hb Hk H1 Hp. rewrite (holdingsleep_solo Hsolo _ r k) by (by try apply klock_buf).
  by rewrite H1, Hp, Z.eqb_refl.
Qed.

(** *** The disk in memory *)

Definition written (b : nat) (x : buf) (r : kres) : kres :=
  (with_buf b (x <| bflags := B_VALID |>) r) <| memdisk := <[Z.to_nat (blockno x) := bdata x]> (memdisk r) |>
    <| writes := writes r ++ [(blockno x, bdata x)] |>.

Lemma iderw_write b x k r :
  (b < NBUF)%nat → bufs r !! b = Some x → slocks r !! buf_lock b = Some k → sl_locked k = 1 → sl_pid k = pid q →
  bdev x = 1 → 0 ≤ blockno x < Z.of_nat (length (memdisk r)) → bflags x = Z.lor B_VALID B_DIRTY →
  memide_iderw b (with_res s r) = Ret tt (with_res s (written b x r)).
Proof.
  intros Hb Hx Hk H1 Hp Hd Hn Hf. unfold memide_iderw.
  rewrite (bind_ret _ _ _ _ _ (holding_buf b k r Hb Hk H1 Hp)). cbn [negb].
  rewrite (bind_ret _ _ _ _ _ (buf_get_ret b x (with_res s r) Hx)).
  unfold not_to_do. rewrite Hf, Hd.
  change (Z.land (Z.lor B_VALID B_DIRTY) (Z.lor B_VALID B_DIRTY) =? B_VALID) with false.
  change (negb (Z.land (Z.lor B_VALID B_DIRTY) B_DIRTY =? 0)) with true.
  change (negb (1 =? 1)) with false. cbv iota.
  erewrite bind_ret by reflexivity. cbn beta. rewrite (proj2 (Z.leb_gt _ _)) by (simpl; lia).
  rewrite (bind_ret _ _ _ tt (with_res s ((with_buf b (x <| bflags := B_VALID |>) r)
     <| memdisk := <[Z.to_nat (blockno x) := bdata x]> (memdisk r) |>
     <| writes := writes r ++ [(blockno x, bdata x)] |>))).
  - set (r2 := _ <| writes := _ |>). rewrite (buf_set_solo b _ (x <| bflags := B_VALID |>) r2).
    + unfold r2, written, with_buf. cbn. by rewrite list_insert_insert_eq.
    + apply list_lookup_insert_eq. by apply lookup_lt_is_Some.
  - rewrite (bind_ret _ _ _ _ _ (buf_set_solo b _ x r Hx)).
    assert (x <| bflags ::= fun f => Z.ldiff f B_DIRTY |> = x <| bflags := B_VALID |>) as -> by (cbn; by rewrite Hf).
    reflexivity.
Qed.

Definition filled (b : nat) (x : buf) (d : list Z) (r : kres) : kres :=
  with_buf b (x <| bdata := d |> <| bflags := B_VALID |>) r.

Lemma iderw_read b x k r d :
  (b < NBUF)%nat → bufs r !! b = Some x → slocks r !! buf_lock b = Some k → sl_locked k = 1 → sl_pid k = pid q →
  bdev x = 1 → 0 ≤ blockno x < Z.of_nat (length (memdisk r)) → bflags x = 0 →
  memdisk r !! Z.to_nat (blockno x) = Some d →
  memide_iderw b (with_res s r) = Ret tt (with_res s (filled b x d r)).
Proof.
  intros Hb Hx Hk H1 Hp Hd Hn Hf Hdisk. unfold memide_iderw.
  rewrite (bind_ret _ _ _ _ _ (holding_buf b k r Hb Hk H1 Hp)). cbn [negb].
  rewrite (bind_ret _ _ _ _ _ (buf_get_ret b x (with_res s r) Hx)).
  unfold not_to_do. rewrite Hf, Hd.
  change (Z.land 0 (Z.lor B_VALID B_DIRTY) =? B_VALID) with false.
  change (negb (Z.land 0 B_DIRTY =? 0)) with false.
  change (negb (1 =? 1)) with false. cbv iota.
  erewrite bind_ret by reflexivity. cbn beta. rewrite (proj2 (Z.leb_gt _ _)) by (simpl; lia).
  rewrite (bind_ret _ _ _ tt (with_res s (with_buf b (x <| bdata := d |>) r))).
  - rewrite (buf_set_solo b _ (x <| bdata := d |>)) by (apply lookup_with_buf; eauto).
    rewrite with_buf_with_buf. unfold filled. cbn. by rewrite Hf.
  - rewrite (bind_ret _ _ _ d (with_res s r)) by (unfold try_get; cbn; by rewrite Hdisk).
    apply (buf_set_solo b _ x r Hx).
Qed.
End steps.

(** ** Reading a block *)

Definition B_BOTH : Z := Z.lor B_VALID B_DIRTY.

(** Block [n] is in the cache and waits to be written. *)
Definition dirty (r : kres) (n : Z) : Prop := ∃ b x, holds r b n x ∧ bflags x = B_BOTH.

(** Some buffer can be recycled. *)
Definition available (r : kres) : Prop := ∃ b x, (b < NBUF)%nat ∧ bufs r !! b = Some x ∧ unused x = true.

Section claim.
Context {me : Z} {r : kres} {l h : list nat} {b : nat} {x y : buf} {k : sleeplock}.
Context (Hok : cache_ok me r l h) (Hb : (b < NBUF)%nat) (Hnh : b ∉ h) (Hx : bufs r !! b = Some x).
Context (Hnext : bnext y = bnext x) (Hprev : bprev y = bprev x) (Href : refcnt y = 1).
Context (Hdev : bdev y = 1) (Hy : buf_ok (length (memdisk r)) y).
Context (Huniq : ∀ b' z, b' ≠ b → ¬ holds r b' (blockno y) z).
Context (Hk1 : sl_locked k = 1) (Hk2 : sl_pid k = me).

Let r' := with_sl b k (with_buf b y r).

Lemma claim_lookup b' z :
  bufs r' !! b' = Some z → (b' = b ∧ z = y) ∨ (b' ≠ b ∧ bufs r !! b' = Some z).
Proof.
  unfold r', with_sl. cbn. rewrite list_lookup_insert. pose proof (lookup_lt_Some _ _ _ Hx).
  case_decide as E; [intros [= <-]; left; naive_solver|]. intros Hz. right. split; [|done]. intros ->. tauto.
Qed.

Lemma claim_ok : cache_ok me r' l (b :: h).
Proof.
  pose proof Hok as [H1 H2 H3 H4 H5 H6 H7 H8]. split.
  - by eapply ring_with_buf.
  - intros b' z Hb' [[-> ->]|[_ Hz]]%claim_lookup; [done|by eapply H2].
  - intros b' z Hb' Hn [[-> ->]|[_ Hz]]%claim_lookup; [set_solver|]. eapply (H3 b'); [done|set_solver|done].
  - intros a1 a2 z1 z2 Ha1 Ha2 Hz1 Hz2 Hd1 Hd2 Hn.
    apply claim_lookup in Hz1 as [[-> ->]|[Hne1 Hz1]]; apply claim_lookup in Hz2 as [[-> ->]|[Hne2 Hz2]].
    + done.
    + exfalso. apply (Huniq a2 z2 Hne2). by repeat split.
    + exfalso. apply (Huniq a1 z1 Hne1). by repeat split.
    + by eapply H4.
  - done.
  - intros b' z Hb' [[-> ->]|[Hne Hz]]%claim_lookup.
    + by rewrite decide_True by set_solver.
    + rewrite (H6 b' z Hb' Hz). destruct (decide (b' ∈ h)); [by rewrite decide_True by set_solver|].
      by rewrite decide_False by set_solver.
  - intros b' Hb'. unfold r', with_sl. cbn. destruct (decide (b' = b)) as [->|Hne].
    + exists k. rewrite lookup_insert_eq. split; [done|]. by rewrite decide_True by set_solver.
    + rewrite lookup_insert_ne by (unfold buf_lock; lia). destruct (H7 b' Hb') as (k' & Hk' & Hc).
      exists k'. split; [done|]. destruct (decide (b' ∈ h)); [by rewrite decide_True by set_solver|].
      by rewrite decide_False by set_solver.
  - intros b' [->|Hb']%elem_of_cons.
    + split; [done|]. exists y. split; [|done]. apply lookup_with_buf. eauto.
    + destruct (H8 b' Hb') as (? & z & Hz & ?). split; [done|]. exists z. split; [|done].
      unfold r', with_sl. cbn. rewrite list_lookup_insert_ne; [done|]. by intros ->.
Qed.

(** The view does not change when the buffer gets the data of the view and
    what it held before is on the disk. *)
Lemma claim_view n :
  view r (blockno y) = Some (bdata y) → (bdev x = 1 → blockno x ≠ blockno y → clean (memdisk r) x ∧ bflags x = B_VALID) →
  view r' n = view r n.
Proof.
  intros Hv Hclean.
  assert (∀ b' m z, b' ≠ b → holds r' b' m z ↔ holds r b' m z) as Hoth.
  { intros b' m z Hne. unfold holds, r', with_sl. cbn. by rewrite list_lookup_insert_ne. }
  assert (holds r' b (blockno y) y) as Hby by (split_and!; [done|apply lookup_with_buf; eauto|done|done]).
  destruct (decide (n = blockno y)) as [->|Hne]; [by rewrite Hv, (view_cached claim_ok _ _ _ Hby)|].
  destruct (holds_dec Hok n) as [(b' & z & Hz)|Hno].
  - rewrite (view_cached Hok _ _ _ Hz). destruct (decide (b' = b)) as [->|Hb'].
    + destruct Hz as (_ & Hz & Hd & Hn). rewrite Hx in Hz. injection Hz as <-. subst n.
      destruct (Hclean Hd Hne) as [Hcl Hf]. rewrite <- (Hcl Hd Hf).
      rewrite view_uncached; [done|]. intros b' z Hz. destruct (decide (b' = b)) as [->|Hb'].
      * destruct Hz as (_ & Hz & _ & Hn). apply claim_lookup in Hz as [[_ ->]|[[] _]]; [congruence|done].
      * apply Hoth in Hz as Hz'; [|done]. apply Hb'.
        eapply (cache_uniq _ _ _ _ Hok); [apply Hz'|done|apply Hz'|done|apply Hz'|done|]. by destruct Hz' as (_&_&_&->).
    + apply (view_cached claim_ok b'). by apply Hoth.
  - rewrite (view_uncached _ Hno).
    change (view r' n = memdisk r' !! Z.to_nat n). apply view_uncached. intros b' z Hz.
    destruct (decide (b' = b)) as [->|Hb']; [|by apply (Hno b' z), Hoth].
    destruct Hz as (_ & Hz & _ & Hn). apply claim_lookup in Hz as [[_ ->]|[[] _]]; [congruence|done].
Qed.

Lemma claim_dirty n :
  (bflags y = B_BOTH ↔ bdev x = 1 ∧ blockno x = blockno y ∧ bflags x = B_BOTH) →
  (bdev x = 1 → bflags x = B_BOTH → blockno x = blockno y) →
  dirty r' n ↔ dirty r n.
Proof.
  intros H1 H2. unfold dirty. split.
  - intros (b' & z & (Hb' & Hz & Hd & Hn) & Hf). apply claim_lookup in Hz as [[-> ->]|[Hne Hz]].
    + apply H1 in Hf as (? & ? & ?). exists b, x. split; [|done]. repeat split; try done. congruence.
    + exists b', z. by repeat split.
  - intros (b' & z & (Hb' & Hz & Hd & Hn) & Hf). destruct (decide (b' = b)) as [->|Hne].
    + rewrite Hx in Hz. injection Hz as <-. exists b, y. split; [|by apply H1; auto].
      split_and!; [done|apply lookup_with_buf; eauto|done|]. rewrite <- Hn. symmetry. auto.
    + exists b', z. split; [|done]. unfold holds, r', with_sl. cbn. by rewrite list_lookup_insert_ne.
Qed.
End claim.

(** ** Changing a held buffer *)

Record same_id (x y : buf) : Prop := {
  sid_next : bnext y = bnext x; sid_prev : bprev y = bprev x; sid_ref : refcnt y = refcnt x;
  sid_dev : bdev y = bdev x; sid_block : blockno y = blockno x }.

Section held.
Context {me : Z} {r r' : kres} {l h : list nat} {b : nat} {x y : buf}.
Context (Hok : cache_ok me r l h) (Hin : b ∈ h) (Hx : bufs r !! b = Some x) (Hid : same_id x y).
Context (Hy : buf_ok (length (memdisk r)) y).
Context (Hbufs : bufs r' = <[b := y]> (bufs r)) (Hslocks : slocks r' = slocks r).
Context (Hlen : length (memdisk r') = length (memdisk r)).
Context (Hdisk : ∀ n, n ≠ Z.to_nat (blockno x) → memdisk r' !! n = memdisk r !! n).
Context (Hsize : ∀ d, memdisk r' !! Z.to_nat (blockno x) = Some d → length d = Z.to_nat BSIZE).

Lemma held_lookup b' z : bufs r' !! b' = Some z → (b' = b ∧ z = y) ∨ (b' ≠ b ∧ bufs r !! b' = Some z).
Proof.
  rewrite Hbufs, list_lookup_insert. pose proof (lookup_lt_Some _ _ _ Hx).
  case_decide as E; [intros [= <-]; left; naive_solver|]. intros Hz. right. split; [|done]. intros ->. tauto.
Qed.

Lemma held_new : bufs r' !! b = Some y.
Proof. rewrite Hbufs. apply list_lookup_insert_eq. by apply lookup_lt_Some in Hx. Qed.

Lemma held_old b' : b' ≠ b → bufs r' !! b' = bufs r !! b'.
Proof. intros. rewrite Hbufs. by rewrite list_lookup_insert_ne. Qed.

Lemma held_mine : (b < NBUF)%nat ∧ bdev x = 1.
Proof. destruct (cache_mine _ _ _ _ Hok b Hin) as (? & x' & Hx' & ?). split; [done|congruence]. Qed.

(** No other buffer has the block. *)
Lemma held_uniq b' z : (b' < NBUF)%nat → b' ≠ b → bufs r !! b' = Some z → bdev z = 1 →
  0 ≤ blockno z ∧ Z.to_nat (blockno z) ≠ Z.to_nat (blockno x).
Proof using Hok Hin Hx.
  clear Hlen.
  intros Hb' Hne Hz Hdz. destruct held_mine as [Hb Hd].
  destruct (bok_used _ _ (cache_bufs _ _ _ _ Hok b' z Hb' Hz) Hdz) as [Hn _].
  destruct (bok_used _ _ (cache_bufs _ _ _ _ Hok b x Hb Hx) Hd) as [Hn' _].
  split; [lia|]. intros E. apply Hne. eapply (cache_uniq _ _ _ _ Hok); eauto. lia.
Qed.

Lemma held_ok : cache_ok me r' l h.
Proof.
  pose proof Hok as [H1 H2 H3 H4 H5 H6 H7 H8]. pose proof Hid as [E1 E2 E3 E4 E5]. split.
  - rewrite Hbufs. by eapply ring_with_buf.
  - rewrite Hlen. intros b' z Hb' [[-> ->]|[_ Hz]]%held_lookup; [done|by eapply H2].
  - intros b' z Hb' Hn [[-> ->]|[Hne Hz]]%held_lookup; [done|].
    intros Hd Hf. rewrite Hdisk; [by eapply H3|]. by eapply held_uniq.
  - assert (∀ a z, bufs r' !! a = Some z → ∃ w, bufs r !! a = Some w ∧ bdev w = bdev z ∧ blockno w = blockno z) as Hw.
    { intros a z [[-> ->]|[_ Hz]]%held_lookup; [|by eauto]. exists x. by rewrite E4, E5. }
    intros a1 a2 z1 z2 Ha1 Ha2 (w1 & Hw1 & Hd1 & Hn1)%Hw (w2 & Hw2 & Hd2 & Hn2)%Hw ???.
    eapply (H4 a1 a2 w1 w2); eauto; congruence.
  - intros n d Hd. destruct (decide (n = Z.to_nat (blockno x))) as [->|Hne]; [by apply Hsize|].
    rewrite Hdisk in Hd by done. by eapply H5.
  - intros b' z Hb' [[-> ->]|[_ Hz]]%held_lookup; [|by eapply H6]. rewrite E3. by eapply H6.
  - by rewrite Hslocks.
  - intros b' Hb'. destruct (H8 b' Hb') as (? & z & Hz & ?). split; [done|].
    destruct (decide (b' = b)) as [->|Hne]; [exists y|exists z].
    + split; [apply held_new|]. rewrite E4. apply held_mine.
    + by rewrite held_old.
Qed.

Lemma held_holds : holds r' b (blockno x) y.
Proof. destruct held_mine. split_and!; [done|apply held_new|by rewrite (sid_dev _ _ Hid)|by rewrite (sid_block _ _ Hid)]. Qed.

Lemma held_view n : 0 ≤ n → view r' n = if decide (n = blockno x) then Some (bdata y) else view r n.
Proof.
  intros Hn0. case_decide as Hn; [subst; apply (view_cached held_ok b), held_holds|].
  assert (∀ b' z, holds r' b' n z ↔ holds r b' n z) as Heq.
  { intros b' z. unfold holds. destruct (decide (b' = b)) as [->|Hne]; [|by rewrite held_old].
    rewrite held_new, Hx. pose proof (sid_block _ _ Hid). naive_solver. }
  destruct (holds_dec Hok n) as [(b' & z & Hz)|Hno].
  - rewrite (view_cached Hok _ _ _ Hz). by apply (view_cached held_ok b'), Heq.
  - rewrite (view_uncached _ Hno). rewrite (view_uncached (r := r')).
    + apply Hdisk. destruct held_mine as [Hb Hd].
      destruct (bok_used _ _ (cache_bufs _ _ _ _ Hok b x Hb Hx) Hd). lia.
    + intros b' z Hz%Heq. by eapply Hno.
Qed.

Lemma held_dirty n : dirty r' n ↔ if decide (n = blockno x) then bflags y = B_BOTH else dirty r n.
Proof.
  unfold dirty. case_decide as Hn.
  - split; [|exists b, y; split; [subst; apply held_holds|done]].
    intros (b' & z & (Hb' & Hz & Hd & Hbn) & Hf). apply held_lookup in Hz as [[-> ->]|[Hne Hz]]; [done|].
    destruct (held_uniq b' z Hb' Hne Hz Hd). congruence.
  - assert (∀ b' z, holds r' b' n z ↔ holds r b' n z) as Heq; [|by setoid_rewrite Heq].
    intros b' z. unfold holds. destruct (decide (b' = b)) as [->|Hne]; [|by rewrite held_old].
    rewrite held_new, Hx. pose proof (sid_block _ _ Hid). naive_solver.
Qed.

Lemma held_mod :
  cache_ok me r' l h ∧
  (∀ n, 0 ≤ n → view r' n = if decide (n = blockno x) then Some (bdata y) else view r n) ∧
  (∀ n, dirty r' n ↔ if decide (n = blockno x) then bflags y = B_BOTH else dirty r n).
Proof using Hok Hin Hx Hid Hy Hbufs Hslocks Hlen Hdisk Hsize.
  split_and!; [apply held_ok|apply held_view|apply held_dirty].
Qed.
End held.

(** ** Giving a buffer back *)


Definition block_of (r : kres) (b : nat) : Z := default 0 (blockno <$> bufs r !! b).

(** A buffer is free for use when fewer than NBUF are held or dirty. *)
Lemma available_count me r l h ns :
  cache_ok me r l h → (∀ m, dirty r m → m ∈ ns) → (length ns + length h < NBUF)%nat → available r.
Proof.
  intros Hok Hns Hlen. set (free := filter (.∉ h) (seq 0 NBUF)).
  assert (NBUF ≤ length h + length free)%nat as Hcount.
  { change NBUF with (length (seq 0 NBUF)) at 1. rewrite <- length_app. apply submseteq_length, NoDup_submseteq; [apply NoDup_seq|].
    intros b Hb. apply elem_of_app. destruct (decide (b ∈ h)); [by left|right]. by apply list_elem_of_filter. }
  destruct (pick (bufs r) unused free) as [b|] eqn:Hp.
  { apply pick_Some in Hp as ((_ & Hb%elem_of_seq)%list_elem_of_filter & x & Hx & Hu). exists b, x. split; [lia|done]. }
  assert (∀ b, b ∈ free → b ∉ h ∧ (b < NBUF)%nat) as Hfree.
  { intros b (? & Hb%elem_of_seq)%list_elem_of_filter. split; [done|lia]. }
  assert (∀ b, b ∈ free → ∃ x, bufs r !! b = Some x ∧ bdev x = 1 ∧ bflags x = B_BOTH) as Hd.
  { intros b Hbf. destruct (Hfree b Hbf) as [Hnh Hb]. destruct (cache_lookup Hok b Hb) as [x Hx].
    assert (unused x = false) as Hu.
    { eapply pick_None; [|exact Hp|exact Hbf|exact Hx]. intros e He. by apply (cache_lookup Hok), Hfree. }
    pose proof (cache_refs _ _ _ _ Hok b x Hb Hx) as Hr. rewrite decide_False in Hr by done.
    exists x. split; [done|]. destruct (cache_bufs _ _ _ _ Hok b x Hb Hx) as [_ H1 H2]. unfold unused in Hu. rewrite Hr in Hu.
    destruct (decide (bdev x = 1)) as [Hdv|Hdv]; [|rewrite (H2 Hdv) in Hu; done].
    destruct (H1 Hdv) as [_ [Hf|Hf]]; [rewrite Hf in Hu; done|done]. }
  assert (block_of r <$> free ⊆+ ns) as Hsub%submseteq_length; [|rewrite length_fmap in Hsub; lia].
  apply NoDup_submseteq.
  - apply NoDup_fmap_2_strong; [|by apply NoDup_filter, NoDup_seq]. intros a b Ha Hb E.
    destruct (Hd a Ha) as (x & Hx & Hdx & _), (Hd b Hb) as (y & Hy & Hdy & _).
    unfold block_of in E. rewrite Hx, Hy in E. eapply (cache_uniq _ _ _ _ Hok a b); try done; by apply Hfree.
  - intros m (b & -> & Hb)%list_elem_of_fmap. apply Hns. destruct (Hd b Hb) as (x & Hx & Hdx & Hf).
    exists b, x. split; [|done]. unfold block_of. rewrite Hx. by split_and!; [apply Hfree|..].
Qed.

Section relink.
Context {me : Z} {r : kres} {l h : list nat} (Hok : cache_ok me r l h).
Context {bs : list buf} {l' : list nat} (Hrel : relinked (bufs r) bs) (Hring : ring bs l').
Let r' := r <| bufs := bs |>.

Lemma relink_holds b n y : holds r' b n y → ∃ x, holds r b n x ∧ same_but_links x y.
Proof.
  intros (Hb & Hy & Hd & Hn). destruct (relinked_lookup_r _ _ _ _ Hrel Hy) as (x & Hx & Hs).
  exists x. split; [|done]. destruct (same_fields _ _ Hs) as (? & ? & ? & ? & ?). split_and!; [done|done|congruence|congruence].
Qed.
Lemma relink_holds_r b n x : holds r b n x → ∃ y, holds r' b n y ∧ same_but_links x y.
Proof.
  intros (Hb & Hx & Hd & Hn). destruct (relinked_lookup _ _ _ _ Hrel Hx) as (y & Hy & Hs).
  exists y. split; [|done]. destruct (same_fields _ _ Hs) as (? & ? & ? & ? & ?). split_and!; [done|done|congruence|congruence].
Qed.

Lemma relink_ok : cache_ok me r' l' h.
Proof.
  pose proof Hok as [H1 H2 H3 H4 H5 H6 H7 H8].
  assert (∀ b y, bufs r' !! b = Some y → ∃ x, bufs r !! b = Some x ∧ same_but_links x y) as Hl
    by (intros b y; by apply relinked_lookup_r).
  split; try done.
  - intros b y Hb (x & Hx & (E1 & E2 & E3 & E4 & E5)%same_fields)%Hl. destruct (H2 b x Hb Hx) as [A1 A2 A3].
    split; rewrite <- ?E1, <- ?E2, <- ?E3, <- ?E4, <- ?E5; done.
  - intros b y Hb Hn (x & Hx & (E1 & E2 & E3 & E4 & E5)%same_fields)%Hl. unfold clean.
    rewrite <- ?E1, <- ?E2, <- ?E3, <- ?E4, <- ?E5. by apply (H3 b).
  - intros a b y z Ha Hb (x & Hx & (E1 & E2 & E3 & E4 & E5)%same_fields)%Hl (w & Hw & (F1 & F2 & F3 & F4 & F5)%same_fields)%Hl ???.
    eapply (H4 a b x w); eauto; congruence.
  - intros b y Hb (x & Hx & (E1 & E2 & E3 & E4 & E5)%same_fields)%Hl. rewrite <- (H6 b x Hb Hx). congruence.
  - intros b Hb. destruct (H8 b Hb) as (? & x & Hx & ?). split; [done|].
    destruct (relinked_lookup _ _ _ _ Hrel Hx) as (y & Hy & (E1 & E2 & E3 & E4 & E5)%same_fields). exists y. split; [done|congruence].
Qed.

Lemma relink_view n : view r' n = view r n.
Proof.
  destruct (holds_dec Hok n) as [(b & x & Hx)|Hno].
  - rewrite (view_cached Hok _ _ _ Hx). destruct (relink_holds_r _ _ _ Hx) as (y & Hy & (E1 & E2 & E3 & E4 & E5)%same_fields).
    rewrite (view_cached relink_ok _ _ _ Hy). congruence.
  - rewrite (view_uncached _ Hno). change (view r' n = memdisk r' !! Z.to_nat n). apply view_uncached.
    intros b y (x & Hx & _)%relink_holds. by eapply Hno.
Qed.

Lemma relink_dirty n : dirty r' n ↔ dirty r n.
Proof.
  split.
  - intros (b & y & (x & Hx & (E1 & E2 & E3 & E4 & E5)%same_fields)%relink_holds & Hf). exists b, x. split; [done|congruence].
  - intros (b & x & (y & Hy & (E1 & E2 & E3 & E4 & E5)%same_fields)%relink_holds_r & Hf). exists b, y. split; [done|congruence].
Qed.
End relink.

Section drop.
Context {me : Z} {r : kres} {l h h' : list nat} {b : nat} {x : buf} {k : sleeplock}.
Context (Hok : cache_ok me r l h) (Hin : b ∈ h) (Hx : bufs r !! b = Some x) (Hcl : clean (memdisk r) x).
Context (Hh : ∀ c, c ∈ h' ↔ c ∈ h ∧ c ≠ b).
Let r' := with_sl b (drop_sl k) (with_buf b (x <| refcnt := 0 |>) r).

Lemma drop_lookup b' z :
  bufs r' !! b' = Some z → (b' = b ∧ z = x <| refcnt := 0 |>) ∨ (b' ≠ b ∧ bufs r !! b' = Some z).
Proof.
  unfold r', with_sl. cbn. rewrite list_lookup_insert. pose proof (lookup_lt_Some _ _ _ Hx).
  case_decide as E; [intros [= <-]; left; naive_solver|]. intros Hz. right. split; [|done]. intros ->. tauto.
Qed.

Lemma drop_old b' z : bufs r' !! b' = Some z → ∃ w, bufs r !! b' = Some w ∧
  bdev z = bdev w ∧ blockno z = blockno w ∧ bflags z = bflags w ∧ bdata z = bdata w.
Proof. intros [[-> ->]|[_ Hz]]%drop_lookup; [by exists x|by exists z]. Qed.
Lemma drop_new b' w : bufs r !! b' = Some w → ∃ z, bufs r' !! b' = Some z ∧
  bdev z = bdev w ∧ blockno z = blockno w ∧ bflags z = bflags w ∧ bdata z = bdata w.
Proof.
  intros Hw. destruct (decide (b' = b)) as [->|Hne].
  - exists (x <| refcnt := 0 |>). split; [apply lookup_with_buf; eauto|]. rewrite Hx in Hw. by injection Hw as <-.
  - exists w. split; [|done]. unfold r', with_sl. cbn. by rewrite list_lookup_insert_ne.
Qed.

Lemma drop_ok : cache_ok me r' l h'.
Proof.
  pose proof Hok as [H1 H2 H3 H4 H5 H6 H7 H8]. destruct (H8 b Hin) as [Hb _]. split.
  - by eapply ring_with_buf.
  - intros b' z Hb' (w & Hw & E1 & E2 & E3 & E4)%drop_old. destruct (H2 b' w Hb' Hw) as [A1 A2 A3].
    split; rewrite ?E1, ?E2, ?E3, ?E4; done.
  - intros b' z Hb' Hn [[-> ->]|[Hne Hz]]%drop_lookup; [done|]. apply (H3 b'); [done| |done]. rewrite Hh in Hn. tauto.
  - intros a1 a2 z1 z2 Ha1 Ha2 (w1 & Hw1 & E1 & E2 & _)%drop_old (w2 & Hw2 & F1 & F2 & _)%drop_old ???.
    eapply (H4 a1 a2 w1 w2); eauto; congruence.
  - done.
  - intros b' z Hb' [[-> ->]|[Hne Hz]]%drop_lookup.
    + rewrite decide_False; [done|]. rewrite Hh. tauto.
    + rewrite (H6 b' z Hb' Hz). apply decide_ext. rewrite Hh. tauto.
  - intros b' Hb'. unfold r', with_sl. cbn. destruct (decide (b' = b)) as [->|Hne].
    + exists (drop_sl k). rewrite lookup_insert_eq. split; [done|]. rewrite decide_False; [done|]. rewrite Hh. tauto.
    + rewrite lookup_insert_ne by (unfold buf_lock; lia). destruct (H7 b' Hb') as (k' & Hk' & Hc). exists k'.
      split; [done|]. destruct (decide (b' ∈ h)); [rewrite decide_True|rewrite decide_False]; rewrite ?Hh; tauto.
  - intros b' [Hb' Hne]%Hh. destruct (H8 b' Hb') as (? & z & Hz & ?). split; [done|]. exists z. split; [|done].
    unfold r', with_sl. cbn. by rewrite list_lookup_insert_ne.
Qed.

Lemma drop_view n : view r' n = view r n.
Proof.
  destruct (holds_dec Hok n) as [(b' & w & Hw)|Hno].
  - rewrite (view_cached Hok _ _ _ Hw). destruct Hw as (Hb' & Hw & Hd & Hn).
    destruct (drop_new b' w Hw) as (z & Hz & E1 & E2 & E3 & E4). rewrite <- E4. apply (view_cached drop_ok b').
    split_and!; [done|done|congruence|congruence].
  - rewrite (view_uncached _ Hno). change (view r' n = memdisk r' !! Z.to_nat n). apply view_uncached.
    intros b' z (Hb' & (w & Hw & E1 & E2 & _)%drop_old & Hd & Hn). apply (Hno b' w). split_and!; [done|done|congruence|congruence].
Qed.

Lemma drop_dirty n : dirty r' n ↔ dirty r n.
Proof.
  split; intros (b' & z & (Hb' & Hz & Hd & Hn) & Hf).
  - apply drop_old in Hz as (w & Hw & E1 & E2 & E3 & E4). exists b', w. split; [|congruence].
    split_and!; [done|done|congruence|congruence].
  - apply drop_new in Hz as (w & Hw & E1 & E2 & E3 & E4). exists b', w. split; [|congruence].
    split_and!; [done|done|congruence|congruence].
Qed.
End drop.

(** The sleep locks that are not those of buffers. *)
Definition other_locks (r r' : kres) : Prop := ∀ a, (∀ b, (b < NBUF)%nat → a ≠ buf_lock b) → slocks r' !! a = slocks r !! a.

Record bread_post (me : Z) (r : kres) (l h : list nat) (n : Z) (b : nat) (r' : kres) : Prop := {
  br_ok : cache_ok me r' l (b :: h);
  br_new : b ∉ h;
  br_buf : ∃ x, holds r' b n x ∧ view r n = Some (bdata x) ∧ clean (memdisk r) x;
  br_view : ∀ m, view r' m = view r m;
  br_dirty : ∀ m, dirty r' m ↔ dirty r m;
  br_frame : r' = r <| bufs := bufs r' |> <| slocks := slocks r' |>;
  br_others : ∀ c, c ≠ b → bufs r' !! c = bufs r !! c;
  br_locks : other_locks r r' }.

(** The disk is the one of memide.c. *)
Definition in_memory {FU : Fuel} (DK : Disk) : Prop := ∀ b, iderw b = memide_iderw b.

Section routines.
Context {FU : Fuel} {DK : Disk} (Hdisk : in_memory DK).
Context {s : kstate} {c p : nat} {u : cpu} {q : proc} (Hsolo : solo s c p u q).

Lemma ask_bufs_inside {A} (f : list buf → option A) lk r a :
  f (bufs r) = Some a → ask_bufs f (inside c lk (with_res s r)) = Ret a (inside c lk (with_res s r)).
Proof. intros H. unfold ask_bufs, try_get. cbn. by rewrite H. Qed.

Lemma on_bufs_inside f lk r bs :
  f (bufs r) = Some bs → on_bufs f (inside c lk (with_res s r)) = Ret tt (inside c lk (with_res s (r <| bufs := bs |>))).
Proof. intros H. unfold on_bufs, try_modify. cbn. rewrite H. reflexivity. Qed.

Section read.
Context {r : kres} {l h : list nat} (Hok : cache_ok (pid q) r l h).

Lemma bhead_lookup : ∃ hd, bufs r !! bhead = Some hd.
Proof. apply (ring_is_Some (cache_ring _ _ _ _ Hok)). done. Qed.

(** The end of [bget] on buffer [b], whose record becomes [y]. *)
Lemma bget_end b x y f k :
  (b < NBUF)%nat → bufs r !! b = Some x → f x = y → slocks r !! buf_lock b = Some k → sl_locked k = 0 →
  bind (buf_set b f) (fun _ => bind (unlock bcache_lock) (fun _ => bind (acquiresleep (buf_lock b)) (fun _ => ret b)))
    (inside c bcache_lock (with_res s r)) =
  Ret b (with_res s (with_sl b (hold (pid q) k) (with_buf b y r))).
Proof.
  intros Hb Hx <- Hk H0. rewrite (bind_ret _ _ _ _ _ (buf_set_inside b f x bcache_lock r Hx)).
  rewrite (bind_ret _ _ _ _ _ (unlock_solo Hsolo bcache_lock _ klock_bcache)).
  by rewrite (bind_ret _ _ _ _ _ (acquire_buf Hsolo b k (with_buf b (f x) r) Hb Hk H0)).
Qed.

Lemma bget_hit n b x k :
  holds r b n x → refcnt x = 0 → slocks r !! buf_lock b = Some k → sl_locked k = 0 →
  bget 1 n (with_res s r) = Ret b (with_res s (with_sl b (hold (pid q) k) (with_buf b (x <| refcnt := 1 |>) r))).
Proof.
  intros Hh Hr0 Hk H0. destruct bhead_lookup as [hd Hhd]. unfold bget.
  rewrite (bind_ret _ _ _ _ _ (lock_solo Hsolo bcache_lock r klock_bcache)).
  rewrite (bind_ret _ _ _ (Some b) (inside c bcache_lock (with_res s r))).
  - eapply bget_end; [apply Hh|apply Hh| |exact Hk|exact H0]. cbn. by rewrite Hr0.
  - apply ask_bufs_inside. rewrite Hhd. cbn [mbind option_bind].
    rewrite (ring_next (cache_ring _ _ _ _ Hok) _ _ Hhd). f_equal.
    eapply (pick_cached Hok); [apply (cache_ring _ _ _ _ Hok)|exact Hh].
Qed.

Lemma bget_miss n b x k :
  (∀ b x, ¬ holds r b n x) → pick (bufs r) unused (rev l) = Some b → bufs r !! b = Some x → (b < NBUF)%nat →
  slocks r !! buf_lock b = Some k → sl_locked k = 0 →
  bget 1 n (with_res s r) = Ret b (with_res s (with_sl b (hold (pid q) k)
    (with_buf b (x <| bdev := 1 |> <| blockno := n |> <| bflags := 0 |> <| refcnt := 1 |>) r))).
Proof.
  intros Hno Hp Hx Hb Hk H0. destruct bhead_lookup as [hd Hhd]. unfold bget.
  rewrite (bind_ret _ _ _ _ _ (lock_solo Hsolo bcache_lock r klock_bcache)).
  rewrite (bind_ret _ _ _ None (inside c bcache_lock (with_res s r))).
  - rewrite (bind_ret _ _ _ (Some b) (inside c bcache_lock (with_res s r))).
    + eapply bget_end; [done|exact Hx|reflexivity|exact Hk|exact H0].
    + apply ask_bufs_inside. rewrite Hhd. cbn [mbind option_bind].
      rewrite (ring_prev (cache_ring _ _ _ _ Hok) _ _ Hhd). by rewrite Hp.
  - apply ask_bufs_inside. rewrite Hhd. cbn [mbind option_bind].
    rewrite (ring_next (cache_ring _ _ _ _ Hok) _ _ Hhd). f_equal.
    apply pick_uncached; [apply (cache_ring _ _ _ _ Hok)|exact Hno].
Qed.

(** Block [n] is not among the held buffers. *)
Definition unheld (n : Z) : Prop := ∀ b x, b ∈ h → ¬ holds r b n x.

Lemma bread_hit n b x :
  holds r b n x → unheld n → ∃ r', bread 1 n (with_res s r) = Ret b (with_res s r') ∧ bread_post (pid q) r l h n b r'.
Proof.
  intros Hh Hun. assert (b ∉ h) as Hnh by (intros Hin; by apply (Hun b x Hin)).
  pose proof Hh as (Hb & Hx & Hd & Hn). destruct (cache_locks _ _ _ _ Hok b Hb) as (k & Hk & H0).
  rewrite decide_False in H0 by done. pose proof (cache_refs _ _ _ _ Hok b x Hb Hx) as Href. rewrite decide_False in Href by done.
  pose proof (cache_bufs _ _ _ _ Hok b x Hb Hx) as Hbok.
  assert (bflags x = B_VALID ∨ bflags x = B_BOTH) as Hf by (by apply Hbok).
  set (y := x <| refcnt := 1 |>). set (r' := with_sl b (hold (pid q) k) (with_buf b y r)).
  assert (bufs r' !! b = Some y) as Hy by (apply lookup_with_buf; eauto).
  assert (∀ b' z, b' ≠ b → ¬ holds r b' (blockno y) z) as Hu.
  { intros b' z Hne (Hb' & Hz & Hd' & Hn'). apply Hne. by eapply (cache_uniq _ _ _ _ Hok). }
  assert (buf_ok (length (memdisk r)) y) as Hyok by (destruct Hbok; by split).
  exists r'. split; [|split].
  - unfold bread. rewrite (bind_ret _ _ _ _ _ (bget_hit n b x k Hh Href Hk H0)). fold y. fold r'.
    rewrite (bind_ret _ _ _ _ _ (buf_get_ret b y (with_res s r') Hy)).
    assert (Z.land (bflags y) B_VALID =? 0 = false) as -> by (unfold y; cbn; by destruct Hf as [-> | ->]).
    reflexivity.
  - by eapply claim_ok.
  - done.
  - exists y. split; [by repeat split|]. split; [by rewrite (view_cached Hok _ _ _ Hh)|].
    exact (cache_clean _ _ _ _ Hok b x Hb Hnh Hx).
  - intros m. eapply claim_view; try done. rewrite (view_cached Hok b _ x); [done|]. by repeat split.
  - intros m. eapply claim_dirty; try done; unfold y; cbn; naive_solver.
  - reflexivity.
  - intros b' Hne. by apply lookup_with_buf_ne.
  - intros a Ha. apply lookup_insert_ne. symmetry. by apply Ha.
Qed.

Lemma bread_miss n b :
  (∀ b x, ¬ holds r b n x) → pick (bufs r) unused (rev l) = Some b → 0 ≤ n < Z.of_nat (length (memdisk r)) →
  ∃ r', bread 1 n (with_res s r) = Ret b (with_res s r') ∧ bread_post (pid q) r l h n b r'.
Proof.
  intros Hno Hp Hn. pose proof Hp as (Hin & x & Hx & Hun)%pick_Some.
  apply list_elem_of_In, in_rev, list_elem_of_In in Hin. assert (b < NBUF)%nat as Hb by (by apply (ring_in _ _ _ (cache_ring _ _ _ _ Hok))).
  unfold unused in Hun. apply andb_true_iff in Hun as [Hr0%Z.eqb_eq Hnd%Z.eqb_eq].
  assert (b ∉ h) as Hnh. { pose proof (cache_refs _ _ _ _ Hok b x Hb Hx) as Hr. case_decide; [congruence|done]. }
  destruct (cache_locks _ _ _ _ Hok b Hb) as (k & Hk & H0). rewrite decide_False in H0 by done.
  destruct (lookup_lt_is_Some_2 (memdisk r) (Z.to_nat n)) as [d Hd]; [lia|].
  set (x1 := x <| bdev := 1 |> <| blockno := n |> <| bflags := 0 |> <| refcnt := 1 |>).
  set (y := x1 <| bdata := d |> <| bflags := B_VALID |>).
  set (k' := hold (pid q) k). set (r1 := with_sl b k' (with_buf b x1 r)). set (r' := with_sl b k' (with_buf b y r)).
  assert (bufs r1 !! b = Some x1) as Hx1 by (apply lookup_with_buf; eauto).
  assert (slocks r1 !! buf_lock b = Some k') as Hk' by apply lookup_insert_eq.
  assert (buf_ok (length (memdisk r)) y) as Hyok.
  { split; [by apply (cache_disk _ _ _ _ Hok (Z.to_nat n))|by auto|done]. }
  assert (∀ b' z, b' ≠ b → ¬ holds r b' (blockno y) z) as Hu by (intros b' z _; apply Hno).
  assert (bdev x = 1 → bflags x = B_VALID) as Hfl.
  { intros Hdx. destruct (bok_used _ _ (cache_bufs _ _ _ _ Hok b x Hb Hx) Hdx) as [_ [->| Hf]]; [done|].
    rewrite Hf in Hnd. done. }
  exists r'. split; [|split].
  - unfold bread. rewrite (bind_ret _ _ _ _ _ (bget_miss n b x k Hno Hp Hx Hb Hk H0)). fold x1 k' r1.
    rewrite (bind_ret _ _ _ _ _ (buf_get_ret b x1 (with_res s r1) Hx1)). change (Z.land (bflags x1) B_VALID =? 0) with true. cbv iota.
    rewrite Hdisk. rewrite (bind_ret _ _ _ _ _ (iderw_read Hsolo b x1 k' r1 d Hb Hx1 Hk' eq_refl eq_refl eq_refl Hn eq_refl Hd)).
    unfold filled, r1. rewrite with_buf_with_sl, with_buf_with_buf. reflexivity.
  - by eapply claim_ok.
  - done.
  - exists y. split; [split_and!; [done|apply lookup_with_buf; eauto|done|done]|].
    split; [by rewrite (view_uncached _ Hno)|]. by intros _ _.
  - intros m. eapply claim_view; try done; [change (blockno y) with n; by rewrite (view_uncached _ Hno)|].
    intros Hdx _. split; [|by apply Hfl]. by apply (cache_clean _ _ _ _ Hok b).
  - intros m. eapply claim_dirty; try done.
    + split; [done|]. intros (H1 & H2 & H3). rewrite (Hfl H1) in H3. done.
    + intros Hdx Hf. rewrite (Hfl Hdx) in Hf. done.
  - reflexivity.
  - intros b' Hne. by apply lookup_with_buf_ne.
  - intros a Ha. apply lookup_insert_ne. symmetry. by apply Ha.
Qed.

Lemma recyclable : available r → ∃ b, pick (bufs r) unused (rev l) = Some b.
Proof.
  intros (b & x & Hb & Hx & Hu). destruct (pick (bufs r) unused (rev l)) as [c'|] eqn:Hp; [by eauto|].
  assert (b ∈ rev l) as Hin.
  { apply list_elem_of_In, in_rev. rewrite rev_involutive. apply list_elem_of_In.
    by apply (ring_in _ _ _ (cache_ring _ _ _ _ Hok)). }
  exfalso. assert (unused x = false) by (eapply pick_None; [|exact Hp|exact Hin|exact Hx]; intros e He;
    apply cache_lookup with (1 := Hok), (ring_in _ _ _ (cache_ring _ _ _ _ Hok)), list_elem_of_In, in_rev, list_elem_of_In, He).
  congruence.
Qed.

Lemma bread_solo n :
  unheld n → 0 ≤ n < Z.of_nat (length (memdisk r)) → available r ∨ (∃ b x, holds r b n x) →
  ∃ b r', bread 1 n (with_res s r) = Ret b (with_res s r') ∧ bread_post (pid q) r l h n b r'.
Proof.
  intros Hun Hn Hav. destruct (holds_dec Hok n) as [(b & x & Hx)|Hno].
  - exists b. by eapply bread_hit.
  - destruct Hav as [Hav|(b & x & Hx)]; [|by destruct (Hno b x)].
    destruct (recyclable Hav) as [b Hp]. exists b. by apply bread_miss.
Qed.

(** C11. [bread] of a block the process does not hold returns a locked buffer
    with the block as the cache and the disk together show it.  The buffer is
    the one that has the block when there is one, and the least recently used
    buffer that is free and clean otherwise.  The cache stays well formed, what
    every other block reads as is unchanged, no block waiting to be written is
    lost, and nothing outside the cache changes. *)
Theorem bread_correct n :
  unheld n → 0 ≤ n < Z.of_nat (length (memdisk r)) → available r →
  ∃ b r', bread 1 n (with_res s r) = Ret b (with_res s r') ∧ bread_post (pid q) r l h n b r' ∧
    (∀ b' x, holds r b' n x → b = b') ∧
    ((∀ b' x, ¬ holds r b' n x) → pick (bufs r) unused (rev l) = Some b).
Proof.
  intros Hun Hn Hav. destruct (holds_dec Hok n) as [(b & x & Hx)|Hno].
  - destruct (bread_hit n b x Hx Hun) as (r' & Hr & Hpost). exists b, r'. split_and!; [done|done| |].
    + intros b' x' (Hb' & Hx' & Hd' & Hn'). destruct Hx as (Hb & Hx & Hd & Hn'').
      eapply (cache_uniq _ _ _ _ Hok); eauto. congruence.
    + intros Hno. by destruct (Hno b x).
  - destruct (recyclable Hav) as [b Hp]. destruct (bread_miss n b Hno Hp Hn) as (r' & Hr & Hpost).
    exists b, r'. split_and!; [done|done| |done]. intros b' x Hx. by destruct (Hno b' x).
Qed.
End read.

(** ** Writing a held buffer *)

Section write.
Context {r : kres} {l h : list nat} (Hok : cache_ok (pid q) r l h).
Context {b : nat} {x : buf} (Hin : b ∈ h) (Hx : bufs r !! b = Some x).

Lemma held_facts :
  (b < NBUF)%nat ∧ bdev x = 1 ∧ 0 ≤ blockno x < Z.of_nat (length (memdisk r)) ∧
  (bflags x = B_VALID ∨ bflags x = B_BOTH) ∧ length (bdata x) = Z.to_nat BSIZE ∧ refcnt x = 1 ∧
  ∃ k, slocks r !! buf_lock b = Some k ∧ sl_locked k = 1 ∧ sl_pid k = pid q.
Proof.
  destruct (held_mine Hok Hin Hx) as [Hb Hd]. pose proof (cache_bufs _ _ _ _ Hok b x Hb Hx) as [Hl Hu _].
  destruct (Hu Hd). pose proof (cache_refs _ _ _ _ Hok b x Hb Hx) as Href. rewrite decide_True in Href by done.
  destruct (cache_locks _ _ _ _ Hok b Hb) as (k & Hk & Hc). rewrite decide_True in Hc by done.
  split_and!; try lia; eauto; tauto.
Qed.

Lemma written_same : same_id x (x <| bflags := B_VALID |>).
Proof. done. Qed.

Lemma written_disk_other n : n ≠ Z.to_nat (blockno x) → memdisk (written b x r) !! n = memdisk r !! n.
Proof. intros Hn. cbn. by rewrite list_lookup_insert_ne. Qed.

Lemma written_disk_same : memdisk (written b x r) !! Z.to_nat (blockno x) = Some (bdata x).
Proof. cbn. apply list_lookup_insert_eq. destruct held_facts as (_ & _ & ? & _). lia. Qed.

Lemma written_ok :
  cache_ok (pid q) (written b x r) l h ∧
  (∀ n, 0 ≤ n → view (written b x r) n = view r n) ∧
  (∀ n, dirty (written b x r) n ↔ n ≠ blockno x ∧ dirty r n).
Proof.
  destruct held_facts as (Hb & Hd & Hn & Hf & Hlen & Href & _).
  edestruct (held_mod (r' := written b x r) Hok Hin Hx written_same) as (H1 & H2 & H3);
    [split; [done|by auto|done]|reflexivity|reflexivity|cbn; by rewrite length_insert|apply written_disk_other| |].
  { rewrite written_disk_same. by intros d [= <-]. }
  split_and!; [exact H1| |].
  - intros n Hn0. rewrite H2 by done. case_decide; [|done]. subst n. cbn. symmetry. by apply (view_cached Hok b).
  - intros n. rewrite H3. case_decide; [|tauto]. split; [done|tauto].
Qed.

Lemma bwrite_solo : bwrite b (with_res s r) = Ret tt (with_res s (written b x r)).
Proof.
  destruct held_facts as (Hb & Hd & Hn & Hf & Hlen & Href & k & Hk & H1 & H2).
  set (x' := x <| bflags := B_BOTH |>).
  unfold bwrite. rewrite (bind_ret _ _ _ _ _ (holding_buf Hsolo b k r Hb Hk H1 H2)). cbn [negb].
  rewrite (bind_ret _ _ _ _ _ (buf_set_solo b _ x r Hx)).
  assert (x <| bflags ::= fun f => Z.lor f B_DIRTY |> = x') as -> by (unfold x'; cbn; by destruct Hf as [-> | ->]).
  rewrite Hdisk.
  rewrite (iderw_write Hsolo b x' k (with_buf b x' r)); try done; [|apply lookup_with_buf; eauto].
  unfold written. rewrite with_buf_with_buf. reflexivity.
Qed.
End write.

(** ** Releasing a held buffer *)

Record brelse_post (r : kres) (l h : list nat) (b : nat) (r' : kres) (l' h' : list nat) : Prop := {
  bl_ok : cache_ok (pid q) r' l' h';
  bl_front : ∃ l1 l2, l = l1 ++ b :: l2 ∧ l' = b :: l1 ++ l2;
  bl_view : ∀ m, view r' m = view r m;
  bl_dirty : ∀ m, dirty r' m ↔ dirty r m;
  bl_frame : r' = r <| bufs := bufs r' |> <| slocks := slocks r' |>;
  bl_others : ∀ c x, c ≠ b → bufs r !! c = Some x → ∃ y, bufs r' !! c = Some y ∧ same_but_links x y;
  bl_locks : other_locks r r' }.

Lemma brelse_solo {r l h} h' b x :
  cache_ok (pid q) r l h → b ∈ h → bufs r !! b = Some x → clean (memdisk r) x → (∀ e, e ∈ h' ↔ e ∈ h ∧ e ≠ b) →
  ∃ r' l', brelse b (with_res s r) = Ret tt (with_res s r') ∧ brelse_post r l h b r' l' h'.
Proof.
  intros Hok Hin Hx Hcl Hh. destruct (held_facts Hok Hin Hx) as (Hb & Hd & Hn & Hf & Hlen & Href & k & Hk & H1 & H2).
  set (x' := x <| refcnt := 0 |>). set (r1 := with_sl b (drop_sl k) r). set (r2 := with_sl b (drop_sl k) (with_buf b x' r)).
  pose proof (drop_ok (k := k) Hok Hin Hx Hcl Hh) as Hok2. fold x' r2 in Hok2.
  assert (b ∈ l) as (l1 & l2 & Hl)%list_elem_of_split by (by apply (ring_in _ _ _ (cache_ring _ _ _ _ Hok))).
  pose proof (cache_ring _ _ _ _ Hok2) as Hring. rewrite Hl in Hring.
  destruct (touch_spec _ _ _ _ Hring) as (bs & Hbs & Hrel & Hring').
  exists (r2 <| bufs := bs |>), (b :: l1 ++ l2). split; [|split].
  - unfold brelse. rewrite (bind_ret _ _ _ _ _ (holding_buf Hsolo b k r Hb Hk H1 H2)). cbn [negb].
    rewrite (bind_ret _ _ _ _ _ (release_buf Hsolo b k r Hb Hk)). fold r1.
    rewrite (bind_ret _ _ _ _ _ (lock_solo Hsolo bcache_lock r1 klock_bcache)).
    rewrite (bind_ret _ _ _ _ _ (buf_set_inside b _ x bcache_lock r1 Hx)).
    assert (x <| refcnt ::= fun n => u32 (n - 1) |> = x') as -> by (unfold x'; cbn; by rewrite Href).
    change (with_buf b x' r1) with r2.
    rewrite (bind_ret _ _ _ _ _ (buf_get_ret b x' (inside c bcache_lock (with_res s r2))
      (lookup_with_buf b x' r (mk_is_Some _ _ Hx)))).
    change (refcnt x' =? 0) with true. cbv iota.
    rewrite (bind_ret _ _ _ _ _ (on_bufs_inside _ bcache_lock r2 bs Hbs)).
    apply (unlock_solo Hsolo bcache_lock _ klock_bcache).
  - by apply (relink_ok Hok2).
  - eauto.
  - intros m. rewrite (relink_view Hok2 Hrel Hring'). by apply (drop_view Hok Hin Hx Hcl Hh).
  - intros m. etrans; [by apply (relink_dirty Hrel)|]. by eapply drop_dirty.
  - reflexivity.
  - intros e w Hne Hw. apply (relinked_lookup (bufs r2)); [done|]. unfold r2, with_sl. cbn. by rewrite list_lookup_insert_ne.
  - intros a Ha. apply lookup_insert_ne. symmetry. by apply Ha.
Qed.
End routines.
