(* ===== verification/Layout.v ===== *)
(** * On-disk formats (fs.h, log.c)

    The byte layout of the superblock, of inodes, directory entries and of the
    log header, as the casts of [buf->data] to struct pointers read and write
    it on a little-endian machine without padding. *)

From S2P Require Import Prelude Kstate.

(** ** Bytes of a buffer *)

Definition get_bytes (d : list Z) (o n : nat) : option (list Z) :=
  if bool_decide (o + n ≤ length d)%nat then Some (take n (drop o d)) else None.
Definition put_bytes (d : list Z) (o : nat) (l : list Z) : option (list Z) :=
  if bool_decide (o + length l ≤ length d)%nat then Some (take o d ++ l ++ drop (o + length l) d) else None.

Fixpoint le_decode (l : list Z) : Z :=
  match l with [] => 0 | b :: l' => b + 256 * le_decode l' end.
Fixpoint le_encode (n : nat) (v : Z) : list Z :=
  match n with O => [] | S n' => v mod 256 :: le_encode n' (v / 256) end.

Definition get16 (d : list Z) (o : nat) : option Z := s16 ∘ le_decode <$> get_bytes d o 2.
Definition get32 (d : list Z) (o : nat) : option Z := le_decode <$> get_bytes d o 4.
Definition put32 (d : list Z) (o : nat) (v : Z) : option (list Z) := put_bytes d o (le_encode 4 v).

(** ** struct superblock *)

Definition decode_superblock (d : list Z) : option superblock :=
  a ← get32 d 0; b ← get32 d 4; c ← get32 d 8; e ← get32 d 12;
  f ← get32 d 16; g ← get32 d 20; h ← get32 d 24;
  Some (mk_superblock a b c e f g h).
Definition encode_superblock (x : superblock) : list Z :=
  le_encode 4 (sb_size x) ++ le_encode 4 (sb_nblocks x) ++ le_encode 4 (sb_ninodes x) ++
  le_encode 4 (sb_nlog x) ++ le_encode 4 (sb_logstart x) ++ le_encode 4 (sb_inodestart x) ++
  le_encode 4 (sb_bmapstart x).

(** ** struct dinode: 64 bytes *)

Record dinode := mk_dinode {
  d_type : Z; d_major : Z; d_minor : Z; d_nlink : Z; d_size : Z; d_addrs : list Z }.
#[export] Instance dinode_eta : Eta dinode := fun d =>
  mk_dinode (d_type d) (d_major d) (d_minor d) (d_nlink d) (d_size d) (d_addrs d).

Definition dinode_size : nat := 64.
Definition IPB : Z := BSIZE / 64.
Definition IBLOCK (i : Z) (x : superblock) : Z := u32 (i / IPB + sb_inodestart x).
Definition BPB : Z := BSIZE * 8.
Definition BBLOCK (b : Z) (x : superblock) : Z := u32 (b / BPB + sb_bmapstart x).

(** [n] consecutive 32-bit words. *)
Fixpoint get_words (d : list Z) (o n : nat) : option (list Z) :=
  match n with
  | O => Some []
  | S n' => w ← get32 d o; l ← get_words d (o + 4) n'; Some (w :: l)
  end.
Definition encode_words (l : list Z) : list Z := l ≫= le_encode 4.

(** The inode at byte [o] of a block. *)
Definition decode_dinode (d : list Z) (o : nat) : option dinode :=
  ty ← get16 d o; ma ← get16 d (o + 2); mi ← get16 d (o + 4); nl ← get16 d (o + 6);
  sz ← get32 d (o + 8); ad ← get_words d (o + 12) 13;
  Some (mk_dinode ty ma mi nl sz ad).
Definition encode_dinode (x : dinode) : list Z :=
  le_encode 2 (d_type x) ++ le_encode 2 (d_major x) ++ le_encode 2 (d_minor x) ++ le_encode 2 (d_nlink x) ++
  le_encode 4 (d_size x) ++ encode_words (d_addrs x).

(** ** struct dirent: 16 bytes *)

Record dirent := mk_dirent { de_inum : Z; de_name : list Z }.
#[export] Instance dirent_eta : Eta dirent := fun d => mk_dirent (de_inum d) (de_name d).

Definition dirent_size : Z := 16.
Definition decode_dirent (d : list Z) : option dirent :=
  i ← le_decode <$> get_bytes d 0 2; n ← get_bytes d 2 DIRSIZ; Some (mk_dirent i n).
Definition encode_dirent (x : dirent) : list Z := le_encode 2 (de_inum x) ++ de_name x.

(** ** struct logheader: [n], then the block numbers *)

Definition head_n (d : list Z) : option Z := s32 <$> get32 d 0.
Definition head_block (d : list Z) (i : nat) : option Z := s32 <$> get32 d (4 + 4 * i).
Definition set_head_n (d : list Z) (n : Z) : option (list Z) := put32 d 0 n.
Definition set_head_block (d : list Z) (i : nat) (b : Z) : option (list Z) := put32 d (4 + 4 * i) b.

(** ** Lemmas *)

Definition is_bytes (l : list Z) : Prop := Forall (fun b => 0 ≤ b < 256) l.

Lemma length_le_encode n v : length (le_encode n v) = n.
Proof. revert v. induction n as [|n IH]; intros v; simpl; [done|]. by rewrite IH. Qed.

Lemma is_bytes_le_encode n v : is_bytes (le_encode n v).
Proof.
  revert v. induction n as [|n IH]; intros v; constructor; [|apply IH].
  apply Z.mod_pos_bound. lia.
Qed.

Lemma le_decode_encode n v : le_decode (le_encode n v) = v mod 256 ^ Z.of_nat n.
Proof.
  revert v. induction n as [|n IH]; intros v.
  - by rewrite Z.mod_1_r.
  - cbn [le_encode le_decode]. rewrite IH, Nat2Z.inj_succ, Z.pow_succ_r by lia.
    rewrite (Z.rem_mul_r v 256 (256 ^ Z.of_nat n)) by lia. done.
Qed.

Lemma le_encode_decode l : is_bytes l → le_encode (length l) (le_decode l) = l.
Proof.
  induction 1 as [|b l Hb _ IH]; [done|]. cbn [length le_decode le_encode].
  rewrite (Z.mul_comm 256), Z.mod_add, Z.div_add, Z.mod_small, Z.div_small by lia.
  by rewrite Z.add_0_l, IH.
Qed.

Lemma le_decode_bound l : is_bytes l → 0 ≤ le_decode l < 256 ^ Z.of_nat (length l).
Proof.
  induction 1 as [|b l Hb _ IH]; cbn [length le_decode]; [lia|].
  rewrite Nat2Z.inj_succ, Z.pow_succ_r by lia. lia.
Qed.

Lemma put_bytes_Some d o l :
  (o + length l ≤ length d)%nat → put_bytes d o l = Some (take o d ++ l ++ drop (o + length l) d).
Proof. intros. unfold put_bytes. by rewrite bool_decide_eq_true_2. Qed.

Lemma put_bytes_length d o l d' : put_bytes d o l = Some d' → length d' = length d.
Proof.
  unfold put_bytes. case_bool_decide; [|done]. intros [= <-]. autorewrite with len. lia.
Qed.

Lemma is_bytes_put d o l d' : is_bytes d → is_bytes l → put_bytes d o l = Some d' → is_bytes d'.
Proof.
  unfold put_bytes. case_bool_decide; [|done]. intros Hd Hl [= <-].
  repeat apply Forall_app_2; [by apply Forall_take|done|by apply Forall_drop].
Qed.

Lemma get_bytes_length d o n l : get_bytes d o n = Some l → length l = n.
Proof. unfold get_bytes. case_bool_decide; [|done]. intros [= <-]. autorewrite with len. lia. Qed.

(** Reading back what was written. *)
Lemma get_put_bytes d o l d' : put_bytes d o l = Some d' → get_bytes d' o (length l) = Some l.
Proof.
  intros H. pose proof (put_bytes_length _ _ _ _ H) as Hlen. revert H.
  unfold put_bytes, get_bytes. case_bool_decide; [|done]. intros [= <-].
  rewrite bool_decide_eq_true_2 by (rewrite Hlen; lia). f_equal.
  rewrite drop_app_length', take_app_length'; [done..|]. rewrite length_take. lia.
Qed.

(** Reading elsewhere. *)
Lemma get_put_bytes_ne d o l d' o' n :
  put_bytes d o l = Some d' → (o' + n ≤ o ∨ o + length l ≤ o')%nat →
  get_bytes d' o' n = get_bytes d o' n.
Proof.
  intros H Hd. pose proof (put_bytes_length _ _ _ _ H) as Hlen. revert H.
  unfold put_bytes, get_bytes. rewrite Hlen. case_bool_decide; [|done]. intros [= <-].
  case_bool_decide; [|done]. f_equal. apply list_eq. intros i.
  destruct (decide (i < n)%nat); [|by rewrite !lookup_take_ge by lia].
  rewrite !lookup_take_lt, !lookup_drop by lia. destruct Hd as [Hd|Hd].
  - rewrite lookup_app_l by (rewrite length_take; lia). by rewrite lookup_take_lt by lia.
  - rewrite lookup_app_r by (rewrite length_take; lia). rewrite length_take.
    rewrite lookup_app_r by lia. rewrite lookup_drop. f_equal. lia.
Qed.

(** Reading at an offset into a concatenation. *)
Lemma get_bytes_app_r l1 l2 o n :
  get_bytes (l1 ++ l2) (length l1 + o) n = get_bytes l2 o n.
Proof.
  unfold get_bytes. rewrite length_app. repeat case_bool_decide; try lia; [|done].
  by rewrite <- drop_drop, drop_app_length.
Qed.

Lemma get_bytes_app_l l1 l2 : get_bytes (l1 ++ l2) 0 (length l1) = Some l1.
Proof.
  unfold get_bytes. rewrite bool_decide_eq_true_2 by (rewrite length_app; lia).
  by rewrite drop_0, take_app_length.
Qed.

(** Reading inside a part that was read. *)
Lemma get_bytes_sub d o n l o' n' :
  get_bytes d o n = Some l → (o' + n' ≤ n)%nat → get_bytes d (o + o') n' = get_bytes l o' n'.
Proof.
  unfold get_bytes. case_bool_decide; [|done]. intros [= <-] H1. rewrite length_take, length_drop.
  rewrite !bool_decide_eq_true_2 by lia. f_equal. rewrite <- drop_drop.
  rewrite skipn_firstn_comm, take_take. f_equal. lia.
Qed.

(** ** Words *)

Lemma get32_put d o v d' : put32 d o v = Some d' → get32 d' o = Some (u32 v).
Proof.
  intros H%get_put_bytes. rewrite length_le_encode in H. unfold get32. rewrite H. cbn [fmap option_fmap option_map].
  f_equal. apply (le_decode_encode 4).
Qed.

Lemma get32_put_ne d o v d' o' :
  put32 d o v = Some d' → (o' + 4 ≤ o ∨ o + 4 ≤ o')%nat → get32 d' o' = get32 d o'.
Proof.
  intros H Ho. unfold get32. by rewrite (get_put_bytes_ne _ _ _ _ _ _ H) by (rewrite length_le_encode; lia).
Qed.

Lemma put32_Some d o v : (o + 4 ≤ length d)%nat → is_Some (put32 d o v).
Proof. intros. unfold put32. rewrite put_bytes_Some by (rewrite length_le_encode; lia). eauto. Qed.

Lemma get32_Some d o : (o + 4 ≤ length d)%nat → is_Some (get32 d o).
Proof. intros. unfold get32, get_bytes. rewrite bool_decide_eq_true_2 by lia. eauto. Qed.

Lemma get32_bound d o v : is_bytes d → get32 d o = Some v → 0 ≤ v < 2 ^ 32.
Proof.
  intros Hd. unfold get32. destruct (get_bytes d o 4) as [l|] eqn:Hl; [|done]. intros [= <-].
  pose proof (get_bytes_length _ _ _ _ Hl) as H4. revert Hl. unfold get_bytes. case_bool_decide; [|done].
  intros [= Hl]. assert (is_bytes l) as Hb by (rewrite <- Hl; by apply Forall_take, Forall_drop).
  apply le_decode_bound in Hb. rewrite H4 in Hb. done.
Qed.

Lemma length_encode_words l : length (encode_words l) = (4 * length l)%nat.
Proof.
  induction l as [|w l IH]; [done|]. unfold encode_words in *. cbn [mbind list_bind].
  rewrite length_app, length_le_encode. rewrite IH. simpl. lia.
Qed.

Lemma get_words_encode l pre post :
  Forall (fun w => 0 ≤ w < 2 ^ 32) l →
  get_words (pre ++ encode_words l ++ post) (length pre) (length l) = Some l.
Proof.
  intros Hl. revert pre. induction Hl as [|w l Hw _ IH]; intros pre; [done|].
  cbn [length get_words encode_words mbind list_bind]. fold (encode_words l).
  assert (get32 (pre ++ (le_encode 4 w ++ encode_words l) ++ post) (length pre) = Some w) as ->.
  { unfold get32. rewrite <- (Nat.add_0_r (length pre)), get_bytes_app_r, <- app_assoc.
    rewrite <- (length_le_encode 4 w) at 2. rewrite get_bytes_app_l. cbn [fmap option_fmap option_map]. f_equal.
    rewrite (le_decode_encode 4). by apply Z.mod_small. }
  cbn [mbind option_bind]. specialize (IH (pre ++ le_encode 4 w)).
  rewrite length_app, length_le_encode, <- !app_assoc in IH. rewrite <- app_assoc.
  setoid_rewrite IH. done.
Qed.

(** ** Round trips *)

Definition short (v : Z) : Prop := - 2 ^ 15 ≤ v < 2 ^ 15.
Definition word (v : Z) : Prop := 0 ≤ v < 2 ^ 32.

Lemma s16_le_encode v : short v → s16 (le_decode (le_encode 2 v)) = v.
Proof.
  intros [H1 H2]. rewrite le_decode_encode. change (256 ^ Z.of_nat 2) with (2 ^ 16). unfold s16.
  rewrite Zplus_mod_idemp_l. rewrite Z.mod_small by lia. lia.
Qed.

Lemma le_encode_word v : word v → le_decode (le_encode 4 v) = v.
Proof. intros H. rewrite le_decode_encode. by apply Z.mod_small. Qed.

Record dinode_ok (x : dinode) : Prop := {
  dok_type : short (d_type x); dok_major : short (d_major x); dok_minor : short (d_minor x);
  dok_nlink : short (d_nlink x); dok_size : word (d_size x);
  dok_addrs : Forall word (d_addrs x); dok_len : length (d_addrs x) = 13%nat }.

Lemma length_encode_dinode x : dinode_ok x → length (encode_dinode x) = dinode_size.
Proof.
  intros H. unfold encode_dinode. rewrite !length_app, !length_le_encode, length_encode_words.
  by rewrite (dok_len _ H).
Qed.

Lemma get_bytes_0_app n l1 l2 : length l1 = n → get_bytes (l1 ++ l2) 0 n = Some l1.
Proof. intros <-. apply get_bytes_app_l. Qed.

Lemma get_bytes_skip l1 l2 k o n : length l1 = k → (k ≤ o)%nat →
  get_bytes (l1 ++ l2) o n = get_bytes l2 (o - k) n.
Proof. intros <- H. rewrite <- (get_bytes_app_r l1 l2 (o - length l1)). f_equal. lia. Qed.

Lemma decode_dinode_at d o l x :
  dinode_ok x → get_bytes d o dinode_size = Some l → l = encode_dinode x → decode_dinode d o = Some x.
Proof.
  intros Hx Hl ->. unfold decode_dinode, get16, get32.
  rewrite <- (Nat.add_0_r o) at 1.
  rewrite !(get_bytes_sub _ _ _ _ _ _ Hl) by (unfold dinode_size; lia). unfold encode_dinode.
  repeat (first [rewrite get_bytes_0_app by apply length_le_encode
                |rewrite (get_bytes_skip _ _ 2) by (first [apply length_le_encode|lia]); simpl Nat.sub]).
  cbn [fmap option_fmap option_map mbind option_bind compose].
  rewrite !s16_le_encode by apply Hx. rewrite le_encode_word by apply Hx.
  assert (get_words d (o + 12) 13 = Some (d_addrs x)) as ->; [|by destruct x].
  assert (take o d ++ encode_dinode x ++ drop (o + dinode_size) d = d) as Hd.
  { revert Hl. unfold get_bytes. case_bool_decide; [|done]. intros [= Hl]. rewrite <- Hl.
    rewrite <- (take_drop o d) at 4. f_equal. rewrite <- (take_drop dinode_size (drop o d)) at 2.
    by rewrite drop_drop. }
  assert (o + dinode_size ≤ length d)%nat as Hlen.
  { revert Hl. unfold get_bytes. by case_bool_decide. }
  pose proof (get_words_encode (d_addrs x)
    (take o d ++ le_encode 2 (d_type x) ++ le_encode 2 (d_major x) ++ le_encode 2 (d_minor x)
       ++ le_encode 2 (d_nlink x) ++ le_encode 4 (d_size x)) (drop (o + dinode_size) d) (dok_addrs _ Hx)) as H.
  rewrite (dok_len _ Hx), !length_app, !length_le_encode, length_take in H.
  rewrite Nat.min_l in H by lia. rewrite <- H. f_equal.
  rewrite <- Hd at 1. unfold encode_dinode. by rewrite <- !app_assoc.
Qed.

(** Writing an inode into a block with the layout of [struct dinode], as
    [iupdate] does, and reading it back, as [ilock] does, gives the inode; the
    other inodes of the block are untouched. *)
Theorem dinode_roundtrip d k x d' :
  dinode_ok x → put_bytes d (dinode_size * k) (encode_dinode x) = Some d' →
  decode_dinode d' (dinode_size * k) = Some x ∧
  ∀ j, j ≠ k → decode_dinode d' (dinode_size * j) = decode_dinode d (dinode_size * j).
Proof.
  intros Hx Hp. pose proof (length_encode_dinode _ Hx) as Hlen. split.
  - apply (decode_dinode_at _ _ (encode_dinode x)); [done| |done].
    apply get_put_bytes in Hp. by rewrite Hlen in Hp.
  - intros j Hj.
    assert (∀ i n, (i + n ≤ dinode_size)%nat →
      get_bytes d' (dinode_size * j + i) n = get_bytes d (dinode_size * j + i) n) as H.
    { intros i n Hi. eapply get_put_bytes_ne; [done|]. rewrite Hlen. unfold dinode_size in *. lia. }
    assert (∀ n i, (i + 4 * n ≤ dinode_size)%nat →
      get_words d' (dinode_size * j + i) n = get_words d (dinode_size * j + i) n) as Hw.
    { induction n as [|n IH]; intros i Hi; [done|]. cbn [get_words]. unfold get32. rewrite H by lia.
      destruct (le_decode <$> _); cbn [mbind option_bind]; [|done].
      replace (dinode_size * j + i + 4)%nat with (dinode_size * j + (i + 4))%nat by lia. by rewrite IH by lia. }
    pose proof (H 0%nat 2%nat) as H0. rewrite Nat.add_0_r in H0. unfold decode_dinode, get16, get32.
    by rewrite H0, !H, Hw by (unfold dinode_size; lia).
Qed.

Lemma dinode_roundtrip_witness :
  match put_bytes (replicate 512 7) (dinode_size * 3) (encode_dinode (mk_dinode 2 0 0 1 600 (seqZ 30 13))) with
  | Some d' => decode_dinode d' (dinode_size * 3) = Some (mk_dinode 2 0 0 1 600 (seqZ 30 13))
  | None => False
  end.
Proof.
  destruct (put_bytes _ _ _) as [d'|] eqn:H; [|discriminate].
  refine (proj1 (dinode_roundtrip _ 3 _ d' _ H)).
  clear. constructor; try (unfold short, word; simpl; lia).
  apply Forall_forall. intros w Hw%elem_of_seqZ. unfold word. lia.
Defined.
