(* ===== verification/Log.v ===== *)
(** * The log (log.c)

    [log.start], [log.lh.n] and [log.lh.block] are signed; block numbers of the
    buffer cache are unsigned, so the conversions are written out. *)

From S2P Require Import Prelude Machine Spinlock CString ProcTable Proc Lifecycle Kstate.
From S2P Require Import Sleeplock Devices Disk Bio Layout.

Section log.
Context {FU : Fuel} {DK : Disk}.

Definition buf_data (b : nat) : K (list Z) := x <- buf_get b ;; ret (bdata x).
Definition set_data (b : nat) (f : list Z → option (list Z)) : K unit :=
  d <- buf_data b ;;
  d' <- try_get (fun _ => f d) ;;
  buf_set b (fun x => x <| bdata := d' |>).

(** fs.c *)
Definition readsb (dev : Z) : K superblock :=
  bp <- bread (u32 dev) 1 ;;
  d <- buf_data bp ;;
  x <- try_get (fun _ => decode_superblock d) ;;
  brelse bp ;;;
  ret x.

(** [for(i = 0; i < log.lh.n; i++) body(i)], where the limit is read again in
    every round.  Every body below reads or writes [log.lh.block[i]], so it
    faults at [i = LOGSIZE] and [LOGSIZE + 1] rounds are enough. *)
Fixpoint log_loop (n i : nat) (body : nat → K unit) : K unit :=
  lim <- rget (fun r => lh_n (log r)) ;;
  if Z.of_nat i <? lim then
    match n with
    | O => fun _ => NoFuel
    | S n' => body i ;;; log_loop n' (S i) body
    end
  else ret tt.
Definition for_log (body : nat → K unit) : K unit := log_loop (S (Z.to_nat LOGSIZE)) 0 body.

Definition log_block (i : nat) : K Z := try_get (fun s => lh_block (log (res s)) !! i).
Definition set_log_block (i : nat) (b : Z) : K unit :=
  _ <- log_block i ;; log_set (fun l => l <| lh_block ::= <[i := b]> |>).

(** [bread(log.dev, log.start + tail)]: the header for 0, then the log blocks *)
Definition bread_log (tail : Z) : K nat :=
  l <- rget log ;; bread (u32 (log_dev l)) (u32 (log_start l + tail)).
(** [bread(log.dev, log.lh.block[tail])] *)
Definition bread_home (tail : nat) : K nat :=
  l <- rget log ;; b <- log_block tail ;; bread (u32 (log_dev l)) (u32 b).

Definition install_trans : K unit :=
  for_log (fun tail =>
    lbuf <- bread_log (Z.of_nat tail + 1) ;;
    dbuf <- bread_home tail ;;
    d <- buf_data lbuf ;;
    set_data dbuf (fun _ => Some d) ;;;
    bwrite dbuf ;;;
    brelse lbuf ;;;
    brelse dbuf).

Definition read_head : K unit :=
  buf <- bread_log 0 ;;
  d <- buf_data buf ;;
  n <- try_get (fun _ => head_n d) ;;
  log_set (fun l => l <| lh_n := n |>) ;;;
  for_log (fun i =>
    b <- try_get (fun _ => head_block d i) ;;
    set_log_block i b) ;;;
  brelse buf.

Definition write_head : K unit :=
  buf <- bread_log 0 ;;
  n <- rget (fun r => lh_n (log r)) ;;
  set_data buf (fun d => set_head_n d n) ;;;
  for_log (fun i =>
    b <- log_block i ;;
    set_data buf (fun d => set_head_block d i b)) ;;;
  bwrite buf ;;;
  brelse buf.

Definition recover_from_log : K unit :=
  read_head ;;;
  install_trans ;;;
  log_set (fun l => l <| lh_n := 0 |>) ;;;
  write_head.

(** [sizeof(struct logheader)] is 4 + 4 * LOGSIZE, below BSIZE. *)
Definition initlog (dev : Z) : K unit :=
  if BSIZE <=? 4 + 4 * LOGSIZE then panic "initlog: too big logheader" else
  on_mach (initlock log_lock "log") ;;;
  x <- readsb dev ;;
  log_set (fun l => l <| log_start := s32 (sb_logstart x) |>) ;;;
  log_set (fun l => l <| log_size := s32 (sb_nlog x) |>) ;;;
  log_set (fun l => l <| log_dev := dev |>) ;;;
  recover_from_log.

(** Must an operation wait before it may start? *)
Definition must_wait (l : logstate) : bool :=
  negb (committing l =? 0) || (LOGSIZE <? lh_n l + (outstanding l + 1) * MAXOPBLOCKS).

Definition begin_op : K unit :=
  lock log_lock ;;;
  while fuel (rget (fun r => must_wait (log r))) (sleep log_chan log_lock) ;;;
  log_set (fun l => l <| outstanding ::= fun n => n + 1 |>) ;;;
  unlock log_lock.

Definition write_log : K unit :=
  for_log (fun tail =>
    to <- bread_log (Z.of_nat tail + 1) ;;
    from <- bread_home tail ;;
    d <- buf_data from ;;
    set_data to (fun _ => Some d) ;;;
    bwrite to ;;;
    brelse from ;;;
    brelse to).

Definition commit : K unit :=
  n <- rget (fun r => lh_n (log r)) ;;
  if 0 <? n then
    write_log ;;;
    write_head ;;;
    install_trans ;;;
    log_set (fun l => l <| lh_n := 0 |>) ;;;
    write_head
  else ret tt.

Definition end_op : K unit :=
  lock log_lock ;;;
  log_set (fun l => l <| outstanding ::= fun n => n - 1 |>) ;;;
  l <- rget log ;;
  if negb (committing l =? 0) then panic "log.committing" else
  do_commit <- (if outstanding l =? 0 then log_set (fun l => l <| committing := 1 |>) ;;; ret true
                else wakeup log_chan ;;; ret false) ;;
  unlock log_lock ;;;
  if (do_commit : bool) then
    commit ;;;
    lock log_lock ;;;
    log_set (fun l => l <| committing := 0 |>) ;;;
    wakeup log_chan ;;;
    unlock log_lock
  else ret tt.

(** The absorption loop: the first [i < n] with [block[i] == bn], or [n].
    [None] is a read outside the array. *)
Fixpoint find_block (block : list Z) (n i : nat) (bn : Z) : option nat :=
  match n with
  | O => Some i
  | S n' =>
      match block with
      | [] => None
      | b :: block' => if u32 b =? bn then Some i else find_block block' n' (S i) bn
      end
  end.

Definition log_write (b : nat) : K unit :=
  l <- rget log ;;
  if (LOGSIZE <=? lh_n l) || (log_size l - 1 <=? lh_n l) then panic "too big a transaction" else
  if outstanding l <? 1 then panic "log_write outside of trans" else
  lock log_lock ;;;
  x <- buf_get b ;;
  i <- try_get (fun s => let l := log (res s) in find_block (lh_block l) (Z.to_nat (lh_n l)) 0 (blockno x)) ;;
  set_log_block i (s32 (blockno x)) ;;;
  log_set (fun l => if Z.of_nat i =? lh_n l then l <| lh_n := lh_n l + 1 |> else l) ;;;
  buf_set b (fun x => x <| bflags ::= fun f => Z.lor f B_DIRTY |>) ;;;
  unlock log_lock.
End log.
