(* ===== verification/Crash.v ===== *)
(** * The log is atomic across crashes (log.c over bio.c and memide.c)

    Each routine of the log is characterised by the list of disk writes it
    makes, in order.  [after] says what such a list does to the disk, to the
    blocks as seen through the cache and to the set of blocks waiting to be
    written.  The crash theorem cuts the writes of [commit] at any point. *)

From S2P Require Import Prelude Machine Spinlock CString ProcTable Proc Lifecycle Ready Aging.
From S2P Require Import ProcLemmas Scheduler Reach Blocking Kstate Sleeplock Solo Devices Disk Bio Cache Layout Log.

(** ** Lists of writes *)

Notation write := (Z * list Z)%type.

Definition apply_write (D : list (list Z)) (w : write) : list (list Z) := <[Z.to_nat w.1 := w.2]> D.
Definition apply_writes (ws : list write) (D : list (list Z)) : list (list Z) := foldl apply_write D ws.

(** The data of the last write to [n], if there is one. *)
Fixpoint last_write (ws : list write) (n : Z) : option (list Z) :=
  match ws with
  | [] => None
  | w :: ws' => match last_write ws' n with Some d => Some d | None => if w.1 =? n then Some w.2 else None end
  end.
Definition overlay (ws : list write) (V : Z → option (list Z)) (n : Z) : option (list Z) :=
  match last_write ws n with Some d => Some d | None => V n end.

Lemma last_write_app ws1 ws2 n :
  last_write (ws1 ++ ws2) n = match last_write ws2 n with Some d => Some d | None => last_write ws1 n end.
Proof.
  induction ws1 as [|w ws1 IH]; simpl; [by destruct (last_write ws2 n)|]. rewrite IH. by destruct (last_write ws2 n).
Qed.
Lemma overlay_app ws1 ws2 V n : overlay (ws1 ++ ws2) V n = overlay ws2 (overlay ws1 V) n.
Proof. unfold overlay. rewrite last_write_app. by destruct (last_write ws2 n). Qed.
Lemma overlay_nil V n : overlay [] V n = V n.
Proof. done. Qed.

Lemma last_write_None ws n : last_write ws n = None ↔ n ∉ ws.*1.
Proof.
  induction ws as [|[m d] ws IH]; simpl; [split; [set_solver|done]|]. rewrite not_elem_of_cons, <- IH.
  destruct (last_write ws n); [naive_solver|]. destruct (Z.eqb_spec m n); naive_solver.
Qed.

Lemma last_write_nodup ws i n d : NoDup ws.*1 → ws !! i = Some (n, d) → last_write ws n = Some d.
Proof.
  revert i. induction ws as [|[m e] ws IH]; intros i Hnd Hi; [done|]. apply NoDup_cons in Hnd as [Hm Hnd]. cbn in Hm.
  destruct i as [|i]; simpl in *.
  - injection Hi as -> ->. apply last_write_None in Hm as ->. by rewrite Z.eqb_refl.
  - by rewrite (IH i Hnd Hi).
Qed.

Lemma apply_writes_app ws1 ws2 D : apply_writes (ws1 ++ ws2) D = apply_writes ws2 (apply_writes ws1 D).
Proof. apply foldl_app. Qed.
Lemma length_apply_writes ws D : length (apply_writes ws D) = length D.
Proof. revert D. induction ws as [|w ws IH]; intros D; [done|].
  change (length (apply_writes ws (apply_write D w)) = length D). rewrite IH. apply length_insert.
Qed.

(** Block [n] after the writes. *)
Lemma lookup_apply_writes ws D n :
  Forall (fun w : write => 0 ≤ w.1 < Z.of_nat (length D)) ws → 0 ≤ n →
  apply_writes ws D !! Z.to_nat n = overlay ws (fun m => D !! Z.to_nat m) n.
Proof.
  intros Hws Hn. revert D Hws. induction ws as [|[m d] ws IH]; intros D Hws; [done|].
  apply Forall_cons in Hws as [Hm Hws]. cbn [apply_writes foldl]. unfold apply_writes in IH. rewrite IH.
  - unfold overlay. cbn [last_write]. destruct (last_write ws n); [done|]. unfold apply_write. cbn in *.
    destruct (Z.eqb_spec m n) as [->|Hne]; [apply list_lookup_insert_eq; lia|by rewrite list_lookup_insert_ne by lia].
  - eapply Forall_impl; [exact Hws|]. intros w. unfold apply_write. by rewrite length_insert.
Qed.

Lemma zip_fst {A B} (l1 : list A) (l2 : list B) : length l1 = length l2 → (zip l1 l2).*1 = l1.
Proof. intros. apply fst_zip. lia. Qed.

Lemma Forall2_transfer (V V' : Z → option (list Z)) bs ds :
  (∀ b, b ∈ bs → V' b = V b) → Forall2 (fun b d => V b = Some d) bs ds → Forall2 (fun b d => V' b = Some d) bs ds.
Proof.
  intros Hv H. induction H as [|b d bs ds Hb H IH]; constructor; [rewrite Hv; set_solver|]. apply IH. set_solver.
Qed.

(** Blocks just written read back. *)
Lemma overlay_written V bs ds ws :
  NoDup bs → length bs = length ds → (∀ b, b ∈ bs → b ∉ ws.*1) →
  Forall2 (fun b d => overlay (zip bs ds ++ ws) V b = Some d) bs ds.
Proof.
  intros Hnd Hlen Hws. apply Forall2_same_length_lookup. split; [done|]. intros i b d Hb Hd. unfold overlay.
  rewrite last_write_app, (proj2 (last_write_None ws b)) by (by eapply Hws, list_elem_of_lookup_2).
  rewrite (last_write_nodup _ i b d); [done|by rewrite zip_fst|by apply lookup_zip_Some].
Qed.

(** ** What a routine did

    [after me h r ws r']: from [r] the writes [ws] were made and the buffers
    [h] are held in [r']. *)

Record after (me : Z) (h : list nat) (r : kres) (ws : list write) (r' : kres) : Prop := {
  af_ok : ∃ l, cache_ok me r' l h;
  af_disk : memdisk r' = apply_writes ws (memdisk r);
  af_writes : writes r' = writes r ++ ws;
  af_view : ∀ n, 0 ≤ n → view r' n = overlay ws (view r) n;
  af_dirty : ∀ n, dirty r' n ↔ n ∉ ws.*1 ∧ dirty r n;
  af_frame : r' = r <| bufs := bufs r' |> <| slocks := slocks r' |> <| memdisk := memdisk r' |>
    <| writes := writes r' |> <| log := log r' |>;
  af_range : Forall (fun w : write => 0 ≤ w.1 < Z.of_nat (length (memdisk r))) ws }.

Lemma after_trans me h h' r ws1 r1 ws2 r2 :
  after me h r ws1 r1 → after me h' r1 ws2 r2 → after me h' r (ws1 ++ ws2) r2.
Proof.
  intros [A1 A2 A3 A4 A5 A6 A7] [B1 B2 B3 B4 B5 B6 B7]. split.
  - done.
  - by rewrite apply_writes_app, B2, A2.
  - by rewrite B3, A3, app_assoc.
  - intros n Hn. rewrite B4, overlay_app by done. unfold overlay. by rewrite A4.
  - intros n. rewrite B5, A5, fmap_app, elem_of_app. tauto.
  - rewrite B6, A6. reflexivity.
  - apply Forall_app_2; [done|]. by rewrite A2, length_apply_writes in B7.
Qed.

Lemma after_refl me h r l : cache_ok me r l h → after me h r [] r.
Proof.
  intros H. split; [by eauto|done| |done|set_solver|by destruct r|done]. by rewrite app_nil_r.
Qed.

Lemma cache_ok_frame me r r' l h :
  bufs r' = bufs r → slocks r' = slocks r → memdisk r' = memdisk r → cache_ok me r l h → cache_ok me r' l h.
Proof. intros H1 H2 H3 [E1 E2 E3 E4 E5 E6 E7 E8]. split; rewrite ?H1, ?H2, ?H3; done. Qed.

(** Changing the log in memory. *)
Lemma after_log me h r ws r' lg : after me h r ws r' → after me h r ws (r' <| log := lg |>).
Proof.
  intros [[l A1] A2 A3 A4 A5 A6 A7]. split; try done.
  - exists l. by eapply cache_ok_frame; [..|exact A1].
  - rewrite A6 at 1. reflexivity.
Qed.

Lemma after_frame me h r r' :
  (∃ l, cache_ok me r' l h) → (∀ n, view r' n = view r n) → (∀ n, dirty r' n ↔ dirty r n) →
  r' = r <| bufs := bufs r' |> <| slocks := slocks r' |> → after me h r [] r'.
Proof.
  intros Hok Hv Hd Hf. split; try done.
  - by rewrite Hf.
  - by rewrite Hf, app_nil_r.
  - set_solver.
  - rewrite Hf at 1. destruct r. rewrite Hf. reflexivity.
Qed.

Section copying.
Context {FU : Fuel} {DK : Disk} (Hdisk : in_memory DK).
Context {s : kstate} {c p : nat} {u : cpu} {q : proc} (Hsolo : solo s c p u q).

Lemma buf_data_ret b x r : bufs r !! b = Some x → buf_data b (with_res s r) = Ret (bdata x) (with_res s r).
Proof. intros Hx. unfold buf_data. by rewrite (bind_ret _ _ _ _ _ (buf_get_ret b x (with_res s r) Hx)). Qed.

Lemma set_data_solo b x f d r :
  bufs r !! b = Some x → f (bdata x) = Some d →
  set_data b f (with_res s r) = Ret tt (with_res s (with_buf b (x <| bdata := d |>) r)).
Proof.
  intros Hx Hf. unfold set_data. rewrite (bind_ret _ _ _ _ _ (buf_data_ret b x r Hx)).
  rewrite (bind_ret _ _ _ d (with_res s r)) by (unfold try_get; by rewrite Hf). by apply buf_set_solo.
Qed.

(** New data in a held buffer. *)
Lemma set_data_ok {r l h b x} d :
  cache_ok (pid q) r l h → b ∈ h → bufs r !! b = Some x → length d = Z.to_nat BSIZE →
  let r' := with_buf b (x <| bdata := d |>) r in
  cache_ok (pid q) r' l h ∧
  (∀ n, 0 ≤ n → view r' n = if decide (n = blockno x) then Some d else view r n) ∧
  (∀ n, dirty r' n ↔ dirty r n).
Proof.
  intros Hok Hin Hx Hd. destruct (held_facts Hok Hin Hx) as (Hb & Hdev & Hn & Hf & Hlen & Href & _). cbv zeta.
  edestruct (held_mod (y := x <| bdata := d |>) (r' := with_buf b (x <| bdata := d |>) r) Hok Hin Hx) as (H1 & H2 & H3);
    [done| |reflexivity|reflexivity|reflexivity|done|intros e He; by apply (cache_disk _ _ _ _ Hok) in He|].
  { split; [done|by auto|done]. }
  split_and!; [exact H1|exact H2|]. intros n. rewrite H3. case_decide as E; [|done]. subst n. cbn.
  split; [intros Hfl; exists b, x; by repeat split|]. intros (b' & z & (Hb' & Hz & Hdz & Hbz) & Hfz).
  assert (b' = b) as -> by (by eapply (cache_uniq _ _ _ _ Hok)). congruence.
Qed.

(** Put [d] into a held buffer and write it to the disk. *)
Definition stored (b : nat) (x : buf) (d : list Z) (r : kres) : kres :=
  written b (x <| bdata := d |>) (with_buf b (x <| bdata := d |>) r).

Lemma store_solo {r l h b x} d :
  cache_ok (pid q) r l h → b ∈ h → bufs r !! b = Some x → length d = Z.to_nat BSIZE →
  bwrite b (with_res s (with_buf b (x <| bdata := d |>) r)) = Ret tt (with_res s (stored b x d r)) ∧
  after (pid q) h r [(blockno x, d)] (stored b x d r) ∧
  bufs (stored b x d r) !! b = Some (x <| bdata := d |> <| bflags := B_VALID |>) ∧
  (∀ e, e ≠ b → bufs (stored b x d r) !! e = bufs r !! e).
Proof.
  intros Hok Hin Hx Hd. destruct (set_data_ok d Hok Hin Hx Hd) as (Hok1 & Hv1 & Hd1).
  set (x1 := x <| bdata := d |>) in *. set (r1 := with_buf b x1 r) in *.
  assert (bufs r1 !! b = Some x1) as Hx1 by (apply lookup_with_buf; eauto).
  change (stored b x d r) with (written b x1 r1).
  split; [exact (bwrite_solo Hdisk Hsolo Hok1 Hin Hx1)|]. destruct (written_ok Hok1 Hin Hx1) as (Hok2 & Hv2 & Hd2).
  destruct (held_facts Hok Hin Hx) as (_ & _ & Hn & _). split; [|split].
  - split; [by eauto|done|done| | |reflexivity|by constructor].
    + intros n Hn0. rewrite Hv2, Hv1 by done. unfold overlay. cbn.
      destruct (Z.eqb_spec (blockno x) n); case_decide; congruence.
    + intros n. rewrite Hd2, Hd1. change (blockno x1) with (blockno x). cbn. set_solver.
  - apply lookup_with_buf. eauto.
  - intros e He. cbn. by rewrite !list_lookup_insert_ne.
Qed.

Lemma bread_after {r l h n b r'} : bread_post (pid q) r l h n b r' → after (pid q) (b :: h) r [] r' ∧ log r' = log r.
Proof.
  intros [H1 H2 H3 H4 H5 H6 H7]. split; [apply after_frame; eauto|by rewrite H6].
Qed.

Lemma brelse_after {r l h b r' l' h'} :
  brelse_post (q := q) r l h b r' l' h' → after (pid q) h' r [] r' ∧ log r' = log r.
Proof.
  intros [H1 H2 H3 H4 H5 H6]. split; [apply after_frame; eauto|by rewrite H5].
Qed.

(** The end of the loop bodies of [write_log] and [install_trans]. *)
Definition copy_out (src dst : nat) : K unit :=
  d <- buf_data src ;;
  set_data dst (fun _ => Some d) ;;;
  bwrite dst ;;;
  brelse src ;;;
  brelse dst.

Lemma copy_out_solo r l h src dst xs xd :
  cache_ok (pid q) r l h → (∀ e, e ∈ h ↔ e = src ∨ e = dst) → src ≠ dst →
  bufs r !! src = Some xs → bufs r !! dst = Some xd → clean (memdisk r) xs →
  ∃ r', copy_out src dst (with_res s r) = Ret tt (with_res s r') ∧
    after (pid q) [] r [(blockno xd, bdata xs)] r' ∧ log r' = log r.
Proof.
  intros Hok Hh Hne Hs Hd Hcl. assert (src ∈ h) as Hsin by (apply Hh; auto). assert (dst ∈ h) as Hdin by (apply Hh; auto).
  destruct (held_facts Hok Hsin Hs) as (Hsb & Hsdev & _ & _ & Hlen & _).
  pose proof (held_uniq Hok Hdin Hd src xs Hsb Hne Hs Hsdev) as [_ Hblk].
  unfold copy_out. rewrite (bind_ret _ _ _ _ _ (buf_data_ret src xs r Hs)).
  rewrite (bind_ret _ _ _ _ _ (set_data_solo dst xd _ (bdata xs) r Hd eq_refl)).
  destruct (store_solo (bdata xs) Hok Hdin Hd Hlen) as (Hw & Haf1 & Hx1 & Hoth).
  set (r1 := stored dst xd (bdata xs) r) in *. rewrite (bind_ret _ _ _ _ _ Hw).
  destruct (af_ok _ _ _ _ _ Haf1) as [l1 Hok1].
  assert (memdisk r1 !! Z.to_nat (blockno xd) = Some (bdata xs)) as Hd1.
  { unfold r1, stored. cbn. apply list_lookup_insert_eq. destruct (held_facts Hok Hdin Hd) as (_ & _ & ? & _). lia. }
  destruct (brelse_solo Hsolo [dst] src xs Hok1 Hsin) as (r2 & l2 & Hr2 & Hp2).
  - by rewrite Hoth.
  - intros A B. rewrite <- (Hcl A B). unfold r1, stored. cbn. by rewrite list_lookup_insert_ne.
  - intros e. rewrite Hh, list_elem_of_singleton. naive_solver.
  - rewrite (bind_ret _ _ _ _ _ Hr2). destruct (brelse_after Hp2) as [Haf2 Hl2].
    destruct (bl_others _ _ _ _ _ _ _ Hp2 dst _ (not_eq_sym Hne) Hx1) as (y & Hy & Hs2%same_fields).
    destruct Hs2 as (E1 & E2 & E3 & E4 & E5).
    destruct (brelse_solo Hsolo [] dst y (bl_ok _ _ _ _ _ _ _ Hp2)) as (r3 & l3 & Hr3 & Hp3).
    + set_solver.
    + done.
    + intros _ _. rewrite (af_disk _ _ _ _ _ Haf2). cbn [apply_writes foldl]. by rewrite <- E3, <- E5.
    + set_solver.
    + exists r3. split; [done|]. destruct (brelse_after Hp3) as [Haf3 Hl3]. split; [|by rewrite Hl3, Hl2].
      change [(blockno xd, bdata xs)] with ([(blockno xd, bdata xs)] ++ [] ++ []).
      eapply after_trans; [exact Haf1|]. by eapply after_trans.
Qed.

(** The blocks waiting to be written are among [ns]. *)
Definition pinned (r : kres) (ns : list Z) : Prop := ∀ m, dirty r m → m ∈ ns.

Lemma two_reads r l a n ns :
  cache_ok (pid q) r l [] → a ≠ n → 0 ≤ a < Z.of_nat (length (memdisk r)) → 0 ≤ n < Z.of_nat (length (memdisk r)) →
  pinned r ns → (length ns < NBUF)%nat → dirty r n ∨ (S (length ns) < NBUF)%nat →
  ∃ b1 r1 b2 r2, bread 1 a (with_res s r) = Ret b1 (with_res s r1) ∧ bread 1 n (with_res s r1) = Ret b2 (with_res s r2) ∧
    bread_post (pid q) r l [] a b1 r1 ∧ bread_post (pid q) r1 l [b1] n b2 r2.
Proof.
  intros Hok Han Ha Hn Hns Hlen Hroom.
  destruct (bread_solo Hdisk Hsolo Hok a) as (b1 & r1 & Hr1 & Hp1); [intros ??; set_solver|done| |].
  { left. eapply available_count; [exact Hok|exact Hns|]. simpl. lia. }
  pose proof (br_ok _ _ _ _ _ _ _ Hp1) as Hok1.
  assert (memdisk r1 = memdisk r) as Hm by (by rewrite (br_frame _ _ _ _ _ _ _ Hp1)).
  destruct (bread_solo Hdisk Hsolo Hok1 n) as (b2 & r2 & Hr2 & Hp2).
  - intros b x ->%list_elem_of_singleton (_ & Hx & _ & Hbn).
    destruct (br_buf _ _ _ _ _ _ _ Hp1) as (x' & (_ & Hx' & _ & Hbn') & _). congruence.
  - by rewrite Hm.
  - destruct Hroom as [Hd|Hroom].
    + right. apply (br_dirty _ _ _ _ _ _ _ Hp1) in Hd as (b & x & Hx & _). eauto.
    + left. eapply available_count; [exact Hok1| |].
      * intros m Hmd. by apply Hns, (br_dirty _ _ _ _ _ _ _ Hp1).
      * simpl. lia.
  - by exists b1, r1, b2, r2.
Qed.

(** One round of [write_log] or [install_trans]: blocks [a] and [n] are read
    and one is copied to the other. *)
Lemma copy_solo (rd1 rd2 : K nat) r l a n ns (out : bool) d :
  (∀ r', log r' = log r → rd1 (with_res s r') = bread 1 a (with_res s r') ∧ rd2 (with_res s r') = bread 1 n (with_res s r')) →
  cache_ok (pid q) r l [] → a ≠ n → 0 ≤ a < Z.of_nat (length (memdisk r)) → 0 ≤ n < Z.of_nat (length (memdisk r)) →
  pinned r ns → (length ns < NBUF)%nat → dirty r n ∨ (S (length ns) < NBUF)%nat →
  view r (if out then n else a) = Some d →
  ∃ r', bind rd1 (fun b1 => bind rd2 (fun b2 => if out then copy_out b2 b1 else copy_out b1 b2))
      (with_res s r) = Ret tt (with_res s r') ∧
    after (pid q) [] r [(if out then a else n, d)] r' ∧ log r' = log r.
Proof.
  intros Hrd Hok Han Ha Hn Hns Hlen Hroom Hv.
  destruct (two_reads r l a n ns) as (b1 & r1 & b2 & r2 & Hr1 & Hr2 & Hp1 & Hp2); try done.
  destruct (bread_after Hp1) as [Haf1 Hl1], (bread_after Hp2) as [Haf2 Hl2].
  rewrite <- (proj1 (Hrd r eq_refl)) in Hr1. rewrite <- (proj2 (Hrd r1 Hl1)) in Hr2.
  rewrite (bind_ret _ _ _ _ _ Hr1), (bind_ret _ _ _ _ _ Hr2). clear Hr1 Hr2.
  destruct Hp1 as [_ _ (x1 & (_ & Hx1 & _ & Hn1) & Hv1 & Hc1) _ _ Hf1 _].
  destruct Hp2 as [Hok2 Hnew (x2 & (_ & Hx2 & _ & Hn2) & Hv2 & Hc2) _ _ Hf2 Hoth].
  assert (b1 ≠ b2) as Hb by set_solver. rewrite <- (Hoth b1 Hb) in Hx1.
  assert (memdisk r1 = memdisk r) as Hm1 by (by rewrite Hf1). assert (memdisk r2 = memdisk r) as Hm2 by (by rewrite Hf2).
  rewrite (af_view _ _ _ _ _ Haf1) in Hv2 by lia. unfold overlay in Hv2. cbn in Hv2.
  rewrite Hm1 in Hc2. rewrite <- Hm2 in Hc1, Hc2.
  assert (∀ e, e ∈ [b2; b1] ↔ e = b2 ∨ e = b1) as Hh by set_solver.
  assert (∀ ws r', after (pid q) [] r2 ws r' → after (pid q) [] r ws r') as Hwrap.
  { intros ws r' Haf. change ws with ([] ++ [] ++ ws). eapply after_trans; [exact Haf1|]. by eapply after_trans. }
  destruct out.
  - destruct (copy_out_solo r2 l [b2; b1] b2 b1 x2 x1) as (r' & Hr' & Haf & Hl'); try done.
    exists r'. split; [done|]. split; [|congruence]. apply Hwrap. congruence.
  - destruct (copy_out_solo r2 l [b2; b1] b1 b2 x1 x2) as (r' & Hr' & Haf & Hl'); try done; [set_solver|].
    exists r'. split; [done|]. split; [|congruence]. apply Hwrap. congruence.
Qed.

(** ** The loops of the log *)

Lemma log_loop_solo (Inv : nat → kres → Prop) (body : nat → K unit) N n i r :
  (∀ i r, Inv i r → lh_n (log r) = Z.of_nat N) →
  (∀ i r, (i < N)%nat → Inv i r → ∃ r', body i (with_res s r) = Ret tt (with_res s r') ∧ Inv (S i) r') →
  Inv i r → (i ≤ N)%nat → (N ≤ i + n)%nat →
  ∃ r', log_loop n i body (with_res s r) = Ret tt (with_res s r') ∧ Inv N r'.
Proof.
  intros HN Hstep. revert i r. induction n as [|n IH]; intros i r Hi Hle Hn.
  - assert (i = N) as -> by lia. exists r. split; [|done]. cbn. change (log (res (with_res s r))) with (log r).
    rewrite (HN _ _ Hi), Z.ltb_irrefl. done.
  - cbn [log_loop]. rewrite (bind_ret _ _ _ (lh_n (log r)) (with_res s r)) by done.
    rewrite (HN _ _ Hi). destruct (Z.ltb_spec (Z.of_nat i) (Z.of_nat N)).
    + destruct (Hstep i r) as (r1 & Hr1 & Hi1); [lia|done|]. rewrite (bind_ret _ _ _ _ _ Hr1). apply IH; [done|lia|lia].
    + assert (i = N) as -> by lia. exists r. done.
Qed.

(** The log in memory: the log is at block [ls], the transaction has the blocks [bl]. *)
Record log_at (lg : logstate) (ls : Z) (bl : list Z) : Prop := {
  la_dev : log_dev lg = 1;
  la_start : log_start lg = ls;
  la_n : lh_n lg = Z.of_nat (length bl);
  la_block : take (length bl) (lh_block lg) = bl;
  la_size : length (lh_block lg) = Z.to_nat LOGSIZE }.

(** Where the blocks are on a disk of [N] blocks. *)
Record geometry (N : nat) (ls : Z) (bl : list Z) : Prop := {
  ge_start : 0 ≤ ls;
  ge_log : ls + Z.of_nat (length bl) < Z.of_nat N < 2 ^ 31;
  ge_nodup : NoDup bl;
  ge_home : ∀ b, b ∈ bl → 0 ≤ b < Z.of_nat N ∧ ¬ ls ≤ b ≤ ls + Z.of_nat (length bl) }.

(** The log blocks of a transaction of [n] blocks. *)
Definition log_blocks (ls : Z) (n : nat) : list Z := (fun i => ls + 1 + Z.of_nat i) <$> seq 0 n.

Lemma length_log_blocks ls n : length (log_blocks ls n) = n.
Proof. unfold log_blocks. by rewrite length_fmap, length_seq. Qed.
Lemma lookup_log_blocks ls n i : (i < n)%nat → log_blocks ls n !! i = Some (ls + 1 + Z.of_nat i).
Proof. intros. unfold log_blocks. by rewrite list_lookup_fmap, lookup_seq_lt. Qed.
Lemma elem_of_log_blocks ls n b : b ∈ log_blocks ls n ↔ ls < b ≤ ls + Z.of_nat n.
Proof.
  unfold log_blocks. rewrite list_elem_of_fmap. split.
  - intros (i & -> & Hi%elem_of_seq). lia.
  - intros Hb. exists (Z.to_nat (b - ls - 1)). rewrite elem_of_seq. lia.
Qed.
Lemma NoDup_log_blocks ls n : NoDup (log_blocks ls n).
Proof. apply NoDup_fmap_2_strong; [|apply NoDup_seq]. intros x y _ _. lia. Qed.

Lemma log_at_block lg ls bl i b : log_at lg ls bl → bl !! i = Some b → lh_block lg !! i = Some b.
Proof.
  intros Hl Hi. rewrite <- (la_block _ _ _ Hl) in Hi. by apply lookup_take_Some in Hi as [? _].
Qed.

Lemma log_at_length lg ls bl : log_at lg ls bl → (length bl ≤ Z.to_nat LOGSIZE)%nat.
Proof. intros Hl. rewrite <- (la_block _ _ _ Hl), <- (la_size _ _ _ Hl), length_take. lia. Qed.

Lemma bread_log_eq lg ls bl r t :
  log_at lg ls bl → log r = lg → 0 ≤ ls + t < 2 ^ 31 → bread_log t (with_res s r) = bread 1 (ls + t) (with_res s r).
Proof.
  intros Hl <- Ht. unfold bread_log. rewrite (bind_ret _ _ _ (log r) (with_res s r)) by done.
  rewrite (la_dev _ _ _ Hl), (la_start _ _ _ Hl). unfold u32. by rewrite (Z.mod_small (ls + t)) by lia.
Qed.

Lemma bread_home_eq lg ls bl r i b :
  log_at lg ls bl → log r = lg → bl !! i = Some b → 0 ≤ b < 2 ^ 31 → bread_home i (with_res s r) = bread 1 b (with_res s r).
Proof.
  intros Hl <- Hi Hb. unfold bread_home. rewrite (bind_ret _ _ _ (log r) (with_res s r)) by done.
  rewrite (bind_ret _ _ _ b (with_res s r)).
  - rewrite (la_dev _ _ _ Hl). unfold u32. by rewrite (Z.mod_small b) by lia.
  - unfold log_block, try_get. cbn. by rewrite (log_at_block _ _ _ _ _ Hl Hi).
Qed.

(** Every home block is dirty, or nothing is. *)
Definition roomy (r : kres) (bl : list Z) : Prop :=
  (pinned r bl ∧ (length bl < NBUF)%nat ∧ ∀ b, b ∈ bl → dirty r b) ∨ pinned r [].

Section loops.
Context {r : kres} {l : list nat} {ls : Z} {bl : list Z} {ds : list (list Z)} (out : bool).
Context (Hok : cache_ok (pid q) r l []) (Hlog : log_at (log r) ls bl) (Hgeo : geometry (length (memdisk r)) ls bl).
Let al := log_blocks ls (length bl).
Let src := if out then bl else al.
Let dst := if out then al else bl.
Context (Hds : Forall2 (fun b d => view r b = Some d) src ds) (Hroom : roomy r bl).

Definition copy_round (i : nat) : K unit :=
  b1 <- bread_log (Z.of_nat i + 1) ;;
  b2 <- bread_home i ;;
  if out then copy_out b2 b1 else copy_out b1 b2.

Lemma copy_disjoint b : b ∈ src → b ∉ dst.
Proof.
  unfold src, dst, al. pose proof (ge_home _ _ _ Hgeo) as Hh.
  destruct out; rewrite elem_of_log_blocks; intros H1 H2; apply Hh in H1 || apply Hh in H2; lia.
Qed.

Lemma copy_dst_nodup : NoDup dst.
Proof. unfold dst, al. destruct out; [apply NoDup_log_blocks|apply Hgeo]. Qed.

Lemma copy_writes_fst i : (take i (zip dst ds)).*1 = take i dst.
Proof.
  rewrite fmap_take, fst_zip; [done|]. apply Forall2_length in Hds. unfold src, dst, al in *.
  destruct out; rewrite ?length_log_blocks in *; lia.
Qed.

Lemma copy_unwritten i n : bl !! i = Some n → n ∉ take i dst.
Proof.
  intros Hn Hin. unfold dst, al in Hin. destruct out.
  - apply elem_of_take in Hin as (j & Hj & _). apply list_elem_of_lookup_2, elem_of_log_blocks in Hj.
    destruct (ge_home _ _ _ Hgeo n); [by eapply list_elem_of_lookup_2|]. lia.
  - apply elem_of_take in Hin as (j & Hj & Hji). pose proof (NoDup_lookup _ _ _ _ (ge_nodup _ _ _ Hgeo) Hn Hj). lia.
Qed.

Lemma copy_room i n r1 :
  bl !! i = Some n → after (pid q) [] r (take i (zip dst ds)) r1 →
  ∃ ns, pinned r1 ns ∧ (length ns < NBUF)%nat ∧ (dirty r1 n ∨ (S (length ns) < NBUF)%nat).
Proof.
  intros Hn Haf.
  assert (∀ ns, pinned r ns → pinned r1 ns) as Hpin by (intros ns Hp m Hm; apply Hp, (af_dirty _ _ _ _ _ Haf), Hm).
  destruct Hroom as [(Hp & Hl & Hd)|Hp].
  - exists bl. split; [by apply Hpin|]. split; [done|]. left. apply (af_dirty _ _ _ _ _ Haf).
    rewrite copy_writes_fst. split; [by apply copy_unwritten|]. apply Hd. by eapply list_elem_of_lookup_2.
  - exists []. split; [by apply Hpin|]. unfold NBUF. simpl. split; [lia|right; lia].
Qed.

Lemma copy_round_solo i r1 :
  (i < length bl)%nat → after (pid q) [] r (take i (zip dst ds)) r1 → log r1 = log r →
  ∃ r2, copy_round i (with_res s r1) = Ret tt (with_res s r2) ∧
    after (pid q) [] r (take (S i) (zip dst ds)) r2 ∧ log r2 = log r.
Proof.
  intros Hi Haf Hl1. destruct (lookup_lt_is_Some_2 bl i Hi) as [n Hn]. set (a := ls + 1 + Z.of_nat i).
  assert (al !! i = Some a) as Ha by (by apply lookup_log_blocks).
  destruct (af_ok _ _ _ _ _ Haf) as [l1 Hok1]. pose proof (ge_log _ _ _ Hgeo). pose proof (ge_start _ _ _ Hgeo).
  assert (n ∈ bl) as Hnin by (by eapply list_elem_of_lookup_2). destruct (ge_home _ _ _ Hgeo n Hnin) as [Hnr Hnl].
  assert (length (memdisk r1) = length (memdisk r)) as Hlen by (rewrite (af_disk _ _ _ _ _ Haf); apply length_apply_writes).
  assert (src !! i = Some (if out then n else a)) as Hsrc by (unfold src; by destruct out).
  assert (dst !! i = Some (if out then a else n)) as Hdst by (unfold dst; by destruct out).
  destruct (Forall2_lookup_l _ _ _ _ _ Hds Hsrc) as (d & Hd & Hv).
  assert (zip dst ds !! i = Some (if out then a else n, d)) as Hz by (apply lookup_zip_Some; done).
  assert ((if out then n else a) ∉ dst) as Hnot by (apply copy_disjoint; by eapply list_elem_of_lookup_2).
  assert (view r1 (if out then n else a) = Some d) as Hv1.
  { rewrite (af_view _ _ _ _ _ Haf) by (destruct out; lia). unfold overlay.
    rewrite (proj2 (last_write_None _ _)); [done|]. rewrite copy_writes_fst. intros (j & Hj & _)%elem_of_take. eapply Hnot, list_elem_of_lookup_2, Hj. }
  destruct (copy_room i n r1 Hn Haf) as (ns & Hns & Hlns & Hdirty).
  destruct (copy_solo (bread_log (Z.of_nat i + 1)) (bread_home i) r1 l1 a n ns out d)
    as (r2 & Hr2 & Haf2 & Hl2); try done.
  - intros r' Hr'. rewrite Hl1 in Hr'. split; [|by eapply bread_home_eq; [exact Hlog|done|done|lia]].
    replace a with (ls + (Z.of_nat i + 1)) by (unfold a; lia). eapply bread_log_eq; [exact Hlog|done|lia].
  - unfold a. lia.
  - unfold a. lia.
  - lia.
  - exists r2. split; [exact Hr2|]. split; [|congruence].
    rewrite (take_S_r _ _ _ Hz). by eapply after_trans.
Qed.

Lemma copy_loop_solo :
  ∃ r', for_log copy_round (with_res s r) = Ret tt (with_res s r') ∧
    after (pid q) [] r (zip dst ds) r' ∧ log r' = log r.
Proof.
  destruct (log_loop_solo (fun i r1 => after (pid q) [] r (take i (zip dst ds)) r1 ∧ log r1 = log r) copy_round
    (length bl) (S (Z.to_nat LOGSIZE)) 0 r) as (r' & Hr' & Haf & Hl').
  - intros i r1 [_ ->]. apply Hlog.
  - intros i r1 Hi [Haf Hl]. by apply copy_round_solo.
  - split; [|done]. by eapply after_refl.
  - lia.
  - pose proof (log_at_length _ _ _ Hlog). lia.
  - exists r'. split; [done|]. split; [|done]. rewrite take_ge in Haf; [done|]. rewrite length_zip.
    unfold dst, al. destruct out; rewrite ?length_log_blocks; lia.
Qed.
End loops.

(** ** The header *)

(** Header block [d] records the transaction [bl]. *)
Record head_is (d : list Z) (bl : list Z) : Prop := {
  hi_len : length d = Z.to_nat BSIZE;
  hi_n : head_n d = Some (Z.of_nat (length bl));
  hi_block : ∀ i b, bl !! i = Some b → head_block d i = Some b }.

Lemma s32_u32 v : 0 ≤ v < 2 ^ 31 → s32 (u32 v) = v.
Proof. intros Hv. unfold s32, u32. rewrite (Z.mod_small v) by lia. rewrite Z.mod_small by lia. lia. Qed.

Lemma set_head_n_spec d n :
  length d = Z.to_nat BSIZE → 0 ≤ n < 2 ^ 31 →
  ∃ d', set_head_n d n = Some d' ∧ length d' = Z.to_nat BSIZE ∧ head_n d' = Some n.
Proof.
  intros Hl Hn. destruct (put32_Some d 0 n) as [d' Hd']; [rewrite Hl; unfold BSIZE; lia|]. exists d'. split; [done|].
  split; [by rewrite <- Hl; eapply put_bytes_length|]. unfold head_n. rewrite (get32_put _ _ _ _ Hd'). cbn.
  by rewrite s32_u32.
Qed.

Lemma set_head_block_spec d i b :
  length d = Z.to_nat BSIZE → (i < Z.to_nat LOGSIZE)%nat → 0 ≤ b < 2 ^ 31 →
  ∃ d', set_head_block d i b = Some d' ∧ length d' = Z.to_nat BSIZE ∧ head_n d' = head_n d ∧
    head_block d' i = Some b ∧ ∀ j, j ≠ i → head_block d' j = head_block d j.
Proof.
  intros Hl Hi Hb. destruct (put32_Some d (4 + 4 * i) b) as [d' Hd'].
  { rewrite Hl. unfold BSIZE. unfold LOGSIZE, MAXOPBLOCKS in Hi. lia. }
  exists d'. split; [done|]. split; [by rewrite <- Hl; eapply put_bytes_length|]. unfold head_n, head_block. split_and!.
  - f_equal. apply (get32_put_ne _ _ _ _ _ Hd'). lia.
  - rewrite (get32_put _ _ _ _ Hd'). cbn. by rewrite s32_u32.
  - intros j Hj. f_equal. apply (get32_put_ne _ _ _ _ _ Hd'). lia.
Qed.

Lemma bread_head_eq lg ls bl r :
  log_at lg ls bl → log r = lg → 0 ≤ ls < 2 ^ 31 → bread_log 0 (with_res s r) = bread 1 ls (with_res s r).
Proof. intros Hl Hlg Hr. rewrite (bread_log_eq lg ls bl r 0) by (done || lia). by rewrite Z.add_0_r. Qed.

(** The loop of [write_head] on the held header buffer. *)
Lemma fill_head r b x ls bl d0 :
  bufs r !! b = Some x → log_at (log r) ls bl → (∀ e, e ∈ bl → 0 ≤ e < 2 ^ 31) →
  length d0 = Z.to_nat BSIZE → head_n d0 = Some (Z.of_nat (length bl)) →
  ∃ d, for_log (fun i => e <- log_block i ;; set_data b (fun d => set_head_block d i e))
      (with_res s (with_buf b (x <| bdata := d0 |>) r)) = Ret tt (with_res s (with_buf b (x <| bdata := d |>) r)) ∧
    head_is d bl.
Proof.
  intros Hx Hlog Hbl Hl0 Hn0. unfold for_log.
  set (Inv i r1 := ∃ d, r1 = with_buf b (x <| bdata := d |>) r ∧ length d = Z.to_nat BSIZE ∧
    head_n d = Some (Z.of_nat (length bl)) ∧ ∀ j e, (j < i)%nat → bl !! j = Some e → head_block d j = Some e).
  match goal with |- ∃ d, log_loop _ _ ?body _ = _ ∧ _ =>
    destruct (log_loop_solo Inv body (length bl) (S (Z.to_nat LOGSIZE)) 0 (with_buf b (x <| bdata := d0 |>) r))
      as (r1 & Hr1 & d & -> & Hd1 & Hd2 & Hd3) end.
  - intros i r1 (d & -> & _). apply Hlog.
  - intros i r1 Hi (d & -> & Hd1 & Hd2 & Hd3). destruct (lookup_lt_is_Some_2 bl i Hi) as [e He].
    pose proof (log_at_length _ _ _ Hlog).
    destruct (set_head_block_spec d i e Hd1) as (d' & Hs & H1 & H2 & H3 & H4);
      [lia|by eapply Hbl, list_elem_of_lookup_2|].
    rewrite (bind_ret _ _ _ e (with_res s (with_buf b (x <| bdata := d |>) r))).
    2:{ unfold log_block, try_get. cbn. by rewrite (log_at_block _ _ _ _ _ Hlog He). }
    rewrite (set_data_solo b (x <| bdata := d |>) _ d') by (try apply lookup_with_buf; eauto).
    eexists. split; [reflexivity|]. exists d'. rewrite with_buf_with_buf. split_and!; [done|done|congruence|].
    intros j e' Hj He'. destruct (decide (j = i)) as [->|Hne]; [congruence|]. rewrite H4 by done. apply Hd3; [lia|done].
  - exists d0. split_and!; try done. lia.
  - lia.
  - pose proof (log_at_length _ _ _ Hlog). lia.
  - exists d. split; [exact Hr1|]. split; [done|done|]. intros i e He. apply Hd3; [|done]. by eapply lookup_lt_Some.
Qed.

Lemma write_head_solo r l ls bl :
  cache_ok (pid q) r l [] → log_at (log r) ls bl → geometry (length (memdisk r)) ls bl →
  (∃ ns, pinned r ns ∧ (length ns < NBUF)%nat) →
  ∃ r' d, write_head (with_res s r) = Ret tt (with_res s r') ∧ head_is d bl ∧
    after (pid q) [] r [(ls, d)] r' ∧ log r' = log r.
Proof.
  intros Hok Hlog Hgeo (ns & Hns & Hlns). pose proof (ge_start _ _ _ Hgeo) as Hs0. pose proof (ge_log _ _ _ Hgeo) as Hln.
  destruct (bread_solo Hdisk Hsolo Hok ls) as (b & r1 & Hr1 & Hp1); [intros ??; set_solver|lia| |].
  { left. eapply available_count; [exact Hok|exact Hns|]. simpl. lia. }
  destruct (bread_after Hp1) as [Haf1 Hl1]. destruct Hp1 as [Hok1 _ (x & (Hb & Hx & Hdev & Hbn) & _) _ _ _ _].
  assert (b ∈ [b]) as Hin by set_solver. destruct (held_facts Hok1 Hin Hx) as (_ & _ & _ & _ & Hxl & _).
  rewrite <- (bread_head_eq _ _ _ r Hlog eq_refl) in Hr1 by lia.
  unfold write_head. rewrite (bind_ret _ _ _ _ _ Hr1).
  rewrite (bind_ret _ _ _ (lh_n (log r1)) (with_res s r1)) by done. rewrite Hl1, (la_n _ _ _ Hlog).
  destruct (set_head_n_spec (bdata x) (Z.of_nat (length bl)) Hxl) as (d0 & Hd0 & Hd0l & Hd0n); [lia|].
  rewrite (bind_ret _ _ _ _ _ (set_data_solo b x _ d0 r1 Hx Hd0)).
  destruct (fill_head r1 b x ls bl d0 Hx) as (d & Hfill & Hhead); [by rewrite Hl1| |done|done|].
  { intros e He%(ge_home _ _ _ Hgeo). lia. }
  rewrite (bind_ret _ _ _ _ _ Hfill).
  destruct (store_solo d Hok1 Hin Hx (hi_len _ _ Hhead)) as (Hw & Haf2 & Hx2 & _). rewrite Hbn in *.
  set (r2 := stored b x d r1) in *. rewrite (bind_ret _ _ _ _ _ Hw). destruct (af_ok _ _ _ _ _ Haf2) as [l2 Hok2].
  destruct (brelse_solo Hsolo [] b _ Hok2 Hin Hx2) as (r3 & l3 & Hr3 & Hp3).
  - intros _ _. unfold r2, stored. cbn. apply list_lookup_insert_eq. rewrite Hbn.
    pose proof (length_apply_writes [] (memdisk r)). rewrite (af_disk _ _ _ _ _ Haf1). cbn. lia.
  - set_solver.
  - destruct (brelse_after Hp3) as [Haf3 Hl3]. exists r3, d. split_and!; [done|done| |by rewrite Hl3, <- Hl1].
    change [(ls, d)] with ([] ++ [(ls, d)] ++ []). eapply after_trans; [exact Haf1|]. by eapply after_trans.
Qed.

(** The loop of [read_head]. *)
Lemma load_head r ls bl bl0 d :
  log_at (log r) ls bl0 → head_is d bl → (length bl ≤ Z.to_nat LOGSIZE)%nat →
  ∃ lg, for_log (fun i => e <- try_get (fun _ => head_block d i) ;; set_log_block i e)
      (with_res s (r <| log ::= fun l => l <| lh_n := Z.of_nat (length bl) |> |>)) = Ret tt (with_res s (r <| log := lg |>)) ∧
    log_at lg ls bl.
Proof.
  intros Hlog Hhead Hlen. unfold for_log.
  set (Inv i r1 := ∃ lg, r1 = r <| log := lg |> ∧ log_dev lg = 1 ∧ log_start lg = ls ∧ lh_n lg = Z.of_nat (length bl) ∧
    length (lh_block lg) = Z.to_nat LOGSIZE ∧ ∀ j, (j < i)%nat → lh_block lg !! j = bl !! j).
  match goal with |- ∃ lg, log_loop _ _ ?body (with_res _ ?r0) = _ ∧ _ =>
    destruct (log_loop_solo Inv body (length bl) (S (Z.to_nat LOGSIZE)) 0 r0)
      as (r1 & Hr1 & lg & -> & H1 & H2 & H3 & H4 & H5) end.
  - intros i r1 (lg & -> & _ & _ & Hn & _). done.
  - intros i r1 Hi (lg & -> & H1 & H2 & H3 & H4 & H5). destruct (lookup_lt_is_Some_2 bl i Hi) as [e He].
    destruct (lookup_lt_is_Some_2 (lh_block lg) i) as [o Ho]; [lia|].
    rewrite (bind_ret _ _ _ e (with_res s (r <| log := lg |>))).
    2:{ unfold try_get. by rewrite (hi_block _ _ Hhead i e He). }
    unfold set_log_block. rewrite (bind_ret _ _ _ o (with_res s (r <| log := lg |>))).
    2:{ unfold log_block, try_get. cbn. by rewrite Ho. }
    eexists. split; [reflexivity|]. exists (lg <| lh_block ::= <[i := e]> |>). cbn. split_and!; try done.
    + by rewrite length_insert.
    + intros j Hj. destruct (decide (j = i)) as [->|Hne].
      * rewrite He. apply list_lookup_insert_eq. lia.
      * rewrite list_lookup_insert_ne by done. apply H5. lia.
  - exists ((log r) <| lh_n := Z.of_nat (length bl) |>). split; [by destruct r|]. destruct Hlog. cbn. split_and!; try done. lia.
  - lia.
  - lia.
  - exists lg. split; [exact Hr1|]. split; try done. apply list_eq. intros j. rewrite lookup_take.
    case_decide; [by apply H5|]. symmetry. apply lookup_ge_None_2. lia.
Qed.

Lemma read_head_solo r l ls bl bl0 d :
  cache_ok (pid q) r l [] → log_at (log r) ls bl0 → 0 ≤ ls < Z.of_nat (length (memdisk r)) → Z.of_nat (length (memdisk r)) < 2 ^ 31 →
  view r ls = Some d → head_is d bl → (length bl ≤ Z.to_nat LOGSIZE)%nat → pinned r [] →
  ∃ r', read_head (with_res s r) = Ret tt (with_res s r') ∧ after (pid q) [] r [] r' ∧ log_at (log r') ls bl.
Proof.
  intros Hok Hlog Hls Hsz Hv Hhead Hlen Hpin.
  destruct (bread_solo Hdisk Hsolo Hok ls) as (b & r1 & Hr1 & Hp1); [intros ??; set_solver|lia| |].
  { left. eapply available_count; [exact Hok|exact Hpin|]. unfold NBUF. simpl. lia. }
  destruct (bread_after Hp1) as [Haf1 Hl1]. destruct Hp1 as [Hok1 _ (x & (Hb & Hx & Hdev & Hbn) & Hv1 & Hc1) _ _ Hf1 _].
  assert (bdata x = d) as Hxd by congruence. assert (b ∈ [b]) as Hin by set_solver.
  rewrite <- (bread_head_eq _ _ _ r Hlog eq_refl) in Hr1 by lia.
  unfold read_head. rewrite (bind_ret _ _ _ _ _ Hr1), (bind_ret _ _ _ _ _ (buf_data_ret b x r1 Hx)).
  rewrite (bind_ret _ _ _ (Z.of_nat (length bl)) (with_res s r1)).
  2:{ unfold try_get. by rewrite Hxd, (hi_n _ _ Hhead). }
  rewrite Hxd. rewrite <- Hl1 in Hlog.
  rewrite (bind_ret _ _ _ tt (with_res s (r1 <| log ::= fun l => l <| lh_n := Z.of_nat (length bl) |> |>))) by done.
  destruct (load_head r1 ls bl bl0 d Hlog Hhead Hlen) as (lg & Hld & Hlg). rewrite (bind_ret _ _ _ _ _ Hld).
  destruct (brelse_solo (r := r1 <| log := lg |>) (l := l) (h := [b]) Hsolo [] b x) as (r2 & l2 & Hr2 & Hp2); try done.
  - by eapply cache_ok_frame; [..|exact Hok1].
  - cbn. by rewrite Hf1.
  - set_solver.
  - destruct (brelse_after Hp2) as [Haf2 Hl2]. exists r2. split_and!; [done| |by rewrite Hl2].
    change (@nil write) with ([] ++ @nil write). eapply after_trans; [|exact Haf2]. by apply after_log.
Qed.

(** ** The whole routines *)

Lemma write_log_solo r l ls bl ds :
  cache_ok (pid q) r l [] → log_at (log r) ls bl → geometry (length (memdisk r)) ls bl →
  Forall2 (fun b d => view r b = Some d) bl ds → roomy r bl →
  ∃ r', write_log (with_res s r) = Ret tt (with_res s r') ∧
    after (pid q) [] r (zip (log_blocks ls (length bl)) ds) r' ∧ log r' = log r.
Proof. intros Hok Hlog Hgeo Hds Hroom. exact (copy_loop_solo true Hok Hlog Hgeo Hds Hroom). Qed.

Lemma install_trans_solo r l ls bl ds :
  cache_ok (pid q) r l [] → log_at (log r) ls bl → geometry (length (memdisk r)) ls bl →
  Forall2 (fun b d => view r b = Some d) (log_blocks ls (length bl)) ds → roomy r bl →
  ∃ r', install_trans (with_res s r) = Ret tt (with_res s r') ∧
    after (pid q) [] r (zip bl ds) r' ∧ log r' = log r.
Proof. intros Hok Hlog Hgeo Hds Hroom. exact (copy_loop_solo false Hok Hlog Hgeo Hds Hroom). Qed.

Lemma log_at_erase lg ls bl : log_at lg ls bl → log_at (lg <| lh_n := 0 |>) ls [].
Proof. intros []. by split. Qed.

Lemma geometry_erase N ls bl : geometry N ls bl → geometry N ls [].
Proof. intros [H1 H2 _ _]. split; [done|simpl; lia|constructor|set_solver]. Qed.

(** Erasing the transaction. *)
Lemma erase_solo r l ls bl :
  cache_ok (pid q) r l [] → log_at (log r) ls bl → geometry (length (memdisk r)) ls bl → pinned r [] →
  ∃ r' d, bind (log_set (fun l => l <| lh_n := 0 |>)) (fun _ => write_head) (with_res s r) = Ret tt (with_res s r') ∧
    head_is d [] ∧ after (pid q) [] r [(ls, d)] r' ∧ log r' = (log r) <| lh_n := 0 |>.
Proof.
  intros Hok Hlog Hgeo Hpin. set (r1 := r <| log ::= fun l => l <| lh_n := 0 |> |>).
  rewrite (bind_ret _ _ _ tt (with_res s r1)) by done.
  assert (after (pid q) [] r [] r1) as Haf1.
  { unfold r1. replace (r <| log ::= fun l => l <| lh_n := 0 |> |>) with (r <| log := (log r) <| lh_n := 0 |> |>) by done.
    eapply after_log, after_refl, Hok. }
  destruct (af_ok _ _ _ _ _ Haf1) as [l1 Hok1].
  destruct (write_head_solo r1 l1 ls []) as (r' & d & Hr' & Hd & Haf & Hl'); [done|by eapply log_at_erase| | |].
  - by eapply geometry_erase.
  - exists []. split; [exact Hpin|]. unfold NBUF. simpl. lia.
  - exists r', d. split_and!; [done|done| |by rewrite Hl']. change [(ls, d)] with ([] ++ [(ls, d)]). by eapply after_trans.
Qed.

Section whole.
Context {r : kres} {l : list nat} {ls : Z} {bl : list Z}.
Context (Hok : cache_ok (pid q) r l []) (Hgeo : geometry (length (memdisk r)) ls bl).

Lemma recover_solo bl0 d ds :
  log_at (log r) ls bl0 → view r ls = Some d → head_is d bl → (length bl ≤ Z.to_nat LOGSIZE)%nat → pinned r [] →
  Forall2 (fun b d => view r b = Some d) (log_blocks ls (length bl)) ds →
  ∃ r' d', recover_from_log (with_res s r) = Ret tt (with_res s r') ∧ head_is d' [] ∧
    after (pid q) [] r (zip bl ds ++ [(ls, d')]) r'.
Proof.
  intros Hlog Hv Hhead Hlen Hpin Hds. pose proof (ge_log _ _ _ Hgeo). pose proof (ge_start _ _ _ Hgeo).
  destruct (read_head_solo r l ls bl bl0 d) as (r1 & Hr1 & Haf1 & Hlog1); try done; try lia.
  destruct (af_ok _ _ _ _ _ Haf1) as [l1 Hok1]. assert (memdisk r1 = memdisk r) as Hm1 by apply Haf1.
  assert (pinned r1 []) as Hpin1 by (intros m Hm; by apply Hpin, (af_dirty _ _ _ _ _ Haf1)).
  rewrite <- Hm1 in Hgeo. unfold recover_from_log. rewrite (bind_ret _ _ _ _ _ Hr1).
  destruct (install_trans_solo r1 l1 ls bl ds) as (r2 & Hr2 & Haf2 & Hl2); try done; [|by right|].
  { eapply Forall2_transfer; [|exact Hds]. intros a Ha%elem_of_log_blocks. by rewrite (af_view _ _ _ _ _ Haf1) by lia. }
  rewrite (bind_ret _ _ _ _ _ Hr2). destruct (af_ok _ _ _ _ _ Haf2) as [l2 Hok2].
  destruct (erase_solo r2 l2 ls bl) as (r3 & d' & Hr3 & Hd' & Haf3 & Hl3).
  - done.
  - by rewrite Hl2.
  - by rewrite (af_disk _ _ _ _ _ Haf2), length_apply_writes.
  - intros m Hm. by apply Hpin1, (af_dirty _ _ _ _ _ Haf2).
  - exists r3, d'. split_and!; [done|done|]. change (zip bl ds ++ [(ls, d')]) with ([] ++ zip bl ds ++ [(ls, d')]).
    eapply after_trans; [exact Haf1|]. by eapply after_trans.
Qed.

Lemma commit_solo ds :
  log_at (log r) ls bl → bl ≠ [] → pinned r bl → (length bl < NBUF)%nat → (∀ b, b ∈ bl → dirty r b) →
  Forall2 (fun b d => view r b = Some d) bl ds →
  ∃ r' h1 h0, commit (with_res s r) = Ret tt (with_res s r') ∧ head_is h1 bl ∧ head_is h0 [] ∧
    after (pid q) [] r (zip (log_blocks ls (length bl)) ds ++ [(ls, h1)] ++ zip bl ds ++ [(ls, h0)]) r' ∧
    log r' = (log r) <| lh_n := 0 |>.
Proof.
  intros Hlog Hne Hpin Hlen Hall Hds. set (al := log_blocks ls (length bl)).
  assert (length bl = length ds) as Hlds by (by eapply Forall2_length).
  assert (length al = length ds) as Hlal by (unfold al; by rewrite length_log_blocks).
  unfold commit. rewrite (bind_ret _ _ _ (lh_n (log r)) (with_res s r)) by done.
  rewrite (la_n _ _ _ Hlog), (proj2 (Z.ltb_lt _ _)) by (destruct bl; [done|simpl; lia]).
  destruct (write_log_solo r l ls bl ds) as (r1 & Hr1 & Haf1 & Hl1); try done; [by left|]. fold al in Haf1.
  rewrite (bind_ret _ _ _ _ _ Hr1). destruct (af_ok _ _ _ _ _ Haf1) as [l1 Hok1].
  assert (length (memdisk r1) = length (memdisk r)) as Hm1 by (by rewrite (af_disk _ _ _ _ _ Haf1), length_apply_writes).
  destruct (write_head_solo r1 l1 ls bl) as (r2 & h1 & Hr2 & Hh1 & Haf2 & Hl2); [done|by rewrite Hl1|by rewrite Hm1| |].
  { exists bl. split; [|done]. intros m Hm. by apply Hpin, (af_dirty _ _ _ _ _ Haf1). }
  rewrite (bind_ret _ _ _ _ _ Hr2). pose proof (after_trans _ _ _ _ _ _ _ _ Haf1 Haf2) as Haf12.
  destruct (af_ok _ _ _ _ _ Haf2) as [l2 Hok2].
  assert (length (memdisk r2) = length (memdisk r)) as Hm2 by (by rewrite (af_disk _ _ _ _ _ Haf12), length_apply_writes).
  assert ((zip al ds ++ [(ls, h1)]).*1 = al ++ [ls]) as Hfst by (by rewrite fmap_app, zip_fst).
  assert (∀ b, b ∈ bl → b ∉ al ++ [ls]) as Hdis.
  { intros b Hb Hin. apply (ge_home _ _ _ Hgeo) in Hb as [_ Hb]. unfold al in Hin.
    apply elem_of_app in Hin as [Hin%elem_of_log_blocks|Hin%list_elem_of_singleton]; lia. }
  destruct (install_trans_solo r2 l2 ls bl ds) as (r3 & Hr3 & Haf3 & Hl3); [done|by rewrite Hl2, Hl1|by rewrite Hm2| | |].
  { eapply Forall2_transfer; [|apply (overlay_written (view r) al ds [(ls, h1)]); [apply NoDup_log_blocks|done|]].
    - intros b Hb%elem_of_log_blocks. apply Haf12. pose proof (ge_start _ _ _ Hgeo). lia.
    - intros b Hb%elem_of_log_blocks. cbn. rewrite list_elem_of_singleton. lia. }
  { left. split_and!; [|done|].
    - intros m Hm. by apply Hpin, (af_dirty _ _ _ _ _ Haf12).
    - intros b Hb. apply (af_dirty _ _ _ _ _ Haf12). rewrite Hfst. auto. }
  rewrite (bind_ret _ _ _ _ _ Hr3). pose proof (after_trans _ _ _ _ _ _ _ _ Haf12 Haf3) as Haf123.
  destruct (af_ok _ _ _ _ _ Haf3) as [l3 Hok3].
  destruct (erase_solo r3 l3 ls bl) as (r4 & h0 & Hr4 & Hh0 & Haf4 & Hl4).
  - done.
  - by rewrite Hl3, Hl2, Hl1.
  - by rewrite (af_disk _ _ _ _ _ Haf3), length_apply_writes, Hm2.
  - intros m Hm. apply (af_dirty _ _ _ _ _ Haf123) in Hm as [Hm Hd]. apply Hpin in Hd. exfalso. apply Hm.
    rewrite fmap_app, (zip_fst bl ds) by done. apply elem_of_app. by right.
  - exists r4, h1, h0. split_and!; [done|done|done| |by rewrite Hl4, Hl3, Hl2, Hl1].
    pose proof (after_trans _ _ _ _ _ _ _ _ Haf123 Haf4) as H. by rewrite <- !app_assoc in H.
Qed.
End whole.
End copying.

(** ** Crashes *)

Lemma view_clean me r l n : cache_ok me r l [] → ¬ dirty r n → view r n = memdisk r !! Z.to_nat n.
Proof.
  intros Hok Hnd. destruct (holds_dec Hok n) as [(b & x & Hx)|Hno]; [|by apply view_uncached].
  rewrite (view_cached Hok _ _ _ Hx). pose proof Hx as (Hb & Hbx & Hd & <-). symmetry.
  apply (cache_clean _ _ _ _ Hok b); [done|set_solver|done|done|].
  destruct (bok_used _ _ (cache_bufs _ _ _ _ Hok b x Hb Hbx) Hd) as [_ [Hf|Hf]]; [done|].
  exfalso. apply Hnd. by exists b, x.
Qed.

(** The header on disk [D] records [bl] and the log blocks have [ds]. *)
Record logged (D : list (list Z)) (ls : Z) (bl : list Z) (ds : list (list Z)) : Prop := {
  lg_head : ∃ d, D !! Z.to_nat ls = Some d ∧ head_is d bl;
  lg_data : Forall2 (fun a d => D !! Z.to_nat a = Some d) (log_blocks ls (length bl)) ds }.

(** A kernel that has just read the superblock: [D] on disk, nothing dirty,
    no buffer held, the log at [ls]. *)
Record rebooted (me : Z) (r : kres) (ls : Z) (D : list (list Z)) : Prop := {
  rb_disk : memdisk r = D;
  rb_cache : ∃ l, cache_ok me r l [];
  rb_clean : pinned r [];
  rb_log : ∃ bl, log_at (log r) ls bl }.

(** The blocks that are not of the log. *)
Definition outside (ls : Z) (n : nat) (m : Z) : Prop := 0 ≤ m ∧ ¬ ls ≤ m ≤ ls + Z.of_nat n.

Lemma recover_disk {FU : Fuel} {DK : Disk} {s : kstate} {c p u q} r ls bl ds D :
  in_memory DK → solo s c p u q → rebooted (pid q) r ls D → logged D ls bl ds → geometry (length D) ls bl →
  (length bl ≤ Z.to_nat LOGSIZE)%nat →
  ∃ r' d, recover_from_log (with_res s r) = Ret tt (with_res s r') ∧ head_is d [] ∧
    after (pid q) [] r (zip bl ds ++ [(ls, d)]) r'.
Proof.
  intros Hdk Hsolo [<- [l Hok] Hpin [bl0 Hlog]] [(d & Hd & Hhead) Hdata] Hgeo Hlen.
  assert (∀ n, view r n = memdisk r !! Z.to_nat n) as Hv.
  { intros n. apply (view_clean _ _ _ _ Hok). intros Hn%Hpin. set_solver. }
  eapply (recover_solo Hdk Hsolo Hok Hgeo bl0 d ds); try done; [by rewrite Hv|].
  eapply Forall2_transfer; [|exact Hdata]. done.
Qed.

Lemma outside_log ls n m ds : outside ls n m → last_write (zip (log_blocks ls n) ds) m = None.
Proof.
  intros [H0 Ho]. apply last_write_None. intros (w & -> & Hw)%list_elem_of_fmap. destruct w as [a d].
  apply list_elem_of_lookup in Hw as (i & Hw). apply lookup_zip_Some in Hw as [Ha _].
  apply list_elem_of_lookup_2, elem_of_log_blocks in Ha. cbn in *. lia.
Qed.
Lemma outside_head ls n m d : outside ls n m → last_write [(ls, d)] m = None.
Proof. intros [H0 Ho]. cbn. destruct (Z.eqb_spec ls m); [lia|done]. Qed.

(** The disk after recovery, block by block. *)
Lemma recovered_block me r ls bl ds d r' m :
  after me [] r (zip bl ds ++ [(ls, d)]) r' → outside ls (length bl) m →
  memdisk r' !! Z.to_nat m = overlay (zip bl ds) (fun m => memdisk r !! Z.to_nat m) m.
Proof.
  intros Haf Hm. rewrite (af_disk _ _ _ _ _ Haf), lookup_apply_writes; [|apply Haf|apply Hm].
  rewrite overlay_app. unfold overlay at 1. by rewrite (outside_head _ _ _ _ Hm).
Qed.

Lemma recovered_head me r ls bl ds d r' :
  after me [] r (zip bl ds ++ [(ls, d)]) r' → 0 ≤ ls → memdisk r' !! Z.to_nat ls = Some d.
Proof.
  intros Haf Hls. rewrite (af_disk _ _ _ _ _ Haf), lookup_apply_writes; [|apply Haf|done].
  rewrite overlay_app. unfold overlay at 1. cbn. by rewrite Z.eqb_refl.
Qed.

(** The transaction of the log in memory is complete: its blocks are the dirty
    ones, no buffer is held, and the log on disk is empty. *)
Record committable (me : Z) (r : kres) (ls : Z) (bl : list Z) : Prop := {
  cm_cache : ∃ l, cache_ok me r l [];
  cm_log : log_at (log r) ls bl;
  cm_geo : geometry (length (memdisk r)) ls bl;
  cm_pinned : pinned r bl;
  cm_dirty : ∀ b, b ∈ bl → dirty r b;
  cm_room : (length bl < NBUF)%nat;
  cm_some : bl ≠ [];
  cm_empty : ∃ d, memdisk r !! Z.to_nat ls = Some d ∧ head_is d [] }.

Section crash.
Context {FU : Fuel} {DK : Disk} (Hdisk : in_memory DK).
Context {s : kstate} {c p : nat} {u : cpu} {q : proc} (Hsolo : solo s c p u q).
Context {r : kres} {ls : Z} {bl : list Z} (Hcm : committable (pid q) r ls bl).
Let al := log_blocks ls (length bl).

Lemma committed_data : ∃ ds, Forall2 (fun b d => view r b = Some d) bl ds.
Proof.
  destruct (cm_cache _ _ _ _ Hcm) as [l Hok].
  assert (∀ b, b ∈ bl → is_Some (view r b)) as Hv.
  { intros b Hb. destruct (cm_dirty _ _ _ _ Hcm b Hb) as (e & x & Hx & _). rewrite (view_cached Hok _ _ _ Hx). eauto. }
  clear Hcm Hok al. induction bl as [|b bl' IH]; [by exists []|].
  destruct (Hv b) as [d Hd]; [set_solver|]. destruct IH as [ds Hds]; [set_solver|]. exists (d :: ds). by constructor.
Qed.

(** The blocks outside the log as the transaction leaves them. *)
Lemma committed_view ds m :
  Forall2 (fun b d => view r b = Some d) bl ds → 0 ≤ m →
  overlay (zip bl ds) (fun m => memdisk r !! Z.to_nat m) m = view r m.
Proof.
  intros Hds Hm. destruct (cm_cache _ _ _ _ Hcm) as [l Hok]. pose proof (Forall2_length _ _ _ Hds) as Hlen.
  unfold overlay. destruct (decide (m ∈ bl)) as [Hin|Hno].
  - apply list_elem_of_lookup in Hin as (i & Hi). destruct (Forall2_lookup_l _ _ _ _ _ Hds Hi) as (d & Hd & Hv).
    rewrite (last_write_nodup _ i m d); [done|rewrite zip_fst by done; apply (cm_geo _ _ _ _ Hcm)|by apply lookup_zip_Some].
  - rewrite (proj2 (last_write_None _ _)) by (by rewrite zip_fst). symmetry.
    apply (view_clean _ _ _ _ Hok). intros Hd%(cm_pinned _ _ _ _ Hcm). done.
Qed.

Lemma commit_run :
  ∃ r' ds h1 h0, commit (with_res s r) = Ret tt (with_res s r') ∧ head_is h1 bl ∧ head_is h0 [] ∧
    Forall2 (fun b d => view r b = Some d) bl ds ∧
    after (pid q) [] r (zip al ds ++ [(ls, h1)] ++ zip bl ds ++ [(ls, h0)]) r' ∧
    log r' = (log r) <| lh_n := 0 |>.
Proof.
  destruct committed_data as [ds Hds]. pose proof Hcm as [[l Hok] H1 H2 H3 H4 H5 H6 _].
  destruct (commit_solo Hdisk Hsolo Hok H2 ds H1 H6 H3 H5 H4 Hds) as (r' & h1 & h0 & Hr & Hh1 & Hh0 & Haf & Hl).
  exists r', ds, h1, h0. by split_and!.
Qed.

(** C13. [commit] of a complete transaction terminates.  Its writes are, in this
    order: the log blocks, the header that records the transaction, the home
    blocks, the empty header.  Afterwards every block outside the log is on
    disk as it was seen through the cache before, nothing is dirty, and the log
    is empty in memory and on disk. *)
Theorem commit_correct :
  ∃ r' ds h1 h0, commit (with_res s r) = Ret tt (with_res s r') ∧ head_is h1 bl ∧ head_is h0 [] ∧
    Forall2 (fun b d => view r b = Some d) bl ds ∧
    writes r' = writes r ++ zip (log_blocks ls (length bl)) ds ++ [(ls, h1)] ++ zip bl ds ++ [(ls, h0)] ∧
    (∀ m, outside ls (length bl) m → memdisk r' !! Z.to_nat m = view r m) ∧
    memdisk r' !! Z.to_nat ls = Some h0 ∧ pinned r' [] ∧ lh_n (log r') = 0.
Proof.
  destruct commit_run as (r' & ds & h1 & h0 & Hr & Hh1 & Hh0 & Hds & Haf & Hl).
  pose proof (Forall2_length _ _ _ Hds) as Hlen. pose proof (ge_start _ _ _ (cm_geo _ _ _ _ Hcm)) as Hls.
  exists r', ds, h1, h0. split_and!; [done|done|done|done|apply Haf| | | |by rewrite Hl].
  - intros m Hm. rewrite (af_disk _ _ _ _ _ Haf), lookup_apply_writes; [|apply Haf|apply Hm].
    rewrite <- (committed_view ds) by (done || apply Hm). rewrite !overlay_app. unfold overlay.
    rewrite !(outside_head _ _ _ _ Hm). unfold al. by rewrite (outside_log _ _ _ _ Hm).
  - rewrite (af_disk _ _ _ _ _ Haf), lookup_apply_writes; [|apply Haf|done].
    rewrite !overlay_app. unfold overlay at 1. cbn. by rewrite Z.eqb_refl.
  - intros m Hd%(af_dirty _ _ _ _ _ Haf). destruct Hd as [Hm Hd%(cm_pinned _ _ _ _ Hcm)]. exfalso. apply Hm.
    rewrite !fmap_app, (zip_fst bl ds) by done. set_solver.
Qed.

Section cut.
Context {ds : list (list Z)} {h1 h0 : list Z} (Hh1 : head_is h1 bl) (Hh0 : head_is h0 []).
Context (Hds : Forall2 (fun b d => view r b = Some d) bl ds).
Let D := memdisk r.
Let ws := zip al ds ++ [(ls, h1)] ++ zip bl ds ++ [(ls, h0)].
Context (Hrange : Forall (fun w : write => 0 ≤ w.1 < Z.of_nat (length D)) ws).

Lemma cut_block k m : 0 ≤ m →
  apply_writes (take k ws) D !! Z.to_nat m = overlay (take k ws) (fun m => D !! Z.to_nat m) m.
Proof. intros Hm. apply lookup_apply_writes; [by apply Forall_take|done]. Qed.

Lemma cut_lengths : length (zip al ds) = length bl ∧ length (zip bl ds) = length bl.
Proof.
  pose proof (Forall2_length _ _ _ Hds). unfold al. rewrite !length_zip, length_log_blocks. lia.
Qed.

(** Cut before the header is written: the disk has an empty log. *)
Lemma cut_early k : (k ≤ length bl)%nat → logged (apply_writes (take k ws) D) ls [] [] ∧
  ∀ m, outside ls (length bl) m → apply_writes (take k ws) D !! Z.to_nat m = D !! Z.to_nat m.
Proof.
  intros Hk. destruct cut_lengths as [Hl1 Hl2]. pose proof (ge_start _ _ _ (cm_geo _ _ _ _ Hcm)) as Hls.
  assert (take k ws = take k (zip al ds)) as Hw by (unfold ws; rewrite take_app_le by lia; done).
  assert (∀ m, ¬ ls < m ≤ ls + Z.of_nat (length bl) → last_write (take k ws) m = None) as Hno.
  { intros m Hm. rewrite Hw. apply last_write_None. rewrite fmap_take. intros (i & Hi & _)%elem_of_take.
    rewrite zip_fst in Hi by (unfold al; rewrite length_log_blocks; by eapply Forall2_length).
    apply list_elem_of_lookup_2, elem_of_log_blocks in Hi. lia. }
  split; [split; [|constructor]|].
  - destruct (cm_empty _ _ _ _ Hcm) as (d & Hd & Hhead). exists d. split; [|done].
    rewrite cut_block by done. unfold overlay. by rewrite Hno by lia.
  - intros m [Hm Ho]. rewrite cut_block by done. unfold overlay. by rewrite Hno by lia.
Qed.

(** Cut while the blocks are installed: the disk has the transaction. *)
Lemma cut_middle k : (length bl < k ≤ 2 * length bl + 1)%nat → logged (apply_writes (take k ws) D) ls bl ds ∧
  ∀ m, outside ls (length bl) m →
    overlay (zip bl ds) (fun m => apply_writes (take k ws) D !! Z.to_nat m) m = view r m.
Proof.
  intros Hk. destruct cut_lengths as [Hl1 Hl2]. pose proof (ge_start _ _ _ (cm_geo _ _ _ _ Hcm)) as Hls.
  pose proof (Forall2_length _ _ _ Hds) as Hlen. set (j := (k - length bl - 1)%nat).
  assert (take k ws = zip al ds ++ [(ls, h1)] ++ take j (zip bl ds)) as Hw.
  { unfold ws. rewrite take_app_ge by lia. f_equal. rewrite Hl1. replace (k - length bl)%nat with (S j) by lia.
    cbn. f_equal. rewrite take_app_le by lia. done. }
  assert (∀ b, b ∈ (take j (zip bl ds)).*1 → b ∈ bl) as Hsub.
  { intros b. rewrite fmap_take, zip_fst by done. intros (i & Hi & _)%elem_of_take. by eapply list_elem_of_lookup_2. }
  assert (∀ b, b ∈ (take j (zip bl ds)).*1 → ¬ ls ≤ b ≤ ls + Z.of_nat (length bl)) as Hsub'.
  { intros b Hb%Hsub. by apply (ge_home _ _ _ (cm_geo _ _ _ _ Hcm)). }
  split; [split|].
  - exists h1. split; [|done]. rewrite cut_block, Hw by done. unfold overlay. rewrite !last_write_app.
    rewrite (proj2 (last_write_None (take j _) ls)) by (intros Hb%Hsub'; lia). cbn. by rewrite Z.eqb_refl.
  - eapply Forall2_transfer; [|apply (overlay_written (fun m => D !! Z.to_nat m) _ ds ([(ls, h1)] ++ take j (zip bl ds)))].
    + intros b Hb%elem_of_log_blocks. rewrite cut_block, Hw by lia. done.
    + apply NoDup_log_blocks.
    + by rewrite length_log_blocks.
    + intros b Hb%elem_of_log_blocks. rewrite fmap_app. intros [Hin|Hin%Hsub']%elem_of_app; [|lia].
      apply list_elem_of_singleton in Hin. simpl in Hin. lia.
  - intros m Hm. rewrite <- (committed_view ds) by (done || apply Hm). unfold overlay.
    destruct (last_write (zip bl ds) m) eqn:Hlw; [done|]. rewrite cut_block, Hw by apply Hm. unfold overlay.
    rewrite !last_write_app, (outside_head _ _ _ _ Hm). unfold al. rewrite (outside_log _ _ _ _ Hm).
    apply last_write_None in Hlw. rewrite zip_fst in Hlw by done. rewrite (proj2 (last_write_None _ _)); [done|]. by intros ?%Hsub.
Qed.

(** Cut after the last write: the log is empty again. *)
Lemma cut_late k : (2 * length bl + 1 < k)%nat → logged (apply_writes (take k ws) D) ls [] [] ∧
  ∀ m, outside ls (length bl) m → apply_writes (take k ws) D !! Z.to_nat m = view r m.
Proof.
  intros Hk. destruct cut_lengths as [Hl1 Hl2]. pose proof (ge_start _ _ _ (cm_geo _ _ _ _ Hcm)) as Hls.
  assert (take k ws = ws) as Hw by (apply take_ge; unfold ws; rewrite !length_app; simpl; lia).
  split; [split; [|constructor]|].
  - exists h0. split; [|done]. rewrite cut_block, Hw by done. unfold ws. rewrite !overlay_app. unfold overlay at 1. cbn.
    by rewrite Z.eqb_refl.
  - intros m Hm. rewrite cut_block, Hw by apply Hm. rewrite <- (committed_view ds) by (done || apply Hm).
    unfold ws. rewrite !overlay_app. unfold overlay. rewrite !(outside_head _ _ _ _ Hm). unfold al.
    by rewrite (outside_log _ _ _ _ Hm).
Qed.
End cut.

(** C1. A crash during [commit] is harmless.  Let the machine stop after the
    first [k] of the disk writes of [commit], for any [k], and boot again.
    [recover_from_log] then terminates, leaves an empty log, and every block
    outside the log is as before the transaction when [k] does not reach the
    header, and as the transaction leaves it when it does.  So a transaction is
    on disk completely or not at all. *)
Theorem commit_crash_atomic :
  ∃ r' ws, commit (with_res s r) = Ret tt (with_res s r') ∧ writes r' = writes r ++ ws ∧
    ∀ k (s2 : kstate) c2 p2 u2 q2 r2, solo s2 c2 p2 u2 q2 →
      rebooted (pid q2) r2 ls (apply_writes (take k ws) (memdisk r)) →
      ∃ r3 d, recover_from_log (with_res s2 r2) = Ret tt (with_res s2 r3) ∧
        head_is d [] ∧ memdisk r3 !! Z.to_nat ls = Some d ∧
        ∀ m, outside ls (length bl) m →
          memdisk r3 !! Z.to_nat m = if decide (k ≤ length bl)%nat then memdisk r !! Z.to_nat m else view r m.
Proof.
  destruct commit_run as (r' & ds & h1 & h0 & Hr & Hh1 & Hh0 & Hds & Haf & _).
  eexists r', _. split; [done|]. split; [apply Haf|]. pose proof (af_range _ _ _ _ _ Haf) as Hrange.
  intros k s2 c2 p2 u2 q2 r2 Hsolo2 Hrb. pose proof (cm_geo _ _ _ _ Hcm) as Hgeo. pose proof (ge_start _ _ _ Hgeo) as Hls.
  set (ws := zip al ds ++ [(ls, h1)] ++ zip bl ds ++ [(ls, h0)]) in *.
  assert (∀ bl' ds', logged (apply_writes (take k ws) (memdisk r)) ls bl' ds' → (bl' = [] ∨ bl' = bl) →
    ∃ r3 d, recover_from_log (with_res s2 r2) = Ret tt (with_res s2 r3) ∧ head_is d [] ∧
      after (pid q2) [] r2 (zip bl' ds' ++ [(ls, d)]) r3) as Hrec.
  { intros bl' ds' Hlg Hbl'. pose proof (log_at_length _ _ _ (cm_log _ _ _ _ Hcm)).
    eapply (recover_disk r2 ls bl' ds'); try done; rewrite ?length_apply_writes;
      destruct Hbl' as [-> | ->]; try done; [by eapply geometry_erase|simpl; lia]. }
  assert (∀ m, outside ls (length bl) m → outside ls 0 m) as Hout by (intros m [? ?]; split; [done|lia]).
  case_decide as Hk; [|destruct (decide (k ≤ 2 * length bl + 1)%nat)].
  - destruct (cut_early (h0 := h0) (h1 := h1) Hds Hrange k Hk) as [Hlg Hm]. destruct (Hrec [] [] Hlg) as (r3 & d & Hr3 & Hd & Haf3); [by left|].
    exists r3, d. split_and!; [done|done|by eapply recovered_head|]. intros m Ho.
    rewrite (recovered_block _ _ _ _ _ _ _ _ Haf3 (Hout m Ho)), (rb_disk _ _ _ _ Hrb). by apply Hm.
  - destruct (cut_middle (h0 := h0) Hh1 Hds Hrange k) as [Hlg Hm]; [lia|]. destruct (Hrec bl ds Hlg) as (r3 & d & Hr3 & Hd & Haf3); [by right|].
    exists r3, d. split_and!; [done|done|by eapply recovered_head|]. intros m Ho.
    rewrite (recovered_block _ _ _ _ _ _ _ _ Haf3 Ho), (rb_disk _ _ _ _ Hrb). by apply Hm.
  - destruct (cut_late (h1 := h1) Hh0 Hds Hrange k) as [Hlg Hm]; [lia|]. destruct (Hrec [] [] Hlg) as (r3 & d & Hr3 & Hd & Haf3); [by left|].
    exists r3, d. split_and!; [done|done|by eapply recovered_head|]. intros m Ho.
    rewrite (recovered_block _ _ _ _ _ _ _ _ Haf3 (Hout m Ho)), (rb_disk _ _ _ _ Hrb). by apply Hm.
Qed.
End crash.

(** ** Crashes during recovery *)

Section recovery.
Context {FU : Fuel} {DK : Disk} (Hdisk : in_memory DK).
Context {s : kstate} {c p : nat} {u : cpu} {q : proc} (Hsolo : solo s c p u q).
Context {r : kres} {ls : Z} {bl : list Z} {ds : list (list Z)} {D : list (list Z)}.
Context (Hrb : rebooted (pid q) r ls D) (Hlg : logged D ls bl ds) (Hgeo : geometry (length D) ls bl).
Context (Hlen : (length bl ≤ Z.to_nat LOGSIZE)%nat).

Lemma logged_length : length bl = length ds.
Proof. rewrite <- (Forall2_length _ _ _ (lg_data _ _ _ _ Hlg)). symmetry. apply length_log_blocks. Qed.

Lemma home_range k : Forall (fun w : write => 0 ≤ w.1 < Z.of_nat (length D)) (take k (zip bl ds)).
Proof.
  apply Forall_take, Forall_forall. intros [b d] Hb. apply list_elem_of_lookup in Hb as (i & Hi).
  apply lookup_zip_Some in Hi as [Hi _]. apply list_elem_of_lookup_2 in Hi. by apply (ge_home _ _ _ Hgeo).
Qed.

(** Installing some of the blocks does not touch the log. *)
Lemma logged_install k : logged (apply_writes (take k (zip bl ds)) D) ls bl ds.
Proof.
  pose proof (ge_start _ _ _ Hgeo) as Hls. destruct Hlg as [(d & Hd & Hh) Hdata].
  assert (∀ m, ls ≤ m ≤ ls + Z.of_nat (length bl) →
    apply_writes (take k (zip bl ds)) D !! Z.to_nat m = D !! Z.to_nat m) as Heq.
  { intros m Hm. rewrite lookup_apply_writes by (apply home_range || lia). unfold overlay.
    rewrite (proj2 (last_write_None _ _)); [done|]. rewrite fmap_take, zip_fst by apply logged_length.
    intros (i & Hi & _)%elem_of_take. apply list_elem_of_lookup_2, (ge_home _ _ _ Hgeo) in Hi. lia. }
  split; [exists d; by rewrite Heq by lia|]. eapply Forall2_transfer; [|exact Hdata].
  intros a Ha%elem_of_log_blocks. apply Heq. lia.
Qed.

Lemma reinstall k m : 0 ≤ m →
  overlay (zip bl ds) (fun m => apply_writes (take k (zip bl ds)) D !! Z.to_nat m) m =
  overlay (zip bl ds) (fun m => D !! Z.to_nat m) m.
Proof.
  intros Hm. unfold overlay. destruct (last_write (zip bl ds) m) eqn:Hl; [done|].
  rewrite lookup_apply_writes by (apply home_range || done). unfold overlay.
  rewrite (proj2 (last_write_None _ _)); [done|]. apply last_write_None in Hl. rewrite fmap_take.
  intros (i & Hi & _)%elem_of_take. by eapply Hl, list_elem_of_lookup_2.
Qed.

(** C12. Recovery can itself be interrupted: when the machine stops after any
    number [k] of the writes of [recover_from_log] and boots again, the second
    recovery gives every block outside the log the contents that an
    uninterrupted recovery gives it, and an empty log. *)
Theorem recovery_crash_safe :
  ∃ r' ws, recover_from_log (with_res s r) = Ret tt (with_res s r') ∧ writes r' = writes r ++ ws ∧
    (∀ m, outside ls (length bl) m → memdisk r' !! Z.to_nat m = overlay (zip bl ds) (fun m => D !! Z.to_nat m) m) ∧
    ∀ k (s2 : kstate) c2 p2 u2 q2 r2, solo s2 c2 p2 u2 q2 → rebooted (pid q2) r2 ls (apply_writes (take k ws) D) →
      ∃ r3 d, recover_from_log (with_res s2 r2) = Ret tt (with_res s2 r3) ∧
        head_is d [] ∧ memdisk r3 !! Z.to_nat ls = Some d ∧
        ∀ m, outside ls (length bl) m → memdisk r3 !! Z.to_nat m = memdisk r' !! Z.to_nat m.
Proof.
  destruct (recover_disk r ls bl ds D Hdisk Hsolo Hrb Hlg Hgeo Hlen) as (r' & d & Hr & Hd & Haf).
  pose proof (ge_start _ _ _ Hgeo) as Hls. pose proof logged_length as Hlds.
  assert (length (zip bl ds) = length bl) as Hlz by (rewrite length_zip; lia).
  eexists r', _. split; [done|]. split; [apply Haf|]. split.
  { intros m Hm. by rewrite (recovered_block _ _ _ _ _ _ _ _ Haf Hm), (rb_disk _ _ _ _ Hrb). }
  intros k s2 c2 p2 u2 q2 r2 Hsolo2 Hrb2. destruct (decide (k ≤ length bl)%nat) as [Hk|Hk].
  - rewrite take_app_le in Hrb2 by lia.
    destruct (recover_disk r2 ls bl ds _ Hdisk Hsolo2 Hrb2 (logged_install k)) as (r3 & d3 & Hr3 & Hd3 & Haf3);
      [by rewrite length_apply_writes|done|].
    exists r3, d3. split_and!; [done|done|by eapply recovered_head|]. intros m Hm.
    rewrite (recovered_block _ _ _ _ _ _ _ _ Haf3 Hm), (recovered_block _ _ _ _ _ _ _ _ Haf Hm).
    rewrite (rb_disk _ _ _ _ Hrb2), (rb_disk _ _ _ _ Hrb). apply reinstall, Hm.
  - rewrite take_ge in Hrb2 by (rewrite length_app; simpl; lia).
    rewrite <- (rb_disk _ _ _ _ Hrb), <- (af_disk _ _ _ _ _ Haf) in Hrb2.
    destruct (recover_disk r2 ls [] [] _ Hdisk Hsolo2 Hrb2) as (r3 & d3 & Hr3 & Hd3 & Haf3).
    + split; [|constructor]. exists d. split; [|done]. by eapply recovered_head.
    + rewrite (af_disk _ _ _ _ _ Haf), length_apply_writes, (rb_disk _ _ _ _ Hrb). by eapply geometry_erase.
    + simpl. lia.
    + exists r3, d3. split_and!; [done|done|by eapply recovered_head|]. intros m Hm.
      rewrite (recovered_block _ _ _ _ _ _ _ m Haf3), (rb_disk _ _ _ _ Hrb2) by (destruct Hm; split; [done|simpl; lia]). done.
Qed.
End recovery.
