(* ===== verification/Transaction.v ===== *)
(** * Transactions (begin_op and log_write of log.c)

    [transaction] is the state of the file system between [begin_op] and
    [end_op]: the dirty buffers are those of the blocks recorded in the log in
    memory.  [log_write] keeps it; with no buffer held it is what [commit]
    needs. *)

From S2P Require Import Prelude Machine Spinlock CString ProcTable Proc Lifecycle Ready Aging.
From S2P Require Import ProcLemmas Scheduler Reach Blocking Kstate Sleeplock Solo Devices Disk Bio Cache Layout Log Crash.

(** Block [b] of a disk of [N] blocks, not one of the [nlog] blocks of the log at [ls]. *)
Definition home (N : nat) (ls nlog b : Z) : Prop := 0 ≤ b < Z.of_nat N ∧ ¬ ls ≤ b < ls + nlog.

Record transaction (me : Z) (r : kres) (l h : list nat) (ls nlog : Z) (bl : list Z) : Prop := {
  tx_cache : cache_ok me r l h;
  tx_log : log_at (log r) ls bl;
  tx_size : log_size (log r) = nlog;
  tx_disk : 0 ≤ ls ∧ ls + nlog ≤ Z.of_nat (length (memdisk r)) < 2 ^ 31;
  tx_cap : Z.of_nat (length bl) < nlog ≤ LOGSIZE;
  tx_nodup : NoDup bl;
  tx_home : ∀ b, b ∈ bl → home (length (memdisk r)) ls nlog b;
  tx_pinned : pinned r bl;
  tx_dirty : ∀ b, b ∈ bl → dirty r b }.

Lemma transaction_committable me r l ls nlog bl :
  transaction me r l [] ls nlog bl → bl ≠ [] → (∃ d, memdisk r !! Z.to_nat ls = Some d ∧ head_is d []) →
  committable me r ls bl.
Proof.
  intros [H1 H2 H3 H4 H5 H6 H7 H8 H9] Hne Hhd. split; try done; [by eauto| |].
  - split; [lia|lia|done|]. intros b Hb. destruct (H7 b Hb). lia.
  - change (Z.of_nat (length bl) < nlog ≤ 30) in H5. unfold NBUF. lia.
Qed.

(** The log after block [n] is recorded. *)
Definition record (bl : list Z) (n : Z) : list Z := if decide (n ∈ bl) then bl else bl ++ [n].

(** The absorption loop finds the block, or the first free place. *)
Lemma find_block_spec block bl n k :
  take (length bl) block = bl → (∀ b, b ∈ bl → 0 ≤ b < 2 ^ 31) →
  ∃ i, find_block block (length bl) k n = Some (k + i)%nat ∧
    ((i < length bl)%nat ∧ bl !! i = Some n ∨ i = length bl ∧ n ∉ bl).
Proof.
  revert block k. induction bl as [|b bl IH]; intros block k Ht Hb.
  - exists 0%nat. rewrite Nat.add_0_r. split; [by destruct block|]. right. set_solver.
  - destruct block as [|b' block]; simpl in Ht; [done|]. injection Ht as -> Ht. cbn [length find_block].
    assert (u32 b = b) as -> by (unfold u32; apply Z.mod_small; destruct (Hb b); [set_solver|lia]).
    destruct (Z.eqb_spec b n) as [->|Hne].
    + exists 0%nat. rewrite Nat.add_0_r. split; [done|]. left. split; [lia|done].
    + destruct (IH block (S k) Ht) as (i & Hi & Hcase); [set_solver|]. exists (S i).
      rewrite Hi. split; [f_equal; lia|]. destruct Hcase as [[H1 H2]|[H1 H2]]; [left; split; [lia|done]|right].
      split; [lia|]. set_solver.
Qed.

Section transactions.
Context {FU : Fuel}.
Context {s : kstate} {c p : nat} {u : cpu} {q : proc} (Hsolo : solo s c p u q).

Lemma klock_log : klock log_lock.
Proof. unfold klock. tauto. Qed.

(** What [log_write] does to the log in memory. *)
Lemma record_log lg ls bl n i :
  log_at lg ls bl → Z.of_nat (length bl) < LOGSIZE →
  (i < length bl)%nat ∧ bl !! i = Some n ∨ i = length bl ∧ n ∉ bl →
  let lg1 := lg <| lh_block ::= <[i := n]> |> in
  log_at (if Z.of_nat i =? lh_n lg1 then lg1 <| lh_n := lh_n lg1 + 1 |> else lg1) ls (record bl n).
Proof.
  intros [H1 H2 H3 H4 H5] Hcap Hi. cbv zeta. cbn [lh_n]. unfold record.
  assert (length bl < length (lh_block lg))%nat as Hlt by lia.
  destruct Hi as [[Hi Hn]|[-> Hn]].
  - rewrite decide_True by (by eapply list_elem_of_lookup_2).
    assert (lh_block lg !! i = Some n) as Hb by (rewrite <- H4 in Hn; by apply lookup_take_Some in Hn as [? _]).
    cbn. rewrite H3, (proj2 (Z.eqb_neq _ _)) by lia. split; cbn; rewrite ?(list_insert_id _ _ _ Hb); done.
  - rewrite decide_False by done. cbn. rewrite H3, Z.eqb_refl. split; cbn; try done.
    + rewrite length_app. simpl. lia.
    + rewrite length_app. simpl. replace (length bl + 1)%nat with (S (length bl)) by lia.
      rewrite (take_S_r _ _ n) by (by apply list_lookup_insert_eq). rewrite take_insert_ge by lia. by rewrite H4.
    + by rewrite length_insert.
Qed.

Lemma elem_of_record bl n b : b ∈ record bl n ↔ b ∈ bl ∨ b = n.
Proof. unfold record. case_decide; set_solver. Qed.
Lemma NoDup_record bl n : NoDup bl → NoDup (record bl n).
Proof. intros H. unfold record. case_decide; [done|]. apply NoDup_app. split_and!; [done|set_solver|apply NoDup_singleton]. Qed.

Section log_write.
Context {r : kres} {l h : list nat} {ls nlog : Z} {bl : list Z} (Htx : transaction (pid q) r l h ls nlog bl).
Context {b : nat} {x : buf} (Hin : b ∈ h) (Hx : bufs r !! b = Some x).
Context (Hhome : home (length (memdisk r)) ls nlog (blockno x)).

Lemma log_write_solo :
  Z.of_nat (length bl) < nlog - 1 → 1 ≤ outstanding (log r) →
  ∃ lg, log_write b (with_res s r) = Ret tt (with_res s (with_buf b (x <| bflags := B_BOTH |>) (r <| log := lg |>))) ∧
    log_at lg ls (record bl (blockno x)) ∧ log_size lg = nlog ∧ outstanding lg = outstanding (log r) ∧
    committing lg = committing (log r).
Proof.
  intros Hcap Hout. pose proof Htx as [Hok Hlog Hsz Hdk Hc _ Hh _ _].
  destruct (held_facts Hok Hin Hx) as (_ & _ & Hn & Hf & _).
  destruct (find_block_spec (lh_block (log r)) bl (blockno x) 0) as (i & Hfind & Hi); [apply Hlog| |].
  { intros e [He _]%Hh. lia. }
  assert (i < length (lh_block (log r)))%nat as Hil. { rewrite (la_size _ _ _ Hlog). destruct Hi as [[? _]|[-> _]]; lia. }
  destruct (lookup_lt_is_Some_2 _ _ Hil) as [o Ho].
  pose proof (record_log (log r) ls bl (blockno x) i Hlog ltac:(lia) Hi) as Hrec. cbv zeta in Hrec.
  set (lg1 := (log r) <| lh_block ::= <[i := blockno x]> |>) in *.
  set (lg2 := if _ =? _ then _ else _) in Hrec.
  exists lg2. split; [|split; [done|unfold lg2; by destruct (_ =? _)]].
  unfold log_write. rewrite (bind_ret _ _ _ (log r) (with_res s r)) by done. rewrite (la_n _ _ _ Hlog), Hsz.
  rewrite (proj2 (Z.leb_gt _ _)), (proj2 (Z.leb_gt _ _)), (proj2 (Z.ltb_ge _ _)) by lia. cbn [orb].
  rewrite (bind_ret _ _ _ _ _ (lock_solo Hsolo log_lock r klock_log)).
  rewrite (bind_ret _ _ _ _ _ (buf_get_ret b x (inside c log_lock (with_res s r)) Hx)).
  rewrite (bind_ret _ _ _ i (inside c log_lock (with_res s r))).
  2:{ unfold try_get. change (log (res (inside c log_lock (with_res s r)))) with (log r). cbv zeta.
      by rewrite (la_n _ _ _ Hlog), Nat2Z.id, Hfind. }
  assert (s32 (blockno x) = blockno x) as ->.
  { rewrite <- (s32_u32 (blockno x)) at 2 by lia. unfold u32. by rewrite (Z.mod_small (blockno x)) by lia. }
  set (r1 := r <| log := lg1 |>). set (r2 := r <| log := lg2 |>).
  rewrite (bind_ret _ _ _ tt (inside c log_lock (with_res s r1))).
  2:{ unfold set_log_block. rewrite (bind_ret _ _ _ o (inside c log_lock (with_res s r))); [done|].
      unfold log_block, try_get. cbn. by rewrite Ho. }
  rewrite (bind_ret _ _ _ tt (inside c log_lock (with_res s r2))) by reflexivity.
  rewrite (bind_ret _ _ _ _ _ (buf_set_inside b _ x log_lock r2 Hx)).
  assert (x <| bflags ::= fun f => Z.lor f B_DIRTY |> = x <| bflags := B_BOTH |>) as -> by (cbn; by destruct Hf as [-> | ->]).
  apply (unlock_solo Hsolo log_lock _ klock_log).
Qed.

(** Marking a held buffer dirty. *)
Lemma mark_ok lg :
  let r' := with_buf b (x <| bflags := B_BOTH |>) (r <| log := lg |>) in
  cache_ok (pid q) r' l h ∧ (∀ n, 0 ≤ n → view r' n = view r n) ∧ (∀ n, dirty r' n ↔ n = blockno x ∨ dirty r n).
Proof.
  pose proof (tx_cache _ _ _ _ _ _ _ Htx) as Hok. destruct (held_facts Hok Hin Hx) as (Hb & Hdev & Hn & Hf & Hlen & Href & _).
  cbv zeta. set (y := x <| bflags := B_BOTH |>).
  edestruct (held_mod (y := y) (r' := with_buf b y (r <| log := lg |>)) Hok Hin Hx) as (H1 & H2 & H3);
    [done| |reflexivity|reflexivity|reflexivity|done|intros e He; by apply (cache_disk _ _ _ _ Hok) in He|].
  { split; [done|by auto|done]. }
  split_and!; [exact H1| |].
  - intros n Hn0. rewrite H2 by done. case_decide; [|done]. subst n. symmetry. exact (view_cached Hok b (blockno x) x (conj Hb (conj Hx (conj Hdev eq_refl)))).
  - intros n. rewrite H3. case_decide; [|tauto]. split; [by left|done].
Qed.

Lemma log_write_tx :
  Z.of_nat (length bl) < nlog - 1 → 1 ≤ outstanding (log r) →
  ∃ r', log_write b (with_res s r) = Ret tt (with_res s r') ∧
    transaction (pid q) r' l h ls nlog (record bl (blockno x)) ∧ (∀ n, 0 ≤ n → view r' n = view r n) ∧
    bufs r' = <[b := x <| bflags := B_BOTH |>]> (bufs r) ∧ outstanding (log r') = outstanding (log r) ∧
    r' = r <| bufs := bufs r' |> <| log := log r' |>.
Proof.
  intros Hcap Hout. destruct (log_write_solo Hcap Hout) as (lg & Hr & Hlg & Hsz & Ho & _).
  destruct (mark_ok lg) as (Hok & Hv & Hd). pose proof Htx as [_ _ _ H4 H5 H6 H7 H8 H9]. eexists. split; [done|].
  split; [|split_and!; [done|reflexivity|done|reflexivity]]. split; try done.
  - unfold record. case_decide; [lia|]. rewrite length_app. simpl. lia.
  - by apply NoDup_record.
  - intros e [He| ->]%elem_of_record; [by apply H7|done].
  - intros m [-> |Hm]%Hd; apply elem_of_record; [by right|]. left. by apply H8.
  - intros e He%elem_of_record. apply Hd. destruct He as [He| ->]; [right; by apply H9|by left].
Qed.

(** C14. In a transaction with room in the log, [log_write] of a held buffer of
    a home block records the block, once, and marks the buffer dirty.  The
    state remains a transaction, what every block reads as is unchanged, and
    neither the disk nor anything else changes. *)
Theorem log_write_correct :
  Z.of_nat (length bl) < nlog - 1 → 1 ≤ outstanding (log r) →
  ∃ r', log_write b (with_res s r) = Ret tt (with_res s r') ∧
    transaction (pid q) r' l h ls nlog (record bl (blockno x)) ∧ (∀ n, 0 ≤ n → view r' n = view r n) ∧
    bufs r' !! b = Some (x <| bflags := B_BOTH |>) ∧ outstanding (log r') = outstanding (log r) ∧
    r' = r <| bufs := bufs r' |> <| log := log r' |>.
Proof.
  intros Hcap Hout. destruct (log_write_tx Hcap Hout) as (r' & E & Ht & Hv & Hb & Ho & Hf). exists r'. split_and!; [done..| |done|done].
  rewrite Hb. apply list_lookup_insert_eq. by eapply lookup_lt_Some.
Qed.
End log_write.

Lemma begin_op_solo r :
  must_wait (log r) = false →
  begin_op (with_res s r) = Ret tt (with_res s (r <| log ::= fun l => l <| outstanding ::= fun n => n + 1 |> |>)).
Proof.
  intros Hw. unfold begin_op. rewrite (bind_ret _ _ _ _ _ (lock_solo Hsolo log_lock r klock_log)).
  rewrite (bind_ret _ _ _ tt (inside c log_lock (with_res s r))).
  2:{ assert (rget (fun r => must_wait (log r)) (inside c log_lock (with_res s r))
              = Ret false (inside c log_lock (with_res s r))) as Hc by (unfold rget, gets; cbn; by rewrite Hw).
      destruct fuel; cbn [while]; by rewrite (bind_ret _ _ _ _ _ Hc). }
  rewrite (bind_ret _ _ _ tt (inside c log_lock (with_res s (r <| log ::= fun l => l <| outstanding ::= fun n => n + 1 |> |>)))) by done.
  apply (unlock_solo Hsolo log_lock _ klock_log).
Qed.

(** C39. The reservation of [begin_op] does not fit the log that mkfs makes.
    From an idle log, three operations are admitted, which reserves
    [3 * MAXOPBLOCKS] = LOGSIZE blocks; but with [log.size] = LOGSIZE one block
    is the header, and with LOGSIZE - 1 blocks recorded [log_write] panics,
    also for a block that is recorded already. *)
Theorem log_reservation_too_small r :
  committing (log r) = 0 → outstanding (log r) = 0 → lh_n (log r) = 0 → log_size (log r) = LOGSIZE →
  ∃ r3, bind begin_op (fun _ => bind begin_op (fun _ => begin_op)) (with_res s r) = Ret tt (with_res s r3) ∧
    outstanding (log r3) = 3 ∧ 3 * MAXOPBLOCKS = LOGSIZE ∧ log_size (log r3) = LOGSIZE ∧
    ∀ r' b, log_size (log r') = LOGSIZE → lh_n (log r') = LOGSIZE - 1 →
      log_write b (with_res s r') = Panic "too big a transaction".
Proof.
  intros Hc Ho Hn Hs. eexists. split_and!.
  - rewrite (bind_ret _ _ _ _ _ (begin_op_solo r ltac:(unfold must_wait; by rewrite Hc, Ho, Hn))).
    erewrite bind_ret; [|apply begin_op_solo; unfold must_wait; cbn; by rewrite Hc, Ho, Hn].
    apply begin_op_solo. unfold must_wait. cbn. by rewrite Hc, Ho, Hn.
  - cbn. lia.
  - done.
  - done.
  - intros r' b Hs' Hn'. unfold log_write. rewrite (bind_ret _ _ _ (log r') (with_res s r')) by done.
    by rewrite Hs', Hn'.
Qed.
End transactions.
