(* ===== verification/Inode.v ===== *)
(** * Blocks and inodes (fs.c)

    An inode pointer is an index of [icache.inode]; null pointers do not
    occur as arguments here, so the tests [ip == 0] are left out. *)

From S2P Require Import Prelude Machine Spinlock CString ProcTable Proc Lifecycle Kstate.
From S2P Require Import Sleeplock Devices Disk Bio Layout Log.

(** stat.h *)
Record stat := mk_stat { st_type : Z; st_dev : Z; st_ino : Z; st_nlink : Z; st_size : Z }.

(** The on-disk part of an in-memory inode. *)
Definition dinode_of (x : inode) : dinode :=
  mk_dinode (i_type x) (i_major x) (i_minor x) (i_nlink x) (i_size x) (i_addrs x).

(** [data[bi/8] & (1 << (bi % 8))] *)
Definition bit (d : list Z) (bi : Z) : option bool :=
  x ← d !! Z.to_nat (bi / 8); Some (negb (Z.land x (Z.shiftl 1 (bi mod 8)) =? 0)).
Definition set_bit (d : list Z) (bi : Z) : option (list Z) :=
  x ← d !! Z.to_nat (bi / 8); Some (<[Z.to_nat (bi / 8) := u8 (Z.lor x (Z.shiftl 1 (bi mod 8)))]> d).
Definition clear_bit (d : list Z) (bi : Z) : option (list Z) :=
  x ← d !! Z.to_nat (bi / 8);
  Some (<[Z.to_nat (bi / 8) := u8 (Z.ldiff x (Z.shiftl 1 (bi mod 8)))]> d).

(** The inner loop of [balloc]: the first clear bit among the next [n] from
    [bi], for the blocks below [size].  The outer [None] is a read outside the
    block. *)
Fixpoint find_clear (d : list Z) (b size bi : Z) (n : nat) : option (option Z) :=
  match n with
  | O => Some None
  | S n' =>
      if b + bi <? size then
        m ← bit d bi; if (m : bool) then find_clear d b size (bi + 1) n' else Some (Some bi)
      else Some None
  end.

(** The loop of [iget]: the cache entry of the inode, or else the first entry
    that is free. *)
Fixpoint iget_scan (l : list inode) (i : nat) (dev inum : Z) (empty : option nat) : nat + option nat :=
  match l with
  | [] => inr empty
  | x :: l' =>
      if (0 <? i_ref x) && (i_dev x =? dev) && (i_inum x =? inum) then inl i
      else iget_scan l' (S i) dev inum
             (match empty with None => if i_ref x =? 0 then Some i else None | Some _ => empty end)
  end.

Section inodes.
Context {FU : Fuel} {DK : Disk}.

Definition bzero (dev bno : Z) : K unit :=
  bp <- bread (u32 dev) (u32 bno) ;;
  set_data bp (fun d => Some (replicate (length d) 0)) ;;;
  log_write bp ;;;
  brelse bp.

(** [b] goes up to [sb.size] by BPB, so that [size / BPB + 1] rounds are enough. *)
Fixpoint balloc_loop (n : nat) (dev b : Z) : K Z :=
  x <- rget sb ;;
  if b <? sb_size x then
    match n with
    | O => fun _ => NoFuel
    | S n' =>
        bp <- bread dev (BBLOCK b x) ;;
        d <- buf_data bp ;;
        o <- try_get (fun _ => find_clear d b (sb_size x) 0 (Z.to_nat BPB)) ;;
        match o with
        | Some bi =>
            set_data bp (fun d => set_bit d bi) ;;;
            log_write bp ;;;
            brelse bp ;;;
            bzero dev (b + bi) ;;;
            ret (b + bi)
        | None => brelse bp ;;; balloc_loop n' dev (b + BPB)
        end
    end
  else panic "balloc: out of blocks".
Definition balloc (dev : Z) : K Z :=
  x <- rget sb ;; balloc_loop (S (Z.to_nat (sb_size x / BPB))) dev 0.

Definition bfree (dev b : Z) : K unit :=
  x <- rget sb ;;
  bp <- bread (u32 dev) (BBLOCK b x) ;;
  let bi := b mod BPB in
  d <- buf_data bp ;;
  m <- try_get (fun _ => bit d bi) ;;
  if negb m then panic "freeing free block" else
  set_data bp (fun d => clear_bit d bi) ;;;
  log_write bp ;;;
  brelse bp.

Definition iget (dev inum : Z) : K nat :=
  lock icache_lock ;;;
  r <- rget (fun r => iget_scan (inodes r) 0 dev inum None) ;;
  match r with
  | inl ip =>
      inode_set ip (fun x => x <| i_ref ::= fun n => n + 1 |>) ;;;
      unlock icache_lock ;;;
      ret ip
  | inr None => panic "iget: no inodes"
  | inr (Some ip) =>
      inode_set ip (fun x => x <| i_dev := dev |> <| i_inum := inum |> <| i_ref := 1 |> <| i_valid := 0 |>) ;;;
      unlock icache_lock ;;;
      ret ip
  end.

(** The offset of inode [inum] in its block. *)
Definition ioff (inum : Z) : nat := (dinode_size * Z.to_nat (inum mod IPB))%nat.

Fixpoint ialloc_loop (n : nat) (dev type inum : Z) : K nat :=
  x <- rget sb ;;
  if inum <? sb_ninodes x then
    match n with
    | O => fun _ => NoFuel
    | S n' =>
        bp <- bread dev (IBLOCK inum x) ;;
        d <- buf_data bp ;;
        dip <- try_get (fun _ => decode_dinode d (ioff inum)) ;;
        if d_type dip =? 0 then
          set_data bp (fun d => put_bytes d (ioff inum) (encode_dinode (mk_dinode type 0 0 0 0 (replicate 13 0)))) ;;;
          log_write bp ;;;
          brelse bp ;;;
          iget dev inum
        else brelse bp ;;; ialloc_loop n' dev type (inum + 1)
    end
  else panic "ialloc: no inodes".
Definition ialloc (dev type : Z) : K nat :=
  x <- rget sb ;; ialloc_loop (Z.to_nat (sb_ninodes x)) dev type 1.

(** The fields written cover the whole of [struct dinode]. *)
Definition iupdate (ip : nat) : K unit :=
  x <- inode_get ip ;;
  s <- rget sb ;;
  bp <- bread (i_dev x) (IBLOCK (i_inum x) s) ;;
  x <- inode_get ip ;;
  set_data bp (fun d => put_bytes d (ioff (i_inum x)) (encode_dinode (dinode_of x))) ;;;
  log_write bp ;;;
  brelse bp.

Definition idup (ip : nat) : K nat :=
  lock icache_lock ;;;
  inode_set ip (fun x => x <| i_ref ::= fun n => n + 1 |>) ;;;
  unlock icache_lock ;;;
  ret ip.

Definition ilock (ip : nat) : K unit :=
  x <- inode_get ip ;;
  if i_ref x <? 1 then panic "ilock" else
  acquiresleep (inode_lock ip) ;;;
  x <- inode_get ip ;;
  if i_valid x =? 0 then
    s <- rget sb ;;
    bp <- bread (i_dev x) (IBLOCK (i_inum x) s) ;;
    d <- buf_data bp ;;
    dip <- try_get (fun _ => decode_dinode d (ioff (i_inum x))) ;;
    inode_set ip (fun x => x <| i_type := d_type dip |> <| i_major := d_major dip |> <| i_minor := d_minor dip |>
      <| i_nlink := d_nlink dip |> <| i_size := d_size dip |> <| i_addrs := d_addrs dip |>) ;;;
    brelse bp ;;;
    inode_set ip (fun x => x <| i_valid := 1 |>) ;;;
    x <- inode_get ip ;;
    if i_type x =? 0 then panic "ilock: no type" else ret tt
  else ret tt.

Definition iunlock (ip : nat) : K unit :=
  h <- holdingsleep (inode_lock ip) ;;
  x <- inode_get ip ;;
  if negb h || (i_ref x <? 1) then panic "iunlock" else releasesleep (inode_lock ip).

(** Entry [i] of [ip->addrs]. *)
Definition addr_get (ip i : nat) : K Z := x <- inode_get ip ;; try_get (fun _ => i_addrs x !! i).
Definition addr_set (ip i : nat) (a : Z) : K unit := inode_set ip (fun x => x <| i_addrs ::= <[i := a]> |>).

Definition bmap (ip : nat) (bn : Z) : K Z :=
  if bn <? NDIRECT then
    addr <- addr_get ip (Z.to_nat bn) ;;
    if addr =? 0 then
      x <- inode_get ip ;;
      addr <- balloc (i_dev x) ;;
      addr_set ip (Z.to_nat bn) addr ;;;
      ret addr
    else ret addr
  else
  let bn := bn - NDIRECT in
  if bn <? NINDIRECT then
    addr <- addr_get ip (Z.to_nat NDIRECT) ;;
    x <- inode_get ip ;;
    addr <- (if addr =? 0 then
               addr <- balloc (i_dev x) ;; addr_set ip (Z.to_nat NDIRECT) addr ;;; ret addr
             else ret addr) ;;
    bp <- bread (i_dev x) addr ;;
    d <- buf_data bp ;;
    addr <- try_get (fun _ => get32 d (4 * Z.to_nat bn)) ;;
    addr <- (if addr =? 0 then
               addr <- balloc (i_dev x) ;;
               set_data bp (fun d => put32 d (4 * Z.to_nat bn) addr) ;;;
               log_write bp ;;;
               ret addr
             else ret addr) ;;
    brelse bp ;;;
    ret addr
  else panic "bmap: out of range".

Definition itrunc (ip : nat) : K unit :=
  for_range 0 (Z.to_nat NDIRECT) (fun i =>
    a <- addr_get ip i ;;
    if negb (a =? 0) then
      x <- inode_get ip ;;
      bfree (i_dev x) a ;;;
      addr_set ip i 0
    else ret tt) ;;;
  a <- addr_get ip (Z.to_nat NDIRECT) ;;
  (if negb (a =? 0) then
     x <- inode_get ip ;;
     bp <- bread (i_dev x) a ;;
     for_range 0 (Z.to_nat NINDIRECT) (fun j =>
       d <- buf_data bp ;;
       a <- try_get (fun _ => get32 d (4 * j)) ;;
       if negb (a =? 0) then x <- inode_get ip ;; bfree (i_dev x) a else ret tt) ;;;
     brelse bp ;;;
     x <- inode_get ip ;;
     a <- addr_get ip (Z.to_nat NDIRECT) ;;
     bfree (i_dev x) a ;;;
     addr_set ip (Z.to_nat NDIRECT) 0
   else ret tt) ;;;
  inode_set ip (fun x => x <| i_size := 0 |>) ;;;
  iupdate ip.

Definition iput (ip : nat) : K unit :=
  acquiresleep (inode_lock ip) ;;;
  x <- inode_get ip ;;
  (if negb (i_valid x =? 0) && (i_nlink x =? 0) then
     lock icache_lock ;;;
     x <- inode_get ip ;;
     let r := i_ref x in
     unlock icache_lock ;;;
     if r =? 1 then
       itrunc ip ;;;
       inode_set ip (fun x => x <| i_type := 0 |>) ;;;
       iupdate ip ;;;
       inode_set ip (fun x => x <| i_valid := 0 |>)
     else ret tt
   else ret tt) ;;;
  releasesleep (inode_lock ip) ;;;
  lock icache_lock ;;;
  inode_set ip (fun x => x <| i_ref ::= fun n => n - 1 |>) ;;;
  unlock icache_lock.

Definition iunlockput (ip : nat) : K unit := iunlock ip ;;; iput ip.

Definition stati (ip : nat) : K stat :=
  x <- inode_get ip ;;
  ret (mk_stat (i_type x) (i_dev x) (i_inum x) (i_nlink x) (i_size x)).
End inodes.
