(* ===== verification/Console.v ===== *)
(** * Console (console.c), keyboard (kbd.c, kbd.h) and what they print

    Output goes to the serial port and to the CGA screen; input is the ring
    [input] with its three cursors.  Also here, because they print: [procdump]
    of proc.c, [getcallerpcs] of spinlock.c, [ioapicinit] of ioapic.c. *)

From S2P Require Import Prelude Machine Spinlock CString ProcTable Proc Lifecycle Kstate.
From S2P Require Import Sleeplock Devices Disk Bio Layout Log Inode.

(** ** Strings *)

Fixpoint chars (s : string) : list Z :=
  match s with
  | EmptyString => []
  | String a s' => Z.of_nat (Ascii.nat_of_ascii a) :: chars s'
  end.
(** A string constant, and one that ends with a newline. *)
Definition cs (s : string) : list Z := chars s ++ [0].
Definition csn (s : string) : list Z := chars s ++ [10; 0].

(** ** printint: what it prints, in the order of printing *)

Definition digits : list Z := chars "0123456789abcdef".

(** The digits of [x] from the lowest one.  A 32-bit number has at most 32. *)
Fixpoint digits_of (n : nat) (tbl : list Z) (x base : Z) : list Z :=
  match n with
  | O => []
  | S n' =>
      default 0 (tbl !! Z.to_nat (x mod base)) ::
      (if x / base =? 0 then [] else digits_of n' tbl (x / base) base)
  end.

(** [xx] is an [int] and [x] a [uint]: negating the smallest number is harmless. *)
Definition printint_chars (tbl : list Z) (xx base : Z) (sign : bool) : list Z :=
  let neg := sign && (xx <? 0) in
  let x := if neg then u32 (- xx) else u32 xx in
  rev (digits_of 32 tbl x base ++ (if neg then [45] else [])).

(** The arguments of [cprintf] and [printf]. *)
Inductive arg := Num (z : Z) | Str (s : list Z) | NullStr.

Section console.
Context {FU : Fuel} {HW : Hw} {DK : Disk}.

Definition con_set (f : console → console) : K unit := rmod (fun r => r <| con ::= f |>).

(** ** Output *)

Definition BACKSPACE : Z := 0x100.
Definition CRTPORT : Z := 0x3d4.

(** [crt[pos] = v] *)
Definition crt_put (pos v : Z) : K unit :=
  try_modify (fun s =>
    k ← index pos;
    if (k <? length (crt (con (res s))))%nat
    then Some (s <| res ::= fun r => r <| con ::= fun c => c <| crt ::= <[k := u16 v]> |> |> |>) else None).

(** [memmove(crt, crt+80, sizeof(crt[0])*23*80)] and
    [memset(crt+pos, 0, sizeof(crt[0])*(24*80 - pos))] *)
Definition crt_scroll (pos : nat) (c : list Z) : list Z :=
  let c := take 1840 (drop 80 c) ++ drop 1840 c in
  take pos c ++ replicate (1920 - pos) 0 ++ drop 1920 c.

Definition cgaputc (c : Z) : K unit :=
  outb CRTPORT 14 ;;;
  hi <- inb (CRTPORT + 1) ;;
  outb CRTPORT 15 ;;;
  lo <- inb (CRTPORT + 1) ;;
  let pos := Z.lor (Z.shiftl hi 8) lo in
  pos <- (if c =? 10 then ret (pos + (80 - pos mod 80))
          else if c =? BACKSPACE then ret (if 0 <? pos then pos - 1 else pos)
          else crt_put pos (Z.lor (Z.land c 0xff) 0x0700) ;;; ret (pos + 1)) ;;
  if (pos <? 0) || (25 * 80 <? pos) then panic "pos under/overflow" else
  pos <- (if 24 <=? pos / 80 then
            con_set (fun k => k <| crt ::= crt_scroll (Z.to_nat (pos - 80)) |>) ;;; ret (pos - 80)
          else ret pos) ;;
  outb CRTPORT 14 ;;;
  outb (CRTPORT + 1) (Z.shiftr pos 8) ;;;
  outb CRTPORT 15 ;;;
  outb (CRTPORT + 1) pos ;;;
  crt_put pos (Z.lor 32 0x0700).

(** After a panic of another CPU the loop never ends. *)
Definition consputc (c : Z) : K unit :=
  p <- rget (fun r => panicked (con r)) ;;
  if negb (p =? 0) then fun _ => NoFuel else
  (if c =? BACKSPACE then uartputc 8 ;;; uartputc 32 ;;; uartputc 8 else uartputc c) ;;;
  cgaputc c.

Fixpoint putchars (l : list Z) : K unit :=
  match l with [] => ret tt | c :: l' => consputc c ;;; putchars l' end.

(** [buf] has room for 16 characters. *)
Definition printint (xx base : Z) (sign : bool) : K unit :=
  let l := printint_chars digits xx base sign in
  if (16 <? length l)%nat then fault else putchars l.

(** [for(; *s; s++) consputc( *s);] *)
Fixpoint putstr (s : list Z) : K unit :=
  match s with
  | [] => fault
  | c :: s' => if c =? 0 then ret tt else consputc (s8 c) ;;; putstr s'
  end.

Fixpoint cprintf_loop (fmt : list Z) (args : list arg) : K unit :=
  match fmt with
  | [] => fault
  | c :: fmt' =>
      if c =? 0 then ret tt else
      if negb (c =? 37) then consputc c ;;; cprintf_loop fmt' args else
      match fmt' with
      | [] => fault
      | c :: fmt'' =>
          if c =? 0 then ret tt else
          if c =? 100 (* d *) then
            match args with Num z :: args' => printint (s32 z) 10 true ;;; cprintf_loop fmt'' args' | _ => fault end
          else if (c =? 120) || (c =? 112) (* x p *) then
            match args with Num z :: args' => printint (s32 z) 16 false ;;; cprintf_loop fmt'' args' | _ => fault end
          else if c =? 115 (* s *) then
            match args with
            | Str s :: args' => putstr s ;;; cprintf_loop fmt'' args'
            | NullStr :: args' => putstr (cs "(null)") ;;; cprintf_loop fmt'' args'
            | _ => fault
            end
          else if c =? 37 then consputc 37 ;;; cprintf_loop fmt'' args
          else consputc 37 ;;; consputc c ;;; cprintf_loop fmt'' args
      end
  end.

(** [fmt] is never null. *)
Definition cprintf (fmt : list Z) (args : list arg) : K unit :=
  locking <- rget (fun r => cons_locking (con r)) ;;
  (if negb (locking =? 0) then lock cons_lock else ret tt) ;;;
  cprintf_loop fmt args ;;;
  (if negb (locking =? 0) then unlock cons_lock else ret tt).

(** spinlock.c: [word a] is the 32-bit word at virtual address [a]. *)
Fixpoint callerpcs (n : nat) (word : Z → Z) (ebp : Z) : list Z :=
  match n with
  | O => []
  | S n' =>
      if (ebp =? 0) || (ebp <? 0x80000000) || (ebp =? 0xffffffff) then replicate n 0
      else word (u32 (ebp + 4)) :: callerpcs n' word (word ebp)
  end.
Definition getcallerpcs (word : Z → Z) (v : Z) : list Z := callerpcs 10 word (u32 (v - 8)).

(** A word of kernel memory, mapped at KERNBASE. *)
Definition kernel_word (m : mem) (a : Z) : Z :=
  let m a := m (u32 (a - 0x80000000)) in
  m a + 2 ^ 8 * m (a + 1) + 2 ^ 16 * m (a + 2) + 2 ^ 24 * m (a + 3).

(** proc.c *)
Definition state_name (st : procstate) : list Z :=
  cs match st with
     | UNUSED => "unused" | EMBRYO => "embryo" | SLEEPING => "sleep "
     | RUNNABLE => "runble" | RUNNING => "run   " | ZOMBIE => "zombie"
     end.

Fixpoint print_pcs (l : list Z) : K unit :=
  match l with
  | [] => ret tt
  | pc :: l' => if pc =? 0 then ret tt else cprintf (cs " %p") [Num pc] ;;; print_pcs l'
  end.

Definition procdump : K unit :=
  for_range 0 NPROC (fun i =>
    p <- get_proc i ;;
    if bool_decide (state p = UNUSED) then ret tt else
    cprintf (cs "%d %s %s") [Num (pid p); Str (state_name (state p)); Str (pname p)] ;;;
    (if bool_decide (state p = SLEEPING) then
       m <- rget pmem ;;
       print_pcs (getcallerpcs (kernel_word m) (u32 (c_ebp (ctx p) + 8)))
     else ret tt) ;;;
    cprintf (csn "") []).

(** [panic(s)] up to its endless loop, which the outcome [Panic] stands for:
    the message and ten return addresses, then [panicked] stops the other CPUs
    in [consputc].  [v] is the address of the argument on the stack. *)
Definition panic_report (s : list Z) (v : Z) : K unit :=
  on_mach cli ;;;
  con_set (fun k => k <| cons_locking := 0 |>) ;;;
  id <- on_mach (gets lapicid) ;;
  cprintf (cs "lapicid %d: panic: ") [Num id] ;;;
  cprintf s [] ;;;
  cprintf (csn "") [] ;;;
  m <- rget pmem ;;
  let pcs := getcallerpcs (kernel_word m) v in
  for_range 0 10 (fun i => cprintf (cs " %p") [Num (nth i pcs 0)]) ;;;
  con_set (fun k => k <| panicked := 1 |>).

(** ioapic.c *)
Definition ioapicinit : K unit :=
  v <- ioapicread REG_VER ;;
  let maxintr := Z.land (Z.shiftr v 16) 0xFF in
  i <- ioapicread REG_ID ;;
  id <- rget (fun r => ioapicid (dev r)) ;;
  (if negb (Z.shiftr i 24 =? id)
   then cprintf (csn "ioapicinit: id isn't equal to ioapicid; not a MP") [] else ret tt) ;;;
  for_range 0 (Z.to_nat (maxintr + 1)) (fun i =>
    let i := Z.of_nat i in
    ioapicwrite (REG_TABLE + 2 * i) (Z.lor INT_DISABLED (T_IRQ0 + i)) ;;;
    ioapicwrite (REG_TABLE + 2 * i + 1) 0).

(** ** Input *)

(** [C(x)] *)
Definition ctrl (x : Z) : Z := x - 64.

(** Kill line: erase up to the last newline, at most the whole ring. *)
Fixpoint kill_line (n : nat) : K unit :=
  k <- rget con ;;
  c <- try_get (fun _ => in_buf k !! Z.to_nat (u32 (in_e k - 1) mod INPUT_BUF)) ;;
  if negb (in_e k =? in_w k) && negb (c =? 10) then
    match n with
    | O => fun _ => NoFuel
    | S n' =>
        con_set (fun k => k <| in_e ::= fun e => u32 (e - 1) |>) ;;;
        consputc BACKSPACE ;;;
        kill_line n'
    end
  else ret tt.

(** The body of the loop of [consoleintr] for one character; returns whether
    the process listing was asked for. *)
Definition console_key (c : Z) : K bool :=
  if c =? ctrl 80 then ret true else
  (if c =? ctrl 85 then kill_line (Z.to_nat INPUT_BUF)
   else if (c =? ctrl 72) || (c =? 0x7f) then
     k <- rget con ;;
     if negb (in_e k =? in_w k) then
       con_set (fun k => k <| in_e ::= fun e => u32 (e - 1) |>) ;;; consputc BACKSPACE
     else ret tt
   else
     k <- rget con ;;
     if negb (c =? 0) && (u32 (in_e k - in_r k) <? INPUT_BUF) then
       let c := if c =? 13 then 10 else c in
       con_set (fun k => k <| in_buf ::= <[Z.to_nat (in_e k mod INPUT_BUF) := s8 c]> |>
                           <| in_e ::= fun e => u32 (e + 1) |>) ;;;
       consputc c ;;;
       k <- rget con ;;
       if (c =? 10) || (c =? ctrl 68) || (in_e k =? u32 (in_r k + INPUT_BUF)) then
         con_set (fun k => k <| in_w := in_e k |>) ;;; wakeup input_chan
       else ret tt
     else ret tt) ;;;
  ret false.

Fixpoint console_keys (n : nat) (getc : K Z) (doprocdump : bool) : K bool :=
  c <- getc ;;
  if 0 <=? c then
    match n with
    | O => fun _ => NoFuel
    | S n' => d <- console_key c ;; console_keys n' getc (doprocdump || d)
    end
  else ret doprocdump.

Definition consoleintr (getc : K Z) : K unit :=
  lock cons_lock ;;;
  d <- console_keys fuel getc false ;;
  unlock cons_lock ;;;
  if (d : bool) then procdump else ret tt.

(** [while(input.r == input.w)]: true when the process was killed. *)
Fixpoint wait_input (n : nat) : K bool :=
  k <- rget con ;;
  if in_r k =? in_w k then
    d <- mykilled ;;
    if d : bool then ret true else
    match n with
    | O => fun _ => NoFuel
    | S n' => sleep input_chan cons_lock ;;; wait_input n'
    end
  else ret false.

(** The loop of [consoleread] with [n] characters to go: [None] when the
    process was killed, else what is left of [n]; and the bytes stored. *)
Fixpoint read_chars (n : nat) (target : Z) : K (option Z * list Z) :=
  match n with
  | O => ret (Some 0, [])
  | S n' =>
      kd <- wait_input fuel ;;
      if kd : bool then ret (None, []) else
      k <- rget con ;;
      c <- try_get (fun _ => in_buf k !! Z.to_nat (in_r k mod INPUT_BUF)) ;;
      con_set (fun k => k <| in_r ::= fun r => u32 (r + 1) |>) ;;;
      if c =? ctrl 68 then
        (if Z.of_nat n <? target then con_set (fun k => k <| in_r ::= fun r => u32 (r - 1) |>) else ret tt) ;;;
        ret (Some (Z.of_nat n), [])
      else if c =? 10 then ret (Some (Z.of_nat n'), [u8 c])
      else
        x <- read_chars n' target ;;
        ret (fst x, u8 c :: snd x)
  end.

(** The result and the bytes stored at [dst]. *)
Definition consoleread (ip : nat) (n : Z) : K (Z * list Z) :=
  iunlock ip ;;;
  lock cons_lock ;;;
  x <- read_chars (Z.to_nat n) (u32 n) ;;
  unlock cons_lock ;;;
  ilock ip ;;;
  match fst x with
  | None => ret (-1, snd x)
  | Some n' => ret (s32 (n - n'), snd x)
  end.

(** [buf] holds the [n] bytes at the address given. *)
Definition consolewrite (ip : nat) (buf : list Z) : K Z :=
  iunlock ip ;;;
  lock cons_lock ;;;
  putchars buf ;;;
  unlock cons_lock ;;;
  ilock ip ;;;
  ret (Z.of_nat (length buf)).

Definition consoleinit : K unit :=
  on_mach (initlock cons_lock "console") ;;;
  rmod (fun r => r <| devsw ::= <[Z.to_nat CONSOLE := DevConsole]> |>) ;;;
  con_set (fun k => k <| cons_locking := 1 |>) ;;;
  ioapicenable IRQ_KBD 0.

(** uart.c *)
Definition uartintr : K unit := consoleintr uartgetc.
End console.
