(* ===== verification/Kbd.v ===== *)
(** * The keyboard driver (kbd.c, kbd.h) *)

From S2P Require Import Prelude Machine Spinlock CString ProcTable Proc Lifecycle Kstate.
From S2P Require Import Devices Disk Console.

Definition KBSTATP : Z := 0x64.
Definition KBS_DIB : Z := 0x01.
Definition KBDATAP : Z := 0x60.
Definition SHIFT : Z := 1.
Definition CTL : Z := 2.
Definition ALT : Z := 4.
Definition CAPSLOCK : Z := 8.
Definition NUMLOCK : Z := 16.
Definition SCROLLLOCK : Z := 32.
Definition E0ESC : Z := 64.

Definition KEY_HOME : Z := 0xE0.
Definition KEY_END : Z := 0xE1.
Definition KEY_UP : Z := 0xE2.
Definition KEY_DN : Z := 0xE3.
Definition KEY_LF : Z := 0xE4.
Definition KEY_RT : Z := 0xE5.
Definition KEY_PGUP : Z := 0xE6.
Definition KEY_PGDN : Z := 0xE7.
Definition KEY_INS : Z := 0xE8.
Definition KEY_DEL : Z := 0xE9.

(** An array of 256 bytes given by its first entries and a list of designated
    ones; the rest is zero. *)
Definition table (first : list Z) (at_ : list (Z * Z)) : list Z :=
  foldr (fun e l => <[Z.to_nat (fst e) := snd e]> l) (first ++ replicate (256 - length first) 0) at_.

Definition shiftcode : list Z :=
  table [] [(0x1D, CTL); (0x2A, SHIFT); (0x36, SHIFT); (0x38, ALT); (0x9D, CTL); (0xB8, ALT)].
Definition togglecode : list Z :=
  table [] [(0x3A, CAPSLOCK); (0x45, NUMLOCK); (0x46, SCROLLLOCK)].

Definition keypad : list (Z * Z) :=
  [(0xC8, KEY_UP); (0xD0, KEY_DN); (0xC9, KEY_PGUP); (0xD1, KEY_PGDN); (0xCB, KEY_LF); (0xCD, KEY_RT);
   (0x97, KEY_HOME); (0xCF, KEY_END); (0xD2, KEY_INS); (0xD3, KEY_DEL)].

Definition NO : Z := 0.
Definition normalmap : list Z :=
  table ([NO; 0x1B] ++ chars "1234567890-=" ++ [8; 9] ++ chars "qwertyuiop[]" ++ [10; NO] ++
         chars "asdfghjkl;'`" ++ [NO] ++ chars "\zxcvbnm,./" ++ [NO; 42; NO; 32] ++
         replicate 13 NO ++ chars "789-456+1230.")
    ((0x9C, 10) :: (0xB5, 47) :: keypad).
Definition shiftmap : list Z :=
  table ([NO; 0x1B] ++ chars "!@#$%^&*()_+" ++ [8; 9] ++ chars "QWERTYUIOP{}" ++ [10; NO] ++
         chars "ASDFGHJKL:" ++ [34; 126; NO] ++ chars "|ZXCVBNM<>?" ++ [NO; 42; NO; 32] ++
         replicate 13 NO ++ chars "789-456+1230.")
    ((0x9C, 10) :: (0xB5, 47) :: keypad).
Definition ctlmap : list Z :=
  table (replicate 16 NO ++ map ctrl (chars "QWERTYUIOP") ++ [NO; NO; 13; NO] ++
         map ctrl (chars "ASDFGHJKL") ++ replicate 4 NO ++ map ctrl (chars "\ZXCVBNM") ++
         [NO; NO; ctrl 47; NO; NO])
    ((0x9C, 13) :: (0xB5, ctrl 47) :: keypad).

Definition charcode : list (list Z) := [normalmap; shiftmap; ctlmap; ctlmap].

(** The bytes of the tables: entries of [ctlmap] are converted to [uchar]. *)
Definition lookup_byte (l : list Z) (i : Z) : option Z := u8 <$> l !! Z.to_nat i.

(** What one byte of the keyboard does: the new [shift] and the character. *)
Definition kbd_step (sh data : Z) : option (Z * Z) :=
  if data =? 0xE0 then Some (Z.lor sh E0ESC, 0)
  else if negb (Z.land data 0x80 =? 0) then
    let data := if negb (Z.land sh E0ESC =? 0) then data else Z.land data 0x7F in
    sc ← lookup_byte shiftcode data;
    Some (Z.ldiff sh (Z.lor sc E0ESC), 0)
  else
    let esc := negb (Z.land sh E0ESC =? 0) in
    let data := if esc then Z.lor data 0x80 else data in
    let sh := if esc then Z.ldiff sh E0ESC else sh in
    sc ← lookup_byte shiftcode data;
    tc ← lookup_byte togglecode data;
    let sh := Z.lxor (Z.lor sh sc) tc in
    m ← charcode !! Z.to_nat (Z.land sh (Z.lor CTL SHIFT));
    c ← lookup_byte m data;
    let c :=
      if negb (Z.land sh CAPSLOCK =? 0) then
        if (97 <=? c) && (c <=? 122) then c - 32
        else if (65 <=? c) && (c <=? 90) then c + 32 else c
      else c in
    Some (sh, c).

Section kbd.
Context {FU : Fuel} {HW : Hw} {DK : Disk}.

Definition kbdgetc : K Z :=
  st <- inb KBSTATP ;;
  if Z.land st KBS_DIB =? 0 then ret (-1) else
  data <- inb KBDATAP ;;
  sh <- rget (fun r => shift (dev r)) ;;
  x <- try_get (fun _ => kbd_step sh data) ;;
  rmod (fun r => r <| dev ::= fun d => d <| shift := fst x |> |>) ;;;
  ret (snd x).

Definition kbdintr : K unit := consoleintr kbdgetc.
End kbd.

(** ** Theorems *)

(** All tables have 256 entries. *)
Lemma kbd_tables : Forall (fun l => length l = 256%nat) (shiftcode :: togglecode :: charcode).
Proof. repeat constructor. Qed.
