(* ===== verification/Fs.v ===== *)
(** * Inode content, directories and paths (fs.c)

    Data read is returned as a list of bytes and data written is given as
    one.  A C string is the list of its characters up to and including the
    terminating zero. *)

From S2P Require Import Prelude Machine Spinlock CString ProcTable Proc Lifecycle Kstate.
From S2P Require Import Sleeplock Devices Disk Bio Layout Log Inode Console.

(** ** Path elements *)

(** [while( *path == '/') path++;] *)
Fixpoint skip_slashes (path : list Z) : option (list Z) :=
  match path with
  | [] => None
  | c :: path' => if c =? 47 then skip_slashes path' else Some path
  end.

(** [while( *path != '/' && *path != 0) path++;]: the characters passed and the rest. *)
Fixpoint span_elem (path : list Z) : option (list Z * list Z) :=
  match path with
  | [] => None
  | c :: path' =>
      if (c =? 47) || (c =? 0) then Some ([], path)
      else r ← span_elem path'; Some (c :: fst r, snd r)
  end.

(** The outer [None] is a read past the end of the string; [Some None] is the
    null result. [name] is the buffer of DIRSIZ bytes. *)
Definition skipelem (path name : list Z) : option (option (list Z * list Z)) :=
  path ← skip_slashes path;
  if bool_decide (head path = Some 0) then Some None else
  r ← span_elem path;
  let s := fst r in
  let len := length s in
  let name := if (DIRSIZ <=? len)%nat then take DIRSIZ s ++ drop DIRSIZ name
              else s ++ [0] ++ drop (len + 1) name in
  path ← skip_slashes (snd r);
  Some (Some (path, name)).

Definition namecmp (s t : list Z) : option Z := strncmp s t DIRSIZ.

Section fs.
Context {FU : Fuel} {HW : Hw} {DK : Disk}.

Definition iinit (dev : Z) : K unit :=
  on_mach (initlock icache_lock "icache") ;;;
  for_range 0 NINODE (fun i => initsleeplock (inode_lock i) "inode") ;;;
  x <- readsb dev ;;
  rmod (fun r => r <| sb := x |>) ;;;
  cprintf (csn "sb: size %d nblocks %d ninodes %d nlog %d logstart %d inodestart %d bmap start %d")
    [Num (sb_size x); Num (sb_nblocks x); Num (sb_ninodes x); Num (sb_nlog x); Num (sb_logstart x);
     Num (sb_inodestart x); Num (sb_bmapstart x)].

(** ** Content *)

(** The entry of [devsw] for a device inode. *)
Definition device (x : inode) : K devfun :=
  if (i_major x <? 0) || (NDEV <=? i_major x) then ret DevNone
  else try_get (fun s => devsw (res s) !! Z.to_nat (i_major x)).

(** The copying loop with [n] bytes to go; every round copies at least one. *)
Fixpoint readi_loop (k : nat) (ip : nat) (off n : Z) : K (list Z) :=
  if 0 <? n then
    match k with
    | O => fun _ => NoFuel
    | S k' =>
        x <- inode_get ip ;;
        a <- bmap ip (off / BSIZE) ;;
        bp <- bread (i_dev x) a ;;
        let m := Z.min n (BSIZE - off mod BSIZE) in
        d <- buf_data bp ;;
        l <- try_get (fun _ => get_bytes d (Z.to_nat (off mod BSIZE)) (Z.to_nat m)) ;;
        brelse bp ;;;
        l' <- readi_loop k' ip (off + m) (n - m) ;;
        ret (l ++ l')
    end
  else ret [].

Definition readi (ip : nat) (off n : Z) : K (Z * list Z) :=
  x <- inode_get ip ;;
  if i_type x =? T_DEV then
    f <- device x ;;
    match f with
    | DevNone => ret (-1, [])
    | DevConsole => consoleread ip (s32 n)
    end
  else
  if (i_size x <? off) || (u32 (off + n) <? off) then ret (-1, []) else
  let n := if i_size x <? u32 (off + n) then i_size x - off else n in
  l <- readi_loop (Z.to_nat n) ip off n ;;
  ret (s32 n, l).

(** The loop of [writei]; returns the final [off]. *)
Fixpoint writei_loop (k : nat) (ip : nat) (src : list Z) (off : Z) : K Z :=
  let n := Z.of_nat (length src) in
  if 0 <? n then
    match k with
    | O => fun _ => NoFuel
    | S k' =>
        x <- inode_get ip ;;
        a <- bmap ip (off / BSIZE) ;;
        bp <- bread (i_dev x) a ;;
        let m := Z.min n (BSIZE - off mod BSIZE) in
        set_data bp (fun d => put_bytes d (Z.to_nat (off mod BSIZE)) (take (Z.to_nat m) src)) ;;;
        log_write bp ;;;
        brelse bp ;;;
        writei_loop k' ip (drop (Z.to_nat m) src) (off + m)
    end
  else ret off.

Definition writei (ip : nat) (src : list Z) (off : Z) : K Z :=
  let n := Z.of_nat (length src) in
  x <- inode_get ip ;;
  if i_type x =? T_DEV then
    f <- device x ;;
    match f with
    | DevNone => ret (-1)
    | DevConsole => consolewrite ip src
    end
  else
  if (i_size x <? off) || (u32 (off + n) <? off) then ret (-1) else
  if MAXFILE * BSIZE <? u32 (off + n) then ret (-1) else
  off <- writei_loop (length src) ip src off ;;
  x <- inode_get ip ;;
  (if (0 <? n) && (i_size x <? off) then
     inode_set ip (fun x => x <| i_size := off |>) ;;; iupdate ip
   else ret tt) ;;;
  ret n.

(** ** Directories *)

(** [readi(dp, &de, off, sizeof(de))], which must succeed. *)
Definition read_dirent (dp : nat) (off : Z) (msg : string) : K dirent :=
  r <- readi dp off dirent_size ;;
  if negb (fst r =? dirent_size) then panic msg else
  try_get (fun _ => decode_dirent (snd r)).

(** The loop of [dirlookup]: the entry with that name and its offset. *)
Fixpoint dirlookup_loop (k : nat) (dp : nat) (name : list Z) (off : Z) : K (option (Z * Z)) :=
  x <- inode_get dp ;;
  if off <? i_size x then
    match k with
    | O => fun _ => NoFuel
    | S k' =>
        de <- read_dirent dp off "dirlookup read" ;;
        if de_inum de =? 0 then dirlookup_loop k' dp name (off + dirent_size) else
        r <- try_get (fun _ => namecmp name (de_name de)) ;;
        if r =? 0 then ret (Some (de_inum de, off))
        else dirlookup_loop k' dp name (off + dirent_size)
    end
  else ret None.

(** The inode found and the offset stored through [poff], or null. *)
Definition dirlookup (dp : nat) (name : list Z) : K (option (nat * Z)) :=
  x <- inode_get dp ;;
  if negb (i_type x =? T_DIR) then panic "dirlookup not DIR" else
  r <- dirlookup_loop (S (Z.to_nat (i_size x / dirent_size))) dp name 0 ;;
  match r with
  | None => ret None
  | Some (inum, off) => ip <- iget (i_dev x) inum ;; ret (Some (ip, off))
  end.

(** The first free entry, or the end of the directory. *)
Fixpoint find_empty (k : nat) (dp : nat) (off : Z) : K Z :=
  x <- inode_get dp ;;
  if off <? i_size x then
    match k with
    | O => fun _ => NoFuel
    | S k' =>
        de <- read_dirent dp off "dirlink read" ;;
        if de_inum de =? 0 then ret off else find_empty k' dp (off + dirent_size)
    end
  else ret off.

(** [strncpy] fills all of [de.name], whatever it held before. *)
Definition dirlink (dp : nat) (name : list Z) (inum : Z) : K Z :=
  r <- dirlookup dp name ;;
  match r with
  | Some (ip, _) => iput ip ;;; ret (-1)
  | None =>
      x <- inode_get dp ;;
      off <- find_empty (S (Z.to_nat (i_size x / dirent_size))) dp 0 ;;
      n <- try_get (fun _ => strncpy (replicate DIRSIZ 0) name DIRSIZ) ;;
      w <- writei dp (encode_dirent (mk_dirent (u16 inum) n)) off ;;
      if negb (w =? dirent_size) then panic "dirlink" else ret 0
  end.

(** ** Paths *)

(** The loop of [namex] from inode [ip]; every round shortens the path. *)
Fixpoint namex_loop (k : nat) (ip : nat) (path : list Z) (nameiparent : bool) (name : list Z)
    : K (option nat * list Z) :=
  r <- try_get (fun _ => skipelem path name) ;;
  match r with
  | None => if nameiparent then iput ip ;;; ret (None, name) else ret (Some ip, name)
  | Some (path, name) =>
      match k with
      | O => fun _ => NoFuel
      | S k' =>
          ilock ip ;;;
          x <- inode_get ip ;;
          if negb (i_type x =? T_DIR) then iunlockput ip ;;; ret (None, name) else
          if nameiparent && bool_decide (head path = Some 0) then iunlock ip ;;; ret (Some ip, name) else
          next <- dirlookup ip name ;;
          match next with
          | None => iunlockput ip ;;; ret (None, name)
          | Some (next, _) => iunlockput ip ;;; namex_loop k' next path nameiparent name
          end
      end
  end.

Definition namex (path : list Z) (nameiparent : bool) (name : list Z) : K (option nat * list Z) :=
  c <- try_get (fun _ => head path) ;;
  ip <- (if c =? 47 then iget ROOTDEV ROOTINO
         else p <- curproc ;; q <- get_proc p ;;
              cw <- try_get (fun _ => unptr (cwd q)) ;; idup cw) ;;
  namex_loop (length path) ip path nameiparent name.

(** [name] is an uninitialised array; only its length matters. *)
Definition namei (path : list Z) : K (option nat) :=
  r <- namex path false (replicate DIRSIZ 0) ;; ret (fst r).

Definition nameiparent (path name : list Z) : K (option nat * list Z) := namex path true name.
End fs.
