(* ===== verification/Content.v ===== *)
(** * Reading the contents of files (fs.c: bmap, readi)

    What a file contains is defined from the blocks as the buffer cache and
    the disk show them ([view]); [readi] returns just that, whatever is cached.
    The state between file operations, in which no buffer is held, is [idle]. *)

From S2P Require Import Prelude Machine Spinlock CString ProcTable Proc Lifecycle Ready Aging.
From S2P Require Import ProcLemmas Scheduler Reach Blocking Kstate Sleeplock Solo.
From S2P Require Import Devices Disk Bio Cache Layout Log Crash Inode Console Fs.

(** No buffer is held, and not all are waiting to be written. *)
Record idle (me : Z) (r : kres) : Prop := {
  idle_cache : ∃ l, cache_ok me r l [];
  idle_dirty : ∃ ns, (∀ m, dirty r m → m ∈ ns) ∧ (length ns < NBUF)%nat }.

(** The same blocks, the same inodes, the same everything but the cache. *)
Record same_blocks (r r' : kres) : Prop := {
  sb_view : ∀ m, view r' m = view r m;
  sb_dirty : ∀ m, dirty r' m ↔ dirty r m;
  sb_frame : r' = r <| bufs := bufs r' |> <| slocks := slocks r' |>;
  sb_locks : other_locks r r' }.

Lemma same_blocks_refl r : same_blocks r r.
Proof. split; [done|done|by destruct r|done]. Qed.
Lemma same_blocks_trans r1 r2 r3 : same_blocks r1 r2 → same_blocks r2 r3 → same_blocks r1 r3.
Proof.
  intros [A1 A2 A3 A4] [B1 B2 B3 B4]. split; [intros m; by rewrite B1|intros m; by rewrite B2| |intros a Ha; by rewrite B4, A4]. rewrite B3, A3. by destruct r1.
Qed.
Lemma same_blocks_inodes r r' : same_blocks r r' → inodes r' = inodes r.
Proof. intros [_ _ -> _]. by destruct r. Qed.
Lemma same_blocks_disk r r' : same_blocks r r' → memdisk r' = memdisk r.
Proof. intros [_ _ -> _]. by destruct r. Qed.

(** ** Contents *)

(** Block [bn] of the file: what [bmap] looks up. *)
Definition file_block (V : Z → option (list Z)) (x : inode) (bn : Z) : option Z :=
  if bn <? NDIRECT then i_addrs x !! Z.to_nat bn
  else a ← i_addrs x !! Z.to_nat NDIRECT; d ← V a; get32 d (4 * Z.to_nat (bn - NDIRECT)).

Definition file_byte (V : Z → option (list Z)) (x : inode) (k : Z) : option Z :=
  a ← file_block V x (k / BSIZE); d ← V a; d !! Z.to_nat (k mod BSIZE).

(** The [n] bytes from [off] on. *)
Definition file_bytes (V : Z → option (list Z)) (x : inode) (off n : Z) : option (list Z) :=
  mapM (fun i => file_byte V x (off + Z.of_nat i)) (seq 0 (Z.to_nat n)).

Definition block_in (r : kres) (a : Z) : Prop := 0 < a < Z.of_nat (length (memdisk r)).

(** Every block below the size of the file is allocated. *)
Record mapped (r : kres) (x : inode) : Prop := {
  mp_dev : i_dev x = 1;
  mp_size : 0 ≤ i_size x ≤ MAXFILE * BSIZE;
  mp_blocks : ∀ bn, 0 ≤ bn → bn * BSIZE < i_size x → ∃ a, file_block (view r) x bn = Some a ∧ block_in r a;
  mp_indirect : NDIRECT * BSIZE < i_size x → ∃ a, i_addrs x !! Z.to_nat NDIRECT = Some a ∧ block_in r a }.

Lemma file_block_same r r' x bn : same_blocks r r' → file_block (view r') x bn = file_block (view r) x bn.
Proof.
  intros [Hv _ _ _]. unfold file_block. destruct (bn <? NDIRECT); [done|]. destruct (i_addrs x !! _) as [a|]; [|done]. cbn. by rewrite Hv.
Qed.
Lemma file_byte_same r r' x k : same_blocks r r' → file_byte (view r') x k = file_byte (view r) x k.
Proof.
  intros H. unfold file_byte. rewrite (file_block_same _ _ _ _ H). destruct (file_block (view r) x _) as [a|]; [|done]. cbn. by rewrite (sb_view _ _ H).
Qed.
Lemma mapped_same r r' x : same_blocks r r' → mapped r x → mapped r' x.
Proof.
  intros H [M1 M2 M3 M4]. assert (∀ a, block_in r a → block_in r' a) as Hin by (intros a; unfold block_in; by rewrite (same_blocks_disk _ _ H)).
  split; [done|done| |].
  - intros bn H1 H2. rewrite (file_block_same _ _ _ _ H). destruct (M3 bn H1 H2) as (a & ? & ?). eauto.
  - intros H1. destruct (M4 H1) as (a & ? & ?). eauto.
Qed.

(** ** Reading a block *)

Section reading.
Context {FU : Fuel} {HW : Hw} {DK : Disk} (Hdisk : in_memory DK).
Context {s : kstate} {c p : nat} {u : cpu} {q : proc} (Hsolo : solo s c p u q).

Lemma idle_same r r' l : same_blocks r r' → idle (pid q) r → cache_ok (pid q) r' l [] → idle (pid q) r'.
Proof.
  intros H [_ (ns & Hns & Hlen)] Hok. split; [by exists l|]. exists ns. split; [|done]. intros m Hm. by apply Hns, (sb_dirty _ _ H).
Qed.

(** [bread], use, [brelse]. *)
Lemma read_block n r : idle (pid q) r → 0 ≤ n < Z.of_nat (length (memdisk r)) →
  ∃ d b r1 r2, view r n = Some d ∧ length d = Z.to_nat BSIZE ∧ bread 1 n (with_res s r) = Ret b (with_res s r1) ∧ buf_data b (with_res s r1) = Ret d (with_res s r1) ∧
    brelse b (with_res s r1) = Ret tt (with_res s r2) ∧ same_blocks r r1 ∧ same_blocks r r2 ∧ idle (pid q) r2.
Proof.
  intros Hidle Hn. pose proof Hidle as [[l Hok] (ns & Hns & Hlen)].
  assert (available r) as Hav by (eapply available_count; [exact Hok|exact Hns|cbn; lia]).
  destruct (bread_solo Hdisk Hsolo Hok n) as (b & r1 & E1 & [B1 B2 B3 B4 B5 B6 B7 B8]); [intros ? ? []%not_elem_of_nil|done|by left|].
  destruct B3 as (x & (Hb & Hx & Hd1 & Hbn) & Hvx & Hcl). pose proof (cache_bufs _ _ _ _ B1 b x Hb Hx) as [Hlx _ _].
  assert (same_blocks r r1) as S1 by (by split). rewrite <- (same_blocks_disk _ _ S1) in Hcl.
  destruct (brelse_solo Hsolo [] b x B1) as (r2 & l2 & E2 & [L1 L2 L3 L4 L5 L6 L7]); [by left|done|done|set_solver|].
  assert (same_blocks r1 r2) as S2 by (by split). pose proof (same_blocks_trans _ _ _ S1 S2) as S3.
  exists (bdata x), b, r1, r2. split_and!; [done|done|done|by apply buf_data_ret|done|done|done|]. by eapply idle_same.
Qed.

Lemma inode_get_ret ip x r : inodes r !! ip = Some x → inode_get ip (with_res s r) = Ret x (with_res s r).
Proof. intros H. unfold inode_get, try_get. cbn. by rewrite H. Qed.
Lemma addr_get_ret ip i x a r : inodes r !! ip = Some x → i_addrs x !! i = Some a → addr_get ip i (with_res s r) = Ret a (with_res s r).
Proof. intros H Ha. unfold addr_get. rewrite (bind_ret _ _ _ _ _ (inode_get_ret ip x r H)). unfold try_get. by rewrite Ha. Qed.

(** [bmap] of a block that is allocated. *)
Lemma bmap_solo ip x bn a r : idle (pid q) r → inodes r !! ip = Some x → mapped r x →
  0 ≤ bn → bn * BSIZE < i_size x → file_block (view r) x bn = Some a →
  ∃ r', bmap ip bn (with_res s r) = Ret a (with_res s r') ∧ same_blocks r r' ∧ idle (pid q) r'.
Proof.
  intros Hidle Hx [Hdev Hsz Hbl Hind] H0 Hlt Ha. destruct (Hbl bn H0 Hlt) as (a' & Ha' & Hin). rewrite Ha in Ha'. injection Ha' as <-.
  unfold bmap. unfold file_block in Ha. destruct (Z.ltb_spec bn NDIRECT) as [Hd|Hd].
  - exists r. rewrite (bind_ret _ _ _ _ _ (addr_get_ret ip _ x a r Hx Ha)). rewrite (proj2 (Z.eqb_neq a 0)) by (unfold block_in in Hin; lia).
    split; [done|]. split; [apply same_blocks_refl|done].
  - destruct Hind as (ai & Hai & Hii); [unfold NDIRECT, BSIZE in *; lia|]. rewrite Hai in Ha. cbn [mbind option_bind] in Ha.
    destruct (read_block ai r Hidle) as (d & b & r1 & r2 & Hv & _ & E1 & E2 & E3 & S1 & S2 & Hid2); [unfold block_in in Hii; lia|].
    rewrite Hv in Ha. cbn [mbind option_bind] in Ha.
    assert (bn - NDIRECT < NINDIRECT) as Hni by (unfold MAXFILE, NDIRECT, NINDIRECT, BSIZE in *; lia). rewrite (proj2 (Z.ltb_lt _ _) Hni).
    rewrite (bind_ret _ _ _ _ _ (addr_get_ret ip _ x ai r Hx Hai)), (bind_ret _ _ _ _ _ (inode_get_ret ip x r Hx)).
    rewrite (proj2 (Z.eqb_neq ai 0)) by (unfold block_in in Hii; lia). rewrite (bind_ret _ _ _ ai (with_res s r)) by done. rewrite Hdev.
    rewrite (bind_ret _ _ _ _ _ E1), (bind_ret _ _ _ _ _ E2), (bind_ret _ _ _ a (with_res s r1)) by (unfold try_get; by rewrite Ha).
    rewrite (proj2 (Z.eqb_neq a 0)) by (unfold block_in in Hin; lia). rewrite (bind_ret _ _ _ a (with_res s r1)) by done.
    exists r2. by rewrite (bind_ret _ _ _ _ _ E3).
Qed.

(** *** Bytes of one block *)
Lemma file_bytes_app V x off m n l1 l2 : 0 ≤ m → 0 ≤ n → file_bytes V x off m = Some l1 → file_bytes V x (off + m) n = Some l2 →
  file_bytes V x off (m + n) = Some (l1 ++ l2).
Proof.
  intros Hm Hn H1 H2. unfold file_bytes in *. rewrite Z2Nat.inj_add, seq_app by done. apply mapM_Some. apply mapM_Some in H1, H2.
  apply Forall2_app; [done|]. replace (seq (0 + Z.to_nat m) _) with (Nat.add (Z.to_nat m) <$> seq 0 (Z.to_nat n)) by (rewrite fmap_add_seq; f_equal; lia).
  rewrite Forall2_fmap_l. eapply Forall2_impl; [exact H2|].
  intros i b Hb. cbn in *. rewrite <- Hb. f_equal. lia.
Qed.
Lemma file_bytes_block V x off m a d : 0 ≤ off → 0 ≤ m → off mod BSIZE + m ≤ BSIZE → file_block V x (off / BSIZE) = Some a →
  V a = Some d → length d = Z.to_nat BSIZE →
  file_bytes V x off m = get_bytes d (Z.to_nat (off mod BSIZE)) (Z.to_nat m).
Proof.
  intros Hoff Hm Hle Ha Hv Hlen. pose proof (Z.mod_pos_bound off BSIZE ltac:(done)) as Hmod. unfold get_bytes.
  rewrite bool_decide_eq_true_2 by (rewrite Hlen; unfold BSIZE in *; lia). unfold file_bytes. apply mapM_Some, Forall2_same_length_lookup_2.
  { rewrite length_seq, length_take, length_drop. unfold BSIZE in *. lia. }
  intros i j b Hj Hb. apply lookup_seq in Hj as [-> Hi]. rewrite lookup_take_lt, lookup_drop in Hb by lia.
  assert ((off + Z.of_nat (0 + i)) / BSIZE = off / BSIZE ∧ (off + Z.of_nat (0 + i)) mod BSIZE = off mod BSIZE + Z.of_nat i) as [E1 E2].
  { cbn [Nat.add]. unfold BSIZE in *. pose proof (Z.div_mod off 512 ltac:(lia)).
    assert (off + Z.of_nat i = 512 * (off / 512) + (off mod 512 + Z.of_nat i)) as E by lia.
    split; [symmetry; eapply Z.div_unique; [|exact E]; lia|symmetry; eapply Z.mod_unique; [|exact E]; lia]. }
  unfold file_byte. rewrite E1, E2, Ha. cbn [mbind option_bind]. rewrite Hv. cbn [mbind option_bind]. rewrite <- Hb. f_equal. lia.
Qed.
Lemma file_bytes_same r r' x off n : same_blocks r r' → file_bytes (view r') x off n = file_bytes (view r) x off n.
Proof.
  intros H. unfold file_bytes. apply mapM_ext. intros i. by apply file_byte_same.
Qed.

Lemma readi_loop_solo k : ∀ ip off n r x, idle (pid q) r → inodes r !! ip = Some x → mapped r x →
  0 ≤ off → 0 ≤ n → off + n ≤ i_size x → (Z.to_nat n ≤ k)%nat →
  ∃ l r', readi_loop k ip off n (with_res s r) = Ret l (with_res s r') ∧ file_bytes (view r) x off n = Some l ∧
    same_blocks r r' ∧ idle (pid q) r'.
Proof.
  induction k as [|k IH]; intros ip off n r x Hidle Hx Hmap Hoff Hn Hsz Hk; cbn [readi_loop].
  { assert (n = 0) as -> by lia. exists [], r. split_and!; [done|done|apply same_blocks_refl|done]. }
  destruct (Z.ltb_spec 0 n) as [Hpos|?]; [|assert (n = 0) as -> by lia; exists [], r; split_and!; [done|done|apply same_blocks_refl|done]].
  pose proof (Z.mod_pos_bound off BSIZE ltac:(done)) as Hmod. set (m := Z.min n (BSIZE - off mod BSIZE)).
  assert (0 < m ≤ n ∧ off mod BSIZE + m ≤ BSIZE) as [Hm Hmb] by (unfold m; lia).
  assert (0 ≤ off / BSIZE ∧ off / BSIZE * BSIZE < i_size x) as [Hb0 Hb1].
  { unfold BSIZE in *. pose proof (Z.div_mod off 512 ltac:(lia)). split; [apply Z.div_pos; lia|lia]. }
  rewrite (bind_ret _ _ _ _ _ (inode_get_ret ip x r Hx)). destruct (mp_blocks _ _ Hmap _ Hb0 Hb1) as (a & Ha & Hin).
  destruct (bmap_solo ip x _ a r Hidle Hx Hmap Hb0 Hb1 Ha) as (r1 & E1 & S1 & Hid1). rewrite (bind_ret _ _ _ _ _ E1), (mp_dev _ _ Hmap).
  destruct (read_block a r1 Hid1) as (d & b & r2 & r3 & Hv & Hd & E2 & E3 & E4 & S2 & S3 & Hid3);
    [rewrite (same_blocks_disk _ _ S1); unfold block_in in Hin; lia|].
  rewrite (bind_ret _ _ _ _ _ E2), (bind_ret _ _ _ _ _ E3). rewrite (sb_view _ _ S1) in Hv.
  pose proof (file_bytes_block (view r) x off m a d Hoff ltac:(lia) Hmb Ha Hv Hd) as Hblk. unfold get_bytes in Hblk.
  rewrite bool_decide_eq_true_2 in Hblk by (rewrite Hd; unfold BSIZE in *; lia). set (l1 := take _ _) in Hblk.
  rewrite (bind_ret _ _ _ l1 (with_res s r2)).
  2:{ unfold try_get, get_bytes. by rewrite bool_decide_eq_true_2 by (rewrite Hd; unfold BSIZE in *; lia). }
  pose proof (same_blocks_trans _ _ _ S1 S3) as S13. rewrite (bind_ret _ _ _ _ _ E4).
  destruct (IH ip (off + m) (n - m) r3 x) as (l2 & r4 & E5 & Hl2 & S4 & Hid4);
    [done|by rewrite (same_blocks_inodes _ _ S13)|by eapply mapped_same|lia..|].
  rewrite (file_bytes_same _ _ _ _ _ S13) in Hl2. exists (l1 ++ l2), r4. rewrite (bind_ret _ _ _ _ _ E5).
  split; [done|]. split; [|split; [by eapply same_blocks_trans|done]].
  replace n with (m + (n - m)) by lia. by apply file_bytes_app; [lia..| |].
Qed.

Lemma readi_solo ip x off n r : idle (pid q) r → inodes r !! ip = Some x → i_type x ≠ T_DEV → mapped r x →
  0 ≤ off < 2 ^ 32 → 0 ≤ n < 2 ^ 32 →
  (i_size x < off ∨ 2 ^ 32 ≤ off + n → readi ip off n (with_res s r) = Ret (-1, []) (with_res s r)) ∧
  (off ≤ i_size x → off + n < 2 ^ 32 → ∃ l r', let m := Z.min n (i_size x - off) in
     readi ip off n (with_res s r) = Ret (m, l) (with_res s r') ∧ file_bytes (view r) x off m = Some l ∧
     same_blocks r r' ∧ idle (pid q) r').
Proof.
  intros Hidle Hx Hty Hmap Hoff Hn. pose proof (mp_size _ _ Hmap) as Hsz. unfold readi.
  rewrite (bind_ret _ _ _ _ _ (inode_get_ret ip x r Hx)), (proj2 (Z.eqb_neq _ _) Hty). unfold u32. split.
  - intros Herr. assert ((i_size x <? off) || ((off + n) mod 2 ^ 32 <? off) = true) as ->; [|done].
    destruct Herr as [H|H]; [by rewrite (proj2 (Z.ltb_lt _ _) H)|]. apply orb_true_iff. right. apply Z.ltb_lt.
    replace (off + n) with (off + n - 2 ^ 32 + 1 * 2 ^ 32) by lia. rewrite Z.mod_add, Z.mod_small by lia. lia.
  - intros Hle Hov. rewrite Z.mod_small by lia. rewrite (proj2 (Z.ltb_ge (i_size x) off)), (proj2 (Z.ltb_ge (off + n) off)) by lia. cbn [orb].
    set (m := if i_size x <? off + n then i_size x - off else n).
    assert (m = Z.min n (i_size x - off)) as <- by (unfold m; destruct (Z.ltb_spec (i_size x) (off + n)); lia).
    assert (0 ≤ m ∧ off + m ≤ i_size x) as [Hm0 Hm1] by (unfold m; destruct (Z.ltb_spec (i_size x) (off + n)); lia). clearbody m.
    destruct (readi_loop_solo (Z.to_nat m) ip off m r x) as (l & r' & E & Hl & S & Hid); [done|done|done|lia..|].
    exists l, r'. cbn zeta. rewrite (bind_ret _ _ _ _ _ E). split_and!; [|done..]. unfold ret. do 2 f_equal.
    apply s32_small. assert (MAXFILE * BSIZE = 71680) by reflexivity. lia.
Qed.

(** [readi] on a file or directory returns the bytes of the file from [off]
    on, as many as were asked for or are left, as the cache and the disk
    together show them, and changes no block; it returns -1 when [off] lies
    beyond the end of the file or [off + n] wraps around. *)
Theorem readi_correct ip x off n r : idle (pid q) r → inodes r !! ip = Some x → i_type x ≠ T_DEV → mapped r x →
  0 ≤ off < 2 ^ 32 → 0 ≤ n < 2 ^ 32 →
  (i_size x < off ∨ 2 ^ 32 ≤ off + n → readi ip off n (with_res s r) = Ret (-1, []) (with_res s r)) ∧
  (off ≤ i_size x → off + n < 2 ^ 32 → ∃ l r', let m := Z.min n (i_size x - off) in
     readi ip off n (with_res s r) = Ret (m, l) (with_res s r') ∧ file_bytes (view r) x off m = Some l ∧
     same_blocks r r' ∧ idle (pid q) r').
Proof. intros. by apply readi_solo. Qed.
End reading.
