(* ===== verification/Txn.v ===== *)
(** * Blocks inside a transaction (fs.c with bio.c and log.c)

    File-system code works on blocks through [bread], a change of the buffer,
    [log_write] and [brelse].  [txn] is the state of a process inside a
    transaction that holds the buffers [h]; [V] is what the blocks read as.
    Each of the four steps is described by what it does to [V], to the held
    buffers and to the list of recorded blocks. *)

From S2P Require Import Prelude Machine Spinlock CString ProcTable Proc Lifecycle Ready Aging.
From S2P Require Import ProcLemmas Scheduler Reach Blocking Kstate Sleeplock Solo.
From S2P Require Import Devices Disk Bio Cache Layout Log Crash Transaction Inode Console Fs Content.

(** What blocks read as. *)
Definition blocks : Type := Z → option (list Z).
Definition put_block (V : blocks) (n : Z) (d : list Z) : blocks := fun m => if decide (m = n) then Some d else V m.

Lemma put_block_eq V n d : put_block V n d n = Some d.
Proof. unfold put_block. by rewrite decide_True. Qed.
Lemma put_block_ne V n d m : m ≠ n → put_block V n d m = V m.
Proof. intros. unfold put_block. by rewrite decide_False. Qed.

(** Buffer [b] is held and has the data [d] for block [n]. *)
Definition held_buf (r : kres) (b : nat) (n : Z) (d : list Z) : Prop := ∃ x, bufs r !! b = Some x ∧ blockno x = n ∧ bdata x = d.
(** It may be given back: it agrees with the disk or is in the log. *)
Definition clean_buf (r : kres) (b : nat) : Prop := ∃ x, bufs r !! b = Some x ∧ clean (memdisk r) x.

(** The held buffers stay as they are. *)
Definition kept (h : list nat) (r r' : kres) : Prop :=
  ∀ e x, e ∈ h → bufs r !! e = Some x → ∃ y, bufs r' !! e = Some y ∧ same_but_links x y.
(** Nothing but the cache and the log in memory changes. *)
Definition cache_only (r r' : kres) : Prop := r' = r <| bufs := bufs r' |> <| slocks := slocks r' |> <| log := log r' |>.

Lemma same_but_links_refl x : same_but_links x x.
Proof. unfold same_but_links. by destruct x. Qed.
Lemma same_but_links_trans x y z : same_but_links x y → same_but_links y z → same_but_links x z.
Proof. intros -> ->. by destruct x. Qed.
Lemma kept_refl h r : kept h r r.
Proof. intros e x _ Hx. exists x. split; [done|apply same_but_links_refl]. Qed.
Lemma kept_trans h r1 r2 r3 : kept h r1 r2 → kept h r2 r3 → kept h r1 r3.
Proof.
  intros H1 H2 e x He Hx. destruct (H1 e x He Hx) as (y & Hy & Hxy). destruct (H2 e y He Hy) as (z & Hz & Hyz).
  exists z. split; [done|]. by eapply same_but_links_trans.
Qed.
Lemma kept_mono h h' r r' : (∀ e, e ∈ h' → e ∈ h) → kept h r r' → kept h' r r'.
Proof. intros Hs H e x He. apply H. auto. Qed.
Lemma cache_only_refl r : cache_only r r.
Proof. unfold cache_only. by destruct r. Qed.
Lemma cache_only_trans r1 r2 r3 : cache_only r1 r2 → cache_only r2 r3 → cache_only r1 r3.
Proof. unfold cache_only. intros -> ->. by destruct r1. Qed.
Lemma cache_only_disk r r' : cache_only r r' → memdisk r' = memdisk r.
Proof. unfold cache_only. intros ->. by destruct r. Qed.
Lemma cache_only_inodes r r' : cache_only r r' → inodes r' = inodes r.
Proof. unfold cache_only. intros ->. by destruct r. Qed.
Lemma cache_only_sb r r' : cache_only r r' → sb r' = sb r.
Proof. unfold cache_only. intros ->. by destruct r. Qed.
Lemma kept_held h r r' e n d : kept h r r' → e ∈ h → held_buf r e n d → held_buf r' e n d.
Proof.
  intros Hk He (x & Hx & <- & <-). destruct (Hk e x He Hx) as (y & Hy & Hxy). exists y. split; [done|].
  apply same_fields in Hxy as (_ & _ & ? & _ & ?). done.
Qed.
Lemma kept_clean h r r' e : cache_only r r' → kept h r r' → e ∈ h → clean_buf r e → clean_buf r' e.
Proof.
  intros Hc Hk He (x & Hx & Hcl). destruct (Hk e x He Hx) as (y & Hy & Hxy). exists y. split; [done|].
  apply same_fields in Hxy as (H1 & H2 & H3 & _ & H5). unfold clean in *. by rewrite (cache_only_disk _ _ Hc), <- H1, <- H2, <- H3, <- H5.
Qed.
#[export] Hint Resolve kept_refl cache_only_refl : xv6.

Section txn.
Context {FU : Fuel} {DK : Disk} (Hdisk : in_memory DK).
Context {s : kstate} {c p : nat} {u : cpu} {q : proc} (Hsolo : solo s c p u q).
Context (ls nlog : Z).

Record txn (h : list nat) (r : kres) (bl : list Z) (V : blocks) : Prop := {
  tn_tx : ∃ l, transaction (pid q) r l h ls nlog bl;
  tn_out : 1 ≤ outstanding (log r);
  tn_view : ∀ n, 0 ≤ n → view r n = V n }.

(** [k] more blocks may be recorded. *)
Definition room (bl : list Z) (k : Z) : Prop := Z.of_nat (length bl) + k ≤ nlog - 1.

Lemma room_less bl k k' : room bl k → k' ≤ k → room bl k'.
Proof. unfold room. lia. Qed.
Lemma room_record bl n k : room bl (k + 1) → room (record bl n) k.
Proof. unfold room, record. case_decide; [lia|]. rewrite length_app. cbn. lia. Qed.

Definition inside_home (r : kres) (n : Z) : Prop := home (length (memdisk r)) ls nlog n.
Definition not_held (h : list nat) (r : kres) (n : Z) : Prop := ∀ e x, e ∈ h → bufs r !! e = Some x → blockno x ≠ n.

(** The step made it from [r] to [r']. *)
Record step (h : list nat) (r r' : kres) : Prop := { st_kept : kept h r r'; st_only : cache_only r r' }.
Lemma step_refl h r : step h r r.
Proof. split; auto with xv6. Qed.
Lemma step_trans h r1 r2 r3 : step h r1 r2 → step h r2 r3 → step h r1 r3.
Proof. intros [] []. split; [by eapply kept_trans|by eapply cache_only_trans]. Qed.
Lemma step_mono h h' r r' : (∀ e, e ∈ h' → e ∈ h) → step h r r' → step h' r r'.
Proof. intros Hs []. split; [by eapply kept_mono|done]. Qed.

Lemma txn_bread h r bl V n : txn h r bl V → 0 ≤ n < Z.of_nat (length (memdisk r)) → not_held h r n → (length bl + length h < NBUF)%nat →
  ∃ b d r1, bread 1 n (with_res s r) = Ret b (with_res s r1) ∧ txn (b :: h) r1 bl V ∧ V n = Some d ∧
    length d = Z.to_nat BSIZE ∧ held_buf r1 b n d ∧ clean_buf r1 b ∧ b ∉ h ∧ step h r r1.
Proof.
  intros [[l Htx] Hout Hv] Hn Hnh Hlen. pose proof Htx as [Hok T2 T3 T4 T5 T6 T7 T8 T9].
  assert (available r) as Hav by (eapply available_count; [exact Hok|exact T8|lia]).
  destruct (bread_solo Hdisk Hsolo Hok n) as (b & r1 & E1 & [B1 B2 B3 B4 B5 B6 B7 B8]);
    [intros e x He (_ & Hx & _ & Hbn); by apply (Hnh e x He Hx)|done|by left|].
  destruct B3 as (x & (Hb & Hx & Hd1 & Hbn) & Hvx & Hcl). pose proof (cache_bufs _ _ _ _ B1 b x Hb Hx) as [Hlx _ _].
  assert (cache_only r r1) as Hco by (unfold cache_only; rewrite B6; by destruct r).
  assert (log r1 = log r ∧ memdisk r1 = memdisk r) as [Hlog Hmd] by (rewrite B6; by destruct r).
  exists b, (bdata x), r1. split; [done|]. split.
  { split; [|by rewrite Hlog|intros m Hm; by rewrite B4, Hv]. exists l. split; rewrite ?Hlog, ?Hmd; try done.
    - intros m Hm. by apply T8, B5.
    - intros m Hm. by apply B5, T9. }
  split_and!; [by rewrite <- Hv by lia|done|by exists x|exists x; by rewrite Hmd|done|]. split; [|done].
  intros e y He Hy. exists y. rewrite B7; [split; [done|apply same_but_links_refl]|]. intros ->. done.
Qed.

Lemma txn_set h r bl V b n d f d' : txn (b :: h) r bl V → held_buf r b n d → b ∉ h → f d = Some d' → length d' = Z.to_nat BSIZE →
  ∃ r1, set_data b f (with_res s r) = Ret tt (with_res s r1) ∧ txn (b :: h) r1 bl (put_block V n d') ∧ held_buf r1 b n d' ∧ step h r r1.
Proof.
  intros [[l Htx] Hout Hv] (x & Hx & <- & <-) Hnin Hf Hlen. pose proof Htx as [Hok T2 T3 T4 T5 T6 T7 T8 T9].
  destruct (set_data_ok d' Hok ltac:(by left) Hx Hlen) as (Hok1 & Hv1 & Hd1). set (r1 := with_buf b (x <| bdata := d' |>) r) in *.
  exists r1. split; [by apply set_data_solo|]. split; [|split].
  - split; [|done|intros m Hm; rewrite Hv1 by done; unfold put_block; case_decide; [done|by apply Hv]].
    exists l. split; try done; [intros m Hm; by apply T8, Hd1|intros m Hm; by apply Hd1, T9].
  - exists (x <| bdata := d' |>). split; [|done]. apply lookup_with_buf. eauto.
  - split; [|done]. intros e y He Hy. exists y. split; [|apply same_but_links_refl]. unfold r1. rewrite lookup_with_buf_ne; [done|]. congruence.
Qed.

Lemma txn_log_write h r bl V b n d : txn (b :: h) r bl V → held_buf r b n d → b ∉ h → inside_home r n → room bl 1 →
  ∃ r1, log_write b (with_res s r) = Ret tt (with_res s r1) ∧ txn (b :: h) r1 (record bl n) V ∧ held_buf r1 b n d ∧
    clean_buf r1 b ∧ step h r r1.
Proof.
  intros [[l Htx] Hout Hv] (x & Hx & <- & <-) Hnin Hhome Hroom. unfold room in Hroom.
  destruct (log_write_tx Hsolo Htx ltac:(by left) Hx Hhome) as (r1 & E & Ht & Hv1 & Hb & Ho & Hf); [lia|done|].
  exists r1. split; [done|]. assert (bufs r1 !! b = Some (x <| bflags := B_BOTH |>)) as Hx1.
  { rewrite Hb. apply list_lookup_insert_eq. by eapply lookup_lt_Some. }
  split_and!.
  - split; [by exists l|by rewrite Ho|intros m Hm; by rewrite Hv1, Hv].
  - by eexists.
  - eexists. split; [exact Hx1|]. intros _ Hfl. done.
  - split.
    + intros e y He Hy. exists y. rewrite Hb, list_lookup_insert_ne by congruence. split; [done|apply same_but_links_refl].
    + unfold cache_only. rewrite Hf. by destruct r.
Qed.

Lemma txn_brelse h r bl V b n d : txn (b :: h) r bl V → held_buf r b n d → clean_buf r b → b ∉ h →
  ∃ r1, brelse b (with_res s r) = Ret tt (with_res s r1) ∧ txn h r1 bl V ∧ step h r r1.
Proof.
  intros [[l Htx] Hout Hv] (x & Hx & _) (x' & Hx' & Hcl) Hnin. rewrite Hx in Hx'. injection Hx' as <-.
  pose proof Htx as [Hok T2 T3 T4 T5 T6 T7 T8 T9].
  destruct (brelse_solo Hsolo h b x Hok ltac:(by left) Hx Hcl) as (r1 & l1 & E & [L1 L2 L3 L4 L5 L6 L7]).
  { intros e. rewrite elem_of_cons. split; [intros He; split; [by right|congruence]|tauto]. }
  assert (log r1 = log r ∧ memdisk r1 = memdisk r) as [Hlog Hmd] by (rewrite L5; by destruct r).
  exists r1. split; [done|]. split.
  - split; [|by rewrite Hlog|intros m Hm; by rewrite L3, Hv]. exists l1. split; rewrite ?Hlog, ?Hmd; try done.
    + intros m Hm. by apply T8, L4.
    + intros m Hm. by apply L4, T9.
  - split; [|unfold cache_only; rewrite L5; by destruct r]. intros e y He Hy. apply L6; [congruence|done].
Qed.

Lemma not_held_step h r r' n : step h r r' → (∀ e, e ∈ h → is_Some (bufs r !! e)) → not_held h r n → not_held h r' n.
Proof.
  intros [Hk _] Hs Hn e y He Hy. destruct (Hs e He) as [x Hx]. destruct (Hk e x He Hx) as (y' & Hy' & Hxy). simplify_eq.
  apply same_fields in Hxy as (_ & _ & <- & _). by apply (Hn e x).
Qed.
Lemma txn_held_some h r bl V e : txn h r bl V → e ∈ h → is_Some (bufs r !! e).
Proof. intros [[l Htx] _ _] He. destruct (cache_mine _ _ _ _ (tx_cache _ _ _ _ _ _ _ Htx) e He) as (_ & x & Hx & _). eauto. Qed.
Lemma held_some r b n d : held_buf r b n d → bufs r !! b ≠ None.
Proof. by intros (x & -> & _). Qed.
Lemma inside_range r n : inside_home r n → 0 ≤ n < Z.of_nat (length (memdisk r)).
Proof. by intros [? _]. Qed.
Lemma home_step h r r' n : step h r r' → inside_home r n → inside_home r' n.
Proof. intros [_ Hc]. unfold inside_home. by rewrite (cache_only_disk _ _ Hc). Qed.
Lemma room_bufs (bl : list Z) (h : list nat) k : 1 ≤ k → nlog ≤ LOGSIZE → room bl k → (length h ≤ 1)%nat → (length bl + length h < NBUF)%nat.
Proof. unfold room, LOGSIZE, MAXOPBLOCKS, NBUF. lia. Qed.
Lemma txn_nlog h r bl V : txn h r bl V → nlog ≤ LOGSIZE.
Proof. intros [[l [_ _ _ _ ? _ _ _ _]] _ _]. lia. Qed.

(** [bp = bread(n); ... bp->data ...; brelse(bp)] *)
Lemma txn_look h r bl V n : txn h r bl V → 0 ≤ n < Z.of_nat (length (memdisk r)) → not_held h r n → (length bl + length h < NBUF)%nat →
  ∃ b d r1 r2, bread 1 n (with_res s r) = Ret b (with_res s r1) ∧ buf_data b (with_res s r1) = Ret d (with_res s r1) ∧
    brelse b (with_res s r1) = Ret tt (with_res s r2) ∧ V n = Some d ∧ length d = Z.to_nat BSIZE ∧
    txn h r2 bl V ∧ step h r r1 ∧ step h r r2.
Proof.
  intros Htx Hn Hnh Hlen. destruct (txn_bread h r bl V n Htx Hn Hnh Hlen) as (b & d & r1 & E1 & T1 & Hv & Hd & Hb & Hc & Hnin & S1).
  destruct (txn_brelse h r1 bl V b n d T1 Hb Hc Hnin) as (r2 & E2 & T2 & S2). exists b, d, r1, r2.
  split_and!; [done| |done..|by eapply step_trans]. destruct Hb as (x & Hx & _ & <-). by apply buf_data_ret.
Qed.

(** [bp = bread(n); change bp->data; log_write(bp); brelse(bp)] *)
Lemma txn_update h r bl V n f : txn h r bl V → inside_home r n → not_held h r n → (length h ≤ 1)%nat → room bl 1 →
  (∀ d, V n = Some d → length d = Z.to_nat BSIZE → ∃ d', f d = Some d' ∧ length d' = Z.to_nat BSIZE) →
  ∃ b d d' r1 r2 r3 r4, bread 1 n (with_res s r) = Ret b (with_res s r1) ∧ buf_data b (with_res s r1) = Ret d (with_res s r1) ∧
    set_data b f (with_res s r1) = Ret tt (with_res s r2) ∧ log_write b (with_res s r2) = Ret tt (with_res s r3) ∧
    brelse b (with_res s r3) = Ret tt (with_res s r4) ∧ V n = Some d ∧ length d = Z.to_nat BSIZE ∧ f d = Some d' ∧
    txn h r4 (record bl n) (put_block V n d') ∧ step h r r1 ∧ step h r r4.
Proof.
  intros Htx Hhome Hnh Hh Hroom Hf.
  assert (length bl + length h < NBUF)%nat as Hlen by (eapply room_bufs; [|eapply txn_nlog; exact Htx|exact Hroom|done]; lia).
  destruct (txn_bread h r bl V n Htx (inside_range _ _ Hhome) Hnh Hlen) as (b & d & r1 & E1 & T1 & Hv & Hd & Hb1 & _ & Hnin & S1).
  destruct (Hf d Hv Hd) as (d' & Hfd & Hd'). destruct (txn_set h r1 bl V b n d f d' T1 Hb1 Hnin Hfd Hd') as (r2 & E2 & T2 & Hb2 & S2).
  pose proof (home_step _ _ _ _ (step_trans _ _ _ _ S1 S2) Hhome) as Hhome2.
  destruct (txn_log_write h r2 bl _ b n d' T2 Hb2 Hnin Hhome2 Hroom) as (r3 & E3 & T3 & Hb3 & Hc3 & S3).
  destruct (txn_brelse h r3 _ _ b n d' T3 Hb3 Hc3 Hnin) as (r4 & E4 & T4 & S4). exists b, d, d', r1, r2, r3, r4.
  split_and!; try done.
  - destruct Hb1 as (x & Hx & _ & <-). by apply buf_data_ret.
  - eapply step_trans; [exact S1|]. eapply step_trans; [exact S2|]. by eapply step_trans.
Qed.
End txn.
