(* ===== verification/Alloc.v ===== *)
(** * Block allocation (fs.c: balloc, bzero, bfree)

    Inside a transaction, [balloc] finds the first block whose bit in the
    bitmap is clear, sets the bit and fills the block with zeros. *)

From S2P Require Import Prelude Machine Spinlock CString ProcTable Proc Lifecycle Ready Aging.
From S2P Require Import ProcLemmas Scheduler Reach Blocking Kstate Sleeplock Solo.
From S2P Require Import Devices Disk Bio Cache Layout Log Crash Transaction Inode Console Fs Content Txn.

(** ** Bits of a block *)

Lemma land_bit x i : 0 ≤ i → negb (Z.land x (Z.shiftl 1 i) =? 0) = Z.testbit x i.
Proof.
  intros Hi. rewrite Z.shiftl_1_l. destruct (Z.testbit x i) eqn:Hb.
  - apply negb_true_iff, Z.eqb_neq. intros E. apply (f_equal (fun z => Z.testbit z i)) in E.
    rewrite Z.land_spec, Hb, Z.pow2_bits_true, Z.bits_0 in E by done. done.
  - apply negb_false_iff, Z.eqb_eq. apply Z.bits_inj'. intros j Hj. rewrite Z.land_spec, Z.bits_0, Z.pow2_bits_eqb by done.
    destruct (Z.eqb_spec i j) as [->|]; [by rewrite Hb|by rewrite andb_false_r].
Qed.
Lemma bit_testbit d k : bit d k = (fun x => Z.testbit x (k mod 8)) <$> d !! Z.to_nat (k / 8).
Proof.
  unfold bit. destruct (d !! _) as [x|]; [|done]. cbn. f_equal. apply land_bit. apply Z.mod_pos_bound. lia.
Qed.
Lemma bit_Some d k : 0 ≤ k → k < 8 * Z.of_nat (length d) → is_Some (bit d k).
Proof.
  intros H0 Hk. rewrite bit_testbit. destruct (lookup_lt_is_Some_2 d (Z.to_nat (k / 8))) as [x Hx]; [|rewrite Hx; by eexists].
  apply Nat2Z.inj_lt. rewrite Z2Nat.id by (apply Z.div_pos; lia). apply Z.div_lt_upper_bound; lia.
Qed.
Lemma testbit_u8 x i : 0 ≤ i < 8 → Z.testbit (u8 x) i = Z.testbit x i.
Proof. intros Hi. unfold u8. apply Z.mod_pow2_bits_low. lia. Qed.
Lemma bit_index j k : 0 ≤ j → 0 ≤ k → Z.to_nat (j / 8) = Z.to_nat (k / 8) → j mod 8 = k mod 8 → j = k.
Proof.
  intros Hj Hk E1 E2. apply Z2Nat.inj in E1; [|apply Z.div_pos; lia..]. rewrite (Z.div_mod j 8), (Z.div_mod k 8) by lia. congruence.
Qed.

Lemma set_bit_spec d k d' : 0 ≤ k → set_bit d k = Some d' →
  length d' = length d ∧ ∀ j, 0 ≤ j → bit d' j = if decide (j = k) then Some true else bit d j.
Proof.
  unfold set_bit. intros Hk. destruct (d !! Z.to_nat (k / 8)) as [x|] eqn:Hx; [|done]. cbn. intros [= <-].
  split; [by rewrite length_insert|]. intros j Hj. pose proof (Z.mod_pos_bound j 8 ltac:(lia)) as Hj8. pose proof (Z.mod_pos_bound k 8 ltac:(lia)) as Hk8.
  rewrite !bit_testbit. destruct (decide (Z.to_nat (j / 8) = Z.to_nat (k / 8))) as [E|E].
  - rewrite E, list_lookup_insert_eq, Hx by (by eapply lookup_lt_Some). cbn.
    rewrite testbit_u8, Z.lor_spec, Z.shiftl_1_l, Z.pow2_bits_eqb by lia. case_decide as Ejk.
    + subst. by rewrite Z.eqb_refl, orb_true_r.
    + rewrite (proj2 (Z.eqb_neq _ _)), orb_false_r; [done|]. intros Em. apply Ejk. by apply bit_index.
  - rewrite list_lookup_insert_ne by done. case_decide; [congruence|done].
Qed.
Lemma set_bit_Some d k : 0 ≤ k → k < 8 * Z.of_nat (length d) → ∃ d', set_bit d k = Some d'.
Proof.
  intros H0 Hk. destruct (bit_Some d k H0 Hk) as [m Hm]. rewrite bit_testbit in Hm. unfold set_bit.
  destruct (d !! Z.to_nat (k / 8)); [|done]. cbn. eauto.
Qed.

(** The inner loop of [balloc]. *)
Lemma find_clear_spec d b size n : ∀ bi, 0 ≤ bi → bi + Z.of_nat n ≤ 8 * Z.of_nat (length d) →
  (∃ k, find_clear d b size bi n = Some (Some k) ∧ bi ≤ k < bi + Z.of_nat n ∧ b + k < size ∧ bit d k = Some false ∧
     ∀ j, bi ≤ j < k → bit d j = Some true) ∨
  (find_clear d b size bi n = Some None ∧ ∀ j, bi ≤ j < bi + Z.of_nat n → b + j < size → bit d j = Some true).
Proof.
  induction n as [|n IH]; intros bi H0 Hle; cbn [find_clear]; [right; split; [done|lia]|].
  destruct (Z.ltb_spec (b + bi) size) as [Hlt|Hge]; [|right; split; [done|lia]].
  destruct (bit_Some d bi) as [m Hm]; [lia..|]. rewrite Hm. cbn [mbind option_bind]. destruct m.
  - destruct (IH (bi + 1)) as [(k & E & Hk & Hs & Hb & Hall)|[E Hall]]; [lia..| |].
    + left. exists k. split_and!; [done|lia|lia|done|done|]. intros j Hj. destruct (decide (j = bi)) as [->|]; [done|]. apply Hall. lia.
    + right. split; [done|]. intros j Hj Hs. destruct (decide (j = bi)) as [->|]; [done|]. apply Hall; lia.
  - left. exists bi. split_and!; [done|lia|lia|done|done|]. lia.
Qed.

(** ** The bitmap *)

(** The bit of block [b]. *)
Definition used (V : blocks) (x : superblock) (b : Z) : option bool := d ← V (BBLOCK b x); bit d (b mod BPB).

Definition zeros : list Z := replicate (Z.to_nat BSIZE) 0.

Section balloc.
Context {FU : Fuel} {DK : Disk} (Hdisk : in_memory DK).
Context {s : kstate} {c p : nat} {u : cpu} {q : proc} (Hsolo : solo s c p u q).
Context (ls nlog : Z) (x : superblock).

(** The file system's size and bitmap; a free block is a data block. *)
Record bitmap_ok (h : list nat) (r : kres) (V : blocks) : Prop := {
  bm_sb : sb r = x;
  bm_size : 0 < sb_size x ≤ Z.of_nat (length (memdisk r)) ∧ sb_size x < 2 ^ 31;
  bm_start : 0 ≤ sb_bmapstart x ∧ sb_bmapstart x + sb_size x / BPB < sb_size x;
  bm_home : ∀ b, 0 ≤ b < sb_size x → inside_home ls nlog r (BBLOCK b x);
  bm_free : ∀ b, 0 ≤ b < sb_size x → used V x b = Some false → inside_home ls nlog r b ∧ ∀ b', 0 ≤ b' < sb_size x → b ≠ BBLOCK b' x;
  bm_inode : ∀ b, 0 ≤ b < sb_size x → used V x b = Some false → b ≠ 0 ∧ ∀ i, 0 ≤ i < sb_ninodes x → b ≠ IBLOCK i x;
  bm_held : ∀ b, 0 ≤ b < sb_size x → not_held h r (BBLOCK b x) ∧ (used V x b = Some false → not_held h r b) }.

Lemma BBLOCK_eq b : 0 ≤ sb_bmapstart x → sb_bmapstart x + sb_size x / BPB < 2 ^ 31 → 0 ≤ b < sb_size x → BBLOCK b x = b / BPB + sb_bmapstart x.
Proof.
  intros H0 Hs Hb. unfold BBLOCK, u32. apply Z.mod_small. assert (0 ≤ b / BPB) by (apply Z.div_pos; [lia|done]).
  assert (b / BPB ≤ sb_size x / BPB) by (apply Z.div_le_mono; [done|lia]). lia.
Qed.

(** [bzero] of a free block. *)
Lemma bzero_solo h r bl V n : txn (q := q) ls nlog h r bl V → inside_home ls nlog r n → not_held h r n → (length h ≤ 1)%nat → room nlog bl 1 →
  n < 2 ^ 32 →
  ∃ r', bzero 1 n (with_res s r) = Ret tt (with_res s r') ∧ txn (q := q) ls nlog h r' (record bl n) (put_block V n zeros) ∧ step h r r'.
Proof.
  intros Htx Hhome Hnh Hh Hroom Hn. pose proof (inside_range _ _ _ _ Hhome) as [Hn0 _].
  destruct (txn_update Hdisk Hsolo ls nlog h r bl V n (fun d => Some (replicate (length d) 0)) Htx Hhome Hnh Hh Hroom)
    as (b & d & d' & r1 & r2 & r3 & r4 & E1 & _ & E3 & E4 & E5 & _ & Hd & [= <-] & T & _ & S4).
  { intros d _ Hd. eexists. split; [reflexivity|]. by rewrite length_replicate. }
  rewrite Hd in T. exists r4. unfold bzero. replace (u32 1) with 1 by done. replace (u32 n) with n by (unfold u32; rewrite Z.mod_small; lia).
  by rewrite (bind_ret _ _ _ _ _ E1), (bind_ret _ _ _ _ _ E3), (bind_ret _ _ _ _ _ E4).
Qed.

(** The block [k] is taken. *)
Definition taken (V : blocks) (k : Z) (d' : list Z) : blocks := put_block (put_block V (BBLOCK k x) d') k zeros.

Lemma used_taken V k d d' : 0 ≤ k → V (BBLOCK k x) = Some d → set_bit d (k mod BPB) = Some d' → (∀ b, 0 ≤ b < sb_size x → k ≠ BBLOCK b x) →
  0 ≤ k < sb_size x → (∀ b, 0 ≤ b < sb_size x → BBLOCK b x = b / BPB + sb_bmapstart x) →
  ∀ b, 0 ≤ b < sb_size x → used (taken V k d') x b = if decide (b = k) then Some true else used V x b.
Proof.
  intros Hk0 Hd Hset Hne Hk Hbb b Hb. unfold used, taken. rewrite put_block_ne by (specialize (Hne b Hb); congruence).
  destruct (set_bit_spec d (k mod BPB) d') as [_ Hbits]; [apply Z.mod_pos_bound; done|done|].
  assert (0 ≤ b mod BPB) by (apply Z.mod_pos_bound; done). unfold put_block. case_decide as E.
  - cbn [mbind option_bind]. rewrite Hbits by done. rewrite !Hbb in E by done.
    assert (b / BPB = k / BPB) as E' by lia. case_decide as Em; case_decide as Ek; [done| |by subst|].
    + destruct Ek. rewrite (Z.div_mod b BPB), (Z.div_mod k BPB) by done. congruence.
    + rewrite Hbb, E', <- Hbb by done. by rewrite Hd.
  - case_decide; [by subst|done].
Qed.

Lemma bitmap_step h r r' bl V : txn (q := q) ls nlog h r bl V → step h r r' → bitmap_ok h r V → bitmap_ok h r' V.
Proof.
  intros Htx S [B1 B2 B3 B4 B5 B7 B6]. pose proof (st_only _ _ _ S) as Hc. split; [by rewrite (cache_only_sb _ _ Hc)|by rewrite (cache_only_disk _ _ Hc)|done| | |done|].
  - intros b Hb. by eapply home_step, B4.
  - intros b Hb Hu. destruct (B5 b Hb Hu). split; [by eapply home_step|done].
  - intros b Hb. destruct (B6 b Hb) as [H1 H2].
    split; [|intros Hu]; (eapply not_held_step; [exact S|intros e He; eapply txn_held_some; [exact Htx|done]|auto]).
Qed.

Lemma bit_of_block b i : 0 ≤ i < BPB → (b * BPB + i) mod BPB = i ∧ (b * BPB + i) / BPB = b.
Proof. intros Hi. rewrite Z.add_comm, Z.mod_add, Z.div_add, Z.mod_small, Z.div_small by (done || lia). lia. Qed.

(** The blocks that share the bitmap block of [i * BPB]. *)
Lemma used_block h r V i d j : bitmap_ok h r V → 0 ≤ i → V (BBLOCK (i * BPB) x) = Some d → 0 ≤ j < BPB → i * BPB + j < sb_size x →
  used V x (i * BPB + j) = bit d j ∧ BBLOCK (i * BPB + j) x = BBLOCK (i * BPB) x.
Proof.
  intros [_ [Hs1 Hs2] [Hb1 Hb2] _ _ _ _] Hi Hd Hj Hlt. unfold used. destruct (bit_of_block i j Hj) as [E1 E2].
  assert (BBLOCK (i * BPB + j) x = BBLOCK (i * BPB) x) as E.
  { unfold BBLOCK. by rewrite E2, Z.div_mul. }
  by rewrite E, Hd, E1.
Qed.

Definition balloc_found (h : list nat) (r : kres) (bl : list Z) (V : blocks) (k : Z) (r' : kres) : Prop :=
  0 ≤ k < sb_size x ∧ used V x k = Some false ∧ (∀ j, 0 ≤ j < k → used V x j = Some true) ∧
  ∃ d d', V (BBLOCK k x) = Some d ∧ set_bit d (k mod BPB) = Some d' ∧
    txn (q := q) ls nlog h r' (record (record bl (BBLOCK k x)) k) (taken V k d') ∧ step h r r'.

(** The end of [balloc], once the bit is found. *)
Lemma balloc_tail h r bl V i k d : txn (q := q) ls nlog h r bl V → bitmap_ok h r V → room nlog bl 2 → (length h ≤ 1)%nat → 0 ≤ i →
  V (BBLOCK (i * BPB) x) = Some d → length d = Z.to_nat BSIZE → 0 ≤ k < BPB → i * BPB + k < sb_size x → bit d k = Some false →
  ∃ b r1 r2 r3 r4 r5, bread 1 (BBLOCK (i * BPB) x) (with_res s r) = Ret b (with_res s r1) ∧
    set_data b (fun d => set_bit d k) (with_res s r1) = Ret tt (with_res s r2) ∧ log_write b (with_res s r2) = Ret tt (with_res s r3) ∧
    brelse b (with_res s r3) = Ret tt (with_res s r4) ∧ bzero 1 (i * BPB + k) (with_res s r4) = Ret tt (with_res s r5) ∧
    ∃ d1 d', V (BBLOCK (i * BPB + k) x) = Some d1 ∧ set_bit d1 ((i * BPB + k) mod BPB) = Some d' ∧
      txn (q := q) ls nlog h r5 (record (record bl (BBLOCK (i * BPB + k) x)) (i * BPB + k)) (taken V (i * BPB + k) d') ∧ step h r r5.
Proof.
  intros Htx Hbm Hroom Hh Hi Hv Hd Hk Hks Hclear. assert (0 ≤ i * BPB) as Hi0 by (unfold BPB, BSIZE; lia).
  assert (0 ≤ i * BPB < sb_size x) as Hb by lia. pose proof (bm_home _ _ _ Hbm _ Hb) as Hhome. destruct (bm_held _ _ _ Hbm _ Hb) as [Hnh _].
  destruct (used_block _ _ _ i d k Hbm Hi Hv Hk Hks) as [Hu EB]. rewrite Hclear in Hu. destruct (bit_of_block i k Hk) as [Em _].
  assert (0 ≤ i * BPB + k < sb_size x) as Hr by lia. destruct (bm_free _ _ _ Hbm _ Hr Hu) as [Hfh Hfm].
  destruct (bm_held _ _ _ Hbm _ Hr) as [_ Hfn]. specialize (Hfn Hu).
  destruct (txn_update Hdisk Hsolo ls nlog h r bl V _ (fun d => set_bit d k) Htx Hhome Hnh Hh)
    as (b & d1 & d' & r1 & r2 & r3 & r4 & E1 & _ & E3 & E4 & E5 & Hv1 & _ & Hset & T4 & _ & S4).
  { eapply room_less; [exact Hroom|lia]. }
  { intros d0 _ Hd0. destruct (set_bit_Some d0 k) as [d' Hs]; [lia|rewrite Hd0; unfold BPB, BSIZE in *; lia|].
    exists d'. split; [done|]. apply set_bit_spec in Hs as [-> _]; [done|lia]. }
  rewrite Hv in Hv1. injection Hv1 as <-.
  destruct (bzero_solo h r4 (record bl (BBLOCK (i * BPB) x)) _ (i * BPB + k) T4) as (r5 & E6 & T5 & S5).
  - by eapply home_step.
  - eapply not_held_step; [exact S4|intros e He; by eapply txn_held_some|done].
  - done.
  - apply room_record. eapply room_less; [exact Hroom|lia].
  - pose proof (bm_size _ _ _ Hbm). lia.
  - exists b, r1, r2, r3, r4, r5. split_and!; try done. exists d, d'. unfold taken. rewrite EB, Em. split_and!; try done. by eapply step_trans.
Qed.

Lemma balloc_loop_solo h bl V n : ∀ i r, txn (q := q) ls nlog h r bl V → bitmap_ok h r V → room nlog bl 2 → (length h ≤ 1)%nat →
  0 ≤ i → (∀ j, 0 ≤ j < i * BPB → j < sb_size x → used V x j = Some true) → sb_size x ≤ (i + Z.of_nat n) * BPB →
  (∃ k r', balloc_loop n 1 (i * BPB) (with_res s r) = Ret k (with_res s r') ∧ balloc_found h r bl V k r') ∨
  (balloc_loop n 1 (i * BPB) (with_res s r) = Panic "balloc: out of blocks" ∧ ∀ j, 0 ≤ j < sb_size x → used V x j = Some true).
Proof.
  induction n as [|n IH]; intros i r Htx Hbm Hroom Hh Hi Hlow Hfuel; cbn [balloc_loop];
    rewrite (bind_ret _ _ _ x (with_res s r)) by (unfold rget, gets; cbn; by rewrite (bm_sb _ _ _ Hbm));
    (destruct (Z.ltb_spec (i * BPB) (sb_size x)) as [Hlt|Hge]; [|right; split; [done|intros j Hj; apply Hlow; lia]]); [lia|].
  assert (0 ≤ i * BPB < sb_size x) as Hb by (unfold BPB, BSIZE in *; lia).
  pose proof (bm_home _ _ _ Hbm _ Hb) as Hhome. destruct (bm_held _ _ _ Hbm _ Hb) as [Hnh _].
  assert (length bl + length h < NBUF)%nat as Hlen by (eapply (room_bufs nlog bl h 2); [lia|by eapply txn_nlog|done|done]).
  destruct (txn_look Hdisk Hsolo ls nlog h r bl V _ Htx (inside_range _ _ _ _ Hhome) Hnh Hlen) as (b & d & r1 & r2 & E1 & E2 & E3 & Hv & Hd & T2 & S1 & S2).
  assert (8 * Z.of_nat (length d) = BPB) as Hbits by (rewrite Hd; done).
  rewrite (bind_ret _ _ _ _ _ E1), (bind_ret _ _ _ _ _ E2).
  destruct (find_clear_spec d (i * BPB) (sb_size x) (Z.to_nat BPB) 0) as [(k & Ef & Hk & Hks & Hclear & Hall)|[Ef Hall]]; [lia|rewrite Hbits; done| |].
  - left. assert (0 ≤ k < BPB) as Hk' by (change (Z.of_nat (Z.to_nat BPB)) with BPB in Hk; lia).
    destruct (used_block _ _ _ i d k Hbm Hi Hv Hk' Hks) as [Hu EB]. destruct (bit_of_block i k Hk') as [Em _].
    destruct (balloc_tail h r bl V i k d Htx Hbm Hroom Hh Hi Hv Hd Hk' Hks Hclear) as (b' & r1' & r2' & r3' & r4' & r5' & F1 & F2 & F3 & F4 & F5 & F6).
    rewrite E1 in F1. injection F1 as -> ->. rewrite (bind_ret _ _ _ (Some k) (with_res s r1')) by (unfold try_get; by rewrite Ef).
    exists (i * BPB + k), r5'. rewrite (bind_ret _ _ _ _ _ F2), (bind_ret _ _ _ _ _ F3), (bind_ret _ _ _ _ _ F4), (bind_ret _ _ _ _ _ F5). split; [done|].
    split; [lia|]. split; [by rewrite Hu|]. split; [|done]. intros j Hj. destruct (Z.lt_ge_cases j (i * BPB)) as [?|?]; [apply Hlow; lia|].
    replace j with (i * BPB + (j - i * BPB)) by lia. destruct (used_block _ _ _ i d (j - i * BPB) Hbm Hi Hv) as [-> _]; [lia|lia|]. apply Hall. lia.
  - rewrite (bind_ret _ _ _ None (with_res s r1)) by (unfold try_get; by rewrite Ef). rewrite (bind_ret _ _ _ _ _ E3).
    replace (i * BPB + BPB) with ((i + 1) * BPB) by lia.
    destruct (IH (i + 1) r2 T2 (bitmap_step _ _ _ _ _ Htx S2 Hbm) Hroom Hh) as [(k & r' & E & Hk)|[E Hno]]; [lia| |lia| |].
    + intros j Hj Hs. destruct (Z.lt_ge_cases j (i * BPB)) as [?|?]; [apply Hlow; lia|].
      replace j with (i * BPB + (j - i * BPB)) by lia. destruct (used_block _ _ _ i d (j - i * BPB) Hbm Hi Hv) as [-> _]; [lia|lia|].
      apply Hall; [|lia]. change (Z.of_nat (Z.to_nat BPB)) with BPB. lia.
    + left. exists k, r'. split; [done|]. destruct Hk as (K1 & K2 & K3 & d1 & d2 & K4 & K5 & K6 & K7).
      split_and!; try done; try lia. exists d1, d2. split_and!; try done. by eapply step_trans.
    + by right.
Qed.

Lemma balloc_solo h r bl V : txn (q := q) ls nlog h r bl V → bitmap_ok h r V → room nlog bl 2 → (length h ≤ 1)%nat →
  (∃ k r', balloc 1 (with_res s r) = Ret k (with_res s r') ∧ balloc_found h r bl V k r') ∨
  (balloc 1 (with_res s r) = Panic "balloc: out of blocks" ∧ ∀ j, 0 ≤ j < sb_size x → used V x j = Some true).
Proof.
  intros Htx Hbm Hroom Hh. unfold balloc. rewrite (bind_ret _ _ _ x (with_res s r)) by (unfold rget, gets; cbn; by rewrite (bm_sb _ _ _ Hbm)).
  apply (balloc_loop_solo h bl V _ 0 r Htx Hbm Hroom Hh); [done|lia|].
  pose proof (Z.div_mod (sb_size x) BPB ltac:(done)) as Hdm. pose proof (Z.mod_pos_bound (sb_size x) BPB ltac:(done)) as Hm.
  assert (0 ≤ sb_size x / BPB) by (apply Z.div_pos; [pose proof (bm_size _ _ _ Hbm); lia|done]).
  rewrite Nat2Z.inj_succ, Z2Nat.id by done. unfold BPB, BSIZE in *. lia.
Qed.

(** What [balloc] does to the blocks. *)
Lemma balloc_blocks h r bl V k r' : bitmap_ok h r V → balloc_found h r bl V k r' →
  ∃ V', txn (q := q) ls nlog h r' (record (record bl (BBLOCK k x)) k) V' ∧ step h r r' ∧ V' k = Some zeros ∧
    (∀ b, 0 ≤ b < sb_size x → used V' x b = if decide (b = k) then Some true else used V x b) ∧
    (∀ n, n ≠ k → n ≠ BBLOCK k x → V' n = V n) ∧ inside_home ls nlog r k ∧ (∀ b, 0 ≤ b < sb_size x → k ≠ BBLOCK b x).
Proof.
  intros Hbm (Hk & Hu & _ & d & d' & Hd & Hset & Htx & Hs). destruct (bm_free _ _ _ Hbm k Hk Hu) as [Hhome Hne].
  exists (taken V k d'). split_and!; [done|done|apply put_block_eq| | |done|done].
  - eapply used_taken; [lia|done|done|done|done|]. intros b Hb. pose proof (bm_start _ _ _ Hbm). pose proof (bm_size _ _ _ Hbm). apply BBLOCK_eq; lia.
  - intros n H1 H2. unfold taken. by rewrite !put_block_ne.
Qed.

(** The free blocks. *)
Definition nfree (V : blocks) : nat := length (filter (fun b => used V x b = Some false) (seqZ 0 (sb_size x))).

Lemma nfree_pos V : (∃ b, 0 ≤ b < sb_size x ∧ used V x b = Some false) ↔ (0 < nfree V)%nat.
Proof.
  unfold nfree. split.
  - intros (b & Hb & Hu). assert (b ∈ filter (fun b => used V x b = Some false) (seqZ 0 (sb_size x))) as Hin.
    { apply list_elem_of_filter. split; [done|]. apply elem_of_seqZ. lia. }
    destruct (filter _ _); [by apply not_elem_of_nil in Hin|cbn; lia].
  - intros H. destruct (filter _ _) as [|b l] eqn:E; [cbn in H; lia|]. assert (b ∈ filter (fun b => used V x b = Some false) (seqZ 0 (sb_size x))) as Hin by (rewrite E; by left).
    apply list_elem_of_filter in Hin as [Hu Hb%elem_of_seqZ]. exists b. split; [lia|done].
Qed.
Lemma filter_same_length (P Q : Z → Prop) `{∀ z, Decision (P z)} `{∀ z, Decision (Q z)} l : (∀ z, z ∈ l → P z ↔ Q z) →
  length (filter P l) = length (filter Q l).
Proof.
  induction l as [|z l IH]; intros Heq; [done|]. rewrite !filter_cons. specialize (IH ltac:(intros; apply Heq; by right)).
  pose proof (Heq z ltac:(by left)). repeat case_decide; cbn; [lia|tauto|tauto|done].
Qed.
Lemma filter_one_less (P Q : Z → Prop) `{∀ z, Decision (P z)} `{∀ z, Decision (Q z)} k l : NoDup l → k ∈ l → P k → ¬ Q k →
  (∀ z, z ∈ l → z ≠ k → P z ↔ Q z) → length (filter P l) = S (length (filter Q l)).
Proof.
  intros Hnd Hk HP HQ. induction Hnd as [|z l Hz Hnd IH]; intros Heq; [by apply not_elem_of_nil in Hk|]. rewrite !filter_cons.
  apply elem_of_cons in Hk as [<-|Hk].
  - rewrite decide_True, decide_False by done. cbn. f_equal. apply filter_same_length. intros y Hy. apply Heq; [by right|congruence].
  - assert (z ≠ k) as Hne by congruence. specialize (IH Hk ltac:(intros; apply Heq; [by right|done])).
    destruct (decide (P z)) as [Pz|Pz]; [rewrite decide_True by (apply Heq; [by left|done..])|rewrite decide_False by (intros Qz; apply Pz, Heq; [by left|done..])]; cbn; lia.
Qed.
Lemma nfree_taken V V' k : 0 ≤ k < sb_size x → used V x k = Some false →
  (∀ b, 0 ≤ b < sb_size x → used V' x b = if decide (b = k) then Some true else used V x b) → nfree V = S (nfree V').
Proof.
  intros Hk Hu HV. unfold nfree. apply (filter_one_less _ _ k); [apply NoDup_seqZ|apply elem_of_seqZ; lia|done| |].
  - rewrite HV, decide_True by done. done.
  - intros z Hz%elem_of_seqZ Hne. rewrite HV, decide_False by (done || lia). done.
Qed.

(** [balloc] takes the first block whose bit in the bitmap is clear, sets
    that bit and no other, and fills the block with zeros; no other block
    changes, and both changes are recorded in the transaction.  When every bit
    is set it panics. *)
Theorem balloc_correct r bl V : txn (q := q) ls nlog [] r bl V → bitmap_ok [] r V → room nlog bl 2 →
  (∀ k, 0 ≤ k < sb_size x → used V x k = Some false → (∀ j, 0 ≤ j < k → used V x j = Some true) →
     ∃ r' V', balloc 1 (with_res s r) = Ret k (with_res s r') ∧
       txn (q := q) ls nlog [] r' (record (record bl (BBLOCK k x)) k) V' ∧ cache_only r r' ∧ V' k = Some zeros ∧
       (∀ b, 0 ≤ b < sb_size x → used V' x b = if decide (b = k) then Some true else used V x b) ∧
       (∀ n, n ≠ k → n ≠ BBLOCK k x → V' n = V n)) ∧
  ((∀ j, 0 ≤ j < sb_size x → used V x j = Some true) → balloc 1 (with_res s r) = Panic "balloc: out of blocks").
Proof.
  intros Htx Hbm Hroom. destruct (balloc_solo [] r bl V Htx Hbm Hroom ltac:(cbn; lia)) as [(k & r' & E & Hf)|[E Hall]].
  - pose proof Hf as (Hk & Hu & Hlow & _). split.
    + intros k' Hk' Hu' Hlow'. assert (k' = k) as ->.
      { destruct (Z.lt_trichotomy k k') as [H|[H|H]]; [|done|]; [rewrite Hlow' in Hu by lia|rewrite Hlow in Hu' by lia]; done. }
      destruct (balloc_blocks _ _ _ _ _ _ Hbm Hf) as (V' & T & S & Hz & Hb & Ho & _). exists r', V'. split_and!; try done. apply S.
    + intros Hall. by rewrite Hall in Hu.
  - split; [|done]. intros k Hk Hu _. by rewrite Hall in Hu.
Qed.
End balloc.
