(* ===== verification/Bmap.v ===== *)
(** * The blocks of a file (fs.c: bmap)

    Inside a transaction [bmap] returns the block with the given index in the
    file and allocates it first when there is none.  The invariant of an inode
    in use is [ino_ok]: its blocks are data blocks, marked in the bitmap, and
    no two of its entries share one. *)

From S2P Require Import Prelude Machine Spinlock CString ProcTable Proc Lifecycle Ready Aging.
From S2P Require Import ProcLemmas Scheduler Reach Blocking Kstate Sleeplock Solo.
From S2P Require Import Devices Disk Bio Cache Layout Log Crash Transaction Inode Console Fs Content Txn Alloc.

(** ** Inodes and their blocks *)

(** The indirect block and the block with index [bn]; 0 when there is none. *)
Definition ind (y : inode) : Z := default 0 (i_addrs y !! Z.to_nat NDIRECT).
Definition fb (V : blocks) (y : inode) (bn : Z) : Z :=
  if bn <? NDIRECT then default 0 (i_addrs y !! Z.to_nat bn)
  else if ind y =? 0 then 0 else default 0 (d ← V (ind y); get32 d (4 * Z.to_nat (bn - NDIRECT))).

Lemma fb_file_block V y bn : fb V y bn ≠ 0 → file_block V y bn = Some (fb V y bn).
Proof.
  unfold fb, file_block, ind. destruct (bn <? NDIRECT); [destruct (i_addrs y !! _); cbn; congruence|].
  destruct (i_addrs y !! Z.to_nat NDIRECT) as [a|]; cbn -[Z.eqb get32]; [|rewrite Z.eqb_refl; congruence].
  destruct (a =? 0); [congruence|]. destruct (V a) as [d|]; cbn -[get32]; [|congruence].
  destruct (get32 d _); cbn; congruence.
Qed.

(** How an entry is filled. *)
Lemma fb_ext V V' y b : (ind y ≠ 0 → V' (ind y) = V (ind y)) → fb V' y b = fb V y b.
Proof. intros H. unfold fb. destruct (b <? NDIRECT); [done|]. destruct (Z.eqb_spec (ind y) 0) as [|Hz]; [done|]. by rewrite H. Qed.
Lemma ind_set_direct y bn k : 0 ≤ bn < NDIRECT → ind (y <| i_addrs ::= <[Z.to_nat bn := k]> |>) = ind y.
Proof. intros Hbn. unfold ind. cbn. rewrite list_lookup_insert_ne; [done|]. unfold NDIRECT in *. lia. Qed.
Lemma fb_set_direct V y bn k b : length (i_addrs y) = 13%nat → 0 ≤ bn < NDIRECT → 0 ≤ b →
  fb V (y <| i_addrs ::= <[Z.to_nat bn := k]> |>) b = if decide (b = bn) then k else fb V y b.
Proof.
  intros Hlen Hbn Hb. unfold fb. rewrite (ind_set_direct y bn k Hbn). destruct (Z.ltb_spec b NDIRECT) as [Hlt|Hge]; cbn.
  - destruct (decide (b = bn)) as [->|Hne].
    + rewrite list_lookup_insert_eq; [done|]. rewrite Hlen. unfold NDIRECT in *. lia.
    + rewrite list_lookup_insert_ne; [done|]. intros E%Z2Nat.inj; [congruence|lia..].
  - rewrite decide_False by lia. done.
Qed.
Lemma get32_zeros o v : get32 zeros o = Some v → v = 0.
Proof.
  unfold get32, get_bytes. case_bool_decide as H; [|done]. unfold zeros in *. rewrite length_replicate in H.
  rewrite drop_replicate, take_replicate. replace (_ `min` _)%nat with 4%nat by lia. cbn. by intros [= <-].
Qed.
Lemma ind_set_ind y k : length (i_addrs y) = 13%nat → ind (y <| i_addrs ::= <[Z.to_nat NDIRECT := k]> |>) = k.
Proof. intros Hlen. unfold ind. cbn. rewrite list_lookup_insert_eq; [done|]. rewrite Hlen. unfold NDIRECT. lia. Qed.
Lemma fb_set_ind V y k b : length (i_addrs y) = 13%nat → ind y = 0 → V k = Some zeros → 0 ≤ b →
  fb V (y <| i_addrs ::= <[Z.to_nat NDIRECT := k]> |>) b = fb V y b.
Proof.
  intros Hlen Hz Hk Hb. unfold fb. rewrite (ind_set_ind y k Hlen), Hz. destruct (Z.ltb_spec b NDIRECT) as [Hlt|Hge].
  - cbn. rewrite list_lookup_insert_ne; [done|]. unfold NDIRECT in *. lia.
  - rewrite Z.eqb_refl. destruct (k =? 0); [done|]. rewrite Hk. cbn [mbind option_bind].
    destruct (get32 zeros _) as [v|] eqn:E; [|done]. by apply get32_zeros in E.
Qed.
Lemma fb_set_entry V y bn k d d' b : ind y ≠ 0 → V (ind y) = Some d → put32 d (4 * Z.to_nat (bn - NDIRECT)) k = Some d' → NDIRECT ≤ bn →
  0 ≤ k < 2 ^ 32 → fb (put_block V (ind y) d') y b = if decide (b = bn) then k else fb V y b.
Proof.
  intros Hi Hd Hput Hbn Hk. unfold fb. destruct (Z.ltb_spec b NDIRECT) as [Hlt|Hge]; [rewrite decide_False by lia; done|].
  rewrite (proj2 (Z.eqb_neq _ _) Hi), put_block_eq, Hd. cbn [mbind option_bind]. destruct (decide (b = bn)) as [->|Hne].
  - rewrite (get32_put _ _ _ _ Hput). cbn. unfold u32. by apply Z.mod_small.
  - rewrite (get32_put_ne _ _ _ _ _ Hput); [done|]. lia.
Qed.

Section inode.
Context (N : nat) (ls nlog : Z) (x : superblock).

Definition in_bitmap (n : Z) : Prop := ∃ b, 0 ≤ b < sb_size x ∧ n = BBLOCK b x.
Definition in_inodes (n : Z) : Prop := ∃ i, 0 ≤ i < sb_ninodes x ∧ n = IBLOCK i x.
Definition free_in (V : blocks) (n : Z) : Prop := 0 ≤ n < sb_size x ∧ used V x n = Some false.

(** A block that holds data. *)
Record datab (V : blocks) (a : Z) : Prop := {
  db_pos : 0 < a < sb_size x;
  db_home : home N ls nlog a;
  db_bitmap : ¬ in_bitmap a;
  db_inodes : ¬ in_inodes a;
  db_used : used V x a = Some true }.

Record ino_ok (V : blocks) (y : inode) : Prop := {
  io_dev : i_dev y = 1;
  io_inum : 0 ≤ i_inum y < sb_ninodes x;
  io_inodes : 0 ≤ sb_inodestart x ∧ sb_inodestart x + sb_ninodes x < 2 ^ 31 ∧
    ∀ i, 0 ≤ i < sb_ninodes x → 0 < IBLOCK i x ∧ home N ls nlog (IBLOCK i x) ∧ ¬ in_bitmap (IBLOCK i x);
  io_addrs : length (i_addrs y) = 13%nat;
  io_size : 0 ≤ i_size y ≤ MAXFILE * BSIZE;
  io_blocks : ∀ bn, 0 ≤ bn < MAXFILE → fb V y bn ≠ 0 → datab V (fb V y bn);
  io_ind : ind y ≠ 0 → datab V (ind y);
  io_inj : ∀ a b, 0 ≤ a < MAXFILE → 0 ≤ b < MAXFILE → fb V y a ≠ 0 → fb V y a = fb V y b → a = b;
  io_ind_ne : ∀ bn, 0 ≤ bn < MAXFILE → ind y ≠ 0 → fb V y bn ≠ ind y;
  io_below : ∀ bn, 0 ≤ bn → bn * BSIZE < i_size y → fb V y bn ≠ 0 }.

(** One entry is filled with the fresh block [k]: [Some bn] is the entry of
    block [bn], [None] that of the indirect block. *)
Record filled (V : blocks) (y : inode) (o : option Z) (k : Z) (V' : blocks) (y' : inode) : Prop := {
  fl_inode : y' = y <| i_addrs := i_addrs y' |>;
  fl_addrs : length (i_addrs y') = length (i_addrs y);
  fl_free : free_in V k;
  fl_data : datab V' k;
  fl_used : ∀ a, 0 ≤ a < sb_size x → used V' x a = if decide (a = k) then Some true else used V x a;
  fl_old : match o with Some bn => 0 ≤ bn < MAXFILE ∧ fb V y bn = 0 | None => ind y = 0 end;
  fl_fb : ∀ bn, 0 ≤ bn < MAXFILE → fb V' y' bn = if decide (o = Some bn) then k else fb V y bn;
  fl_ind : ind y' = if decide (o = None) then k else ind y }.

Lemma datab_filled V y o k V' y' a : filled V y o k V' y' → datab V a → datab V' a ∧ a ≠ k.
Proof.
  intros F [D1 D2 D3 D4 D5]. assert (a ≠ k) as Hne.
  { intros ->. destruct (fl_free _ _ _ _ _ _ F) as [_ Hf]. congruence. }
  split; [|done]. split; try done. rewrite (fl_used _ _ _ _ _ _ F) by lia. by rewrite decide_False.
Qed.

Lemma ino_ok_filled V y o k V' y' : ino_ok V y → filled V y o k V' y' → ino_ok V' y'.
Proof.
  intros [I1 I2 I3 I4 I5 I6 I7 I8 I9 I10] F. pose proof (datab_filled V y o k V' y') as Hd.
  pose proof F as [F1 F2 [Hk0 Hfree] F4 F5 F6 F7 F8]. pose proof (db_pos _ _ F4) as Hk.
  assert (i_dev y' = i_dev y ∧ i_inum y' = i_inum y ∧ i_size y' = i_size y) as (E1 & E2 & E3) by (by rewrite F1).
  assert (∀ bn, 0 ≤ bn < MAXFILE → fb V y bn ≠ 0 → datab V' (fb V y bn) ∧ fb V y bn ≠ k) as Hb by (intros bn H1 H2; apply (Hd _ F), I6; done).
  assert (ind y ≠ 0 → datab V' (ind y) ∧ ind y ≠ k) as Hi by (intros H1; apply (Hd _ F), I7; done).
  split; rewrite ?E1, ?E2, ?E3; try done.
  - by rewrite F2.
  - intros bn Hbn. rewrite F7 by done. destruct (decide (o = Some bn)); [by intros _|]. intros Hz. by apply Hb.
  - rewrite F8. destruct (decide (o = None)); [by intros _|]. intros Hz. by apply Hi.
  - intros a b Ha Hb'. rewrite !F7 by done. destruct (decide (o = Some a)), (decide (o = Some b)); [congruence| | |by apply I8].
    + intros _ E. destruct (Hb b) as [_ Hne]; [done|rewrite <- E; lia|congruence].
    + intros Hz E. destruct (Hb a) as [_ Hne]; [done|done|congruence].
  - intros bn Hbn. rewrite F7, F8 by done. destruct (decide (o = Some bn)), (decide (o = None)); [congruence| | |by apply I9].
    + intros Hz E. destruct (Hi Hz). congruence.
    + intros Hz E. destruct (decide (fb V y bn = 0)) as [Ez|Ez]; [lia|]. destruct (Hb bn Hbn Ez). congruence.
  - intros bn H0 Hlt. rewrite F7 by (unfold MAXFILE, NDIRECT, NINDIRECT, BSIZE in *; lia). destruct (decide (o = Some bn)); [lia|by apply I10].
Qed.

(** ** What allocation may change *)

(** Blocks that allocation to the inode leaves alone. *)
Definition stable (V : blocks) (y : inode) (n : Z) : Prop := ¬ in_bitmap n ∧ n ≠ ind y ∧ ¬ free_in V n.

(** Blocks that are not the inode's own. *)
Definition foreign (V : blocks) (y : inode) (n : Z) : Prop := stable V y n ∧ ∀ bn, 0 ≤ bn < MAXFILE → fb V y bn ≠ n.

Record grown (V : blocks) (y : inode) (V' : blocks) (y' : inode) : Prop := {
  gr_inode : y' = y <| i_addrs := i_addrs y' |>;
  gr_old : ∀ bn, 0 ≤ bn < MAXFILE → fb V y bn ≠ 0 → fb V' y' bn = fb V y bn;
  gr_stable : ∀ n, stable V y n → V' n = V n ∧ stable V' y' n;
  gr_foreign : ∀ n, foreign V y n → foreign V' y' n }.

Lemma grown_refl V y : grown V y V y.
Proof. split; [by destruct y|done..]. Qed.
Lemma grown_trans V1 y1 V2 y2 V3 y3 : grown V1 y1 V2 y2 → grown V2 y2 V3 y3 → grown V1 y1 V3 y3.
Proof.
  intros [A1 A2 A3 A4] [B1 B2 B3 B4]. split; [| | |auto].
  - rewrite B1, A1. by destruct y1.
  - intros bn Hbn Hz. rewrite B2, A2; [done|done|done|done|]. by rewrite A2.
  - intros n Hn. destruct (A3 n Hn) as [<- Hn2]. by apply B3.
Qed.

Lemma stable_filled V y o k V' y' n : filled V y o k V' y' → stable V y n → n ≠ k ∧ stable V' y' n.
Proof.
  intros [F1 F2 [Hk Hfree] F4 F5 F6 F7 F8] (H1 & H2 & H3). assert (n ≠ k) as Hne by (intros ->; by apply H3). split; [done|].
  split; [done|]. split; [rewrite F8; by destruct (decide (o = None))|]. intros [Hn Hu]. apply H3. split; [done|]. rewrite F5, decide_False in Hu by done. done.
Qed.
Lemma grown_filled V y o k V' y' : ino_ok V y → filled V y o k V' y' →
  (∀ n, n ≠ k → ¬ in_bitmap n → n ≠ ind y → V' n = V n) → grown V y V' y'.
Proof.
  intros Hok Hf HV. pose proof Hf as [F1 F2 [Hk Hfree] F4 F5 F6 F7 F8]. split; [done| | |].
  - intros bn Hbn Hz. rewrite F7 by done. destruct (decide (o = Some bn)); [|done]. subst o. destruct F6. done.
  - intros n Hn. destruct (stable_filled _ _ _ _ _ _ n Hf Hn) as [Hne Hn']. split; [|done]. destruct Hn as (H1 & H2 & _). by apply HV.
  - intros n [Hn Hb]. destruct (stable_filled _ _ _ _ _ _ n Hf Hn) as [Hne Hn']. split; [done|].
    intros bn Hbn. rewrite F7 by done. destruct (decide (o = Some bn)); [congruence|by apply Hb].
Qed.

(** Data blocks other than the indirect one are left alone. *)
Lemma stable_data V y a : datab V a → a ≠ ind y → stable V y a.
Proof. intros [D1 D2 D3 D4 D5] Hne. split; [done|]. split; [done|]. intros [_ Hf]. congruence. Qed.

(** ** Filling an entry *)

(** The block [k] was free, is now marked and is full of zeros. *)
Record fresh (V : blocks) (k : Z) (V' : blocks) : Prop := {
  fr_free : free_in V k;
  fr_data : datab V' k;
  fr_zero : V' k = Some zeros;
  fr_used : ∀ a, 0 ≤ a < sb_size x → used V' x a = if decide (a = k) then Some true else used V x a;
  fr_other : ∀ n, n ≠ k → ¬ in_bitmap n → V' n = V n }.

Lemma fresh_data V k V' a : fresh V k V' → datab V a → V' a = V a ∧ a ≠ k.
Proof.
  intros [[_ F1] F2 F3 F4 F5] [D1 D2 D3 D4 D5]. assert (a ≠ k) as Hne by congruence. split; [by apply F5|done].
Qed.

Lemma filled_direct V y bn k V' : ino_ok V y → fresh V k V' → 0 ≤ bn < NDIRECT → fb V y bn = 0 →
  filled V y (Some bn) k V' (y <| i_addrs ::= <[Z.to_nat bn := k]> |>).
Proof.
  intros Hok Hf Hbn Hz. pose proof (io_addrs _ _ Hok) as Hlen. pose proof Hf as [F1 F2 F3 F4 F5].
  split; [done|cbn; by rewrite length_insert|done|done|done| |intros b Hb|by rewrite ind_set_direct, decide_False by done].
  { split; [assert (NDIRECT < MAXFILE) by done; lia|done]. }
  rewrite fb_set_direct by (done || lia). rewrite (fb_ext V V').
  - destruct (decide (b = bn)), (decide (Some bn = Some b)); congruence.
  - intros Hi. by apply (fresh_data V k V'), (io_ind _ _ Hok).
Qed.

Lemma filled_indirect V y k V' : ino_ok V y → fresh V k V' → ind y = 0 →
  filled V y None k V' (y <| i_addrs ::= <[Z.to_nat NDIRECT := k]> |>).
Proof.
  intros Hok Hf Hz. pose proof (io_addrs _ _ Hok) as Hlen. pose proof Hf as [F1 F2 F3 F4 F5].
  split; [done|cbn; by rewrite length_insert|done|done|done|done|intros b Hb|by rewrite ind_set_ind].
  rewrite fb_set_ind, decide_False by (done || lia). by apply fb_ext.
Qed.

Lemma filled_entry V y bn k V' d d' : ino_ok V y → fresh V k V' → NDIRECT ≤ bn < MAXFILE → ind y ≠ 0 → fb V y bn = 0 →
  V (ind y) = Some d → put32 d (4 * Z.to_nat (bn - NDIRECT)) k = Some d' → sb_size x < 2 ^ 31 →
  filled V y (Some bn) k (put_block V' (ind y) d') y.
Proof.
  intros Hok Hf Hbn Hi Hz Hd Hput Hsz. pose proof Hf as [F1 F2 F3 F4 F5]. pose proof (io_ind _ _ Hok Hi) as Hdi. pose proof (db_pos _ _ F2) as Hk.
  destruct (fresh_data V k V' (ind y) Hf Hdi) as [HV Hne].
  assert (∀ a, 0 ≤ a < sb_size x → used (put_block V' (ind y) d') x a = used V' x a) as Hu.
  { intros a Ha. unfold used. rewrite put_block_ne; [done|]. intros E. apply (db_bitmap _ _ Hdi). exists a. done. }
  split; [by destruct y|done|done| |intros a Ha; rewrite Hu by done; by apply F4| |intros b Hb|by rewrite decide_False by done].
  { destruct F2 as [D1 D2 D3 D4 D5]. split; try done. rewrite Hu; [done|lia]. }
  { split; [unfold NDIRECT in *; lia|done]. }
  rewrite (fb_set_entry V' y bn k d d' b) by (done || lia || congruence). rewrite (fb_ext V V') by done.
  destruct (decide (b = bn)), (decide (Some bn = Some b)); congruence.
Qed.
End inode.

(** ** Inside a transaction *)

(** Only the inode [ip], the cache and the log in memory change. *)
Definition moved (ip : nat) (y' : inode) (r r' : kres) : Prop :=
  r' = r <| bufs := bufs r' |> <| slocks := slocks r' |> <| log := log r' |> <| inodes := <[ip := y']> (inodes r) |>.

Lemma moved_trans ip y1 y2 r r1 r2 : moved ip y1 r r1 → moved ip y2 r1 r2 → moved ip y2 r r2.
Proof. unfold moved. intros H1 H2. rewrite H2, H1. cbn. rewrite list_insert_insert_eq. by destruct r. Qed.
Lemma moved_cache ip y r r' : inodes r !! ip = Some y → cache_only r r' → moved ip y r r'.
Proof. unfold moved, cache_only. intros Hy H. rewrite H. cbn. rewrite list_insert_id by done. by destruct r. Qed.
Lemma moved_fields ip y r r' : moved ip y r r' → memdisk r' = memdisk r ∧ sb r' = sb r ∧ inodes r' = <[ip := y]> (inodes r).
Proof. unfold moved. intros ->. by destruct r. Qed.

Definition set_inodes (l : list inode) (r : kres) : kres := r <| inodes := l |>.
Lemma txn_inodes ls nlog q h r bl V l : txn (q := q) ls nlog h r bl V → txn (q := q) ls nlog h (set_inodes l r) bl V.
Proof.
  intros [(l0 & [[C1 C2 C3 C4 C5 C6 C7 C8] T2 T3 T4 T5 T6 T7 T8 T9]) Ho Hv]. split; [|done|done]. exists l0. split; [by split|done..].
Qed.

Section bmap.
Context {FU : Fuel} {DK : Disk} (Hdisk : in_memory DK).
Context {s : kstate} {c p : nat} {u : cpu} {q : proc} (Hsolo : solo s c p u q).
Context (ls nlog : Z) (x : superblock).
#[local] Notation txn := (txn (q := q) ls nlog).
#[local] Notation bitmap_ok := (bitmap_ok ls nlog x).
#[local] Notation nblocks r := (length (memdisk r)).

Lemma bitmap_mono h r V r' V' : bitmap_ok h r V → memdisk r' = memdisk r → sb r' = sb r →
  (∀ b, free_in x V' b → free_in x V b) → bitmap_ok [] r' V'.
Proof.
  intros [B1 B2 B3 B4 B5 B6 B7] Hd Hs Hf. unfold inside_home in *. split; rewrite ?Hd, ?Hs; unfold inside_home; try done.
  - intros b Hb. rewrite Hd. by apply B4.
  - intros b Hb Hu. rewrite Hd. apply B5; [done|]. by apply (Hf b).
  - intros b Hb Hu. apply B6; [done|]. by apply (Hf b).
  - intros b Hb. split; intros; intros e y []%not_elem_of_nil.
Qed.

Lemma bitmap_hold r V r' b a d : bitmap_ok [] r V → cache_only r r' → held_buf r' b a d → datab (nblocks r) ls nlog x V a → bitmap_ok [b] r' V.
Proof.
  intros [B1 B2 B3 B4 B5 B6 B7] Hc (z & Hz & Hbn & _) [D1 D2 D3 D4 D5].
  split; rewrite ?(cache_only_disk _ _ Hc), ?(cache_only_sb _ _ Hc); unfold inside_home in *; rewrite ?(cache_only_disk _ _ Hc); try done.
  - intros n Hn. split.
    + intros e y ->%list_elem_of_singleton Hy E. simplify_eq. apply D3. exists n. done.
    + intros Hu e y ->%list_elem_of_singleton Hy E. simplify_eq.
Qed.

(** [balloc] when there is a free block. *)
Record alloc_post (h : list nat) (r : kres) (bl : list Z) (V : blocks) (k : Z) (r' : kres) (bl' : list Z) (V' : blocks) : Prop := {
  al_txn : txn h r' bl' V';
  al_step : step h r r';
  al_room : (length bl' ≤ length bl + 2)%nat;
  al_fresh : fresh (nblocks r) ls nlog x V k V';
  al_nfree : nfree x V = S (nfree x V') }.

Lemma length_record bl n : (length (record bl n) ≤ length bl + 1)%nat.
Proof. unfold record. case_decide; [lia|]. rewrite length_app. cbn. lia. Qed.

Lemma balloc_fresh h r bl V : txn h r bl V → bitmap_ok h r V → room nlog bl 2 → (length h ≤ 1)%nat → (0 < nfree x V)%nat →
  ∃ k r' bl' V', balloc 1 (with_res s r) = Ret k (with_res s r') ∧ alloc_post h r bl V k r' bl' V'.
Proof.
  intros Htx Hbm Hroom Hh Hfree. apply nfree_pos in Hfree as (b & Hb & Hu).
  destruct (balloc_solo Hdisk Hsolo ls nlog x h r bl V Htx Hbm Hroom Hh) as [(k & r' & E & Hf)|[_ Hall]]; [|rewrite (Hall b Hb) in Hu; done].
  pose proof Hf as (Hk & Huk & _). destruct (balloc_blocks ls nlog x h r bl V k r' Hbm Hf) as (V' & T & S & Hz & Hus & Ho & Hhome & Hne).
  destruct (bm_inode _ _ _ _ _ _ Hbm k Hk Huk) as [Hk0 Hki].
  exists k, r', (record (record bl (BBLOCK k x)) k), V'. split; [done|]. split; [exact T|done| | |by eapply nfree_taken].
  - pose proof (length_record (record bl (BBLOCK k x)) k). pose proof (length_record bl (BBLOCK k x)). lia.
  - split; [done| |done|done|].
    + split; [lia|exact Hhome|intros (b' & Hb' & ->); by eapply Hne|intros (i & Hi & ->); by eapply Hki|by rewrite Hus, decide_True].
    + intros n Hnk Hnb. apply Ho; [done|]. intros ->. apply Hnb. by exists k.
Qed.

(** The state of a process that works on the locked inode [ip] in a transaction. *)
Record fstate (ip : nat) (r : kres) (bl : list Z) (V : blocks) (y : inode) : Prop := {
  fs_txn : txn [] r bl V;
  fs_bitmap : bitmap_ok [] r V;
  fs_inode : inodes r !! ip = Some y;
  fs_ok : ino_ok (nblocks r) ls nlog x V y }.

(** Free blocks beyond the one the indirect block may still need. *)
Definition spare (V : blocks) (y : inode) : Z := Z.of_nat (nfree x V) - if ind y =? 0 then 1 else 0.

Lemma addr_set_ret ip i a y r : inodes r !! ip = Some y →
  addr_set ip i a (with_res s r) = Ret tt (with_res s (set_inodes (<[ip := y <| i_addrs ::= <[i := a]> |>]> (inodes r)) r)).
Proof.
  intros Hy. unfold addr_set, inode_set, rmod, modify, set_inodes, with_res. cbn.
  by rewrite (alter_as_insert _ _ _ _ Hy).
Qed.

(** [k] more blocks at most are recorded and one more free block at most is used. *)
Record grows (ip : nat) (k : nat) (r : kres) (bl : list Z) (V : blocks) (y : inode) (r' : kres) (bl' : list Z) (V' : blocks) (y' : inode) : Prop := {
  gs_state : fstate ip r' bl' V' y';
  gs_grown : grown x V y V' y';
  gs_moved : moved ip y' r r';
  gs_room : (length bl' ≤ length bl + k)%nat }.

Lemma filled_grows ip k o n r bl V y r' bl' V' y' : fstate ip r bl V y → filled (nblocks r) ls nlog x V y o n V' y' →
  (∀ m, m ≠ n → ¬ in_bitmap x m → m ≠ ind y → V' m = V m) → txn [] r' bl' V' → moved ip y' r r' → (length bl' ≤ length bl + k)%nat →
  grows ip k r bl V y r' bl' V' y'.
Proof.
  intros [F1 F2 F3 F4] Hf Hv Htx Hm Hlen. pose proof (moved_fields _ _ _ _ Hm) as (Hd & Hs & Hi).
  split; [|by eapply grown_filled|done|done]. split; [done| | |rewrite Hd; by eapply ino_ok_filled].
  - eapply bitmap_mono; [exact F2|done|done|]. intros b [Hb Hu]. split; [done|].
    rewrite (fl_used _ _ _ _ _ _ _ _ _ _ Hf) in Hu by done. by destruct (decide (b = n)).
  - rewrite Hi. apply list_lookup_insert_eq. by eapply lookup_lt_Some.
Qed.

Lemma grows_refl ip r bl V y : fstate ip r bl V y → grows ip 0 r bl V y r bl V y.
Proof. intros H. split; [done|apply grown_refl|apply moved_cache; [apply (fs_inode _ _ _ _ _ H)|apply cache_only_refl]|lia]. Qed.
Lemma grows_trans ip k1 k2 r bl V y r1 bl1 V1 y1 r2 bl2 V2 y2 : grows ip k1 r bl V y r1 bl1 V1 y1 → grows ip k2 r1 bl1 V1 y1 r2 bl2 V2 y2 →
  grows ip (k1 + k2) r bl V y r2 bl2 V2 y2.
Proof. intros [A1 A2 A3 A4] [B1 B2 B3 B4]. split; [done|by eapply grown_trans|by eapply moved_trans|lia]. Qed.

(** A fresh block for an entry of [addrs]. *)
Lemma grows_addrs ip o i r bl V y k r1 bl1 V1 : fstate ip r bl V y → alloc_post [] r bl V k r1 bl1 V1 →
  filled (nblocks r) ls nlog x V y o k V1 (y <| i_addrs ::= <[i := k]> |>) →
  ∃ r2, addr_set ip i k (with_res s r1) = Ret tt (with_res s r2) ∧ grows ip 2 r bl V y r2 bl1 V1 (y <| i_addrs ::= <[i := k]> |>).
Proof.
  intros Hfs [P1 [_ P2] P3 P4 P5] Hf. pose proof (fs_inode _ _ _ _ _ Hfs) as Hy. pose proof (cache_only_inodes _ _ P2) as Hi.
  eexists. split; [apply addr_set_ret; by rewrite Hi|]. eapply filled_grows; [done|exact Hf| |by apply txn_inodes| |done].
  - intros m H1 H2 _. by apply (fr_other _ _ _ _ _ _ _ P4).
  - eapply moved_trans; [by apply moved_cache|]. unfold moved, set_inodes. by destruct r1.
Qed.

Lemma bmap_direct ip bn r bl V y : fstate ip r bl V y → 0 ≤ bn < NDIRECT → room nlog bl 2 → 1 ≤ spare V y →
  ∃ r' bl' V' y', bmap ip bn (with_res s r) = Ret (fb V' y' bn) (with_res s r') ∧ fb V' y' bn ≠ 0 ∧
    grows ip 2 r bl V y r' bl' V' y' ∧ spare V y - 1 ≤ spare V' y' ∧ (fb V y bn ≠ 0 → y' = y).
Proof.
  intros Hfs Hbn Hroom Hsp. pose proof Hfs as [F1 F2 F3 F4]. pose proof (io_addrs _ _ _ _ _ _ F4) as Hlen.
  destruct (lookup_lt_is_Some_2 (i_addrs y) (Z.to_nat bn)) as [a Ha]; [rewrite Hlen; unfold NDIRECT in *; lia|].
  assert (fb V y bn = a) as Hfa by (unfold fb; rewrite (proj2 (Z.ltb_lt _ _)) by lia; by rewrite Ha).
  unfold bmap. rewrite (proj2 (Z.ltb_lt _ _)) by lia. rewrite (bind_ret _ _ _ _ _ (addr_get_ret ip _ y a r F3 Ha)).
  destruct (Z.eqb_spec a 0) as [->|Hz].
  - rewrite (bind_ret _ _ _ _ _ (inode_get_ret ip y r F3)), (io_dev _ _ _ _ _ _ F4).
    destruct (balloc_fresh [] r bl V F1 F2 Hroom) as (k & r1 & bl1 & V1 & E & P); [cbn; lia|unfold spare in Hsp; destruct (ind y =? 0); lia|].
    pose proof (filled_direct _ _ _ _ V y bn k V1 F4 (al_fresh _ _ _ _ _ _ _ _ P) Hbn Hfa) as Hfl.
    destruct (grows_addrs ip _ _ _ _ _ _ _ _ _ _ Hfs P Hfl) as (r2 & E2 & G).
    rewrite (bind_ret _ _ _ _ _ E), (bind_ret _ _ _ _ _ E2). exists r2, bl1, V1, (y <| i_addrs ::= <[Z.to_nat bn := k]> |>).
    rewrite (fl_fb _ _ _ _ _ _ _ _ _ _ Hfl) by (assert (NDIRECT < MAXFILE) by done; lia). rewrite decide_True by done.
    split_and!; [done| |done| |congruence]. { pose proof (db_pos _ _ _ _ _ _ (fl_data _ _ _ _ _ _ _ _ _ _ Hfl)). lia. }
    unfold spare. rewrite (fl_ind _ _ _ _ _ _ _ _ _ _ Hfl), decide_False by done. rewrite (al_nfree _ _ _ _ _ _ _ _ P). lia.
  - exists r, bl, V, y. rewrite Hfa. split_and!; [done|done| |lia|done]. destruct (grows_refl ip r bl V y Hfs). split; [done..|lia].
Qed.

(** The indirect block, allocated when there is none. *)
Lemma bmap_indirect ip r bl V y : fstate ip r bl V y → room nlog bl 2 → 1 ≤ spare V y →
  ∃ r' bl' V' y', (if ind y =? 0 then a <- balloc 1 ;; addr_set ip (Z.to_nat NDIRECT) a ;;; ret a else ret (ind y)) (with_res s r) =
      Ret (ind y') (with_res s r') ∧ ind y' ≠ 0 ∧ grows ip 2 r bl V y r' bl' V' y' ∧ spare V y ≤ spare V' y' ∧ (ind y ≠ 0 → y' = y).
Proof.
  intros Hfs Hroom Hsp. pose proof Hfs as [F1 F2 F3 F4]. destruct (Z.eqb_spec (ind y) 0) as [Hz|Hz].
  - destruct (balloc_fresh [] r bl V F1 F2 Hroom) as (k & r1 & bl1 & V1 & E & P); [cbn; lia|unfold spare in Hsp; destruct (ind y =? 0); lia|].
    pose proof (filled_indirect _ _ _ _ V y k V1 F4 (al_fresh _ _ _ _ _ _ _ _ P) Hz) as Hfl.
    destruct (grows_addrs ip _ _ _ _ _ _ _ _ _ _ Hfs P Hfl) as (r2 & E2 & G).
    rewrite (bind_ret _ _ _ _ _ E), (bind_ret _ _ _ _ _ E2). exists r2, bl1, V1, (y <| i_addrs ::= <[Z.to_nat NDIRECT := k]> |>).
    pose proof (db_pos _ _ _ _ _ _ (fl_data _ _ _ _ _ _ _ _ _ _ Hfl)) as Hk. unfold spare. rewrite Hz.
    rewrite (fl_ind _ _ _ _ _ _ _ _ _ _ Hfl), decide_True by done. split_and!; [done|lia|done| |congruence].
    rewrite (proj2 (Z.eqb_neq k 0)), (al_nfree _ _ _ _ _ _ _ _ P) by lia. cbn [Z.eqb]. lia.
  - exists r, bl, V, y. split_and!; [done|done| |lia|done]. destruct (grows_refl ip r bl V y Hfs). split; [done..|lia].
Qed.

(** A fresh block for the entry at [o] of the indirect block, which is held. *)
Lemma entry_fresh bp r bl V a o k d r3 bl3 V3 : txn [bp] r bl V → held_buf r bp a d → V a = Some d → length d = Z.to_nat BSIZE →
  inside_home ls nlog r a → room nlog bl 3 → (o + 4 ≤ Z.to_nat BSIZE)%nat → alloc_post [bp] r bl V k r3 bl3 V3 →
  ∃ d' r4 r5 r6, put32 d o k = Some d' ∧ set_data bp (fun d => put32 d o k) (with_res s r3) = Ret tt (with_res s r4) ∧
    log_write bp (with_res s r4) = Ret tt (with_res s r5) ∧ brelse bp (with_res s r5) = Ret tt (with_res s r6) ∧
    txn [] r6 (record bl3 a) (put_block V3 a d') ∧ cache_only r3 r6.
Proof.
  intros Htx Hb Hv Hd Hhome Hroom Ho [P1 P2 P3 P4 P5]. pose proof (kept_held _ _ _ _ _ _ (st_kept _ _ _ P2) ltac:(by left) Hb) as Hb3.
  destruct (put32_Some d o k) as [d' Hput]; [lia|]. assert (length d' = Z.to_nat BSIZE) as Hd' by (rewrite <- Hd; by eapply put_bytes_length).
  destruct (txn_set (s := s) ls nlog [] r3 bl3 V3 bp a d (fun d => put32 d o k) d' P1 Hb3 ltac:(apply not_elem_of_nil) Hput Hd') as (r4 & E4 & T4 & Hb4 & S4).
  destruct (txn_log_write Hsolo ls nlog [] r4 bl3 _ bp a d' T4 Hb4 ltac:(apply not_elem_of_nil)) as (r5 & E5 & T5 & Hb5 & Hc5 & S5).
  { eapply home_step; [exact S4|]. by eapply home_step. }
  { unfold room in *. lia. }
  destruct (txn_brelse Hsolo ls nlog [] r5 _ _ bp a d' T5 Hb5 Hc5 ltac:(apply not_elem_of_nil)) as (r6 & E6 & T6 & S6).
  exists d', r4, r5, r6. split_and!; try done. eapply cache_only_trans; [apply S4|]. eapply cache_only_trans; [apply S5|apply S6].
Qed.

(** The entry of the indirect block, filled when it is 0. *)
Lemma bmap_entry ip bn r bl V y : fstate ip r bl V y → NDIRECT ≤ bn < MAXFILE → ind y ≠ 0 → room nlog bl 3 → 1 ≤ spare V y →
  ∃ r' bl' V', (bp <- bread 1 (ind y) ;; d <- buf_data bp ;; addr <- try_get (fun _ => get32 d (4 * Z.to_nat (bn - NDIRECT))) ;;
      addr <- (if addr =? 0 then addr <- balloc 1 ;; set_data bp (fun d => put32 d (4 * Z.to_nat (bn - NDIRECT)) addr) ;;; log_write bp ;;; ret addr
               else ret addr) ;; brelse bp ;;; ret addr) (with_res s r) = Ret (fb V' y bn) (with_res s r') ∧ fb V' y bn ≠ 0 ∧
    grows ip 3 r bl V y r' bl' V' y ∧ spare V y - 1 ≤ spare V' y.
Proof.
  intros Hfs Hbn Hi Hroom Hsp. pose proof Hfs as [F1 F2 F3 F4]. pose proof (io_ind _ _ _ _ _ _ F4 Hi) as Hdi. set (o := (4 * Z.to_nat (bn - NDIRECT))%nat).
  assert (o + 4 ≤ Z.to_nat BSIZE)%nat as Ho by (assert (MAXFILE = NDIRECT + 128) by done; unfold o, BSIZE; lia).
  pose proof (db_home _ _ _ _ _ _ Hdi) as Hhome. assert (length bl + length (@nil nat) < NBUF)%nat as Hlen.
  { eapply (room_bufs nlog bl [] 3); [lia|by eapply txn_nlog|done|cbn; lia]. }
  destruct (txn_bread Hdisk Hsolo ls nlog [] r bl V _ F1 (inside_range _ _ _ _ Hhome) ltac:(intros ? ? []%not_elem_of_nil) Hlen)
    as (bp & d & r1 & E1 & T1 & Hv & Hd & Hb & Hc & _ & S1). rewrite (bind_ret _ _ _ _ _ E1).
  rewrite (bind_ret _ _ _ d (with_res s r1)) by (destruct Hb as (z & Hz & _ & <-); by apply buf_data_ret).
  destruct (get32_Some d o) as [a Ha]; [lia|]. rewrite (bind_ret _ _ _ a (with_res s r1)) by (unfold try_get; by rewrite Ha).
  assert (fb V y bn = a) as Hfa.
  { unfold fb. rewrite (proj2 (Z.ltb_ge _ _)), (proj2 (Z.eqb_neq _ _) Hi), Hv by lia. cbn [mbind option_bind]. fold o. by rewrite Ha. }
  pose proof (st_only _ _ _ S1) as Hco1. destruct (Z.eqb_spec a 0) as [->|Hz].
  - pose proof (bitmap_hold r V r1 bp _ d F2 Hco1 Hb Hdi) as B1.
    destruct (balloc_fresh [bp] r1 bl V T1 B1) as (k & r3 & bl3 & V3 & E3 & P); [by eapply room_less|done|unfold spare in Hsp; destruct (ind y =? 0); lia|].
    destruct (entry_fresh bp r1 bl V (ind y) o k d r3 bl3 V3 T1 Hb Hv Hd) as (d' & r4 & r5 & r6 & Hput & E4 & E5 & E6 & T6 & Hco6); [by eapply home_step|done|done|done|].
    pose proof (al_fresh _ _ _ _ _ _ _ _ P) as Hfr. rewrite (cache_only_disk _ _ Hco1) in Hfr.
    pose proof (filled_entry _ _ _ _ V y bn k V3 d d' F4 Hfr Hbn Hi Hfa Hv Hput) as Hfl. specialize (Hfl ltac:(by destruct (bm_size _ _ _ _ _ _ F2))).
    assert (cache_only r r6) as Hco by (eapply cache_only_trans; [exact Hco1|]; eapply cache_only_trans; [apply (al_step _ _ _ _ _ _ _ _ P)|done]).
    exists r6, (record bl3 (ind y)), (put_block V3 (ind y) d'). rewrite (bind_ret _ _ _ k (with_res s r5)).
    2:{ rewrite (bind_ret _ _ _ _ _ E3), (bind_ret _ _ _ _ _ E4), (bind_ret _ _ _ _ _ E5). done. }
    rewrite (bind_ret _ _ _ _ _ E6), (fl_fb _ _ _ _ _ _ _ _ _ _ Hfl) by (unfold NDIRECT in *; lia). rewrite decide_True by done.
    split_and!; [done| | |].
    + pose proof (db_pos _ _ _ _ _ _ (fl_data _ _ _ _ _ _ _ _ _ _ Hfl)). lia.
    + eapply filled_grows; [done|exact Hfl| |done|by apply moved_cache|].
      * intros m H1 H2 H3. rewrite put_block_ne by done. by apply (fr_other _ _ _ _ _ _ _ Hfr).
      * pose proof (length_record bl3 (ind y)). pose proof (al_room _ _ _ _ _ _ _ _ P). lia.
    + unfold spare. rewrite (al_nfree _ _ _ _ _ _ _ _ P).
      assert (nfree x (put_block V3 (ind y) d') = nfree x V3) as ->; [|lia]. apply filter_same_length. intros b Hb'%elem_of_seqZ.
      unfold used. rewrite put_block_ne; [done|]. intros E. apply (db_bitmap _ _ _ _ _ _ Hdi). exists b. split; [lia|done].
  - rewrite (bind_ret _ _ _ a (with_res s r1)) by done. destruct (txn_brelse Hsolo ls nlog [] r1 bl V bp _ d T1 Hb Hc ltac:(apply not_elem_of_nil)) as (r2 & E2 & T2 & S2).
    rewrite (bind_ret _ _ _ _ _ E2). exists r2, bl, V. rewrite Hfa. split_and!; [done|done| |lia].
    pose proof (st_only _ _ _ (step_trans _ _ _ _ S1 S2)) as Hco. split; [|apply grown_refl|by apply moved_cache|lia].
    split; [done|eapply bitmap_mono; [exact F2|by apply cache_only_disk|by apply cache_only_sb|done]|by rewrite (cache_only_inodes _ _ Hco)|by rewrite (cache_only_disk _ _ Hco)].
Qed.

(** [bmap] of any block a file may have. *)
Lemma bmap_txn ip bn r bl V y : fstate ip r bl V y → 0 ≤ bn < MAXFILE → room nlog bl 5 → 1 ≤ spare V y →
  ∃ r' bl' V' y', bmap ip bn (with_res s r) = Ret (fb V' y' bn) (with_res s r') ∧ fb V' y' bn ≠ 0 ∧
    grows ip 5 r bl V y r' bl' V' y' ∧ spare V y - 1 ≤ spare V' y' ∧ (fb V y bn ≠ 0 → y' = y).
Proof.
  intros Hfs Hbn Hroom Hsp. destruct (Z.lt_ge_cases bn NDIRECT) as [Hd|Hd].
  - destruct (bmap_direct ip bn r bl V y Hfs) as (r1 & bl1 & V1 & y1 & E & Hz & [] & Hs & Hy); [lia|by eapply room_less|done|].
    exists r1, bl1, V1, y1. split_and!; [done..| |done|done]. split; [done..|lia].
  - pose proof Hfs as [F1 F2 F3 F4]. unfold bmap. rewrite (proj2 (Z.ltb_ge _ _) Hd).
    assert (bn - NDIRECT < NINDIRECT) as Hni by (unfold MAXFILE in *; lia). rewrite (proj2 (Z.ltb_lt _ _) Hni).
    destruct (lookup_lt_is_Some_2 (i_addrs y) (Z.to_nat NDIRECT)) as [a Ha]; [rewrite (io_addrs _ _ _ _ _ _ F4); unfold NDIRECT; lia|].
    assert (ind y = a) as <- by (unfold ind; by rewrite Ha).
    rewrite (bind_ret _ _ _ _ _ (addr_get_ret ip _ y _ r F3 Ha)), (bind_ret _ _ _ _ _ (inode_get_ret ip y r F3)), (io_dev _ _ _ _ _ _ F4).
    destruct (bmap_indirect ip r bl V y Hfs) as (r1 & bl1 & V1 & y1 & E1 & Hi & G1 & Hs1 & Hy1); [by eapply room_less|done|].
    rewrite (bind_ret _ _ _ _ _ E1). pose proof (gs_room _ _ _ _ _ _ _ _ _ _ G1) as Hl1.
    destruct (bmap_entry ip bn r1 bl1 V1 y1 (gs_state _ _ _ _ _ _ _ _ _ _ G1)) as (r2 & bl2 & V2 & E2 & Hz & G2 & Hs2); [lia|done|unfold room in *; lia|lia|].
    exists r2, bl2, V2, y1. split_and!; [exact E2|done|by apply (grows_trans ip 2 3 _ _ _ _ _ _ _ _ _ _ _ _ G1)|lia|].
    intros Hnz. apply Hy1. intros E. apply Hnz. unfold fb. by rewrite (proj2 (Z.ltb_ge _ _) Hd), E.
Qed.
End bmap.
