(* ===== verification/Writei.v ===== *)
(** * Writing to files (fs.c: writei, iupdate)

    Inside a transaction [writei] changes just the bytes it is given, lets the
    file grow, keeps the inode on disk up to date and touches no block of
    another file.  What it wrote is what [readi] returns. *)

From S2P Require Import Prelude Machine Spinlock CString ProcTable Proc Lifecycle Ready Aging.
From S2P Require Import ProcLemmas Scheduler Reach Blocking Kstate Sleeplock Solo.
From S2P Require Import Devices Disk Bio Cache Layout Log Crash Transaction Inode Console Fs Content Txn Alloc Bmap.

(** ** Bytes and blocks *)

Lemma lookup_put_bytes d o l d' i : put_bytes d o l = Some d' →
  d' !! i = if decide (o ≤ i < o + length l)%nat then l !! (i - o)%nat else d !! i.
Proof.
  unfold put_bytes. case_bool_decide as H; [|done]. intros [= <-]. case_decide as Hi.
  - rewrite lookup_app_r by (rewrite length_take; lia). rewrite length_take, Nat.min_l by lia. apply lookup_app_l. lia.
  - destruct (decide (i < o)%nat) as [Hlt|Hge].
    + rewrite lookup_app_l by (rewrite length_take; lia). by apply lookup_take_lt.
    + rewrite lookup_app_r by (rewrite length_take; lia). rewrite length_take, Nat.min_l by lia.
      rewrite lookup_app_r by lia. rewrite lookup_drop. f_equal. lia.
Qed.

(** Position [k] lies in the bytes written at [off] inside one block. *)
Lemma in_block off k m : 0 ≤ off → 0 ≤ k → 0 ≤ m → off mod BSIZE + m ≤ BSIZE →
  off ≤ k < off + m ↔ k / BSIZE = off / BSIZE ∧ off mod BSIZE ≤ k mod BSIZE < off mod BSIZE + m.
Proof.
  intros H1 H2 H3 H4. unfold BSIZE in *. pose proof (Z.div_mod off 512 ltac:(lia)). pose proof (Z.div_mod k 512 ltac:(lia)).
  pose proof (Z.mod_pos_bound off 512 ltac:(lia)). pose proof (Z.mod_pos_bound k 512 ltac:(lia)). nia.
Qed.

(** The number of blocks [writei] goes through. *)
Definition rounds (off n : Z) : Z := if n <=? 0 then 0 else (off + n - 1) / BSIZE - off / BSIZE + 1.

Lemma rounds_step off n : 0 ≤ off → 0 < n → rounds off n = 1 + rounds (off + Z.min n (BSIZE - off mod BSIZE)) (n - Z.min n (BSIZE - off mod BSIZE)).
Proof.
  intros H0 Hn. unfold rounds, BSIZE. pose proof (Z.div_mod off 512 ltac:(lia)). pose proof (Z.mod_pos_bound off 512 ltac:(lia)).
  rewrite (proj2 (Z.leb_gt n 0)) by lia. destruct (Z.leb_spec (n - Z.min n (512 - off mod 512)) 0) as [Hle|Hgt].
  - assert ((off + n - 1) / 512 = off / 512); [|lia]. symmetry. apply Z.div_unique with (off mod 512 + n - 1); lia.
  - replace (Z.min n (512 - off mod 512)) with (512 - off mod 512) by lia.
    assert ((off + (512 - off mod 512)) / 512 = off / 512 + 1) as ->; [|replace (off + (512 - off mod 512) + (n - (512 - off mod 512)) - 1) with (off + n - 1) by lia; lia].
    symmetry. apply Z.div_unique with 0; lia.
Qed.
Lemma rounds_nonneg off n : 0 ≤ off → 0 ≤ rounds off n.
Proof.
  intros H. unfold rounds. destruct (Z.leb_spec n 0); [lia|]. assert (off / BSIZE ≤ (off + n - 1) / BSIZE); [|lia]. apply Z.div_le_mono; [done|lia].
Qed.

Section put.
Context (N : nat) (ls nlog : Z) (x : superblock).

(** A block that is neither in the bitmap nor the indirect one is changed. *)
Lemma fb_put V y a d bn : a ≠ ind y ∨ ind y = 0 → fb (put_block V a d) y bn = fb V y bn.
Proof.
  intros Ha. unfold fb. destruct (bn <? NDIRECT); [done|]. destruct (Z.eqb_spec (ind y) 0) as [|Hz]; [done|].
  rewrite put_block_ne; [done|]. destruct Ha; [congruence|done].
Qed.
Lemma used_put V a d b : ¬ in_bitmap x a → 0 ≤ b < sb_size x → used (put_block V a d) x b = used V x b.
Proof. intros Ha Hb. unfold used. rewrite put_block_ne; [done|]. intros <-. apply Ha. by exists b. Qed.
Lemma datab_put V a d b : ¬ in_bitmap x a → datab N ls nlog x V b → datab N ls nlog x (put_block V a d) b.
Proof. intros Ha [D1 D2 D3 D4 D5]. split; try done. rewrite used_put; [done|done|lia]. Qed.
Lemma ino_ok_put V y a d : ino_ok N ls nlog x V y → ¬ in_bitmap x a → a ≠ ind y ∨ ind y = 0 → ino_ok N ls nlog x (put_block V a d) y.
Proof.
  intros [I1 I2 I3 I4 I5 I6 I7 I8 I9 I10] Hb Ha. split; try done.
  - intros bn Hbn. rewrite fb_put by done. intros Hz. by apply datab_put, I6.
  - intros Hz. by apply datab_put, I7.
  - intros b1 b2 H1 H2. rewrite !fb_put by done. by apply I8.
  - intros bn Hbn. rewrite fb_put by done. by apply I9.
  - intros bn H0 H1. rewrite fb_put by done. by apply I10.
Qed.
Lemma free_put V a d b : ¬ in_bitmap x a → free_in x (put_block V a d) b ↔ free_in x V b.
Proof. intros Ha. unfold free_in. split; intros [Hb Hu]; (split; [done|]); rewrite used_put in *; done. Qed.
Lemma foreign_put V y a d n : ¬ in_bitmap x a → a ≠ ind y ∨ ind y = 0 → foreign x V y n → foreign x (put_block V a d) y n.
Proof.
  intros Hb Ha ((H1 & H2 & H3) & H4). split; [|intros bn Hbn; rewrite fb_put by done; by apply H4].
  split; [done|]. split; [done|]. by rewrite free_put.
Qed.
Lemma nfree_put V a d : ¬ in_bitmap x a → nfree x (put_block V a d) = nfree x V.
Proof. intros Ha. apply filter_same_length. intros b Hb%elem_of_seqZ. rewrite used_put; [done|done|lia]. Qed.

(** A block of the file is not its indirect block. *)
Lemma own_not_ind V y bn : ino_ok N ls nlog x V y → 0 ≤ bn < MAXFILE → fb V y bn ≠ ind y ∨ ind y = 0.
Proof. intros Hok Hbn. destruct (decide (ind y = 0)); [by right|left; by apply (io_ind_ne _ _ _ _ _ _ Hok)]. Qed.

(** ** What a write does to the contents *)
Record wrote (V : blocks) (y : inode) (off : Z) (l : list Z) (V' : blocks) (y' : inode) : Prop := {
  wr_inode : y' = y <| i_addrs := i_addrs y' |>;
  wr_new : ∀ k, off ≤ k < off + Z.of_nat (length l) → file_byte V' y' k = l !! Z.to_nat (k - off) ∧ fb V' y' (k / BSIZE) ≠ 0;
  wr_kept : ∀ k, 0 ≤ k < MAXFILE * BSIZE → ¬ off ≤ k < off + Z.of_nat (length l) → fb V y (k / BSIZE) ≠ 0 → file_byte V' y' k = file_byte V y k;
  wr_blocks : ∀ bn, 0 ≤ bn < MAXFILE → fb V y bn ≠ 0 → fb V' y' bn ≠ 0;
  wr_foreign : ∀ n, foreign x V y n → V' n = V n ∧ foreign x V' y' n;
  wr_inside : (∀ k, off ≤ k < off + Z.of_nat (length l) → fb V y (k / BSIZE) ≠ 0) → y' = y }.

Lemma block_index k : 0 ≤ k < MAXFILE * BSIZE → 0 ≤ k / BSIZE < MAXFILE.
Proof. intros Hk. split; [apply Z.div_pos; [lia|done]|]. apply Z.div_lt_upper_bound; [done|lia]. Qed.

Lemma wrote_nil V y off : wrote V y off [] V y.
Proof. split; [by destruct y|cbn; lia|done..]. Qed.

Lemma wrote_app V y off l1 V1 y1 l2 V2 y2 : 0 ≤ off → off + Z.of_nat (length l1 + length l2) ≤ MAXFILE * BSIZE →
  wrote V y off l1 V1 y1 → wrote V1 y1 (off + Z.of_nat (length l1)) l2 V2 y2 → wrote V y off (l1 ++ l2) V2 y2.
Proof.
  intros H0 Hmax [A1 A2 A3 A4 A5 A6] [B1 B2 B3 B4 B5 B6]. split.
  - rewrite B1, A1. by destruct y.
  - intros k Hk. rewrite length_app in Hk. destruct (Z.lt_ge_cases k (off + Z.of_nat (length l1))) as [Hlt|Hge].
    + destruct (A2 k) as [E1 E2]; [lia|]. rewrite lookup_app_l by lia. split; [|apply B4; [apply block_index; lia|done]].
      rewrite B3; [done|lia|lia|done].
    + destruct (B2 k) as [E1 E2]; [lia|]. split; [|done]. rewrite E1, lookup_app_r by lia. f_equal. lia.
  - intros k Hk Hn Hz. rewrite length_app in Hn. rewrite B3, A3; [done|done|lia|done|done|lia|]. apply A4; [by apply block_index|done].
  - intros bn Hbn Hz. apply B4; [done|]. by apply A4.
  - intros n Hn. destruct (A5 n Hn) as [<- Hn1]. by apply B5.
  - intros Hin. rewrite length_app in Hin. rewrite <- A6 by (intros k Hk; apply Hin; lia). apply B6. intros k Hk. apply A4; [apply block_index; lia|]. apply Hin. lia.
Qed.

(** One block of the file is changed. *)
Lemma wrote_block V y V1 y1 off l d d' : ino_ok N ls nlog x V y → grown x V y V1 y1 → ino_ok N ls nlog x V1 y1 → 0 ≤ off < MAXFILE * BSIZE →
  off mod BSIZE + Z.of_nat (length l) ≤ BSIZE → l ≠ [] → let a := fb V1 y1 (off / BSIZE) in a ≠ 0 → (fb V y (off / BSIZE) ≠ 0 → y1 = y) →
  V1 a = Some d → put_bytes d (Z.to_nat (off mod BSIZE)) l = Some d' → wrote V y off l (put_block V1 a d') y1.
Proof.
  intros Hok [G1 G2 G3 G4] Hok1 Hoff Hle Hl a Ha Hy Hd Hput. pose proof (block_index off Hoff) as Hbn.
  pose proof (Z.mod_pos_bound off BSIZE ltac:(done)) as Hmod. pose proof (own_not_ind V1 y1 _ Hok1 Hbn) as Hni. fold a in Hni.
  pose proof (io_blocks _ _ _ _ _ _ Hok1 _ Hbn Ha) as Hda. fold a in Hda. pose proof (db_bitmap _ _ _ _ _ _ Hda) as Hnb.
  split; [done| | |intros bn H1 H2; rewrite fb_put, G2 by done; done| |].
  - intros k Hk. assert (0 ≤ k) as Hk0 by lia. apply in_block in Hk as [E1 E2]; [|lia..]. rewrite E1, fb_put by done. split; [|done].
    unfold file_byte. rewrite E1, fb_file_block by (by rewrite fb_put). rewrite fb_put by done. fold a. cbn [mbind option_bind]. rewrite put_block_eq. cbn [mbind option_bind].
    rewrite (lookup_put_bytes _ _ _ _ _ Hput), decide_True by lia. f_equal.
    unfold BSIZE in *. pose proof (Z.div_mod off 512 ltac:(lia)). pose proof (Z.div_mod k 512 ltac:(lia)). lia.
  - intros k Hk Hn Hz. pose proof (block_index k Hk) as Hbk. unfold file_byte. rewrite !fb_file_block by (rewrite ?fb_put, ?G2 by done; done).
    rewrite fb_put, G2 by done. cbn [mbind option_bind].
    assert (V1 (fb V y (k / BSIZE)) = V (fb V y (k / BSIZE))) as HV.
    { apply G3. apply (stable_data N ls nlog); [by apply (io_blocks _ _ _ _ _ _ Hok)|]. destruct (own_not_ind V y _ Hok Hbk); congruence. }
    rewrite <- HV. destruct (decide (k / BSIZE = off / BSIZE)) as [E|E].
    + replace (fb V y (k / BSIZE)) with a by (rewrite E in Hz |- *; unfold a; by apply G2). rewrite put_block_eq, Hd. cbn [mbind option_bind].
      rewrite (lookup_put_bytes _ _ _ _ _ Hput), decide_False; [done|]. intros H. apply Hn, in_block; [lia..|]. split; [done|].
      pose proof (Z.mod_pos_bound k BSIZE ltac:(done)). lia.
    + rewrite put_block_ne; [done|]. intros E'. apply E. apply (io_inj _ _ _ _ _ _ Hok1); [done|done| |]; rewrite G2 by done; done.
  - intros n Hn. pose proof (G4 n Hn) as Hn1. split; [|by apply foreign_put]. rewrite put_block_ne; [by apply G3, Hn|].
    intros ->. destruct Hn1 as [_ Hn1]. by apply (Hn1 (off / BSIZE)).
  - intros Hin. apply Hy, Hin. destruct l; [done|cbn; lia].
Qed.
End put.

Section writei.
Context {FU : Fuel} {HW : Hw} {DK : Disk} (Hdisk : in_memory DK).
Context {s : kstate} {c p : nat} {u : cpu} {q : proc} (Hsolo : solo s c p u q).
Context (ls nlog : Z) (x : superblock).
#[local] Notation txn := (txn (q := q) ls nlog).
#[local] Notation fstate := (fstate (q := q) ls nlog x).

(** A change of one block that is not in the bitmap. *)
Lemma fstate_put ip r bl V y r' bl' a d : fstate ip r bl V y → txn [] r' bl' (put_block V a d) → cache_only r r' →
  ¬ in_bitmap x a → a ≠ ind y ∨ ind y = 0 → fstate ip r' bl' (put_block V a d) y.
Proof.
  intros [F1 F2 F3 F4] Htx Hc Hb Ha. split; [done| |by rewrite (cache_only_inodes _ _ Hc)|rewrite (cache_only_disk _ _ Hc); by apply ino_ok_put].
  eapply bitmap_mono; [exact F2|by apply cache_only_disk|by apply cache_only_sb|]. intros b. by rewrite free_put.
Qed.

(** What a number of rounds of [writei] does. *)
Record writes_ok (ip : nat) (k : nat) (r : kres) (bl : list Z) (V : blocks) (y : inode) (off : Z) (l : list Z)
    (r' : kres) (bl' : list Z) (V' : blocks) (y' : inode) : Prop := {
  wo_state : fstate ip r' bl' V' y';
  wo_wrote : wrote x V y off l V' y';
  wo_moved : moved ip y' r r';
  wo_room : (length bl' ≤ length bl + k)%nat }.

Lemma writei_round ip k src off r bl V y : fstate ip r bl V y → 0 ≤ off → src ≠ [] → off + Z.of_nat (length src) ≤ MAXFILE * BSIZE →
  room nlog bl 6 → 1 ≤ spare x V y → let m := Z.min (Z.of_nat (length src)) (BSIZE - off mod BSIZE) in
  ∃ r' bl' V' y', writei_loop (S k) ip src off (with_res s r) = writei_loop k ip (drop (Z.to_nat m) src) (off + m) (with_res s r') ∧
    writes_ok ip 6 r bl V y off (take (Z.to_nat m) src) r' bl' V' y' ∧ spare x V y - 1 ≤ spare x V' y'.
Proof.
  intros Hfs Hoff Hsrc Hmax Hroom Hsp m. pose proof Hfs as [F1 F2 F3 F4]. pose proof (Z.mod_pos_bound off BSIZE ltac:(done)) as Hmod.
  assert (0 < Z.of_nat (length src)) as Hpos by (destruct src; [done|cbn; lia]).
  assert (Z.of_nat (length (take (Z.to_nat m) src)) = m) as Hm by (rewrite length_take; unfold m; lia).
  assert (0 ≤ off < MAXFILE * BSIZE) as Hoff' by lia. pose proof (block_index off Hoff') as Hbn.
  cbn [writei_loop]. rewrite (proj2 (Z.ltb_lt _ _) Hpos), (bind_ret _ _ _ _ _ (inode_get_ret ip y r F3)).
  destruct (bmap_txn Hdisk Hsolo ls nlog x ip (off / BSIZE) r bl V y Hfs Hbn) as (r1 & bl1 & V1 & y1 & E1 & Ha & [G1 G2 G3 G4] & Hs1 & Hy1); [by eapply room_less|done|].
  rewrite (bind_ret _ _ _ _ _ E1), (io_dev _ _ _ _ _ _ F4). pose proof G1 as [T1 B1 I1 O1]. set (a := fb V1 y1 (off / BSIZE)) in *.
  pose proof (io_blocks _ _ _ _ _ _ O1 _ Hbn Ha) as Hda. fold a in Hda. pose proof (moved_fields _ _ _ _ G3) as (Hmd & _ & _).
  destruct (txn_update Hdisk Hsolo ls nlog [] r1 bl1 V1 a (fun d => put_bytes d (Z.to_nat (off mod BSIZE)) (take (Z.to_nat m) src)) T1 (db_home _ _ _ _ _ _ Hda))
    as (b & d & d' & r2 & r3 & r4 & r5 & E2 & _ & E3 & E4 & E5 & Hv & Hd & Hput & T5 & _ & S5).
  { intros e z []%not_elem_of_nil. }
  { cbn; lia. }
  { unfold room in *. lia. }
  { intros d _ Hd. eexists. rewrite put_bytes_Some by lia. split; [done|]. rewrite !length_app, length_take, length_drop. lia. }
  pose proof (own_not_ind _ _ _ _ _ _ _ O1 Hbn) as Hni. fold a in Hni. pose proof (db_bitmap _ _ _ _ _ _ Hda) as Hnb.
  exists r5, (record bl1 a), (put_block V1 a d'), y1. fold m. split; [|split].
  - by rewrite (bind_ret _ _ _ _ _ E2), (bind_ret _ _ _ _ _ E3), (bind_ret _ _ _ _ _ E4), (bind_ret _ _ _ _ _ E5).
  - split.
    + eapply fstate_put; [exact G1|done|apply S5|done|done].
    + rewrite Hmd in O1. apply (wrote_block _ _ _ x V y V1 y1 off _ d d' F4 G2 O1 Hoff'); [lia| |done|done|done|done].
      intros E. rewrite E in Hm. cbn in Hm. lia.
    + eapply moved_trans; [exact G3|]. apply moved_cache; [done|apply S5].
    + pose proof (length_record bl1 a). lia.
  - unfold spare in *. rewrite nfree_put by done. lia.
Qed.

Lemma writei_loop_txn k : ∀ ip src off r bl V y, fstate ip r bl V y → 0 ≤ off → off + Z.of_nat (length src) ≤ MAXFILE * BSIZE →
  (length src ≤ k)%nat → room nlog bl (6 * rounds off (Z.of_nat (length src)) + 1) → rounds off (Z.of_nat (length src)) ≤ spare x V y →
  ∃ r' bl' V' y', writei_loop k ip src off (with_res s r) = Ret (off + Z.of_nat (length src)) (with_res s r') ∧
    writes_ok ip (Z.to_nat (6 * rounds off (Z.of_nat (length src)))) r bl V y off src r' bl' V' y'.
Proof.
  induction k as [|k IH]; intros ip src off r bl V y Hfs Hoff Hmax Hk Hroom Hsp.
  all: destruct (decide (src = [])) as [->|Hne]; [exists r, bl, V, y; cbn; rewrite Z.add_0_r; split; [done|];
    split; [done|apply wrote_nil|apply moved_cache; [apply (fs_inode _ _ _ _ _ _ _ _ Hfs)|apply cache_only_refl]|lia]|].
  { destruct src; [done|cbn in Hk; lia]. }
  assert (0 < Z.of_nat (length src)) as Hpos by (destruct src; [done|cbn; lia]). pose proof (Z.mod_pos_bound off BSIZE ltac:(done)) as Hmod.
  pose proof (rounds_step off (Z.of_nat (length src)) Hoff Hpos) as Hrs. set (m := Z.min (Z.of_nat (length src)) (BSIZE - off mod BSIZE)) in *.
  assert (0 < m ≤ Z.of_nat (length src)) as Hm by (unfold m; lia). pose proof (rounds_nonneg (off + m) (Z.of_nat (length src) - m) ltac:(lia)) as Hrn.
  destruct (writei_round ip k src off r bl V y Hfs Hoff Hne Hmax) as (r1 & bl1 & V1 & y1 & E1 & [W1 W2 W3 W4] & Hs1); [eapply room_less; [exact Hroom|lia]|lia|].
  fold m in E1, W2. rewrite E1. assert (Z.of_nat (length (drop (Z.to_nat m) src)) = Z.of_nat (length src) - m) as Hd by (rewrite length_drop; lia).
  assert (Z.of_nat (length (take (Z.to_nat m) src)) = m) as Ht by (rewrite length_take; lia).
  destruct (IH ip (drop (Z.to_nat m) src) (off + m) r1 bl1 V1 y1 W1) as (r2 & bl2 & V2 & y2 & E2 & [X1 X2 X3 X4]).
  { lia. }
  { lia. }
  { lia. }
  { rewrite Hd. unfold room in *. lia. }
  { rewrite Hd. lia. }
  exists r2, bl2, V2, y2. rewrite E2, Hd. split; [f_equal; lia|]. rewrite Hd in X4. split; [done| |by eapply moved_trans|lia].
  rewrite <- (take_drop (Z.to_nat m) src). eapply wrote_app; [done|rewrite !length_take, length_drop; lia|exact W2|by rewrite Ht].
Qed.

(** ** The inode on disk *)

Definition inode_at (V : blocks) (i : Z) : option dinode := d ← V (IBLOCK i x); decode_dinode d (ioff i).

Lemma inode_foreign ip r bl V y i : fstate ip r bl V y → 0 ≤ i < sb_ninodes x → foreign x V y (IBLOCK i x).
Proof.
  intros [_ B _ I] Hi. destruct (io_inodes _ _ _ _ _ _ I) as (_ & _ & Hg). destruct (Hg i Hi) as (Hpos & _ & Hb).
  assert (∀ a, datab (length (memdisk r)) ls nlog x V a → a ≠ IBLOCK i x) as Hd.
  { intros a Ha ->. apply (db_inodes _ _ _ _ _ _ Ha). by exists i. }
  split.
  - split; [done|]. split; [|intros [Hr Hu]; destruct (bm_inode _ _ _ _ _ _ B _ Hr Hu) as [_ H]; by apply (H i)].
    intros E. destruct (decide (ind y = 0)) as [Hz|Hz]; [lia|]. by apply (Hd (ind y)); [apply (io_ind _ _ _ _ _ _ I)|].
  - intros bn Hbn. destruct (decide (fb V y bn = 0)) as [Hz|Hz]; [lia|]. by apply Hd, (io_blocks _ _ _ _ _ _ I).
Qed.

Lemma IBLOCK_eq i : 0 ≤ sb_inodestart x ∧ sb_inodestart x + sb_ninodes x < 2 ^ 31 → 0 ≤ i < sb_ninodes x → IBLOCK i x = i / IPB + sb_inodestart x.
Proof.
  intros [H0 H1] Hi. unfold IBLOCK, u32. change IPB with 8. assert (0 ≤ i / 8 ≤ i) by (split; [apply Z.div_pos; lia|apply Z.div_le_upper_bound; lia]).
  apply Z.mod_small. lia.
Qed.

(** An inode is written to its place; the others are untouched. *)
Lemma inode_at_put V i d b b' : 0 ≤ sb_inodestart x ∧ sb_inodestart x + sb_ninodes x < 2 ^ 31 → 0 ≤ i < sb_ninodes x → dinode_ok d →
  V (IBLOCK i x) = Some b → put_bytes b (ioff i) (encode_dinode d) = Some b' →
  inode_at (put_block V (IBLOCK i x) b') i = Some d ∧
  ∀ j, 0 ≤ j < sb_ninodes x → j ≠ i → inode_at (put_block V (IBLOCK i x) b') j = inode_at V j.
Proof.
  intros Hg Hi Hok Hv Hput. destruct (dinode_roundtrip _ _ _ _ Hok Hput) as [Hrt Hoth]. split; [unfold inode_at; rewrite put_block_eq; exact Hrt|].
  intros j Hj Hne. unfold inode_at. destruct (decide (IBLOCK j x = IBLOCK i x)) as [E|E]; [|by rewrite put_block_ne].
  rewrite E, put_block_eq, Hv. cbn [mbind option_bind]. apply Hoth. rewrite !IBLOCK_eq in E by done. intros Em.
  pose proof (Z.mod_pos_bound j IPB ltac:(done)). pose proof (Z.mod_pos_bound i IPB ltac:(done)).
  apply Hne. rewrite (Z.div_mod j IPB), (Z.div_mod i IPB) by done. lia.
Qed.

(** Fields that the inode on disk can hold. *)
Definition fields_ok (y : inode) : Prop := short (i_type y) ∧ short (i_major y) ∧ short (i_minor y) ∧ short (i_nlink y).

Lemma dinode_of_ok N V y : sb_size x < 2 ^ 31 → ino_ok N ls nlog x V y → fields_ok y → dinode_ok (dinode_of y).
Proof.
  intros Hsz [I1 I2 I3 I4 I5 I6 I7 I8 I9 I10] (H1 & H2 & H3 & H4). split; try done; cbn.
  - assert (MAXFILE * BSIZE = 71680) by done. unfold word. lia.
  - apply Forall_lookup. intros i a Hi. pose proof (lookup_lt_Some _ _ _ Hi) as Hlt. unfold word.
    destruct (decide (a = 0)) as [->|Hz]; [lia|]. assert (datab N ls nlog x V a) as Ha; [|pose proof (db_pos _ _ _ _ _ _ Ha); lia].
    destruct (decide (i = 12)%nat) as [->|Hne].
    + assert (ind y = a) as <- by (unfold ind; change (Z.to_nat NDIRECT) with 12%nat; by rewrite Hi). by apply I7.
    + assert (fb V y (Z.of_nat i) = a) as <-; [|apply I6; [|done]].
      * unfold fb. rewrite (proj2 (Z.ltb_lt _ _)) by (unfold NDIRECT; lia). by rewrite Nat2Z.id, Hi.
      * assert (MAXFILE = 140) by done. lia.
Qed.

Lemma ioff_bound i : 0 ≤ i → (ioff i + dinode_size ≤ Z.to_nat BSIZE)%nat.
Proof. intros Hi. unfold ioff, dinode_size, BSIZE. pose proof (Z.mod_pos_bound i IPB ltac:(done)). change IPB with 8 in *. lia. Qed.

Lemma iupdate_txn ip r bl V y : fstate ip r bl V y → fields_ok y → room nlog bl 1 →
  ∃ r' d', let V' := put_block V (IBLOCK (i_inum y) x) d' in iupdate ip (with_res s r) = Ret tt (with_res s r') ∧
    fstate ip r' (record bl (IBLOCK (i_inum y) x)) V' y ∧ moved ip y r r' ∧
    inode_at V' (i_inum y) = Some (dinode_of y) ∧ ∀ j, 0 ≤ j < sb_ninodes x → j ≠ i_inum y → inode_at V' j = inode_at V j.
Proof.
  intros Hfs Hf Hroom. pose proof Hfs as [F1 F2 F3 F4]. pose proof (io_inum _ _ _ _ _ _ F4) as Hi. pose proof (io_inodes _ _ _ _ _ _ F4) as (Hg1 & Hg2 & Hg).
  destruct (Hg _ Hi) as (_ & Hhome & Hb). pose proof (dinode_of_ok _ V y (proj2 (bm_size _ _ _ _ _ _ F2)) F4 Hf) as Hok.
  pose proof (length_encode_dinode _ Hok) as Hlen. pose proof (ioff_bound (i_inum y) (proj1 Hi)) as Hio.
  destruct (txn_update Hdisk Hsolo ls nlog [] r bl V _ (fun d => put_bytes d (ioff (i_inum y)) (encode_dinode (dinode_of y))) F1 Hhome)
    as (b & d & d' & r1 & r2 & r3 & r4 & E1 & _ & E3 & E4 & E5 & Hv & Hd & Hput & T4 & S1 & S4).
  { intros e z []%not_elem_of_nil. }
  { cbn; lia. }
  { done. }
  { intros d _ Hd. eexists. rewrite put_bytes_Some by (rewrite Hlen; lia). split; [done|]. rewrite !length_app, length_take, length_drop. lia. }
  exists r4, d'. cbn zeta. pose proof (inode_at_put V (i_inum y) _ d d' (conj Hg1 Hg2) Hi Hok Hv Hput) as Hat.
  split; [|split; [|split; [apply moved_cache; [done|apply S4]|exact Hat]]].
  - unfold iupdate. rewrite (bind_ret _ _ _ _ _ (inode_get_ret ip y r F3)), (io_dev _ _ _ _ _ _ F4).
    rewrite (bind_ret _ _ _ x (with_res s r)) by (unfold rget, gets; cbn; by rewrite (bm_sb _ _ _ _ _ _ F2)).
    rewrite (bind_ret _ _ _ _ _ E1), (bind_ret _ _ _ y (with_res s r1)) by (apply inode_get_ret; by rewrite (cache_only_inodes _ _ (st_only _ _ _ S1))).
    by rewrite (bind_ret _ _ _ _ _ E3), (bind_ret _ _ _ _ _ E4).
  - eapply fstate_put; [done|done|apply S4|done|]. destruct (inode_foreign ip r bl V y _ Hfs Hi) as [(_ & H & _) _]. by left.
Qed.

(** ** [writei] *)

Record written (ip : nat) (r : kres) (V : blocks) (y : inode) (off : Z) (l : list Z) (r' : kres) (bl' : list Z) (V' : blocks) (y' : inode) : Prop := {
  wn_state : fstate ip r' bl' V' y';
  wn_moved : moved ip y' r r';
  wn_fields : y' = y <| i_addrs := i_addrs y' |> <| i_size := Z.max (i_size y) (off + Z.of_nat (length l)) |>;
  wn_bytes : ∀ k, 0 ≤ k < i_size y' → file_byte V' y' k =
    if decide (off ≤ k < off + Z.of_nat (length l)) then l !! Z.to_nat (k - off) else file_byte V y k;
  wn_inode : inode_at V (i_inum y) = Some (dinode_of y) → inode_at V' (i_inum y) = Some (dinode_of y');
  wn_inodes : ∀ j, 0 ≤ j < sb_ninodes x → j ≠ i_inum y → inode_at V' j = inode_at V j;
  wn_foreign : ∀ n, foreign x V y n → n ≠ IBLOCK (i_inum y) x → V' n = V n }.

(** The bytes of the file after the loop, up to its new end. *)
Lemma wrote_bytes N V y off l V' y' k : ino_ok N ls nlog x V y → wrote x V y off l V' y' → 0 ≤ off ≤ i_size y → off + Z.of_nat (length l) ≤ MAXFILE * BSIZE →
  0 ≤ k < Z.max (i_size y) (off + Z.of_nat (length l)) →
  fb V' y' (k / BSIZE) ≠ 0 ∧ file_byte V' y' k = if decide (off ≤ k < off + Z.of_nat (length l)) then l !! Z.to_nat (k - off) else file_byte V y k.
Proof.
  intros Hok [W1 W2 W3 W4 W5 W6] Hoff Hmax Hk. pose proof (io_size _ _ _ _ _ _ Hok) as Hsz. destruct (decide _) as [Hin|Hout]; [by destruct (W2 k Hin)|].
  assert (fb V y (k / BSIZE) ≠ 0) as Hz.
  { apply (io_below _ _ _ _ _ _ Hok); [apply Z.div_pos; [lia|done]|]. unfold BSIZE in *. pose proof (Z.div_mod k 512 ltac:(lia)). pose proof (Z.mod_pos_bound k 512 ltac:(lia)). lia. }
  split; [|by apply W3; [lia| |]]. apply W4; [|done]. apply block_index. lia.
Qed.

Lemma ino_ok_size N V y e : ino_ok N ls nlog x V y → 0 ≤ e ≤ MAXFILE * BSIZE → (∀ k, 0 ≤ k < e → fb V y (k / BSIZE) ≠ 0) →
  ino_ok N ls nlog x V (y <| i_size := e |>).
Proof.
  intros [I1 I2 I3 I4 I5 I6 I7 I8 I9 I10] He Hb. split; try done. intros bn H0 Hlt. cbn in Hlt.
  pose proof (Hb (bn * BSIZE) ltac:(unfold BSIZE in *; lia)) as H. rewrite Z.div_mul in H by done. exact H.
Qed.

(** The end of [writei], when the file has grown. *)
Lemma grow_txn ip r bl V y e : fstate ip r bl V y → fields_ok y → room nlog bl 1 → 0 ≤ e ≤ MAXFILE * BSIZE → (∀ k, 0 ≤ k < e → fb V y (k / BSIZE) ≠ 0) →
  ∃ r' bl' d', let V' := put_block V (IBLOCK (i_inum y) x) d' in let y' := y <| i_size := e |> in
    (inode_set ip (fun x => x <| i_size := e |>) ;;; iupdate ip) (with_res s r) = Ret tt (with_res s r') ∧
    fstate ip r' bl' V' y' ∧ moved ip y' r r' ∧ inode_at V' (i_inum y) = Some (dinode_of y') ∧
    ∀ j, 0 ≤ j < sb_ninodes x → j ≠ i_inum y → inode_at V' j = inode_at V j.
Proof.
  intros [F1 F2 F3 F4] Hf Hroom He Hb. set (r1 := set_inodes (<[ip := y <| i_size := e |>]> (inodes r)) r).
  rewrite (bind_ret _ _ _ tt (with_res s r1)).
  2:{ unfold inode_set, rmod, modify, r1, set_inodes, with_res. cbn. by rewrite (alter_as_insert _ _ _ _ F3). }
  assert (fstate ip r1 bl V (y <| i_size := e |>)) as Hfs1.
  { split; [by apply txn_inodes|eapply bitmap_mono; [exact F2|done|done|done]|apply list_lookup_insert_eq; by eapply lookup_lt_Some|by apply ino_ok_size]. }
  destruct (iupdate_txn ip r1 bl V _ Hfs1 Hf Hroom) as (r2 & d' & E & Hfs2 & Hm & Hi & Hj). exists r2, (record bl (IBLOCK (i_inum y) x)), d'. cbn zeta.
  split_and!; [done|done| |done|done]. eapply moved_trans; [|exact Hm]. unfold moved, r1, set_inodes. by destruct r.
Qed.

Lemma writei_txn ip src off r bl V y : let n := Z.of_nat (length src) in fstate ip r bl V y → fields_ok y → i_type y ≠ T_DEV →
  0 ≤ off ≤ i_size y → off + n ≤ MAXFILE * BSIZE → room nlog bl (6 * rounds off n + 1) → rounds off n ≤ spare x V y →
  ∃ r' bl' V' y', writei ip src off (with_res s r) = Ret n (with_res s r') ∧ written ip r V y off src r' bl' V' y'.
Proof.
  intros n Hfs Hf Hty Hoff Hmax Hroom Hsp. pose proof Hfs as [F1 F2 F3 F4]. pose proof (io_size _ _ _ _ _ _ F4) as Hsz.
  assert (MAXFILE * BSIZE = 71680) as HM by done. assert (u32 (off + n) = off + n) as Hu by (apply Z.mod_small; unfold n; lia).
  unfold writei. fold n. rewrite (bind_ret _ _ _ _ _ (inode_get_ret ip y r F3)), (proj2 (Z.eqb_neq _ _) Hty), Hu.
  rewrite (proj2 (Z.ltb_ge (i_size y) off)), (proj2 (Z.ltb_ge (off + n) off)), (proj2 (Z.ltb_ge (MAXFILE * BSIZE) (off + n))) by (unfold n; lia). cbn [orb].
  destruct (writei_loop_txn (length src) ip src off r bl V y Hfs) as (r1 & bl1 & V1 & y1 & E1 & [W1 W2 W3 W4]); [lia|done|done|done|done|]. fold n in W4, E1.
  rewrite (bind_ret _ _ _ _ _ E1), (bind_ret _ _ _ _ _ (inode_get_ret ip y1 r1 (fs_inode _ _ _ _ _ _ _ _ W1))).
  pose proof (rounds_nonneg off n (proj1 Hoff)) as Hrn. pose proof (wr_inode _ _ _ _ _ _ _ W2) as Ey. assert (i_size y1 = i_size y ∧ i_inum y1 = i_inum y) as [Es Ei] by (by rewrite Ey).
  assert (∀ k, 0 ≤ k < Z.max (i_size y) (off + n) → _) as Hby by (intros k Hk; exact (wrote_bytes _ V y off src V1 y1 k F4 W2 Hoff Hmax Hk)).
  assert (∀ j, 0 ≤ j < sb_ninodes x → inode_at V1 j = inode_at V j) as Hin.
  { intros j Hj. unfold inode_at. by destruct (wr_foreign _ _ _ _ _ _ _ W2 _ (inode_foreign ip r bl V y j Hfs Hj)) as [-> _]. }
  pose proof (io_inum _ _ _ _ _ _ F4) as Hnum. rewrite Es. destruct (Z.ltb_spec (i_size y) (off + n)) as [Hg|Hg].
  - rewrite (proj2 (Z.ltb_lt 0 n)) by lia. cbn [andb].
    destruct (grow_txn ip r1 bl1 V1 y1 (off + n) W1) as (r2 & bl2 & d2 & E2 & Hfs2 & Hm2 & Hi2 & Hj2); [by rewrite Ey|unfold room in *; lia|unfold n in *; lia|intros k Hk; apply Hby; lia|].
    rewrite (bind_ret _ _ _ _ _ E2). exists r2, bl2, (put_block V1 (IBLOCK (i_inum y1) x) d2), (y1 <| i_size := off + n |>). split; [done|].
    destruct (inode_foreign ip r1 bl1 V1 y1 (i_inum y1) W1 ltac:(by rewrite Ei)) as [(_ & Hni & _) Hnf].
    assert (∀ k, 0 ≤ k < off + n → file_byte (put_block V1 (IBLOCK (i_inum y1) x) d2) (y1 <| i_size := off + n |>) k = file_byte V1 y1 k) as Hsame.
    { intros k Hk. pose proof (proj1 (Hby k ltac:(lia))) as Hz. pose proof (block_index k ltac:(lia)) as Hbk. unfold file_byte.
      change (file_block ?W (y1 <| i_size := off + n |>) ?b) with (file_block W y1 b). rewrite !fb_file_block by (rewrite ?fb_put by (by left); done).
      rewrite fb_put by (by left). cbn [mbind option_bind]. rewrite put_block_ne; [done|]. by apply Hnf. }
    split; [done|by eapply moved_trans| | | | |].
    + rewrite Z.max_r by lia. rewrite Ey. by destruct y.
    + cbn. intros k Hk. rewrite Hsame by done. apply Hby. lia.
    + intros _. by rewrite <- Ei.
    + intros j Hj Hne. rewrite Hj2; [by apply Hin|done|congruence].
    + intros m Hm Hne. rewrite put_block_ne by congruence. by apply (wr_foreign _ _ _ _ _ _ _ W2).
  - rewrite andb_false_r. exists r1, bl1, V1, y1. split; [done|]. assert (y1 = y) as ->.
    { apply (wr_inside _ _ _ _ _ _ _ W2). intros k Hk. apply (io_below _ _ _ _ _ _ F4); [apply Z.div_pos; [lia|done]|].
      fold n in Hk. unfold BSIZE in *. pose proof (Z.div_mod k 512 ltac:(lia)). pose proof (Z.mod_pos_bound k 512 ltac:(lia)). lia. }
    split; [done|done| | | | |].
    + fold n. rewrite Z.max_l by lia. by destruct y.
    + intros k Hk. apply Hby. lia.
    + intros <-. by apply Hin.
    + intros j Hj _. by apply Hin.
    + intros m Hm _. by apply (wr_foreign _ _ _ _ _ _ _ W2).
Qed.

(** ** Reading what was written *)

Lemma fstate_idle ip r bl V y : fstate ip r bl V y → idle (pid q) r.
Proof.
  intros [[(l & T) _ _] _ _ _]. split; [exists l; apply T|]. exists bl. split; [apply (tx_pinned _ _ _ _ _ _ _ T)|].
  pose proof (tx_cap _ _ _ _ _ _ _ T) as [H1 H2]. unfold LOGSIZE, MAXOPBLOCKS, NBUF in *. lia.
Qed.

Lemma fstate_block ip r bl V y bn : fstate ip r bl V y → 0 ≤ bn < MAXFILE → fb V y bn ≠ 0 →
  file_block (view r) y bn = Some (fb V y bn) ∧ block_in r (fb V y bn) ∧ view r (fb V y bn) = V (fb V y bn) ∧
  (NDIRECT ≤ bn → i_addrs y !! Z.to_nat NDIRECT = Some (ind y) ∧ block_in r (ind y)).
Proof.
  intros [T _ _ I] Hbn Hz. pose proof (io_blocks _ _ _ _ _ _ I _ Hbn Hz) as D.
  assert (∀ a, datab (length (memdisk r)) ls nlog x V a → block_in r a) as Hin.
  { intros a Ha. split; [apply (db_pos _ _ _ _ _ _ Ha)|apply (inside_range ls nlog r a), (db_home _ _ _ _ _ _ Ha)]. }
  pose proof (Hin _ D) as [Hpos _]. pose proof (tn_view _ _ _ _ _ _ T (fb V y bn) ltac:(lia)) as Hv.
  destruct (lookup_lt_is_Some_2 (i_addrs y) (Z.to_nat NDIRECT)) as [a Ha]; [rewrite (io_addrs _ _ _ _ _ _ I); unfold NDIRECT; lia|].
  assert (ind y = a) as Hi by (unfold ind; by rewrite Ha). split_and!; [|by apply Hin|done|].
  - rewrite <- fb_file_block by done. unfold file_block. destruct (bn <? NDIRECT) eqn:E; [done|]. rewrite Ha. cbn [mbind option_bind].
    rewrite (tn_view _ _ _ _ _ _ T); [done|]. rewrite <- Hi. destruct (decide (ind y = 0)); [lia|]. pose proof (db_pos _ _ _ _ _ _ (io_ind _ _ _ _ _ _ I ltac:(done))). lia.
  - intros Hd. split; [by rewrite Hi|]. apply Hin, (io_ind _ _ _ _ _ _ I). intros E. apply Hz. unfold fb. by rewrite (proj2 (Z.ltb_ge _ _) Hd), E.
Qed.

Lemma fstate_mapped ip r bl V y : fstate ip r bl V y → mapped r y.
Proof.
  intros Hfs. pose proof Hfs as [_ _ _ I]. pose proof (io_size _ _ _ _ _ _ I) as Hsz.
  assert (∀ bn, 0 ≤ bn → bn * BSIZE < i_size y → 0 ≤ bn < MAXFILE) as Hr by (intros bn; unfold BSIZE in *; lia).
  split; [apply (io_dev _ _ _ _ _ _ I)|done| |].
  - intros bn H0 Hlt. destruct (fstate_block ip r bl V y bn Hfs (Hr _ H0 Hlt) (io_below _ _ _ _ _ _ I _ H0 Hlt)) as (H1 & H2 & _). eauto.
  - intros Hlt. destruct (fstate_block ip r bl V y NDIRECT Hfs) as (_ & _ & _ & H); [by apply Hr|by apply (io_below _ _ _ _ _ _ I)|]. exists (ind y). by apply H.
Qed.

Lemma fstate_byte ip r bl V y k : fstate ip r bl V y → 0 ≤ k < i_size y → file_byte (view r) y k = file_byte V y k.
Proof.
  intros Hfs Hk. pose proof Hfs as [_ _ _ I]. pose proof (io_size _ _ _ _ _ _ I) as Hsz.
  assert (fb V y (k / BSIZE) ≠ 0) as Hz.
  { apply (io_below _ _ _ _ _ _ I); [apply Z.div_pos; [lia|done]|]. unfold BSIZE in *. pose proof (Z.div_mod k 512 ltac:(lia)). pose proof (Z.mod_pos_bound k 512 ltac:(lia)). lia. }
  destruct (fstate_block ip r bl V y (k / BSIZE) Hfs (block_index k ltac:(lia)) Hz) as (E & _ & Hv & _).
  unfold file_byte. by rewrite E, fb_file_block by done; cbn [mbind option_bind]; rewrite Hv.
Qed.

(** C20. [writei] into a file, inside a transaction with room for the blocks it
    records and with enough free blocks, returns the number of bytes written;
    the bytes at [off] are the given ones and all others of the file are as
    before, the file ends at the larger of its old end and the end of the
    write, the inode on disk follows the one in memory, and neither another
    inode nor any block outside the file changes.  It returns -1 and changes
    nothing when [off] lies beyond the end of the file, when [off + n] wraps
    around or when the file would become too large. *)
Theorem writei_correct ip src off r bl V y : let n := Z.of_nat (length src) in fstate ip r bl V y → fields_ok y → i_type y ≠ T_DEV →
  0 ≤ off < 2 ^ 32 → n < 2 ^ 32 →
  (i_size y < off ∨ MAXFILE * BSIZE < off + n → writei ip src off (with_res s r) = Ret (-1) (with_res s r)) ∧
  (off ≤ i_size y → off + n ≤ MAXFILE * BSIZE → room nlog bl (6 * rounds off n + 1) → rounds off n ≤ spare x V y →
   ∃ r' bl' V' y', writei ip src off (with_res s r) = Ret n (with_res s r') ∧ written ip r V y off src r' bl' V' y').
Proof.
  intros n Hfs Hf Hty Hoff Hn. split; [|intros; apply (writei_txn ip src off r bl V y); (done || lia)]. intros Herr. unfold writei. fold n.
  rewrite (bind_ret _ _ _ _ _ (inode_get_ret ip y r (fs_inode _ _ _ _ _ _ _ _ Hfs))), (proj2 (Z.eqb_neq _ _) Hty).
  assert (MAXFILE * BSIZE = 71680) as HM by done. destruct (Z.ltb_spec (i_size y) off) as [H1|H1]; [done|]. cbn [orb].
  destruct (Z.lt_ge_cases (off + n) (2 ^ 32)) as [H2|H2].
  - assert (u32 (off + n) = off + n) as -> by (apply Z.mod_small; unfold n in *; lia). destruct (off + n <? off); [done|].
    by rewrite (proj2 (Z.ltb_lt (MAXFILE * BSIZE) _)) by lia.
  - assert (u32 (off + n) = off + n - 2 ^ 32) as ->.
    { unfold u32. replace (off + n) with (off + n - 2 ^ 32 + 1 * 2 ^ 32) at 1 by lia. rewrite Z.mod_add, Z.mod_small by lia. done. }
    by rewrite (proj2 (Z.ltb_lt _ off)) by lia.
Qed.

(** What [writei] wrote, [readi] at the same place returns. *)
Theorem writei_readi ip src off r bl V y : let n := Z.of_nat (length src) in fstate ip r bl V y → fields_ok y → i_type y ≠ T_DEV →
  0 ≤ off ≤ i_size y → off + n ≤ MAXFILE * BSIZE → room nlog bl (6 * rounds off n + 1) → rounds off n ≤ spare x V y →
  ∃ r1 r2, writei ip src off (with_res s r) = Ret n (with_res s r1) ∧ readi ip off n (with_res s r1) = Ret (n, src) (with_res s r2).
Proof.
  intros n Hfs Hf Hty Hoff Hmax Hroom Hsp. destruct (writei_txn ip src off r bl V y Hfs Hf Hty Hoff Hmax Hroom Hsp) as (r1 & bl1 & V1 & y1 & E1 & [W1 W2 W3 W4 W5 W6 W7]).
  pose proof (io_size _ _ _ _ _ _ (fs_ok _ _ _ _ _ _ _ _ W1)) as Hsz. assert (MAXFILE * BSIZE = 71680) as HM by done.
  assert (i_size y1 = Z.max (i_size y) (off + n) ∧ i_type y1 = i_type y) as [Hs1 Ht1] by (by rewrite W3).
  destruct (readi_solo Hdisk Hsolo ip y1 off n r1 (fstate_idle _ _ _ _ _ W1) (fs_inode _ _ _ _ _ _ _ _ W1)) as [_ Hr];
    [by rewrite Ht1|by eapply fstate_mapped|lia|unfold n in *; lia|]. destruct Hr as (l & r2 & E2 & Hl & _); [lia|lia|].
  rewrite Hs1, Z.min_l in E2, Hl by lia. exists r1, r2. split; [done|]. rewrite E2. do 2 f_equal.
  unfold file_bytes in Hl. apply mapM_Some in Hl. pose proof (Forall2_length _ _ _ Hl) as Hlen. rewrite length_seq in Hlen.
  apply list_eq_same_length with (n := length src); [done|unfold n in Hlen; lia|]. intros i a b Hi Ha Hb.
  destruct (Forall2_lookup_r _ _ _ _ _ Hl Ha) as (j & Hj & Hb'). apply lookup_seq in Hj as [-> _].
  rewrite (fstate_byte _ _ _ _ _ _ W1), W4, decide_True in Hb' by (fold n; lia).
  replace (Z.to_nat (off + Z.of_nat (0 + i) - off)) with i in Hb' by lia. congruence.
Qed.
End writei.
