(* ===== verification/Icache.v ===== *)
(** * The inode cache (fs.c: iget, idup, ilock, iunlock, iput)

    Between operations every slot in use holds an inode of its own, and a
    valid one agrees with the disk.  The routines keep it so, and the number of
    references to an inode goes up and down by one with [iget] and [iput]. *)

From S2P Require Import Prelude Machine Spinlock CString ProcTable Proc Lifecycle Ready Aging.
From S2P Require Import ProcLemmas Scheduler Reach Blocking Kstate Sleeplock Solo.
From S2P Require Import Devices Disk Bio Cache Layout Log Crash Inode Console Fs Content Txn Alloc Bmap Writei.

(** ** Counting references *)

Definition ref_to (n : Z) (y : inode) : Z := if i_inum y =? n then i_ref y else 0.
(** The references to inode number [n]. *)
Fixpoint refs (l : list inode) (n : Z) : Z := match l with [] => 0 | y :: l' => ref_to n y + refs l' n end.
Definition is_free_slot (y : inode) : Z := if i_ref y =? 0 then 1 else 0.
(** The number of slots that are free. *)
Fixpoint frees (l : list inode) : Z := match l with [] => 0 | y :: l' => is_free_slot y + frees l' end.

Lemma refs_insert l i y y' n : l !! i = Some y → refs (<[i := y']> l) n = refs l n - ref_to n y + ref_to n y'.
Proof. revert i. induction l as [|z l IH]; intros [|i] Hi; simplify_eq/=; [lia|]. rewrite (IH i Hi). lia. Qed.
Lemma frees_insert l i y y' : l !! i = Some y → frees (<[i := y']> l) = frees l - is_free_slot y + is_free_slot y'.
Proof. revert i. induction l as [|z l IH]; intros [|i] Hi; simplify_eq/=; [lia|]. rewrite (IH i Hi). lia. Qed.

(** The search of [iget]. *)
Lemma iget_scan_spec l : ∀ i dev n e,
  match iget_scan l i dev n e with
  | inl j => ∃ k y, j = (i + k)%nat ∧ l !! k = Some y ∧ 0 < i_ref y ∧ i_dev y = dev ∧ i_inum y = n
  | inr o => (∀ k y, l !! k = Some y → ¬ (0 < i_ref y ∧ i_dev y = dev ∧ i_inum y = n)) ∧
      (o = e ∨ e = None ∧ ∃ k y, o = Some (i + k)%nat ∧ l !! k = Some y ∧ i_ref y = 0) ∧
      (o = None → ∀ k y, l !! k = Some y → i_ref y ≠ 0)
  end.
Proof.
  induction l as [|x l IH]; intros i dev n e; cbn [iget_scan]; [split; [done|split; [by left|done]]|].
  destruct ((0 <? i_ref x) && (i_dev x =? dev) && (i_inum x =? n)) eqn:E.
  - exists 0%nat, x. rewrite !andb_true_iff, Z.ltb_lt, !Z.eqb_eq in E. destruct E as [[? ?] ?]. split; [lia|]. done.
  - assert (¬ (0 < i_ref x ∧ i_dev x = dev ∧ i_inum x = n)) as Hx.
    { intros (H1 & H2 & H3). rewrite (proj2 (Z.ltb_lt _ _) H1), (proj2 (Z.eqb_eq _ _) H2), (proj2 (Z.eqb_eq _ _) H3) in E. done. }
    set (e' := match e with None => if i_ref x =? 0 then Some i else None | Some _ => e end). specialize (IH (S i) dev n e'). destruct (iget_scan l (S i) dev n e') as [j|o].
    + destruct IH as (k & y & -> & H). exists (S k), y. split; [lia|done].
    + destruct IH as (H1 & H2 & H3). split; [intros [|k] y Hy; simplify_eq/=; [done|by apply (H1 k)]|]. split.
      * destruct H2 as [->|(He & k & y & -> & Hy & H0)].
        -- unfold e'. destruct e; [by left|]. destruct (Z.eqb_spec (i_ref x) 0); [right; split; [done|]; exists 0%nat, x; split; [f_equal; lia|done]|by left].
        -- destruct e as [a|]; [done|]. right. split; [done|]. exists (S k), y. split; [f_equal; lia|done].
      * intros ->. intros [|k] y Hy; simplify_eq/=; [|by apply (H3 eq_refl k)]. destruct H2 as [H2|(_ & k & y' & H2 & _)]; [|done]. unfold e' in H2. destruct e; [done|]. by destruct (Z.eqb_spec (i_ref y) 0).
Qed.

(** ** The invariant *)

(** [V] shows the blocks, [held] is the inode that the process has locked. *)
Record icache (me : Z) (V : blocks) (N : nat) (x : superblock) (held : option nat) (r : kres) : Prop := {
  ic_idle : idle me r;
  ic_view : ∀ n, view r n = V n;
  ic_disk : length (memdisk r) = N;
  ic_sb : sb r = x;
  ic_len : length (inodes r) = NINODE;
  ic_slot : ∀ i y, inodes r !! i = Some y → 0 ≤ i_ref y ∧ (0 < i_ref y → i_dev y = 1 ∧ (i_valid y ≠ 0 → inode_at x V (i_inum y) = Some (dinode_of y)));
  ic_uniq : ∀ i j y z, inodes r !! i = Some y → inodes r !! j = Some z → 0 < i_ref y → 0 < i_ref z → i_inum y = i_inum z → i = j;
  ic_locks : ∀ i, (i < NINODE)%nat → ∃ k, slocks r !! inode_lock i = Some k ∧
    if decide (held = Some i) then sl_locked k = 1 ∧ sl_pid k = me else sl_locked k = 0 }.

Lemma inode_not_buf i : ∀ b, (b < NBUF)%nat → inode_lock i ≠ buf_lock b.
Proof. intros b Hb. unfold inode_lock, buf_lock, NBUF in *. lia. Qed.
Lemma inode_lock_inj i j : inode_lock i = inode_lock j → i = j.
Proof. unfold inode_lock. lia. Qed.

(** Changes outside the buffer cache. *)
Lemma idle_frame me r r' : idle me r → bufs r' = bufs r → memdisk r' = memdisk r → (∀ b, (b < NBUF)%nat → slocks r' !! buf_lock b = slocks r !! buf_lock b) → idle me r'.
Proof.
  intros [[l [C1 C2 C3 C4 C5 C6 C7 C8]] (ns & Hns & Hlen)] Hb Hd Hs. split.
  - exists l. split; rewrite ?Hb, ?Hd; try done. intros b Hlt. rewrite Hs by done. by apply C7.
  - exists ns. split; [|done]. intros m (b & y & (H1 & H2 & H3 & H4) & H5). rewrite Hb in H2. apply Hns. by exists b, y.
Qed.
Lemma view_frame r r' n : bufs r' = bufs r → memdisk r' = memdisk r → view r' n = view r n.
Proof. intros Hb Hd. unfold view. by rewrite Hb, Hd. Qed.

(** A change of one slot. *)
Lemma icache_set me V N x held r ip y y' : icache me V N x held r → inodes r !! ip = Some y →
  0 ≤ i_ref y' → (0 < i_ref y' → i_dev y' = 1 ∧ (i_valid y' ≠ 0 → inode_at x V (i_inum y') = Some (dinode_of y'))) →
  (0 < i_ref y' → ∀ j z, j ≠ ip → inodes r !! j = Some z → 0 < i_ref z → i_inum z ≠ i_inum y') →
  icache me V N x held (r <| inodes ::= <[ip := y']> |>).
Proof.
  intros [I1 I2 I3 I4 I5 I6 I7 I8] Hy Hr Hok Hun. assert (∀ j z, <[ip := y']> (inodes r) !! j = Some z → j = ip ∧ z = y' ∨ j ≠ ip ∧ inodes r !! j = Some z) as Hl.
  { intros j z Hj. apply list_lookup_insert_Some in Hj as [(-> & -> & _)|[? ?]]; auto. }
  split; [by apply (idle_frame me r)|intros n; rewrite <- I2; by apply view_frame|done|done|by rewrite <- I5; apply length_insert| | |done].
  - intros j z Hj. apply Hl in Hj as [[-> ->]|[_ Hj]]; [done|by apply (I6 j)].
  - intros j k z w Hj Hk Hz Hw Heq. apply Hl in Hj as [[-> ->]|[Hnj Hj]], Hk as [[-> ->]|[Hnk Hk]]; [done| | |by eapply I7].
    + exfalso. by eapply (Hun Hz k w).
    + exfalso. by eapply (Hun Hw j z).
Qed.

Section routines.
Context {FU : Fuel} {DK : Disk} (Hdisk : in_memory DK).
Context {s : kstate} {c p : nat} {u : cpu} {q : proc} (Hsolo : solo s c p u q).
Context {V : blocks} {N : nat} {x : superblock}.
#[local] Notation cached := (icache (pid q) V N x).

Lemma icache_hold r ip : cached None r → (ip < NINODE)%nat → cached (Some ip) (r <| slocks ::= alter (hold (pid q)) (inode_lock ip) |>).
Proof.
  intros [I1 I2 I3 I4 I5 I6 I7 I8] Hip. split; try done.
  - eapply idle_frame; [exact I1|done|done|]. intros b Hb. apply lookup_alter_ne. by apply inode_not_buf.
  - intros i Hi. destruct (I8 i Hi) as (k & Hk & H0). change (slocks (r <| slocks ::= alter (hold (pid q)) (inode_lock ip) |>)) with (alter (hold (pid q)) (inode_lock ip) (slocks r)).
    destruct (decide (Some ip = Some i)) as [[= ->]|Hne].
    + exists (hold (pid q) k). by rewrite lookup_alter_eq, Hk.
    + exists k. rewrite lookup_alter_ne by (intros E%inode_lock_inj; congruence). by rewrite decide_False in H0 by done.
Qed.
Lemma icache_drop r ip : cached (Some ip) r → cached None (r <| slocks ::= alter drop_sl (inode_lock ip) |>).
Proof.
  intros [I1 I2 I3 I4 I5 I6 I7 I8]. split; try done.
  - eapply idle_frame; [exact I1|done|done|]. intros b Hb. apply lookup_alter_ne. by apply inode_not_buf.
  - intros i Hi. destruct (I8 i Hi) as (k & Hk & H0). change (slocks (r <| slocks ::= alter drop_sl (inode_lock ip) |>)) with (alter drop_sl (inode_lock ip) (slocks r)).
    destruct (decide (ip = i)) as [->|Hne].
    + exists (drop_sl k). rewrite decide_False by done. by rewrite lookup_alter_eq, Hk.
    + exists k. rewrite decide_False by done. rewrite lookup_alter_ne by (intros E%inode_lock_inj; congruence). by rewrite decide_False in H0 by congruence.
Qed.

Lemma klock_slot ip : (ip < NINODE)%nat → klock (sl_spin (inode_lock ip)) ∧ sl_spin (inode_lock ip) ≠ ptable_lock.
Proof. intros H. split; [unfold klock; do 9 right; by exists ip|]. unfold sl_spin, inode_lock, ptable_lock. lia. Qed.
Lemma klock_icache : klock icache_lock.
Proof. unfold klock. tauto. Qed.

Lemma slot_bound r held ip y : cached held r → inodes r !! ip = Some y → (ip < NINODE)%nat.
Proof. intros H Hy. rewrite <- (ic_len _ _ _ _ _ _ H). by eapply lookup_lt_Some. Qed.

Lemma inode_set_alter ip f y r : inodes r !! ip = Some y → r <| inodes ::= alter f ip |> = r <| inodes ::= <[ip := f y]> |>.
Proof. intros Hy. unfold update. cbn. f_equal. apply list_eq. intros j. destruct (decide (j = ip)) as [->|]; [rewrite list_lookup_alter_eq, list_lookup_insert_eq, Hy by (by eapply lookup_lt_Some); done|by rewrite list_lookup_alter_ne, list_lookup_insert_ne]. Qed.

(** Changing a slot under the lock of the cache. *)
Lemma icache_locked {A} f ip y (a : A) r : inodes r !! ip = Some y →
  (inode_set ip f ;;; unlock icache_lock ;;; ret a) (inside c icache_lock (with_res s r)) = Ret a (with_res s (r <| inodes ::= <[ip := f y]> |>)).
Proof.
  intros Hy. rewrite (bind_ret _ _ _ tt (inside c icache_lock (with_res s (r <| inodes ::= <[ip := f y]> |>)))); [by rewrite (bind_ret _ _ _ _ _ (unlock_solo Hsolo icache_lock _ klock_icache))|].
  by rewrite <- (inode_set_alter ip f y r Hy).
Qed.

(** [iget] gives a slot with the inode: one reference more. *)
Lemma iget_solo held n r : cached held r → 0 < frees (inodes r) →
  ∃ ip y y' r', iget 1 n (with_res s r) = Ret ip (with_res s r') ∧ r' = r <| inodes ::= <[ip := y']> |> ∧ cached held r' ∧ inodes r !! ip = Some y ∧
    i_inum y' = n ∧ 0 < i_ref y' ∧ (∀ m, refs (inodes r') m = refs (inodes r) m + if decide (m = n) then 1 else 0) ∧
    frees (inodes r') + is_free_slot y = frees (inodes r) ∧ i_ref y' = (if i_ref y =? 0 then 1 else i_ref y + 1) ∧
    (0 < i_ref y → y' = y <| i_ref ::= fun n => n + 1 |>).
Proof.
  intros H Hf. unfold iget. rewrite (bind_ret _ _ _ _ _ (lock_solo Hsolo icache_lock r klock_icache)).
  rewrite (bind_ret _ _ _ (iget_scan (inodes r) 0 1 n None) (inside c icache_lock (with_res s r))) by done.
  pose proof (iget_scan_spec (inodes r) 0 1 n None) as Hs. destruct (iget_scan (inodes r) 0 1 n None) as [ip|[ip|]].
  - destruct Hs as (k & y & Hk & Hy & Hr & Hd & Hn). replace k with ip in Hy by lia. set (y' := y <| i_ref ::= fun n => n + 1 |>). exists ip, y, y', (r <| inodes ::= <[ip := y']> |>).
    split; [by apply icache_locked|]. split; [done|]. assert (is_free_slot y = 0 ∧ is_free_slot y' = 0) as [E1 E2] by (unfold is_free_slot, y'; cbn; rewrite !(proj2 (Z.eqb_neq _ 0)); lia).
    split; [|split; [done|split; [done|split; [unfold y'; cbn; lia|split; [|split; [|split; [|done]]]]]]].
    + apply (icache_set _ _ _ _ _ _ ip y y' H Hy); [unfold y'; cbn; lia|intros _; by apply (ic_slot _ _ _ _ _ _ H ip y Hy)|].
      intros _ j z Hj Hz Hrz Heq. apply Hj. by eapply (ic_uniq _ _ _ _ _ _ H).
    + intros m. change (inodes (r <| inodes ::= <[ip := y']> |>)) with (<[ip := y']> (inodes r)). rewrite (refs_insert _ _ y y' m Hy). unfold ref_to, y'. cbn. rewrite Hn. destruct (Z.eqb_spec n m), (decide (m = n)); try lia; congruence.
    + change (inodes (r <| inodes ::= <[ip := y']> |>)) with (<[ip := y']> (inodes r)). rewrite (frees_insert _ _ y y' Hy). lia.
    + unfold y'. cbn. by rewrite (proj2 (Z.eqb_neq _ 0)) by lia.
  - destruct Hs as (Hno & [|(_ & k & y & [= Hk] & Hy & Hr)] & _); [done|]. replace k with ip in Hy by lia.
    set (y' := y <| i_dev := 1 |> <| i_inum := n |> <| i_ref := 1 |> <| i_valid := 0 |>). exists ip, y, y', (r <| inodes ::= <[ip := y']> |>).
    split; [exact (icache_locked (fun x => x <| i_dev := 1 |> <| i_inum := n |> <| i_ref := 1 |> <| i_valid := 0 |>) ip y ip r Hy)|]. split; [done|]. assert (is_free_slot y = 1 ∧ is_free_slot y' = 0) as [E1 E2] by (unfold is_free_slot, y'; cbn; by rewrite Hr).
    split; [|split; [done|split; [done|split; [unfold y'; cbn; lia|split; [|split; [|split; [|lia]]]]]]].
    + apply (icache_set _ _ _ _ _ _ ip y y' H Hy); [unfold y'; cbn; lia|by intros _|]. intros _ j z Hj Hz Hrz Heq. apply (Hno j z Hz). split; [done|]. split; [by apply (ic_slot _ _ _ _ _ _ H j z Hz)|done].
    + intros m. change (inodes (r <| inodes ::= <[ip := y']> |>)) with (<[ip := y']> (inodes r)). rewrite (refs_insert _ _ y y' m Hy). unfold ref_to, y'. cbn. rewrite Hr. destruct (Z.eqb_spec n m), (i_inum y =? m), (decide (m = n)); try lia; congruence.
    + change (inodes (r <| inodes ::= <[ip := y']> |>)) with (<[ip := y']> (inodes r)). rewrite (frees_insert _ _ y y' Hy). lia.
    + by rewrite Hr.
  - exfalso. destruct Hs as (_ & _ & Hs). specialize (Hs eq_refl). assert (frees (inodes r) = 0); [|lia]. clear - Hs. revert Hs. generalize (inodes r) as l. induction l as [|z l IH]; intros Hs; [done|]. cbn.
    rewrite IH by (intros k y; apply (Hs (S k))). unfold is_free_slot. by rewrite (proj2 (Z.eqb_neq _ 0)) by (by apply (Hs 0%nat)).
Qed.

(** Reading a block and changing a slot while the buffer is held. *)
Lemma read_slot held r ip y y' n : cached held r → 0 ≤ n < Z.of_nat N → inodes r !! ip = Some y →
  ∃ d b r1 r2, V n = Some d ∧ bread 1 n (with_res s r) = Ret b (with_res s r1) ∧ buf_data b (with_res s r1) = Ret d (with_res s r1) ∧ inodes r1 = inodes r ∧
    brelse b (with_res s (r1 <| inodes ::= <[ip := y']> |>)) = Ret tt (with_res s r2) ∧ same_blocks (r <| inodes ::= <[ip := y']> |>) r2 ∧ idle (pid q) r2.
Proof.
  intros H Hn Hy. pose proof (ic_idle _ _ _ _ _ _ H) as [[l Hok] (ns & Hns & Hlen)]. assert (available r) as Hav by (eapply available_count; [exact Hok|exact Hns|cbn; lia]).
  destruct (bread_solo Hdisk Hsolo Hok n) as (b & r1 & E1 & [B1 B2 B3 B4 B5 B6 B7 B8]); [intros ? ? []%not_elem_of_nil|by rewrite (ic_disk _ _ _ _ _ _ H)|by left|].
  destruct B3 as (z & (Hb & Hz & Hd1 & Hbn) & Hvz & Hcl). assert (inodes r1 = inodes r) as Hi by (rewrite B6; by destruct r). assert (memdisk r1 = memdisk r) as Hm by (rewrite B6; by destruct r).
  set (r1a := r1 <| inodes ::= <[ip := y']> |>). assert (cache_ok (pid q) r1a l [b]) as Hok1 by (destruct B1; by split). rewrite <- Hm in Hcl.
  destruct (brelse_solo Hsolo (r := r1a) [] b z Hok1) as (r2 & l2 & E2 & [L1 L2 L3 L4 L5 L6 L7]); [by left|done|done|set_solver|].
  assert (same_blocks (r <| inodes ::= <[ip := y']> |>) r2) as S2.
  { split; [|intros m; rewrite L4; exact (B5 m)| |intros a Ha; rewrite L7 by done; exact (B8 a Ha)].
    - intros m. rewrite L3. transitivity (view r1 m); [by apply view_frame|]. rewrite B4. by apply view_frame.
    - rewrite L5. unfold r1a. rewrite B6. by destruct r. }
  exists (bdata z), b, r1, r2. split; [by rewrite <- (ic_view _ _ _ _ _ _ H)|]. split; [done|]. split; [by apply buf_data_ret|]. split; [done|]. split; [done|]. split; [done|].
  eapply idle_same; [exact S2| |exact L1]. by eapply idle_frame; [apply (ic_idle _ _ _ _ _ _ H)| | |].
Qed.

Lemma icache_same held r r' : cached held r → same_blocks r r' → idle (pid q) r' → cached held r'.
Proof.
  intros [I1 I2 I3 I4 I5 I6 I7 I8] S Hi. pose proof (same_blocks_inodes _ _ S) as Ei. pose proof (same_blocks_disk _ _ S) as Ed. pose proof S as [S1 S2 S3 S4]. split; rewrite ?Ei; try done.
  - intros n. by rewrite S1.
  - by rewrite Ed.
  - rewrite S3, <- I4. by destruct r.
  - intros i Hlt. rewrite S4 by apply inode_not_buf. by apply I8.
Qed.

Lemma ilock_solo r ip y d : cached None r → inodes r !! ip = Some y → 1 ≤ i_ref y → inode_at x V (i_inum y) = Some d → d_type d ≠ 0 → 0 ≤ IBLOCK (i_inum y) x < Z.of_nat N →
  ∃ r' y', ilock ip (with_res s r) = Ret tt (with_res s r') ∧ cached (Some ip) r' ∧ inodes r' = <[ip := y']> (inodes r) ∧ dinode_of y' = d ∧
    i_ref y' = i_ref y ∧ i_inum y' = i_inum y ∧ i_valid y' ≠ 0 ∧ i_dev y' = 1.
Proof.
  intros H Hy Hr Hd Ht Hb. pose proof (slot_bound _ _ _ _ H Hy) as Hip. destruct (klock_slot ip Hip) as [Hk _]. destruct (ic_locks _ _ _ _ _ _ H ip Hip) as (k & Hk1 & Hk0). rewrite decide_False in Hk0 by done.
  destruct (ic_slot _ _ _ _ _ _ H ip y Hy) as [_ Hs]. destruct (Hs ltac:(lia)) as [Hdev Hval]. unfold ilock. rewrite (bind_ret _ _ _ _ _ (inode_get_ret ip y r Hy)), (proj2 (Z.ltb_ge _ _)) by lia.
  rewrite (bind_ret _ _ _ _ _ (acquiresleep_solo Hsolo _ r k Hk Hk1 Hk0)). set (r1 := r <| slocks ::= alter (hold (pid q)) (inode_lock ip) |>). pose proof (icache_hold r ip H Hip) as H1. fold r1 in H1.
  assert (inodes r1 !! ip = Some y) as Hy1 by done. rewrite (bind_ret _ _ _ _ _ (inode_get_ret ip y r1 Hy1)). destruct (Z.eqb_spec (i_valid y) 0) as [Hv|Hv].
  - rewrite (bind_ret _ _ _ x (with_res s r1)) by (unfold rget, gets; do 2 f_equal; apply (ic_sb _ _ _ _ _ _ H1)).
    set (y1 := y <| i_type := d_type d |> <| i_major := d_major d |> <| i_minor := d_minor d |> <| i_nlink := d_nlink d |> <| i_size := d_size d |> <| i_addrs := d_addrs d |>).
    destruct (read_slot (Some ip) r1 ip y y1 (IBLOCK (i_inum y) x) H1 Hb Hy1) as (dd & b & r2 & r3 & Ev & E1 & E2 & Ei & E3 & S3 & Hi3). rewrite Hdev. rewrite (bind_ret _ _ _ _ _ E1), (bind_ret _ _ _ _ _ E2).
    assert (decode_dinode dd (ioff (i_inum y)) = Some d) as Hdec by (unfold inode_at in Hd; rewrite Ev in Hd; exact Hd).
    rewrite (bind_ret _ _ _ d (with_res s r2)) by (unfold try_get; by rewrite Hdec).
    assert (inodes r2 !! ip = Some y) as Hy2 by (by rewrite Ei). rewrite (bind_ret _ _ _ tt (with_res s (r2 <| inodes ::= <[ip := y1]> |>))).
    2:{ unfold inode_set, rmod, modify. f_equal. unfold with_res. cbn. f_equal. exact (inode_set_alter ip _ y r2 Hy2). }
    rewrite (bind_ret _ _ _ _ _ E3). set (r1a := r1 <| inodes ::= <[ip := y1]> |>) in *. assert (inodes r3 = <[ip := y1]> (inodes r)) as Ei3 by (by rewrite (same_blocks_inodes _ _ S3)).
    assert (inodes r3 !! ip = Some y1) as Hy3 by (rewrite Ei3; apply list_lookup_insert_eq; by eapply lookup_lt_Some).
    set (y2 := y1 <| i_valid := 1 |>). set (r4 := r3 <| inodes ::= <[ip := y2]> |>). rewrite (bind_ret _ _ _ tt (with_res s r4)).
    2:{ unfold inode_set, rmod, modify. f_equal. unfold with_res. cbn. f_equal. exact (inode_set_alter ip _ y1 r3 Hy3). }
    assert (inodes r4 = <[ip := y2]> (inodes r)) as Ei4 by (change (inodes r4) with (<[ip := y2]> (inodes r3)); rewrite Ei3; apply list_insert_insert_eq).
    assert (inodes r4 !! ip = Some y2) as Hy4 by (rewrite Ei4; apply list_lookup_insert_eq; by eapply lookup_lt_Some). rewrite (bind_ret _ _ _ _ _ (inode_get_ret ip y2 r4 Hy4)).
    rewrite (proj2 (Z.eqb_neq (i_type y2) 0)) by done. exists r4, y2. split; [done|]. assert (dinode_of y2 = d) as Hdy by (by destruct d).
    assert (∀ j z, j ≠ ip → inodes r !! j = Some z → 0 < i_ref z → i_inum z ≠ i_inum y) as Hun by (intros j z Hj Hz Hrz Heq; apply Hj; eapply (ic_uniq _ _ _ _ _ _ H); [done|done|done|lia|done]).
    split; [|split; [done|split; [done|split; [done|split; [done|split; [done|done]]]]]].
    assert (cached (Some ip) r1a) as H1a.
    { apply (icache_set _ _ _ _ _ _ ip y y1 H1 Hy1); [cbn; lia|intros _; split; [done|intros Hv'; by cbn in Hv']|intros _; exact Hun]. }
    apply (icache_set _ _ _ _ _ _ ip y1 y2 (icache_same _ _ _ H1a S3 Hi3) Hy3); [cbn; lia|intros _; split; [done|intros _; by rewrite Hdy]|].
    intros _ j z Hj Hz. rewrite Ei3, list_lookup_insert_ne in Hz by done. by apply (Hun j z).
  - exists r1, y. split; [done|]. split; [done|]. split; [by rewrite list_insert_id|]. specialize (Hval Hv). rewrite Hd in Hval. injection Hval as ->. done.
Qed.

Lemma iunlock_solo r ip y : cached (Some ip) r → inodes r !! ip = Some y → 1 ≤ i_ref y →
  ∃ r', iunlock ip (with_res s r) = Ret tt (with_res s r') ∧ cached None r' ∧ inodes r' = inodes r.
Proof.
  intros H Hy Hr. pose proof (slot_bound _ _ _ _ H Hy) as Hip. destruct (klock_slot ip Hip) as [Hk Hne]. destruct (ic_locks _ _ _ _ _ _ H ip Hip) as (k & Hk1 & Hk0). rewrite decide_True in Hk0 by done. destruct Hk0 as [Hk0 Hkp].
  unfold iunlock. rewrite (bind_ret _ _ _ _ _ (holdingsleep_solo Hsolo _ r k Hk Hk1)), Hk0, Hkp, Z.eqb_refl. cbn [negb andb Z.eqb].
  rewrite (bind_ret _ _ _ _ _ (inode_get_ret ip y r Hy)), (proj2 (Z.ltb_ge _ _)) by lia. cbn [orb]. rewrite (releasesleep_solo Hsolo _ r Hk Hne). eexists. split; [done|]. split; [by apply icache_drop|done].
Qed.

(** A reference given back; the inode stays on the disk because it has a link. *)
Lemma iput_solo r ip y : cached None r → inodes r !! ip = Some y → 1 ≤ i_ref y → i_valid y = 0 ∨ i_nlink y ≠ 0 →
  ∃ r', iput ip (with_res s r) = Ret tt (with_res s r') ∧ cached None r' ∧ inodes r' = <[ip := y <| i_ref ::= fun n => n - 1 |>]> (inodes r).
Proof.
  intros H Hy Hr Hl. pose proof (slot_bound _ _ _ _ H Hy) as Hip. destruct (klock_slot ip Hip) as [Hk Hne]. destruct (ic_locks _ _ _ _ _ _ H ip Hip) as (k & Hk1 & Hk0). rewrite decide_False in Hk0 by done.
  unfold iput. rewrite (bind_ret _ _ _ _ _ (acquiresleep_solo Hsolo _ r k Hk Hk1 Hk0)). set (r1 := r <| slocks ::= alter (hold (pid q)) (inode_lock ip) |>). pose proof (icache_hold r ip H Hip) as H1. fold r1 in H1.
  rewrite (bind_ret _ _ _ _ _ (inode_get_ret ip y r1 Hy)). assert (negb (i_valid y =? 0) && (i_nlink y =? 0) = false) as -> by (destruct (Z.eqb_spec (i_valid y) 0), (Z.eqb_spec (i_nlink y) 0); naive_solver).
  rewrite (bind_ret _ _ _ tt (with_res s r1)) by done. rewrite (bind_ret _ _ _ _ _ (releasesleep_solo Hsolo _ r1 Hk Hne)). set (r2 := r1 <| slocks ::= alter drop_sl (inode_lock ip) |>). pose proof (icache_drop r1 ip H1) as H2. fold r2 in H2.
  rewrite (bind_ret _ _ _ _ _ (lock_solo Hsolo icache_lock r2 klock_icache)). set (y' := y <| i_ref ::= fun n => n - 1 |>). set (r3 := r2 <| inodes ::= <[ip := y']> |>).
  rewrite (bind_ret _ _ _ tt (inside c icache_lock (with_res s r3))).
  2:{ unfold inode_set, rmod, modify. f_equal. unfold inside, with_res. cbn. f_equal. exact (inode_set_alter ip _ y r2 Hy). }
  rewrite (unlock_solo Hsolo icache_lock r3 klock_icache). exists r3. split; [done|]. split; [|done]. destruct (ic_slot _ _ _ _ _ _ H ip y Hy) as [_ Hs].
  apply (icache_set _ _ _ _ _ _ ip y y' H2 Hy); [unfold y'; cbn; lia|intros _; apply Hs; lia|]. intros Hp j z Hj Hz Hrz Heq. apply Hj. eapply (ic_uniq _ _ _ _ _ _ H); [done|done|done|lia|done].
Qed.

Lemma iunlockput_solo r ip y : cached (Some ip) r → inodes r !! ip = Some y → 1 ≤ i_ref y → i_valid y = 0 ∨ i_nlink y ≠ 0 →
  ∃ r', iunlockput ip (with_res s r) = Ret tt (with_res s r') ∧ cached None r' ∧ inodes r' = <[ip := y <| i_ref ::= fun n => n - 1 |>]> (inodes r).
Proof.
  intros H Hy Hr Hl. destruct (iunlock_solo r ip y H Hy Hr) as (r1 & E1 & H1 & Ei). rewrite <- Ei in Hy. destruct (iput_solo r1 ip y H1 Hy Hr Hl) as (r2 & E2 & H2 & Ei2).
  exists r2. unfold iunlockput. rewrite (bind_ret _ _ _ _ _ E1). by rewrite Ei2, Ei.
Qed.

Lemma idup_solo held r ip y : cached held r → inodes r !! ip = Some y → 1 ≤ i_ref y →
  ∃ r', idup ip (with_res s r) = Ret ip (with_res s r') ∧ r' = r <| inodes ::= <[ip := y <| i_ref ::= fun n => n + 1 |>]> |> ∧ cached held r'.
Proof.
  intros H Hy Hr. set (y' := y <| i_ref ::= fun n => n + 1 |>). exists (r <| inodes ::= <[ip := y']> |>). split; [|split; [done|]].
  - unfold idup. rewrite (bind_ret _ _ _ _ _ (lock_solo Hsolo icache_lock r klock_icache)). exact (icache_locked (fun x => x <| i_ref ::= fun n => n + 1 |>) ip y ip r Hy).
  - destruct (ic_slot _ _ _ _ _ _ H ip y Hy) as [_ Hs]. apply (icache_set _ _ _ _ _ _ ip y y' H Hy); [unfold y'; cbn; lia|intros _; apply Hs; lia|].
    intros _ j z Hj Hz Hrz Heq. apply Hj. eapply (ic_uniq _ _ _ _ _ _ H); [done|done|done|lia|done].
Qed.
End routines.
