(* ===== verification/Namei.v ===== *)
(** * Path names (fs.c: skipelem, dirlookup, namex)

    A path is the list of its components: [skipelem] takes them off one by
    one.  A directory is the list of its entries: [dirlookup] finds the first
    with the name.  [namex] follows a path through the directories on the disk,
    ends with a reference to the inode the path leads to, and gives back every
    other reference it took. *)

From S2P Require Import Prelude Machine Spinlock CString ProcTable Proc Lifecycle Ready Aging.
From S2P Require Import ProcLemmas Scheduler Reach Blocking Kstate Sleeplock Solo.
From S2P Require Import Devices Disk Bio Cache Layout Log Crash Inode Console Fs Content Txn Alloc Bmap Writei Icache.

(** ** Components of a path *)

(** The pieces between slashes. *)
Fixpoint pieces (cs : list Z) : list (list Z) :=
  match cs with
  | [] => [[]]
  | c :: cs' => if c =? 47 then [] :: pieces cs' else match pieces cs' with e :: es => (c :: e) :: es | [] => [] end
  end.
(** The pieces that are not empty. *)
Definition components (cs : list Z) : list (list Z) := filter (fun e => e ≠ []) (pieces cs).

(** The characters of a C string. *)
Definition chars (cs : list Z) : Prop := Forall (fun c => 0 < c < 256) cs.

Lemma pieces_cons cs : ∃ e es, pieces cs = e :: es.
Proof. induction cs as [|c cs (e & es & IH)]; [by exists [], []|]. cbn. destruct (c =? 47); [by eauto|]. rewrite IH. eauto. Qed.

Lemma skip_slashes_spec cs : ∃ cs', skip_slashes (cs ++ [0]) = Some (cs' ++ [0]) ∧ components cs' = components cs ∧ (length cs' ≤ length cs)%nat ∧
  (chars cs → chars cs') ∧ (cs' = [] ∨ ∃ c cs'', cs' = c :: cs'' ∧ c ≠ 47).
Proof.
  induction cs as [|c cs (cs' & E & Ec & Hl & Hch & Hh)]; [exists []; split; [done|]; split; [done|]; split; [done|]; split; [done|by left]|]. cbn [skip_slashes app]. destruct (Z.eqb_spec c 47) as [->|Hne].
  - exists cs'. split; [done|]. split; [rewrite Ec; done|]. split; [cbn; lia|]. split; [|done]. intros H. apply Hch. by inversion H.
  - exists (c :: cs). split; [done|]. split; [done|]. split; [done|]. split; [done|]. right. by exists c, cs.
Qed.

Lemma span_elem_spec cs : chars cs → ∃ e rest, span_elem (cs ++ [0]) = Some (e, rest ++ [0]) ∧ cs = e ++ rest ∧ Forall (fun c => c ≠ 47) e ∧ (rest = [] ∨ head rest = Some 47) ∧ chars rest ∧ chars e ∧
  pieces cs = e :: match rest with [] => [] | _ :: rest' => pieces rest' end.
Proof.
  induction 1 as [|c cs Hc Hcs (e & rest & E & -> & He & Hr & Hcr & Hce & Hp)]; [exists [], []; by repeat split; [|left|constructor|constructor]|]. cbn [span_elem app].
  rewrite (proj2 (Z.eqb_neq c 0)) by lia. rewrite orb_false_r. destruct (Z.eqb_spec c 47) as [->|Hne].
  - exists [], (47 :: e ++ rest). split; [done|]. split; [done|]. split; [constructor|]. split; [by right|]. split; [by constructor|]. split; [constructor|done].
  - rewrite E. cbn [mbind option_bind fst snd]. exists (c :: e), rest. split; [done|]. split; [done|]. split; [by constructor|]. split; [done|]. split; [done|]. split; [by constructor|].
    cbn [pieces]. rewrite (proj2 (Z.eqb_neq c 47) Hne), Hp. done.
Qed.

(** What [skipelem] leaves in the buffer for the name. *)
Definition name_in (e nm : list Z) : Prop := length nm = DIRSIZ ∧ cstr DIRSIZ nm = take DIRSIZ e ∧ is_bytes nm.

Lemma cstr_app_zero n e t : chars e → (length e < n)%nat → cstr n (e ++ 0 :: t) = e.
Proof. intros He. revert n. induction He as [|c e Hc _ IH]; intros [|n] Hn; cbn in *; try lia; [done|]. rewrite (proj2 (Z.eqb_neq c 0)) by lia. by rewrite IH by lia. Qed.
Lemma cstr_take n e t : chars e → (n ≤ length e)%nat → cstr n (take n e ++ t) = take n e.
Proof. intros He. revert n. induction He as [|c e Hc _ IH]; intros [|n] Hn; cbn in *; try lia; [done|done|]. rewrite (proj2 (Z.eqb_neq c 0)) by lia. by rewrite IH by lia. Qed.

Lemma skipelem_spec cs nm : chars cs → length nm = DIRSIZ → is_bytes nm →
  match components cs with
  | [] => skipelem (cs ++ [0]) nm = Some None
  | e :: es => ∃ cs' nm', skipelem (cs ++ [0]) nm = Some (Some (cs' ++ [0], nm')) ∧ chars cs' ∧ components cs' = es ∧ name_in e nm' ∧ (length cs' < length cs)%nat ∧ (cs' = [] ↔ es = [])
  end.
Proof.
  intros Hcs Hn Hb. destruct (skip_slashes_spec cs) as (cs1 & E1 & Ec & Hl1 & Hch1 & Hh). specialize (Hch1 Hcs). rewrite <- Ec. unfold skipelem. rewrite E1. cbn [mbind option_bind].
  destruct Hh as [->|(c & cs2 & -> & Hc)]; [done|]. assert (c ≠ 0) as Hc0 by (apply Forall_cons in Hch1 as [? _]; lia). rewrite bool_decide_false by (cbn; congruence).
  destruct (span_elem_spec (c :: cs2) Hch1) as (e & rest & E2 & Hsp & He & Hr & Hcr & Hce & Hp). rewrite E2. cbn [mbind option_bind fst snd]. destruct (skip_slashes_spec rest) as (cs3 & E3 & Ec3 & Hl3 & Hch3 & Hh3). specialize (Hch3 Hcr). rewrite E3. cbn [mbind option_bind].
  assert (e ≠ []) as Hne. { intros ->. cbn in Hsp. destruct Hr as [->|Hr]; [done|]. rewrite <- Hsp in Hr. by injection Hr. }
  assert (components (c :: cs2) = e :: components cs3) as Hcomp.
  { unfold components at 1. rewrite Hp, filter_cons_True by done. f_equal. rewrite Ec3. destruct rest as [|b rest]; [done|]. destruct Hr as [Hr|[= ->]]; [done|]. unfold components. change (pieces (47 :: rest)) with ([] :: pieces rest). by rewrite filter_cons_False by naive_solver. }
  rewrite Hcomp. eexists cs3, _. split; [reflexivity|]. split; [done|]. split; [done|]. assert (is_bytes e) as Hbe by (eapply Forall_impl; [exact Hce|]; cbn; lia). split; [|split].
  - destruct (Nat.leb_spec DIRSIZ (length e)) as [Hle|Hlt]; (split; [|split]).
    + rewrite length_app, length_take, length_drop. lia.
    + by apply cstr_take.
    + apply Forall_app. split; [by apply Forall_take|by apply Forall_drop].
    + rewrite !length_app, length_drop. cbn. lia.
    + cbn [app]. rewrite cstr_app_zero by done. by rewrite take_ge by lia.
    + apply Forall_app. split; [done|]. cbn [app]. apply Forall_cons. split; [lia|]. by apply Forall_drop.
  - assert (length (c :: cs2) = (length e + length rest)%nat) by (by rewrite Hsp, length_app). destruct e; [done|]. cbn [length] in *. lia.
  - split; [by intros ->|]. intros H0. destruct Hh3 as [->|(b & cs4 & -> & Hb4)]; [done|]. exfalso. destruct (span_elem_spec (b :: cs4) Hch3) as (e' & rest' & _ & Hsp' & _ & Hr' & _ & _ & Hp').
    unfold components in H0. rewrite Hp' in H0. destruct e' as [|b' e']; [|by rewrite filter_cons_True in H0]. cbn in Hsp'. subst rest'. destruct Hr' as [|[= ->]]; done.
Qed.

(** ** Directories *)

(** An inode as the disk has it. *)
Definition in_core (d : dinode) : inode := mk_inode 1 0 0 1 (d_type d) (d_major d) (d_minor d) (d_nlink d) (d_size d) (d_addrs d).
Definition dent (V : blocks) (d : dinode) (k : nat) : option dirent := file_bytes V (in_core d) (16 * Z.of_nat k) 16 ≫= decode_dirent.
Definition dir_entries (V : blocks) (d : dinode) : list dirent := omap (dent V d) (seq 0 (Z.to_nat (d_size d / 16))).

(** The blocks of the file are on a disk of [N] blocks. *)
Record file_ok (V : blocks) (N : nat) (d : dinode) : Prop := {
  fo_size : 0 ≤ d_size d ≤ MAXFILE * BSIZE;
  fo_blocks : ∀ bn, 0 ≤ bn → bn * BSIZE < d_size d → ∃ a, file_block V (in_core d) bn = Some a ∧ 0 < a < Z.of_nat N;
  fo_indirect : NDIRECT * BSIZE < d_size d → ∃ a, d_addrs d !! Z.to_nat NDIRECT = Some a ∧ 0 < a < Z.of_nat N }.
Record dir_ok (V : blocks) (N : nat) (d : dinode) : Prop := {
  do_file : file_ok V N d;
  do_type : d_type d = T_DIR;
  do_whole : d_size d mod 16 = 0;
  do_bytes : ∀ de, de ∈ dir_entries V d → is_bytes (de_name de) }.

(** The entry has the name, as far as names are significant. *)
Definition named (e : list Z) (de : dirent) : Prop := de_inum de ≠ 0 ∧ cstr DIRSIZ (de_name de) = take DIRSIZ e.
#[export] Instance named_dec e de : Decision (named e de).
Proof. unfold named. apply _. Defined.

Lemma length_decode_dirent d de : decode_dirent d = Some de → length (de_name de) = DIRSIZ.
Proof.
  unfold decode_dirent. destruct (le_decode <$> get_bytes d 0 2) as [i|]; [|done]. cbn [mbind option_bind]. destruct (get_bytes d 2 DIRSIZ) as [n|] eqn:E; [|done]. intros [= <-]. by apply get_bytes_length in E.
Qed.
Lemma decode_dirent_some l : length l = 16%nat → is_Some (decode_dirent l).
Proof. intros Hl. unfold decode_dirent, get_bytes. rewrite !bool_decide_true by (unfold DIRSIZ; lia). by eexists. Qed.
Lemma strncmp_some n p q : (n ≤ length p)%nat → (n ≤ length q)%nat → is_Some (strncmp p q n).
Proof.
  revert p q. induction n as [|n IH]; intros [|a p] [|b q] Hp Hq; cbn in *; try lia; try (by eexists). destruct (a =? 0); [by eexists|]. destruct (a =? b); [apply IH; lia|by eexists].
Qed.

Lemma namecmp_spec e nm de : name_in e nm → length (de_name de) = DIRSIZ → is_bytes (de_name de) →
  ∃ z, namecmp nm (de_name de) = Some z ∧ (z = 0 ↔ cstr DIRSIZ (de_name de) = take DIRSIZ e).
Proof.
  intros (H1 & H2 & H3) Hl Hb. destruct (strncmp_some DIRSIZ nm (de_name de)) as [z Hz]; [lia|lia|]. exists z. split; [done|]. rewrite (strncmp_zero _ _ _ _ H3 Hb Hz), H2. split; congruence.
Qed.

Section dirs.
Context {FU : Fuel} {HW : Hw} {DK : Disk} (Hdisk : in_memory DK).
Context {s : kstate} {c p : nat} {u : cpu} {q : proc} (Hsolo : solo s c p u q).
Context {V : blocks} {N : nat} {x : superblock}.
#[local] Notation cached := (icache (pid q) V N x).

Lemma file_block_view r y bn : (∀ n, view r n = V n) → file_block (view r) y bn = file_block V (in_core (dinode_of y)) bn.
Proof. intros Hv. unfold file_block. cbn [in_core dinode_of i_addrs d_addrs]. destruct (bn <? NDIRECT); [done|]. destruct (i_addrs y !! _) as [a|]; [|done]. cbn. by rewrite Hv. Qed.
Lemma file_bytes_view r y off n : (∀ n, view r n = V n) → file_bytes (view r) y off n = file_bytes V (in_core (dinode_of y)) off n.
Proof.
  intros Hv. unfold file_bytes. apply mapM_ext. intros i. unfold file_byte. rewrite file_block_view by done. destruct (file_block _ _ _) as [a|]; [|done]. cbn. by rewrite Hv.
Qed.
Lemma mapped_view held r y : cached held r → i_dev y = 1 → file_ok V N (dinode_of y) → mapped r y.
Proof.
  intros H Hd [F1 F2 F3]. pose proof (ic_view _ _ _ _ _ _ H) as Hv. pose proof (ic_disk _ _ _ _ _ _ H) as HN. split; [done|done| |].
  - intros bn H1 H2. rewrite file_block_view by done. unfold block_in. rewrite HN. by apply F2.
  - intros H1. unfold block_in. rewrite HN. by apply F3.
Qed.

Lemma length_file_bytes W y off n l : file_bytes W y off n = Some l → length l = Z.to_nat n.
Proof. unfold file_bytes. intros H%mapM_Some. apply Forall2_length in H. by rewrite length_seq in H. Qed.

(** Reading entry [k]. *)
Lemma read_dirent_solo r held ip y d k msg : cached held r → inodes r !! ip = Some y → dinode_of y = d → i_dev y = 1 → dir_ok V N d → 16 * Z.of_nat k < d_size d →
  ∃ de r', read_dirent ip (16 * Z.of_nat k) msg (with_res s r) = Ret de (with_res s r') ∧ dent V d k = Some de ∧ length (de_name de) = DIRSIZ ∧ cached held r' ∧ inodes r' = inodes r.
Proof.
  intros H Hy Hd Hdev Hdir Hk. pose proof Hdir as [Hfo Hty Hwh _]. pose proof (fo_size _ _ _ Hfo) as Hsz. assert (MAXFILE * BSIZE = 71680) as HM by done.
  assert (i_size y = d_size d) as Es by (by rewrite <- Hd). assert (i_type y ≠ T_DEV) as Ht by (assert (i_type y = d_type d) as -> by (by rewrite <- Hd); by rewrite Hty).
  assert (16 * Z.of_nat k + 16 ≤ d_size d) as Hle by (apply Z.mod_divide in Hwh as [a Ha]; lia).
  destruct (readi_solo Hdisk Hsolo ip y (16 * Z.of_nat k) 16 r (ic_idle _ _ _ _ _ _ H) Hy Ht) as [_ Hrd]; [eapply mapped_view; [done|done|by rewrite Hd]|lia|lia|].
  destruct Hrd as (l & r' & E & Hl & S & Hi); [lia|lia|]. rewrite Z.min_l in E, Hl by lia. rewrite (file_bytes_view r y _ _ (ic_view _ _ _ _ _ _ H)), Hd in Hl.
  destruct (decode_dirent_some l) as [de Hde]; [by rewrite (length_file_bytes _ _ _ _ _ Hl)|]. exists de, r'. unfold read_dirent, dirent_size. rewrite (bind_ret _ _ _ _ _ E). cbn [fst snd negb Z.eqb].
  split; [change (16 =? 16) with true; cbn [negb]; unfold try_get; by rewrite Hde|]. split; [unfold dent; rewrite Hl; exact Hde|]. split; [by eapply length_decode_dirent|]. split; [by eapply icache_same|by apply same_blocks_inodes].
Qed.

(** Every position below the size is an entry. *)
Lemma entries_lookup r held ip y d : cached held r → inodes r !! ip = Some y → dinode_of y = d → i_dev y = 1 → dir_ok V N d →
  ∀ k, (k < Z.to_nat (d_size d / 16))%nat → is_Some (dent V d k).
Proof.
  intros H Hy Hd Hdev Hdir k Hk. pose proof (fo_size _ _ _ (do_file _ _ _ Hdir)). destruct (read_dirent_solo r held ip y d k "entry" H Hy Hd Hdev Hdir) as (de & r' & _ & E & _); [|by exists de].
  pose proof (Z.mul_div_le (d_size d) 16 ltac:(lia)). lia.
Qed.

Lemma dirlookup_loop_solo e nm d ip y n m k held r : name_in e nm → dir_ok V N d → dinode_of y = d → i_dev y = 1 →
  (k + m)%nat = Z.to_nat (d_size d / 16) → (m ≤ n)%nat → cached held r → inodes r !! ip = Some y →
  ∃ r', dirlookup_loop n ip nm (16 * Z.of_nat k) (with_res s r) =
      Ret (match list_find (named e) (omap (dent V d) (seq k m)) with Some (i, de) => Some (de_inum de, 16 * Z.of_nat (k + i)) | None => None end) (with_res s r') ∧
    cached held r' ∧ inodes r' = inodes r.
Proof.
  intros Hnm Hdir Hd Hdev. pose proof (fo_size _ _ _ (do_file _ _ _ Hdir)) as Hsz. pose proof (do_whole _ _ _ Hdir) as Hwh. assert (d_size d = 16 * (d_size d / 16)) as Hq by (apply Z_div_exact_2; lia). assert (i_size y = d_size d) as Es by (by rewrite <- Hd).
  pose proof (Z.div_pos (d_size d) 16 ltac:(lia) ltac:(lia)) as Hq0. revert n k r. induction m as [|m IH]; intros n k r Hkm Hn HC Hy.
  - exists r. split; [|done]. assert (∀ n, dirlookup_loop n ip nm (16 * Z.of_nat k) (with_res s r) = Ret None (with_res s r)) as ->; [|done].
    intros [|n']; cbn [dirlookup_loop]; rewrite (bind_ret _ _ _ _ _ (inode_get_ret ip y r Hy)), (proj2 (Z.ltb_ge _ _)) by lia; done.
  - destruct n as [|n]; [lia|]. cbn [dirlookup_loop]. rewrite (bind_ret _ _ _ _ _ (inode_get_ret ip y r Hy)), (proj2 (Z.ltb_lt _ _)) by lia.
    destruct (read_dirent_solo r held ip y d k "dirlookup read" HC Hy Hd Hdev Hdir) as (de & r1 & E & Hde & Hlen & H1 & Hi1); [lia|]. rewrite (bind_ret _ _ _ _ _ E). rewrite <- Hi1 in Hy.
    assert (omap (dent V d) (seq k (S m)) = de :: omap (dent V d) (seq (S k) m)) as -> by (cbn; by rewrite Hde). replace (16 * Z.of_nat k + dirent_size) with (16 * Z.of_nat (S k)) by (unfold dirent_size; lia).
    destruct (IH n (S k) r1 ltac:(lia) ltac:(lia) H1 Hy) as (r' & E' & H' & Hi'). rewrite Hi1 in Hi'. assert (∀ nf, ¬ named e de → match list_find (named e) (de :: omap (dent V d) (seq (S k) m)) with Some (i, de) => Some (de_inum de, 16 * Z.of_nat (k + i)) | None => nf end = match list_find (named e) (omap (dent V d) (seq (S k) m)) with Some (i, de) => Some (de_inum de, 16 * Z.of_nat (S k + i)) | None => nf end) as Hskip.
    { intros nf Hno. cbn [list_find]. rewrite decide_False by done. destruct (list_find _ _) as [[i de']|]; [|done]. cbn. do 3 f_equal. lia. }
    destruct (Z.eqb_spec (de_inum de) 0) as [Hz|Hnz].
    + exists r'. rewrite Hskip by (by intros [? _]). done.
    + assert (is_bytes (de_name de)) as Hb. { apply (do_bytes _ _ _ Hdir). unfold dir_entries. apply list_elem_of_omap. exists k. split; [|done]. apply elem_of_seq. lia. }
      destruct (namecmp_spec e nm de Hnm Hlen Hb) as (z & Hz & Hz0). rewrite (bind_ret _ _ _ z (with_res s r1)) by (unfold try_get; by rewrite Hz). destruct (Z.eqb_spec z 0) as [->|Hzn].
      * exists r1. cbn [list_find]. rewrite decide_True by (split; [done|by apply Hz0]). split; [|done]. by rewrite Nat.add_0_r.
      * exists r'. rewrite Hskip by (intros [_ Hc]; by apply Hzn, Hz0). done.
Qed.

(** The entry that a directory has for a name. *)
Definition dir_find (d : dinode) (e : list Z) : option (nat * dirent) := list_find (named e) (dir_entries V d).

Lemma dirlookup_solo e nm d ip y held r : name_in e nm → dir_ok V N d → dinode_of y = d → i_dev y = 1 → cached held r → inodes r !! ip = Some y → 0 < frees (inodes r) →
  match dir_find d e with
  | None => ∃ r', dirlookup ip nm (with_res s r) = Ret None (with_res s r') ∧ cached held r' ∧ inodes r' = inodes r
  | Some (k, de) => ∃ jp z z' r', dirlookup ip nm (with_res s r) = Ret (Some (jp, 16 * Z.of_nat k)) (with_res s r') ∧ cached held r' ∧ inodes r' = <[jp := z']> (inodes r) ∧ inodes r !! jp = Some z ∧
      i_inum z' = de_inum de ∧ 0 < i_ref z' ∧ (∀ m, refs (inodes r') m = refs (inodes r) m + if decide (m = de_inum de) then 1 else 0) ∧
      frees (inodes r') + is_free_slot z = frees (inodes r) ∧ i_ref z' = (if i_ref z =? 0 then 1 else i_ref z + 1) ∧ (0 < i_ref z → z' = z <| i_ref ::= fun n => n + 1 |>)
  end.
Proof.
  intros Hnm Hdir Hd Hdev H Hy Hf. pose proof (fo_size _ _ _ (do_file _ _ _ Hdir)) as Hsz. assert (i_size y = d_size d ∧ i_type y = T_DIR) as [Es Et] by (by rewrite <- (do_type _ _ _ Hdir), <- Hd).
  destruct (dirlookup_loop_solo e nm d ip y (S (Z.to_nat (d_size d / 16))) (Z.to_nat (d_size d / 16)) 0 held r Hnm Hdir Hd Hdev eq_refl ltac:(lia) H Hy) as (r1 & E1 & H1 & Hi1).
  unfold dirlookup. rewrite (bind_ret _ _ _ _ _ (inode_get_ret ip y r Hy)), Et. change (negb (T_DIR =? T_DIR)) with false. cbv iota. rewrite Es. unfold dirent_size. change (16 * Z.of_nat 0) with 0 in E1. rewrite (bind_ret _ _ _ _ _ E1).
  unfold dir_find, dir_entries. destruct (list_find (named e) _) as [[k de]|]; [|by exists r1]. rewrite Hdev. destruct (iget_solo Hsolo held (de_inum de) r1 H1) as (jp & z & z' & r2 & E2 & Er & H2 & Hz & Hn & Hr & Hrefs & Hfr & Href & Hz').
  { by rewrite Hi1. }
  rewrite (bind_ret _ _ _ _ _ E2). exists jp, z, z', r2. assert (inodes r2 = <[jp := z']> (inodes r)) as Hi2 by (rewrite Er; change (<[jp := z']> (inodes r1) = <[jp := z']> (inodes r)); by rewrite Hi1). rewrite Hi1 in *. done.
Qed.

(** ** Following a path *)

(** The inode numbers [S], closed under the entries of directories, are all
    good inodes with a link. *)
Definition tree_ok (S : Z → Prop) : Prop := ∀ i, S i → 0 ≤ IBLOCK i x < Z.of_nat N ∧
  ∃ d, inode_at x V i = Some d ∧ d_type d ≠ 0 ∧ d_nlink d ≠ 0 ∧
    (d_type d = T_DIR → dir_ok V N d ∧ ∀ k de, dir_entries V d !! k = Some de → de_inum de ≠ 0 → S (de_inum de)).

(** Where a path leads from inode [i]; with [par], to the directory of its last
    component. *)
Fixpoint resolve (par : bool) (i : Z) (es : list (list Z)) : option Z :=
  match es with
  | [] => if par then None else Some i
  | e :: es' =>
      d ← inode_at x V i;
      if d_type d =? T_DIR then
        if par && bool_decide (es' = []) then Some i else f ← dir_find d e; resolve par (de_inum f.2) es'
      else None
  end.

Definition one (b : bool) : Z := if b then 1 else 0.
Definition leads_to (o : option Z) (m : Z) : Z := one (bool_decide (o = Some m)).
Lemma leads_none m : leads_to None m = 0.
Proof. unfold leads_to. by rewrite bool_decide_false. Qed.
Lemma leads_some i m : leads_to (Some i) m = one (bool_decide (m = i)).
Proof. unfold leads_to. f_equal. apply bool_decide_ext. split; congruence. Qed.
(** The references after a search that started with one to [i]. *)
Definition moved_refs (r r' : kres) (i : Z) (o : option Z) : Prop :=
  ∀ m, refs (inodes r') m = refs (inodes r) m - one (bool_decide (m = i)) + leads_to o m.
(** What the search returns for inode number [o]. *)
Definition found (r' : kres) (o : option Z) (a : option nat) : Prop :=
  match o with Some t => ∃ ip y, a = Some ip ∧ inodes r' !! ip = Some y ∧ i_inum y = t ∧ 1 ≤ i_ref y | None => a = None end.

Lemma slot_links S r ip y held : tree_ok S → cached held r → inodes r !! ip = Some y → 1 ≤ i_ref y → S (i_inum y) → i_valid y = 0 ∨ i_nlink y ≠ 0.
Proof.
  intros HT H Hy Hr HS. destruct (decide (i_valid y = 0)) as [|Hv]; [by left|right]. destruct (ic_slot _ _ _ _ _ _ H ip y Hy) as [_ Hs]. destruct (Hs ltac:(lia)) as [_ Hs']. specialize (Hs' Hv).
  destruct (HT _ HS) as (_ & d & Hd & _ & Hn & _). rewrite Hs' in Hd. injection Hd as <-. exact Hn.
Qed.

Lemma put_refs l ip y m : l !! ip = Some y → refs (<[ip := y <| i_ref ::= fun n => n - 1 |>]> l) m = refs l m - one (bool_decide (m = i_inum y)).
Proof. intros Hy. rewrite (refs_insert _ _ _ _ _ Hy). unfold ref_to, one. cbn. destruct (Z.eqb_spec (i_inum y) m), (bool_decide_reflect (m = i_inum y)); try congruence; lia. Qed.
Lemma put_frees l ip y : l !! ip = Some y → 1 ≤ i_ref y → frees (<[ip := y <| i_ref ::= fun n => n - 1 |>]> l) = frees l + one (i_ref y =? 1).
Proof.
  intros Hy Hr. rewrite (frees_insert _ _ _ _ Hy). unfold is_free_slot, one. change (i_ref (y <| i_ref ::= fun n => n - 1 |>)) with (i_ref y - 1).
  destruct (Z.eqb_spec (i_ref y) 0), (Z.eqb_spec (i_ref y - 1) 0), (Z.eqb_spec (i_ref y) 1); lia.
Qed.

(** Giving back a locked inode. *)
Lemma unlockput_refs S r ip y : tree_ok S → cached (Some ip) r → inodes r !! ip = Some y → 1 ≤ i_ref y → S (i_inum y) →
  ∃ r', iunlockput ip (with_res s r) = Ret tt (with_res s r') ∧ cached None r' ∧ inodes r' = <[ip := y <| i_ref ::= fun n => n - 1 |>]> (inodes r) ∧
    (∀ m, refs (inodes r') m = refs (inodes r) m - one (bool_decide (m = i_inum y))) ∧ frees (inodes r') = frees (inodes r) + one (i_ref y =? 1).
Proof.
  intros HT H Hy Hr HS. destruct (iunlockput_solo Hsolo r ip y H Hy Hr (slot_links _ _ _ _ _ HT H Hy Hr HS)) as (r' & E & H' & Hi). exists r'. split; [done|]. split; [done|]. split; [done|]. rewrite Hi.
  split; [intros m; by apply put_refs|by apply put_frees].
Qed.

(** Locking an inode to look into it. *)
Lemma lock_slot S r ip y : tree_ok S → cached None r → inodes r !! ip = Some y → 1 ≤ i_ref y → S (i_inum y) →
  ∃ d r' y', inode_at x V (i_inum y) = Some d ∧ ilock ip (with_res s r) = Ret tt (with_res s r') ∧ cached (Some ip) r' ∧ inodes r' !! ip = Some y' ∧ dinode_of y' = d ∧ i_dev y' = 1 ∧
    i_ref y' = i_ref y ∧ i_inum y' = i_inum y ∧ (∀ m, refs (inodes r') m = refs (inodes r) m) ∧ frees (inodes r') = frees (inodes r) ∧
    (d_type d = T_DIR → dir_ok V N d ∧ ∀ k de, dir_entries V d !! k = Some de → de_inum de ≠ 0 → S (de_inum de)).
Proof.
  intros HT H Hy Hr HS. destruct (HT _ HS) as (Hb & d & Hd & Ht & _ & Hdir). destruct (ilock_solo Hdisk Hsolo r ip y d H Hy Hr Hd Ht Hb) as (r' & y' & E & H' & Hi & Hdy & Hr' & Hn' & _ & Hdev).
  exists d, r', y'. split; [done|]. split; [done|]. split; [done|]. split; [rewrite Hi; apply list_lookup_insert_eq; by eapply lookup_lt_Some|]. split; [done|]. split; [done|]. split; [done|]. split; [done|]. rewrite Hi.
  split; [intros m; rewrite (refs_insert _ _ _ _ _ Hy); unfold ref_to; rewrite Hr', Hn'; lia|]. split; [rewrite (frees_insert _ _ _ _ Hy); unfold is_free_slot; rewrite Hr'; lia|done].
Qed.

(** The step to the next inode: [dirlookup], then the directory is given back. *)
Lemma next_slot S r ip y d e nm k de : tree_ok S → cached (Some ip) r → inodes r !! ip = Some y → dinode_of y = d → i_dev y = 1 → 1 ≤ i_ref y → S (i_inum y) → dir_ok V N d →
  name_in e nm → dir_find d e = Some (k, de) → 2 ≤ frees (inodes r) + one (i_ref y =? 1) →
  ∃ jp off r1 r2 z, dirlookup ip nm (with_res s r) = Ret (Some (jp, off)) (with_res s r1) ∧ iunlockput ip (with_res s r1) = Ret tt (with_res s r2) ∧ cached None r2 ∧
    inodes r2 !! jp = Some z ∧ 1 ≤ i_ref z ∧ i_inum z = de_inum de ∧ 2 ≤ frees (inodes r2) + one (i_ref z =? 1) ∧
    ∀ m, refs (inodes r2) m = refs (inodes r) m - one (bool_decide (m = i_inum y)) + one (bool_decide (m = de_inum de)).
Proof.
  intros HT H Hy Hd Hdev Hr HS Hdir Hnm Hf Hfr. assert (0 < frees (inodes r)) as Hf0 by (unfold one in Hfr; destruct (i_ref y =? 1); lia).
  pose proof (dirlookup_solo e nm d ip y (Some ip) r Hnm Hdir Hd Hdev H Hy Hf0) as Hl. rewrite Hf in Hl. destruct Hl as (jp & z & z' & r1 & E1 & H1 & Hi1 & Hz & Hzn & Hzr & Hrefs & Hfr1 & Hzr' & Hz').
  assert ((jp < length (inodes r))%nat) as Hjl by (by eapply lookup_lt_Some).
  destruct (decide (jp = ip)) as [->|Hne].
  - assert (z = y) as -> by congruence. specialize (Hz' ltac:(lia)). assert (inodes r1 !! ip = Some z') as Hy1 by (rewrite Hi1; by apply list_lookup_insert_eq). assert (i_inum z' = i_inum y) as Hzi by (by rewrite Hz').
    destruct (unlockput_refs S r1 ip z' HT H1 Hy1 ltac:(lia)) as (r2 & E2 & H2 & Hi2 & Hrefs2 & Hfr2); [by rewrite Hzi|]. set (z2 := z' <| i_ref ::= fun n => n - 1 |>) in *.
    exists ip, (16 * Z.of_nat k), r1, r2, z2. split; [done|]. split; [done|]. split; [done|]. split; [rewrite Hi2; apply list_lookup_insert_eq; rewrite Hi1; by rewrite length_insert|].
    assert (i_ref z2 = i_ref y) as Er by (unfold z2; rewrite Hz'; cbn; lia). split; [by rewrite Er|]. split; [exact Hzn|]. rewrite Er. assert (is_free_slot y = 0) as Ef by (unfold is_free_slot; by rewrite (proj2 (Z.eqb_neq _ 0)) by lia).
    split; [unfold one in *; rewrite Hz' in Hfr2; cbn in Hfr2; rewrite (proj2 (Z.eqb_neq (i_ref y + 1) 1)) in Hfr2 by lia; lia|].
    intros m. rewrite Hrefs2, Hrefs, Hzi. unfold one. destruct (decide (m = de_inum de)), (bool_decide_reflect (m = de_inum de)); try done; lia.
  - assert (inodes r1 !! ip = Some y) as Hy1 by (rewrite Hi1; by rewrite list_lookup_insert_ne). destruct (unlockput_refs S r1 ip y HT H1 Hy1 Hr HS) as (r2 & E2 & H2 & Hi2 & Hrefs2 & Hfr2).
    exists jp, (16 * Z.of_nat k), r1, r2, z'. split; [done|]. split; [done|]. split; [done|]. split; [rewrite Hi2, list_lookup_insert_ne, Hi1 by done; by apply list_lookup_insert_eq|].
    split; [lia|]. split; [done|]. split.
    + rewrite Hfr2. unfold is_free_slot, one in *. destruct (ic_slot _ _ _ _ _ _ H jp z Hz) as [Hz0 _]. destruct (Z.eqb_spec (i_ref z) 0); rewrite Hzr'; [cbn; lia|]. rewrite (proj2 (Z.eqb_neq (i_ref z + 1) 1)) by lia. lia.
    + intros m. rewrite Hrefs2, Hrefs. unfold one. destruct (decide (m = de_inum de)), (bool_decide_reflect (m = de_inum de)); try done; lia.
Qed.

Lemma namex_loop_solo S par es : tree_ok S → ∀ k cs nm r ip y, components cs = es → chars cs → length nm = DIRSIZ → is_bytes nm → (length es ≤ k)%nat →
  cached None r → inodes r !! ip = Some y → 1 ≤ i_ref y → S (i_inum y) → 2 ≤ frees (inodes r) + one (i_ref y =? 1) →
  ∃ a nm' r', namex_loop k ip (cs ++ [0]) par nm (with_res s r) = Ret (a, nm') (with_res s r') ∧ cached None r' ∧ found r' (resolve par (i_inum y) es) a ∧
    moved_refs r r' (i_inum y) (resolve par (i_inum y) es) ∧ (par = true → a ≠ None → ∃ e, last es = Some e ∧ name_in e nm').
Proof.
  intros HT. induction es as [|e es IH]; intros k cs nm r ip y Hes Hcs Hnl Hnb Hk H Hy Hr HS Hfr; pose proof (skipelem_spec cs nm Hcs Hnl Hnb) as Hsk; rewrite Hes in Hsk.
  - assert (namex_loop k ip (cs ++ [0]) par nm (with_res s r) = (if par then iput ip ;;; ret (None, nm) else ret (Some ip, nm)) (with_res s r)) as ->.
    { destruct k; cbn [namex_loop]; rewrite (bind_ret _ _ _ None (with_res s r)) by (unfold try_get; by rewrite Hsk); done. }
    destruct par.
    + destruct (iput_solo Hsolo r ip y H Hy Hr (slot_links _ _ _ _ _ HT H Hy Hr HS)) as (r' & E & H' & Hi). rewrite (bind_ret _ _ _ _ _ E). exists None, nm, r'. split; [done|]. split; [done|]. split; [done|]. split; [|done].
      intros m. rewrite Hi, (put_refs _ _ _ _ Hy). cbn [resolve]. rewrite leads_none. lia.
    + exists (Some ip), nm, r. split; [done|]. split; [done|]. split; [by exists ip, y|]. split; [|done]. intros m. cbn [resolve]. rewrite leads_some. lia.
  - destruct Hsk as (cs' & nm1 & Esk & Hcs' & Hes' & Hnm & _ & Hnil). destruct k as [|k]; [cbn in Hk; lia|]. cbn [namex_loop]. rewrite (bind_ret _ _ _ (Some (cs' ++ [0], nm1)) (with_res s r)) by (unfold try_get; by rewrite Esk).
    destruct (lock_slot S r ip y HT H Hy Hr HS) as (d & r1 & y1 & Hd & E1 & H1 & Hy1 & Hdy & Hdev & Hr1 & Hn1 & Hrefs1 & Hfr1 & Hdir). rewrite (bind_ret _ _ _ _ _ E1), (bind_ret _ _ _ _ _ (inode_get_ret ip y1 r1 Hy1)).
    assert (i_type y1 = d_type d) as -> by (by rewrite <- Hdy). cbn [resolve]. rewrite Hd. cbn [mbind option_bind].
    assert (∀ m, refs (inodes r1) m - one (bool_decide (m = i_inum y1)) = refs (inodes r) m - one (bool_decide (m = i_inum y)) + leads_to None m) as Hput by (intros m; rewrite Hrefs1, Hn1, leads_none; lia).
    destruct (Z.eqb_spec (d_type d) T_DIR) as [Ht|Ht]; cbn [negb].
    2:{ destruct (unlockput_refs S r1 ip y1 HT H1 Hy1 ltac:(lia)) as (r2 & E2 & H2 & Hi2 & Hrefs2 & _); [by rewrite Hn1|]. rewrite (bind_ret _ _ _ _ _ E2). exists None, nm1, r2. split; [done|]. split; [done|]. split; [done|]. split; [|done]. intros m. by rewrite Hrefs2. }
    destruct (Hdir Ht) as [Hdok Hclosed]. assert (bool_decide (head (cs' ++ [0]) = Some 0) = bool_decide (es = [])) as ->.
    { apply bool_decide_ext. rewrite <- Hnil. destruct cs' as [|c' cs']; [done|]. cbn. apply Forall_cons in Hcs' as [? _]. split; [intros [= ->]; lia|done]. }
    destruct (par && bool_decide (es = [])) eqn:Hpar.
    { apply andb_true_iff in Hpar as [-> ->%bool_decide_eq_true]. destruct (iunlock_solo Hsolo r1 ip y1 H1 Hy1 ltac:(lia)) as (r2 & E2 & H2 & Hi2). rewrite (bind_ret _ _ _ _ _ E2). exists (Some ip), nm1, r2. split; [done|]. split; [done|].
      split; [exists ip, y1; split; [done|]; split; [by rewrite Hi2|]; split; [done|lia]|]. split; [|intros _ _; by exists e]. intros m. rewrite Hi2, Hrefs1, leads_some. lia. }
    destruct (dir_find d e) as [[kk de]|] eqn:Hfd; cbn [mbind option_bind snd].
    + destruct (next_slot S r1 ip y1 d e nm1 kk de HT H1 Hy1 Hdy Hdev ltac:(lia)) as (jp & off & r2 & r3 & z & E2 & E3 & H3 & Hz & Hzr & Hzn & Hzf & Hzrefs); [by rewrite Hn1|done|done|done|by rewrite Hfr1, Hr1|].
      rewrite (bind_ret _ _ _ _ _ E2), (bind_ret _ _ _ _ _ E3). apply list_find_Some in Hfd as (Hlk & [Hnz _] & _). rewrite <- Hzn in *.
      destruct (IH k cs' nm1 r3 jp z Hes' Hcs' (proj1 Hnm) (proj2 (proj2 Hnm)) ltac:(cbn in Hk; lia) H3 Hz Hzr) as (a & nm' & r' & E & H' & Hfound & Hmv & Hlast); [rewrite Hzn; by apply (Hclosed kk de Hlk); rewrite <- Hzn|done|].
      exists a, nm', r'. split; [done|]. split; [done|]. split; [done|]. split; [intros m; rewrite (Hmv m), Hzrefs, Hrefs1, Hn1; lia|]. intros Hp Ha. destruct (Hlast Hp Ha) as (e' & He' & Hin). exists e'. split; [|done]. by destruct es.
    + assert (0 < frees (inodes r1)) as Hf0 by (rewrite Hfr1; unfold one in Hfr; destruct (i_ref y =? 1); lia). pose proof (dirlookup_solo e nm1 d ip y1 (Some ip) r1 Hnm Hdok Hdy Hdev H1 Hy1 Hf0) as Hl. rewrite Hfd in Hl.
      destruct Hl as (r2 & E2 & H2 & Hi2). rewrite (bind_ret _ _ _ _ _ E2). rewrite <- Hi2 in Hy1. destruct (unlockput_refs S r2 ip y1 HT H2 Hy1 ltac:(lia)) as (r3 & E3 & H3 & Hi3 & Hrefs3 & _); [by rewrite Hn1|]. rewrite (bind_ret _ _ _ _ _ E3).
      exists None, nm1, r3. split; [done|]. split; [done|]. split; [done|]. split; [|done]. intros m. rewrite Hrefs3, Hi2. apply Hput.
Qed.

(** Where a path starts: at the root or at the current directory, slot [cw]. *)
Definition start_inode (cs : list Z) (y : inode) : Z := if bool_decide (head cs = Some 47) then ROOTINO else i_inum y.

(** The process may look up the path: it starts at a good inode, slot [cw] is
    the current directory, and two slots are free. *)
Record can_search (S : Z → Prop) (r : kres) (cs : list Z) (cw : nat) (y : inode) : Prop := {
  cs_tree : tree_ok S;
  cs_cache : cached None r;
  cs_free : 2 ≤ frees (inodes r);
  cs_start : S (start_inode cs y);
  cs_cwd : head cs ≠ Some 47 → unptr (cwd q) = Some cw ∧ inodes r !! cw = Some y ∧ 1 ≤ i_ref y }.

Lemma namex_solo S par cs nm r cw y : can_search S r cs cw y → chars cs → length nm = DIRSIZ → is_bytes nm → let o := resolve par (start_inode cs y) (components cs) in
  ∃ a nm' r', namex (cs ++ [0]) par nm (with_res s r) = Ret (a, nm') (with_res s r') ∧ cached None r' ∧ found r' o a ∧
    (∀ m, refs (inodes r') m = refs (inodes r) m + leads_to o m) ∧ (par = true → a ≠ None → ∃ e, last (components cs) = Some e ∧ name_in e nm').
Proof.
  intros [HT H Hf HS Hcwd] Hcs Hnl Hnb o. unfold namex.
  assert (∃ ip z r1, (if match head cs with Some c => c =? 47 | None => false end then iget ROOTDEV ROOTINO
      else p <- curproc ;; q <- get_proc p ;; cw <- try_get (fun _ => unptr (cwd q)) ;; idup cw) (with_res s r) = Ret ip (with_res s r1) ∧
    cached None r1 ∧ inodes r1 !! ip = Some z ∧ 1 ≤ i_ref z ∧ i_inum z = start_inode cs y ∧ 2 ≤ frees (inodes r1) + one (i_ref z =? 1) ∧
    ∀ m, refs (inodes r1) m = refs (inodes r) m + one (bool_decide (m = start_inode cs y))) as (ip & z & r1 & E1 & H1 & Hz & Hzr & Hzi & Hzf & Hrefs).
  { assert (match head cs with Some c => c =? 47 | None => false end = bool_decide (head cs = Some 47)) as ->.
    { destruct (head cs) as [c0|]; [|by rewrite bool_decide_false]. destruct (Z.eqb_spec c0 47) as [->|]; [by rewrite bool_decide_true|by rewrite bool_decide_false by congruence]. }
    unfold start_inode. destruct (bool_decide_reflect (head cs = Some 47)) as [|Hrel].
    - destruct (iget_solo Hsolo None ROOTINO r H ltac:(lia)) as (ip & z & z' & r1 & E & Er & H1 & Hz & Hzn & Hzr & Hrefs & Hfr & Hzr' & _). exists ip, z', r1. split; [exact E|]. split; [done|]. split; [rewrite Er; apply list_lookup_insert_eq; by eapply lookup_lt_Some|].
      split; [lia|]. split; [done|]. split.
      + unfold is_free_slot, one in *. destruct (Z.eqb_spec (i_ref z) 0); rewrite Hzr'; [cbn; lia|]. destruct (i_ref z + 1 =? 1); lia.
      + intros m. rewrite Hrefs. unfold one. destruct (decide (m = ROOTINO)), (bool_decide_reflect (m = ROOTINO)); done.
    - destruct (Hcwd Hrel) as (Hcw & Hy & Hr). destruct (idup_solo Hsolo None r cw y H Hy Hr) as (r1 & E & Er & H1). exists cw, (y <| i_ref ::= fun n => n + 1 |>), r1. split.
      + rewrite (bind_ret _ _ _ _ _ (curproc_solo Hsolo r)), (bind_ret _ _ _ _ _ (get_proc_ret p (with_res s r) q (solo_proc _ _ _ _ _ Hsolo))).
        rewrite (bind_ret _ _ _ cw (with_res s r)) by (unfold try_get; by rewrite Hcw). exact E.
      + split; [done|]. split; [rewrite Er; apply list_lookup_insert_eq; by eapply lookup_lt_Some|]. split; [cbn; lia|]. split; [done|]. rewrite Er. change (inodes (r <| inodes ::= <[cw := y <| i_ref ::= fun n => n + 1 |>]> |>)) with (<[cw := y <| i_ref ::= fun n => n + 1 |>]> (inodes r)).
        split; [rewrite (frees_insert _ _ _ _ Hy); unfold is_free_slot, one; cbn; rewrite (proj2 (Z.eqb_neq (i_ref y) 0)), (proj2 (Z.eqb_neq (i_ref y + 1) 0)) by lia; destruct (i_ref y + 1 =? 1); lia|].
        intros m. rewrite (refs_insert _ _ _ _ _ Hy). unfold ref_to, one. cbn. destruct (Z.eqb_spec (i_inum y) m), (bool_decide_reflect (m = i_inum y)); try congruence; lia. }
  assert (∃ c0, head (cs ++ [0]) = Some c0 ∧ (c0 =? 47) = match head cs with Some c => c =? 47 | None => false end) as (c0 & Hc0 & Hc47) by (destruct cs as [|c0 cs]; [by exists 0|by exists c0]).
  rewrite (bind_ret _ _ _ c0 (with_res s r)) by (unfold try_get; by rewrite Hc0). rewrite Hc47, (bind_ret _ _ _ _ _ E1).
  destruct (namex_loop_solo S par (components cs) HT (length (cs ++ [0])) cs nm r1 ip z eq_refl Hcs Hnl Hnb) as (a & nm' & r' & E & H' & Hfound & Hmv & Hlast); [|done|done|done|by rewrite Hzi|done|].
  { rewrite length_app. unfold components. transitivity (length (pieces cs)); [apply length_filter|]. clear. induction cs as [|c0 cs IH]; [done|]. cbn. destruct (c0 =? 47); [cbn in *; lia|]. destruct (pieces cs); cbn in *; lia. }
  rewrite Hzi in *. exists a, nm', r'. split; [done|]. split; [done|]. split; [done|]. split; [|done]. intros m. rewrite (Hmv m), Hrefs. fold o. lia.
Qed.

(** C18. [namei] and [nameiparent] follow paths.  For any path, absolute or
    relative, through the directories of a well-formed file system, [namei]
    returns a reference to the inode that the components of the path lead to
    and null when a component is missing or is not in a directory;
    [nameiparent] returns a reference to the directory of the last component
    and its name.  The number of references to that inode goes up by one, and
    no reference to any other inode is left behind. *)
Theorem namei_correct S cs nm r cw y : can_search S r cs cw y → chars cs → length nm = DIRSIZ → is_bytes nm →
  (let o := resolve false (start_inode cs y) (components cs) in
   ∃ a r', namei (cs ++ [0]) (with_res s r) = Ret a (with_res s r') ∧ cached None r' ∧ found r' o a ∧ ∀ m, refs (inodes r') m = refs (inodes r) m + leads_to o m) ∧
  (let o := resolve true (start_inode cs y) (components cs) in
   ∃ a nm' r', nameiparent (cs ++ [0]) nm (with_res s r) = Ret (a, nm') (with_res s r') ∧ cached None r' ∧ found r' o a ∧ (∀ m, refs (inodes r') m = refs (inodes r) m + leads_to o m) ∧
     (a ≠ None → ∃ e, last (components cs) = Some e ∧ cstr DIRSIZ nm' = take DIRSIZ e)).
Proof.
  intros HC Hcs Hnl Hnb. split.
  - destruct (namex_solo S false cs (replicate DIRSIZ 0) r cw y HC Hcs) as (a & nm' & r' & E & H & Hf & Hr & _); [by rewrite length_replicate|by apply Forall_replicate|]. exists a, r'. unfold namei. by rewrite (bind_ret _ _ _ _ _ E).
  - destruct (namex_solo S true cs nm r cw y HC Hcs Hnl Hnb) as (a & nm' & r' & E & H & Hf & Hr & Hl). exists a, nm', r'. split; [exact E|]. split; [done|]. split; [done|]. split; [done|]. intros Ha. destruct (Hl eq_refl Ha) as (e & He & _ & Hc & _). by exists e.
Qed.
End dirs.
