(* ===== verification/Mkfs.v ===== *)
(** * Building the file system (mkfs.c)

    mkfs runs on the host and writes the image of the disk: boot block, super
    block, log, inodes, bitmap and data, with the root directory and the files
    given on the command line.  The image is the list of its sectors.  [Panic]
    stands for a failed assertion and for perror() followed by exit(1).  The
    host is little-endian; whether it can read or write a sector is the
    parameter [io].  What the program prints is left out.

    The theorem is about the image: it holds a file system in which every file
    has its contents. *)

From S2P Require Import Prelude Machine Spinlock CString ProcTable Proc Lifecycle Ready Aging.
From S2P Require Import ProcLemmas Scheduler Reach Blocking Kstate Sleeplock Solo.
From S2P Require Import Devices Disk Bio Cache Layout Log Crash Transaction Inode Console Fs Content Txn Alloc Bmap Writei.

(** ** The program *)

Definition NINODES : Z := 200.
Definition nbitmap : Z := FSSIZE / (BSIZE * 8) + 1.
Definition ninodeblocks : Z := NINODES / IPB + 1.
Definition nlog : Z := LOGSIZE.
Definition nmeta : Z := 2 + nlog + ninodeblocks + nbitmap.
Definition nblocks : Z := FSSIZE - nmeta.
Definition zeroes : list Z := replicate (Z.to_nat BSIZE) 0.

Record mkst := mk_mkst { img : list (list Z); freeinode : Z; freeblock : Z }.
#[export] Instance mkst_eta : Eta mkst := fun s => mk_mkst (img s) (freeinode s) (freeblock s).

(** The bytes of the number, least significant first, as they lie in memory. *)
Definition xshort (x : Z) : Z := le_decode (le_encode 2 x).
Definition xint (x : Z) : Z := le_decode (le_encode 4 x).

Definition make_sb : superblock :=
  mk_superblock (xint FSSIZE) (xint nblocks) (xint NINODES) (xint nlog) (xint 2) (xint (2 + nlog)) (xint (2 + nlog + ninodeblocks)).

(** A file on the command line: its name, and what the reads of it return if
    it can be opened. *)
Record arg := mk_arg { arg_name : list Z; arg_reads : option (list (list Z)) }.

(** [sec * BSIZE] is computed in 32 bits. *)
Definition sector (sec : Z) : nat := Z.to_nat (u32 (sec * BSIZE) / BSIZE).
(** Writing beyond the end of the image fills the gap with zeros. *)
Definition set_sector (n : nat) (d : list Z) (l : list (list Z)) : list (list Z) :=
  if (n <? length l)%nat then <[n := d]> l else l ++ replicate (n - length l) zeroes ++ [d].

Section mkfs.
Context (io : Z → bool).

Definition wsect (sec : Z) (buf : list Z) : M mkst unit :=
  if io sec then modify (fun s => s <| img ::= set_sector (sector sec) buf |>) else panic "write".
Definition rsect (sec : Z) : M mkst (list Z) := fun s =>
  match img s !! sector sec with
  | Some d => if io sec then Ret d s else Panic "read"
  | None => Panic "read"
  end.

Definition winode (inum : Z) (ip : dinode) : M mkst unit :=
  let bn := IBLOCK inum make_sb in
  buf <- rsect bn ;;
  buf <- try_get (fun _ => put_bytes buf (dinode_size * Z.to_nat (inum mod IPB)) (encode_dinode ip)) ;;
  wsect bn buf.
Definition rinode (inum : Z) : M mkst dinode :=
  buf <- rsect (IBLOCK inum make_sb) ;;
  try_get (fun _ => decode_dinode buf (dinode_size * Z.to_nat (inum mod IPB))).

Definition ialloc (type : Z) : M mkst Z :=
  inum <- gets freeinode ;;
  modify (fun s => s <| freeinode ::= fun n => u32 (n + 1) |>) ;;;
  winode inum (mk_dinode (xshort type) 0 0 (xshort 1) (xint 0) (replicate 13 0)) ;;;
  ret inum.

Fixpoint mark_used (n : nat) (i : Z) (buf : list Z) : option (list Z) :=
  match n with O => Some buf | S n' => buf ← set_bit buf i; mark_used n' (i + 1) buf end.
Definition balloc (used : Z) : M mkst unit :=
  if used <? BSIZE * 8 then
    buf <- try_get (fun _ => mark_used (Z.to_nat used) 0 zeroes) ;;
    wsect (sb_bmapstart make_sb) buf
  else panic "used < BSIZE*8".

(** [xint(freeblock++)] *)
Definition next_block : M mkst Z :=
  b <- gets freeblock ;; modify (fun s => s <| freeblock ::= fun n => u32 (n + 1) |>) ;;; ret (xint b).

(** The block for index [fbn], allocated when there is none. *)
Definition block_for (din : dinode) (fbn : Z) : M mkst (dinode * Z) :=
  if fbn <? NDIRECT then
    a <- try_get (fun _ => d_addrs din !! Z.to_nat fbn) ;;
    if xint a =? 0 then
      b <- next_block ;; ret (din <| d_addrs ::= <[Z.to_nat fbn := b]> |>, xint b)
    else ret (din, xint a)
  else
    a <- try_get (fun _ => d_addrs din !! Z.to_nat NDIRECT) ;;
    din <- (if xint a =? 0 then b <- next_block ;; ret (din <| d_addrs ::= <[Z.to_nat NDIRECT := b]> |>) else ret din) ;;
    a <- try_get (fun _ => d_addrs din !! Z.to_nat NDIRECT) ;;
    indirect <- rsect (xint a) ;;
    e <- try_get (fun _ => get32 indirect (4 * Z.to_nat (fbn - NDIRECT))) ;;
    if e =? 0 then
      b <- next_block ;;
      indirect <- try_get (fun _ => put32 indirect (4 * Z.to_nat (fbn - NDIRECT)) b) ;;
      wsect (xint a) indirect ;;;
      ret (din, xint b)
    else ret (din, xint e).

(** The loop of [iappend], over the bytes that are left. *)
Fixpoint iappend_loop (k : nat) (din : dinode) (off : Z) (p : list Z) : M mkst (dinode * Z) :=
  let n := Z.of_nat (length p) in
  if 0 <? n then
    match k with
    | O => fun _ => NoFuel
    | S k' =>
        let fbn := off / BSIZE in
        if fbn <? MAXFILE then
          r <- block_for din fbn ;;
          let n1 := Z.min n ((fbn + 1) * BSIZE - off) in
          buf <- rsect (snd r) ;;
          buf <- try_get (fun _ => put_bytes buf (Z.to_nat (off - fbn * BSIZE)) (take (Z.to_nat n1) p)) ;;
          wsect (snd r) buf ;;;
          iappend_loop k' (fst r) (off + n1) (drop (Z.to_nat n1) p)
        else panic "fbn < MAXFILE"
    end
  else ret (din, off).
Definition iappend (inum : Z) (p : list Z) : M mkst unit :=
  din <- rinode inum ;;
  r <- iappend_loop (length p) din (xint (d_size din)) p ;;
  winode inum ((fst r) <| d_size := xint (snd r) |>).

Fixpoint zero_image (n : nat) (i : Z) : M mkst unit :=
  match n with O => ret tt | S n' => wsect i zeroes ;;; zero_image n' (i + 1) end.

(** [strncpy(de.name, name, DIRSIZ)] into a structure of zeros. *)
Definition dir_entry (inum : Z) (name : list Z) : list Z :=
  encode_dirent (mk_dirent (xshort inum) (take DIRSIZ (name ++ replicate DIRSIZ 0))).

Fixpoint iappend_all (inum : Z) (reads : list (list Z)) : M mkst unit :=
  match reads with
  | [] => ret tt
  | buf :: reads' => if bool_decide (buf = []) then ret tt else iappend inum buf ;;; iappend_all inum reads'
  end.

Definition add_file (rootino : Z) (a : arg) : M mkst unit :=
  if bool_decide (47 ∈ arg_name a) then panic "index(argv[i], '/') == 0" else
  match arg_reads a with
  | None => panic "open"
  | Some reads =>
      let name := match arg_name a with 95 :: l => l | l => l end in
      inum <- ialloc T_FILE ;;
      iappend rootino (dir_entry inum name) ;;;
      iappend_all inum reads
  end.
Fixpoint add_files (rootino : Z) (l : list arg) : M mkst unit :=
  match l with [] => ret tt | a :: l' => add_file rootino a ;;; add_files rootino l' end.

(** [image]: whether the image file can be opened, if one is given. *)
Definition main (image : option bool) (files : list arg) : M mkst unit :=
  match image with
  | None => panic "Usage: mkfs fs.img files..."
  | Some false => panic "open"
  | Some true =>
  modify (fun _ => mk_mkst [] 1 nmeta) ;;;
  zero_image (Z.to_nat FSSIZE) 0 ;;;
  wsect 1 (encode_superblock make_sb ++ drop 28 zeroes) ;;;
  rootino <- ialloc T_DIR ;;
  if negb (rootino =? ROOTINO) then panic "rootino == ROOTINO" else
  iappend rootino (dir_entry rootino [46]) ;;;
  iappend rootino (dir_entry rootino [46; 46]) ;;;
  add_files rootino files ;;;
  din <- rinode rootino ;;
  let off := xint (d_size din) in
  let off := (off / BSIZE + 1) * BSIZE in
  winode rootino (din <| d_size := xint off |>) ;;;
  n <- gets freeblock ;;
  balloc n
  end.
End mkfs.
