(* ===== verification/MkImage.v ===== *)
(** * The image mkfs builds (mkfs.c)

    The invariant [fs_ok] describes an image on which some inodes have their
    contents, no two entries of inodes share a block, and the blocks from the
    first free one on are full of zeros.  [iappend] preserves it and appends to
    one file; the theorem follows the whole program. *)

From S2P Require Import Prelude Machine Spinlock CString ProcTable Proc Lifecycle Ready Aging.
From S2P Require Import ProcLemmas Scheduler Reach Blocking Kstate Sleeplock Solo.
From S2P Require Import Devices Disk Bio Cache Layout Log Crash Transaction Inode Console Fs Content Txn Alloc Bmap Writei Mkfs.

(** ** Entries of inodes *)

(** The inode the kernel has in memory for [d]. *)
Definition ino (d : dinode) : inode := mk_inode 1 0 0 1 (d_type d) (d_major d) (d_minor d) (d_nlink d) (d_size d) (d_addrs d).

(** The entry of block [bn], or that of the indirect block. *)
Definition blk (V : blocks) (d : dinode) (o : option Z) : Z := match o with Some bn => fb V (ino d) bn | None => ind (ino d) end.
Definition entry (o : option Z) : Prop := match o with Some bn => 0 ≤ bn < MAXFILE | None => True end.
Definition owned (V : blocks) (Y : list dinode) (j : nat) (o : option Z) : Z := match Y !! j with Some d => blk V d o | None => 0 end.

Record disjoint (V : blocks) (F : Z) (Y : list dinode) : Prop := {
  dj_free : nmeta ≤ F ≤ FSSIZE;
  dj_range : ∀ j o, entry o → owned V Y j o ≠ 0 → nmeta ≤ owned V Y j o < F;
  dj_inj : ∀ j o j' o', entry o → entry o' → owned V Y j o ≠ 0 → owned V Y j o = owned V Y j' o' → j = j' ∧ o = o';
  dj_zero : ∀ n, F ≤ n < FSSIZE → V n = Some zeros }.

Lemma nmeta_eq : nmeta = 59.
Proof. done. Qed.

(** The next free block is given to an entry. *)
Lemma disjoint_fill V F Y i o V' Y' : disjoint V F Y → F < FSSIZE → entry o → owned V Y i o = 0 →
  (∀ j o', entry o' → owned V' Y' j o' = if decide (j = i ∧ o' = o) then F else owned V Y j o') →
  (∀ n, F + 1 ≤ n < FSSIZE → V' n = V n) → disjoint V' (F + 1) Y'.
Proof.
  intros [D1 D2 D3 D4] HF Ho Hz Hown HV. split; [lia| | |].
  - intros j o' He. rewrite Hown by done. destruct (decide (j = i ∧ o' = o)); [lia|]. intros H. specialize (D2 j o' He H). lia.
  - intros j o' j' o'' He He'. rewrite !Hown by done.
    destruct (decide (j = i ∧ o' = o)) as [[-> ->]|H1], (decide (j' = i ∧ o'' = o)) as [[-> ->]|H2]; [done| | |by apply D3].
    + intros H E. specialize (D2 j' o'' He'). lia.
    + intros H E. specialize (D2 j o' He H). lia.
  - intros n Hn. rewrite HV by lia. apply D4. lia.
Qed.

(** A block is changed that no inode uses as its indirect block. *)
Lemma owned_put V F Y n d j o : disjoint V F Y → entry o → (∀ i, owned V Y i None ≠ 0 → owned V Y i None ≠ n) →
  owned (put_block V n d) Y j o = owned V Y j o.
Proof.
  intros D He Hn. unfold owned in *. specialize (Hn j). destruct (Y !! j) as [y|]; [|done]. destruct o as [bn|]; [|done]. cbn in *.
  apply fb_put. destruct (decide (ind (ino y) = 0)); [by right|left]. intros ->. by apply Hn.
Qed.
Lemma disjoint_put V F Y n d : disjoint V F Y → n < F → (∀ i, owned V Y i None ≠ 0 → owned V Y i None ≠ n) → disjoint (put_block V n d) F Y.
Proof.
  intros D Hlt Hn. pose proof D as [D1 D2 D3 D4]. split; [done| | |].
  - intros j o He. rewrite (owned_put _ F) by done. by apply D2.
  - intros j o j' o' He He'. rewrite !(owned_put _ F) by done. by apply D3.
  - intros m Hm. rewrite put_block_ne by lia. by apply D4.
Qed.

(** ** Files *)

(** Just the blocks below [size] are there. *)
Record shaped (V : blocks) (d : dinode) (size : Z) : Prop := {
  sh_size : 0 ≤ size ≤ MAXFILE * BSIZE;
  sh_blocks : ∀ bn, 0 ≤ bn < MAXFILE → fb V (ino d) bn ≠ 0 ↔ bn * BSIZE < size;
  sh_ind : ind (ino d) ≠ 0 ↔ NDIRECT * BSIZE < size }.
(** The blocks hold [c] and zeros after it. *)
Definition has_bytes (V : blocks) (d : dinode) (c : list Z) : Prop :=
  ∀ k, 0 ≤ k → k / BSIZE * BSIZE < Z.of_nat (length c) → file_byte V (ino d) k = Some (default 0 (c !! Z.to_nat k)).

(** The number of blocks of a file. *)
Definition nblk (size : Z) : Z := (size + BSIZE - 1) / BSIZE + if NDIRECT * BSIZE <? size then 1 else 0.
Definition total (C : list (list Z)) : Z := foldr (fun c n => nblk (Z.of_nat (length c)) + n) 0 C.

Record fs_ok (V : blocks) (F : Z) (Y : list dinode) (C : list (list Z)) : Prop := {
  fo_disjoint : disjoint V F Y;
  fo_count : F = nmeta + total C;
  fo_length : length Y = length C;
  fo_files : ∀ j d c, Y !! j = Some d → C !! j = Some c → dinode_ok d ∧ shaped V d (Z.of_nat (length c)) ∧ has_bytes V d c }.

(** Reading a byte needs the block and its entry. *)
Lemma file_byte_eq V V' y y' k : fb V y (k / BSIZE) ≠ 0 → fb V' y' (k / BSIZE) = fb V y (k / BSIZE) →
  V' (fb V y (k / BSIZE)) = V (fb V y (k / BSIZE)) → file_byte V' y' k = file_byte V y k.
Proof.
  intros Hz E1 E2. unfold file_byte. rewrite !fb_file_block by congruence. cbn [mbind option_bind]. by rewrite E1, E2.
Qed.

Lemma block_start k : 0 ≤ k → 0 ≤ k / BSIZE * BSIZE ≤ k ∧ k < k / BSIZE * BSIZE + BSIZE.
Proof. intros Hk. unfold BSIZE. pose proof (Z.div_mod k 512 ltac:(lia)). pose proof (Z.mod_pos_bound k 512 ltac:(lia)). pose proof (Z.div_pos k 512 Hk ltac:(lia)). lia. Qed.
Lemma shaped_block V d size k : shaped V d size → 0 ≤ k → k / BSIZE * BSIZE < size → fb V (ino d) (k / BSIZE) ≠ 0 ∧ 0 ≤ k / BSIZE < MAXFILE.
Proof.
  intros [S1 S2 S3] Hk Hlt. assert (0 ≤ k / BSIZE < MAXFILE) as Hb.
  { pose proof (block_start k Hk). assert (MAXFILE * BSIZE = 71680) by done. assert (MAXFILE = 140) by done. unfold BSIZE in *. lia. }
  split; [|done]. by apply S2.
Qed.

(** A file is not affected by what happens to other blocks. *)
Lemma file_kept V V' d d' c : (∀ o, entry o → blk V' d' o = blk V d o) → (∀ bn, 0 ≤ bn < MAXFILE → fb V (ino d) bn ≠ 0 → V' (fb V (ino d) bn) = V (fb V (ino d) bn)) →
  shaped V d (Z.of_nat (length c)) → has_bytes V d c → shaped V' d' (Z.of_nat (length c)) ∧ has_bytes V' d' c.
Proof.
  intros Hb Hv Hs Hc. pose proof Hs as [S1 S2 S3]. split; [split; [done| |]|].
  - intros bn Hbn. pose proof (Hb (Some bn) Hbn) as E. cbn in E. rewrite E. by apply S2.
  - pose proof (Hb None I) as E. cbn in E. by rewrite E.
  - intros k Hk Hlt. destruct (shaped_block _ _ _ _ Hs Hk Hlt) as [Hz Hbn]. rewrite <- (Hc k Hk Hlt). apply file_byte_eq; [done|apply (Hb (Some (k / BSIZE)) Hbn)|by apply Hv].
Qed.

(** Only the blocks of the super block, the log, the inodes and the bitmap change. *)
Lemma owned_meta V V' F Y j o : (∀ n, nmeta ≤ n → V' n = V n) → disjoint V F Y → owned V' Y j o = owned V Y j o.
Proof.
  intros Hv D. pose proof (dj_range _ _ _ D j None I) as Hr. unfold owned in *. destruct (Y !! j) as [y|]; [|done]. destruct o as [bn|]; [|done]. cbn in *.
  unfold fb. destruct (bn <? NDIRECT); [done|]. destruct (Z.eqb_spec (ind (ino y)) 0) as [|Hz]; [done|]. rewrite Hv; [done|]. by apply Hr.
Qed.
Lemma fs_ok_meta V V' F Y C : (∀ n, nmeta ≤ n → V' n = V n) → fs_ok V F Y C → fs_ok V' F Y C.
Proof.
  intros Hv [D Hc Hl Hf]. pose proof D as [D1 D2 D3 D4]. assert (∀ j o, owned V' Y j o = owned V Y j o) as Ho by (intros; by eapply owned_meta).
  split; [|done|done|].
  - split; [done| | |].
    + intros j o He. rewrite Ho. by apply D2.
    + intros j o j' o' He He'. rewrite !Ho. by apply D3.
    + intros n Hn. rewrite Hv by lia. by apply D4.
  - intros j d c Hd Hcj. destruct (Hf j d c Hd Hcj) as (F1 & F2 & F3). split; [done|]. eapply file_kept; [| |exact F2|exact F3].
    + intros o He. specialize (Ho j o). unfold owned in Ho. by rewrite Hd in Ho.
    + intros bn Hbn Hz. apply Hv. specialize (D2 j (Some bn) Hbn). unfold owned in D2. rewrite Hd in D2. cbn in D2. apply D2. done.
Qed.

(** Counting blocks. *)
Lemma nblk_step off : 0 ≤ off → nblk (off + 1) = nblk off + (if off mod BSIZE =? 0 then 1 else 0) + if off =? NDIRECT * BSIZE then 1 else 0.
Proof.
  intros H0. unfold nblk. change (NDIRECT * BSIZE) with 6144. unfold BSIZE. pose proof (Z.div_mod off 512 ltac:(lia)) as Hdm. pose proof (Z.mod_pos_bound off 512 ltac:(lia)) as Hm.
  assert ((off + 1 + 512 - 1) / 512 = off / 512 + 1) as -> by (symmetry; apply Z.div_unique with (off mod 512); lia).
  assert ((off + 512 - 1) / 512 = off / 512 + if off mod 512 =? 0 then 0 else 1) as ->.
  { destruct (Z.eqb_spec (off mod 512) 0) as [E|E]; symmetry; [apply Z.div_unique with 511|apply Z.div_unique with (off mod 512 - 1)]; lia. }
  destruct (Z.eqb_spec (off mod 512) 0), (Z.eqb_spec off 6144), (Z.ltb_spec 6144 (off + 1)), (Z.ltb_spec 6144 off); lia.
Qed.
Lemma nblk_same off n : 0 ≤ off → 1 ≤ n → n ≤ (off / BSIZE + 1) * BSIZE - off → nblk (off + n) = nblk (off + 1).
Proof.
  intros H0 H1 Hn. unfold nblk. change (NDIRECT * BSIZE) with 6144. unfold BSIZE in *. pose proof (Z.div_mod off 512 ltac:(lia)) as Hdm. pose proof (Z.mod_pos_bound off 512 ltac:(lia)) as Hm.
  assert (∀ m, 1 ≤ m → m ≤ (off / 512 + 1) * 512 - off → (off + m + 512 - 1) / 512 = off / 512 + 1) as E.
  { intros m Hm1 Hm2. symmetry. apply Z.div_unique with (off mod 512 + m - 1); lia. }
  rewrite !E by lia. f_equal. destruct (Z.ltb_spec 6144 (off + n)), (Z.ltb_spec 6144 (off + 1)); try done; exfalso; lia.
Qed.
Lemma shaped_step V d off : shaped V d off → off < MAXFILE * BSIZE → let bn := off / BSIZE in
  nblk (off + 1) = nblk off + (if fb V (ino d) bn =? 0 then 1 else 0) + if (NDIRECT <=? bn) && (ind (ino d) =? 0) then 1 else 0.
Proof.
  intros [S1 S2 S3] Hlt bn. rewrite nblk_step by lia. pose proof (block_index off ltac:(lia)) as Hb. specialize (S2 _ Hb). fold bn in S2.
  unfold bn in *. change (NDIRECT * BSIZE) with 6144 in *. unfold BSIZE, NDIRECT in *. pose proof (Z.div_mod off 512 ltac:(lia)) as Hdm. pose proof (Z.mod_pos_bound off 512 ltac:(lia)) as Hm.
  destruct (Z.eqb_spec (fb V (ino d) (off / 512)) 0), (Z.eqb_spec (ind (ino d)) 0), (Z.eqb_spec (off mod 512) 0), (Z.eqb_spec off 6144), (Z.leb_spec 12 (off / 512)); cbn [andb]; try lia; exfalso; lia.
Qed.

(** ** Sectors *)

Section image.
Context (io : Z → bool) (Hio : ∀ n, io n = true).

(** The image has the blocks [V]; [F] is the first free one. *)
Record shows (s : mkst) (V : blocks) (F : Z) : Prop := {
  sw_length : length (img s) = Z.to_nat FSSIZE;
  sw_sectors : ∀ n d, img s !! n = Some d → length d = Z.to_nat BSIZE;
  sw_view : ∀ n, 0 ≤ n → img s !! Z.to_nat n = V n;
  sw_free : freeblock s = F }.

Lemma sector_small n : 0 ≤ n < FSSIZE → sector n = Z.to_nat n.
Proof.
  intros Hn. unfold sector, u32. assert (FSSIZE = 1000) by done. rewrite Z.mod_small by (unfold BSIZE; lia). by rewrite Z.div_mul.
Qed.

Lemma rsect_at s V F n : shows s V F → 0 ≤ n < FSSIZE → ∃ d, rsect io n s = Ret d s ∧ V n = Some d ∧ length d = Z.to_nat BSIZE.
Proof.
  intros [S1 S2 S3 S4] Hn. destruct (lookup_lt_is_Some_2 (img s) (Z.to_nat n)) as [d Hd]; [lia|]. exists d.
  unfold rsect. rewrite sector_small, Hd, Hio by done. split; [done|]. split; [by rewrite <- S3 by lia|by eapply S2].
Qed.
Lemma wsect_at s V F n d : shows s V F → 0 ≤ n < FSSIZE → length d = Z.to_nat BSIZE →
  ∃ s', wsect io n d s = Ret tt s' ∧ shows s' (put_block V n d) F ∧ freeinode s' = freeinode s.
Proof.
  intros [S1 S2 S3 S4] Hn Hd. unfold wsect. rewrite Hio. eexists. split; [reflexivity|]. split; [|done].
  assert (set_sector (sector n) d (img s) = <[Z.to_nat n := d]> (img s)) as E.
  { unfold set_sector. rewrite sector_small by done. by rewrite (proj2 (Nat.ltb_lt _ _)) by lia. }
  split; cbn; rewrite ?E; [by rewrite length_insert| | |done].
  - intros m e. rewrite list_lookup_insert. case_decide; [by intros [= <-]|apply S2].
  - intros m Hm. unfold put_block. case_decide as Em; [subst; apply list_lookup_insert_eq; lia|]. rewrite list_lookup_insert_ne; [by apply S3|].
    intros E2%Z2Nat.inj; lia.
Qed.
Lemma xint_small x : 0 ≤ x < 2 ^ 32 → xint x = x.
Proof. intros Hx. unfold xint. rewrite le_decode_encode. by apply Z.mod_small. Qed.
Lemma next_block_at s V F : shows s V F → 0 ≤ F < FSSIZE → ∃ s', next_block s = Ret F s' ∧ shows s' V (F + 1) ∧ freeinode s' = freeinode s.
Proof.
  intros [S1 S2 S3 S4] HF. assert (FSSIZE = 1000) by done. change (next_block s) with (Ret (xint (freeblock s)) (s <| freeblock ::= fun n => u32 (n + 1) |>)). rewrite S4, xint_small by lia.
  eexists. split; [reflexivity|]. split; [|done]. split; cbn; try done. rewrite S4. unfold u32. apply Z.mod_small. lia.
Qed.

(** ** The block for an index *)

(** The entry [o] of inode [i] was given the block [F]. *)
Definition gave (V : blocks) (Y : list dinode) (i : nat) (o : option Z) (F : Z) (V' : blocks) (Y' : list dinode) : Prop :=
  ∀ j o', entry o' → owned V' Y' j o' = if decide (j = i ∧ o' = o) then F else owned V Y j o'.

Lemma gave_one V Y i o F V' d d' : Y !! i = Some d → (∀ o', entry o' → blk V' d' o' = if decide (o' = o) then F else blk V d o') →
  (∀ j e o', j ≠ i → Y !! j = Some e → entry o' → blk V' e o' = blk V e o') → gave V Y i o F V' (<[i := d']> Y).
Proof.
  intros Hd Hb Hother j o' He. unfold owned. destruct (decide (j = i)) as [->|Hne].
  - rewrite list_lookup_insert_eq by (by eapply lookup_lt_Some). rewrite Hb, Hd by done. destruct (decide (o' = o)), (decide (i = i ∧ o' = o)); tauto.
  - rewrite list_lookup_insert_ne by done. rewrite decide_False by tauto. destruct (Y !! j) as [e|] eqn:E; [|done]. by eapply Hother.
Qed.

Lemma gave_direct V Y i bn F d : Y !! i = Some d → length (d_addrs d) = 13%nat → 0 ≤ bn < NDIRECT →
  gave V Y i (Some bn) F V (<[i := d <| d_addrs ::= <[Z.to_nat bn := F]> |>]> Y).
Proof.
  intros Hd Hlen Hbn. apply (gave_one _ _ _ _ _ _ d); [done| |done]. intros [b|] He; cbn in He.
  - change (blk V _ (Some b)) with (fb V ((ino d) <| i_addrs ::= <[Z.to_nat bn := F]> |>) b) at 1. rewrite fb_set_direct by (done || lia).
    destruct (decide (b = bn)) as [->|Hne]; [by rewrite decide_True|by rewrite decide_False by congruence].
  - rewrite decide_False by done. by apply (ind_set_direct (ino d)).
Qed.
Lemma gave_ind V Y i F d : Y !! i = Some d → length (d_addrs d) = 13%nat → ind (ino d) = 0 → V F = Some zeros →
  gave V Y i None F V (<[i := d <| d_addrs ::= <[Z.to_nat NDIRECT := F]> |>]> Y).
Proof.
  intros Hd Hlen Hi Hz. apply (gave_one _ _ _ _ _ _ d); [done| |done]. intros [b|] He; cbn in He.
  - rewrite decide_False by done. apply (fb_set_ind V (ino d)); (done || lia).
  - rewrite decide_True by done. by apply (ind_set_ind (ino d)).
Qed.
Lemma gave_entry V FF Y i bn F d b b' : disjoint V FF Y → Y !! i = Some d → ind (ino d) ≠ 0 → V (ind (ino d)) = Some b →
  put32 b (4 * Z.to_nat (bn - NDIRECT)) F = Some b' → NDIRECT ≤ bn → 0 ≤ F < 2 ^ 32 →
  gave V Y i (Some bn) F (put_block V (ind (ino d)) b') Y.
Proof.
  intros D Hd Hi Hb Hput Hbn HF. rewrite <- (list_insert_id Y i d Hd) at 2. apply (gave_one _ _ _ _ _ _ d); [done| |].
  - intros [n|] He; cbn in He |- *; [|by rewrite decide_False]. rewrite (fb_set_entry V (ino d) bn F b b' n) by done.
    destruct (decide (n = bn)) as [->|Hne]; [by rewrite decide_True|by rewrite decide_False by congruence].
  - intros j e [n|] Hj He Hn; cbn; [|done]. apply fb_put. destruct (decide (ind (ino e) = 0)) as [|Hz]; [by right|left]. intros E.
    destruct (dj_inj _ _ _ D i None j None I I) as [? _]; [unfold owned; by rewrite Hd|unfold owned; by rewrite Hd, He|done].
Qed.

(** Entries are filled, of block [bn] and of the indirect block of inode [i]. *)
Record extends (V : blocks) (Y : list dinode) (i : nat) (bn : Z) (V' : blocks) (Y' : list dinode) : Prop := {
  ex_kept : ∀ j o, entry o → owned V Y j o ≠ 0 → owned V' Y' j o = owned V Y j o;
  ex_new : ∀ j o, entry o → owned V' Y' j o ≠ 0 → owned V Y j o ≠ 0 ∨ j = i ∧ (o = None ∧ NDIRECT ≤ bn ∨ o = Some bn);
  ex_data : ∀ n, 0 < n → n ≠ owned V' Y' i None → V' n = V n }.

Lemma extends_refl V Y i bn : extends V Y i bn V Y.
Proof. split; [done|by left|done]. Qed.
Lemma extends_trans V Y i bn V1 Y1 V2 Y2 : extends V Y i bn V1 Y1 → extends V1 Y1 i bn V2 Y2 → extends V Y i bn V2 Y2.
Proof.
  intros [A1 A2 A3] [B1 B2 B3]. split.
  - intros j o He Hz. rewrite B1, A1 by (rewrite ?A1; done). done.
  - intros j o He Hz. destruct (B2 j o He Hz) as [H|H]; [by apply A2|by right].
  - intros n Hn Hne. rewrite B3, A3; [done|done| |done|done]. intros ->. destruct (decide (owned V1 Y1 i None = 0)); [lia|]. rewrite B1 in Hne by done. done.
Qed.
Lemma extends_gave V Y i bn o F V' Y' : gave V Y i o F V' Y' → owned V Y i o = 0 → o = None ∧ NDIRECT ≤ bn ∨ o = Some bn →
  (∀ n, 0 < n → n ≠ owned V' Y' i None → V' n = V n) → extends V Y i bn V' Y'.
Proof.
  intros Hg Hz Ho Hv. split; [| |done].
  - intros j o' He Hnz. rewrite Hg, decide_False; [done| |done]. intros [-> ->]. done.
  - intros j o' He. rewrite Hg by done. destruct (decide (j = i ∧ o' = o)) as [[-> ->]|]; [by right|by left].
Qed.

(** What [block_for] needs and what it gives. *)
Record blocked (s : mkst) (V : blocks) (F : Z) (Y : list dinode) (i : nat) (d : dinode) : Prop := {
  bk_shows : shows s V F;
  bk_disjoint : disjoint V F Y;
  bk_inode : Y !! i = Some d;
  bk_ok : dinode_ok d }.

Lemma owned_at V Y i d o : Y !! i = Some d → owned V Y i o = blk V d o.
Proof. intros H. unfold owned. by rewrite H. Qed.
Lemma set_addr_ok d k F : dinode_ok d → 0 ≤ F < FSSIZE → dinode_ok (d <| d_addrs ::= <[k := F]> |>).
Proof.
  intros [D1 D2 D3 D4 D5 D6 D7] HF. split; try done; cbn; [|by rewrite length_insert]. apply Forall_insert; [done|]. unfold word. assert (FSSIZE = 1000) by done. lia.
Qed.

(** A new block for entry [k] of the addresses. *)
Lemma blocked_addr s V F Y i d o k : blocked s V F Y i d → F < FSSIZE → entry o → owned V Y i o = 0 →
  gave V Y i o F V (<[i := d <| d_addrs ::= <[k := F]> |>]> Y) →
  ∃ s', next_block s = Ret F s' ∧ blocked s' V (F + 1) (<[i := d <| d_addrs ::= <[k := F]> |>]> Y) i (d <| d_addrs ::= <[k := F]> |>) ∧
    freeinode s' = freeinode s.
Proof.
  intros [B1 B2 B3 B4] HF He Hz Hg. pose proof (dj_free _ _ _ B2) as HF0. rewrite nmeta_eq in HF0.
  destruct (next_block_at s V F B1) as (s' & E & S & Hi); [lia|]. exists s'. split; [done|]. split; [|done].
  split; [done|by eapply disjoint_fill|apply list_lookup_insert_eq; by eapply lookup_lt_Some|apply set_addr_ok; [done|lia]].
Qed.
Lemma dinode_addr d k : dinode_ok d → (k < 13)%nat → ∃ a, d_addrs d !! k = Some a ∧ xint a = a.
Proof.
  intros Hok Hk. destruct (lookup_lt_is_Some_2 (d_addrs d) k) as [a Ha]; [by rewrite (dok_len _ Hok)|]. exists a. split; [done|].
  apply xint_small. exact (proj1 (Forall_lookup _ _) (dok_addrs _ Hok) k a Ha).
Qed.

Lemma block_for_direct s V F Y i d bn : blocked s V F Y i d → 0 ≤ bn < NDIRECT → (fb V (ino d) bn = 0 → F < FSSIZE) →
  ∃ s' d', block_for io d bn s = Ret (d', fb V (ino d') bn) s' ∧ fb V (ino d') bn ≠ 0 ∧
    blocked s' V (F + if fb V (ino d) bn =? 0 then 1 else 0) (<[i := d']> Y) i d' ∧ extends V Y i bn V (<[i := d']> Y) ∧
    d' = d <| d_addrs := d_addrs d' |> ∧ freeinode s' = freeinode s ∧ (fb V (ino d) bn = 0 → V (fb V (ino d') bn) = Some zeros).
Proof.
  intros HB Hbn HF. pose proof HB as [B1 B2 B3 B4]. pose proof (dj_free _ _ _ B2) as HF0. rewrite nmeta_eq in HF0. assert (FSSIZE = 1000) as HS by done.
  destruct (dinode_addr d (Z.to_nat bn) B4) as (a & Ha & Hx); [unfold NDIRECT in *; lia|].
  assert (fb V (ino d) bn = a) as Hfa by (unfold fb; rewrite (proj2 (Z.ltb_lt _ _)) by lia; cbn; by rewrite Ha).
  unfold block_for. rewrite (proj2 (Z.ltb_lt _ _)) by lia. rewrite (bind_ret _ _ _ a s) by (unfold try_get; by rewrite Ha). rewrite Hx.
  assert (bn < MAXFILE) as Hm by (assert (NDIRECT < MAXFILE) by done; lia).
  rewrite Hfa in *. destruct (Z.eqb_spec a 0) as [->|Hz].
  - pose proof (gave_direct V Y i bn F d B3 (dok_len _ B4) Hbn) as Hg. assert (owned V Y i (Some bn) = 0) as Hz by (by rewrite (owned_at _ _ _ _ _ B3)).
    destruct (blocked_addr s V F Y i d (Some bn) (Z.to_nat bn) HB (HF eq_refl)) as (s' & E & HB' & Hi); [cbn; lia|done|exact Hg|].
    rewrite (bind_ret _ _ _ _ _ E), xint_small by lia. exists s', (d <| d_addrs ::= <[Z.to_nat bn := F]> |>).
    assert (fb V (ino (d <| d_addrs ::= <[Z.to_nat bn := F]> |>)) bn = F) as ->.
    { pose proof (Hg i (Some bn) ltac:(cbn; lia)) as H. rewrite decide_True in H by done. rewrite (owned_at _ _ _ _ _ (bk_inode _ _ _ _ _ _ HB')) in H. exact H. }
    split; [reflexivity|]. split; [lia|]. split; [done|]. split; [eapply extends_gave; [exact Hg|done|by right|done]|]. split; [done|]. split; [done|]. intros _. apply (dj_zero _ _ _ B2). specialize (HF eq_refl). lia.
  - exists s, d. rewrite Hfa, Z.add_0_r, list_insert_id by done. split; [done|]. split; [done|]. split; [done|]. split; [apply extends_refl|]. split; [by destruct d|done].
Qed.

(** The indirect block. *)
Lemma block_for_ind s V F Y i d bn : blocked s V F Y i d → NDIRECT ≤ bn → (ind (ino d) = 0 → F < FSSIZE) →
  ∃ s' d', (if ind (ino d) =? 0 then b <- next_block ;; ret (d <| d_addrs ::= <[Z.to_nat NDIRECT := b]> |>) else ret d) s = Ret d' s' ∧
    ind (ino d') ≠ 0 ∧ blocked s' V (F + if ind (ino d) =? 0 then 1 else 0) (<[i := d']> Y) i d' ∧ extends V Y i bn V (<[i := d']> Y) ∧
    d' = d <| d_addrs := d_addrs d' |> ∧ freeinode s' = freeinode s ∧ ∀ b, 0 ≤ b → fb V (ino d') b = fb V (ino d) b.
Proof.
  intros HB Hbn HF. pose proof HB as [B1 B2 B3 B4]. pose proof (dj_free _ _ _ B2) as HF0. rewrite nmeta_eq in HF0.
  destruct (Z.eqb_spec (ind (ino d)) 0) as [Hz|Hz].
  - specialize (HF Hz). pose proof (gave_ind V Y i F d B3 (dok_len _ B4) Hz (dj_zero _ _ _ B2 F ltac:(lia))) as Hg.
    assert (owned V Y i None = 0) as Ho by (by rewrite (owned_at _ _ _ _ _ B3)).
    destruct (blocked_addr s V F Y i d None (Z.to_nat NDIRECT) HB HF I Ho Hg) as (s' & E & HB' & Hi).
    rewrite (bind_ret _ _ _ _ _ E). exists s', (d <| d_addrs ::= <[Z.to_nat NDIRECT := F]> |>).
    split; [done|]. split; [intros E0; assert (0 = F) by (rewrite <- E0; exact (ind_set_ind (ino d) F (dok_len _ B4))); lia|]. split; [done|]. split; [eapply extends_gave; [exact Hg|done|by left|done]|].
    split; [done|]. split; [done|]. intros b Hb. apply (fb_set_ind V (ino d) F b (dok_len _ B4) Hz); [|done]. apply (dj_zero _ _ _ B2). lia.
  - exists s, d. rewrite Z.add_0_r, list_insert_id by done. split; [done|]. split; [done|]. split; [done|]. split; [apply extends_refl|]. by destruct d.
Qed.

(** The entry in the indirect block. *)
Lemma block_for_entry s V F Y i d bn : blocked s V F Y i d → NDIRECT ≤ bn < MAXFILE → ind (ino d) ≠ 0 → (fb V (ino d) bn = 0 → F < FSSIZE) →
  ∃ s' V', (indirect <- rsect io (ind (ino d)) ;; e <- try_get (fun _ => get32 indirect (4 * Z.to_nat (bn - NDIRECT))) ;;
      if e =? 0 then b <- next_block ;; indirect <- try_get (fun _ => put32 indirect (4 * Z.to_nat (bn - NDIRECT)) b) ;;
        wsect io (ind (ino d)) indirect ;;; ret (d, xint b)
      else ret (d, xint e)) s = Ret (d, fb V' (ino d) bn) s' ∧ fb V' (ino d) bn ≠ 0 ∧
    blocked s' V' (F + if fb V (ino d) bn =? 0 then 1 else 0) Y i d ∧ extends V Y i bn V' Y ∧ freeinode s' = freeinode s ∧
    (∀ n, n < nmeta → V' n = V n) ∧ (fb V (ino d) bn = 0 → V' (fb V' (ino d) bn) = Some zeros).
Proof.
  intros HB Hbn Hi HF. pose proof HB as [B1 B2 B3 B4]. pose proof (dj_free _ _ _ B2) as HF0. rewrite nmeta_eq in HF0. assert (FSSIZE = 1000) as HS by done.
  pose proof (dj_range _ _ _ B2 i None I) as Hr. rewrite (owned_at _ _ _ _ _ B3) in Hr. cbn in Hr. specialize (Hr Hi). rewrite nmeta_eq in Hr.
  destruct (rsect_at s V F (ind (ino d)) B1) as (b & E1 & Hb & Hlen); [lia|]. rewrite (bind_ret _ _ _ _ _ E1). set (o := (4 * Z.to_nat (bn - NDIRECT))%nat).
  assert (o + 4 ≤ length b)%nat as Ho by (assert (MAXFILE = NDIRECT + 128) by done; rewrite Hlen; unfold o, BSIZE; lia).
  destruct (get32_Some b o Ho) as [e He]. rewrite (bind_ret _ _ _ e s) by (unfold try_get; by rewrite He).
  assert (fb V (ino d) bn = e) as Hfe.
  { unfold fb. rewrite (proj2 (Z.ltb_ge _ _)), (proj2 (Z.eqb_neq _ _) Hi), Hb by lia. cbn [mbind option_bind]. fold o. by rewrite He. }
  assert (entry (Some bn)) as Hent by (cbn; unfold NDIRECT in *; lia). rewrite Hfe in *. destruct (Z.eqb_spec e 0) as [->|Hz].
  - specialize (HF eq_refl). destruct (next_block_at s V F B1) as (s1 & E2 & S1 & Hi1); [lia|]. rewrite (bind_ret _ _ _ _ _ E2).
    destruct (put32_Some b o F Ho) as [b' Hput]. rewrite (bind_ret _ _ _ b' s1) by (unfold try_get; by rewrite Hput).
    destruct (wsect_at s1 V (F + 1) (ind (ino d)) b' S1) as (s2 & E3 & S2 & Hi2); [lia|rewrite <- Hlen; by eapply put_bytes_length|].
    rewrite (bind_ret _ _ _ _ _ E3), xint_small by lia. pose proof (gave_entry V F Y i bn F d b b' B2 B3 Hi Hb Hput ltac:(lia) ltac:(lia)) as Hg.
    exists s2, (put_block V (ind (ino d)) b'). pose proof (Hg i (Some bn) Hent) as Hf. rewrite decide_True, (owned_at _ _ _ _ _ B3) in Hf by done. cbn in Hf. rewrite Hf.
    assert (owned V Y i (Some bn) = 0) as Ho0 by (by rewrite (owned_at _ _ _ _ _ B3)).
    split; [done|]. split; [lia|]. split; [|split; [|split; [by rewrite Hi2|split; [intros n Hn; apply put_block_ne; rewrite nmeta_eq in Hn; lia|intros _; rewrite put_block_ne by lia; apply (dj_zero _ _ _ B2); lia]]]].
    + split; [done| |done|done]. eapply disjoint_fill; [exact B2|done|exact Hent|done|exact Hg|]. intros n Hn. apply put_block_ne. lia.
    + eapply extends_gave; [exact Hg|done|by right|]. intros n Hn. rewrite (owned_at _ _ _ _ _ B3). cbn. intros Hne. by apply put_block_ne.
  - exists s, V. rewrite Hfe, Z.add_0_r. split; [|split; [done|split; [done|split; [apply extends_refl|done]]]].
    pose proof (dj_range _ _ _ B2 i (Some bn) Hent) as Hr'. rewrite (owned_at _ _ _ _ _ B3) in Hr'. cbn in Hr'. rewrite Hfe in Hr'. specialize (Hr' Hz). rewrite nmeta_eq in Hr'.
    rewrite xint_small by lia. done.
Qed.

Lemma block_for_at s V F Y i d off : blocked s V F Y i d → shaped V d off → off < MAXFILE * BSIZE → F + nblk (off + 1) - nblk off ≤ FSSIZE → let bn := off / BSIZE in
  ∃ s' V' d', block_for io d bn s = Ret (d', fb V' (ino d') bn) s' ∧ fb V' (ino d') bn ≠ 0 ∧
    blocked s' V' (F + nblk (off + 1) - nblk off) (<[i := d']> Y) i d' ∧ extends V Y i bn V' (<[i := d']> Y) ∧
    (NDIRECT ≤ bn → ind (ino d') ≠ 0) ∧ d' = d <| d_addrs := d_addrs d' |> ∧ freeinode s' = freeinode s ∧ (∀ n, n < nmeta → V' n = V n) ∧
    (fb V (ino d) bn = 0 → V' (fb V' (ino d') bn) = Some zeros).
Proof.
  intros HB Hs Hlt HF bn. pose proof (block_index off ltac:(destruct Hs; lia)) as Hbn. fold bn in Hbn. pose proof (shaped_step V d off Hs Hlt) as Hst. fold bn in Hst. cbv zeta in Hst.
  destruct (Z.lt_ge_cases bn NDIRECT) as [Hd|Hd].
  - rewrite (proj2 (Z.leb_gt _ _) Hd) in Hst. cbn [andb] in Hst.
    destruct (block_for_direct s V F Y i d bn HB) as (s' & d' & E & Hz & HB' & Hex & Hd' & Hi & Hzero); [lia|intros Hz; rewrite Hz in Hst; cbn in Hst; lia|].
    exists s', V, d'. replace (F + nblk (off + 1) - nblk off) with (F + if fb V (ino d) bn =? 0 then 1 else 0) by lia. split_and!; try done. lia.
  - rewrite (proj2 (Z.leb_le _ _) Hd) in Hst. cbn [andb] in Hst. pose proof HB as [B1 B2 B3 B4].
    destruct (block_for_ind s V F Y i d bn HB Hd) as (s1 & d1 & E1 & Hi1 & HB1 & Hex1 & Hd1 & Hf1 & Hfb1); [intros Hz; rewrite Hz in Hst; cbn in Hst; destruct (fb V (ino d) bn =? 0); lia|].
    pose proof (Hfb1 bn ltac:(lia)) as Hfb. set (F1 := F + if ind (ino d) =? 0 then 1 else 0) in *.
    destruct (block_for_entry s1 V F1 (<[i := d1]> Y) i d1 bn HB1) as (s2 & V2 & E2 & Hz & HB2 & Hex2 & Hf2 & Hm2 & Hzero); [lia|done|rewrite Hfb; intros Hz; rewrite Hz in Hst; cbn in Hst; unfold F1; lia|].
    rewrite Hfb in HB2. exists s2, V2, d1. replace (F + nblk (off + 1) - nblk off) with (F1 + if fb V (ino d) bn =? 0 then 1 else 0) by (unfold F1; lia).
    split_and!; try done; [|by eapply extends_trans|congruence|intros H0; apply Hzero; by rewrite Hfb].
    destruct (dinode_addr d (Z.to_nat NDIRECT) B4) as (a & Ha & Hx); [unfold NDIRECT; lia|].
    destruct (dinode_addr d1 (Z.to_nat NDIRECT) (bk_ok _ _ _ _ _ _ HB1)) as (a1 & Ha1 & Hx1); [unfold NDIRECT; lia|].
    assert (ind (ino d) = a ∧ ind (ino d1) = a1) as [Ea Ea1] by (unfold ind; cbn [i_addrs ino]; by rewrite Ha, Ha1). rewrite Ea in E1. rewrite Ea1 in E2.
    unfold block_for. rewrite (proj2 (Z.ltb_ge _ _) Hd), (bind_ret _ _ _ a s) by (unfold try_get; by rewrite Ha).
    rewrite Hx, (bind_ret _ _ _ _ _ E1), (bind_ret _ _ _ a1 s1) by (unfold try_get; by rewrite Ha1). rewrite Hx1. exact E2.
Qed.

(** ** Appending within one block *)

Lemma owned_kept V F Y i bn V' F' Y' j o : disjoint V F Y → disjoint V' F' Y' → extends V Y i bn V' Y' → entry o → j ≠ i ∨ (o ≠ None ∨ bn < NDIRECT) ∧ o ≠ Some bn →
  owned V' Y' j o = owned V Y j o.
Proof.
  intros D D' [X1 X2 X3] He Hne. destruct (decide (owned V Y j o = 0)) as [Hz|Hz]; [|by apply X1]. rewrite Hz.
  destruct (decide (owned V' Y' j o = 0)) as [|Hz']; [done|]. destruct (X2 j o He Hz') as [|[-> [[-> ?]| ->]]]; [done| |]; exfalso.
  - destruct Hne as [|[[|] _]]; [done|done|lia].
  - destruct Hne as [|[_ ?]]; done.
Qed.

(** Data blocks are not touched by new entries. *)
Lemma data_kept V F Y i bn V' F' Y' j b : disjoint V F Y → disjoint V' F' Y' → extends V Y i bn V' Y' → entry (Some b) → owned V Y j (Some b) ≠ 0 →
  V' (owned V Y j (Some b)) = V (owned V Y j (Some b)).
Proof.
  intros D D' X He Hz. pose proof (dj_range _ _ _ D j (Some b) He Hz) as Hr. rewrite nmeta_eq in Hr. apply (ex_data _ _ _ _ _ _ X); [lia|]. intros E.
  rewrite <- (ex_kept _ _ _ _ _ _ X j (Some b) He Hz) in E. destruct (dj_inj _ _ _ D' j (Some b) i None He I) as [_ ?]; [|done|done].
  by rewrite (ex_kept _ _ _ _ _ _ X j (Some b) He Hz).
Qed.

Section append.
Context {V : blocks} {F : Z} {Y : list dinode} {i : nat} {d : dinode} {off : Z} {V1 : blocks} {F1 : Z} {d1 : dinode}.
Context (D : disjoint V F Y) (Hd : Y !! i = Some d) (Hs : shaped V d off) (Hoff : off < MAXFILE * BSIZE).
Let bn : Z := off / BSIZE.
Let Y1 : list dinode := <[i := d1]> Y.
Context (D1 : disjoint V1 F1 Y1) (X : extends V Y i bn V1 Y1) (Hx : fb V1 (ino d1) bn ≠ 0) (Hi : NDIRECT ≤ bn → ind (ino d1) ≠ 0).
Context {l b b' : list Z} (Hl : l ≠ []) (Hfit : Z.of_nat (length l) ≤ (bn + 1) * BSIZE - off).
Let x : Z := fb V1 (ino d1) bn.
Context (Hb : V1 x = Some b) (Hzero : fb V (ino d) bn = 0 → V1 x = Some zeros) (Hput : put_bytes b (Z.to_nat (off - bn * BSIZE)) l = Some b').
Let V2 : blocks := put_block V1 x b'.

Lemma app_bn : 0 ≤ bn < MAXFILE ∧ 0 ≤ off ∧ off - bn * BSIZE = off mod BSIZE.
Proof.
  pose proof (sh_size _ _ _ Hs). split; [apply block_index; lia|]. split; [lia|]. unfold bn, BSIZE. pose proof (Z.div_mod off 512 ltac:(lia)). lia.
Qed.
Lemma app_inode : Y1 !! i = Some d1.
Proof. unfold Y1. apply list_lookup_insert_eq. by eapply lookup_lt_Some. Qed.
Lemma app_x : owned V1 Y1 i (Some bn) = x.
Proof. by rewrite (owned_at _ _ _ _ _ app_inode). Qed.
Lemma app_x_ind j : owned V1 Y1 j None ≠ 0 → owned V1 Y1 j None ≠ x.
Proof.
  intros Hz E. rewrite <- app_x in E. destruct app_bn as [Hbn _]. destruct (dj_inj _ _ _ D1 j None i (Some bn) I Hbn Hz E) as [_ ?]. done.
Qed.
Lemma app_disjoint : disjoint V2 F1 Y1.
Proof.
  apply disjoint_put; [done| |apply app_x_ind]. destruct app_bn as [Hbn _]. pose proof (dj_range _ _ _ D1 i (Some bn) Hbn) as Hr. rewrite app_x in Hr. apply Hr. done.
Qed.
Lemma app_owned j o : entry o → owned V2 Y1 j o = owned V1 Y1 j o.
Proof. intros He. eapply owned_put; [exact D1|done|apply app_x_ind]. Qed.
Lemma app_fb n : 0 ≤ n < MAXFILE → fb V2 (ino d1) n = fb V1 (ino d1) n.
Proof. intros Hn. pose proof (app_owned i (Some n) Hn) as H. rewrite !(owned_at _ _ _ _ _ app_inode) in H. exact H. Qed.
Lemma app_fb_other n : 0 ≤ n < MAXFILE → n ≠ bn → fb V2 (ino d1) n = fb V (ino d) n.
Proof.
  intros Hn Hne. rewrite app_fb by done. assert (owned V1 Y1 i (Some n) = owned V Y i (Some n)) as H.
  { eapply owned_kept; [exact D|exact D1|exact X|exact Hn|]. right. split; [by left|congruence]. }
  rewrite (owned_at _ _ _ _ _ app_inode), (owned_at _ _ _ _ _ Hd) in H. exact H.
Qed.

(** Other files. *)
Lemma app_other j e c : j ≠ i → Y !! j = Some e → shaped V e (Z.of_nat (length c)) → has_bytes V e c →
  shaped V2 e (Z.of_nat (length c)) ∧ has_bytes V2 e c.
Proof.
  intros Hj He Hse Hc. assert (Y1 !! j = Some e) as He1 by (unfold Y1; by rewrite list_lookup_insert_ne). eapply file_kept; [| |exact Hse|exact Hc].
  - intros o Ho. pose proof (app_owned j o Ho) as H. rewrite (owned_kept V F Y i bn V1 F1 Y1 j o D D1 X Ho ltac:(by left)) in H.
    by rewrite (owned_at _ _ _ _ _ He1), (owned_at _ _ _ _ _ He) in H.
  - intros n Hn Hz. pose proof (data_kept V F Y i bn V1 F1 Y1 j n D D1 X Hn) as Hk. rewrite (owned_at _ _ _ _ _ He) in Hk. cbn in Hk. rewrite <- Hk by done.
    apply put_block_ne. intros E. destruct app_bn as [Hbn _]. rewrite <- app_x in E.
    pose proof (ex_kept _ _ _ _ _ _ X j (Some n) Hn) as Ek. rewrite (owned_at _ _ _ _ _ He) in Ek. cbn in Ek. specialize (Ek Hz). rewrite <- Ek in E.
    destruct (dj_inj _ _ _ D1 j (Some n) i (Some bn) Hn Hbn) as [? _]; [congruence|done|done].
Qed.

Lemma app_shaped : shaped V2 d1 (off + Z.of_nat (length l)).
Proof.
  destruct app_bn as (Hbn & H0 & Hm). pose proof Hs as [S1 S2 S3]. assert (0 < Z.of_nat (length l)) as Hpos by (destruct l; [done|cbn; lia]).
  unfold bn in Hbn, Hm, Hfit. pose proof (Z.mod_pos_bound off BSIZE ltac:(done)) as Hmod. assert (MAXFILE * BSIZE = 71680) as HM by done. assert (MAXFILE = 140) as HM' by done. split.
  - unfold BSIZE in *. lia.
  - intros n Hn. destruct (decide (n = bn)) as [->|Hne].
    + rewrite app_fb by done. split; [|done]. intros _. unfold bn, BSIZE in *. lia.
    + rewrite app_fb_other, S2 by done. unfold bn, BSIZE in *. split; lia.
  - destruct (Z.lt_ge_cases bn NDIRECT) as [Hlt|Hge].
    + assert (owned V1 Y1 i None = owned V Y i None) as H.
      { eapply owned_kept; [exact D|exact D1|exact X|exact I|]. right. split; [by right|done]. }
      rewrite (owned_at _ _ _ _ _ app_inode), (owned_at _ _ _ _ _ Hd) in H. cbn in H. rewrite H, S3. unfold bn, BSIZE, NDIRECT in *. split; lia.
    + split; [|intros _; by apply Hi]. intros _. unfold bn, BSIZE, NDIRECT in *. lia.
Qed.

(** The block that is written, before. *)
Lemma app_block c k : off = Z.of_nat (length c) → has_bytes V d c → 0 ≤ k → k / BSIZE = bn → b !! Z.to_nat (k mod BSIZE) = Some (default 0 (c !! Z.to_nat k)).
Proof.
  intros Hc Hby Hk E. destruct app_bn as (Hbn & H0 & Hm). pose proof (block_start k Hk) as Hks. pose proof (Z.mod_pos_bound k BSIZE ltac:(done)) as Hmodk. destruct (decide (fb V (ino d) bn = 0)) as [Hz|Hz].
  - specialize (Hzero Hz). rewrite Hb in Hzero. injection Hzero as ->. assert (¬ bn * BSIZE < off) as Hle by (intros H; by apply (sh_blocks _ _ _ Hs) in H).
    rewrite (lookup_ge_None_2 c) by (rewrite <- E in Hle; lia). unfold zeros. apply lookup_replicate_2. unfold BSIZE in *. lia.
  - assert (k / BSIZE * BSIZE < off) as Hlt by (rewrite E; by apply (sh_blocks _ _ _ Hs)). rewrite <- (Hby k Hk) by lia. unfold file_byte. rewrite (fb_file_block V), E by (by rewrite E). cbn [mbind option_bind].
    pose proof (data_kept V F Y i bn V1 F1 Y1 i bn D D1 X Hbn) as Hk1. rewrite (owned_at _ _ _ _ _ Hd) in Hk1. cbn in Hk1. rewrite <- Hk1 by done.
    pose proof (ex_kept _ _ _ _ _ _ X i (Some bn) Hbn) as Ek. rewrite (owned_at _ _ _ _ _ Hd), (owned_at _ _ _ _ _ app_inode) in Ek. cbn in Ek. rewrite <- Ek by done. fold x. by rewrite Hb.
Qed.
Lemma app_bytes c : off = Z.of_nat (length c) → has_bytes V d c → has_bytes V2 d1 (c ++ l).
Proof.
  intros Hc Hby k Hk Hend. destruct app_bn as (Hbn & H0 & Hm). rewrite length_app in Hend. pose proof app_shaped as Hs2.
  destruct (shaped_block V2 d1 (off + Z.of_nat (length l)) k Hs2 Hk) as [Hz Hkb]; [lia|].
  assert (off mod BSIZE + Z.of_nat (length l) ≤ BSIZE) as Hle by (unfold bn, BSIZE in *; lia).
  pose proof (Z.mod_pos_bound off BSIZE ltac:(done)) as Hmod. pose proof (Z.mod_pos_bound k BSIZE ltac:(done)) as Hmodk. pose proof (block_start k Hk) as Hks.
  assert (k = k / BSIZE * BSIZE + k mod BSIZE) as Hkd by (unfold BSIZE; pose proof (Z.div_mod k 512 ltac:(lia)); lia).
  destruct (decide (k / BSIZE = bn)) as [E|E].
  - unfold file_byte. rewrite (fb_file_block V2) by done. rewrite E, app_fb by done. cbn [mbind option_bind]. fold x. unfold V2. rewrite put_block_eq. cbn [mbind option_bind].
    rewrite (lookup_put_bytes _ _ _ _ _ Hput), Hm. rewrite E in Hkd. destruct (decide (off ≤ k < off + Z.of_nat (length l))) as [Hin|Hout].
    + rewrite decide_True by lia. rewrite lookup_app_r by lia. destruct (lookup_lt_is_Some_2 l (Z.to_nat k - length c)) as [z Hzk]; [lia|]. rewrite Hzk. cbn. rewrite <- Hzk. f_equal. lia.
    + rewrite decide_False by lia. rewrite (app_block c k Hc Hby Hk E). do 2 f_equal. destruct (decide (k < off)); [by rewrite lookup_app_l by lia|]. rewrite !lookup_ge_None_2; [done|rewrite length_app; lia|lia].
  - assert (k / BSIZE * BSIZE < off ∧ k < off) as [Hlt Hlt'].
    { destruct (Z.lt_ge_cases k off); [lia|]. destruct E. unfold bn, BSIZE in *. symmetry. apply (Z.div_unique k 512 (off / 512) (k - off / 512 * 512)); lia. }
    rewrite lookup_app_l by lia. rewrite <- (Hby k) by lia. destruct (shaped_block V d off k Hs Hk Hlt) as [Hzk _].
    apply file_byte_eq; [done|by apply app_fb_other|].
    pose proof (data_kept V F Y i bn V1 F1 Y1 i (k / BSIZE) D D1 X Hkb) as Hk1. rewrite (owned_at _ _ _ _ _ Hd) in Hk1. cbn in Hk1. rewrite <- Hk1 by done.
    apply put_block_ne. rewrite <- (app_fb_other _ Hkb E). rewrite <- app_x. intros E'. rewrite app_fb in E' by done.
    destruct (dj_inj _ _ _ D1 i (Some (k / BSIZE)) i (Some bn) Hkb Hbn) as [_ ?]; rewrite ?(owned_at _ _ _ _ _ app_inode) in *; cbn in *; [by rewrite <- app_fb|done|congruence].
Qed.
End append.

Lemma total_insert C i c c' : C !! i = Some c → total (<[i := c']> C) = total C - nblk (Z.of_nat (length c)) + nblk (Z.of_nat (length c')).
Proof.
  revert i. unfold total. induction C as [|a C IH]; intros [|i] Hi; [done|done| |].
  - injection Hi as ->. change (<[0%nat := c']> (c :: C)) with (c' :: C). cbn [foldr]. lia.
  - change (<[S i := c']> (a :: C)) with (a :: <[i := c']> C). cbn [foldr]. rewrite (IH i Hi). lia.
Qed.
Lemma nblk_mono a b : 0 ≤ a ≤ b → nblk a ≤ nblk b.
Proof.
  intros H. unfold nblk. assert ((a + BSIZE - 1) / BSIZE ≤ (b + BSIZE - 1) / BSIZE) by (apply Z.div_le_mono; [done|lia]).
  destruct (Z.ltb_spec (NDIRECT * BSIZE) a), (Z.ltb_spec (NDIRECT * BSIZE) b); lia.
Qed.

(** What appending [l] to the file of inode [i] does to the image. *)
Record appended (s : mkst) (V : blocks) (F : Z) (Y : list dinode) (C : list (list Z)) (i : nat) (d : dinode) (c l : list Z)
    (s' : mkst) (V' : blocks) (d' : dinode) : Prop := {
  ap_shows : shows s' V' (F + nblk (Z.of_nat (length (c ++ l))) - nblk (Z.of_nat (length c)));
  ap_ok : fs_ok V' (F + nblk (Z.of_nat (length (c ++ l))) - nblk (Z.of_nat (length c))) (<[i := d']> Y) (<[i := c ++ l]> C);
  ap_inode : d' = d <| d_addrs := d_addrs d' |>;
  ap_next : freeinode s' = freeinode s;
  ap_meta : ∀ n, n < nmeta → V' n = V n }.

Lemma append_round k s V F Y C i d c p : shows s V F → fs_ok V F Y C → Y !! i = Some d → C !! i = Some c → p ≠ [] →
  let off := Z.of_nat (length c) in let m := Z.min (Z.of_nat (length p)) ((off / BSIZE + 1) * BSIZE - off) in
  off < MAXFILE * BSIZE → F + nblk (off + m) - nblk off ≤ FSSIZE →
  ∃ s' V' d', iappend_loop io (S k) d off p s = iappend_loop io k d' (off + m) (drop (Z.to_nat m) p) s' ∧
    appended s V F Y C i d c (take (Z.to_nat m) p) s' V' d' ∧ 0 < m ≤ Z.of_nat (length p).
Proof.
  intros Hs [D Hc Hl Hf] Hd Hci Hp off m Hoff HF. destruct (Hf i d c Hd Hci) as (Hok & Hsh & Hby).
  assert (0 < Z.of_nat (length p)) as Hpos by (destruct p; [done|cbn; lia]). assert (0 ≤ off) as H0 by (unfold off; lia).
  assert (off mod BSIZE = off - off / BSIZE * BSIZE) as Hm' by (unfold BSIZE; pose proof (Z.div_mod off 512 ltac:(lia)); lia).
  pose proof (Z.mod_pos_bound off BSIZE ltac:(done)) as Hmod. assert (0 < m ≤ Z.of_nat (length p)) as Hm by (unfold m, BSIZE in *; lia).
  assert (nblk (off + m) = nblk (off + 1)) as Hn by (apply nblk_same; unfold m; lia).
  assert (blocked s V F Y i d) as HB by (by split).
  destruct (block_for_at s V F Y i d off HB Hsh Hoff) as (s1 & V1 & d1 & E1 & Hx & [B1 B2 B3 B4] & X & Hi & Hd1 & Hf1 & Hm1 & Hzero); [lia|].
  pose proof (block_index off ltac:(lia)) as Hbn. set (x := fb V1 (ino d1) (off / BSIZE)) in *. set (F1 := F + nblk (off + 1) - nblk off) in *.
  assert (nmeta ≤ x < F1) as Hxr. { pose proof (dj_range _ _ _ B2 i (Some (off / BSIZE)) Hbn) as Hr. rewrite (owned_at _ _ _ _ _ B3) in Hr. by apply Hr. }
  pose proof (dj_free _ _ _ B2) as HF1. rewrite nmeta_eq in Hxr, HF1.
  destruct (rsect_at s1 V1 F1 x B1) as (b & E2 & Hb & Hlen); [lia|]. set (l := take (Z.to_nat m) p).
  assert (Z.of_nat (length l) = m) as Hll by (unfold l; rewrite length_take; lia).
  assert (Z.to_nat (off - off / BSIZE * BSIZE) + length l ≤ length b)%nat as Hfit by (rewrite Hlen; unfold BSIZE in *; unfold m in *; lia).
  pose proof (put_bytes_Some b _ l Hfit) as Hput. set (b' := take _ b ++ _) in Hput.
  destruct (wsect_at s1 V1 F1 x b' B1) as (s2 & E3 & S2 & Hf2); [lia|rewrite <- Hlen; by eapply put_bytes_length|].
  exists s2, (put_block V1 x b'), d1. split; [|split; [|done]].
  - cbn [iappend_loop]. rewrite (proj2 (Z.ltb_lt _ _) Hpos), (proj2 (Z.ltb_lt (off / BSIZE) MAXFILE)) by lia.
    rewrite (bind_ret _ _ _ _ _ E1). cbn [fst snd]. fold m l. rewrite (bind_ret _ _ _ _ _ E2), (bind_ret _ _ _ b' s1) by (unfold try_get; by rewrite Hput).
    by rewrite (bind_ret _ _ _ _ _ E3).
  - assert (Z.of_nat (length (c ++ l)) = off + m) as Hcl by (rewrite length_app; unfold off; lia).
    assert (l ≠ []) as Hlne by (intros E; rewrite E in Hll; cbn in Hll; lia).
    split; rewrite ?Hcl, ?Hn; [exact S2| |done|congruence|].
    + split; [eapply app_disjoint; eassumption| |by rewrite !length_insert|].
      * rewrite (total_insert C i c _ Hci), Hcl, Hn. unfold F1. rewrite Hc. fold off. lia.
      * intros j e cj He Hcj. destruct (decide (j = i)) as [->|Hj].
        -- rewrite list_lookup_insert_eq in He by (by eapply lookup_lt_Some). rewrite list_lookup_insert_eq in Hcj by (by eapply lookup_lt_Some). injection He as <-. injection Hcj as <-. rewrite Hcl, <- Hll. split; [done|].
           split; [eapply (app_shaped (V := V) (Y := Y))|eapply (app_bytes (V := V) (Y := Y))]; (eassumption || done || (rewrite ?Hll; unfold m; lia)).
        -- rewrite list_lookup_insert_ne in He by done. rewrite list_lookup_insert_ne in Hcj by done. destruct (Hf j e cj He Hcj) as (H1 & H2 & H3). split; [done|].
           eapply (app_other (V := V) (Y := Y) (i := i) (d := d)); (eassumption || done).
    + intros n Hn'. rewrite nmeta_eq in Hn'. rewrite put_block_ne by lia. by apply Hm1.
Qed.

Lemma iappend_loop_at k : ∀ p s V F Y C i d c, shows s V F → fs_ok V F Y C → Y !! i = Some d → C !! i = Some c → (length p ≤ k)%nat →
  let off := Z.of_nat (length c) in let n := Z.of_nat (length p) in
  off + n ≤ MAXFILE * BSIZE → F + nblk (off + n) - nblk off ≤ FSSIZE →
  ∃ s' V' d', iappend_loop io k d off p s = Ret (d', off + n) s' ∧ appended s V F Y C i d c p s' V' d'.
Proof.
  induction k as [|k IH]; intros p s V F Y C i d c Hs Hok Hd Hci Hk off n Hmax HF.
  all: destruct (decide (p = [])) as [->|Hp]; [exists s, V, d; subst n; cbn; rewrite Z.add_0_r; split; [done|]; split; rewrite ?app_nil_r, ?list_insert_id by done;
    [by rewrite Z.add_simpl_r|by rewrite Z.add_simpl_r|by destruct d|done|done]|].
  { destruct p; [done|cbn in Hk; lia]. }
  set (m := Z.min n ((off / BSIZE + 1) * BSIZE - off)).
  assert (0 < n) as Hn by (subst n; destruct p; [done|cbn; lia]). assert (m ≤ n ∧ 0 ≤ off) as [Hm Hoff] by (unfold m, off; lia).
  assert (nblk (off + m) ≤ nblk (off + n)) as Hmono.
  { apply nblk_mono. split; [|lia]. unfold m, BSIZE. pose proof (Z.div_mod off 512 ltac:(lia)). pose proof (Z.mod_pos_bound off 512 ltac:(lia)). lia. }
  destruct (append_round k s V F Y C i d c p Hs Hok Hd Hci Hp) as (s1 & V1 & d1 & E1 & [A1 A2 A3 A4 A5] & Hm0); [lia|fold off n m; lia|].
  fold off n m in E1, Hm0. fold n m in A1, A2. set (l := take (Z.to_nat m) p) in *. set (r := drop (Z.to_nat m) p) in *.
  assert (Z.of_nat (length l) = m ∧ Z.of_nat (length r) = n - m) as [Hl Hr] by (unfold l, r; rewrite length_take, length_drop; lia).
  assert (l ++ r = p) as Hlr by apply take_drop. assert (Z.of_nat (length (c ++ l)) = off + m) as Hcl by (rewrite length_app; unfold off; lia).
  change (shows s1 V1 (F + nblk (Z.of_nat (length (c ++ l))) - nblk off)) in A1.
  change (fs_ok V1 (F + nblk (Z.of_nat (length (c ++ l))) - nblk off) (<[i := d1]> Y) (<[i := c ++ l]> C)) in A2. rewrite Hcl in A1, A2.
  destruct (IH r s1 V1 _ _ _ i d1 (c ++ l) A1 A2) as (s2 & V2 & d2 & E2 & [B1 B2 B3 B4 B5]).
  { apply list_lookup_insert_eq. by eapply lookup_lt_Some. }
  { apply list_lookup_insert_eq. by eapply lookup_lt_Some. }
  { lia. }
  { rewrite Hcl, Hr. lia. }
  { rewrite Hcl, Hr. replace (off + m + (n - m)) with (off + n) by lia. lia. }
  rewrite Hcl, Hr in E2. replace (off + m + (n - m)) with (off + n) in E2 by lia.
  exists s2, V2, d2. rewrite E1, E2. split; [done|].
  rewrite <- app_assoc, Hlr in B1, B2. rewrite !list_insert_insert_eq in B2. rewrite Hcl in B1, B2.
  replace (F + nblk (off + m) - nblk off + nblk (Z.of_nat (length (c ++ p))) - nblk (off + m)) with (F + nblk (Z.of_nat (length (c ++ p))) - nblk off) in B1, B2 by lia.
  split; [done|done| |congruence|intros q Hq; by rewrite B5, A5]. rewrite B3, A3. by destruct d.
Qed.

(** ** Inodes on the image *)

Record on_disk (s : mkst) (V : blocks) (F : Z) (Y : list dinode) (C : list (list Z)) : Prop := {
  od_shows : shows s V F;
  od_ok : fs_ok V F Y C;
  od_inodes : ∀ j d c, Y !! j = Some d → C !! j = Some c → inode_at make_sb V (Z.of_nat j + 1) = Some d ∧ d_size d = Z.of_nat (length c);
  od_next : freeinode s = Z.of_nat (length Y) + 1;
  od_limit : Z.of_nat (length Y) < NINODES }.

Lemma iblock_at i : 0 ≤ i < NINODES → IBLOCK i make_sb = i / 8 + 32 ∧ 32 ≤ IBLOCK i make_sb < 58.
Proof.
  intros Hi. assert (IBLOCK i make_sb = i / 8 + 32) as E by (rewrite IBLOCK_eq; [done|by vm_compute|exact Hi]). rewrite E. split; [done|].
  unfold NINODES in Hi. assert (0 ≤ i / 8) by (apply Z.div_pos; lia). assert (i / 8 < 26) by (apply Z.div_lt_upper_bound; lia). lia.
Qed.

Lemma winode_at s V F i d : shows s V F → 0 ≤ i < NINODES → dinode_ok d →
  ∃ s' b', let V' := put_block V (IBLOCK i make_sb) b' in winode io i d s = Ret tt s' ∧ shows s' V' F ∧ freeinode s' = freeinode s ∧
    inode_at make_sb V' i = Some d ∧ ∀ j, 0 ≤ j < NINODES → j ≠ i → inode_at make_sb V' j = inode_at make_sb V j.
Proof.
  intros Hs Hi Hok. destruct (iblock_at i Hi) as [_ Hb]. assert (FSSIZE = 1000) as HS by done.
  destruct (rsect_at s V F (IBLOCK i make_sb) Hs) as (b & E1 & Hv & Hlen); [lia|].
  pose proof (ioff_bound i (proj1 Hi)) as Hfit. rewrite <- Hlen, <- (length_encode_dinode _ Hok) in Hfit. pose proof (put_bytes_Some b _ _ Hfit) as Hput. set (b' := take _ b ++ _) in Hput.
  destruct (wsect_at s V F (IBLOCK i make_sb) b' Hs) as (s' & E2 & S2 & Hf); [lia|rewrite <- Hlen; by eapply put_bytes_length|].
  exists s', b'. cbv zeta. split; [|split; [done|split; [done|]]].
  - unfold winode. rewrite (bind_ret _ _ _ _ _ E1). fold (ioff i). by rewrite (bind_ret _ _ _ b' s) by (unfold try_get; by rewrite Hput).
  - apply (inode_at_put make_sb V i d b b'); [by vm_compute|exact Hi|done|done|done].
Qed.
Lemma rinode_at s V F i d : shows s V F → 0 ≤ i < NINODES → inode_at make_sb V i = Some d → rinode io i s = Ret d s.
Proof.
  intros Hs Hi Hd. destruct (iblock_at i Hi) as [_ Hb]. assert (FSSIZE = 1000) as HS by done.
  destruct (rsect_at s V F (IBLOCK i make_sb) Hs) as (b & E1 & Hv & Hlen); [lia|]. unfold inode_at in Hd. rewrite Hv in Hd. cbn [mbind option_bind] in Hd.
  unfold rinode. rewrite (bind_ret _ _ _ _ _ E1). unfold try_get. fold (ioff i). by rewrite Hd.
Qed.

(** The size in the inode does not matter to its entries. *)
Lemma owned_same V Y Y' : length Y' = length Y → (∀ j d d', Y !! j = Some d → Y' !! j = Some d' → d_addrs d' = d_addrs d) → ∀ j o, owned V Y' j o = owned V Y j o.
Proof.
  intros Hl Ha j o. unfold owned. destruct (Y !! j) as [d|] eqn:Hd.
  - destruct (lookup_lt_is_Some_2 Y' j) as [d' Hd']; [rewrite Hl; by eapply lookup_lt_Some|]. rewrite Hd'. specialize (Ha j d d' Hd Hd').
    destruct o as [bn|]; unfold blk, fb, ind; cbn [i_addrs ino]; by rewrite Ha.
  - apply lookup_ge_None in Hd. by rewrite lookup_ge_None_2 by lia.
Qed.
Lemma fs_ok_addrs V F Y Y' C : fs_ok V F Y C → length Y' = length Y → (∀ j d, Y' !! j = Some d → dinode_ok d) →
  (∀ j d d', Y !! j = Some d → Y' !! j = Some d' → d_addrs d' = d_addrs d) → fs_ok V F Y' C.
Proof.
  intros [D Hc Hl Hf] Hl' Hok Ha. pose proof (owned_same V Y Y' Hl' Ha) as Ho. pose proof D as [D1 D2 D3 D4]. split; [|done|congruence|].
  - split; [done| | |done].
    + intros j o He. rewrite Ho. by apply D2.
    + intros j o j' o' He He'. rewrite !Ho. by apply D3.
  - intros j d c Hd Hcj. split; [by eapply Hok|]. destruct (lookup_lt_is_Some_2 Y j) as [e He]; [rewrite <- Hl'; by eapply lookup_lt_Some|].
    destruct (Hf j e c He Hcj) as (_ & H1 & H2). specialize (Ho j). unfold owned in Ho. rewrite Hd, He in Ho.
    eapply file_kept; [|done|exact H1|exact H2]. intros o _. apply Ho.
Qed.

Lemma fs_ok_free V F Y C : fs_ok V F Y C → F ≤ FSSIZE ∧ nmeta ≤ F.
Proof. intros [[D _ _ _] _ _ _]. lia. Qed.

Lemma iappend_at s V F Y C i d c p : on_disk s V F Y C → Y !! i = Some d → C !! i = Some c →
  let n := Z.of_nat (length (c ++ p)) in n ≤ MAXFILE * BSIZE → F + nblk n - nblk (Z.of_nat (length c)) ≤ FSSIZE →
  ∃ s' V' d', iappend io (Z.of_nat i + 1) p s = Ret tt s' ∧ on_disk s' V' (F + nblk n - nblk (Z.of_nat (length c))) (<[i := d']> Y) (<[i := c ++ p]> C) ∧
    d' = d <| d_addrs := d_addrs d' |> <| d_size := n |> ∧ ∀ m, m < 32 → V' m = V m.
Proof.
  intros [O1 O2 O3 O4 O5] Hd Hci n Hmax HF. destruct (O3 i d c Hd Hci) as [Hat Hsz]. pose proof (lookup_lt_Some _ _ _ Hd) as Hlt.
  assert (0 ≤ Z.of_nat i + 1 < NINODES) as Hi by lia. assert (n = Z.of_nat (length c) + Z.of_nat (length p)) as Hn by (unfold n; rewrite length_app; lia).
  assert (MAXFILE * BSIZE = 71680) as HM by done.
  destruct (iappend_loop_at (length p) p s V F Y C i d c O1 O2 Hd Hci ltac:(lia)) as (s1 & V1 & d1 & E1 & [A1 A2 A3 A4 A5]); [lia|by rewrite <- Hn|].
  fold n in A1, A2. rewrite <- Hn in E1. set (F1 := F + nblk n - nblk (Z.of_nat (length c))) in *. set (d2 := d1 <| d_size := n |>).
  assert (<[i := d1]> Y !! i = Some d1 ∧ <[i := c ++ p]> C !! i = Some (c ++ p)) as [Hd1 Hc1] by (split; apply list_lookup_insert_eq; by eapply lookup_lt_Some).
  assert (xint n = n) as Hx by (apply xint_small; unfold n in *; lia).
  assert (dinode_ok d2) as Hok2.
  { destruct (fo_files _ _ _ _ A2 i d1 _ Hd1 Hc1) as ([] & _ & _). split; try done. unfold d2, word. cbn. unfold n in *. lia. }
  destruct (winode_at s1 V1 F1 (Z.of_nat i + 1) d2 A1 Hi Hok2) as (s2 & b2 & E2 & S2 & Hf2 & Hat2 & Hoth). set (V2 := put_block _ _ _) in *.
  destruct (iblock_at _ Hi) as [_ Hib]. exists s2, V2, d2. split; [|split; [|split]].
  - unfold iappend. rewrite (bind_ret _ _ _ _ _ (rinode_at s V F _ d O1 Hi Hat)), Hsz, xint_small by lia. rewrite (bind_ret _ _ _ _ _ E1). cbn [fst snd]. rewrite Hx. exact E2.
  - assert (∀ m, m < nmeta → m ≠ IBLOCK (Z.of_nat i + 1) make_sb → V2 m = V m) as Hmeta by (intros m Hm Hne; unfold V2; rewrite put_block_ne by done; by apply A5).
    assert (fs_ok V2 F1 (<[i := d1]> Y) (<[i := c ++ p]> C)) as Hok.
    { eapply fs_ok_meta; [|exact A2]. intros m Hm. rewrite nmeta_eq in Hm. apply put_block_ne. lia. }
    split; [done| | |by rewrite length_insert, Hf2, A4|by rewrite length_insert].
    + eapply fs_ok_addrs; [exact Hok|by rewrite !length_insert| |].
      * intros j e. destruct (decide (j = i)) as [->|Hj]; [rewrite list_lookup_insert_eq by done; by intros [= <-]|].
        rewrite list_lookup_insert_ne by done. intros He. destruct (lookup_lt_is_Some_2 C j) as [cj Hcj]; [rewrite <- (fo_length _ _ _ _ O2); by eapply lookup_lt_Some|].
        by destruct (fo_files _ _ _ _ O2 j e cj He Hcj).
      * intros j e e'. destruct (decide (j = i)) as [->|Hj]; [rewrite !list_lookup_insert_eq by done; by intros [= <-] [= <-]|].
        rewrite !list_lookup_insert_ne by done. congruence.
    + intros j e cj. destruct (decide (j = i)) as [->|Hj].
      * rewrite !list_lookup_insert_eq by (done || by eapply lookup_lt_Some). intros [= <-] [= <-]. by split.
      * rewrite !list_lookup_insert_ne by done. intros He Hcj. destruct (O3 j e cj He Hcj) as [Hej Hsj]. split; [|done].
        pose proof (lookup_lt_Some _ _ _ He). rewrite Hoth by lia. rewrite <- Hej. unfold inode_at. rewrite A5; [done|]. destruct (iblock_at (Z.of_nat j + 1)) as [_ ?]; [lia|]. rewrite nmeta_eq. lia.
  - unfold d2. rewrite A3. by destruct d.
  - intros m Hm. unfold V2. rewrite put_block_ne by lia. apply A5. rewrite nmeta_eq. lia.
Qed.
End image.
