(* ===== verification/MkRun.v ===== *)
(** * mkfs makes a file system (mkfs.c)

    The run of the whole program: an empty image, the super block, the root
    directory, the files and the bitmap. *)

From S2P Require Import Prelude Machine Spinlock CString ProcTable Proc Lifecycle Ready Aging.
From S2P Require Import ProcLemmas Scheduler Reach Blocking Kstate Sleeplock Solo.
From S2P Require Import Devices Disk Bio Cache Layout Log Crash Transaction Inode Console Fs Content Txn Alloc Bmap Writei Mkfs MkImage.

(** ** What the image should hold *)

Definition stored_name (a : arg) : list Z := match arg_name a with 95 :: l => l | l => l end.
(** The data of the reads up to the first that returns nothing. *)
Fixpoint read_all (reads : list (list Z)) : list Z :=
  match reads with [] => [] | b :: l => if bool_decide (b = []) then [] else b ++ read_all l end.
Definition contents (a : arg) : list Z := match arg_reads a with Some l => read_all l | None => [] end.
Definition root_bytes (l : list arg) : list Z :=
  dir_entry ROOTINO [46] ++ dir_entry ROOTINO [46; 46] ++ mjoin (imap (fun i a => dir_entry (Z.of_nat i + 2) (stored_name a)) l).
Definition image_files (l : list arg) : list (list Z) := root_bytes l :: (contents <$> l).

(** The program can be run on the files. *)
Record usable (l : list arg) : Prop := {
  us_names : ∀ a, a ∈ l → 47 ∉ arg_name a ∧ is_Some (arg_reads a);
  us_inodes : Z.of_nat (length l) + 1 < NINODES;
  us_sizes : ∀ c, c ∈ image_files l → Z.of_nat (length c) ≤ MAXFILE * BSIZE;
  us_room : nmeta + total (image_files l) ≤ FSSIZE }.

Definition typed (Y : list dinode) : Prop :=
  ∀ j d, Y !! j = Some d → d_type d = (if (j =? 0)%nat then T_DIR else T_FILE) ∧ d_nlink d = 1 ∧ d_major d = 0 ∧ d_minor d = 0.

(** ** Counting *)

Lemma total_app C C' : total (C ++ C') = total C + total C'.
Proof. unfold total. induction C as [|c C IH]; [done|]. cbn [app foldr]. rewrite IH. lia. Qed.
Lemma nblk_nonneg n : 0 ≤ n → 0 ≤ nblk n.
Proof. intros H. pose proof (nblk_mono 0 n ltac:(lia)) as Hm. by change (nblk 0) with 0 in Hm. Qed.
Lemma total_nonneg C : 0 ≤ total C.
Proof. unfold total. induction C as [|c C IH]; [done|]. cbn [foldr]. pose proof (nblk_nonneg (Z.of_nat (length c)) ltac:(lia)). lia. Qed.
Lemma total_prefix C C' : Forall2 prefix C C' → total C ≤ total C'.
Proof.
  unfold total. induction 1 as [|c c' C C' Hc _ IH]; [done|]. cbn [foldr]. apply prefix_length in Hc.
  pose proof (nblk_mono (Z.of_nat (length c)) (Z.of_nat (length c')) ltac:(lia)). lia.
Qed.

Lemma typed_insert Y i d n : typed Y → Y !! i = Some d → ∀ d', d' = d <| d_addrs := d_addrs d' |> <| d_size := n |> → typed (<[i := d']> Y).
Proof.
  intros Ht Hd d' E j e. rewrite list_lookup_insert. case_decide as Hij; [|apply Ht]. destruct Hij as [-> _].
  intros [= <-]. rewrite E. apply (Ht j d Hd).
Qed.

Section run.
Context (io : Z → bool) (Hio : ∀ n, io n = true).

(** [ialloc]: an empty file. *)
Lemma fb_zero_inode V d bn : d_addrs d = replicate 13 0 → 0 ≤ bn → fb V (ino d) bn = 0 ∧ ind (ino d) = 0.
Proof.
  intros Ha Hbn. assert (ind (ino d) = 0) as Hi by (unfold ind; cbn [i_addrs ino]; by rewrite Ha). split; [|done]. unfold fb. rewrite Hi. cbn [i_addrs ino]. rewrite Ha.
  destruct (bn <? NDIRECT); [|done]. destruct (replicate 13 0 !! Z.to_nat bn) eqn:E; [|done]. by apply lookup_replicate in E as [-> _].
Qed.

Lemma fs_ok_snoc V F Y C d : fs_ok V F Y C → dinode_ok d → d_addrs d = replicate 13 0 → fs_ok V F (Y ++ [d]) (C ++ [[]]).
Proof.
  intros [D Hc Hl Hf] Hok Ha. pose proof D as [D1 D2 D3 D4].
  assert (∀ j o, entry o → owned V (Y ++ [d]) j o = owned V Y j o) as Ho.
  { intros j o He. unfold owned. destruct (decide (j < length Y)%nat) as [Hlt|Hge]; [by rewrite lookup_app_l|].
    rewrite lookup_app_r, (lookup_ge_None_2 Y) by lia. destruct (j - length Y)%nat; [|done]. cbn. destruct o as [bn|]; cbn in He |- *.
    - by apply fb_zero_inode; [|lia].
    - by apply (fb_zero_inode V d 0). }
  split; [|by rewrite total_app, Hc; change (total [[]]) with 0; lia|by rewrite !length_app, Hl|].
  - split; [done| | |done].
    + intros j o He. rewrite Ho by done. by apply D2.
    + intros j o j' o' He He'. rewrite !Ho by done. by apply D3.
  - intros j e c. rewrite !lookup_app. destruct (Y !! j) as [e'|] eqn:He.
    + destruct (lookup_lt_is_Some_2 C j) as [c' Hc']; [rewrite <- Hl; by eapply lookup_lt_Some|]. rewrite Hc'. intros [= <-] [= <-]. by apply (Hf j).
    + apply lookup_ge_None in He. rewrite (lookup_ge_None_2 C) by lia. rewrite Hl. destruct (j - length C)%nat; [|done]. intros [= <-] [= <-]. split; [done|]. split; [|intros k Hk Hlt; pose proof (block_start k Hk); cbn in Hlt; lia].
      split; [by vm_compute| |].
      * intros bn Hbn. destruct (fb_zero_inode V d bn Ha) as [-> _]; [lia|]. cbn. unfold BSIZE. split; lia.
      * destruct (fb_zero_inode V d 0 Ha) as [_ ->]; [done|]. by vm_compute.
Qed.

Lemma ialloc_at s V F Y C ty : on_disk s V F Y C → typed Y → Z.of_nat (length Y) + 1 < NINODES → ty = (if (length Y =? 0)%nat then T_DIR else T_FILE) →
  ∃ s' V' d, ialloc io ty s = Ret (Z.of_nat (length Y) + 1) s' ∧ on_disk s' V' F (Y ++ [d]) (C ++ [[]]) ∧ typed (Y ++ [d]) ∧ ∀ m, m < 32 → V' m = V m.
Proof.
  intros [O1 O2 O3 O4 O5] Ht Hlim Hty. set (d := mk_dinode (xshort ty) 0 0 (xshort 1) (xint 0) (replicate 13 0)).
  assert (dinode_ok d ∧ d_type d = ty) as [Hok Hdt] by (subst ty; destruct (length Y =? 0)%nat; split; [split; try done; by repeat constructor|done|split; try done; by repeat constructor|done]).
  assert (0 ≤ Z.of_nat (length Y) + 1 < NINODES) as Hi by lia. set (s1 := s <| freeinode ::= fun n => u32 (n + 1) |>).
  assert (shows s1 V F) as S1 by (destruct O1; by split).
  destruct (winode_at io Hio s1 V F (Z.of_nat (length Y) + 1) d S1 Hi Hok) as (s2 & b2 & E2 & S2 & Hf2 & Hat & Hoth). destruct (iblock_at _ Hi) as [_ Hib].
  exists s2, (put_block V (IBLOCK (Z.of_nat (length Y) + 1) make_sb) b2), d. split; [|split; [|split]].
  - unfold ialloc. rewrite (bind_ret _ _ _ (freeinode s) s) by done. rewrite (bind_ret _ _ _ tt s1) by done. rewrite O4. fold d. by rewrite (bind_ret _ _ _ _ _ E2).
  - split; [done| | | |rewrite length_app; cbn; lia].
    + apply fs_ok_snoc; [|done|done]. eapply fs_ok_meta; [|exact O2]. intros m Hm. rewrite nmeta_eq in Hm. apply put_block_ne. lia.
    + pose proof (fo_length _ _ _ _ O2) as Hl. intros j e c. rewrite !lookup_app. destruct (Y !! j) as [e'|] eqn:He.
      * pose proof (lookup_lt_Some _ _ _ He) as Hlt. destruct (lookup_lt_is_Some_2 C j) as [c' Hc']; [lia|]. rewrite Hc'. intros [= <-] [= <-].
        destruct (O3 j e' c' He Hc') as [H1 H2]. split; [|done]. rewrite Hoth by lia. done.
      * apply lookup_ge_None in He. rewrite (lookup_ge_None_2 C) by lia. rewrite Hl. destruct (j - length C)%nat eqn:Ej; [|done]. intros [= <-] [= <-].
        replace j with (length C) by lia. rewrite <- Hl. split; [exact Hat|reflexivity].
    + rewrite Hf2, length_app. cbn. rewrite O4. unfold u32. rewrite Z.mod_small by (unfold NINODES in *; lia). lia.
  - intros j e. rewrite lookup_app. destruct (Y !! j) as [e'|] eqn:He; [intros [= <-]; by apply Ht|]. apply lookup_ge_None in He.
    destruct (j - length Y)%nat eqn:Ej; [|done]. intros [= <-]. replace j with (length Y) by lia. rewrite Hdt, Hty. done.
  - intros m Hm. apply put_block_ne. lia.
Qed.

(** ** The files [C] are on the image *)

Definition super_block : list Z := encode_superblock make_sb ++ drop 28 zeroes.
Definition ready (s : mkst) (C : list (list Z)) : Prop :=
  ∃ V Y, on_disk s V (nmeta + total C) Y C ∧ typed Y ∧ V 1 = Some super_block.

Lemma iappend_ready s C i c p : ready s C → C !! i = Some c → Z.of_nat (length (c ++ p)) ≤ MAXFILE * BSIZE →
  nmeta + total (<[i := c ++ p]> C) ≤ FSSIZE → ∃ s', iappend io (Z.of_nat i + 1) p s = Ret tt s' ∧ ready s' (<[i := c ++ p]> C).
Proof.
  intros (V & Y & O & Ht & H1) Hc Hmax Hroom. destruct (lookup_lt_is_Some_2 Y i) as [d Hd]; [rewrite (fo_length _ _ _ _ (od_ok _ _ _ _ _ O)); by eapply lookup_lt_Some|].
  rewrite (total_insert C i c _ Hc) in Hroom.
  destruct (iappend_at io Hio s V _ Y C i d c p O Hd Hc Hmax) as (s' & V' & d' & E & O' & Hd' & Hm); [lia|]. exists s'. split; [done|].
  exists V', (<[i := d']> Y). rewrite (total_insert C i c _ Hc). split_and!.
  - replace (nmeta + (total C - _ + _)) with (nmeta + total C + nblk (Z.of_nat (length (c ++ p))) - nblk (Z.of_nat (length c))) by lia. done.
  - by eapply typed_insert.
  - by rewrite Hm.
Qed.
Lemma ialloc_ready s C ty : ready s C → Z.of_nat (length C) + 1 < NINODES → ty = (if (length C =? 0)%nat then T_DIR else T_FILE) →
  ∃ s', ialloc io ty s = Ret (Z.of_nat (length C) + 1) s' ∧ ready s' (C ++ [[]]).
Proof.
  intros (V & Y & O & Ht & H1) Hlim Hty. rewrite <- (fo_length _ _ _ _ (od_ok _ _ _ _ _ O)) in *.
  destruct (ialloc_at s V _ Y C ty O Ht Hlim Hty) as (s' & V' & d & E & O' & Ht' & Hm). exists s'. split; [done|]. exists V', (Y ++ [d]).
  rewrite total_app. change (total [[]]) with 0. rewrite Z.add_0_r. split_and!; [done|done|by rewrite Hm].
Qed.

Lemma iappend_all_ready reads : ∀ s C i c, ready s C → C !! i = Some c → Z.of_nat (length (c ++ read_all reads)) ≤ MAXFILE * BSIZE →
  nmeta + total (<[i := c ++ read_all reads]> C) ≤ FSSIZE →
  ∃ s', iappend_all io (Z.of_nat i + 1) reads s = Ret tt s' ∧ ready s' (<[i := c ++ read_all reads]> C).
Proof.
  induction reads as [|b reads IH]; intros s C i c HR Hc Hmax Hroom; cbn [iappend_all read_all] in *; [exists s; rewrite app_nil_r, list_insert_id by done; done|].
  case_bool_decide as Hb; [exists s; rewrite app_nil_r, list_insert_id by done; done|]. rewrite app_assoc in *.
  assert (Z.of_nat (length (c ++ b)) ≤ Z.of_nat (length ((c ++ b) ++ read_all reads))) as Hle by (rewrite (length_app (c ++ b)); lia).
  pose proof (nblk_mono _ _ (conj (Nat2Z.is_nonneg _) Hle)) as Hmono.
  destruct (iappend_ready s C i c b HR Hc) as (s1 & E1 & HR1); [lia|rewrite (total_insert C i c _ Hc); rewrite (total_insert C i c _ Hc) in Hroom; lia|]. rewrite (bind_ret _ _ _ _ _ E1).
  destruct (IH s1 (<[i := c ++ b]> C) i (c ++ b) HR1) as (s2 & E2 & HR2); [apply list_lookup_insert_eq; by eapply lookup_lt_Some|done|by rewrite list_insert_insert_eq|].
  exists s2. split; [done|]. by rewrite list_insert_insert_eq in HR2.
Qed.

(** ** The files of the command line *)

Lemma root_bytes_snoc l a : root_bytes (l ++ [a]) = root_bytes l ++ dir_entry (Z.of_nat (length l) + 2) (stored_name a).
Proof. unfold root_bytes. rewrite imap_app, join_app, <- !app_assoc. cbn. by rewrite app_nil_r, Nat.add_0_r. Qed.
Lemma root_bytes_prefix l1 l2 : root_bytes l1 `prefix_of` root_bytes (l1 ++ l2).
Proof. unfold root_bytes. rewrite imap_app, join_app, !app_assoc. by apply prefix_app_r. Qed.
Lemma usable_prefix l1 l2 : usable (l1 ++ l2) → usable l1.
Proof.
  intros [U1 U2 U3 U4]. pose proof (prefix_length _ _ (root_bytes_prefix l1 l2)) as Hp. rewrite length_app in U2. split; [|lia| |].
  - intros a Ha. apply U1. apply elem_of_app. by left.
  - intros c. unfold image_files in *. rewrite elem_of_cons. intros [->|Hc].
    + specialize (U3 (root_bytes (l1 ++ l2)) ltac:(by left)). lia.
    + apply U3. rewrite fmap_app. right. apply elem_of_app. by left.
  - unfold image_files in *. rewrite fmap_app, app_comm_cons, total_app in U4. unfold total in U4 at 1. cbn [foldr] in U4. fold (total (contents <$> l1)) in U4.
    unfold total at 1. cbn [foldr]. fold (total (contents <$> l1)). pose proof (total_nonneg (contents <$> l2)).
    pose proof (nblk_mono (Z.of_nat (length (root_bytes l1))) (Z.of_nat (length (root_bytes (l1 ++ l2)))) ltac:(lia)). lia.
Qed.

Lemma add_file_ready s l a : ready s (image_files l) → usable (l ++ [a]) → ∃ s', add_file io ROOTINO a s = Ret tt s' ∧ ready s' (image_files (l ++ [a])).
Proof.
  intros HR [U1 U2 U3 U4]. destruct (U1 a ltac:(apply elem_of_app; right; by left)) as [Hname [reads Hreads]]. rewrite length_app in U2. cbn in U2.
  assert (contents a = read_all reads) as Hca by (unfold contents; by rewrite Hreads).
  unfold image_files in *. rewrite fmap_app, root_bytes_snoc in *. cbn [fmap list_fmap] in *. rewrite Hca in *.
  set (e := dir_entry (Z.of_nat (length l) + 2) (stored_name a)) in *. set (C := root_bytes l :: (contents <$> l)) in *.
  assert (length C = S (length l)) as HC by (unfold C; cbn; by rewrite length_fmap).
  destruct (ialloc_ready s C T_FILE HR) as (s1 & E1 & HR1); [lia|by rewrite HC|].
  assert (C ++ [[]] = root_bytes l :: (contents <$> l) ++ [[]]) as EC by done.
  assert (nblk (Z.of_nat (length (read_all reads))) = total [read_all reads]) as Etot by (unfold total; cbn [foldr]; lia).
  assert (∀ c r, total (c :: r) = nblk (Z.of_nat (length c)) + total r) as Hcons by done. rewrite Hcons, total_app in U4. pose proof (total_nonneg [read_all reads]) as Hnn.
  destruct (iappend_ready s1 (C ++ [[]]) 0 (root_bytes l) e HR1) as (s2 & E2 & HR2).
  { done. }
  { apply U3. by left. }
  { rewrite EC. change (<[0%nat := ?x]> (?y :: ?z)) with (x :: z). rewrite Hcons, total_app. change (total [[]]) with 0. lia. }
  rewrite EC in HR2. change (<[0%nat := ?x]> (?y :: ?z)) with (x :: z) in HR2. rewrite app_comm_cons in HR2. set (C2 := (root_bytes l ++ e) :: (contents <$> l)) in *.
  assert (length C2 = S (length l)) as HC2 by (unfold C2; cbn; by rewrite length_fmap).
  assert (∀ r, <[S (length l) := r]> (C2 ++ [[]]) = C2 ++ [r]) as Hins by (intros r; rewrite <- HC2, <- (Nat.add_0_r (length C2)), insert_app_r; done).
  destruct (iappend_all_ready reads s2 (C2 ++ [[]]) (S (length l)) [] HR2) as (s3 & E3 & HR3).
  { rewrite lookup_app_r by lia. by rewrite HC2, Nat.sub_diag. }
  { cbn [app]. apply U3. right. apply elem_of_app. right. by left. }
  { cbn [app]. rewrite Hins, total_app. unfold C2. rewrite Hcons. lia. }
  cbn [app] in HR3. rewrite Hins in HR3. exists s3. split; [|exact HR3].
  unfold add_file. rewrite bool_decide_eq_false_2, Hreads by done. rewrite (bind_ret _ _ _ _ _ E1). fold (stored_name a). rewrite HC.
  replace (Z.of_nat (S (length l)) + 1) with (Z.of_nat (length l) + 2) in * by lia. fold e. change (Z.of_nat 0 + 1) with ROOTINO in E2. rewrite (bind_ret _ _ _ _ _ E2).
  exact E3.
Qed.

Lemma add_files_ready l : ∀ done s, ready s (image_files done) → usable (done ++ l) → ∃ s', add_files io ROOTINO l s = Ret tt s' ∧ ready s' (image_files (done ++ l)).
Proof.
  induction l as [|a l IH]; intros dn s HR HU; cbn [add_files]; [exists s; by rewrite app_nil_r|].
  replace (dn ++ a :: l) with ((dn ++ [a]) ++ l) in * by (by rewrite <- app_assoc). destruct (add_file_ready s dn a HR (usable_prefix _ _ HU)) as (s1 & E1 & HR1).
  rewrite (bind_ret _ _ _ _ _ E1). by apply IH.
Qed.

(** ** The empty image and the bitmap *)

Lemma replicate_snoc {A} n (x : A) : replicate n x ++ [x] = replicate (S n) x.
Proof. by rewrite <- replicate_cons_app. Qed.
Lemma zero_image_run n : ∀ k fi fr, Z.of_nat (k + n) ≤ FSSIZE →
  zero_image io n (Z.of_nat k) (mk_mkst (replicate k zeroes) fi fr) = Ret tt (mk_mkst (replicate (k + n) zeroes) fi fr).
Proof.
  induction n as [|n IH]; intros k fi fr Hk; cbn [zero_image]; [by rewrite Nat.add_0_r|].
  rewrite (bind_ret _ _ _ tt (mk_mkst (replicate (S k) zeroes) fi fr)).
  - replace (Z.of_nat k + 1) with (Z.of_nat (S k)) by lia. rewrite IH by lia. do 3 f_equal. lia.
  - unfold wsect. rewrite Hio. unfold modify. cbn. do 2 f_equal. unfold set_sector. rewrite length_replicate, sector_small, Nat2Z.id by lia.
    rewrite (proj2 (Nat.ltb_ge k k)), Nat.sub_diag by lia. cbn [replicate app]. apply replicate_snoc.
Qed.

Lemma mark_used_spec n : ∀ i d, 0 ≤ i → i + Z.of_nat n ≤ 8 * Z.of_nat (length d) →
  ∃ d', mark_used n i d = Some d' ∧ length d' = length d ∧
    ∀ j, 0 ≤ j → bit d' j = if (i <=? j) && (j <? i + Z.of_nat n) then Some true else bit d j.
Proof.
  induction n as [|n IH]; intros i d Hi Hle; cbn [mark_used].
  - exists d. split; [done|]. split; [done|]. intros j Hj. destruct (Z.leb_spec i j), (Z.ltb_spec j (i + Z.of_nat 0)); cbn [andb]; (done || lia).
  - destruct (set_bit_Some d i Hi) as [d1 E1]; [lia|]. rewrite E1. cbn [mbind option_bind]. destruct (set_bit_spec d i d1 Hi E1) as [Hl1 Hb1].
    destruct (IH (i + 1) d1) as (d2 & E2 & Hl2 & Hb2); [lia|rewrite Hl1; lia|]. exists d2. split; [done|]. split; [congruence|].
    intros j Hj. rewrite Hb2, Hb1 by done. destruct (decide (j = i)) as [->|Hne].
    + destruct (Z.leb_spec (i + 1) i); [lia|]. cbn [andb]. rewrite Z.leb_refl, (proj2 (Z.ltb_lt i _)) by lia. done.
    + destruct (Z.leb_spec (i + 1) j), (Z.ltb_spec j (i + 1 + Z.of_nat n)), (Z.leb_spec i j), (Z.ltb_spec j (i + Z.of_nat (S n))); cbn [andb]; (done || lia).
Qed.
Lemma bit_zeroes j : 0 ≤ j < BPB → bit zeroes j = Some false.
Proof.
  intros Hj. rewrite bit_testbit. unfold zeroes. rewrite lookup_replicate_2; [cbn; by rewrite Z.bits_0|].
  apply Nat2Z.inj_lt. rewrite !Z2Nat.id by (try apply Z.div_pos; done || lia). apply Z.div_lt_upper_bound; [lia|]. unfold BPB, BSIZE in *. lia.
Qed.
Lemma balloc_at s V F : shows s V F → 0 ≤ F ≤ FSSIZE → ∃ s' b, balloc io F s = Ret tt s' ∧ shows s' (put_block V 58 b) F ∧
  ∀ n, 0 ≤ n < FSSIZE → used (put_block V 58 b) make_sb n = Some (n <? F).
Proof.
  intros Hs HF. assert (FSSIZE = 1000) as HS by done. destruct (mark_used_spec (Z.to_nat F) 0 zeroes) as (b & E & Hl & Hb); [lia|unfold zeroes; rewrite length_replicate; unfold BSIZE; lia|].
  destruct (wsect_at io Hio s V F 58 b Hs) as (s' & E2 & S2 & _); [lia|by rewrite Hl|]. exists s', b. split; [|split; [done|]].
  - unfold balloc. rewrite (proj2 (Z.ltb_lt _ _)) by (unfold BSIZE; lia). rewrite (bind_ret _ _ _ b s) by (unfold try_get; by rewrite E). exact E2.
  - intros n Hn. unfold used. assert (BBLOCK n make_sb = 58) as -> by (unfold BBLOCK; rewrite Z.div_small by (unfold BPB, BSIZE; lia); done).
    rewrite put_block_eq. cbn [mbind option_bind]. rewrite Z.mod_small by (unfold BPB, BSIZE; lia). rewrite Hb, bit_zeroes by (unfold BPB, BSIZE; lia).
    destruct (Z.leb_spec 0 n); [|lia]. cbn [andb]. rewrite Z.add_0_l, Z2Nat.id by lia. by destruct (n <? F).
Qed.

(** ** The program *)

Definition sectors (s : mkst) : blocks := fun n => img s !! Z.to_nat n.

(** A file system with the files [C]: the first is the root directory. *)
Record holds_files (V : blocks) (F : Z) (Y : list dinode) (C : list (list Z)) : Prop := {
  hf_super : V 1 = Some super_block ∧ decode_superblock super_block = Some make_sb;
  hf_bitmap : ∀ b, 0 ≤ b < FSSIZE → used V make_sb b = Some (b <? F);
  hf_blocks : disjoint V F Y;
  hf_length : length Y = length C;
  hf_files : ∀ j d c, Y !! j = Some d → C !! j = Some c → inode_at make_sb V (Z.of_nat j + 1) = Some d ∧ d_nlink d = 1 ∧
    shaped V d (Z.of_nat (length c)) ∧ has_bytes V d c ∧
    if (j =? 0)%nat then d_type d = T_DIR ∧ d_size d = (Z.of_nat (length c) / BSIZE + 1) * BSIZE
    else d_type d = T_FILE ∧ d_size d = Z.of_nat (length c) }.

(** The end of the program, from the root directory on. *)
Lemma finish_at s C : ready s C → (∃ c, C !! 0%nat = Some c) →
  ∃ s' Y, (din <- rinode io ROOTINO ;; winode io ROOTINO (din <| d_size := xint ((xint (d_size din) / BSIZE + 1) * BSIZE) |>) ;;; n <- gets freeblock ;; balloc io n) s = Ret tt s' ∧
    holds_files (sectors s') (nmeta + total C) Y C ∧ length (img s') = Z.to_nat FSSIZE.
Proof.
  intros (V & Y & [O1 O2 O3 O4 O5] & Ht & H1) [c0 Hc0]. pose proof (fo_length _ _ _ _ O2) as HlY. pose proof (fs_ok_free _ _ _ _ O2) as [HF1 HF2].
  destruct (lookup_lt_is_Some_2 Y 0) as [d0 Hd0]; [rewrite HlY; by eapply lookup_lt_Some|]. destruct (O3 0%nat d0 c0 Hd0 Hc0) as [Hat0 Hsz0].
  destruct (fo_files _ _ _ _ O2 0%nat d0 c0 Hd0 Hc0) as (Hok0 & Hsh0 & _). pose proof (sh_size _ _ _ Hsh0) as Hs0. assert (MAXFILE * BSIZE = 71680) as HM by done.
  set (sz := (Z.of_nat (length c0) / BSIZE + 1) * BSIZE). set (d1 := d0 <| d_size := sz |>).
  assert (0 ≤ sz < 2 ^ 32) as Hsz.
  { unfold sz, BSIZE in *. assert (0 ≤ Z.of_nat (length c0) / 512 ≤ Z.of_nat (length c0)) by (split; [apply Z.div_pos; lia|apply Z.div_le_upper_bound; lia]). lia. }
  assert (dinode_ok d1) as Hok1 by (destruct Hok0; by split). assert (0 ≤ ROOTINO < NINODES) as Hi by done. change (Z.of_nat 0 + 1) with ROOTINO in Hat0.
  destruct (winode_at io Hio s V _ ROOTINO d1 O1 Hi Hok1) as (s1 & b1 & E1 & S1 & Hf1 & Hat1 & Hoth1). set (V1 := put_block _ _ _) in *. destruct (iblock_at _ Hi) as [_ Hib].
  destruct (balloc_at s1 V1 _ S1) as (s2 & b2 & E2 & S2 & Hu2); [rewrite nmeta_eq in *; lia|]. set (V2 := put_block V1 58 b2) in *.
  assert (∀ n, 0 ≤ n → sectors s2 n = V2 n) as Hview by (intros n Hn; by apply (sw_view _ _ _ S2)).
  assert (∀ i, 0 ≤ i < NINODES → inode_at make_sb (sectors s2) i = inode_at make_sb V1 i) as Hino.
  { intros i Hi'. destruct (iblock_at i Hi') as [_ Hb]. unfold inode_at. rewrite Hview by lia. unfold V2. by rewrite put_block_ne by lia. }
  assert (fs_ok (sectors s2) (nmeta + total C) (<[0%nat := d1]> Y) C) as Hok2.
  { eapply fs_ok_addrs; [eapply fs_ok_meta; [|exact O2]|by rewrite length_insert| |].
    - intros n Hn. rewrite nmeta_eq in Hn. rewrite Hview by lia. unfold V2, V1. by rewrite !put_block_ne by lia.
    - intros j e. rewrite list_lookup_insert. case_decide; [by intros [= <-]|]. intros He. destruct (lookup_lt_is_Some_2 C j) as [cj Hcj]; [rewrite <- HlY; by eapply lookup_lt_Some|].
      by destruct (fo_files _ _ _ _ O2 j e cj He Hcj).
    - intros j e e' He. rewrite list_lookup_insert. case_decide as Hj; [|congruence]. destruct Hj as [<- _]. intros [= <-]. by simplify_eq. }
  exists s2, (<[0%nat := d1]> Y). split; [|split; [|apply (sw_length _ _ _ S2)]].
  - rewrite (bind_ret _ _ _ _ _ (rinode_at io Hio s V _ _ d0 O1 Hi Hat0)), Hsz0, (xint_small (Z.of_nat (length c0))) by lia. fold sz. rewrite (xint_small sz) by done. fold d1.
    rewrite (bind_ret _ _ _ _ _ E1). rewrite (bind_ret _ _ _ (nmeta + total C) s1) by (unfold gets; by rewrite (sw_free _ _ _ S1)). exact E2.
  - split.
    + split; [|by vm_compute]. rewrite Hview by lia. unfold V2, V1. rewrite !put_block_ne by lia. done.
    + intros b Hb. rewrite <- (Hu2 b Hb). unfold used. rewrite Hview; [done|]. unfold BBLOCK, u32. apply Z.mod_pos_bound. done.
    + apply Hok2.
    + by rewrite length_insert.
    + intros j d c Hd Hc. destruct (fo_files _ _ _ _ Hok2 j d c Hd Hc) as (_ & Hshp & Hby). rewrite list_lookup_insert in Hd. case_decide as Hj.
      * destruct Hj as [<- _]. injection Hd as <-. rewrite Hc0 in Hc. injection Hc as <-. rewrite Hino by done. destruct (Ht 0%nat d0 Hd0) as (T1 & T2 & _). done.
      * destruct (Ht j d Hd) as (T1 & T2 & _). destruct (O3 j d c Hd Hc) as [Ha Hz]. pose proof (lookup_lt_Some _ _ _ Hd) as Hlt.
        assert (j ≠ 0%nat) as Hj0 by (intros ->; apply Hj; split; [done|lia]). rewrite Hino, Hoth1 by (unfold ROOTINO; lia). rewrite (proj2 (Nat.eqb_neq j 0) Hj0) in *. done.
Qed.

Lemma mkfs_run files s0 : usable files → ∃ s Y, main io (Some true) files s0 = Ret tt s ∧ length (img s) = Z.to_nat FSSIZE ∧
  holds_files (sectors s) (nmeta + total (image_files files)) Y (image_files files).
Proof.
  intros HU. assert (FSSIZE = 1000) as HS by done. set (s1 := mk_mkst (replicate (0 + Z.to_nat FSSIZE) zeroes) 1 nmeta).
  assert (shows s1 (fun n => replicate (Z.to_nat FSSIZE) zeroes !! Z.to_nat n) nmeta) as S1.
  { split; [done| |done|done]. intros n d Hd. change (img s1) with (replicate (Z.to_nat FSSIZE) zeroes) in Hd. by apply lookup_replicate in Hd as [-> _]. }
  set (V0 := fun n => _) in S1. destruct (wsect_at io Hio s1 V0 nmeta 1 super_block S1) as (s2 & E2 & S2 & Hf2); [lia|by vm_compute|].
  assert (ready s2 []) as HR0.
  { exists (put_block V0 1 super_block), []. split; [|split; [by intros j d|apply put_block_eq]]. split; [done| |done|done|done].
    split; [|done|done|done]. split; [done|done|done|]. intros n Hn. rewrite put_block_ne by (change (nmeta + total []) with 59 in Hn; lia).
    unfold V0. apply lookup_replicate_2. change (nmeta + total []) with 59 in Hn. lia. }
  destruct (ialloc_ready s2 [] T_DIR HR0) as (s3 & E3 & HR3); [done|done|]. change (Z.of_nat (length []) + 1) with ROOTINO in E3. change ([] ++ [[]]) with [@nil Z] in HR3.
  pose proof (usable_prefix [] files HU) as [_ _ U3 U4]. change (image_files []) with [root_bytes []] in *.
  assert (Z.of_nat (length (root_bytes [])) = 32) as Hr by done.
  destruct (iappend_ready s3 [[]] 0 [] (dir_entry ROOTINO [46]) HR3) as (s4 & E4 & HR4); [done|done|by vm_compute|]. change (Z.of_nat 0 + 1) with ROOTINO in E4.
  destruct (iappend_ready s4 _ 0 (dir_entry ROOTINO [46]) (dir_entry ROOTINO [46; 46]) HR4) as (s5 & E5 & HR5); [done|done|by vm_compute|]. change (Z.of_nat 0 + 1) with ROOTINO in E5.
  destruct (add_files_ready files [] s5 HR5 HU) as (s6 & E6 & HR6). cbn [app] in HR6.
  destruct (finish_at s6 _ HR6) as (s7 & Y & E7 & Hh & Hl); [by eexists|]. exists s7, Y. split; [|done]. unfold main.
  rewrite (bind_ret _ _ _ tt (mk_mkst [] 1 nmeta)) by done. rewrite (bind_ret _ _ _ _ _ (zero_image_run (Z.to_nat FSSIZE) 0 1 nmeta ltac:(lia))). fold s1.
  rewrite (bind_ret _ _ _ _ _ E2), (bind_ret _ _ _ _ _ E3). cbn [negb Z.eqb]. change (negb (ROOTINO =? ROOTINO)) with false. cbv iota.
  by rewrite (bind_ret _ _ _ _ _ E4), (bind_ret _ _ _ _ _ E5), (bind_ret _ _ _ _ _ E6).
Qed.

(** mkfs, on files that can be read and that fit, returns and leaves a file
    system: the super block describes it, the bitmap marks the blocks below the
    first free one, no two entries of inodes share a block and all lie between
    the bitmap and the first free block, each inode has just the blocks its
    contents need, the root directory has the entries of
    the two dots and of the files, and inode [j + 2] has the contents of file [j]. *)
Theorem mkfs_correct files s0 : usable files → ∃ s Y, main io (Some true) files s0 = Ret tt s ∧ length (img s) = Z.to_nat FSSIZE ∧
  holds_files (sectors s) (nmeta + total (image_files files)) Y (image_files files).
Proof. apply mkfs_run. Qed.
End run.

(** ** Directories that end at the end of a block *)

Lemma length_dir_entry i n : length (dir_entry i n) = 16%nat.
Proof. unfold dir_entry, encode_dirent. rewrite length_app, length_le_encode. cbn [de_name]. rewrite length_take, length_app, length_replicate. unfold DIRSIZ. lia. Qed.
Lemma length_root_bytes l : length (root_bytes l) = (16 * (length l + 2))%nat.
Proof.
  induction l as [|a l IH] using rev_ind; [done|]. rewrite root_bytes_snoc, !length_app, length_dir_entry, IH. cbn. lia.
Qed.

(** The size of the root directory is rounded up past the end when its
    entries fill their last block: with 30 files, and whenever the number of
    entries is a multiple of 32, the size covers a block that the directory
    does not have. *)
Theorem mkfs_root_hole io files s0 : (∀ n, io n = true) → usable files → (Z.of_nat (length files) + 2) mod 32 = 0 →
  ∃ s d bn, main io (Some true) files s0 = Ret tt s ∧ inode_at make_sb (sectors s) ROOTINO = Some d ∧
    0 ≤ bn ∧ bn * BSIZE < d_size d ∧ fb (sectors s) (ino d) bn = 0.
Proof.
  intros Hio HU Hm. destruct (mkfs_run io Hio files s0 HU) as (s & Y & E & _ & [_ _ _ HL HF]).
  destruct (lookup_lt_is_Some_2 Y 0) as [d Hd]; [rewrite HL; cbn; lia|]. destruct (HF 0%nat d (root_bytes files) Hd eq_refl) as (Hat & _ & Hsh & _ & _ & Hsz).
  set (n := Z.of_nat (length (root_bytes files))) in *. assert (n = 512 * ((Z.of_nat (length files) + 2) / 32)) as Hn.
  { unfold n. rewrite length_root_bytes. pose proof (Z.div_mod (Z.of_nat (length files) + 2) 32 ltac:(lia)). lia. }
  exists s, d, (n / BSIZE). split; [done|]. split; [done|]. assert (0 ≤ n / BSIZE ∧ n / BSIZE * BSIZE = n) as [Hb Hbn].
  { unfold BSIZE. rewrite Hn, Z.mul_comm, Z.div_mul by lia. split; [apply Z.div_pos; lia|done]. }
  split; [done|]. split; [rewrite Hsz; unfold BSIZE in *; lia|]. destruct (decide (fb (sectors s) (ino d) (n / BSIZE) = 0)) as [|Hz]; [done|].
  exfalso. destruct (decide (n / BSIZE < MAXFILE)) as [Hlt|Hge]; [apply (sh_blocks _ _ _ Hsh) in Hz; lia|].
  pose proof (us_inodes _ HU) as Hi. unfold NINODES in Hi. assert ((Z.of_nat (length files) + 2) / 32 ≤ 7) by (apply Z.div_le_upper_bound; lia). unfold BSIZE in *. assert (MAXFILE = 140) by done. lia.
Qed.

(** ** The kernel reads what mkfs wrote *)

Section reading.
Context {FU : Fuel} {DK : Disk} (Hdisk : in_memory DK).
Context {s : kstate} {c p : nat} {u : cpu} {q : proc} (Hsolo : solo s c p u q).

(** An inode of the image, in the memory of a kernel that sees the image. *)
Record loaded (V : blocks) (d : dinode) (r : kres) (y : inode) : Prop := {
  ld_view : ∀ n, 0 ≤ n → view r n = V n;
  ld_disk : length (memdisk r) = Z.to_nat FSSIZE;
  ld_dev : i_dev y = 1;
  ld_inode : dinode_of y = d }.

Lemma loaded_fb V d r y bn : loaded V d r y → fb V y bn = fb V (ino d) bn ∧ ind y = ind (ino d).
Proof. intros [_ _ _ <-]. unfold fb, ind. done. Qed.
Lemma loaded_in V F Y j d r y o : disjoint V F Y → Y !! j = Some d → loaded V d r y → entry o → blk V d o ≠ 0 → block_in r (blk V d o).
Proof.
  intros HD Hd HL Ho Hz. pose proof (dj_range _ _ _ HD j o Ho) as Hr. pose proof (dj_free _ _ _ HD) as HF0. rewrite (owned_at _ _ _ _ _ Hd) in Hr. specialize (Hr Hz).
  rewrite nmeta_eq in *. unfold block_in. rewrite (ld_disk _ _ _ _ HL), Z2Nat.id by done. lia.
Qed.
Lemma loaded_block V F Y j d r y bn : disjoint V F Y → Y !! j = Some d → loaded V d r y → 0 ≤ bn < MAXFILE → fb V (ino d) bn ≠ 0 →
  file_block (view r) y bn = Some (fb V (ino d) bn).
Proof.
  intros HD Hd HL Hbn Hz. destruct (loaded_fb V d r y bn HL) as [Hf Hi]. rewrite <- Hf in *. rewrite <- (fb_file_block V y bn Hz). unfold file_block.
  destruct (Z.ltb_spec bn NDIRECT) as [|Hge]; [done|]. destruct (i_addrs y !! Z.to_nat NDIRECT) as [x|] eqn:Hx; [|done]. cbn [mbind option_bind].
  rewrite (ld_view _ _ _ _ HL); [done|]. assert (ind y = x) as Hix by (unfold ind; by rewrite Hx). rewrite <- Hix, Hi. destruct (decide (ind (ino d) = 0)) as [|Hiz]; [lia|].
  destruct (loaded_in V F Y j d r y None HD Hd HL I Hiz). cbn in *. lia.
Qed.
Lemma loaded_mapped V F Y j d r y : disjoint V F Y → Y !! j = Some d → loaded V d r y → shaped V d (i_size y) → mapped r y.
Proof.
  intros HD Hd HL Hsh. pose proof (sh_size _ _ _ Hsh) as Hn. split; [apply HL|done| |].
  - intros bn H0 Hlt. assert (0 ≤ bn < MAXFILE) as Hbn by (assert (MAXFILE * BSIZE = 71680) by done; assert (MAXFILE = 140) by done; unfold BSIZE in *; lia).
    assert (fb V (ino d) bn ≠ 0) as Hz by (by apply (sh_blocks _ _ _ Hsh)). exists (fb V (ino d) bn). split; [by eapply loaded_block|].
    exact (loaded_in V F Y j d r y (Some bn) HD Hd HL Hbn Hz).
  - intros Hlt. apply (sh_ind _ _ _ Hsh) in Hlt. destruct (loaded_fb V d r y 0 HL) as [_ Hi]. exists (ind y). rewrite <- Hi in Hlt.
    split; [|rewrite Hi in *; exact (loaded_in V F Y j d r y None HD Hd HL I Hlt)]. unfold ind in *. by destruct (i_addrs y !! Z.to_nat NDIRECT).
Qed.
Lemma loaded_byte V F Y j d r y k : disjoint V F Y → Y !! j = Some d → loaded V d r y → shaped V d (i_size y) → 0 ≤ k < i_size y →
  file_byte (view r) y k = file_byte V (ino d) k.
Proof.
  intros HD Hd HL Hsh [Hk Hlt]. pose proof (block_start k Hk). destruct (shaped_block _ _ _ _ Hsh Hk ltac:(lia)) as [Hz Hbk]. unfold file_byte.
  rewrite (loaded_block V F Y j d r y _ HD Hd HL Hbk Hz), (fb_file_block V (ino d)) by done. cbn [mbind option_bind]. rewrite (ld_view _ _ _ _ HL); [done|].
  destruct (loaded_in V F Y j d r y (Some (k / BSIZE)) HD Hd HL Hbk Hz). cbn in *. lia.
Qed.

(** Reading a file whose inode is in memory. *)
Lemma read_file V F Y files j a ip y r : holds_files V F Y (image_files files) → files !! j = Some a →
  idle (pid q) r → (∀ n, 0 ≤ n → view r n = V n) → length (memdisk r) = Z.to_nat FSSIZE →
  inodes r !! ip = Some y → i_dev y = 1 → inode_at make_sb V (Z.of_nat j + 2) = Some (dinode_of y) →
  ∃ r', readi ip 0 (Z.of_nat (length (contents a))) (with_res s r) = Ret (Z.of_nat (length (contents a)), contents a) (with_res s r').
Proof.
  intros [_ _ HD HL HF] Ha Hidle Hview Hmd Hy Hdev Hat. set (n := Z.of_nat (length (contents a))).
  assert (image_files files !! S j = Some (contents a)) as Hcj by (change (image_files files !! S j) with ((contents <$> files) !! j); by rewrite list_lookup_fmap, Ha).
  destruct (lookup_lt_is_Some_2 Y (S j)) as [d Hd]; [rewrite HL; by eapply lookup_lt_Some|]. destruct (HF (S j) d (contents a) Hd Hcj) as (Hat' & _ & Hsh & Hby & Hty & Hsz).
  replace (Z.of_nat (S j) + 1) with (Z.of_nat j + 2) in Hat' by lia. rewrite Hat in Hat'. injection Hat' as Hdy. fold n in Hsh, Hsz.
  assert (loaded V d r y) as HLd by (split; [done|congruence|done|done]).
  assert (i_size y = n ∧ i_type y = T_FILE) as (Esz & Ety) by (by rewrite <- Hdy in *). rewrite <- Esz in Hsh. pose proof (sh_size _ _ _ Hsh) as Hn. assert (MAXFILE * BSIZE = 71680) as HM by done.
  destruct (readi_solo Hdisk Hsolo ip y 0 n r Hidle Hy) as [_ Hr]; [by rewrite Ety|by eapply loaded_mapped|lia|lia|]. destruct Hr as (l & r' & Er & Hl & _); [lia|lia|].
  rewrite Esz, Z.sub_0_r, Z.min_id in Er, Hl. exists r'. rewrite Er. do 2 f_equal. apply mapM_Some in Hl. pose proof (Forall2_length _ _ _ Hl) as Hll. rewrite length_seq in Hll.
  apply list_eq_same_length with (n := length (contents a)); [done|unfold n in Hll; lia|]. intros i b1 b2 Hi Hb1 Hb2.
  destruct (Forall2_lookup_r _ _ _ _ _ Hl Hb1) as (k & Hk & Hb). apply lookup_seq in Hk as [-> _]. cbn [Nat.add] in Hb. rewrite Z.add_0_l in Hb.
  assert (0 ≤ Z.of_nat i < n) as Hin by (unfold n; lia). rewrite (loaded_byte V _ Y (S j) d r y) in Hb by (done || lia).
  pose proof (block_start _ (proj1 Hin)). pose proof (Hby (Z.of_nat i) (proj1 Hin) ltac:(unfold n in *; lia)) as Hbi. rewrite Nat2Z.id, Hb2 in Hbi. cbn in Hbi. congruence.
Qed.
End reading.
