(* ===== verification/MkTree.v ===== *)
(** * The kernel finds what mkfs stored

    The root directory of an image is the list of its names, followed by empty
    entries; the files are reached from it with [namei], and [readi] returns
    their contents. *)

From S2P Require Import Prelude Machine Spinlock CString ProcTable Proc Lifecycle Ready Aging.
From S2P Require Import ProcLemmas Scheduler Reach Blocking Kstate Sleeplock Solo.
From S2P Require Import Devices Disk Bio Cache Layout Log Crash Transaction Inode Console Fs Content Txn Alloc Bmap Writei Icache Namei.
From S2P Require Import Mkfs MkImage MkRun.

(** ** Names *)

(** The entries of the root directory. *)
Definition root_names (files : list arg) : list (Z * list Z) :=
  [(ROOTINO, [46]); (ROOTINO, [46; 46])] ++ imap (fun i a => (Z.of_nat i + 2, stored_name a)) files.
(** The inode number of a name: that of the first entry with it. *)
Definition find_name (files : list arg) (e : list Z) : option Z :=
  (fun p => p.2.1) <$> list_find (fun n : Z * list Z => take DIRSIZ n.2 = take DIRSIZ e) (root_names files).

Definition as_dirent (n : Z * list Z) : dirent := mk_dirent n.1 (take DIRSIZ (n.2 ++ replicate DIRSIZ 0)).
Definition no_dirent : dirent := mk_dirent 0 (replicate DIRSIZ 0).
Definition root_dirent (files : list arg) (k : nat) : dirent := default no_dirent (as_dirent <$> root_names files !! k).

Lemma length_root_names files : length (root_names files) = (length files + 2)%nat.
Proof. unfold root_names. rewrite length_app, length_imap. cbn. lia. Qed.
Lemma root_names_lookup files k n : root_names files !! k = Some n → 1 ≤ n.1 ≤ Z.of_nat (length files) + 1 ∧ (n.2 = [46] ∨ n.2 = [46; 46] ∨ ∃ a, a ∈ files ∧ n.2 = stored_name a).
Proof.
  destruct k as [|[|k]]; [intros [= <-]; cbn; unfold ROOTINO; split; [lia|by left]|intros [= <-]; cbn; unfold ROOTINO; split; [lia|by right; left]|].
  change (root_names files !! S (S k)) with (imap (fun i a => (Z.of_nat i + 2, stored_name a)) files !! k).
  rewrite list_lookup_imap. destruct (files !! k) as [a|] eqn:E; [|done]. intros [= <-]. cbn. pose proof (lookup_lt_Some _ _ _ E). split; [lia|]. right. right. exists a. split; [by eapply list_elem_of_lookup_2|done].
Qed.

Lemma xshort_small i : 0 ≤ i < 65536 → xshort i = i.
Proof. intros Hi. unfold xshort. rewrite le_decode_encode. by apply Z.mod_small. Qed.
Lemma root_bytes_join files : root_bytes files = mjoin ((fun n => dir_entry n.1 n.2) <$> root_names files).
Proof.
  unfold root_bytes, root_names. rewrite fmap_app, join_app. cbn [fmap list_fmap mjoin list_join fst snd]. rewrite app_nil_r, <- app_assoc. do 3 f_equal. by rewrite fmap_imap.
Qed.
Lemma join_lookup {A} n (ls : list (list A)) k i : (∀ l, l ∈ ls → length l = n) → (i < n)%nat → mjoin ls !! (n * k + i)%nat = ls !! k ≫= (.!! i).
Proof.
  intros Hl Hi. revert k. induction ls as [|l ls IH]; intros k; [done|]. cbn [mjoin list_join]. assert (length l = n) as Hn by (apply Hl; by left).
  destruct k as [|k]; cbn [lookup list_lookup]; [rewrite Nat.mul_0_r; by rewrite lookup_app_l by (cbn; lia)|]. rewrite lookup_app_r by lia. rewrite <- IH by (intros l' Hl'; apply Hl; by right). f_equal. lia.
Qed.
Lemma decode_encode_dirent x : length (de_name x) = DIRSIZ → decode_dirent (encode_dirent x) = Some (mk_dirent (xshort (de_inum x)) (de_name x)).
Proof.
  intros Hl. unfold decode_dirent, encode_dirent. rewrite (get_bytes_0_app 2) by apply length_le_encode. cbn [fmap option_fmap mbind option_bind].
  rewrite (get_bytes_skip _ _ 2 2) by (done || apply length_le_encode). change (2 - 2)%nat with 0%nat.
  pose proof (get_bytes_0_app DIRSIZ (de_name x) [] Hl) as E. rewrite app_nil_r in E. by rewrite E.
Qed.
Lemma xshort_twice i : xshort (xshort i) = xshort i.
Proof. unfold xshort. rewrite !le_decode_encode. by rewrite Z.mod_mod. Qed.

(** ** The root directory *)

Section root.
Context {V : blocks} {F : Z} {Y : list dinode} {files : list arg} (H : holds_files V F Y (image_files files)) (HU : usable files).
Context (Hm : (Z.of_nat (length files) + 2) mod 32 ≠ 0) (Hch : ∀ a, a ∈ files → chars (stored_name a)).

Lemma few_files : Z.of_nat (length files) < 199.
Proof. pose proof (us_inodes _ HU). unfold NINODES in *. lia. Qed.

Lemma inode_of k : (k ≤ length files)%nat → ∃ d c, Y !! k = Some d ∧ image_files files !! k = Some c ∧ inode_at make_sb V (Z.of_nat k + 1) = Some d ∧ d_nlink d = 1 ∧
  shaped V d (Z.of_nat (length c)) ∧ has_bytes V d c ∧
  if (k =? 0)%nat then d_type d = T_DIR ∧ d_size d = (Z.of_nat (length c) / BSIZE + 1) * BSIZE else d_type d = T_FILE ∧ d_size d = Z.of_nat (length c).
Proof.
  intros Hk. assert (length (image_files files) = S (length files)) as Hl by (unfold image_files; cbn; by rewrite length_fmap).
  destruct (lookup_lt_is_Some_2 Y k) as [d Hd]; [rewrite (hf_length _ _ _ _ H); lia|]. destruct (lookup_lt_is_Some_2 (image_files files) k) as [c Hc]; [lia|].
  exists d, c. split; [done|]. split; [done|]. exact (hf_files _ _ _ _ H k d c Hd Hc).
Qed.

(** The bytes of the names, and zeros up to the end of the block. *)
Lemma root_size : let n := Z.of_nat (length (root_bytes files)) in n = 16 * (Z.of_nat (length files) + 2) ∧ n < 3216 ∧ n / BSIZE * BSIZE < n.
Proof.
  pose proof few_files as Hf. rewrite length_root_bytes. cbv zeta. replace (Z.of_nat (16 * (length files + 2))) with (16 * (Z.of_nat (length files) + 2)) by lia. split; [done|]. split; [lia|].
  unfold BSIZE. set (m := Z.of_nat (length files) + 2) in *. change 512 with (16 * 32). rewrite <- Z.div_div, (Z.mul_comm 16 m), Z.div_mul by lia.
  pose proof (Z.div_mod m 32 ltac:(lia)). pose proof (Z.mod_pos_bound m 32 ltac:(lia)). lia.
Qed.

Lemma root_byte i : default 0 (root_bytes files !! i) = default 0 (encode_dirent (root_dirent files (i / 16)) !! (i mod 16)%nat).
Proof.
  pose proof (Nat.mod_upper_bound i 16 ltac:(lia)) as Hi. rewrite (Nat.div_mod_eq i 16) at 1. rewrite root_bytes_join, (join_lookup 16) by (done || (intros l (n & -> & _)%list_elem_of_fmap; apply length_dir_entry)).
  rewrite list_lookup_fmap. unfold root_dirent. destruct (root_names files !! (i / 16)%nat) as [n|] eqn:E; cbn [fmap option_fmap option_map mbind option_bind default].
  - unfold dir_entry, as_dirent, encode_dirent. cbn [de_inum de_name]. apply root_names_lookup in E as [Hn _]. pose proof few_files. by rewrite xshort_small by lia.
  - symmetry. assert (encode_dirent no_dirent = replicate 16 0) as -> by (by vm_compute). by rewrite lookup_replicate_2.
Qed.

Lemma length_as_dirent k : length (de_name (root_dirent files k)) = DIRSIZ.
Proof.
  unfold root_dirent. destruct (root_names files !! k) as [n|]; [|done]. change (length (take DIRSIZ (n.2 ++ replicate DIRSIZ 0)) = DIRSIZ). rewrite length_take, length_app, length_replicate. lia.
Qed.
Lemma root_inum k : 0 ≤ de_inum (root_dirent files k) < 65536.
Proof. unfold root_dirent. destruct (root_names files !! k) as [n|] eqn:E; cbn; [|lia]. apply root_names_lookup in E as [Hn _]. pose proof few_files. lia. Qed.

Lemma root_dent d c k : Y !! 0%nat = Some d → image_files files !! 0%nat = Some c → has_bytes V d c → (k < Z.to_nat (d_size d / 16))%nat → d_size d = (Z.of_nat (length c) / BSIZE + 1) * BSIZE →
  dent V d k = Some (root_dirent files k).
Proof.
  intros Hd Hc Hby Hk Hsz. injection Hc as <-. destruct root_size as (Hn & Hmax & Hlt). set (n := Z.of_nat (length (root_bytes files))) in *.
  assert (16 * Z.of_nat k + 16 ≤ d_size d) as Hk'. { pose proof (Z.div_mod (d_size d) 16 ltac:(lia)). pose proof (Z.mod_pos_bound (d_size d) 16 ltac:(lia)). lia. }
  assert (file_bytes V (in_core d) (16 * Z.of_nat k) 16 = Some (encode_dirent (root_dirent files k))) as E.
  { apply mapM_Some_2, Forall2_same_length_lookup_2.
    - rewrite length_seq. unfold encode_dirent. rewrite length_app, length_le_encode, length_as_dirent. done.
    - intros i j b Hj Hb. apply lookup_seq in Hj as [-> Hi]. cbn [Nat.add] in *. assert (0 ≤ 16 * Z.of_nat k + Z.of_nat i) as H0 by lia.
      pose proof (block_start _ H0) as Hbs. pose proof (Hby _ H0) as Hbi. change (ino d) with (in_core d) in Hbi. rewrite Hbi.
      + f_equal. replace (Z.to_nat (16 * Z.of_nat k + Z.of_nat i)) with (k * 16 + i)%nat by lia. rewrite root_byte, Nat.div_add_l, Nat.div_small, Nat.add_0_r by lia.
        rewrite Nat.add_comm, Nat.Div0.mod_add, Nat.mod_small by lia. by rewrite Hb.
      + set (z := 16 * Z.of_nat k + Z.of_nat i) in *. assert (z / BSIZE ≤ n / BSIZE); [|unfold BSIZE in *; lia].
        rewrite Hsz in Hk'. apply Z.lt_succ_r, Z.div_lt_upper_bound; [done|]. unfold BSIZE in *. lia. }
  unfold dent. rewrite E. cbn [mbind option_bind]. rewrite decode_encode_dirent by apply length_as_dirent. rewrite xshort_small by apply root_inum. by destruct (root_dirent files k).
Qed.

Lemma omap_all {A B} (f : A → option B) (g : A → B) (l : list A) : (∀ x, x ∈ l → f x = Some (g x)) → omap f l = g <$> l.
Proof. induction l as [|x l IH]; intros Hf; [done|]. cbn. rewrite (Hf x) by (by left). f_equal. apply IH. intros y Hy. apply Hf. by right. Qed.

(** The inode of the root directory. *)
Record root_inode (d : dinode) : Prop := {
  ri_at : inode_at make_sb V ROOTINO = Some d;
  ri_links : d_nlink d = 1;
  ri_ok : dir_ok V (Z.to_nat FSSIZE) d;
  ri_slots : (length files + 2 ≤ Z.to_nat (d_size d / 16))%nat;
  ri_entries : dir_entries V d = root_dirent files <$> seq 0 (Z.to_nat (d_size d / 16)) }.

Lemma root_names_bytes k : is_bytes (de_name (root_dirent files k)).
Proof.
  unfold root_dirent. destruct (root_names files !! k) as [n|] eqn:E; [|by apply Forall_replicate]. change (is_bytes (take DIRSIZ (n.2 ++ replicate DIRSIZ 0))).
  apply Forall_take, Forall_app. split; [|by apply Forall_replicate]. apply root_names_lookup in E as (_ & [->|[->|(a & Ha & ->)]]); [by repeat constructor|by repeat constructor|].
  eapply Forall_impl; [exact (Hch a Ha)|]. cbn. lia.
Qed.

Lemma root_is : ∃ d, root_inode d.
Proof.
  destruct (inode_of 0 ltac:(lia)) as (d & c & Hd & Hc & Hat & Hnl & Hsh & Hby & Hty & Hsz). exists d. pose proof root_size as (Hn & Hmax & Hlt). pose proof Hc as Hc'. injection Hc' as <-.
  set (n := Z.of_nat (length (root_bytes files))) in *. assert (0 ≤ n / BSIZE < 7) as Hnb by (split; [apply Z.div_pos; [lia|done]|apply Z.div_lt_upper_bound; [done|unfold BSIZE; lia]]).
  assert (MAXFILE = 140) as HM by done. assert (FSSIZE = 1000) as HS by done. pose proof (hf_blocks _ _ _ _ H) as HD. pose proof (dj_free _ _ _ HD) as HF. rewrite nmeta_eq in HF.
  assert (d_size d / 16 = 32 * (n / BSIZE + 1)) as Hds by (rewrite Hsz; unfold BSIZE; replace ((n / 512 + 1) * 512) with (32 * (n / 512 + 1) * 16) by lia; by rewrite Z.div_mul).
  assert (n < (n / BSIZE + 1) * BSIZE) as Hup by (pose proof (block_start n ltac:(lia)); unfold BSIZE in *; lia).
  assert (dir_entries V d = root_dirent files <$> seq 0 (Z.to_nat (d_size d / 16))) as He.
  { apply omap_all. intros k Hk%elem_of_seq. eapply root_dent; [done|done|done|lia|exact Hsz]. }
  split; [done|done| |unfold BSIZE in *; lia|done]. split; [|done| |].
  - split; [rewrite Hsz; unfold BSIZE in *; lia| |rewrite Hsz; unfold BSIZE, NDIRECT in *; lia].
    intros bn Hb0 Hb. assert (0 ≤ bn < MAXFILE) as Hbn by (unfold BSIZE in *; lia). assert (bn * BSIZE < n) as Hbl by (unfold BSIZE in *; lia). apply (sh_blocks _ _ _ Hsh bn Hbn) in Hbl.
    exists (fb V (ino d) bn). split; [exact (fb_file_block V (ino d) bn Hbl)|]. pose proof (dj_range _ _ _ HD 0%nat (Some bn) Hbn) as Hr. rewrite (owned_at _ _ _ _ _ Hd) in Hr. specialize (Hr Hbl). rewrite nmeta_eq in Hr. cbn in Hr. lia.
  - rewrite Hsz. unfold BSIZE. replace ((n / 512 + 1) * 512) with ((n / 512 + 1) * 32 * 16) by lia. by rewrite Z.mod_mul.
  - rewrite He. intros de (k & -> & _)%list_elem_of_fmap. apply root_names_bytes.
Qed.

(** The inodes of the image. *)
Definition image_inode (i : Z) : Prop := 1 ≤ i ≤ Z.of_nat (length files) + 1.

Lemma image_tree : tree_ok (V := V) (N := Z.to_nat FSSIZE) (x := make_sb) image_inode.
Proof.
  intros i Hi. unfold image_inode in Hi. pose proof few_files as Hf. destruct (iblock_at i) as [_ Hib]; [unfold NINODES; lia|]. split; [assert (FSSIZE = 1000) by done; lia|].
  destruct (decide (i = 1)) as [->|Hne].
  - destruct root_is as (d & [R1 R2 R3 R4 R5]). exists d. split; [done|]. pose proof (do_type _ _ _ R3) as Ht. split; [by rewrite Ht|]. split; [by rewrite R2|]. intros _. split; [done|].
    intros k de Hk Hnz. rewrite R5 in Hk. apply list_lookup_fmap_Some in Hk as (m & -> & Hm'). unfold root_dirent in *. destruct (root_names files !! m) as [n|] eqn:E; [|done]. by apply root_names_lookup in E as [? _].
  - destruct (inode_of (Z.to_nat (i - 1)) ltac:(lia)) as (d & c & Hd & Hc & Hat & Hnl & _ & _ & Hty). exists d. replace (Z.of_nat (Z.to_nat (i - 1)) + 1) with i in Hat by lia. split; [done|].
    rewrite (proj2 (Nat.eqb_neq _ 0)) in Hty by lia. destruct Hty as [-> _]. split; [done|]. split; [by rewrite Hnl|done].
Qed.

Lemma cstr_name n : chars n → cstr DIRSIZ (take DIRSIZ (n ++ replicate DIRSIZ 0)) = take DIRSIZ n.
Proof.
  intros Hn. destruct (Nat.leb_spec DIRSIZ (length n)) as [Hle|Hlt].
  - rewrite take_app_le by done. rewrite <- (app_nil_r (take DIRSIZ n)) at 1. by apply cstr_take.
  - rewrite take_app_ge by lia. rewrite (take_ge n) by lia. destruct (DIRSIZ - length n)%nat as [|k] eqn:E; [lia|]. change (replicate DIRSIZ 0) with (0 :: replicate 13 0). cbn [take]. by apply cstr_app_zero.
Qed.

(** An entry has a name when the list of names has it there. *)
Lemma root_named e k : e ≠ [] → named e (root_dirent files k) ↔ ∃ n, root_names files !! k = Some n ∧ take DIRSIZ n.2 = take DIRSIZ e.
Proof.
  intros He. unfold root_dirent. destruct (root_names files !! k) as [n|] eqn:E; cbn [fmap option_fmap option_map from_option id].
  - apply root_names_lookup in E as [Hn Hch']. assert (chars n.2) as Hcn by (destruct Hch' as [->|[->|(a & Ha & ->)]]; [by repeat constructor|by repeat constructor|by apply Hch]).
    unfold named, as_dirent. cbn [de_inum de_name]. rewrite cstr_name by done. split; [intros [_ Ht]; by exists n|]. intros (n' & [= <-] & Ht). split; [lia|done].
  - split; [by intros [[] _]|by intros (n & ? & _)].
Qed.

Lemma list_find_bounded {A B} (P : A → Prop) (Q : B → Prop) `{!∀ x, Decision (P x)} `{!∀ x, Decision (Q x)} (f : nat → A) (l : list B) m : (length l ≤ m)%nat →
  (∀ k, P (f k) ↔ ∃ b, l !! k = Some b ∧ Q b) → fst <$> list_find P (f <$> seq 0 m) = fst <$> list_find Q l.
Proof.
  intros Hl Hf. destruct (list_find Q l) as [[k b]|] eqn:E.
  - apply list_find_Some in E as (Hb & HQ & Hmin). pose proof (lookup_lt_Some _ _ _ Hb). assert (list_find P (f <$> seq 0 m) = Some (k, f k)) as ->; [|done]. apply list_find_Some.
    split; [rewrite list_lookup_fmap, lookup_seq_lt by lia; done|]. split; [apply Hf; by exists b|]. intros j y Hj Hlt. apply list_lookup_fmap_Some in Hj as (j' & -> & Hj'). apply lookup_seq in Hj' as [-> _]. cbn. intros (b' & Hb' & HQ')%Hf. by eapply Hmin.
  - destruct (list_find P (f <$> seq 0 m)) as [[k a]|] eqn:E'; [|done]. exfalso. apply list_find_None in E. apply list_find_Some in E' as (Ha & HP & _). apply list_lookup_fmap_Some in Ha as (j & -> & Hj). apply lookup_seq in Hj as [-> _].
    apply Hf in HP as (b & Hb & HQ). by apply (proj1 (Forall_lookup _ _) E _ _ Hb).
Qed.

(** A name leads from the root to the inode of its first entry. *)
Lemma root_resolve e : e ≠ [] → resolve (V := V) (x := make_sb) false ROOTINO [e] = find_name files e.
Proof.
  intros He. destruct root_is as (d & [R1 R2 R3 R4 R5]). cbn [resolve]. rewrite R1. cbn [mbind option_bind andb]. rewrite (do_type _ _ _ R3). change (T_DIR =? T_DIR) with true. cbv iota.
  unfold dir_find. rewrite R5. pose proof (list_find_bounded (named e) (fun n : Z * list Z => take DIRSIZ n.2 = take DIRSIZ e) (root_dirent files) (root_names files) (Z.to_nat (d_size d / 16))) as Hlf.
  rewrite length_root_names in Hlf. specialize (Hlf R4 (fun k => root_named e k He)). unfold find_name. destruct (list_find (named e) _) as [[k de]|] eqn:E1, (list_find _ (root_names files)) as [[k' n]|] eqn:E2; try done.
  injection Hlf as ->. apply list_find_Some in E1 as (E1 & _). apply list_find_Some in E2 as (E2 & _). apply list_lookup_fmap_Some in E1 as (j & -> & Hj). apply lookup_seq in Hj as [-> _]. cbn [resolve snd fst fmap option_fmap option_map Nat.add mbind option_bind]. unfold root_dirent. by rewrite E2.
Qed.
End root.

(** ** From the host to the kernel *)

Section finding.
Context {FU : Fuel} {HW : Hw} {DK : Disk} (Hdisk : in_memory DK).
Context {s : kstate} {c p : nat} {u : cpu} {q : proc} (Hsolo : solo s c p u q).

(** Locking the inode of file [j] and reading it. *)
Lemma lock_and_read V F Y files j a ip y r : holds_files V F Y (image_files files) → usable files → (Z.of_nat (length files) + 2) mod 32 ≠ 0 → (∀ a, a ∈ files → chars (stored_name a)) →
  files !! j = Some a → icache (pid q) V (Z.to_nat FSSIZE) make_sb None r → inodes r !! ip = Some y → 1 ≤ i_ref y → i_inum y = Z.of_nat j + 2 →
  ∃ r', (ilock ip ;;; readi ip 0 (Z.of_nat (length (contents a)))) (with_res s r) = Ret (Z.of_nat (length (contents a)), contents a) (with_res s r').
Proof.
  intros H HU Hm Hch Ha HI Hy Hr Hn. pose proof (lookup_lt_Some _ _ _ Ha).
  destruct (lock_slot Hdisk Hsolo (image_inode (files := files)) r ip y (image_tree H HU Hm Hch) HI Hy Hr) as (d & r1 & y1 & Hd & E1 & H1 & Hy1 & Hdy & Hdev & _); [unfold image_inode; lia|].
  rewrite (bind_ret _ _ _ _ _ E1). eapply (read_file Hdisk Hsolo V F Y files j a ip y1 r1 H Ha); [apply H1|intros k _; apply (ic_view _ _ _ _ _ _ H1)|apply H1|done|done|congruence].
Qed.

End finding.
