(* ===== verification/Kalloc.v ===== *)
(** * The page allocator (kalloc.c)

    A page is named by its kernel virtual address; its contents are in [pmem]
    at the physical address.  The free list runs through the first word of
    each free page, as in the code. *)

From S2P Require Import Prelude Machine Spinlock CString ProcTable Proc Lifecycle Ready Aging.
From S2P Require Import ProcLemmas Scheduler Reach Blocking Kstate Sleeplock Solo.

(** mmu.h *)
Definition PGROUNDUP (a : Z) : Z := u32 (Z.ldiff (a + PGSIZE - 1) (PGSIZE - 1)).
Definition PGROUNDDOWN (a : Z) : Z := Z.ldiff a (PGSIZE - 1).

(** What the linker and the assembly files give: the end of the kernel image
    and the start of its writable data, the addresses of routines and tables
    whose address the C code takes, and the two programs linked into the
    kernel as bytes. *)
Class Link := {
  kend : Z;                        (* end *)
  kdata : Z;                       (* data *)
  forkret_sym : Z;
  trapret_sym : Z;
  ts_sym : nat → Z;                (* &cpus[i].ts *)
  mpenter_sym : Z;
  entrypgdir_sym : Z;
  vectors : list Z;
  initcode : list Z;               (* initcode.S *)
  entryother : list Z }.           (* entryother.S *)

(** Words of memory. *)
Definition load32 (m : mem) (a : Z) : Z := m a + 2 ^ 8 * m (a + 1) + 2 ^ 16 * m (a + 2) + 2 ^ 24 * m (a + 3).
Definition store32 (m : mem) (a v : Z) : mem :=
  store (store (store (store m a v) (a + 1) (Z.shiftr v 8)) (a + 2) (Z.shiftr v 16)) (a + 3) (Z.shiftr v 24).

Section kalloc.
Context {FU : Fuel} {LK : Link}.

(** [if(kmem.use_lock) acquire(&kmem.lock);] *)
Definition kmem_enter : K unit :=
  u <- rget use_lock ;; if negb (u =? 0) then lock kmem_lock else ret tt.
Definition kmem_leave : K unit :=
  u <- rget use_lock ;; if negb (u =? 0) then unlock kmem_lock else ret tt.

Definition kfree (v : Z) : K unit :=
  if negb (v mod PGSIZE =? 0) || (v <? kend) || (PHYSTOP <=? V2P v) then panic "kfree" else
  rmod (fun r => r <| pmem ::= fun m => memset m (V2P v) 1 PGSIZE |>) ;;;
  kmem_enter ;;;
  rmod (fun r => r <| pmem ::= fun m => store32 m (V2P v) (freelist r) |>) ;;;
  rmod (fun r => r <| freelist := v |>) ;;;
  kmem_leave.

Definition kalloc : K Z :=
  kmem_enter ;;;
  r <- rget freelist ;;
  (if negb (r =? 0) then rmod (fun k => k <| freelist := load32 (pmem k) (V2P r) |>) else ret tt) ;;;
  kmem_leave ;;;
  ret r.

(** [p] goes up by a page, so the number of pages bounds the rounds. *)
Fixpoint freerange_loop (n : nat) (p vend : Z) : K unit :=
  if p + PGSIZE <=? vend then
    match n with
    | O => fun _ => NoFuel
    | S n' => kfree p ;;; freerange_loop n' (p + PGSIZE) vend
    end
  else ret tt.
Definition freerange (vstart vend : Z) : K unit :=
  let p := PGROUNDUP vstart in freerange_loop (Z.to_nat ((vend - p) / PGSIZE)) p vend.

Definition kinit1 (vstart vend : Z) : K unit :=
  on_mach (initlock kmem_lock "kmem") ;;;
  rmod (fun r => r <| use_lock := 0 |>) ;;;
  freerange vstart vend.

Definition kinit2 (vstart vend : Z) : K unit :=
  freerange vstart vend ;;;
  rmod (fun r => r <| use_lock := 1 |>).
End kalloc.

(** ** Words *)

Lemma store32_spec m a v b :
  store32 m a v b = if (a <=? b) && (b <? a + 4) then u8 (Z.shiftr v (8 * (b - a))) else m b.
Proof.
  unfold store32, store.
  destruct (Z.eqb_spec b (a + 3)) as [->|]; [|destruct (Z.eqb_spec b (a + 2)) as [->|];
    [|destruct (Z.eqb_spec b (a + 1)) as [->|]; [|destruct (Z.eqb_spec b a) as [->|]]]].
  5: { destruct (Z.leb_spec a b), (Z.ltb_spec b (a + 4)); try reflexivity; lia. }
  4: { rewrite Z.sub_diag, Z.leb_refl. destruct (Z.ltb_spec a (a + 4)); [|lia]. cbn [andb].
       change (8 * 0) with 0. by rewrite Z.shiftr_0_r. }
  all: rewrite (proj2 (Z.leb_le a _)), (proj2 (Z.ltb_lt _ (a + 4))) by lia; cbn [andb];
       do 2 f_equal; lia.
Qed.

Lemma load_store32 m a v : load32 (store32 m a v) a = u32 v.
Proof.
  unfold load32. rewrite !store32_spec.
  replace (a - a) with 0 by lia. replace (a + 1 - a) with 1 by lia.
  replace (a + 2 - a) with 2 by lia. replace (a + 3 - a) with 3 by lia.
  repeat (match goal with |- context [Z.leb ?x ?y] => destruct (Z.leb_spec x y) end; try lia).
  repeat (match goal with |- context [Z.ltb ?x ?y] => destruct (Z.ltb_spec x y) end; try lia).
  cbn [andb]. change (8 * 0) with 0. rewrite Z.shiftr_0_r, !Z.shiftr_div_pow2 by lia. unfold u8, u32.
  change (2 ^ (8 * 1)) with 256. change (2 ^ (8 * 2)) with (256 * 256).
  change (2 ^ (8 * 3)) with (256 * (256 * 256)).
  change (2 ^ 32) with (256 * (256 * (256 * 256))). change (2 ^ 8) with 256.
  rewrite (Z.rem_mul_r v), (Z.rem_mul_r (v / 256)), (Z.rem_mul_r (v / 256 / 256)) by lia.
  rewrite <- !Z.div_div by lia. lia.
Qed.

Lemma load32_ext m m' a : (∀ b, a ≤ b < a + 4 → m b = m' b) → load32 m a = load32 m' a.
Proof. intros H. unfold load32. by rewrite !H by lia. Qed.

(** ** The free list *)

Definition page_ok {LK : Link} (v : Z) : Prop :=
  v mod PGSIZE = 0 ∧ kend ≤ v ∧ 0 ≤ V2P v < PHYSTOP ∧ KERNBASE ≤ v < 2 ^ 32.

(** The pages linked from [p], in order. *)
Fixpoint chain (m : mem) (p : Z) (l : list Z) : Prop :=
  match l with
  | [] => p = 0
  | a :: l' => p = a ∧ chain m (load32 m (V2P a)) l'
  end.

(** The allocator owns the pages [l]. *)
Record kmem_ok {LK : Link} (r : kres) (l : list Z) : Prop := {
  kmem_chain : chain (pmem r) (freelist r) l;
  kmem_nodup : NoDup l;
  kmem_pages : Forall page_ok l }.

Section kalloc_theorems.
Context {FU : Fuel} {LK : Link}.

Lemma page_pos v : page_ok v → 0 < v.
Proof. intros (_ & _ & _ & H & _). unfold KERNBASE in H. lia. Qed.

Lemma page_V2P v : page_ok v → V2P v = v - KERNBASE.
Proof.
  intros (_ & _ & _ & H). unfold V2P, u32, KERNBASE in *. apply Z.mod_small. lia.
Qed.

(** Two pages share no byte. *)
Lemma pages_disjoint v w : page_ok v → page_ok w → v ≠ w → v + PGSIZE ≤ w ∨ w + PGSIZE ≤ v.
Proof.
  intros (Hv & _) (Hw & _) Hne. unfold PGSIZE in *.
  apply Z.mod_divide in Hv as [a ->]; [|lia]. apply Z.mod_divide in Hw as [b ->]; [|lia]. lia.
Qed.

Lemma chain_ext m m' p l :
  chain m p l → (∀ a, a ∈ l → load32 m (V2P a) = load32 m' (V2P a)) → chain m' p l.
Proof.
  revert p. induction l as [|a l IH]; intros p; [done|]. intros [-> Hc] He. split; [done|].
  rewrite <- He by constructor. apply IH; [done|]. intros b Hb. apply He. by right.
Qed.

(** What the two routines do to the storage state. *)
Definition kpopped (r : kres) : kres :=
  if freelist r =? 0 then r else r <| freelist := load32 (pmem r) (V2P (freelist r)) |>.
Definition freed (v : Z) (r : kres) : kres :=
  r <| pmem := store32 (memset (pmem r) (V2P v) 1 PGSIZE) (V2P v) (freelist r) |> <| freelist := v |>.

Lemma pmem_freed v r a :
  pmem (freed v r) a =
  if (V2P v <=? a) && (a <? V2P v + 4) then u8 (Z.shiftr (freelist r) (8 * (a - V2P v)))
  else if (V2P v <=? a) && (a <? V2P v + PGSIZE) then 1 else pmem r a.
Proof.
  unfold freed. simpl. rewrite store32_spec, memset_spec by (unfold PGSIZE; lia). done.
Qed.

(** A word in another page is not touched. *)
Lemma load32_freed v w r :
  page_ok v → page_ok w → v ≠ w → load32 (pmem (freed v r)) (V2P w) = load32 (pmem r) (V2P w).
Proof.
  intros Hv Hw Hne. apply load32_ext. intros b Hb. rewrite pmem_freed.
  rewrite (page_V2P v), (page_V2P w) in * by done. pose proof (pages_disjoint _ _ Hv Hw Hne) as Hd.
  unfold PGSIZE in *. destruct (Z.leb_spec (v - KERNBASE) b); [|done].
  rewrite !(proj2 (Z.ltb_ge _ _)) by lia. done.
Qed.

Lemma freelist_word r l : kmem_ok r l → u32 (freelist r) = freelist r.
Proof.
  intros [Hc _ Hp]. destruct l as [|a l]; [by rewrite Hc|]. destruct Hc as [-> _].
  apply Forall_cons in Hp as [(_ & _ & _ & H) _]. apply Z.mod_small. unfold KERNBASE in H. lia.
Qed.

Lemma kmem_ok_freed v r l : kmem_ok r l → page_ok v → v ∉ l → kmem_ok (freed v r) (v :: l).
Proof.
  intros Hk Hv Hn. pose proof (freelist_word _ _ Hk) as Hw. destruct Hk as [Hc Hnd Hp]. constructor.
  - split; [done|]. assert (load32 (pmem (freed v r)) (V2P v) = freelist r) as ->.
    { unfold freed. simpl. by rewrite load_store32. }
    eapply chain_ext; [exact Hc|]. intros a Ha. rewrite Forall_forall in Hp. symmetry.
    apply load32_freed; [done|by apply Hp|by intros ->].
  - by constructor.
  - by constructor.
Qed.

Section solo.
Context {s : kstate} {c p : nat} {u : cpu} {q : proc} (Hsolo : solo s c p u q).

(** The state between [kmem_enter] and [kmem_leave]. *)
Definition entered (r : kres) : kstate :=
  if use_lock r =? 0 then with_res s r else inside c kmem_lock (with_res s r).

Lemma entered_res r : res (entered r) = r.
Proof. unfold entered. by destruct (use_lock r =? 0). Qed.

Lemma kmem_enter_solo r : kmem_enter (with_res s r) = Ret tt (entered r).
Proof.
  unfold kmem_enter, entered. erewrite bind_ret by reflexivity. cbn beta.
  change (res (with_res s r)) with r. destruct (use_lock r =? 0); [reflexivity|].
  apply (lock_solo Hsolo). unfold klock. tauto.
Qed.

Lemma kmem_leave_solo r : kmem_leave (entered r) = Ret tt (with_res s r).
Proof.
  unfold kmem_leave. erewrite bind_ret by reflexivity. cbn beta. rewrite entered_res. unfold entered.
  destruct (use_lock r =? 0); [reflexivity|]. apply (unlock_solo Hsolo). unfold klock. tauto.
Qed.

Lemma rmod_entered f r : use_lock (f r) = use_lock r → rmod f (entered r) = Ret tt (entered (f r)).
Proof. intros Hu. unfold entered. rewrite Hu. by destruct (use_lock r =? 0). Qed.

Lemma rget_entered {A} (f : kres → A) r : rget f (entered r) = Ret (f r) (entered r).
Proof. unfold rget, gets. by rewrite entered_res. Qed.

Lemma kalloc_solo r : kalloc (with_res s r) = Ret (freelist r) (with_res s (kpopped r)).
Proof.
  unfold kalloc. rewrite (bind_ret _ _ _ _ _ (kmem_enter_solo r)), (bind_ret _ _ _ _ _ (rget_entered _ r)).
  assert ((if negb (freelist r =? 0) then rmod (fun k => k <| freelist := load32 (pmem k) (V2P (freelist r)) |>)
           else ret tt) (entered r) = Ret tt (entered (kpopped r))) as Hp.
  { unfold kpopped. destruct (freelist r =? 0); cbn [negb]; [reflexivity|]. by rewrite rmod_entered. }
  by rewrite (bind_ret _ _ _ _ _ Hp), (bind_ret _ _ _ _ _ (kmem_leave_solo _)).
Qed.

Lemma kfree_solo v r : page_ok v → kfree v (with_res s r) = Ret tt (with_res s (freed v r)).
Proof.
  intros (H1 & H2 & H3 & _). unfold kfree.
  rewrite H1, (proj2 (Z.ltb_ge v kend)), (proj2 (Z.leb_gt PHYSTOP (V2P v))) by lia. cbn [negb orb Z.eqb].
  set (r1 := r <| pmem ::= fun m => memset m (V2P v) 1 PGSIZE |>).
  rewrite (bind_ret _ _ _ tt (with_res s r1)) by reflexivity.
  rewrite (bind_ret _ _ _ _ _ (kmem_enter_solo r1)). do 2 (erewrite bind_ret by (by apply rmod_entered)).
  by rewrite kmem_leave_solo.
Qed.

(** The allocator never gives the same page to two owners: [kalloc] takes
    a page off the free list and returns it, or returns 0 when there is none,
    and writes no memory. *)
Theorem kalloc_correct r l :
  kmem_ok r l →
  ∃ r', kalloc (with_res s r) = Ret (default 0 (head l)) (with_res s r') ∧
    kmem_ok r' (tail l) ∧ pmem r' = pmem r ∧
    ∀ v, head l = Some v → page_ok v ∧ v ∉ tail l.
Proof.
  intros Hk. pose proof Hk as [Hc Hnd Hp]. exists (kpopped r). rewrite kalloc_solo.
  destruct l as [|a l]; cbn [head tail default] in *.
  - rewrite Hc. unfold kpopped. rewrite Hc. done.
  - destruct Hc as [Hf Hc]. rewrite Hf. apply NoDup_cons in Hnd as [Hn Hnd]. apply Forall_cons in Hp as [Ha Hp].
    split; [done|]. unfold kpopped. pose proof (page_pos _ Ha).
    rewrite Hf. destruct (Z.eqb_spec a 0); [lia|]. split; [by constructor|]. split; [done|].
    by intros v [= <-].
Qed.

(** [kfree] puts the page on the free list, provided it was not there,
    and changes no byte outside the page.  It panics on an address that is not
    aligned, below the end of the kernel, or beyond the physical memory. *)
Theorem kfree_correct r l v :
  kmem_ok r l → page_ok v → v ∉ l →
  (∃ r', kfree v (with_res s r) = Ret tt (with_res s r') ∧ kmem_ok r' (v :: l) ∧
    ∀ a, a < V2P v ∨ V2P v + PGSIZE ≤ a → pmem r' a = pmem r a) ∧
  ∀ w, w mod PGSIZE ≠ 0 ∨ w < kend ∨ PHYSTOP ≤ V2P w → kfree w (with_res s r) = Panic "kfree".
Proof.
  intros Hk Hv Hn. split.
  - exists (freed v r). split; [by apply kfree_solo|]. split; [by apply kmem_ok_freed|].
    intros a Ha. rewrite pmem_freed. unfold PGSIZE in *.
    destruct (Z.leb_spec (V2P v) a), (Z.ltb_spec a (V2P v + 4096)), (Z.ltb_spec a (V2P v + 4)); try lia; done.
  - intros w Hw. unfold kfree.
    destruct (Z.eqb_spec (w mod PGSIZE) 0), (Z.ltb_spec w kend), (Z.leb_spec PHYSTOP (V2P w)); try done; lia.
Qed.

(** [n] consecutive pages from [v]. *)
Definition pages_from (v : Z) (n : nat) : list Z := (fun i => v + PGSIZE * Z.of_nat i) <$> seq 0 n.

Lemma pages_from_S v n : pages_from v (S n) = v :: pages_from (v + PGSIZE) n.
Proof.
  unfold pages_from. cbn [seq fmap list_fmap]. f_equal; [lia|].
  rewrite <- fmap_S_seq, <- list_fmap_compose. apply list_fmap_ext. intros. unfold compose. lia.
Qed.

Lemma freerange_loop_spec n p0 vend r l :
  n = Z.to_nat ((vend - p0) / PGSIZE) → kmem_ok r l → Forall page_ok (pages_from p0 n) →
  (∀ v, v ∈ pages_from p0 n → v ∉ l) →
  ∃ r', freerange_loop n p0 vend (with_res s r) = Ret tt (with_res s r') ∧ kmem_ok r' (rev (pages_from p0 n) ++ l).
Proof.
  revert p0 r l. induction n as [|n IH]; intros p0 r l Hn Hk Hp Hd; cbn [freerange_loop].
  - destruct (Z.leb_spec (p0 + PGSIZE) vend); [|by exists r].
    assert (1 ≤ (vend - p0) / PGSIZE); [|lia]. apply Z.div_le_lower_bound; unfold PGSIZE in *; lia.
  - assert (p0 + PGSIZE ≤ vend) as Hle.
    { destruct (Z.le_gt_cases (p0 + PGSIZE) vend); [done|].
      assert ((vend - p0) / PGSIZE < 1); [|lia]. apply Z.div_lt_upper_bound; unfold PGSIZE in *; lia. }
    rewrite (proj2 (Z.leb_le _ _) Hle). rewrite pages_from_S in *. apply Forall_cons in Hp as [Hp0 Hp].
    rewrite (bind_ret _ _ _ _ _ (kfree_solo p0 r Hp0)).
    destruct (IH (p0 + PGSIZE) (freed p0 r) (p0 :: l)) as (r' & Hr & Hk'); [..|exists r'; split; [done|]].
    + replace (vend - (p0 + PGSIZE)) with (vend - p0 + (-1) * PGSIZE) by lia.
      rewrite Z.div_add by (unfold PGSIZE; lia). lia.
    + apply kmem_ok_freed; [done..|]. apply Hd. by left.
    + done.
    + intros v Hv. apply not_elem_of_cons. split; [|apply Hd; by right].
      apply list_elem_of_fmap in Hv as (i & -> & _). unfold PGSIZE. lia.
    + cbn [rev]. by rewrite <- app_assoc.
Qed.

(** [freerange] frees exactly the whole pages of the range given: the
    allocator owns them afterwards besides what it owned before. *)
Theorem freerange_correct r l vstart vend :
  let p0 := PGROUNDUP vstart in
  let n := Z.to_nat ((vend - p0) / PGSIZE) in
  kmem_ok r l → Forall page_ok (pages_from p0 n) → (∀ v, v ∈ pages_from p0 n → v ∉ l) →
  ∃ r', freerange vstart vend (with_res s r) = Ret tt (with_res s r') ∧
    kmem_ok r' (rev (pages_from p0 n) ++ l).
Proof. intros p0 n. apply (freerange_loop_spec n). reflexivity. Qed.
End solo.
End kalloc_theorems.
