(* ===== verification/File.v ===== *)
(** * Open files and pipes (file.c, pipe.c)

    A [struct file*] is an index of [ftable.file]; [f->pipe] is the address of
    the page that holds the pipe, [f->ip] an inode pointer as in [Kstate.ptr].
    Bytes read are returned, bytes to write are given, as lists. *)

From S2P Require Import Prelude Machine Spinlock CString ProcTable Proc Lifecycle Ready Aging.
From S2P Require Import ProcLemmas Scheduler Reach Blocking Kstate Sleeplock Solo.
From S2P Require Import Devices Disk Bio Layout Log Inode Console Fs Kalloc.

(** The wait channels [&p->nread] and [&p->nwrite]: 52 bytes of spin lock and
    PIPESIZE bytes of data come before them. *)
Definition nread_chan (p : Z) : Z := p + 52 + PIPESIZE.
Definition nwrite_chan (p : Z) : Z := p + 56 + PIPESIZE.

(** The first free entry of the file table. *)
Fixpoint free_file (l : list file) (i : nat) : option nat :=
  match l with
  | [] => None
  | f :: l' => if f_ref f =? 0 then Some i else free_file l' (S i)
  end.

(** One byte into and out of the ring. *)
Definition pipe_full (p : pipe) : bool := p_nwrite p =? u32 (p_nread p + PIPESIZE).
Definition pipe_empty (p : pipe) : bool := p_nread p =? p_nwrite p.
Definition pipe_put (b : Z) (p : pipe) : pipe :=
  p <| p_data ::= <[Z.to_nat (p_nwrite p mod PIPESIZE) := b]> |> <| p_nwrite ::= fun n => u32 (n + 1) |>.
Definition pipe_get (p : pipe) : option (Z * pipe) :=
  b ← p_data p !! Z.to_nat (p_nread p mod PIPESIZE);
  Some (b, p <| p_nread ::= fun n => u32 (n + 1) |>).

Section files.
Context {FU : Fuel} {HW : Hw} {DK : Disk} {LK : Link}.

Definition pget (p : Z) : K pipe := try_get (fun s => pipes (res s) !! p).
Definition pset (p : Z) (f : pipe → pipe) : K unit := rmod (fun r => r <| pipes ::= alter f p |>).

Definition fileinit : K unit := on_mach (initlock ftable_lock "ftable").

(** The index of the entry, or null. *)
Definition filealloc : K (option nat) :=
  lock ftable_lock ;;;
  o <- rget (fun r => free_file (files r) 0) ;;
  match o with
  | Some f => file_set f (fun x => x <| f_ref := 1 |>) ;;; unlock ftable_lock ;;; ret (Some f)
  | None => unlock ftable_lock ;;; ret None
  end.

Definition filedup (f : nat) : K nat :=
  lock ftable_lock ;;;
  x <- file_get f ;;
  if f_ref x <? 1 then panic "filedup" else
  file_set f (fun x => x <| f_ref ::= fun n => n + 1 |>) ;;;
  unlock ftable_lock ;;;
  ret f.

(** ** pipe.c *)

Definition pipeclose (p : Z) (writable : Z) : K unit :=
  lock p ;;;
  (if negb (writable =? 0) then
     pset p (fun x => x <| p_writeopen := 0 |>) ;;; wakeup (nread_chan p)
   else
     pset p (fun x => x <| p_readopen := 0 |>) ;;; wakeup (nwrite_chan p)) ;;;
  x <- pget p ;;
  if (p_readopen x =? 0) && (p_writeopen x =? 0) then
    unlock p ;;;
    rmod (fun r => r <| pipes ::= delete p |>) ;;;
    kfree p
  else unlock p.

(** The wait of [pipewrite] for room: true when it gives up. *)
Fixpoint wait_room (n : nat) (p : Z) : K bool :=
  x <- pget p ;;
  if pipe_full x then
    kd <- (if p_readopen x =? 0 then ret true else mykilled) ;;
    if kd : bool then ret true else
    match n with
    | O => fun _ => NoFuel
    | S n' => wakeup (nread_chan p) ;;; sleep (nwrite_chan p) p ;;; wait_room n' p
    end
  else ret false.

(** The copying loop; true when it gave up. *)
Fixpoint pipe_fill (p : Z) (l : list Z) : K bool :=
  match l with
  | [] => ret false
  | b :: l' =>
      kd <- wait_room fuel p ;;
      if kd : bool then ret true else
      pset p (pipe_put b) ;;;
      pipe_fill p l'
  end.

Definition pipewrite (p : Z) (l : list Z) : K Z :=
  lock p ;;;
  kd <- pipe_fill p l ;;
  if kd : bool then unlock p ;;; ret (-1) else
  wakeup (nread_chan p) ;;;
  unlock p ;;;
  ret (Z.of_nat (length l)).

(** The wait of [piperead] for data: true when the process was killed. *)
Fixpoint wait_data (n : nat) (p : Z) : K bool :=
  x <- pget p ;;
  if pipe_empty x && negb (p_writeopen x =? 0) then
    kd <- mykilled ;;
    if kd : bool then ret true else
    match n with
    | O => fun _ => NoFuel
    | S n' => sleep (nread_chan p) p ;;; wait_data n' p
    end
  else ret false.

Fixpoint pipe_drain (n : nat) (p : Z) : K (list Z) :=
  match n with
  | O => ret []
  | S n' =>
      x <- pget p ;;
      if pipe_empty x then ret [] else
      y <- try_get (fun _ => pipe_get x) ;;
      pset p (fun _ => snd y) ;;;
      l <- pipe_drain n' p ;;
      ret (fst y :: l)
  end.

Definition piperead (p : Z) (n : Z) : K (Z * list Z) :=
  lock p ;;;
  kd <- wait_data fuel p ;;
  if kd : bool then unlock p ;;; ret (-1, []) else
  l <- pipe_drain (Z.to_nat n) p ;;
  wakeup (nwrite_chan p) ;;;
  unlock p ;;;
  ret (Z.of_nat (length l), l).

(** ** file.c *)

Definition fileclose (f : nat) : K unit :=
  lock ftable_lock ;;;
  x <- file_get f ;;
  if f_ref x <? 1 then panic "fileclose" else
  file_set f (fun x => x <| f_ref ::= fun n => n - 1 |>) ;;;
  ff <- file_get f ;;
  if 0 <? f_ref ff then unlock ftable_lock else
  file_set f (fun x => x <| f_ref := 0 |> <| f_type := FD_NONE |>) ;;;
  unlock ftable_lock ;;;
  match f_type ff with
  | FD_PIPE => pipeclose (f_pipe ff) (f_writable ff)
  | FD_INODE =>
      begin_op ;;;
      ip <- try_get (fun _ => unptr (f_ip ff)) ;;
      iput ip ;;;
      end_op
  | FD_NONE => ret tt
  end.

(** [p->data] is not initialised, and no byte of it is read before it was
    written. *)
Definition new_pipe : pipe := mk_pipe (replicate (Z.to_nat PIPESIZE) 0) 0 0 1 1.

Definition pipe_end (f : nat) (rd wr : Z) (p : Z) : K unit :=
  file_set f (fun x => x <| f_type := FD_PIPE |> <| f_readable := rd |> <| f_writable := wr |> <| f_pipe := p |>).

Definition close_some (o : option nat) : K unit :=
  match o with Some f => fileclose f | None => ret tt end.

(** The two files, or null for the result -1. *)
Definition pipealloc : K (option (nat * nat)) :=
  o0 <- filealloc ;;
  match o0 with
  | None => ret None
  | Some f0 =>
      o1 <- filealloc ;;
      match o1 with
      | None => close_some o0 ;;; ret None
      | Some f1 =>
          p <- kalloc ;;
          if p =? 0 then close_some o0 ;;; close_some o1 ;;; ret None else
          rmod (fun r => r <| pipes ::= <[p := new_pipe]> |>) ;;;
          on_mach (initlock p "pipe") ;;;
          pipe_end f0 1 0 p ;;;
          pipe_end f1 0 1 p ;;;
          ret (Some (f0, f1))
      end
  end.

Definition filestat (f : nat) : K (option stat) :=
  x <- file_get f ;;
  match f_type x with
  | FD_INODE =>
      ip <- try_get (fun _ => unptr (f_ip x)) ;;
      ilock ip ;;;
      st <- stati ip ;;
      iunlock ip ;;;
      ret (Some st)
  | _ => ret None
  end.

Definition fileread (f : nat) (n : Z) : K (Z * list Z) :=
  x <- file_get f ;;
  if f_readable x =? 0 then ret (-1, []) else
  match f_type x with
  | FD_PIPE => piperead (f_pipe x) n
  | FD_INODE =>
      ip <- try_get (fun _ => unptr (f_ip x)) ;;
      ilock ip ;;;
      x <- file_get f ;;
      r <- readi ip (f_off x) (u32 n) ;;
      (if 0 <? fst r then file_set f (fun x => x <| f_off ::= fun o => u32 (o + fst r) |>) else ret tt) ;;;
      iunlock ip ;;;
      ret r
  | FD_NONE => panic "fileread"
  end.

(** [max] in [filewrite] *)
Definition max_write : Z := (MAXOPBLOCKS - 1 - 1 - 2) / 2 * 512.

(** The loop of [filewrite] on the bytes that are left; each round writes at
    least one.  Returns how many bytes are left at the end. *)
Fixpoint filewrite_loop (k : nat) (f ip : nat) (l : list Z) : K nat :=
  match l with
  | [] => ret O
  | _ =>
      match k with
      | O => fun _ => NoFuel
      | S k' =>
          let n1 := Z.min (Z.of_nat (length l)) max_write in
          begin_op ;;;
          ilock ip ;;;
          x <- file_get f ;;
          r <- writei ip (take (Z.to_nat n1) l) (f_off x) ;;
          (if 0 <? r then file_set f (fun x => x <| f_off ::= fun o => u32 (o + r) |>) else ret tt) ;;;
          iunlock ip ;;;
          end_op ;;;
          if r <? 0 then ret (length l) else
          if negb (r =? n1) then panic "short filewrite" else
          filewrite_loop k' f ip (drop (Z.to_nat n1) l)
      end
  end.

Definition filewrite (f : nat) (l : list Z) : K Z :=
  x <- file_get f ;;
  if f_writable x =? 0 then ret (-1) else
  match f_type x with
  | FD_PIPE => pipewrite (f_pipe x) l
  | FD_INODE =>
      ip <- try_get (fun _ => unptr (f_ip x)) ;;
      k <- filewrite_loop (length l) f ip l ;;
      ret (if (k =? 0)%nat then Z.of_nat (length l) else -1)
  | FD_NONE => panic "filewrite"
  end.
End files.
