(* ===== verification/Pipes.v ===== *)
(** * Pipes are bounded queues (pipe.c)

    The ring buffer with its two 32-bit counters represents a queue of at most
    PIPESIZE bytes.  The steps that readers and writers take under the pipe's
    lock refine the operations of the queue in every order, also when the
    counters wrap around; then the whole calls. *)

From S2P Require Import Prelude Machine Spinlock CString ProcTable Proc Lifecycle Ready Aging.
From S2P Require Import ProcLemmas Scheduler Reach Blocking Kstate Sleeplock Solo.
From S2P Require Import Devices Disk Bio Layout Log Inode Console Fs Kalloc File.

(** The bytes in the pipe, oldest first. *)
Record pipe_rep (x : pipe) (q : list Z) : Prop := {
  pr_data : length (p_data x) = Z.to_nat PIPESIZE;
  pr_nread : 0 ≤ p_nread x < 2 ^ 32;
  pr_nwrite : p_nwrite x = u32 (p_nread x + Z.of_nat (length q));
  pr_room : Z.of_nat (length q) ≤ PIPESIZE;
  pr_bytes : ∀ i b, q !! i = Some b → p_data x !! Z.to_nat ((p_nread x + Z.of_nat i) mod PIPESIZE) = Some b }.

Lemma ring_index a : u32 a mod PIPESIZE = a mod PIPESIZE.
Proof.
  unfold u32, PIPESIZE. rewrite (Z.mod_eq a (2 ^ 32)) by lia.
  replace (a - 2 ^ 32 * (a / 2 ^ 32)) with (a + (- (2 ^ 23) * (a / 2 ^ 32)) * 512) by lia. by rewrite Z.mod_add by lia.
Qed.
Lemma u32_add a b : u32 (u32 a + b) = u32 (a + b).
Proof. unfold u32. by rewrite Z.add_mod_idemp_l by lia. Qed.
(** Indices less than a full turn apart differ. *)
Lemma ring_distinct a i j : 0 ≤ i < j → j - i < PIPESIZE → (a + i) mod PIPESIZE ≠ (a + j) mod PIPESIZE.
Proof.
  unfold PIPESIZE. intros Hij Hd E. assert ((j - i) mod 512 = 0) as H0.
  { replace (j - i) with ((a + j) - (a + i)) by lia. rewrite Zminus_mod, E, Z.sub_diag. done. }
  rewrite Z.mod_small in H0; lia.
Qed.

Lemma new_pipe_rep : pipe_rep new_pipe [].
Proof. split; cbn; [by rewrite length_replicate|lia|done|unfold PIPESIZE; lia|done]. Qed.

Lemma pipe_full_rep x q : pipe_rep x q → pipe_full x = (Z.of_nat (length q) =? PIPESIZE).
Proof.
  intros [_ Hr Hw Hq _]. unfold pipe_full. rewrite Hw. unfold u32, PIPESIZE in *.
  destruct (Z.eqb_spec (Z.of_nat (length q)) 512) as [->|Hne]; [by apply Z.eqb_refl|]. apply Z.eqb_neq. intros E.
  pose proof (Z.div_mod (p_nread x + Z.of_nat (length q)) (2 ^ 32)). pose proof (Z.div_mod (p_nread x + 512) (2 ^ 32)). lia.
Qed.
Lemma pipe_empty_rep x q : pipe_rep x q → pipe_empty x = bool_decide (q = []).
Proof.
  intros [_ Hr Hw Hq _]. unfold pipe_empty. rewrite Hw. case_bool_decide as E.
  - rewrite E. cbn. unfold u32. rewrite Z.add_0_r, Z.mod_small by lia. apply Z.eqb_refl.
  - apply Z.eqb_neq. intros E'. destruct q as [|b q]; [done|]. unfold u32, PIPESIZE in *. cbn [length] in *.
    pose proof (Z.div_mod (p_nread x + Z.of_nat (S (length q))) (2 ^ 32)). lia.
Qed.

Lemma pipe_put_rep b x q : pipe_rep x q → Z.of_nat (length q) < PIPESIZE → pipe_rep (pipe_put b x) (q ++ [b]).
Proof.
  intros [Hd Hr Hw Hq Hb] Hlt. split; cbn.
  - by rewrite length_insert.
  - done.
  - rewrite Hw, u32_add, length_app. cbn. f_equal. lia.
  - rewrite length_app. cbn. lia.
  - rewrite Hw, ring_index. intros i c [Hi|[Hge Hi]]%lookup_app_Some.
    + pose proof (lookup_lt_Some _ _ _ Hi) as Hil. rewrite list_lookup_insert_ne; [by apply Hb|].
      intros E. apply (ring_distinct (p_nread x) (Z.of_nat i) (Z.of_nat (length q))); [lia|lia|].
      unfold PIPESIZE in *. apply Z2Nat.inj in E; [done|apply Z.mod_pos_bound; lia..].
    + apply list_lookup_singleton_Some in Hi as [Hi <-]. replace i with (length q) by lia.
      apply list_lookup_insert_eq. rewrite Hd. unfold PIPESIZE. pose proof (Z.mod_pos_bound (p_nread x + Z.of_nat (length q)) 512). lia.
Qed.
Lemma pipe_get_rep x b q : pipe_rep x (b :: q) → ∃ x', pipe_get x = Some (b, x') ∧ pipe_rep x' q ∧
  p_readopen x' = p_readopen x ∧ p_writeopen x' = p_writeopen x.
Proof.
  intros [Hd Hr Hw Hq Hb]. unfold pipe_get. pose proof (Hb O b eq_refl) as H0. rewrite Z.add_0_r in H0. rewrite H0. cbn [mbind option_bind].
  eexists. split; [reflexivity|]. split; [|done]. cbn [length] in *. split; cbn.
  - done.
  - unfold u32. apply Z.mod_pos_bound. lia.
  - rewrite Hw, u32_add. f_equal. lia.
  - lia.
  - intros i c Hi. specialize (Hb (S i) c Hi). rewrite <- Hb. do 2 f_equal.
    rewrite <- (ring_index (u32 _ + _)), u32_add, ring_index. f_equal. lia.
Qed.

(** ** Every interleaving *)

(** What readers and writers do to the pipe while they hold its lock, with the
    bytes written and the bytes read so far. *)
Inductive pstep : pipe * list Z * list Z → pipe * list Z * list Z → Prop :=
| ps_put x w r b : pipe_full x = false → pstep (x, w, r) (pipe_put b x, w ++ [b], r)
| ps_get x w r b x' : pipe_empty x = false → pipe_get x = Some (b, x') → pstep (x, w, r) (x', w, r ++ [b])
| ps_close_read x w r : pstep (x, w, r) (x <| p_readopen := 0 |>, w, r)
| ps_close_write x w r : pstep (x, w, r) (x <| p_writeopen := 0 |>, w, r).

(** The queue: [Some b] is put at the end or taken from the front. *)
Inductive qstep : list Z * list Z * list Z → list Z * list Z * list Z → Prop :=
| qs_put q w r b : Z.of_nat (length q) < PIPESIZE → qstep (q, w, r) (q ++ [b], w ++ [b], r)
| qs_get q w r b : qstep (b :: q, w, r) (q, w, r ++ [b])
| qs_close q w r : qstep (q, w, r) (q, w, r).

Lemma pstep_refines x w r q x' w' r' : pipe_rep x q → pstep (x, w, r) (x', w', r') →
  ∃ q', pipe_rep x' q' ∧ qstep (q, w, r) (q', w', r').
Proof.
  intros Hrep Hs. inversion Hs; subst.
  - rewrite (pipe_full_rep _ _ Hrep) in *. exists (q ++ [b]).
    assert (Z.of_nat (length q) < PIPESIZE) by (pose proof (pr_room _ _ Hrep); destruct (Z.eqb_spec (Z.of_nat (length q)) PIPESIZE); [done|lia]).
    split; [by apply pipe_put_rep|by constructor].
  - rewrite (pipe_empty_rep _ _ Hrep) in *. case_bool_decide; [done|]. destruct q as [|c q]; [done|].
    destruct (pipe_get_rep _ _ _ Hrep) as (y & E & Hy & _). simplify_eq. exists q. split; [done|constructor].
  - exists q. split; [by destruct Hrep|constructor].
  - exists q. split; [by destruct Hrep|constructor].
Qed.
Lemma qsteps_fifo q w r q' w' r' : rtc qstep (q, w, r) (q', w', r') → w = r ++ q → w' = r' ++ q'.
Proof.
  intros H. remember (q, w, r) as a eqn:Ha. remember (q', w', r') as b eqn:Hb. revert q w r Ha.
  induction H as [|a c b Hac _ IH]; intros q w r ->; [by simplify_eq|]. intros ->. inversion Hac; subst.
  - eapply IH; [done|reflexivity|]. by rewrite app_assoc.
  - eapply IH; [done|reflexivity|]. by rewrite <- app_assoc.
  - by eapply IH.
Qed.
Lemma psteps_refine a b : rtc pstep a b → ∀ q, pipe_rep a.1.1 q → ∃ q', pipe_rep b.1.1 q' ∧ rtc qstep (q, a.1.2, a.2) (q', b.1.2, b.2).
Proof.
  induction 1 as [|[[x w] r] [[y v] t] b Hxy _ IH]; intros q Hq; [by exists q|]. cbn in *.
  destruct (pstep_refines _ _ _ _ _ _ _ Hq Hxy) as (q1 & Hq1 & Hs). destruct (IH q1 Hq1) as (q' & Hq' & Hss). exists q'. split; [done|]. by eapply rtc_l.
Qed.


(** ** The calls *)

Section calls.
Context {FU : Fuel} {s : kstate} {c p : nat} {u : cpu} {q : proc} (Hsolo : solo s c p u q).
Context (pa : Z) (Hlock : lock_free (machine s) pa) (Hne : pa ≠ ptable_lock).

Definition with_pipe (r : kres) (x : pipe) : kres := r <| pipes ::= <[pa := x]> |>.
Let here (r : kres) (x : pipe) : kstate := inside c pa (with_res s (with_pipe r x)).

Lemma with_pipe_id r x : pipes r !! pa = Some x → with_pipe r x = r.
Proof. intros H. unfold with_pipe. destruct r. cbn in *. f_equal. by apply insert_id. Qed.
Lemma pget_here r x : pget pa (here r x) = Ret x (here r x).
Proof. unfold pget, try_get. cbn. by rewrite lookup_insert_eq. Qed.
Lemma pset_here f r x : pset pa f (here r x) = Ret tt (here r (f x)).
Proof.
  unfold pset, rmod, modify. f_equal. unfold here, inside, with_res, with_pipe. cbn. destruct r. cbn. do 2 f_equal.
  by rewrite alter_insert_eq.
Qed.
Lemma wait_room_here n r x : pipe_full x = false → wait_room n pa (here r x) = Ret false (here r x).
Proof. intros H. destruct n; cbn [wait_room]; by rewrite (bind_ret _ _ _ _ _ (pget_here r x)), H. Qed.
Lemma wait_data_here n r x : pipe_empty x && negb (p_writeopen x =? 0) = false → wait_data n pa (here r x) = Ret false (here r x).
Proof. intros H. destruct n; cbn [wait_data]; by rewrite (bind_ret _ _ _ _ _ (pget_here r x)), H. Qed.

Definition same_ends (x y : pipe) : Prop := p_readopen x = p_readopen y ∧ p_writeopen x = p_writeopen y.

Lemma pipe_fill_here l : ∀ r x q, pipe_rep x q → Z.of_nat (length q + length l) ≤ PIPESIZE →
  ∃ y, pipe_fill pa l (here r x) = Ret false (here r y) ∧ pipe_rep y (q ++ l) ∧ same_ends y x.
Proof.
  induction l as [|b l IH]; intros r x k Hx Hlen; [exists x; by rewrite app_nil_r|]. cbn [pipe_fill length] in *.
  assert (pipe_full x = false) as Hf by (rewrite (pipe_full_rep _ _ Hx); apply Z.eqb_neq; lia).
  rewrite (bind_ret _ _ _ _ _ (wait_room_here fuel r x Hf)), (bind_ret _ _ _ _ _ (pset_here _ r x)).
  destruct (IH r (pipe_put b x) (k ++ [b])) as (y & E & Hy & Hs); [apply pipe_put_rep; [done|lia]|rewrite length_app; cbn; lia|].
  exists y. rewrite <- app_assoc in Hy. done.
Qed.
Lemma pipe_drain_here n : ∀ r x q, pipe_rep x q →
  ∃ y, pipe_drain n pa (here r x) = Ret (take n q) (here r y) ∧ pipe_rep y (drop n q) ∧ same_ends y x.
Proof.
  induction n as [|n IH]; intros r x k Hx; [by exists x|]. cbn [pipe_drain]. rewrite (bind_ret _ _ _ _ _ (pget_here r x)), (pipe_empty_rep _ _ Hx).
  destruct k as [|b k]; [by exists x|]. rewrite bool_decide_eq_false_2 by done.
  destruct (pipe_get_rep _ _ _ Hx) as (x' & E & Hx' & Hro & Hwo). rewrite (bind_ret _ _ _ (b, x') (here r x)) by (unfold try_get; by rewrite E).
  rewrite (bind_ret _ _ _ _ _ (pset_here _ r x)). destruct (IH r x' k Hx') as (y & Ey & Hy & Hs1 & Hs2).
  exists y. cbn [snd fst take drop]. rewrite (bind_ret _ _ _ _ _ Ey). split; [done|]. split; [done|]. split; congruence.
Qed.
End calls.

(** [pipewrite] on a pipe with room for the data returns the number of bytes
    and appends them all; on a full pipe without readers it returns -1 and
    leaves the pipe as it was. *)
Theorem pipewrite_correct {FU : Fuel} s c p u pr pa r x q l : solo s c p u pr → lock_free (machine s) pa → pa ≠ ptable_lock →
  pipes r !! pa = Some x → pipe_rep x q →
  (Z.of_nat (length q + length l) ≤ PIPESIZE → ∃ y, pipe_rep y (q ++ l) ∧ same_ends y x ∧
     pipewrite pa l (with_res s r) = Ret (Z.of_nat (length l)) (with_res s (r <| pipes ::= <[pa := y]> |>))) ∧
  (Z.of_nat (length q) = PIPESIZE → p_readopen x = 0 → l ≠ [] → pipewrite pa l (with_res s r) = Ret (-1) (with_res s r)).
Proof.
  intros Hsolo Hlock Hne Hx Hrep. pose proof (with_pipe_id pa r x Hx) as Hr. split.
  - intros Hlen. destruct (pipe_fill_here (s := s) (c := c) pa l r x q Hrep Hlen) as (y & E & Hy & Hs). exists y. split; [done|]. split; [done|].
    rewrite <- Hr at 1. unfold pipewrite. rewrite (bind_ret _ _ _ _ _ (lock_free_solo Hsolo pa _ Hlock)), (bind_ret _ _ _ _ _ E).
    by rewrite (bind_ret _ _ _ _ _ (wakeup_inside Hsolo _ pa _ Hne)), (bind_ret _ _ _ _ _ (unlock_free_solo Hsolo pa _ Hlock)).
  - intros Hfull Hro Hl. rewrite <- Hr. unfold pipewrite. rewrite (bind_ret _ _ _ _ _ (lock_free_solo Hsolo pa _ Hlock)).
    destruct l as [|b l]; [done|]. assert (pipe_full x = true) as Hf by (rewrite (pipe_full_rep _ _ Hrep); by apply Z.eqb_eq).
    rewrite (bind_ret _ _ _ true (inside c pa (with_res s (with_pipe pa r x)))).
    2:{ cbn [pipe_fill]. rewrite (bind_ret _ _ _ true (inside c pa (with_res s (with_pipe pa r x)))); [done|].
        destruct fuel; cbn [wait_room]; rewrite (bind_ret _ _ _ _ _ (pget_here (s := s) (c := c) pa r x)), Hf, Hro; reflexivity. }
    cbv iota. by rewrite (bind_ret _ _ _ _ _ (unlock_free_solo Hsolo pa _ Hlock)).
Qed.

(** [piperead] on a pipe that has data or no writers returns the oldest
    bytes, as many as were asked for or are there, and removes exactly those;
    at the end of the data it returns 0. *)
Theorem piperead_correct {FU : Fuel} s c p u pr pa r x q n : solo s c p u pr → lock_free (machine s) pa → pa ≠ ptable_lock →
  pipes r !! pa = Some x → pipe_rep x q → q ≠ [] ∨ p_writeopen x = 0 →
  ∃ y, pipe_rep y (drop (Z.to_nat n) q) ∧ same_ends y x ∧
    piperead pa n (with_res s r) =
    Ret (Z.of_nat (length (take (Z.to_nat n) q)), take (Z.to_nat n) q) (with_res s (r <| pipes ::= <[pa := y]> |>)).
Proof.
  intros Hsolo Hlock Hne Hx Hrep Hready. pose proof (with_pipe_id pa r x Hx) as Hr.
  destruct (pipe_drain_here (s := s) (c := c) pa (Z.to_nat n) r x q Hrep) as (y & E & Hy & Hs). exists y. split; [done|]. split; [done|].
  rewrite <- Hr at 1. unfold piperead. rewrite (bind_ret _ _ _ _ _ (lock_free_solo Hsolo pa _ Hlock)).
  rewrite (bind_ret _ _ _ false (inside c pa (with_res s (with_pipe pa r x)))).
  2:{ apply wait_data_here. rewrite (pipe_empty_rep _ _ Hrep). destruct Hready as [Hq| ->]; [by rewrite bool_decide_eq_false_2|by rewrite andb_false_r]. }
  rewrite (bind_ret _ _ _ _ _ E).
  by rewrite (bind_ret _ _ _ _ _ (wakeup_inside Hsolo _ pa _ Hne)), (bind_ret _ _ _ _ _ (unlock_free_solo Hsolo pa _ Hlock)).
Qed.
