(* ===== verification/Vm.v ===== *)
(** * Page tables (vm.c)

    A page directory is named by its kernel virtual address and lives in
    [pmem], like the page tables; the kernel reads and writes it through its
    mapping of physical memory at KERNBASE. *)

From S2P Require Import Prelude Machine Spinlock CString ProcTable Proc Lifecycle Kstate.
From S2P Require Import Sleeplock Devices Disk Bio Layout Log Inode Console Fs Kalloc.

(** mmu.h *)
Definition PDX (va : Z) : Z := Z.land (Z.shiftr va 22) 0x3FF.
Definition PTX (va : Z) : Z := Z.land (Z.shiftr va 12) 0x3FF.
Definition PGADDR (d t o : Z) : Z := u32 (Z.lor (Z.lor (Z.shiftl d 22) (Z.shiftl t 12)) o).
Definition NPDENTRIES : nat := 1024.
Definition PTE_P : Z := 0x001.
Definition PTE_W : Z := 0x002.
Definition PTE_U : Z := 0x004.
Definition PTE_ADDR (pte : Z) : Z := Z.ldiff pte 0xFFF.
Definition PTE_FLAGS (pte : Z) : Z := Z.land pte 0xFFF.

(** The bits of a page table entry. *)
Definition has (pte flag : Z) : bool := negb (Z.land pte flag =? 0).

Section vm.
Context {FU : Fuel} {HW : Hw} {DK : Disk} {LK : Link}.

(** The word at a kernel virtual address. *)
Definition kload (a : Z) : K Z := rget (fun r => load32 (pmem r) (V2P a)).
Definition kstore (a v : Z) : K unit := rmod (fun r => r <| pmem ::= fun m => store32 m (V2P a) v |>).
Definition kmemset (a c n : Z) : K unit := rmod (fun r => r <| pmem ::= fun m => memset m (V2P a) c n |>).

(** [memmove] into kernel memory from bytes that are at hand. *)
Fixpoint store_bytes (m : mem) (a : Z) (l : list Z) : mem :=
  match l with [] => m | b :: l' => store_bytes (store m a b) (a + 1) l' end.
Definition kput (a : Z) (l : list Z) : K unit := rmod (fun r => r <| pmem ::= fun m => store_bytes m (V2P a) l |>).

(** The address of the entry for [va], or 0. *)
Definition walkpgdir (pgdir va : Z) (alloc : bool) : K Z :=
  let pde := u32 (pgdir + 4 * PDX va) in
  v <- kload pde ;;
  if has v PTE_P then ret (u32 (P2V (PTE_ADDR v) + 4 * PTX va)) else
  if negb alloc then ret 0 else
  pgtab <- kalloc ;;
  if pgtab =? 0 then ret 0 else
  kmemset pgtab 0 PGSIZE ;;;
  kstore pde (Z.lor (Z.lor (Z.lor (V2P pgtab) PTE_P) PTE_W) PTE_U) ;;;
  ret (u32 (pgtab + 4 * PTX va)).

Fixpoint mappages_loop (n : nat) (pgdir a last pa perm : Z) : K Z :=
  pte <- walkpgdir pgdir a true ;;
  if pte =? 0 then ret (-1) else
  v <- kload pte ;;
  if has v PTE_P then panic "remap" else
  kstore pte (Z.lor (Z.lor pa perm) PTE_P) ;;;
  if a =? last then ret 0 else
  match n with
  | O => fun _ => NoFuel
  | S n' => mappages_loop n' pgdir (u32 (a + PGSIZE)) last (u32 (pa + PGSIZE)) perm
  end.

(** From [a] to [last] there are [(last - a) / PGSIZE] more pages. *)
Definition mappages (pgdir va size pa perm : Z) : K Z :=
  let a := PGROUNDDOWN va in
  let last := PGROUNDDOWN (u32 (va + size - 1)) in
  mappages_loop (Z.to_nat (u32 (last - a) / PGSIZE)) pgdir a last pa perm.

Record kmapent := mk_kmap { km_virt : Z; km_start : Z; km_end : Z; km_perm : Z }.
Definition kmap : list kmapent :=
  [mk_kmap KERNBASE 0 EXTMEM PTE_W;
   mk_kmap KERNLINK (V2P KERNLINK) (V2P kdata) 0;
   mk_kmap kdata (V2P kdata) PHYSTOP PTE_W;
   mk_kmap DEVSPACE DEVSPACE 0 PTE_W].

(** [a] goes up by pages; where a page table is missing it skips to the next
    4 MB.  [oldsz / PGSIZE + 1] rounds are enough. *)
Fixpoint deallocuvm_loop (n : nat) (pgdir a oldsz : Z) : K unit :=
  if a <? oldsz then
    match n with
    | O => fun _ => NoFuel
    | S n' =>
        pte <- walkpgdir pgdir a false ;;
        if pte =? 0 then
          deallocuvm_loop n' pgdir (u32 (u32 (PGADDR (PDX a + 1) 0 0 - PGSIZE) + PGSIZE)) oldsz
        else
          v <- kload pte ;;
          (if has v PTE_P then
             let pa := PTE_ADDR v in
             if pa =? 0 then panic "kfree" else
             kfree (P2V pa) ;;;
             kstore pte 0
           else ret tt) ;;;
          deallocuvm_loop n' pgdir (u32 (a + PGSIZE)) oldsz
    end
  else ret tt.
Definition deallocuvm (pgdir oldsz newsz : Z) : K Z :=
  if oldsz <=? newsz then ret oldsz else
  deallocuvm_loop (S (Z.to_nat (oldsz / PGSIZE))) pgdir (PGROUNDUP newsz) oldsz ;;;
  ret newsz.

Definition freevm (pgdir : Z) : K unit :=
  if pgdir =? 0 then panic "freevm: no pgdir" else
  deallocuvm pgdir KERNBASE 0 ;;;
  for_range 0 NPDENTRIES (fun i =>
    v <- kload (u32 (pgdir + 4 * Z.of_nat i)) ;;
    if has v PTE_P then kfree (P2V (PTE_ADDR v)) else ret tt) ;;;
  kfree pgdir.

(** The loop of [setupkvm] over [kmap]: true when a mapping failed. *)
Fixpoint map_kernel (pgdir : Z) (l : list kmapent) : K bool :=
  match l with
  | [] => ret false
  | k :: l' =>
      r <- mappages pgdir (km_virt k) (u32 (km_end k - km_start k)) (km_start k) (km_perm k) ;;
      if r <? 0 then ret true else map_kernel pgdir l'
  end.

Definition setupkvm : K Z :=
  pgdir <- kalloc ;;
  if pgdir =? 0 then ret 0 else
  kmemset pgdir 0 PGSIZE ;;;
  if DEVSPACE <? P2V PHYSTOP then panic "PHYSTOP too high" else
  bad <- map_kernel pgdir kmap ;;
  if bad : bool then freevm pgdir ;;; ret 0 else ret pgdir.

(** [switchkvm] loads the register of the executing CPU. *)
Definition kvmalloc : K unit :=
  pg <- setupkvm ;;
  modify (fun s => s <| kpgdir := pg |>) ;;;
  on_mach (modify (fun m =>
    match self m with Some c => m <| cpus ::= alter (fun u => u <| cr3 := V2P pg |>) c |> | None => m end)).

(** [init] is the program linked into the kernel.  The result of [kalloc] is
    used without a test. *)
Definition inituvm (init : list Z) (pgdir : Z) : K unit :=
  if PGSIZE <=? Z.of_nat (length init) then panic "inituvm: more than a page" else
  m <- kalloc ;;
  kmemset m 0 PGSIZE ;;;
  mappages pgdir 0 PGSIZE (V2P m) (Z.lor PTE_W PTE_U) ;;;
  kput m init.

Fixpoint loaduvm_loop (k : nat) (pgdir addr : Z) (ip : nat) (offset i sz : Z) : K Z :=
  if i <? sz then
    match k with
    | O => fun _ => NoFuel
    | S k' =>
        pte <- walkpgdir pgdir (u32 (addr + i)) false ;;
        if pte =? 0 then panic "loaduvm: address should exist" else
        v <- kload pte ;;
        let pa := PTE_ADDR v in
        let n := if sz - i <? PGSIZE then sz - i else PGSIZE in
        r <- readi ip (u32 (offset + i)) n ;;
        kput (P2V pa) (snd r) ;;;
        if negb (fst r =? n) then ret (-1)
        else loaduvm_loop k' pgdir addr ip offset (i + PGSIZE) sz
    end
  else ret 0.
Definition loaduvm (pgdir addr : Z) (ip : nat) (offset sz : Z) : K Z :=
  if negb (addr mod PGSIZE =? 0) then panic "loaduvm: addr must be page aligned" else
  loaduvm_loop (S (Z.to_nat (sz / PGSIZE))) pgdir addr ip offset 0 sz.

Fixpoint allocuvm_loop (k : nat) (pgdir a oldsz newsz : Z) : K Z :=
  if a <? newsz then
    match k with
    | O => fun _ => NoFuel
    | S k' =>
        m <- kalloc ;;
        if m =? 0 then
          cprintf (csn "allocuvm out of memory") [] ;;;
          deallocuvm pgdir newsz oldsz ;;;
          ret 0
        else
        kmemset m 0 PGSIZE ;;;
        r <- mappages pgdir a PGSIZE (V2P m) (Z.lor PTE_W PTE_U) ;;
        if r <? 0 then
          cprintf (csn "allocuvm out of memory (2)") [] ;;;
          deallocuvm pgdir newsz oldsz ;;;
          kfree m ;;;
          ret 0
        else allocuvm_loop k' pgdir (a + PGSIZE) oldsz newsz
    end
  else ret newsz.
Definition allocuvm (pgdir oldsz newsz : Z) : K Z :=
  if KERNBASE <=? newsz then ret 0 else
  if newsz <? oldsz then ret oldsz else
  allocuvm_loop (S (Z.to_nat (newsz / PGSIZE))) pgdir (PGROUNDUP oldsz) oldsz newsz.

Definition clearpteu (pgdir uva : Z) : K unit :=
  pte <- walkpgdir pgdir uva false ;;
  if pte =? 0 then panic "clearpteu" else
  v <- kload pte ;;
  kstore pte (Z.ldiff v PTE_U).

(** False when the loop ends at [bad]. *)
Fixpoint copyuvm_loop (k : nat) (pgdir d i sz : Z) : K bool :=
  if i <? sz then
    match k with
    | O => fun _ => NoFuel
    | S k' =>
        pte <- walkpgdir pgdir i false ;;
        if pte =? 0 then panic "copyuvm: pte should exist" else
        v <- kload pte ;;
        if negb (has v PTE_P) then panic "copyuvm: page not present" else
        let pa := PTE_ADDR v in
        let flags := PTE_FLAGS v in
        m <- kalloc ;;
        if m =? 0 then ret false else
        rmod (fun r => r <| pmem ::= fun mm => memmove mm (V2P m) pa (Z.to_nat PGSIZE) |>) ;;;
        r <- mappages d i PGSIZE (V2P m) flags ;;
        if r <? 0 then kfree m ;;; ret false else
        copyuvm_loop k' pgdir d (i + PGSIZE) sz
    end
  else ret true.
Definition copyuvm (pgdir sz : Z) : K Z :=
  d <- setupkvm ;;
  if d =? 0 then ret 0 else
  ok <- copyuvm_loop (S (Z.to_nat (sz / PGSIZE))) pgdir d 0 sz ;;
  if ok : bool then ret d else freevm d ;;; ret 0.

(** The entry is used without a test whether there is one: without a page
    table the code reads through a null pointer. *)
Definition uva2ka (pgdir uva : Z) : K Z :=
  pte <- walkpgdir pgdir uva false ;;
  if pte =? 0 then fault else
  v <- kload pte ;;
  if negb (has v PTE_P) then ret 0 else
  if negb (has v PTE_U) then ret 0 else
  ret (P2V (PTE_ADDR v)).

(** [buf] holds the bytes that are left; every round copies at least one. *)
Fixpoint copyout_loop (k : nat) (pgdir va : Z) (buf : list Z) : K Z :=
  match buf with
  | [] => ret 0
  | _ =>
      match k with
      | O => fun _ => NoFuel
      | S k' =>
          let va0 := PGROUNDDOWN va in
          pa0 <- uva2ka pgdir va0 ;;
          if pa0 =? 0 then ret (-1) else
          let n := Z.min (PGSIZE - (va - va0)) (Z.of_nat (length buf)) in
          kput (u32 (pa0 + (va - va0))) (take (Z.to_nat n) buf) ;;;
          copyout_loop k' pgdir (u32 (va0 + PGSIZE)) (drop (Z.to_nat n) buf)
      end
  end.
Definition copyout (pgdir va : Z) (buf : list Z) : K Z := copyout_loop (length buf) pgdir va buf.
End vm.
