(* ===== verification/PageTable.v ===== *)
(** * Page tables as the processor reads them

    [translate] is the walk of the x86 paging unit over physical memory.  The
    invariant [vm] says which pages a page directory consists of; under it
    [walkpgdir] finds or makes the entry of an address, and [mappages] adds
    mappings to the address space and changes nothing else. *)

From S2P Require Import Prelude Machine Spinlock CString ProcTable Proc Lifecycle Ready Aging.
From S2P Require Import ProcLemmas Scheduler Reach Blocking Kstate Sleeplock Solo.
From S2P Require Import Devices Disk Bio Layout Log Inode Console Fs Kalloc Vm.

(** ** Bits of addresses and entries *)

Lemma lor_aligned a f : a mod 4096 = 0 → 0 ≤ f < 4096 → Z.lor a f = a + f.
Proof.
  intros Ha Hf. assert (Z.land a f = 0) as H0.
  { apply Z.bits_inj'. intros n Hn. rewrite Z.land_spec, Z.bits_0. destruct (Z.lt_ge_cases n 12).
    - apply Z.mod_divide in Ha as [k ->]; [|lia]. change 4096 with (2 ^ 12). by rewrite Z.mul_pow2_bits_low.
    - rewrite (Z.bits_above_log2 f), andb_false_r; [done|lia|]. destruct (Z.eq_dec f 0) as [->|]; [cbn; lia|]. apply Z.log2_lt_pow2; [lia|].
      apply Z.lt_le_trans with (2 ^ 12); [lia|]. apply Z.pow_le_mono_r; lia. }
  rewrite <- Z.lxor_lor by done. symmetry. by apply Z.add_nocarry_lxor.
Qed.
Lemma PTE_ADDR_div v : PTE_ADDR v = 4096 * (v / 4096).
Proof. unfold PTE_ADDR. change 0xFFF with (Z.ones 12). rewrite Z.ldiff_ones_r by lia. rewrite Z.shiftl_mul_pow2, Z.shiftr_div_pow2 by lia. change (2 ^ 12) with 4096. lia. Qed.
Lemma PTE_FLAGS_mod v : PTE_FLAGS v = v mod 4096.
Proof. unfold PTE_FLAGS. change 0xFFF with (Z.ones 12). by rewrite Z.land_ones by lia. Qed.
Lemma PTE_ADDR_add a f : a mod 4096 = 0 → 0 ≤ f < 4096 → PTE_ADDR (a + f) = a.
Proof. intros Ha Hf. rewrite PTE_ADDR_div. apply Z.mod_divide in Ha as [k ->]; [|lia]. rewrite Z.div_add_l, Z.div_small by lia. lia. Qed.
Lemma PTE_FLAGS_add a f : a mod 4096 = 0 → 0 ≤ f < 4096 → PTE_FLAGS (a + f) = f.
Proof. intros Ha Hf. rewrite PTE_FLAGS_mod. apply Z.mod_divide in Ha as [k ->]; [|lia]. rewrite Z.add_comm, Z.mod_add, Z.mod_small by lia. done. Qed.
Lemma has_P_odd v : has v PTE_P = Z.odd v.
Proof. unfold has, PTE_P. change 1 with (Z.ones 1). rewrite Z.land_ones by lia. change (2 ^ 1) with 2. rewrite Zmod_odd. by destruct (Z.odd v). Qed.

Lemma PDX_div va : 0 ≤ va < 2 ^ 32 → PDX va = va / 4096 / 1024.
Proof.
  intros H. unfold PDX. change 0x3FF with (Z.ones 10). rewrite Z.land_ones, Z.shiftr_div_pow2 by lia. rewrite Z.div_div by lia.
  change (4096 * 1024) with (2 ^ 22). apply Z.mod_small. split; [apply Z.div_pos; lia|]. apply Z.div_lt_upper_bound; lia.
Qed.
Lemma PTX_mod va : PTX va = (va / 4096) mod 1024.
Proof. unfold PTX. change 0x3FF with (Z.ones 10). by rewrite Z.land_ones, Z.shiftr_div_pow2 by lia. Qed.
Lemma PGROUNDDOWN_div a : PGROUNDDOWN a = 4096 * (a / 4096).
Proof. apply PTE_ADDR_div. Qed.

(** ** The paging unit *)

(** The physical address and the flags of the entry for a virtual address. *)
Definition translate (m : mem) (pgdir va : Z) : option (Z * Z) :=
  let pde := load32 m (V2P pgdir + 4 * PDX va) in
  if negb (has pde PTE_P) then None else
  let pte := load32 m (PTE_ADDR pde + 4 * PTX va) in
  if negb (has pte PTE_P) then None else Some (PTE_ADDR pte + va mod PGSIZE, PTE_FLAGS pte).

(** ** Pages *)

Definition in_page (v a : Z) : Prop := V2P v ≤ a < V2P v + PGSIZE.

Section pages.
Context {LK : Link}.

Lemma page_phys v : page_ok v → V2P v mod 4096 = 0 ∧ 0 ≤ V2P v < PHYSTOP ∧ P2V (V2P v) = v.
Proof.
  intros H. pose proof H as (H1 & _ & H2 & H3). rewrite (page_V2P v H) in *. unfold PGSIZE, KERNBASE in *. split; [|split; [done|]].
  - apply Z.mod_divide in H1 as [k ->]; [|lia]. replace (k * 4096 - 2147483648) with ((k - 524288) * 4096) by lia. by rewrite Z.mod_mul.
  - unfold P2V, u32, KERNBASE. replace (v - 2147483648 + 2147483648) with v by lia. apply Z.mod_small. lia.
Qed.
Lemma in_page_eq v w a : page_ok v → page_ok w → in_page v a → in_page w a → v = w.
Proof.
  unfold in_page. intros Hv Hw H1 H2. destruct (decide (v = w)) as [|Hne]; [done|]. rewrite (page_V2P v Hv) in *. rewrite (page_V2P w Hw) in *.
  destruct (pages_disjoint v w Hv Hw Hne); lia.
Qed.
Lemma page_word v i : page_ok v → 0 ≤ i < 1024 → V2P (u32 (v + 4 * i)) = V2P v + 4 * i ∧ u32 (v + 4 * i) ≠ 0.
Proof.
  intros H Hi. pose proof H as (_ & _ & _ & H3). pose proof (page_phys v H) as (_ & H2 & _). rewrite (page_V2P v H) in *. unfold KERNBASE, PHYSTOP in *.
  assert (u32 (v + 4 * i) = v + 4 * i) as -> by (unfold u32; apply Z.mod_small; lia). split; [|lia]. unfold V2P, u32, KERNBASE. rewrite Z.mod_small; lia.
Qed.

(** The memory that the pages [P] do not cover is the same, and holds bytes if
    it did. *)
Record same_but (P : Z → Prop) (m m' : mem) : Prop := {
  sb_same : ∀ a, (∀ v, P v → ¬ in_page v a) → m' a = m a;
  sb_bytes : bytes m → bytes m' }.
Lemma same_but_refl P m : same_but P m m.
Proof. done. Qed.
Lemma same_but_at P m m' v a : same_but P m m' → (∀ w, P w → page_ok w) → page_ok v → ¬ P v → in_page v a → m' a = m a.
Proof. intros H HP Hv Hn Ha. apply (sb_same _ _ _ H). intros w Hw Hin. apply Hn. rewrite (in_page_eq v w a); [done|done|by apply HP|done|done]. Qed.
Lemma same_but_load P m m' v i : same_but P m m' → (∀ w, P w → page_ok w) → page_ok v → ¬ P v → 0 ≤ i < 1024 → load32 m' (V2P v + 4 * i) = load32 m (V2P v + 4 * i).
Proof. intros H HP Hv Hn Hi. apply load32_ext. intros b Hb. eapply same_but_at; [done..|]. unfold in_page, PGSIZE. lia. Qed.
Lemma same_but_mono P Q m m' : same_but P m m' → (∀ v, P v → Q v) → same_but Q m m'.
Proof. intros [H1 H2] HPQ. split; [|done]. intros a Ha. apply H1. intros v Hv. by apply Ha, HPQ. Qed.
Lemma same_but_trans P m1 m2 m3 : same_but P m1 m2 → same_but P m2 m3 → same_but P m1 m3.
Proof. intros [H1 B1] [H2 B2]. split; [|auto]. intros a Ha. rewrite H2 by done. by apply H1. Qed.
Lemma same_but_store32 v i w m : 0 ≤ i < 1024 → same_but (eq v) m (store32 m (V2P v + 4 * i) w).
Proof.
  intros Hi. split; [|intros Hb; unfold store32; by repeat apply bytes_store]. intros a Ha.
  rewrite store32_spec. destruct (Z.leb_spec (V2P v + 4 * i) a), (Z.ltb_spec a (V2P v + 4 * i + 4)); try done.
  exfalso. apply (Ha v eq_refl). unfold in_page, PGSIZE. lia.
Qed.
Lemma same_but_memset v b m : same_but (eq v) m (memset m (V2P v) b PGSIZE).
Proof.
  split.
  - intros a Ha. rewrite memset_spec by (unfold PGSIZE; lia). destruct (Z.leb_spec (V2P v) a), (Z.ltb_spec a (V2P v + PGSIZE)); try done.
    exfalso. apply (Ha v eq_refl). unfold in_page. lia.
  - intros Hb a. rewrite memset_spec by (unfold PGSIZE; lia). destruct (_ && _); [|apply Hb]. apply Z.mod_pos_bound. lia.
Qed.
Lemma memset_page v b m a : in_page v a → memset m (V2P v) b PGSIZE a = u8 b.
Proof. unfold in_page. intros H. rewrite memset_spec by (unfold PGSIZE; lia). by rewrite (proj2 (Z.leb_le _ _)), (proj2 (Z.ltb_lt _ _)) by lia. Qed.
Lemma load_memset v m i : 0 ≤ i < 1024 → load32 (memset m (V2P v) 0 PGSIZE) (V2P v + 4 * i) = 0.
Proof. intros Hi. unfold load32. by rewrite !memset_page by (unfold in_page, PGSIZE; lia). Qed.
Lemma load_store32_ne m a b w : a + 4 ≤ b ∨ b + 4 ≤ a → load32 (store32 m a w) b = load32 m b.
Proof. intros H. apply load32_ext. intros x Hx. rewrite store32_spec. destruct (Z.leb_spec a x), (Z.ltb_spec x (a + 4)); try done. lia. Qed.
End pages.

(** ** Page directories *)

(** The page directory [d] has the page tables [T], by their index, and the
    allocator owns the pages [l]. *)
Record vm {LK : Link} (r : kres) (l : list Z) (d : Z) (T : gmap Z Z) : Prop := {
  vm_free : kmem_ok r l;
  vm_dir : page_ok d ∧ d ∉ l;
  vm_table : ∀ i t, T !! i = Some t →
    0 ≤ i < 1024 ∧ page_ok t ∧ t ∉ l ∧ t ≠ d ∧ load32 (pmem r) (V2P d + 4 * i) = V2P t + 7;
  vm_none : ∀ i, 0 ≤ i < 1024 → T !! i = None → Z.odd (load32 (pmem r) (V2P d + 4 * i)) = false;
  vm_inj : ∀ i j t, T !! i = Some t → T !! j = Some t → i = j }.

(** The entry of page number [n]. *)
Definition pte (m : mem) (T : gmap Z Z) (n : Z) : Z :=
  match T !! (n / 1024) with Some t => load32 m (V2P t + 4 * (n mod 1024)) | None => 0 end.

(** The pages of the directory and its tables. *)
Definition dir_page (d : Z) (T : gmap Z Z) (v : Z) : Prop := v = d ∨ ∃ i, T !! i = Some v.

(** The same storage with other memory and another free list. *)
Definition remem (r : kres) (m : mem) (f : Z) : kres := r <| pmem := m |> <| freelist := f |>.

(** From [l] and [T] to [l'] and [T']: the pages taken are new tables. *)
Record more_tables (l : list Z) (T : gmap Z Z) (l' : list Z) (T' : gmap Z Z) (new : list Z) : Prop := {
  mt_taken : l = new ++ l';
  mt_old : T ⊆ T';
  mt_new : ∀ i t, T' !! i = Some t → T !! i = Some t ∨ t ∈ new;
  mt_all : ∀ t, t ∈ new → ∃ i, T' !! i = Some t;
  mt_size : size T' = (size T + length new)%nat }.

Section tables.
Context {FU : Fuel} {HW : Hw} {DK : Disk} {LK : Link}.

Lemma more_tables_refl l T : more_tables l T l T [].
Proof. split; [done|done|auto|by intros t ?%elem_of_nil|]. cbn. lia. Qed.
Lemma more_tables_trans l1 T1 l2 T2 l3 T3 n1 n2 : more_tables l1 T1 l2 T2 n1 → more_tables l2 T2 l3 T3 n2 → more_tables l1 T1 l3 T3 (n1 ++ n2).
Proof.
  intros [-> A2 A3 A5 A4] [-> B2 B3 B5 B4]. split; [by rewrite app_assoc|by trans T2| | |rewrite B4, A4, length_app; lia].
  { intros i t Hi. rewrite elem_of_app. destruct (B3 i t Hi) as [H|H]; [|auto]. destruct (A3 i t H); auto. }
  intros t [Ht|Ht]%elem_of_app; [|auto]. destruct (A5 t Ht) as (i & Hi). exists i. by eapply lookup_weaken.
Qed.

Lemma dir_page_ok r l d T v : vm r l d T → dir_page d T v → page_ok v ∧ v ∉ l.
Proof. intros H [->|[i Hi]]; [apply (vm_dir _ _ _ _ H)|]. by destruct (vm_table _ _ _ _ H i v Hi) as (_ & ? & ? & _). Qed.
Lemma dir_page_mono d T T' v : T ⊆ T' → dir_page d T v → dir_page d T' v.
Proof. intros HT [->|[i Hi]]; [by left|]. right. exists i. by eapply lookup_weaken. Qed.

Lemma kmem_ok_same r l P m : kmem_ok r l → same_but P (pmem r) m → (∀ v, P v → page_ok v ∧ v ∉ l) → kmem_ok (r <| pmem := m |>) l.
Proof.
  intros [Hc Hnd Hp] Hm HP. split; [|done..]. eapply chain_ext; [exact Hc|]. intros a Ha. rewrite Forall_forall in Hp. pose proof (Hp a Ha).
  rewrite <- (Z.add_0_r (V2P a)). change 0 with (4 * 0). symmetry. eapply same_but_load; [exact Hm|intros w Hw; by apply HP|done| |lia]. intros HPa. by apply HP in HPa as [_ ?].
Qed.

(** A change of memory outside the directory and the free list. *)
Lemma vm_same r l d T P m : vm r l d T → same_but P (pmem r) m → (∀ v, P v → page_ok v ∧ v ∉ l ∧ ¬ dir_page d T v) → vm (r <| pmem := m |>) l d T.
Proof.
  intros [H1 H2 H3 H4 H5] Hm HP. assert (∀ i, 0 ≤ i < 1024 → load32 m (V2P d + 4 * i) = load32 (pmem r) (V2P d + 4 * i)) as Hd.
  { intros i Hi. eapply same_but_load; [exact Hm|intros w Hw; by apply HP|apply H2| |done]. intros Hpd. apply HP in Hpd as (_ & _ & Hn). apply Hn. by left. }
  split; [|done| | |done].
  - eapply kmem_ok_same; [done|exact Hm|]. intros v Hv. by apply HP in Hv as (? & ? & _).
  - intros i t Hi. destruct (H3 i t Hi) as (A & B & C & E & F). change (pmem (r <| pmem := m |>)) with m. by rewrite Hd.
  - intros i Hi Hn. change (pmem (r <| pmem := m |>)) with m. rewrite Hd by done. by apply H4.
Qed.
Lemma pte_same r l d T P m n : vm r l d T → same_but P (pmem r) m → (∀ v, P v → page_ok v ∧ ¬ dir_page d T v) → 0 ≤ n → pte m T n = pte (pmem r) T n.
Proof.
  intros H Hm HP Hn. unfold pte. destruct (T !! (n / 1024)) as [t|] eqn:E; [|done]. pose proof (Z.mod_pos_bound n 1024 ltac:(lia)).
  eapply same_but_load; [exact Hm|intros w Hw; by apply HP|by eapply (dir_page_ok _ _ _ _ _ H); right; exists (n / 1024)| |lia].
  intros Ht. apply HP in Ht as [_ Ht]. apply Ht. right. by exists (n / 1024).
Qed.

(** A change of an entry of a page table. *)
Lemma vm_set_pte r l d T n t w : vm r l d T → 0 ≤ n → T !! (n / 1024) = Some t → let m := store32 (pmem r) (V2P t + 4 * (n mod 1024)) w in
  vm (r <| pmem := m |>) l d T ∧ same_but (dir_page d T) (pmem r) m ∧ ∀ k, 0 ≤ k → pte m T k = if decide (k = n) then u32 w else pte (pmem r) T k.
Proof.
  intros H Hn0 Hn m. pose proof (Z.mod_pos_bound n 1024 ltac:(lia)) as Hb. assert (same_but (eq t) (pmem r) m) as Hm by (by apply same_but_store32).
  destruct (vm_table _ _ _ _ H _ _ Hn) as (A1 & A2 & A3 & A4 & A5). split; [|split].
  - pose proof H as [H1 H2 H3 H4 H5]. assert (∀ i, 0 ≤ i < 1024 → load32 m (V2P d + 4 * i) = load32 (pmem r) (V2P d + 4 * i)) as Hd.
    { intros i Hi. eapply same_but_load; [exact Hm|by intros ? <-|apply H2|done|done]. }
    split; [|done| | |done].
    + eapply kmem_ok_same; [done|exact Hm|]. by intros v <-.
    + intros i u Hi. destruct (H3 i u Hi) as (A & B & C & E & F). change (pmem (r <| pmem := m |>)) with m. by rewrite Hd.
    + intros i Hi Hin. change (pmem (r <| pmem := m |>)) with m. rewrite Hd by done. by apply H4.
  - eapply same_but_mono; [exact Hm|]. intros v <-. right. by exists (n / 1024).
  - intros k Hk. unfold pte. pose proof (Z.mod_pos_bound k 1024 ltac:(lia)). destruct (decide (k = n)) as [->|Hkn]; [rewrite Hn; apply load_store32|].
    destruct (T !! (k / 1024)) as [t'|] eqn:E; [|done]. destruct (decide (t' = t)) as [->|Ht].
    + apply load_store32_ne. pose proof (vm_inj _ _ _ _ H _ _ _ E Hn). pose proof (Z.div_mod k 1024 ltac:(lia)). pose proof (Z.div_mod n 1024 ltac:(lia)). lia.
    + destruct (vm_table _ _ _ _ H _ _ E) as (_ & B2 & _). eapply same_but_load; [exact Hm|by intros ? <-|done|congruence|lia].
Qed.

Lemma kmem_pop r v l : kmem_ok r (v :: l) → freelist r = v ∧ page_ok v ∧ v ∉ l ∧ kmem_ok (r <| freelist := load32 (pmem r) (V2P v) |>) l.
Proof.
  intros [[H1 H2] H3 H4]. apply NoDup_cons in H3 as [H3 H3']. apply Forall_cons in H4 as [H4 H4'].
  split; [done|]. split; [done|]. split; [done|]. by split.
Qed.

(** A new page table. *)
Lemma vm_add_table r t l d T i : vm r (t :: l) d T → 0 ≤ i < 1024 → T !! i = None →
  let m := store32 (memset (pmem r) (V2P t) 0 PGSIZE) (V2P d + 4 * i) (V2P t + 7) in let T' := <[i := t]> T in let r' := remem r m (load32 (pmem r) (V2P t)) in
  vm r' l d T' ∧ same_but (dir_page d T') (pmem r) m ∧ more_tables (t :: l) T l T' [t] ∧ ∀ k, 0 ≤ k → pte m T' k = pte (pmem r) T k.
Proof.
  intros H Hi HT m T' r'. pose proof H as [H1 [H2 H2'] H3 H4 H5]. apply not_elem_of_cons in H2' as [Hdt Hdl]. destruct (kmem_pop _ _ _ H1) as (F1 & F2 & F3 & F4).
  set (m0 := memset (pmem r) (V2P t) 0 PGSIZE) in m. assert (same_but (eq t) (pmem r) m0) as Hm0 by apply same_but_memset.
  assert (same_but (eq d) m0 m) as Hm1 by (by apply same_but_store32). assert (∀ v, v = t ∨ v = d → page_ok v ∧ v ∉ l) as Hok by (by intros v [->| ->]).
  assert (same_but (fun v => v = t ∨ v = d) (pmem r) m) as Hm.
  { eapply same_but_trans; (eapply same_but_mono; [eassumption|]); intros v <-; auto. }
  assert (∀ j, 0 ≤ j < 1024 → j ≠ i → load32 m (V2P d + 4 * j) = load32 (pmem r) (V2P d + 4 * j)) as Hd.
  { intros j Hj Hne. unfold m. rewrite load_store32_ne by lia. eapply same_but_load; [exact Hm0|by intros ? <-|done|congruence|done]. }
  assert (∀ j u, T !! j = Some u → u ≠ t) as Hold by (intros j u Hu ->; destruct (H3 _ _ Hu) as (_ & _ & Hn & _); apply Hn; by left).
  destruct (page_phys t F2) as (Ha & Hr & _). unfold PHYSTOP in Hr. split; [|split; [|split]].
  - split.
    + change r' with ((r <| freelist := load32 (pmem r) (V2P t) |>) <| pmem := m |>). by eapply kmem_ok_same.
    + done.
    + intros j u Hu. change (pmem r') with m. unfold T' in Hu. destruct (decide (j = i)) as [->|Hne].
      * rewrite lookup_insert_eq in Hu. injection Hu as <-. split; [done|]. split; [done|]. split; [done|]. split; [congruence|]. unfold m. rewrite load_store32. unfold u32. apply Z.mod_small. lia.
      * rewrite lookup_insert_ne in Hu by done. destruct (H3 _ _ Hu) as (B1 & B2 & B3 & B4 & B5). rewrite Hd by done. apply not_elem_of_cons in B3 as [_ B3]. done.
    + intros j Hj Hn. unfold T' in Hn. apply lookup_insert_None in Hn as [Hn Hne]. change (pmem r') with m. rewrite Hd by (done || congruence). by apply H4.
    + intros j k u Hj Hk. unfold T' in *. apply lookup_insert_Some in Hj as [[<- <-]|[? Hj]], Hk as [[<- ?]|[? Hk]]; [done|by apply Hold in Hk|subst; by apply Hold in Hj|by eapply H5].
  - eapply same_but_mono; [exact Hm|]. intros v [->| ->]; [right; exists i; apply lookup_insert_eq|by left].
  - split; [done|by apply insert_subseteq| |intros v ->%list_elem_of_singleton; exists i; apply lookup_insert_eq|unfold T'; rewrite map_size_insert_None by done; cbn; lia].
    intros j u Hu. unfold T' in Hu. apply lookup_insert_Some in Hu as [[<- <-]|[? Hu]]; [right; by left|by left].
  - intros k Hk. unfold pte, T'. pose proof (Z.mod_pos_bound k 1024 ltac:(lia)). destruct (decide (k / 1024 = i)) as [Hki|Hki].
    + rewrite Hki, lookup_insert_eq, HT. transitivity (load32 m0 (V2P t + 4 * (k mod 1024))); [|apply load_memset; lia].
      eapply same_but_load; [exact Hm1|by intros ? <-|done|congruence|lia].
    + rewrite lookup_insert_ne by done. destruct (T !! (k / 1024)) as [u|] eqn:E; [|done]. destruct (H3 _ _ E) as (_ & B2 & B3 & B4 & _).
      eapply same_but_load; [exact Hm|by intros ? Hv; apply Hok|done| |lia]. intros [->| ->]; [by apply Hold in E|done].
Qed.

(** ** The operations *)

Context {s : kstate} {c p : nat} {u : cpu} {q : proc} (Hsolo : solo s c p u q).

Lemma kalloc_nil r : kmem_ok r [] → kalloc (with_res s r) = Ret 0 (with_res s r).
Proof. intros [Hc _ _]. cbn in Hc. rewrite (kalloc_solo Hsolo). unfold kpopped. by rewrite Hc. Qed.
Lemma kalloc_cons r v l : kmem_ok r (v :: l) → kalloc (with_res s r) = Ret v (with_res s (r <| freelist := load32 (pmem r) (V2P v) |>)).
Proof.
  intros Hk. destruct (kmem_pop _ _ _ Hk) as (Hf & Hv & _). apply page_pos in Hv. rewrite (kalloc_solo Hsolo). unfold kpopped. rewrite Hf. by rewrite (proj2 (Z.eqb_neq v 0)) by lia.
Qed.

Lemma kload_at a r : kload a (with_res s r) = Ret (load32 (pmem r) (V2P a)) (with_res s r).
Proof. done. Qed.

Section walk.
Context {r : kres} {l : list Z} {d : Z} {T : gmap Z Z} (H : vm r l d T).
Context {va : Z} (Hva : 0 ≤ va < 2 ^ 32).

Lemma pdx_range : 0 ≤ va / 4096 / 1024 < 1024.
Proof. rewrite Z.div_div by lia. split; [apply Z.div_pos; lia|apply Z.div_lt_upper_bound; lia]. Qed.
Lemma pde_addr : V2P (u32 (d + 4 * PDX va)) = V2P d + 4 * (va / 4096 / 1024).
Proof. rewrite PDX_div by done. apply page_word; [apply (vm_dir _ _ _ _ H)|apply pdx_range]. Qed.
Lemma pte_addr t : page_ok t → V2P (u32 (t + 4 * PTX va)) = V2P t + 4 * (va / 4096 mod 1024) ∧ u32 (t + 4 * PTX va) ≠ 0.
Proof. intros Ht. rewrite PTX_mod. apply page_word; [done|]. apply Z.mod_pos_bound. lia. Qed.

Lemma walk_found t al : T !! (va / 4096 / 1024) = Some t → walkpgdir d va al (with_res s r) = Ret (u32 (t + 4 * PTX va)) (with_res s r).
Proof.
  intros Ht. destruct (vm_table _ _ _ _ H _ _ Ht) as (_ & A2 & _ & _ & A5). destruct (page_phys t A2) as (B1 & B2 & B3). unfold walkpgdir.
  rewrite (bind_ret _ _ _ _ _ (kload_at _ r)), pde_addr, A5, has_P_odd, PTE_ADDR_add, B3 by (done || lia). rewrite Z.odd_add.
  apply Z.mod_divide in B1 as [k ->]; [|lia]. by rewrite Z.odd_mul, andb_false_r.
Qed.
Lemma walk_none : T !! (va / 4096 / 1024) = None → walkpgdir d va false (with_res s r) = Ret 0 (with_res s r).
Proof.
  intros Ht. unfold walkpgdir. rewrite (bind_ret _ _ _ _ _ (kload_at _ r)), pde_addr, has_P_odd, (vm_none _ _ _ _ H) by (done || apply pdx_range). done.
Qed.
Lemma walk_full : T !! (va / 4096 / 1024) = None → l = [] → walkpgdir d va true (with_res s r) = Ret 0 (with_res s r).
Proof.
  intros Ht Hl. pose proof (vm_free _ _ _ _ H) as Hk. rewrite Hl in Hk. unfold walkpgdir. rewrite (bind_ret _ _ _ _ _ (kload_at _ r)), pde_addr, has_P_odd, (vm_none _ _ _ _ H) by (done || apply pdx_range). cbn [negb].
  by rewrite (bind_ret _ _ _ _ _ (kalloc_nil r Hk)).
Qed.
Lemma walk_alloc t l0 : T !! (va / 4096 / 1024) = None → l = t :: l0 →
  let m := store32 (memset (pmem r) (V2P t) 0 PGSIZE) (V2P d + 4 * (va / 4096 / 1024)) (V2P t + 7) in
  walkpgdir d va true (with_res s r) = Ret (u32 (t + 4 * PTX va)) (with_res s (remem r m (load32 (pmem r) (V2P t)))).
Proof.
  intros Ht Hl m. pose proof (vm_free _ _ _ _ H) as Hk. rewrite Hl in Hk. unfold walkpgdir. rewrite (bind_ret _ _ _ _ _ (kload_at _ r)), pde_addr, has_P_odd, (vm_none _ _ _ _ H) by (done || apply pdx_range). cbn [negb].
  rewrite (bind_ret _ _ _ _ _ (kalloc_cons r t l0 Hk)). destruct (kmem_pop _ _ _ Hk) as (_ & Hp & _).
  pose proof (page_pos _ Hp). rewrite (proj2 (Z.eqb_neq t 0)) by lia. destruct (page_phys t Hp) as (B1 & B2 & B3).
  set (r1 := r <| freelist := load32 (pmem r) (V2P t) |>). rewrite (bind_ret _ _ _ tt (with_res s (r1 <| pmem := memset (pmem r) (V2P t) 0 PGSIZE |>))) by done.
  rewrite (bind_ret _ _ _ tt (with_res s (remem r m (load32 (pmem r) (V2P t))))); [done|]. unfold kstore, rmod, modify. rewrite pde_addr.
  assert (Z.lor (Z.lor (Z.lor (V2P t) PTE_P) PTE_W) PTE_U = V2P t + 7) as ->; [|done]. rewrite <- !Z.lor_assoc. apply lor_aligned; [done|]. by vm_compute.
Qed.
End walk.

(** [walkpgdir] with [alloc]. *)
Lemma walk_true r l d T va : vm r l d T → 0 ≤ va < 2 ^ 32 →
  (walkpgdir d va true (with_res s r) = Ret 0 (with_res s r) ∧ l = []) ∨
  ∃ t m f l' T' new, walkpgdir d va true (with_res s r) = Ret (u32 (t + 4 * PTX va)) (with_res s (remem r m f)) ∧
    vm (remem r m f) l' d T' ∧ T' !! (va / 4096 / 1024) = Some t ∧ more_tables l T l' T' new ∧ same_but (dir_page d T') (pmem r) m ∧
    ∀ k, 0 ≤ k → pte m T' k = pte (pmem r) T k.
Proof.
  intros H Hva. destruct (T !! (va / 4096 / 1024)) as [t|] eqn:E.
  - right. exists t, (pmem r), (freelist r), l, T, []. assert (remem r (pmem r) (freelist r) = r) as -> by (by destruct r).
    split; [by apply (walk_found H Hva)|]. split; [done|]. split; [done|]. split; [apply more_tables_refl|]. done.
  - destruct l as [|t l']; [left; split; [by apply (walk_full H Hva)|done]|]. right.
    destruct (vm_add_table r t l' d T (va / 4096 / 1024) H (pdx_range Hva) E) as (A1 & A2 & A3 & A4).
    exists t, (store32 (memset (pmem r) (V2P t) 0 PGSIZE) (V2P d + 4 * (va / 4096 / 1024)) (V2P t + 7)), (load32 (pmem r) (V2P t)), l', (<[va / 4096 / 1024 := t]> T), [t].
    split; [by apply (walk_alloc H Hva t l' E)|]. split; [done|]. split; [apply lookup_insert_eq|]. done.
Qed.

(** The outcome of mapping pages [i .. i + k] to the frames from [pa] on: all of
    them, or the first [j] when the memory ran out. *)
Definition mapped_pages (i j pa perm : Z) (old new : Z → Z) : Prop :=
  ∀ n, 0 ≤ n → new n = if decide (i ≤ n < i + j) then pa + 4096 * (n - i) + Z.lor perm PTE_P else old n.

Lemma perm_present perm : 0 ≤ perm < 4096 → 0 ≤ Z.lor perm PTE_P < 4096.
Proof.
  intros Hp. assert (0 ≤ Z.lor perm PTE_P) by (apply Z.lor_nonneg; unfold PTE_P; lia). split; [done|]. destruct (Z.eq_dec (Z.lor perm PTE_P) 0) as [->|]; [lia|].
  change 4096 with (2 ^ 12). apply Z.log2_lt_pow2; [lia|]. rewrite Z.log2_lor by (unfold PTE_P; lia). apply Z.max_lub_lt; [|by vm_compute].
  destruct (Z.eq_dec perm 0) as [->|]; [by vm_compute|]. apply Z.log2_lt_pow2; lia.
Qed.

(** One page, with [next] to follow or [bad] when there is no memory. *)
Lemma map_step {A} (bad next : K A) i pa perm r l d T : vm r l d T → 0 ≤ i < 2 ^ 20 → pa mod 4096 = 0 → 0 ≤ pa < 2 ^ 32 → 0 ≤ perm < 4096 →
  Z.odd (pte (pmem r) T i) = false →
  let body := (pte <- walkpgdir d (4096 * i) true ;; if pte =? 0 then bad else v <- kload pte ;; if has v PTE_P then panic "remap" else
    kstore pte (Z.lor (Z.lor pa perm) PTE_P) ;;; next) in
  (body (with_res s r) = bad (with_res s r) ∧ l = []) ∨
  ∃ m f l' T' new, body (with_res s r) = next (with_res s (remem r m f)) ∧ vm (remem r m f) l' d T' ∧ more_tables l T l' T' new ∧
    same_but (dir_page d T') (pmem r) m ∧ ∀ n, 0 ≤ n → pte m T' n = if decide (n = i) then pa + Z.lor perm PTE_P else pte (pmem r) T n.
Proof.
  intros H Hi Hal Hpa Hperm Hfree body. unfold body. destruct (walk_true r l d T (4096 * i) H ltac:(lia)) as [[E ->]|(t & m0 & f & l' & T' & new & E & V0 & Ht & M0 & S0 & P0)]; rewrite (bind_ret _ _ _ _ _ E); [by left|].
  right. rewrite (Z.mul_comm 4096 i), Z.div_mul in Ht by lia. rewrite (Z.mul_comm 4096 i).
  destruct (vm_table _ _ _ _ V0 _ _ Ht) as (_ & Hpt & _). destruct (pte_addr (va := i * 4096) t Hpt) as [Ha1 Ha2]. rewrite Z.div_mul in Ha1 by lia.
  rewrite (proj2 (Z.eqb_neq _ 0) Ha2), (bind_ret _ _ _ _ _ (kload_at _ (remem r m0 f))), Ha1. change (pmem (remem r m0 f)) with m0.
  assert (load32 m0 (V2P t + 4 * (i mod 1024)) = pte (pmem r) T i) as -> by (rewrite <- P0 by lia; unfold pte; by rewrite Ht). rewrite has_P_odd, Hfree by lia.
  destruct (vm_set_pte _ _ _ _ i t (Z.lor (Z.lor pa perm) PTE_P) V0 ltac:(lia) Ht) as (V1 & S1 & P1). set (m := store32 _ _ _) in V1, S1, P1.
  exists m, f, l', T', new. split; [|split; [exact V1|split; [done|split; [by eapply same_but_trans|]]]].
  - rewrite (bind_ret _ _ _ tt (with_res s (remem r m f))); [done|]. unfold kstore, rmod, modify. by rewrite Ha1.
  - intros n Hn. rewrite P1, P0 by done. destruct (decide (n = i)); [|done]. rewrite <- Z.lor_assoc. pose proof (perm_present perm Hperm). rewrite lor_aligned by done.
    unfold u32. apply Z.mod_small. apply Z.mod_divide in Hal as [a ->]; lia.
Qed.

Definition mappages_next (k : nat) (d a last pa perm : Z) : K Z :=
  if a =? last then ret 0 else match k with O => fun _ => NoFuel | S n' => mappages_loop n' d (u32 (a + PGSIZE)) last (u32 (pa + PGSIZE)) perm end.
Lemma mappages_loop_next k d a last pa perm : mappages_loop k d a last pa perm =
  (pte <- walkpgdir d a true ;; if pte =? 0 then ret (-1) else v <- kload pte ;; if has v PTE_P then panic "remap" else
   kstore pte (Z.lor (Z.lor pa perm) PTE_P) ;;; mappages_next k d a last pa perm).
Proof. by destruct k. Qed.

Lemma mappages_loop_spec k i pa perm r l d T : vm r l d T → 0 ≤ i → i + Z.of_nat k < 2 ^ 20 → pa mod 4096 = 0 → 0 ≤ pa → pa + 4096 * (Z.of_nat k + 1) ≤ 2 ^ 32 →
  0 ≤ perm < 4096 → (∀ n, i ≤ n ≤ i + Z.of_nat k → Z.odd (pte (pmem r) T n) = false) →
  ∃ x m f l' T' new j, mappages_loop k d (4096 * i) (4096 * (i + Z.of_nat k)) pa perm (with_res s r) = Ret x (with_res s (remem r m f)) ∧
    vm (remem r m f) l' d T' ∧ more_tables l T l' T' new ∧ same_but (dir_page d T') (pmem r) m ∧
    (x = 0 ∧ j = Z.of_nat k + 1 ∨ x = -1 ∧ 0 ≤ j ≤ Z.of_nat k ∧ l' = []) ∧ mapped_pages i j pa perm (pte (pmem r) T) (pte m T').
Proof.
  revert i pa r l T. induction k as [|k IH]; intros i pa r l T H Hi Hik Hal Hpa Hpk Hperm Hfree.
  all: set (last := 4096 * (i + _)); rewrite mappages_loop_next.
  all: match goal with |- context [mappages_next ?a ?b ?c ?d ?e ?f] => set (nx := mappages_next a b c d e f) end.
  all: destruct (map_step (ret (-1)) nx i pa perm r l d T H) as [[E ->]|(m0 & f0 & l0 & T0 & new0 & E & V0 & M0 & S0 & P0)]; [lia|done|lia|done|apply Hfree; lia|..].
  1,3: rewrite E; exists (-1), (pmem r), (freelist r), [], T, [], 0; (assert (remem r (pmem r) (freelist r) = r) as -> by (by destruct r));
    (split; [done|]); (split; [done|]); (split; [apply more_tables_refl|]); (split; [done|]); (split; [right; split; [done|split; [lia|done]]|]); intros n Hn; by rewrite decide_False by lia.
  all: rewrite E; clear E; unfold nx, mappages_next, last.
  - rewrite (proj2 (Z.eqb_eq _ _)) by lia. exists 0, m0, f0, l0, T0, new0, 1. split; [done|]. split; [done|]. split; [done|]. split; [done|]. split; [left; done|].
    intros n Hn. rewrite P0 by done. destruct (decide (n = i)) as [->|]; [rewrite decide_True by lia; lia|by rewrite decide_False by lia].
  - rewrite (proj2 (Z.eqb_neq _ _)) by lia. unfold PGSIZE. assert (u32 (4096 * i + 4096) = 4096 * (i + 1)) as -> by (unfold u32; rewrite Z.mod_small; lia).
    assert (u32 (pa + 4096) = pa + 4096) as -> by (unfold u32; rewrite Z.mod_small; lia). replace (i + Z.of_nat (S k)) with (i + 1 + Z.of_nat k) by lia.
    destruct (IH (i + 1) (pa + 4096) (remem r m0 f0) l0 T0) as (x & m & f & l' & T' & new & j & E & V & M & S & O & P); [done|lia|lia| |lia|lia|done| |].
    + apply Z.mod_divide in Hal as [a ->]; [|lia]. by replace (a * 4096 + 4096) with ((a + 1) * 4096) by lia; rewrite Z.mod_mul.
    + intros n Hn. change (pmem (remem r m0 f0)) with m0. rewrite P0 by lia. rewrite decide_False by lia. apply Hfree. lia.
    + exists x, m, f, l', T', (new0 ++ new), (j + 1). change (remem (remem r m0 f0) m f) with (remem r m f) in *. split; [exact E|]. split; [done|].
      split; [by eapply more_tables_trans|]. split; [eapply same_but_trans; [eapply same_but_mono; [exact S0|]; intros v; apply dir_page_mono, (mt_old _ _ _ _ _ M)|exact S]|].
      split; [destruct O as [[-> ->]|(-> & ? & ->)]; [left; split; [done|lia]|right; split; [done|split; [lia|done]]]|].
      intros n Hn. rewrite (P n Hn). change (pmem (remem r m0 f0)) with m0. rewrite P0 by lia. destruct (decide (n = i)) as [->|].
      * rewrite decide_False by lia. rewrite decide_True by lia. lia.
      * destruct (decide (i + 1 ≤ n < _)); [rewrite decide_True by lia; lia|by rewrite decide_False by lia].
Qed.

(** The pages from that of [va] to that of the last byte. *)
Lemma mappages_spec va size pa perm r l d T : let i := va / 4096 in let k := (va + size - 1) / 4096 - i in
  vm r l d T → 0 ≤ va → 0 < size → va + size ≤ 2 ^ 32 → pa mod 4096 = 0 → 0 ≤ pa → pa + 4096 * (k + 1) ≤ 2 ^ 32 → 0 ≤ perm < 4096 →
  (∀ n, i ≤ n ≤ i + k → Z.odd (pte (pmem r) T n) = false) →
  ∃ x m f l' T' new j, mappages d va size pa perm (with_res s r) = Ret x (with_res s (remem r m f)) ∧
    vm (remem r m f) l' d T' ∧ more_tables l T l' T' new ∧ same_but (dir_page d T') (pmem r) m ∧
    (x = 0 ∧ j = k + 1 ∨ x = -1 ∧ 0 ≤ j ≤ k ∧ l' = []) ∧ mapped_pages i j pa perm (pte (pmem r) T) (pte m T').
Proof.
  intros i k H Hva Hsz Hend Hal Hpa Hpk Hperm Hfree. assert (0 ≤ k) as Hk by (unfold k, i; pose proof (Z.div_le_mono va (va + size - 1) 4096); lia).
  assert (0 ≤ i) by (apply Z.div_pos; lia). assert (i + k < 2 ^ 20) by (unfold k; replace (i + _) with ((va + size - 1) / 4096) by lia; apply Z.div_lt_upper_bound; lia).
  unfold mappages. assert (u32 (va + size - 1) = va + size - 1) as -> by (unfold u32; rewrite Z.mod_small; lia). rewrite !PGROUNDDOWN_div. fold i.
  replace ((va + size - 1) / 4096) with (i + Z.of_nat (Z.to_nat k)) by lia. replace (4096 * (i + Z.of_nat (Z.to_nat k)) - 4096 * i) with (k * 4096) by lia.
  assert (u32 (k * 4096) / PGSIZE = k) as -> by (unfold u32, PGSIZE; rewrite Z.mod_small by lia; apply Z.div_mul; lia).
  destruct (mappages_loop_spec (Z.to_nat k) i pa perm r l d T) as (x & m & f & l' & T' & new & j & E & V & M & S & O & P); [done|lia|lia|done|lia|lia|done|intros n Hn; apply Hfree; lia|].
  rewrite Z2Nat.id in O by lia. by exists x, m, f, l', T', new, j.
Qed.

Lemma translate_pte r l d T va : vm r l d T → 0 ≤ va < 2 ^ 32 →
  translate (pmem r) d va = let e := pte (pmem r) T (va / 4096) in if Z.odd e then Some (PTE_ADDR e + va mod PGSIZE, PTE_FLAGS e) else None.
Proof.
  intros H Hva. unfold translate, pte. rewrite PDX_div, PTX_mod, !has_P_odd by done. destruct (T !! (va / 4096 / 1024)) as [t|] eqn:E.
  - destruct (vm_table _ _ _ _ H _ _ E) as (_ & A2 & _ & _ & ->). destruct (page_phys t A2) as (B1 & _). rewrite PTE_ADDR_add by (done || lia).
    rewrite Z.odd_add. apply Z.mod_divide in B1 as [a ->]; [|lia]. rewrite Z.odd_mul, andb_false_r. cbn [xorb negb Z.odd]. by destruct (Z.odd _).
  - by rewrite (vm_none _ _ _ _ H) by (done || by apply pdx_range).
Qed.

Lemma odd_present a perm : a mod 4096 = 0 → Z.odd (a + Z.lor perm PTE_P) = true.
Proof.
  intros Ha. apply Z.mod_divide in Ha as [k ->]; [|lia]. rewrite Z.odd_add, Z.odd_mul, andb_false_r. cbn [xorb]. rewrite <- Z.bit0_odd, Z.lor_spec. unfold PTE_P. change (Z.testbit 1 0) with true. by rewrite orb_true_r.
Qed.

(** [mappages] maps what it is asked to map and nothing else.  On pages
    that are not mapped yet it either returns 0 and the processor translates
    every address of the range to the physical range, with the permissions
    given, or it returns -1 because the memory ran out, with a part of the
    range mapped; every other address is translated as before.  The only
    memory it writes is the directory, its tables, and new tables from the
    free list.  A page that is mapped already makes it panic. *)
Theorem mappages_correct va size pa perm r l d T : let i := va / 4096 in let k := (va + size - 1) / 4096 - i in
  vm r l d T → 0 ≤ va → 0 < size → va + size ≤ 2 ^ 32 → pa mod 4096 = 0 → 0 ≤ pa → pa + 4096 * (k + 1) ≤ 2 ^ 32 → 0 ≤ perm < 4096 →
  (Z.odd (pte (pmem r) T i) = true → mappages d va size pa perm (with_res s r) = Panic "remap") ∧
  ((∀ n, i ≤ n ≤ i + k → Z.odd (pte (pmem r) T n) = false) →
   ∃ x m f l' T' new j, mappages d va size pa perm (with_res s r) = Ret x (with_res s (remem r m f)) ∧
     vm (remem r m f) l' d T' ∧ more_tables l T l' T' new ∧ same_but (dir_page d T') (pmem r) m ∧
     (x = 0 ∧ j = k + 1 ∨ x = -1 ∧ 0 ≤ j ≤ k ∧ l' = []) ∧
     ∀ a, 0 ≤ a < 2 ^ 32 → translate m d a =
       if decide (i ≤ a / 4096 < i + j) then Some (pa + 4096 * (a / 4096 - i) + a mod PGSIZE, Z.lor perm PTE_P) else translate (pmem r) d a).
Proof.
  intros i k H Hva Hsz Hend Hal Hpa Hpk Hperm. split.
  - intros Hodd. unfold mappages. rewrite !PGROUNDDOWN_div. fold i. rewrite mappages_loop_next. assert (0 ≤ 4096 * i < 2 ^ 32) as Hr.
    { unfold i. pose proof (Z.div_pos va 4096 ltac:(lia) ltac:(lia)). pose proof (Z.mul_div_le va 4096 ltac:(lia)). lia. }
    unfold pte in Hodd. destruct (T !! (i / 1024)) as [t|] eqn:E; [|done]. assert (T !! (4096 * i / 4096 / 1024) = Some t) as E' by (rewrite (Z.mul_comm 4096), Z.div_mul by lia; done).
    rewrite (bind_ret _ _ _ _ _ (walk_found H Hr t true E')). destruct (vm_table _ _ _ _ H _ _ E) as (_ & Hpt & _). destruct (pte_addr (va := 4096 * i) t Hpt) as [Ha1 Ha2].
    rewrite (proj2 (Z.eqb_neq _ 0) Ha2), (bind_ret _ _ _ _ _ (kload_at _ r)), Ha1, has_P_odd. rewrite (Z.mul_comm 4096), Z.div_mul by lia. by rewrite Hodd.
  - intros Hfree. destruct (mappages_spec va size pa perm r l d T) as (x & m & f & l' & T' & new & j & E & V & M & S & O & P); [done..|].
    exists x, m, f, l', T', new, j. split; [done|]. split; [done|]. split; [done|]. split; [done|]. split; [done|]. intros a Ha.
    pose proof (translate_pte _ _ _ _ a V Ha) as Et. change (pmem (remem r m f)) with m in Et. rewrite Et, (translate_pte _ _ _ _ a H Ha). cbv zeta. rewrite P by (apply Z.div_pos; lia).
    fold i. destruct (decide (i ≤ a / 4096 < i + j)); [|done]. pose proof (perm_present perm Hperm). assert ((pa + 4096 * (a / 4096 - i)) mod 4096 = 0) as Hm.
    { rewrite (Z.mul_comm 4096), Z.mod_add by lia. done. }
    by rewrite odd_present, PTE_ADDR_add, PTE_FLAGS_add by done.
Qed.
End tables.
