(* ===== verification/AddrSpace.v ===== *)
(** * Address spaces

    The user half of an address space: which frame each page has.  Under the
    invariant [uvm] the routines of vm.c that make, copy and give back address
    spaces are shown correct: [setupkvm] maps the kernel, [deallocuvm] and
    [freevm] give back every page, and [copyuvm], the part of fork that copies
    memory, makes an address space with the same contents in other frames. *)

From S2P Require Import Prelude Machine Spinlock CString ProcTable Proc Lifecycle Ready Aging.
From S2P Require Import ProcLemmas Scheduler Reach Blocking Kstate Sleeplock Solo.
From S2P Require Import Devices Disk Bio Layout Log Inode Console Fs Kalloc Vm PageTable.

(** ** The user half *)

(** The number of pages below KERNBASE. *)
Definition UPAGES : Z := 524288.

(** [U] gives the frame and the flags of each page that is mapped. *)
Record uvm {LK : Link} (r : kres) (l : list Z) (d : Z) (T : gmap Z Z) (U : gmap Z (Z * Z)) : Prop := {
  u_vm : vm r l d T;
  u_some : ∀ n v f, U !! n = Some (v, f) →
    0 ≤ n < UPAGES ∧ page_ok v ∧ v ∉ l ∧ ¬ dir_page d T v ∧ 0 ≤ f < 4096 ∧ Z.odd f = true ∧ pte (pmem r) T n = V2P v + f;
  u_none : ∀ n, 0 ≤ n < UPAGES → U !! n = None → Z.odd (pte (pmem r) T n) = false;
  u_inj : ∀ n n' v f f', U !! n = Some (v, f) → U !! n' = Some (v, f') → n = n' }.

(** The pages that belong to the address space. *)
Definition space_page (d : Z) (T : gmap Z Z) (U : gmap Z (Z * Z)) (v : Z) : Prop := dir_page d T v ∨ ∃ n f, U !! n = Some (v, f).

(** What the kernel is linked like (kernel.ld): it starts at KERNLINK, and its
    writable data starts at a page. *)
Record link_ok {LK : Link} : Prop := {
  lk_data : kdata mod 4096 = 0 ∧ KERNLINK < kdata;
  lk_end : kdata ≤ kend ∧ kend < KERNBASE + PHYSTOP }.

Section spaces.
Context {FU : Fuel} {HW : Hw} {DK : Disk} {LK : Link} (HL : link_ok).

Lemma space_page_ok r l d T U v : uvm r l d T U → space_page d T U v → page_ok v ∧ v ∉ l.
Proof. intros H [Hd|(n & f & Hn)]; [by eapply dir_page_ok; [apply (u_vm _ _ _ _ _ H)|]|]. by destruct (u_some _ _ _ _ _ H _ _ _ Hn) as (_ & ? & ? & _). Qed.

(** An address space is not affected by changes of other pages and of the free
    list. *)
Lemma vm_frame r l d T m f l' P : vm r l d T → kmem_ok (remem r m f) l' → (∀ v, dir_page d T v → v ∉ l') →
  same_but P (pmem r) m → (∀ v, P v → page_ok v ∧ ¬ dir_page d T v) →
  vm (remem r m f) l' d T ∧ ∀ n, 0 ≤ n → pte m T n = pte (pmem r) T n.
Proof.
  intros H Hk Hl Hm HP. pose proof H as [A1 A2 A3 A4 A5].
  assert (∀ i, 0 ≤ i < 1024 → load32 m (V2P d + 4 * i) = load32 (pmem r) (V2P d + 4 * i)) as Hld.
  { intros i Hi. eapply same_but_load; [exact Hm|intros w Hw; by apply HP|apply A2|intros Hp; apply HP in Hp as [_ Hp]; apply Hp; by left|done]. }
  split; [split|].
  - done.
  - split; [apply A2|]. apply Hl. by left.
  - intros i t Hi. destruct (A3 i t Hi) as (C1 & C2 & C3 & C4 & C5). change (pmem (remem r m f)) with m. rewrite Hld by done.
    split; [done|]. split; [done|]. split; [apply Hl; right; by exists i|]. done.
  - intros i Hi Hn. change (pmem (remem r m f)) with m. rewrite Hld by done. by apply A4.
  - done.
  - intros n Hn. by eapply pte_same.
Qed.
Lemma uvm_frame r l d T U m f l' P : uvm r l d T U → kmem_ok (remem r m f) l' → (∀ v, space_page d T U v → v ∉ l') →
  same_but P (pmem r) m → (∀ v, P v → page_ok v ∧ ¬ space_page d T U v) → uvm (remem r m f) l' d T U.
Proof.
  intros H Hk Hl Hm HP. pose proof H as [V B1 B2 B3]. assert (∀ v, dir_page d T v → space_page d T U v) as Hds by (intros; by left).
  destruct (vm_frame r l d T m f l' P V Hk) as [V' Hpte]; [auto|done|intros v [? Hv]%HP; auto|].
  split; [done| | |done]; change (pmem (remem r m f)) with m.
  - intros n v g Hn. destruct (B1 n v g Hn) as (C1 & C2 & C3 & C4 & C5 & C6 & C7). rewrite Hpte by lia.
    split; [done|]. split; [done|]. split; [apply Hl; right; by exists n, g|]. done.
  - intros n Hn Hu. rewrite Hpte by lia. by apply B2.
Qed.

Lemma freed_remem v r : ∃ m, freed v r = remem r m v ∧ same_but (eq v) (pmem r) m.
Proof.
  exists (store32 (memset (pmem r) (V2P v) 1 PGSIZE) (V2P v) (freelist r)). split; [done|]. eapply same_but_trans; [apply same_but_memset|].
  rewrite <- (Z.add_0_r (V2P v)). apply (same_but_store32 v 0). lia.
Qed.

Context {s : kstate} {c p : nat} {u : cpu} {q : proc} (Hsolo : solo s c p u q).

Lemma mapped_entry r l d T U n v f : uvm r l d T U → U !! n = Some (v, f) → Z.odd (V2P v + f) = true ∧ ∃ t, T !! (n / 1024) = Some t.
Proof.
  intros H Hn. destruct (u_some _ _ _ _ _ H _ _ _ Hn) as (_ & Hv & _ & _ & _ & Hodd & Hpte). pose proof (page_phys v Hv) as (Hz & _).
  assert (Z.odd (V2P v + f) = true) as Ho by (apply Z.mod_divide in Hz as [a ->]; [|lia]; rewrite Z.odd_add, Z.odd_mul, andb_false_r; by rewrite Hodd).
  split; [done|]. unfold pte in Hpte. destruct (T !! (n / 1024)) as [t|]; [by exists t|]. by rewrite <- Hpte in Ho.
Qed.

(** Giving back the frame of a page and clearing its entry. *)
Lemma unmap_step r l d T U n v f : uvm r l d T U → U !! n = Some (v, f) →
  ∃ t, T !! (n / 1024) = Some t ∧ ∀ m, m = store32 (pmem (freed v r)) (V2P t + 4 * (n mod 1024)) 0 →
    uvm (remem r m v) (v :: l) d T (delete n U) ∧ same_but (fun w => w = v ∨ dir_page d T w) (pmem r) m.
Proof.
  intros H Hn. pose proof H as [V B1 B2 B3]. destruct (B1 _ _ _ Hn) as (Hr & Hv & Hvl & Hvd & Hf & Hodd & Hpte).
  destruct (freed_remem v r) as (m1 & E & S1). pose proof (kmem_ok_freed v r l (vm_free _ _ _ _ V) Hv Hvl) as K1. rewrite E in K1.
  destruct (vm_frame r l d T m1 v (v :: l) (eq v) V K1) as [V1 P1]; [|exact S1|by intros ? <-|].
  { intros w Hw. apply not_elem_of_cons. split; [by intros ->|by eapply dir_page_ok]. }
  destruct (mapped_entry _ _ _ _ _ _ _ _ H Hn) as (_ & t & Ht).
  exists t. split; [done|]. intros m Hm. rewrite E in Hm. destruct (vm_set_pte _ _ _ _ n t 0 V1 ltac:(lia) Ht) as (V2 & S2 & P2). rewrite <- Hm in V2, S2, P2.
  split; [|eapply same_but_trans; (eapply same_but_mono; [eassumption|]); [intros w <-; by left|auto]].
  split; [exact V2|..]; change (pmem (remem r m v)) with m.
  - intros k w g Hk. apply lookup_delete_Some in Hk as [Hne Hk]. destruct (B1 _ _ _ Hk) as (C1 & C2 & C3 & C4 & C5 & C6 & C7).
    rewrite P2, decide_False, P1 by (lia || congruence). split; [done|]. split; [done|]. split; [|done].
    apply not_elem_of_cons. split; [|done]. intros ->. apply Hne. by eapply B3.
  - intros k Hk Hd. rewrite P2 by lia. destruct (decide (k = n)) as [->|Hne]; [done|]. rewrite lookup_delete_ne in Hd by done. rewrite P1 by lia. by apply B2.
  - intros k k' w g g' Hk Hk'. apply lookup_delete_Some in Hk as [_ Hk], Hk' as [_ Hk']. by eapply B3.
Qed.

(** Pages [i .. e) are unmapped, and their frames are in front of the free list. *)
Record unmapped (i e : Z) (U U' : gmap Z (Z * Z)) (l l' : list Z) : Prop := {
  um_map : ∀ n, U' !! n = if decide (i ≤ n < e) then None else U !! n;
  um_free : ∀ v, v ∈ l' ↔ v ∈ l ∨ ∃ n f, i ≤ n < e ∧ U !! n = Some (v, f) }.

(** The pages written to: the tables and the frames given back. *)
Definition unmap_page (d : Z) (T : gmap Z Z) (U : gmap Z (Z * Z)) (i e v : Z) : Prop := dir_page d T v ∨ ∃ n f, i ≤ n < e ∧ U !! n = Some (v, f).

Lemma unmapped_skip i i' e U U' l l' : unmapped i' e U U' l l' → i ≤ i' → (∀ n, i ≤ n < i' → U !! n = None) → unmapped i e U U' l l'.
Proof.
  intros [H1 H2] Hi Hn. split.
  - intros n. rewrite H1. destruct (decide (i' ≤ n < e)), (decide (i ≤ n < e)); try done; [lia|]. apply Hn. lia.
  - intros v. rewrite H2. split; (intros [?|(n & f & Hr & Hu)]; [by left|right; exists n, f; split; [|done]]); [lia|].
    split; [|lia]. destruct (Z.lt_ge_cases n i') as [Hlt|]; [|done]. rewrite Hn in Hu by lia. done.
Qed.
Lemma unmapped_step i e v f U U' l l' : i < e → U !! i = Some (v, f) → unmapped (i + 1) e (delete i U) U' (v :: l) l' → unmapped i e U U' l l'.
Proof.
  intros Hi Hv [H1 H2]. split.
  - intros n. rewrite H1. destruct (decide (n = i)) as [->|Hne]; [rewrite lookup_delete_eq, decide_False, decide_True by lia; done|]. rewrite lookup_delete_ne by done.
    destruct (decide (i + 1 ≤ n < e)), (decide (i ≤ n < e)); try done; lia.
  - intros w. rewrite H2, elem_of_cons. split.
    + intros [[->|?]|(n & g & Hr & Hu)]; [right; exists i, f; split; [lia|done]|by left|]. apply lookup_delete_Some in Hu as [_ Hu]. right. exists n, g. split; [lia|done].
    + intros [?|(n & g & Hr & Hu)]; [by left; right|]. destruct (decide (n = i)) as [->|Hne]; [left; left; congruence|]. right. exists n, g. split; [lia|]. by rewrite lookup_delete_ne.
Qed.

Lemma frame_nonzero v : page_ok v → V2P v ≠ 0.
Proof. intros H. rewrite (page_V2P v H). destruct H as (_ & H & _). destruct HL as [[_ H1] [H2 _]]. unfold KERNLINK, EXTMEM in H1. lia. Qed.
Lemma skip_table i : 0 ≤ i < UPAGES → u32 (u32 (PGADDR (PDX (4096 * i) + 1) 0 0 - PGSIZE) + PGSIZE) = 4096 * (1024 * (i / 1024 + 1)).
Proof.
  unfold UPAGES. intros Hi. rewrite PDX_div, (Z.mul_comm 4096 i), Z.div_mul by lia. unfold PGADDR. rewrite Z.shiftl_0_l, !Z.lor_0_r, Z.shiftl_mul_pow2 by lia.
  assert (0 ≤ i / 1024 < 512) by (split; [apply Z.div_pos; lia|apply Z.div_lt_upper_bound; lia]). change (2 ^ 22) with 4194304. unfold PGSIZE.
  assert (∀ x, 0 ≤ x < 2 ^ 32 → u32 x = x) as Hs by (intros; by apply Z.mod_small). rewrite (Hs ((i / 1024 + 1) * 4194304)) by lia. rewrite (Hs (_ - 4096)) by lia. rewrite Hs; lia.
Qed.

Lemma dealloc_loop n i oldsz r l d T U : let e := (oldsz + 4095) / 4096 in uvm r l d T U → 0 ≤ i → oldsz ≤ KERNBASE → e - i ≤ Z.of_nat n →
  ∃ m f l' U', deallocuvm_loop n d (4096 * i) oldsz (with_res s r) = Ret tt (with_res s (remem r m f)) ∧ uvm (remem r m f) l' d T U' ∧
    unmapped i e U U' l l' ∧ same_but (unmap_page d T U i e) (pmem r) m.
Proof.
  intros e. revert i r l U. induction n as [|n IH]; intros i r l U H Hi Hsz Hn.
  all: pose proof (Z.div_mod (oldsz + 4095) 4096 ltac:(lia)) as Hdm; pose proof (Z.mod_pos_bound (oldsz + 4095) 4096 ltac:(lia)); fold e in Hdm; cbn [deallocuvm_loop].
  all: destruct (Z.ltb_spec (4096 * i) oldsz) as [Hlt|Hge]; [|exists (pmem r), (freelist r), l, U; (assert (remem r (pmem r) (freelist r) = r) as -> by (by destruct r));
    split; [done|]; split; [done|]; split; [|done]; split; [intros k; by rewrite decide_False by lia|]; intros v; split; [by left|]; by intros [?|(k & f & ? & _)]; [|lia]].
  - lia.
  - assert (i < UPAGES) as Hu by (unfold UPAGES, KERNBASE in *; lia). assert (0 ≤ 4096 * i < 2 ^ 32) as Hva by (unfold UPAGES in *; lia).
    pose proof (u_vm _ _ _ _ _ H) as V. assert (4096 * i / 4096 / 1024 = i / 1024) as Ei by (rewrite (Z.mul_comm 4096 i), Z.div_mul by lia; done).
    destruct (T !! (i / 1024)) as [t|] eqn:Ht.
    + rewrite (bind_ret _ _ _ _ _ (walk_found V Hva t false ltac:(by rewrite Ei))). destruct (vm_table _ _ _ _ V _ _ Ht) as (_ & Hpt & _).
      destruct (pte_addr (va := 4096 * i) t Hpt) as [Ha1 Ha2]. rewrite (Z.mul_comm 4096 i), Z.div_mul in Ha1 by lia. rewrite (Z.mul_comm 4096 i) in *.
      rewrite (proj2 (Z.eqb_neq _ 0) Ha2), (bind_ret _ _ _ _ _ (kload_at _ r)), Ha1, has_P_odd.
      assert (load32 (pmem r) (V2P t + 4 * (i mod 1024)) = pte (pmem r) T i) as -> by (unfold pte; by rewrite Ht).
      assert (u32 (i * 4096 + PGSIZE) = 4096 * (i + 1)) as -> by (unfold u32, PGSIZE; rewrite Z.mod_small; unfold UPAGES in *; lia).
      destruct (U !! i) as [[v g]|] eqn:Eu.
      * destruct (u_some _ _ _ _ _ H _ _ _ Eu) as (_ & Hv & _ & _ & Hg & Ho & Hp). destruct (page_phys v Hv) as (Hz & Hvr & Hpv). rewrite Hp. rewrite PTE_ADDR_add, Hpv by done.
        rewrite (proj1 (mapped_entry _ _ _ _ _ _ _ _ H Eu)).
        rewrite (proj2 (Z.eqb_neq (V2P v) 0)) by (by apply frame_nonzero). destruct (unmap_step r l d T U i v g H Eu) as (t' & Ht' & Hun). rewrite Ht in Ht'. injection Ht' as <-.
        destruct (Hun _ eq_refl) as [H1 S1]. set (m1 := store32 _ _ _) in *. rewrite (bind_ret _ _ _ tt (with_res s (remem r m1 v))); cycle 1.
        { rewrite (bind_ret _ _ _ _ _ (kfree_solo Hsolo v r Hv)). unfold kstore, rmod, modify. by rewrite Ha1. }
        destruct (IH (i + 1) (remem r m1 v) (v :: l) (delete i U)) as (m & f & l' & U' & E & H' & Hun' & S); [done|lia|done|lia|]. exists m, f, l', U'.
        change (remem (remem r m1 v) m f) with (remem r m f) in *. split; [done|]. split; [done|]. split; [eapply unmapped_step; [lia|done|done]|].
        eapply same_but_trans; (eapply same_but_mono; [eassumption|]).
        -- intros w [->|?]; [right; exists i, g; split; [lia|done]|by left].
        -- intros w [?|(k & h & Hr & Hk)]; [by left|]. apply lookup_delete_Some in Hk as [_ Hk]. right. exists k, h. split; [lia|done].
      * rewrite (u_none _ _ _ _ _ H i) by (done || lia). rewrite (bind_ret _ _ _ tt (with_res s r)) by done.
        destruct (IH (i + 1) r l U) as (m & f & l' & U' & E & H' & Hun' & S); [done|lia|done|lia|]. exists m, f, l', U'. split; [done|]. split; [done|]. split; [|eapply same_but_mono; [exact S|]; intros w [?|(k & h & Hr & Hk)]; [by left|right; exists k, h; split; [lia|done]]].
        eapply unmapped_skip; [exact Hun'|lia|]. intros k Hk. by replace k with i by lia.
    + rewrite (bind_ret _ _ _ _ _ (walk_none V Hva ltac:(by rewrite Ei))). cbn [Z.eqb]. rewrite skip_table by lia.
      pose proof (Z.div_mod i 1024 ltac:(lia)). pose proof (Z.mod_pos_bound i 1024 ltac:(lia)).
      destruct (IH (1024 * (i / 1024 + 1)) r l U) as (m & f & l' & U' & E & H' & Hun & S); [done|lia|done|lia|]. exists m, f, l', U'. split; [done|]. split; [done|]. split; [|eapply same_but_mono; [exact S|]; intros w [?|(k & h & Hr & Hk)]; [by left|right; exists k, h; split; [lia|done]]].
      eapply unmapped_skip; [exact Hun|lia|]. intros k Hk. destruct (U !! k) as [[v g]|] eqn:Ek; [|done]. exfalso. destruct (u_some _ _ _ _ _ H _ _ _ Ek) as (_ & Hv & _ & _ & Hg & Ho & Hp).
      unfold pte in Hp. replace (k / 1024) with (i / 1024) in Hp; [|pose proof (Z.div_mod k 1024 ltac:(lia)); pose proof (Z.mod_pos_bound k 1024 ltac:(lia)); lia]. rewrite Ht in Hp.
      destruct (page_phys v Hv) as (_ & ? & _). assert (g = 0) as -> by lia. done.
Qed.

Lemma PGROUNDUP_div a : 0 ≤ a → a + 4096 < 2 ^ 32 → PGROUNDUP a = 4096 * ((a + 4095) / 4096).
Proof.
  intros Ha Hb. unfold PGROUNDUP, PGSIZE. replace (a + 4096 - 1) with (a + 4095) by lia. change (4096 - 1) with 0xFFF. fold (PTE_ADDR (a + 4095)). rewrite PTE_ADDR_div.
  unfold u32. apply Z.mod_small. pose proof (Z.mul_div_le (a + 4095) 4096 ltac:(lia)). pose proof (Z.div_pos (a + 4095) 4096 ltac:(lia) ltac:(lia)). lia.
Qed.

Lemma deallocuvm_spec oldsz newsz r l d T U : uvm r l d T U → 0 ≤ newsz < oldsz → oldsz ≤ KERNBASE →
  ∃ m f l' U', deallocuvm d oldsz newsz (with_res s r) = Ret newsz (with_res s (remem r m f)) ∧ uvm (remem r m f) l' d T U' ∧
    unmapped ((newsz + 4095) / 4096) ((oldsz + 4095) / 4096) U U' l l' ∧ same_but (unmap_page d T U ((newsz + 4095) / 4096) ((oldsz + 4095) / 4096)) (pmem r) m.
Proof.
  intros H Hsz Hold. unfold deallocuvm. rewrite (proj2 (Z.leb_gt _ _)) by lia. rewrite PGROUNDUP_div by (unfold KERNBASE in *; lia).
  destruct (dealloc_loop (S (Z.to_nat (oldsz / PGSIZE))) ((newsz + 4095) / 4096) oldsz r l d T U H) as (m & f & l' & U' & E & H' & Hun & S); [apply Z.div_pos; lia|done| |].
  - unfold PGSIZE. pose proof (Z.div_pos (newsz + 4095) 4096 ltac:(lia) ltac:(lia)). pose proof (Z.div_mod oldsz 4096 ltac:(lia)). pose proof (Z.mod_pos_bound oldsz 4096 ltac:(lia)).
    assert ((oldsz + 4095) / 4096 < oldsz / 4096 + 2) by (apply Z.div_lt_upper_bound; lia). lia.
  - exists m, f, l', U'. by rewrite (bind_ret _ _ _ _ _ E).
Qed.

(** [freevm] gives back every page of the address space. *)
Lemma free_tables r l d T : vm r l d T →
  ∃ m f l', for_range 0 NPDENTRIES (fun i => v <- kload (u32 (d + 4 * Z.of_nat i)) ;; if has v PTE_P then kfree (P2V (PTE_ADDR v)) else ret tt) (with_res s r) =
      Ret tt (with_res s (remem r m f)) ∧ kmem_ok (remem r m f) l' ∧ (∀ v, v ∈ l' ↔ v ∈ l ∨ ∃ i, T !! i = Some v) ∧ same_but (fun v => ∃ i, T !! i = Some v) (pmem r) m.
Proof.
  intros H. pose proof H as [A1 [A2 A2'] A3 A4 A5].
  set (I := fun (i : nat) (st : kstate) => ∃ m f l', st = with_res s (remem r m f) ∧ kmem_ok (remem r m f) l' ∧
    (∀ v, v ∈ l' ↔ v ∈ l ∨ ∃ j, 0 ≤ j < Z.of_nat i ∧ T !! j = Some v) ∧ same_but (fun v => ∃ i, T !! i = Some v) (pmem r) m).
  destruct (runs_for_range (fun i => v <- kload (u32 (d + 4 * Z.of_nat i)) ;; if has v PTE_P then kfree (P2V (PTE_ADDR v)) else ret tt) I 0 NPDENTRIES (with_res s r)) as ([] & st & E & m & f & l' & -> & K & Hl & S).
  - exists (pmem r), (freelist r), l. assert (remem r (pmem r) (freelist r) = r) as -> by (by destruct r). split; [done|]. split; [done|]. split; [|done].
    intros v. split; [by left|]. intros [?|(j & ? & _)]; [done|lia].
  - intros i st Hi (m & f & l' & -> & K & Hl & S). unfold NPDENTRIES in Hi. destruct (page_word d (Z.of_nat i) A2 ltac:(lia)) as [Hw _].
    assert (load32 m (V2P d + 4 * Z.of_nat i) = load32 (pmem r) (V2P d + 4 * Z.of_nat i)) as Hld.
    { eapply same_but_load; [exact S|intros w (j & Hj); by destruct (A3 _ _ Hj) as (_ & ? & _)|done| |lia]. intros (j & Hj). by destruct (A3 _ _ Hj) as (_ & _ & _ & ? & _). }
    unfold runs. rewrite (bind_ret _ _ _ _ _ (kload_at _ (remem r m f))), Hw. change (pmem (remem r m f)) with m. rewrite Hld, has_P_odd.
    destruct (T !! Z.of_nat i) as [t|] eqn:Ht.
    + destruct (A3 _ _ Ht) as (_ & B2 & B3 & B4 & ->). destruct (page_phys t B2) as (Hz & _ & Hpt). rewrite PTE_ADDR_add, Hpt by (done || lia).
      rewrite Z.odd_add. apply Z.mod_divide in Hz as [a Hz]; [|lia]. rewrite Hz, Z.odd_mul, andb_false_r. cbn [xorb Z.odd].
      rewrite (kfree_solo Hsolo t _ B2). destruct (freed_remem t (remem r m f)) as (m1 & E1 & S1). rewrite E1. exists tt, (with_res s (remem r m1 t)). split; [done|].
      exists m1, t, (t :: l'). split; [done|]. assert (t ∉ l') as Hn.
      { rewrite Hl. intros [?|(j & Hj & Hj')]; [done|]. pose proof (A5 _ _ _ Ht Hj'). lia. }
      split; [pose proof (kmem_ok_freed t _ l' K B2 Hn) as K1; by rewrite E1 in K1|]. split.
      * intros v. rewrite elem_of_cons, Hl. split.
        -- intros [->|[?|(j & ? & ?)]]; [right; exists (Z.of_nat i); split; [lia|done]|by left|right; exists j; split; [lia|done]].
        -- intros [?|(j & Hj & Hj')]; [by right; left|]. destruct (decide (j = Z.of_nat i)) as [->|]; [left; congruence|]. right. right. exists j. split; [lia|done].
      * eapply same_but_trans; [exact S|]. eapply same_but_mono; [exact S1|]. intros w <-. by exists (Z.of_nat i).
    + rewrite A4 by (done || lia). exists tt, (with_res s (remem r m f)). split; [done|]. exists m, f, l'. split; [done|]. split; [done|]. split; [|done].
      intros v. rewrite Hl. split; (intros [?|(j & ? & Hj)]; [by left|right; exists j; split; [|done]]); [lia|]. split; [lia|]. destruct (decide (j = Z.of_nat i)) as [->|]; [congruence|lia].
  - exists m, f, l'. split; [exact E|]. split; [done|]. split; [|done]. intros v. rewrite Hl. split; (intros [?|(j & Hj)]; [by left|right]); [by exists j; destruct Hj|].
    exists j. split; [|done]. destruct (A3 _ _ Hj) as (? & _). assert (Z.of_nat (0 + NPDENTRIES) = 1024) by done. lia.
Qed.

Lemma freevm_spec r l d T U : uvm r l d T U →
  ∃ m f l', freevm d (with_res s r) = Ret tt (with_res s (remem r m f)) ∧ kmem_ok (remem r m f) l' ∧
    (∀ v, v ∈ l' ↔ v ∈ l ∨ space_page d T U v) ∧ same_but (space_page d T U) (pmem r) m.
Proof.
  intros H. destruct (vm_dir _ _ _ _ (u_vm _ _ _ _ _ H)) as [Hd Hdl]. pose proof (page_pos d Hd). unfold freevm. rewrite (proj2 (Z.eqb_neq d 0)) by lia.
  destruct (deallocuvm_spec KERNBASE 0 r l d T U H) as (m1 & f1 & l1 & U1 & E1 & H1 & Hun & S1); [unfold KERNBASE; lia|done|]. rewrite (bind_ret _ _ _ _ _ E1). clear E1.
  destruct (free_tables _ _ _ _ (u_vm _ _ _ _ _ H1)) as (m2 & f2 & l2 & E2 & K2 & Hl2 & S2). rewrite (bind_ret _ _ _ _ _ E2). clear E2.
  change (remem (remem r m1 f1) m2 f2) with (remem r m2 f2) in *. rewrite (kfree_solo Hsolo d _ Hd). destruct (freed_remem d (remem r m2 f2)) as (m3 & E3 & S3). rewrite E3.
  exists m3, d, (d :: l2). split; [done|]. assert (d ∉ l2) as Hn.
  { rewrite Hl2. intros [Hin|(i & Hi)]; [by apply (vm_dir _ _ _ _ (u_vm _ _ _ _ _ H1))|]. by destruct (vm_table _ _ _ _ (u_vm _ _ _ _ _ H) _ _ Hi) as (_ & _ & _ & ? & _). }
  split; [pose proof (kmem_ok_freed d _ l2 K2 Hd Hn) as K3; by rewrite E3 in K3|]. split.
  - intros v. rewrite elem_of_cons, Hl2, (um_free _ _ _ _ _ _ Hun). unfold space_page, dir_page. change ((0 + 4095) / 4096) with 0. change ((KERNBASE + 4095) / 4096) with UPAGES. split.
    + intros [->|[[?|(n & g & _ & Hn')]|?]]; [auto|auto|right; right; by exists n, g|auto].
    + intros [?|[[->|?]|(n & g & Hn')]]; [auto|auto|auto|]. right. left. right. exists n, g. split; [|done]. by destruct (u_some _ _ _ _ _ H _ _ _ Hn') as (? & _).
  - eapply same_but_trans; [eapply same_but_mono; [exact S1|]; intros v [?|(n & g & _ & ?)]; [by left|right; by exists n, g]|].
    eapply same_but_trans; (eapply same_but_mono; [eassumption|]); [intros v ?; left; by right|intros v <-; left; by left].
Qed.

(** ** The kernel half *)

Definition km_size (k : kmapent) : Z := u32 (km_end k - km_start k).
Definition km_first (k : kmapent) : Z := km_virt k / 4096.
Definition km_pages (k : kmapent) (n : Z) : Prop := km_first k ≤ n < km_first k + km_size k / 4096.
Record km_ok (k : kmapent) : Prop := {
  km_aligned : km_virt k mod 4096 = 0 ∧ km_start k mod 4096 = 0 ∧ km_size k mod 4096 = 0;
  km_range : KERNBASE ≤ km_virt k ∧ 0 ≤ km_start k ∧ 0 < km_size k ∧ km_virt k + km_size k ≤ 2 ^ 32 ∧ km_start k + km_size k ≤ 2 ^ 32;
  km_perms : 0 ≤ km_perm k < 4096 }.

Lemma map_kernel_spec ks r l d T : vm r l d T → Forall km_ok ks → ForallOrdPairs (fun k k' => ∀ n, km_pages k n → ¬ km_pages k' n) ks →
  (∀ k n, k ∈ ks → km_pages k n → Z.odd (pte (pmem r) T n) = false) →
  ∃ b m f l' T' new, map_kernel d ks (with_res s r) = Ret b (with_res s (remem r m f)) ∧ vm (remem r m f) l' d T' ∧ more_tables l T l' T' new ∧
    same_but (dir_page d T') (pmem r) m ∧ (b = true → l' = []) ∧
    (∀ n, 0 ≤ n → (∀ k, k ∈ ks → ¬ km_pages k n) → pte m T' n = pte (pmem r) T n) ∧
    (b = false → ∀ k n, k ∈ ks → km_pages k n → pte m T' n = km_start k + 4096 * (n - km_first k) + Z.lor (km_perm k) PTE_P).
Proof.
  intros H Hok. revert r l T H. induction Hok as [|k ks Hk Hks IH]; intros r l T H Hdis Hfree; cbn [map_kernel].
  - exists false, (pmem r), (freelist r), l, T, []. assert (remem r (pmem r) (freelist r) = r) as -> by (by destruct r).
    split; [done|]. split; [done|]. split; [apply more_tables_refl|]. split; [done|]. split; [done|]. split; [done|]. intros _ k n Hk. by apply elem_of_nil in Hk.
  - inversion_clear Hdis as [|? ? Hd1 Hd2]. pose proof Hk as [(K1 & K2 & K3) (K4 & K5 & K6 & K7 & K8) K9]. fold (km_size k). unfold KERNBASE in K4.
    assert ((km_virt k + km_size k - 1) / 4096 - km_virt k / 4096 + 1 = km_size k / 4096) as Hcnt.
    { apply Z.mod_divide in K1 as [a Ha]; [|lia]. apply Z.mod_divide in K3 as [b Hb]; [|lia]. rewrite Ha, Hb, !Z.div_mul by lia.
      replace (a * 4096 + b * 4096 - 1) with ((a + b - 1) * 4096 + 4095) by lia. rewrite Z.div_add_l by lia. change (4095 / 4096) with 0. lia. }
    assert (0 < km_size k / 4096) as Hpos by (apply Z.mod_divide in K3 as [b Hb]; [|lia]; rewrite Hb, Z.div_mul by lia; lia).
    destruct (mappages_spec Hsolo (km_virt k) (km_size k) (km_start k) (km_perm k) r l d T) as (x & m1 & f1 & l1 & T1 & new1 & j & E & V1 & M1 & S1 & O1 & P1); [done|lia|done|done|done|done| |done| |].
    + rewrite Hcnt. apply Z.mod_divide in K3 as [b Hb]; [|lia]. rewrite Hb, Z.div_mul by lia. lia.
    + intros n Hn. apply (Hfree k); [by left|]. unfold km_pages, km_first. lia.
    + rewrite (bind_ret _ _ _ _ _ E). clear E. fold (km_first k) in O1, P1, Hcnt. destruct O1 as [[-> Hj]|(-> & Hj & ->)].
      * cbn [Z.ltb Z.compare]. replace j with (km_size k / 4096) in P1 by lia. destruct (IH (remem r m1 f1) l1 T1) as (b & m & f & l' & T' & new & E & V & M & S & Hb & Hsame & Hmap); [done|done| |].
        -- intros k' n Hk' Hn. change (pmem (remem r m1 f1)) with m1. rewrite P1, decide_False; [apply (Hfree k'); [by right|done]| |].
           ++ intros Hin. eapply Forall_forall in Hd1; [|exact Hk']. by eapply Hd1.
           ++ rewrite Forall_forall in Hks. destruct (Hks k' Hk') as [_ (Hv & _) _]. unfold km_pages, km_first in Hn. pose proof (Z.div_pos (km_virt k') 4096). unfold KERNBASE in Hv. lia.
        -- change (remem (remem r m1 f1) m f) with (remem r m f) in *. change (pmem (remem r m1 f1)) with m1 in *. exists b, m, f, l', T', (new1 ++ new). split; [exact E|]. split; [done|].
           split; [by eapply more_tables_trans|]. split; [eapply same_but_trans; [eapply same_but_mono; [exact S1|]; intros v; apply dir_page_mono, (mt_old _ _ _ _ _ M)|exact S]|].
           split; [done|]. split.
           ++ intros n Hn Hno. rewrite Hsame by (done || (intros k' ?; apply Hno; by right)). rewrite P1 by done. rewrite decide_False; [done|]. apply (Hno k). by left.
           ++ intros Hbf k' n Hk' Hn. apply elem_of_cons in Hk' as [->|Hk']; [|by apply Hmap]. assert (0 ≤ n) by (unfold km_pages, km_first in Hn; pose proof (Z.div_pos (km_virt k) 4096); lia).
              rewrite Hsame; [rewrite P1 by done; by rewrite decide_True|done|]. intros k' Hk' Hn'. rewrite Forall_forall in Hd1. by eapply Hd1.
      * cbn [Z.ltb Z.compare]. exists true, m1, f1, [], T1, new1. split; [done|]. split; [done|]. split; [done|]. split; [done|]. split; [done|]. split; [|done].
        intros n Hn Hno. rewrite P1 by done. rewrite decide_False; [done|]. intros Hin. apply (Hno k); [by left|]. unfold km_pages. lia.
Qed.

Lemma tables_bound r l d T : vm r l d T → (size T ≤ 1024)%nat.
Proof.
  intros H. rewrite <- length_map_to_list, <- (length_fmap fst). change 1024%nat with (length (seqZ 0 1024)). apply submseteq_length, NoDup_submseteq; [apply NoDup_fst_map_to_list|].
  intros i Hi. apply list_elem_of_fmap in Hi as ([j t] & -> & Hj). apply elem_of_map_to_list in Hj. apply elem_of_seqZ. by destruct (vm_table _ _ _ _ H _ _ Hj) as (? & _).
Qed.

Definition km_low : kmapent := mk_kmap KERNBASE 0 EXTMEM PTE_W.
Definition km_text : kmapent := mk_kmap KERNLINK (V2P KERNLINK) (V2P kdata) 0.
Definition km_data : kmapent := mk_kmap kdata (V2P kdata) PHYSTOP PTE_W.
Definition km_dev : kmapent := mk_kmap DEVSPACE DEVSPACE 0 PTE_W.
Lemma data_phys : V2P kdata = 4096 * (kdata / 4096 - 524288) ∧ kdata = 4096 * (kdata / 4096) ∧ 524544 < kdata / 4096 < 581632.
Proof.
  destruct HL as [[D1 D2] [D3 D4]]. unfold KERNLINK, KERNBASE, PHYSTOP, EXTMEM in *. pose proof (Z.div_mod kdata 4096 ltac:(lia)) as Hk. rewrite D1 in Hk.
  unfold V2P, u32, KERNBASE. rewrite Z.mod_small; lia.
Qed.
Lemma km_sizes : km_size km_text = (kdata / 4096 - 524544) * 4096 ∧ km_size km_data = (581632 - kdata / 4096) * 4096.
Proof.
  destruct data_phys as (H1 & H2 & H3). unfold km_size, km_text, km_data. cbn [km_end km_start]. rewrite H1. change (V2P KERNLINK) with 0x100000. unfold PHYSTOP, u32. rewrite !Z.mod_small; lia.
Qed.
Lemma km_ranges n : (km_pages km_low n ↔ 524288 ≤ n < 524544) ∧ (km_pages km_text n ↔ 524544 ≤ n < kdata / 4096) ∧
  (km_pages km_data n ↔ kdata / 4096 ≤ n < 581632) ∧ (km_pages km_dev n ↔ 1040384 ≤ n < 1048576).
Proof.
  destruct km_sizes as [S1 S2]. split; [done|]. split; [|split; [|done]]; unfold km_pages; rewrite ?S1, ?S2, Z.div_mul by lia; [change (km_first _) with 524544|change (km_first _) with (kdata / 4096)]; lia.
Qed.

Lemma kmap_ok : Forall km_ok kmap ∧ ForallOrdPairs (fun k k' => ∀ n, km_pages k n → ¬ km_pages k' n) kmap.
Proof.
  change kmap with [km_low; km_text; km_data; km_dev]. destruct km_sizes as [S1 S2]. destruct data_phys as (D1 & D2 & D3). set (a := kdata / 4096) in *. split.
  - apply Forall_cons. split; [by split; vm_compute|]. apply Forall_cons. split; [|apply Forall_cons; split; [|apply Forall_cons; split; [by split; vm_compute|constructor]]].
    + split; rewrite ?S1; cbn [km_virt km_start km_perm km_text]; change (V2P KERNLINK) with 0x100000; change KERNLINK with 0x80100000; [split; [done|split; [done|apply Z.mod_mul; lia]]|unfold KERNBASE; lia|lia].
    + split; rewrite ?S2; cbn [km_virt km_start km_perm km_data]; rewrite ?D1; unfold KERNBASE, PTE_W; [|lia|lia]. rewrite D2, !(Z.mul_comm 4096), !Z.mod_mul by lia. done.
  - assert (∀ n, _) as R by exact km_ranges. repeat apply FOP_cons; try apply FOP_nil; repeat apply Forall_cons_2; try apply Forall_nil_2;
      intros n; destruct (R n) as (P0 & P1 & P2 & P3); rewrite ?P0, ?P1, ?P2, ?P3; fold a; lia.
Qed.

(** The entry of a page of the kernel half. *)
Definition kpte (n : Z) : Z :=
  if decide (524288 ≤ n < 524544) then 4096 * (n - 524288) + 3
  else if decide (524544 ≤ n < kdata / 4096) then 4096 * (n - 524288) + 1
  else if decide (kdata / 4096 ≤ n < 581632) then 4096 * (n - 524288) + 3
  else if decide (1040384 ≤ n < 1048576) then 4096 * n + 3 else 0.

Lemma kernel_half pt old : (∀ n, 0 ≤ n → old n = 0) →
  (∀ n, 0 ≤ n → (∀ k, k ∈ kmap → ¬ km_pages k n) → pt n = old n) →
  (∀ k n, k ∈ kmap → km_pages k n → pt n = km_start k + 4096 * (n - km_first k) + Z.lor (km_perm k) PTE_P) →
  ∀ n, 524288 ≤ n → pt n = kpte n.
Proof.
  intros Ho Hs Hm n Hn. destruct (km_ranges n) as (P0 & P1 & P2 & P3). destruct data_phys as (D1 & D2 & D3). unfold kpte. repeat case_decide.
  - rewrite (Hm km_low) by (rewrite ?P0; (done || by left)). change (km_first km_low) with 524288. change (km_start km_low) with 0. change (Z.lor (km_perm km_low) PTE_P) with 3. lia.
  - rewrite (Hm km_text) by (rewrite ?P1; (done || by right; left)). change (km_first km_text) with 524544. change (km_start km_text) with 0x100000. change (Z.lor (km_perm km_text) PTE_P) with 1. lia.
  - rewrite (Hm km_data) by (rewrite ?P2; (done || by right; right; left)). change (km_first km_data) with (kdata / 4096). change (km_start km_data) with (V2P kdata). rewrite D1. change (Z.lor (km_perm km_data) PTE_P) with 3. lia.
  - rewrite (Hm km_dev) by (rewrite ?P3; (done || by do 3 right; left)). change (km_first km_dev) with 1040384. change (km_start km_dev) with (4096 * 1040384). change (Z.lor (km_perm km_dev) PTE_P) with 3. lia.
  - rewrite Hs; [apply Ho; lia|lia|]. change kmap with [km_low; km_text; km_data; km_dev]. intros k Hk. rewrite !elem_of_cons, elem_of_nil in Hk.
    destruct Hk as [->|[->|[->|[->|[]]]]]; [rewrite P0|rewrite P1|rewrite P2|rewrite P3]; done.
Qed.

(** ** Building an address space *)

Lemma vm_new r d l : kmem_ok r (d :: l) → let m := memset (pmem r) (V2P d) 0 PGSIZE in let f := load32 (pmem r) (V2P d) in
  vm (remem r m f) l d ∅ ∧ (∀ n, pte m ∅ n = 0) ∧ same_but (eq d) (pmem r) m.
Proof.
  intros Hk m f. destruct (kmem_pop _ _ _ Hk) as (_ & Hd & Hdl & Hk'). pose proof (same_but_memset d 0 (pmem r)) as S. split; [|split; [|done]].
  - split; [|done|done| |done].
    + change (remem r m f) with ((r <| freelist := load32 (pmem r) (V2P d) |>) <| pmem := m |>). eapply kmem_ok_same; [done|exact S|]. by intros v <-.
    + intros i Hi _. change (pmem (remem r m f)) with m. unfold m. by rewrite load_memset.
  - intros n. unfold pte. by rewrite lookup_empty.
Qed.

(** The free list with the same pages. *)
Definition all_back (r : kres) (l : list Z) (m : mem) (f : Z) : Prop := ∃ l', kmem_ok (remem r m f) l' ∧ l' ≡ₚ l ∧ same_but (fun v => v ∈ l) (pmem r) m.
Lemma all_back_intro r l m f l' P : kmem_ok r l → kmem_ok (remem r m f) l' → (∀ v, v ∈ l' ↔ v ∈ l) → same_but P (pmem r) m → (∀ v, P v → v ∈ l) → all_back r l m f.
Proof.
  intros K K' Hl S HP. exists l'. split; [done|]. split; [apply NoDup_Permutation; [apply (kmem_nodup _ _ K')|apply (kmem_nodup _ _ K)|done]|]. by eapply same_but_mono.
Qed.

(** What [setupkvm] makes: an empty user half and the kernel half, out of pages
    from the front of the free list. *)
Record fresh_space (r : kres) (l : list Z) (m : mem) (f : Z) (l' : list Z) (d : Z) (T : gmap Z Z) : Prop := {
  fs_uvm : uvm (remem r m f) l' d T ∅;
  fs_kernel : ∀ n, 524288 ≤ n → pte m T n = kpte n;
  fs_pages : ∀ v, v ∈ l ↔ v ∈ l' ∨ dir_page d T v;
  fs_count : length l = (length l' + 1 + size T)%nat;
  fs_same : same_but (dir_page d T) (pmem r) m }.

Lemma setupkvm_spec r l : kmem_ok r l →
  ∃ x m f, setupkvm (with_res s r) = Ret x (with_res s (remem r m f)) ∧
    ((x = 0 ∧ (length l ≤ 1025)%nat ∧ all_back r l m f) ∨ ∃ l' T, fresh_space r l m f l' x T).
Proof.
  intros Hk. unfold setupkvm. destruct l as [|d l].
  - rewrite (bind_ret _ _ _ _ _ (kalloc_nil Hsolo r Hk)). exists 0, (pmem r), (freelist r). assert (remem r (pmem r) (freelist r) = r) as Er by (by destruct r). rewrite Er.
    split; [done|]. left. split; [done|]. split; [cbn; lia|]. exists []. by rewrite Er.
  - rewrite (bind_ret _ _ _ _ _ (kalloc_cons Hsolo r d l Hk)). destruct (kmem_pop _ _ _ Hk) as (_ & Hd & Hdl & _). pose proof (page_pos d Hd). rewrite (proj2 (Z.eqb_neq d 0)) by lia.
    destruct (vm_new r d l Hk) as (V0 & P0 & S0). set (m0 := memset (pmem r) (V2P d) 0 PGSIZE) in *. set (f0 := load32 (pmem r) (V2P d)) in *.
    rewrite (bind_ret _ _ _ tt (with_res s (remem r m0 f0))) by done. change (DEVSPACE <? P2V PHYSTOP) with false. cbv iota. destruct kmap_ok as [Kok Kdis].
    destruct (map_kernel_spec kmap (remem r m0 f0) l d ∅ V0 Kok Kdis) as (b & m & f & l' & T & new & E & V & M & S & Hb & Hsame & Hmap); [intros k n _ _; change (pmem (remem r m0 f0)) with m0; by rewrite P0|].
    change (remem (remem r m0 f0) m f) with (remem r m f) in *. change (pmem (remem r m0 f0)) with m0 in *. rewrite (bind_ret _ _ _ _ _ E). clear E.
    assert (uvm (remem r m f) l' d T ∅) as HU.
    { split; [done|done| |done]. intros n Hn _. change (pmem (remem r m f)) with m. rewrite Hsame; [by rewrite P0|lia|]. intros k Hk' Hkn. rewrite Forall_forall in Kok. destruct (Kok k Hk') as [_ (Hv & _) _].
      unfold km_pages, km_first, KERNBASE, UPAGES in *. pose proof (Z.div_le_mono 2147483648 (km_virt k) 4096 ltac:(lia) ltac:(lia)). change (2147483648 / 4096) with 524288 in *. lia. }
    assert (∀ v, v ∈ d :: l ↔ v ∈ l' ∨ dir_page d T v) as Hpg.
    { intros v. rewrite elem_of_cons, (mt_taken _ _ _ _ _ M), elem_of_app. split.
      - intros [->|[Hv|Hv]]; [right; by left|right; right; by apply (mt_all _ _ _ _ _ M)|by left].
      - intros [?|[->|(i & Hi)]]; [auto|auto|]. destruct (mt_new _ _ _ _ _ M _ _ Hi) as [Hi'|?]; [by rewrite lookup_empty in Hi'|auto]. }
    assert (same_but (dir_page d T) (pmem r) m) as Sm by (eapply same_but_trans; [eapply same_but_mono; [exact S0|]; intros v <-; by left|exact S]).
    assert (length (d :: l) = (length l' + 1 + size T)%nat) as Hc by (cbn [length]; rewrite (mt_taken _ _ _ _ _ M), (mt_size _ _ _ _ _ M), length_app, map_size_empty; lia).
    destruct b.
    + specialize (Hb eq_refl). destruct (freevm_spec _ _ _ _ _ HU) as (m1 & f1 & l1 & E1 & K1 & Hl1 & S1). rewrite (bind_ret _ _ _ _ _ E1). change (remem (remem r m f) m1 f1) with (remem r m1 f1) in *.
      exists 0, m1, f1. split; [done|]. left. split; [done|]. split; [rewrite Hc, Hb; pose proof (tables_bound _ _ _ _ V); cbn [length]; lia|].
      eapply all_back_intro; [done|done| |eapply same_but_trans; [exact Sm|eapply same_but_mono; [exact S1|]]|].
      * intros v. rewrite Hl1, Hpg. unfold space_page. split; [intros [?|[?|(n & g & Hn)]]; auto; by rewrite lookup_empty in Hn|]. intros [?|?]; auto.
      * intros v [?|(n & g & Hn)]; [done|by rewrite lookup_empty in Hn].
      * intros v Hv. apply Hpg. by right.
    + exists d, m, f. split; [done|]. right. exists l', T. split; [done| |done|done|done]. by apply (kernel_half (pte m T) (pte m0 ∅)); [intros; apply P0|done|apply Hmap].
Qed.

(** More tables, the same mappings. *)
Lemma uvm_tables r l d T U r' l' T' new : uvm r l d T U → vm r' l' d T' → more_tables l T l' T' new →
  (∀ n, 0 ≤ n < UPAGES → pte (pmem r') T' n = pte (pmem r) T n) → uvm r' l' d T' U.
Proof.
  intros [V B1 B2 B3] V' M Hp. split; [done| | |done].
  - intros n v f Hn. destruct (B1 _ _ _ Hn) as (C1 & C2 & C3 & C4 & C5 & C6 & C7). rewrite Hp by done. rewrite (mt_taken _ _ _ _ _ M), not_elem_of_app in C3.
    split; [done|]. split; [done|]. split; [apply C3|]. split; [|done]. intros [->|(i & Hi)]; [apply C4; by left|]. destruct (mt_new _ _ _ _ _ M _ _ Hi); [apply C4; right; by exists i|by destruct C3 as [C3 _]].
  - intros n Hn Hu. rewrite Hp by done. by apply B2.
Qed.
(** More tables and one more page. *)
Lemma uvm_insert r l d T U r' l' T' new i v f : uvm r l d T U → vm r' l' d T' → more_tables l T l' T' new →
  0 ≤ i < UPAGES → U !! i = None → page_ok v → v ∉ l → ¬ space_page d T U v → 0 ≤ f < 4096 → Z.odd f = true →
  (∀ n, 0 ≤ n < UPAGES → pte (pmem r') T' n = if decide (n = i) then V2P v + f else pte (pmem r) T n) → uvm r' l' d T' (<[i := (v, f)]> U).
Proof.
  intros [V B1 B2 B3] V' M Hi Hu Hv Hvl Hvs Hf Ho Hp.
  assert (∀ w, w ∉ l → ¬ dir_page d T w → w ∉ l' ∧ ¬ dir_page d T' w) as Hold.
  { intros w C3 C4. rewrite (mt_taken _ _ _ _ _ M), not_elem_of_app in C3. destruct C3 as [C3 C3']. split; [done|].
    intros [->|(k & Hk)]; [apply C4; by left|]. destruct (mt_new _ _ _ _ _ M _ _ Hk); [apply C4; right; by exists k|done]. }
  split; [done|..].
  - intros n w g Hn. apply lookup_insert_Some in Hn as [[<- [= <- <-]]|[Hne Hn]].
    + rewrite Hp, decide_True by done. destruct (Hold v) as [? ?]; [done|intros Hd; apply Hvs; by left|]. done.
    + destruct (B1 _ _ _ Hn) as (C1 & C2 & C3 & C4 & C5). destruct (Hold w C3 C4). rewrite Hp, decide_False by (done || congruence). done.
  - intros n Hn Hun. apply lookup_insert_None in Hun as [Hun Hne]. rewrite Hp, decide_False by (done || congruence). by apply B2.
  - intros n n' w g g' Hn Hn'. apply lookup_insert_Some in Hn as [[<- E1]|[Hne Hn]], Hn' as [[<- E2]|[Hne' Hn']]; [done| | |by eapply B3]; simplify_eq.
    + exfalso. apply Hvs. right. by eauto.
    + exfalso. apply Hvs. right. by eauto.
Qed.

Lemma lor_odd f : 0 ≤ f → Z.odd f = true → Z.lor f PTE_P = f.
Proof.
  intros Hf Ho. apply Z.bits_inj'. intros n Hn. rewrite Z.lor_spec. unfold PTE_P. destruct (Z.eq_dec n 0) as [->|]; [rewrite Z.bit0_odd, Ho; done|].
  rewrite (Z.bits_above_log2 1 n), orb_false_r by (cbn; lia). done.
Qed.

(** ** Copying an address space *)

(** Pages [0 .. i) of the address space [U] as it was in [r0] have been copied
    to the address space [d'], which was made of pages of [l0]. *)
Record copied (r0 : kres) (l0 : list Z) (U : gmap Z (Z * Z)) (i : Z) (m : mem) (f : Z) (l : list Z) (d' : Z) (T' : gmap Z Z) (U' : gmap Z (Z * Z)) : Prop := {
  cp_uvm : uvm (remem r0 m f) l d' T' U';
  cp_kernel : ∀ n, 524288 ≤ n → pte m T' n = kpte n;
  cp_pages : ∀ v, v ∈ l0 ↔ v ∈ l ∨ space_page d' T' U' v;
  cp_count : Z.of_nat (length l0) = Z.of_nat (length l) + 1 + Z.of_nat (size T') + i;
  cp_same : same_but (fun v => v ∈ l0) (pmem r0) m;
  cp_done : ∀ n, 0 ≤ n < i → ∃ v g v', U !! n = Some (v, g) ∧ U' !! n = Some (v', g) ∧ ∀ j, 0 ≤ j < 4096 → m (V2P v' + j) = pmem r0 (V2P v + j);
  cp_rest : ∀ n, i ≤ n → U' !! n = None }.

Section copy.
Context {r0 : kres} {l0 : list Z} {d : Z} {T : gmap Z Z} {U : gmap Z (Z * Z)} (HP : uvm r0 l0 d T U) (HB : bytes (pmem r0)).

(** The page [v'] of the free list, with the contents of the page [v]. *)
Lemma copy_page m f l d' T' U' v' l1 v : uvm (remem r0 m f) l d' T' U' → l = v' :: l1 → bytes m → page_ok v → v ≠ v' →
  let m1 := memmove m (V2P v') (V2P v) (Z.to_nat PGSIZE) in let f1 := load32 m (V2P v') in
  uvm (remem r0 m1 f1) l1 d' T' U' ∧ same_but (eq v') m m1 ∧ page_ok v' ∧ v' ∉ l1 ∧ ¬ space_page d' T' U' v' ∧ ∀ j, 0 ≤ j < 4096 → m1 (V2P v' + j) = m (V2P v + j).
Proof.
  intros H -> Hb Hv Hne m1 f1. destruct (kmem_pop _ _ _ (vm_free _ _ _ _ (u_vm _ _ _ _ _ H))) as (_ & Hv' & Hn & Hk).
  assert (∀ a, m1 a = if (V2P v' <=? a) && (a <? V2P v' + 4096) then m (V2P v + (a - V2P v')) else m a) as Hm1 by (intros a; unfold m1; by rewrite memmove_correct).
  assert (same_but (eq v') m m1) as S.
  { split; [|intros _ a; rewrite Hm1; destruct (_ && _); apply Hb]. intros a Ha. rewrite Hm1. destruct (Z.leb_spec (V2P v') a), (Z.ltb_spec a (V2P v' + 4096)); try done. exfalso. apply (Ha v' eq_refl). by unfold in_page, PGSIZE. }
  assert (¬ space_page d' T' U' v') as Hs by (intros Hs; apply (space_page_ok _ _ _ _ _ _ H) in Hs as [_ Hs]; apply Hs; by left).
  split; [|split; [done|split; [done|split; [done|split; [done|]]]]].
  - change (remem r0 m1 f1) with (remem (remem r0 m f) m1 f1). eapply uvm_frame; [exact H| |intros w Hw; apply (space_page_ok _ _ _ _ _ _ H) in Hw as [_ Hw]; by apply not_elem_of_cons in Hw as [_ ?]|exact S|by intros w <-].
    change (remem (remem r0 m f) m1 f1) with (((remem r0 m f) <| freelist := f1 |>) <| pmem := m1 |>). eapply kmem_ok_same; [exact Hk|exact S|by intros w <-].
  - intros j Hj. rewrite Hm1, (proj2 (Z.leb_le _ _)), (proj2 (Z.ltb_lt _ _)) by lia. cbn [andb]. f_equal. lia.
Qed.

(** A page more, after [copy_page] and [mappages]. *)
Lemma copied_next i m f v' l1 d' T' U' v g m1 f1 m2 f2 l2 T2 new :
  copied r0 l0 U i m f (v' :: l1) d' T' U' → U !! i = Some (v, g) → 0 ≤ i →
  uvm (remem r0 m1 f1) l1 d' T' U' → same_but (eq v') m m1 → (∀ j, 0 ≤ j < 4096 → m1 (V2P v' + j) = m (V2P v + j)) →
  vm (remem r0 m2 f2) l2 d' T2 → more_tables l1 T' l2 T2 new → same_but (dir_page d' T2) m1 m2 →
  mapped_pages i 1 (V2P v') g (pte m1 T') (pte m2 T2) → copied r0 l0 U (i + 1) m2 f2 l2 d' T2 (<[i := (v', g)]> U').
Proof.
  intros [C1 C2 C3 C4 C5 C6 C7] Hu Hi H1 S1 Hcopy V2 M S2 P2. destruct (u_some _ _ _ _ _ HP _ _ _ Hu) as (Hir & Hv & Hvl & Hvd & Hg & Ho & _).
  pose proof (u_vm _ _ _ _ _ C1) as V0. destruct (kmem_pop _ _ _ (vm_free _ _ _ _ V0)) as (_ & Hv' & Hn & _).
  assert (¬ space_page d' T' U' v') as Hs by (intros Hs; apply (space_page_ok _ _ _ _ _ _ C1) in Hs as [_ Hs]; apply Hs; by left).
  assert (∀ n, 0 ≤ n → pte m2 T2 n = if decide (n = i) then V2P v' + g else pte m1 T' n) as Hp.
  { intros n Hn'. rewrite P2 by done. rewrite lor_odd by (done || lia). destruct (decide (n = i)) as [->|]; [rewrite decide_True by lia; lia|by rewrite decide_False by lia]. }
  assert (uvm (remem r0 m2 f2) l2 d' T2 (<[i := (v', g)]> U')) as H2.
  { eapply uvm_insert; [exact H1|exact V2|exact M|done|by apply C7|done|done|done|done|done|]. intros n Hn'. apply Hp. lia. }
  assert (∀ w n h, U' !! n = Some (w, h) → page_ok w ∧ w ≠ v' ∧ ¬ dir_page d' T2 w) as Hfr.
  { intros w n h Hw. destruct (u_some _ _ _ _ _ C1 _ _ _ Hw) as (_ & ? & Hwl & _). split; [done|]. split; [by intros ->; apply Hwl; left|].
    assert (n ≠ i) by (intros ->; rewrite C7 in Hw by lia; done). assert ((<[i := (v', g)]> U') !! n = Some (w, h)) as Hw2 by (by rewrite lookup_insert_ne). by destruct (u_some _ _ _ _ _ H2 _ _ _ Hw2) as (_ & _ & _ & ? & _). }
  assert (∀ w, dir_page d' T2 w → page_ok w) as Hdok by (intros w Hw; by apply (dir_page_ok _ _ _ _ _ V2) in Hw as [? _]).
  assert (¬ dir_page d' T2 v') as Hv'd by (by destruct (u_some _ _ _ _ _ H2 i v' g (lookup_insert_eq _ _ _)) as (_ & _ & _ & ? & _)).
  assert (∀ w, w ∈ l0 ↔ w ∈ l2 ∨ space_page d' T2 (<[i:=(v', g)]> U') w) as Hpg.
  { intros w. rewrite C3, elem_of_cons, (mt_taken _ _ _ _ _ M), elem_of_app. split.
    - intros [[->|[Hw|?]]|[Hw|(n & h & Hw)]]; [right; right; exists i, g; apply lookup_insert_eq|right; left; right; by apply (mt_all _ _ _ _ _ M)|by left|right; left; eapply dir_page_mono; [apply (mt_old _ _ _ _ _ M)|done]|].
      right. right. exists n, h. rewrite lookup_insert_ne; [done|]. intros <-. by rewrite C7 in Hw by lia.
    - intros [?|[[->|(k & Hk)]|(n & h & Hw)]]; [auto|right; left; by left| |].
      + destruct (mt_new _ _ _ _ _ M _ _ Hk); [right; left; right; by exists k|auto].
      + apply lookup_insert_Some in Hw as [[<- [= <- <-]]|[_ Hw]]; [auto|right; right; by exists n, h]. }
  split; [done| |done| | | |].
  - intros n Hn'. rewrite Hp, decide_False by (unfold UPAGES in *; lia). rewrite <- C2 by done. eapply (pte_same _ _ _ _ _ m1 n V0); [exact S1| |lia]. intros w <-. split; [done|]. intros Hd. apply Hs. by left.
  - rewrite (mt_size _ _ _ _ _ M). rewrite (mt_taken _ _ _ _ _ M) in C4. cbn [length] in C4. rewrite length_app in C4. lia.
  - eapply same_but_trans; [exact C5|]. eapply same_but_trans; (eapply same_but_mono; [eassumption|]); [intros w <-; apply C3; left; by left|]. intros w Hw. apply Hpg. right. by left.
  - intros n Hn'. destruct (decide (n = i)) as [->|Hne].
    + exists v, g, v'. split; [done|]. split; [apply lookup_insert_eq|]. intros j Hj. assert (in_page v' (V2P v' + j)) by (unfold in_page, PGSIZE; lia). assert (in_page v (V2P v + j)) by (unfold in_page, PGSIZE; lia).
      rewrite (same_but_at _ _ _ v' _ S2), Hcopy, (same_but_at _ _ _ v _ C5) by (done || (intros w Hw; rewrite Hpg in Hw; destruct Hw as [Hw|Hw]; [|by eapply space_page_ok]; by eapply Forall_forall in Hw; [|apply (kmem_pages _ _ (vm_free _ _ _ _ V2))])). done.
    + destruct (C6 n ltac:(lia)) as (w & h & w' & E1 & E2 & E3). exists w, h, w'. split; [done|]. split; [by rewrite lookup_insert_ne|]. intros j Hj. rewrite <- E3 by done.
      destruct (Hfr _ _ _ E2) as (F1 & F2 & F3). assert (in_page w' (V2P w' + j)) by (unfold in_page, PGSIZE; lia). rewrite (same_but_at _ _ _ w' _ S2) by done. apply (same_but_at _ _ _ w' _ S1); [by intros ? <-|done|congruence|done].
  - intros n Hn'. rewrite lookup_insert_ne by lia. apply C7. lia.
Qed.

(** The page given back when [mappages] failed. *)
Lemma copied_back i m f v' l1 d' T' U' m1 f1 m2 f2 T2 new :
  copied r0 l0 U i m f (v' :: l1) d' T' U' → 0 ≤ i → uvm (remem r0 m1 f1) l1 d' T' U' → same_but (eq v') m m1 →
  vm (remem r0 m2 f2) [] d' T2 → more_tables l1 T' [] T2 new → same_but (dir_page d' T2) m1 m2 →
  (∀ n, 0 ≤ n → pte m2 T2 n = pte m1 T' n) →
  ∃ m3, freed v' (remem r0 m2 f2) = remem r0 m3 v' ∧ copied r0 l0 U i m3 v' [v'] d' T2 U'.
Proof.
  intros [C1 C2 C3 C4 C5 C6 C7] Hi H1 S1 V2 M S2 P2. pose proof (u_vm _ _ _ _ _ C1) as V0. destruct (kmem_pop _ _ _ (vm_free _ _ _ _ V0)) as (_ & Hv' & Hn & _).
  assert (¬ space_page d' T' U' v') as Hs by (intros Hs; apply (space_page_ok _ _ _ _ _ _ C1) in Hs as [_ Hs]; apply Hs; by left).
  assert (uvm (remem r0 m2 f2) [] d' T2 U') as H2 by (eapply uvm_tables; [exact H1|exact V2|exact M|]; intros n Hn'; apply P2; lia).
  assert (∀ w, space_page d' T2 U' w ↔ space_page d' T' U' w ∨ w ∈ l1) as Hsp.
  { intros w. rewrite (mt_taken _ _ _ _ _ M), app_nil_r. unfold space_page, dir_page. split.
    - intros [[->|(k & Hk)]|?]; [auto| |auto]. destruct (mt_new _ _ _ _ _ M _ _ Hk); [left; left; right; by exists k|auto].
    - intros [[[->|(k & Hk)]|?]|Hw]; [auto| |auto|left; right; by apply (mt_all _ _ _ _ _ M)]. left. right. exists k. eapply lookup_weaken; [done|apply (mt_old _ _ _ _ _ M)]. }
  destruct (freed_remem v' (remem r0 m2 f2)) as (m3 & E3 & S3). exists m3. split; [done|].
  assert (kmem_ok (remem r0 m3 v') [v']) as K3 by (pose proof (kmem_ok_freed v' _ [] (vm_free _ _ _ _ V2) Hv' ltac:(apply not_elem_of_nil)) as K3; by rewrite E3 in K3).
  assert (¬ space_page d' T2 U' v') as Hs2 by (rewrite Hsp; tauto).
  assert (∀ w, space_page d' T2 U' w → w ≠ v') as Hne by (by intros w Hw ->).
  assert (uvm (remem r0 m3 v') [v'] d' T2 U') as H3.
  { change (remem r0 m3 v') with (remem (remem r0 m2 f2) m3 v') in *. eapply uvm_frame; [exact H2|exact K3|intros w Hw; apply not_elem_of_cons; split; [by apply Hne|apply not_elem_of_nil]|exact S3|by intros w <-]. }
  assert (∀ w, w ∈ l0 ↔ w ∈ [v'] ∨ space_page d' T2 U' w) as Hpg.
  { intros w. rewrite C3, Hsp, elem_of_cons, list_elem_of_singleton. tauto. }
  assert (∀ w, dir_page d' T2 w → page_ok w) as Hdok by (intros w Hw; by apply (dir_page_ok _ _ _ _ _ V2) in Hw as [? _]).
  split; [done| |done| | | |done].
  - intros n Hn'. rewrite <- C2 by done. transitivity (pte m2 T2 n); [eapply (pte_same _ _ _ _ _ m3 n V2); [exact S3| |lia]; intros w <-; split; [done|]; intros Hd; apply Hs2; by left|].
    rewrite P2 by lia. eapply (pte_same _ _ _ _ _ m1 n V0); [exact S1| |lia]. intros w <-. split; [done|]. intros Hd. apply Hs. by left.
  - rewrite (mt_size _ _ _ _ _ M). rewrite (mt_taken _ _ _ _ _ M), app_nil_r in C4. cbn [length] in *. lia.
  - eapply same_but_trans; [exact C5|]. eapply same_but_trans; [eapply same_but_mono; [exact S1|]; intros w <-; apply C3; left; by left|].
    eapply same_but_trans; (eapply same_but_mono; [eassumption|]); [intros w Hw; apply Hpg; right; by left|intros w <-; apply Hpg; left; by apply list_elem_of_singleton].
  - intros n Hn'. destruct (C6 n Hn') as (w & h & w' & E1 & E2 & Ec). exists w, h, w'. split; [done|]. split; [done|]. intros j Hj. rewrite <- Ec by done.
    destruct (u_some _ _ _ _ _ H2 _ _ _ E2) as (_ & F1 & _ & F3 & _). assert (w' ≠ v') by (apply Hne; right; by exists n, h). assert (in_page w' (V2P w' + j)) by (unfold in_page, PGSIZE; lia).
    rewrite (same_but_at _ _ _ w' _ S3) by (done || congruence || by intros ? <-). change (pmem (remem r0 m2 f2)) with m2.
    rewrite (same_but_at _ _ _ w' _ S2) by done. apply (same_but_at _ _ _ w' _ S1); [by intros ? <-|done|congruence|done].
Qed.

(** The parent while its pages are copied. *)
Lemma parent_entry i m f l d' T' U' n v g : copied r0 l0 U i m f l d' T' U' → U !! n = Some (v, g) →
  ∃ t, walkpgdir d (4096 * n) false (with_res s (remem r0 m f)) = Ret (u32 (t + 4 * PTX (4096 * n))) (with_res s (remem r0 m f)) ∧
    u32 (t + 4 * PTX (4096 * n)) ≠ 0 ∧ load32 m (V2P (u32 (t + 4 * PTX (4096 * n)))) = V2P v + g.
Proof.
  intros [C1 C2 C3 C4 C5 C6 C7] Hu. destruct (u_some _ _ _ _ _ HP _ _ _ Hu) as (Hn & _ & _ & _ & _ & _ & Hpte). pose proof (u_vm _ _ _ _ _ HP) as V. unfold UPAGES in Hn.
  destruct (vm_frame r0 l0 d T m f l (fun v => v ∈ l0) V (vm_free _ _ _ _ (u_vm _ _ _ _ _ C1))) as [V1 P1]; [|done| |].
  - intros w Hw Hl. apply (dir_page_ok _ _ _ _ _ V) in Hw as [_ Hw]. apply Hw, C3. by left.
  - intros w Hw. split; [by eapply Forall_forall in Hw; [|apply (kmem_pages _ _ (vm_free _ _ _ _ V))]|]. intros Hd. by apply (dir_page_ok _ _ _ _ _ V) in Hd as [_ ?].
  - destruct (mapped_entry _ _ _ _ _ _ _ _ HP Hu) as (_ & t & Ht). assert (4096 * n / 4096 = n) as En by (rewrite Z.mul_comm, Z.div_mul; lia).
    exists t. split; [apply (walk_found V1); [lia|by rewrite En]|]. destruct (vm_table _ _ _ _ V _ _ Ht) as (_ & Hpt & _). destruct (pte_addr (va := 4096 * n) t Hpt) as [A1 A2]. rewrite En in A1.
    split; [done|]. rewrite A1, <- Hpte, <- P1 by lia. unfold pte. by rewrite Ht.
Qed.

Lemma copy_loop k i sz m f l d' T' U' : let np := (sz + 4095) / 4096 in copied r0 l0 U i m f l d' T' U' → 0 ≤ i ≤ np → np - i ≤ Z.of_nat k → sz ≤ KERNBASE →
  (∀ n, 0 ≤ n < np → is_Some (U !! n)) →
  ∃ b m' f' l' T2 U2 i', copyuvm_loop k d d' (4096 * i) sz (with_res s (remem r0 m f)) = Ret b (with_res s (remem r0 m' f')) ∧
    copied r0 l0 U i' m' f' l' d' T2 U2 ∧ (b = true → i' = np) ∧ (b = false → Z.of_nat (length l0) ≤ 1025 + np).
Proof.
  intros np. revert i m f l T' U'. induction k as [|k IH]; intros i m f l T' U' HC Hi Hk Hsz Hall.
  all: pose proof (Z.div_mod (sz + 4095) 4096 ltac:(lia)) as Hdm; pose proof (Z.mod_pos_bound (sz + 4095) 4096 ltac:(lia)); fold np in Hdm; cbn [copyuvm_loop].
  all: destruct (Z.ltb_spec (4096 * i) sz) as [Hlt|Hge]; [|exists true, m, f, l, T', U', i; split; [done|]; split; [done|]; split; [intros _; lia|done]].
  1: lia.
  destruct (Hall i ltac:(lia)) as [[v g] Hu]. destruct (parent_entry i m f l d' T' U' i v g HC Hu) as (t & Ew & Hnz & Hld).
  destruct (u_some _ _ _ _ _ HP _ _ _ Hu) as (Hir & Hv & Hvl & _ & Hg & Ho & _). destruct (page_phys v Hv) as (Hz & Hvr & Hpv).
  rewrite (bind_ret _ _ _ _ _ Ew). rewrite (proj2 (Z.eqb_neq _ 0) Hnz). rewrite (bind_ret _ _ _ _ _ (kload_at _ (remem r0 m f))). change (pmem (remem r0 m f)) with m. rewrite Hld, has_P_odd, (proj1 (mapped_entry _ _ _ _ _ _ _ _ HP Hu)).
  cbn [negb]. rewrite PTE_ADDR_add, PTE_FLAGS_add by done. pose proof (cp_uvm _ _ _ _ _ _ _ _ _ _ HC) as H0. pose proof (u_vm _ _ _ _ _ H0) as V0. destruct l as [|v' l1].
  - rewrite (bind_ret _ _ _ _ _ (kalloc_nil Hsolo _ (vm_free _ _ _ _ V0))). exists false, m, f, [], T', U', i. split; [done|]. split; [done|]. split; [done|]. intros _.
    rewrite (cp_count _ _ _ _ _ _ _ _ _ _ HC). pose proof (tables_bound _ _ _ _ V0). cbn [length]. lia.
  - rewrite (bind_ret _ _ _ _ _ (kalloc_cons Hsolo _ v' l1 (vm_free _ _ _ _ V0))). assert (v ≠ v') as Hne by (intros ->; apply Hvl, (cp_pages _ _ _ _ _ _ _ _ _ _ HC); left; by left).
    destruct (copy_page m f (v' :: l1) d' T' U' v' l1 v H0 eq_refl (sb_bytes _ _ _ (cp_same _ _ _ _ _ _ _ _ _ _ HC) HB) Hv Hne) as (H1 & S1 & Hv' & Hn' & Hs' & Hc1).
    pose proof (page_pos v' Hv'). rewrite (proj2 (Z.eqb_neq v' 0)) by lia. set (m1 := memmove m (V2P v') (V2P v) (Z.to_nat PGSIZE)) in *. set (f1 := load32 m (V2P v')) in *.
    rewrite (bind_ret _ _ _ tt (with_res s (remem r0 m1 f1))) by done. destruct (page_phys v' Hv') as (Hz' & Hvr' & Hpv'). unfold PHYSTOP in Hvr'.
    assert (4096 * i / 4096 = i) as En by (rewrite Z.mul_comm, Z.div_mul; lia). assert ((4096 * i + PGSIZE - 1) / 4096 = i) as En2 by (unfold PGSIZE; replace (4096 * i + 4096 - 1) with (i * 4096 + 4095) by lia; rewrite Z.div_add_l by lia; change (4095 / 4096) with 0; lia).
    destruct (mappages_spec Hsolo (4096 * i) PGSIZE (V2P v') g (remem r0 m1 f1) l1 d' T') as (x & m2 & f2 & l2 & T2 & new & j & E & V2 & M & S2 & O & P2);
      [apply (u_vm _ _ _ _ _ H1)|lia|done|unfold UPAGES, PGSIZE in *; lia|done|lia|rewrite En2, En; lia|done| |].
    + rewrite En2, En. intros n Hn. replace n with i by lia. apply (u_none _ _ _ _ _ H1); [done|]. apply (cp_rest _ _ _ _ _ _ _ _ _ _ HC). lia.
    + rewrite (bind_ret _ _ _ _ _ E). clear E. change (remem (remem r0 m1 f1) m2 f2) with (remem r0 m2 f2) in *. change (pmem (remem r0 m1 f1)) with m1 in *. rewrite En2, En in O. rewrite En in P2. destruct O as [[-> Hj]|(-> & Hj & ->)].
      * cbn [Z.ltb Z.compare]. replace j with 1 in P2 by lia. unfold PGSIZE. replace (4096 * i + 4096) with (4096 * (i + 1)) by lia.
        eapply IH; [|lia|lia|done|done]. apply (copied_next i m f v' l1 d' T' U' v g m1 f1 m2 f2 l2 T2 new); (done || lia).
      * cbn [Z.ltb Z.compare]. destruct (copied_back i m f v' l1 d' T' U' m1 f1 m2 f2 T2 new HC) as (m3 & E3 & C3); [lia|done|done|done|done|done|intros n Hn; rewrite P2, decide_False by lia; done|].
        rewrite (bind_ret _ _ _ _ _ (kfree_solo Hsolo v' (remem r0 m2 f2) Hv')), E3. exists false, m3, v', [v'], T2, U', i. split; [done|]. split; [done|]. split; [done|]. intros _.
        rewrite (cp_count _ _ _ _ _ _ _ _ _ _ C3). pose proof (tables_bound _ _ _ _ V2). cbn [length]. lia.
Qed.
End copy.

(** ** What the processor sees *)

(** The byte at a virtual address. *)
Definition ubyte (m : mem) (pgdir va : Z) : option Z := (fun p => m (fst p)) <$> translate m pgdir va.

Lemma user_translate r l d T U va : uvm r l d T U → 0 ≤ va < KERNBASE →
  translate (pmem r) d va = match U !! (va / 4096) with Some (v, f) => Some (V2P v + va mod 4096, f) | None => None end.
Proof.
  intros H Hva. unfold KERNBASE in Hva. rewrite (translate_pte _ _ _ _ va (u_vm _ _ _ _ _ H)) by lia. cbv zeta. assert (0 ≤ va / 4096 < UPAGES) as Hn by (unfold UPAGES; split; [apply Z.div_pos; lia|apply Z.div_lt_upper_bound; lia]).
  destruct (U !! (va / 4096)) as [[v f]|] eqn:E; [|by rewrite (u_none _ _ _ _ _ H)]. destruct (u_some _ _ _ _ _ H _ _ _ E) as (_ & Hv & _ & _ & Hf & _ & ->). destruct (page_phys v Hv) as (Hz & _).
  by rewrite (proj1 (mapped_entry _ _ _ _ _ _ _ _ H E)), PTE_ADDR_add, PTE_FLAGS_add.
Qed.

(** The kernel half of every address space. *)
Definition kernel_map (a : Z) : option (Z * Z) :=
  if decide (KERNBASE ≤ a < KERNLINK) then Some (a - KERNBASE, Z.lor PTE_W PTE_P)
  else if decide (KERNLINK ≤ a < kdata) then Some (a - KERNBASE, PTE_P)
  else if decide (kdata ≤ a < KERNBASE + PHYSTOP) then Some (a - KERNBASE, Z.lor PTE_W PTE_P)
  else if decide (DEVSPACE ≤ a < 2 ^ 32) then Some (a, Z.lor PTE_W PTE_P) else None.

Lemma kernel_translate r l d T va : vm r l d T → (∀ n, 524288 ≤ n → pte (pmem r) T n = kpte n) → KERNBASE ≤ va < 2 ^ 32 → translate (pmem r) d va = kernel_map va.
Proof.
  intros H Hk Hva. unfold KERNBASE in Hva. rewrite (translate_pte _ _ _ _ va H) by lia. cbv zeta. pose proof (Z.div_mod va 4096 ltac:(lia)) as Hd. pose proof (Z.mod_pos_bound va 4096 ltac:(lia)).
  set (n := va / 4096) in *. assert (524288 ≤ n < 1048576) by lia. rewrite Hk by lia. destruct data_phys as (_ & D2 & D3). set (a := kdata / 4096) in *. unfold kpte, kernel_map, PGSIZE. fold a.
  change KERNBASE with (4096 * 524288). change KERNLINK with (4096 * 524544). change DEVSPACE with (4096 * 1040384). change (2 ^ 32) with (4096 * 1048576). change PHYSTOP with (4096 * 57344). rewrite D2.
  assert (∀ x e, 0 ≤ e < 4096 → PTE_ADDR (4096 * x + e) = 4096 * x ∧ PTE_FLAGS (4096 * x + e) = e ∧ Z.odd (4096 * x + e) = Z.odd e) as Hb.
  { intros x e He. assert ((4096 * x) mod 4096 = 0) by (rewrite Z.mul_comm; apply Z.mod_mul; lia). rewrite PTE_ADDR_add, PTE_FLAGS_add by done. by rewrite Z.odd_add, Z.odd_mul. }
  destruct (Hb (n - 524288) 3 ltac:(lia)) as (B1 & B2 & B3). destruct (Hb (n - 524288) 1 ltac:(lia)) as (B4 & B5 & B6). destruct (Hb n 3 ltac:(lia)) as (B7 & B8 & B9).
  repeat (match goal with |- context [decide ?P] => destruct (decide P); [|] end; try lia); rewrite ?B1, ?B2, ?B3, ?B4, ?B5, ?B6, ?B7, ?B8, ?B9; cbn [Z.odd]; try done; do 2 f_equal; lia.
Qed.

(** [setupkvm] maps the kernel: when it returns a page directory, no user
    address is mapped in it, the addresses of the kernel are mapped to the
    physical memory and the devices, the text read-only, and the directory and
    its tables were free pages.  It fails only when there are at most 1025 free
    pages; then it returns 0 and all pages are free again. *)
Theorem setupkvm_correct r l : kmem_ok r l →
  ∃ x m f, setupkvm (with_res s r) = Ret x (with_res s (remem r m f)) ∧ same_but (fun v => v ∈ l) (pmem r) m ∧
    ((x = 0 ∧ (length l ≤ 1025)%nat ∧ all_back r l m f) ∨
     ∃ l' T, uvm (remem r m f) l' x T ∅ ∧ (∀ v, v ∈ l ↔ v ∈ l' ∨ dir_page x T v) ∧
       (∀ va, 0 ≤ va < KERNBASE → translate m x va = None) ∧ ∀ va, KERNBASE ≤ va < 2 ^ 32 → translate m x va = kernel_map va).
Proof.
  intros Hk. destruct (setupkvm_spec r l Hk) as (x & m & f & E & [(-> & Hl & Hb)|(l' & T & [F1 F2 F3 F4 F5])]); exists x || exists 0; exists m, f; (split; [done|]).
  - split; [by destruct Hb as (? & _ & _ & ?)|]. by left.
  - split; [eapply same_but_mono; [exact F5|]; intros v Hv; apply F3; by right|]. right. exists l', T. split; [done|]. split; [done|]. split; intros va Hva.
    + change m with (pmem (remem r m f)). rewrite (user_translate _ _ _ _ _ va F1 Hva). by rewrite lookup_empty.
    + change m with (pmem (remem r m f)). by apply (kernel_translate _ l' _ T); [apply (u_vm _ _ _ _ _ F1)| |].
Qed.

Lemma copyuvm_spec r l d T U sz : let np := (sz + 4095) / 4096 in uvm r l d T U → bytes (pmem r) → 0 ≤ sz ≤ KERNBASE → (∀ n, 0 ≤ n < np → is_Some (U !! n)) →
  ∃ x m f, copyuvm d sz (with_res s r) = Ret x (with_res s (remem r m f)) ∧
    ((x = 0 ∧ Z.of_nat (length l) ≤ 1025 + np ∧ all_back r l m f) ∨ (∃ l' T' U', copied r l U np m f l' x T' U')).
Proof.
  intros np H HB Hsz Hall. pose proof (vm_free _ _ _ _ (u_vm _ _ _ _ _ H)) as Hk. assert (0 ≤ np) by (apply Z.div_pos; lia). unfold copyuvm.
  destruct (setupkvm_spec r l Hk) as (x & m & f & E & [(-> & Hl & Hb)|(l' & T' & [F1 F2 F3 F4 F5])]); rewrite (bind_ret _ _ _ _ _ E); clear E.
  - exists 0, m, f. split; [done|]. left. split; [done|]. split; [lia|done].
  - destruct (vm_dir _ _ _ _ (u_vm _ _ _ _ _ F1)) as [Hx _]. pose proof (page_pos x Hx). rewrite (proj2 (Z.eqb_neq x 0)) by lia.
    assert (copied r l U 0 m f l' x T' ∅) as HC.
    { split; [done|done| |lia|eapply same_but_mono; [exact F5|]; intros v Hv; apply F3; by right|intros; lia|done]. intros v. rewrite F3. unfold space_page. split; [tauto|].
      intros [?|[?|(n & g & Hn)]]; [auto|auto|by rewrite lookup_empty in Hn]. }
    destruct (copy_loop H HB (S (Z.to_nat (sz / PGSIZE))) 0 sz m f l' x T' ∅ HC) as (b & m1 & f1 & l1 & T1 & U1 & i1 & E & C1 & Ht & Hf); [fold np; lia| |lia|done|].
    { fold np. unfold PGSIZE. assert (np < sz / 4096 + 2) by (apply Z.div_lt_upper_bound; pose proof (Z.div_mod sz 4096 ltac:(lia)); pose proof (Z.mod_pos_bound sz 4096 ltac:(lia)); lia). pose proof (Z.div_pos sz 4096 ltac:(lia) ltac:(lia)). lia. }
    change (4096 * 0) with 0 in E. rewrite (bind_ret _ _ _ _ _ E). destruct b.
    + exists x, m1, f1. split; [done|]. right. exists l1, T1, U1. specialize (Ht eq_refl). fold np in Ht. by rewrite Ht in C1.
    + pose proof C1 as [D1 D2 D3 D4 D5 D6 D7]. destruct (freevm_spec _ _ _ _ _ D1) as (m2 & f2 & l2 & E2 & K2 & Hl2 & S2). rewrite (bind_ret _ _ _ _ _ E2). change (remem (remem r m1 f1) m2 f2) with (remem r m2 f2) in *.
      exists 0, m2, f2. split; [done|]. left. split; [done|]. split; [by apply Hf|]. eapply (all_back_intro _ _ _ _ l2 (fun v => v ∈ l)); [done|done|intros v; by rewrite Hl2, D3| |done].
      eapply same_but_trans; [exact D5|]. eapply same_but_mono; [exact S2|]. intros v Hv. apply D3. by right.
Qed.

(** The free pages do not belong to an address space, so what happens to them
    is not seen there. *)
Lemma space_same r l d T U m f l' : uvm r l d T U → same_but (fun v => v ∈ l) (pmem r) m → kmem_ok (remem r m f) l' → (∀ v, v ∈ l' → v ∈ l) →
  uvm (remem r m f) l' d T U ∧ ∀ va, 0 ≤ va < KERNBASE → translate m d va = translate (pmem r) d va ∧ ubyte m d va = ubyte (pmem r) d va.
Proof.
  intros H S K Hl. pose proof (kmem_pages _ _ (vm_free _ _ _ _ (u_vm _ _ _ _ _ H))) as Hok. rewrite Forall_forall in Hok.
  assert (uvm (remem r m f) l' d T U) as H1.
  { eapply uvm_frame; [exact H|done| |exact S|]; intros v Hv.
    - intros Hin. apply (space_page_ok _ _ _ _ _ _ H) in Hv as [_ Hv]. by apply Hv, Hl.
    - split; [by apply Hok|]. intros Hs. by apply (space_page_ok _ _ _ _ _ _ H) in Hs as [_ ?]. }
  split; [done|]. intros va Hva. pose proof (user_translate _ _ _ _ _ va H1 Hva) as E1. change (pmem (remem r m f)) with m in E1. pose proof (user_translate _ _ _ _ _ va H Hva) as E2.
  split; [by rewrite E1, E2|]. unfold ubyte. rewrite E1, E2. destruct (U !! (va / 4096)) as [[v g]|] eqn:Eu; [|done]. cbn. f_equal. destruct (u_some _ _ _ _ _ H _ _ _ Eu) as (_ & Hv & Hvl & _).
  eapply same_but_at; [exact S|done|done|done|]. pose proof (Z.mod_pos_bound va 4096 ltac:(lia)). unfold in_page, PGSIZE. lia.
Qed.

(** What the child of a fork has: the contents of the parent's pages with the
    same permissions, in frames of its own. *)
Record same_contents (m0 m : mem) (d x np : Z) : Prop := {
  sc_bytes : ∀ va, 0 ≤ va < 4096 * np → is_Some (ubyte m x va) ∧ ubyte m x va = ubyte m0 d va;
  sc_perms : ∀ va, 0 ≤ va < 4096 * np → snd <$> translate m x va = snd <$> translate m0 d va;
  sc_end : ∀ va, 4096 * np ≤ va < KERNBASE → translate m x va = None;
  sc_kernel : ∀ va, KERNBASE ≤ va < 2 ^ 32 → translate m x va = kernel_map va;
  sc_own : ∀ va va' a b e e', 0 ≤ va < KERNBASE → 0 ≤ va' < KERNBASE → translate m d va = Some (a, e) → translate m x va' = Some (b, e') → a / 4096 ≠ b / 4096 }.

Lemma copied_contents r l d T U np m f l' x T' U' : uvm r l d T U → copied r l U np m f l' x T' U' → 0 ≤ np ≤ UPAGES → same_contents (pmem r) m d x np.
Proof.
  intros H HC Hnp. pose proof HC as [C1 C2 C3 C4 C5 C6 C7]. assert (∀ va, 0 ≤ va < KERNBASE → translate m x va = match U' !! (va / 4096) with Some (v, f) => Some (V2P v + va mod 4096, f) | None => None end) as Hx by (intros va Hva; exact (user_translate _ _ _ _ _ va C1 Hva)).
  assert (∀ va, 0 ≤ va < 4096 * np → 0 ≤ va < KERNBASE ∧ ∃ v g v', U !! (va / 4096) = Some (v, g) ∧ U' !! (va / 4096) = Some (v', g) ∧ m (V2P v' + va mod 4096) = pmem r (V2P v + va mod 4096)) as Hc.
  { intros va Hva. split; [unfold UPAGES, KERNBASE in *; lia|]. pose proof (Z.mod_pos_bound va 4096 ltac:(lia)). destruct (C6 (va / 4096)) as (v & g & v' & E1 & E2 & E3); [split; [apply Z.div_pos; lia|apply Z.div_lt_upper_bound; lia]|].
    exists v, g, v'. split; [done|]. split; [done|]. by apply E3. }
  split.
  - intros va Hva. destruct (Hc va Hva) as (Hk & v & g & v' & E1 & E2 & E3). unfold ubyte. rewrite Hx, E2, (user_translate _ _ _ _ _ va H Hk), E1 by done. cbn. rewrite E3. split; [by eexists|done].
  - intros va Hva. destruct (Hc va Hva) as (Hk & v & g & v' & E1 & E2 & E3). by rewrite Hx, E2, (user_translate _ _ _ _ _ va H Hk), E1.
  - intros va Hva. rewrite Hx by lia. rewrite C7; [done|]. apply Z.div_le_lower_bound; lia.
  - intros va Hva. exact (kernel_translate _ _ _ _ va (u_vm _ _ _ _ _ C1) C2 Hva).
  - intros va va' a b e e' Hva Hva' Ha Hb. destruct (space_same r l d T U m f l' H C5 (vm_free _ _ _ _ (u_vm _ _ _ _ _ C1))) as [_ Hs]; [intros v Hv; apply C3; by left|].
    rewrite (proj1 (Hs va Hva)), (user_translate _ _ _ _ _ va H Hva) in Ha. rewrite Hx in Hb by done.
    destruct (U !! (va / 4096)) as [[v g]|] eqn:Eu; [|done]. destruct (U' !! (va' / 4096)) as [[v' g']|] eqn:Eu'; [|done]. injection Ha as <- _. injection Hb as <- _.
    destruct (u_some _ _ _ _ _ H _ _ _ Eu) as (_ & Hv & Hvl & _). destruct (u_some _ _ _ _ _ C1 _ _ _ Eu') as (_ & Hv' & _). destruct (page_phys v Hv) as (Hz & _ & P1). destruct (page_phys v' Hv') as (Hz' & _ & P2).
    pose proof (Z.mod_pos_bound va 4096 ltac:(lia)). pose proof (Z.mod_pos_bound va' 4096 ltac:(lia)). intros Heq. apply Hvl. apply C3. right. right. exists (va' / 4096), g'.
    apply Z.mod_divide in Hz as [k Hk]; [|lia]. apply Z.mod_divide in Hz' as [k' Hk']; [|lia]. rewrite Hk, Hk', !Z.div_add_l, !Z.div_small in Heq by lia.
    assert (V2P v = V2P v') as Ev by lia. rewrite <- P1, Ev, P2. done.
Qed.

(** C15. [copyuvm], the part of fork that copies memory.  For an address space
    whose first pages are all mapped it either returns a new page directory in
    which every byte below the size is that of the parent, with the same
    permissions, nothing else of the user half is mapped, the kernel half is
    that of every process, and no frame is shared with the parent; or it runs
    out of memory, which it does only with at most 1025 free pages besides
    those for the copy, and then returns 0 with every page free again.  Either way the parent's
    address space and its contents are what they were. *)
Theorem copyuvm_correct r l d T U sz : let np := (sz + 4095) / 4096 in
  uvm r l d T U → bytes (pmem r) → 0 ≤ sz ≤ KERNBASE → (∀ n, 0 ≤ n < np → is_Some (U !! n)) →
  ∃ x m f, copyuvm d sz (with_res s r) = Ret x (with_res s (remem r m f)) ∧
    (∀ va, 0 ≤ va < KERNBASE → translate m d va = translate (pmem r) d va ∧ ubyte m d va = ubyte (pmem r) d va) ∧
    ((x = 0 ∧ Z.of_nat (length l) ≤ 1025 + np ∧ all_back r l m f) ∨
     ∃ l' T' U', uvm (remem r m f) l' x T' U' ∧ uvm (remem r m f) l' d T U ∧ same_contents (pmem r) m d x np).
Proof.
  intros np H HB Hsz Hall. destruct (copyuvm_spec r l d T U sz H HB Hsz Hall) as (x & m & f & E & O). exists x, m, f. split; [done|]. destruct O as [(-> & Hl & Hb)|(l' & T' & U' & HC)].
  - split; [|by left]. destruct Hb as (l' & K & Hp & S). apply (space_same r l d T U m f l' H S K). intros v. by rewrite Hp.
  - pose proof HC as [C1 C2 C3 C4 C5 C6 C7]. destruct (space_same r l d T U m f l' H C5 (vm_free _ _ _ _ (u_vm _ _ _ _ _ C1))) as [H1 Hs]; [intros v Hv; apply C3; by left|].
    split; [done|]. right. exists l', T', U'. split; [done|]. split; [done|]. eapply copied_contents; [exact H|exact HC|]. split; [apply Z.div_pos; lia|]. unfold KERNBASE, UPAGES in *. assert (np < 524289) by (apply Z.div_lt_upper_bound; lia). lia.
Qed.
End spaces.
