(* ===== verification/Grow.v ===== *)
(** * Growing and shrinking an address space

    [allocuvm] and [deallocuvm], with which exec and sbrk change the size of a
    process: new memory is zero, old memory is kept, and what is given back is
    free. *)

From S2P Require Import Prelude Machine Spinlock CString ProcTable Proc Lifecycle Ready Aging.
From S2P Require Import ProcLemmas Scheduler Reach Blocking Kstate Sleeplock Solo.
From S2P Require Import Devices Disk Bio Layout Log Inode Console Fs Kalloc Vm PageTable AddrSpace.

Section grow.
Context {FU : Fuel} {HW : Hw} {DK : Disk} {LK : Link} (HL : link_ok).
Context {s : kstate} {c p : nat} {u : cpu} {q : proc} (Hsolo : solo s c p u q).

(** The flags of a page of user memory. *)
Definition PTE_USER : Z := Z.lor (Z.lor PTE_W PTE_U) PTE_P.

(** Pages [i0 .. i) have been added to the address space. *)
Record grew (r0 : kres) (l0 : list Z) (d : Z) (T0 : gmap Z Z) (U0 : gmap Z (Z * Z)) (i0 i : Z) (m : mem) (f : Z) (l : list Z) (T : gmap Z Z) (U : gmap Z (Z * Z)) : Prop := {
  gr_uvm : uvm (remem r0 m f) l d T U;
  gr_old : ∀ n, ¬ i0 ≤ n < i → U !! n = U0 !! n;
  gr_new : ∀ n, i0 ≤ n < i → ∃ v, U !! n = Some (v, PTE_USER) ∧ ∀ j, 0 ≤ j < 4096 → m (V2P v + j) = 0;
  gr_same : same_but (fun v => v ∈ l0 ∨ dir_page d T0 v) (pmem r0) m;
  gr_pages : ∀ v, v ∈ l ∨ dir_page d T v → v ∈ l0 ∨ dir_page d T0 v;
  gr_count : Z.of_nat (length l) + Z.of_nat (size T) + (i - i0) = Z.of_nat (length l0) + Z.of_nat (size T0) }.

(** The page [v] of the free list, filled with zeros. *)
Lemma zero_page r d l T U v : uvm r (v :: l) d T U →
  let m1 := memset (pmem r) (V2P v) 0 PGSIZE in let f1 := load32 (pmem r) (V2P v) in
  uvm (remem r m1 f1) l d T U ∧ same_but (eq v) (pmem r) m1 ∧ page_ok v ∧ v ∉ l ∧ ¬ space_page d T U v ∧ ∀ j, 0 ≤ j < 4096 → m1 (V2P v + j) = 0.
Proof.
  intros H m1 f1. destruct (kmem_pop _ _ _ (vm_free _ _ _ _ (u_vm _ _ _ _ _ H))) as (_ & Hv & Hn & Hk). pose proof (same_but_memset v 0 (pmem r)) as S.
  assert (¬ space_page d T U v) as Hs by (intros Hs; apply (space_page_ok _ _ _ _ _ _ H) in Hs as [_ Hs]; apply Hs; by left).
  split; [|split; [done|split; [done|split; [done|split; [done|]]]]].
  - eapply uvm_frame; [exact H| |intros w Hw; apply (space_page_ok _ _ _ _ _ _ H) in Hw as [_ Hw]; by apply not_elem_of_cons in Hw as [_ ?]|exact S|by intros w <-].
    change (remem r m1 f1) with ((r <| freelist := f1 |>) <| pmem := m1 |>). eapply kmem_ok_same; [exact Hk|exact S|by intros w <-].
  - intros j Hj. unfold m1. rewrite memset_page; [done|]. unfold in_page, PGSIZE. lia.
Qed.

Lemma grew_next r0 l0 d T0 U0 i0 i m f v l1 T U m2 f2 l2 T2 new : grew r0 l0 d T0 U0 i0 i m f (v :: l1) T U → 0 ≤ i0 ≤ i → i < UPAGES → U !! i = None →
  let m1 := memset m (V2P v) 0 PGSIZE in vm (remem r0 m2 f2) l2 d T2 → more_tables l1 T l2 T2 new → same_but (dir_page d T2) m1 m2 →
  mapped_pages i 1 (V2P v) (Z.lor PTE_W PTE_U) (pte m1 T) (pte m2 T2) → grew r0 l0 d T0 U0 i0 (i + 1) m2 f2 l2 T2 (<[i := (v, PTE_USER)]> U).
Proof.
  intros [G1 G2 G3 G4 G5 G6] Hi Hir Hu m1 V2 M S2 P2. destruct (zero_page _ _ _ _ _ _ G1) as (H1 & S1 & Hv & Hn & Hs & Hz). change (pmem (remem r0 m f)) with m in *. fold m1 in H1, S1, Hz.
  assert (∀ n, 0 ≤ n → pte m2 T2 n = if decide (n = i) then V2P v + PTE_USER else pte m1 T n) as Hp.
  { intros n Hn'. rewrite P2 by done. destruct (decide (n = i)) as [->|]; [rewrite decide_True by lia; unfold PTE_USER; lia|by rewrite decide_False by lia]. }
  assert (uvm (remem r0 m2 f2) l2 d T2 (<[i := (v, PTE_USER)]> U)) as H2.
  { eapply uvm_insert; [exact H1|exact V2|exact M|lia|done|done|done|done|done|done|]. intros n Hn'. apply Hp. lia. }
  assert (∀ w, dir_page d T2 w → page_ok w) as Hdok by (intros w Hw; by apply (dir_page_ok _ _ _ _ _ V2) in Hw as [? _]).
  assert (∀ w, w ∈ l2 ∨ dir_page d T2 w → w ∈ l0 ∨ dir_page d T0 w) as Hpg.
  { intros w Hw. apply G5. rewrite elem_of_cons, (mt_taken _ _ _ _ _ M), elem_of_app. destruct Hw as [?|[->|(k & Hk)]]; [auto|right; by left|]. destruct (mt_new _ _ _ _ _ M _ _ Hk); [right; right; by exists k|auto]. }
  split; [done| | | |done|].
  - intros n Hn'. rewrite lookup_insert_ne by lia. apply G2. lia.
  - intros n Hn'. destruct (decide (n = i)) as [->|Hne].
    + exists v. split; [apply lookup_insert_eq|]. intros j Hj. destruct (u_some _ _ _ _ _ H2 i v PTE_USER (lookup_insert_eq _ _ _)) as (_ & _ & _ & Hvd & _). rewrite <- (Hz j Hj).
      eapply same_but_at; [exact S2|done|done|done|]. unfold in_page, PGSIZE. lia.
    + destruct (G3 n ltac:(lia)) as (w & E1 & E2). exists w. split; [by rewrite lookup_insert_ne|]. intros j Hj. rewrite <- (E2 j Hj). assert ((<[i := (v, PTE_USER)]> U) !! n = Some (w, PTE_USER)) as E3 by (by rewrite lookup_insert_ne).
      destruct (u_some _ _ _ _ _ H2 _ _ _ E3) as (_ & Hw & _ & Hwd & _). assert (in_page w (V2P w + j)) by (unfold in_page, PGSIZE; lia). rewrite (same_but_at _ _ _ w _ S2) by done.
      apply (same_but_at _ _ _ w _ S1); [by intros ? <-|done| |done]. intros <-. apply Hs. right. by eauto.
  - eapply same_but_trans; [exact G4|]. eapply same_but_trans; (eapply same_but_mono; [eassumption|]); [intros w <-; apply G5; left; by left|]. intros w Hw. apply Hpg. by right.
  - rewrite (mt_size _ _ _ _ _ M). rewrite (mt_taken _ _ _ _ _ M) in G6. cbn [length] in G6. rewrite length_app in G6. lia.
Qed.

Lemma alloc_loop r0 l0 d T0 U0 i0 k i oldsz newsz m f l T U : let np := (newsz + 4095) / 4096 in
  grew r0 l0 d T0 U0 i0 i m f l T U → 0 ≤ i0 ≤ i → i ≤ np → np - i ≤ Z.of_nat k → newsz < KERNBASE → (∀ n, i ≤ n < np → U !! n = None) →
  np - i0 + 1024 < Z.of_nat (length l0) →
  ∃ m' f' l' T' U', allocuvm_loop k d (4096 * i) oldsz newsz (with_res s (remem r0 m f)) = Ret newsz (with_res s (remem r0 m' f')) ∧ grew r0 l0 d T0 U0 i0 np m' f' l' T' U'.
Proof.
  intros np. revert i m f l T U. induction k as [|k IH]; intros i m f l T U HG Hi Hnp Hk Hsz Hnone Hlen.
  all: pose proof (Z.div_mod (newsz + 4095) 4096 ltac:(lia)) as Hdm; pose proof (Z.mod_pos_bound (newsz + 4095) 4096 ltac:(lia)); fold np in Hdm; cbn [allocuvm_loop].
  all: destruct (Z.ltb_spec (4096 * i) newsz) as [Hlt|Hge]; [|exists m, f, l, T, U; split; [done|]; by replace np with i by lia]. 1: lia.
  pose proof (gr_uvm _ _ _ _ _ _ _ _ _ _ _ _ HG) as H0. pose proof (u_vm _ _ _ _ _ H0) as V0. pose proof (gr_count _ _ _ _ _ _ _ _ _ _ _ _ HG) as Hc. pose proof (tables_bound _ _ _ _ V0) as Hb0.
  assert (i < UPAGES) as Hu by (unfold UPAGES, KERNBASE in *; lia).
  destruct l as [|v l1]; [cbn [length] in Hc; lia|]. rewrite (bind_ret _ _ _ _ _ (kalloc_cons Hsolo _ v l1 (vm_free _ _ _ _ V0))).
  destruct (zero_page _ _ _ _ _ _ H0) as (H1 & S1 & Hv & Hn & Hs & Hz). change (pmem (remem r0 m f)) with m in *. set (m1 := memset m (V2P v) 0 PGSIZE) in *. set (f1 := load32 m (V2P v)) in *.
  change (remem (remem r0 m f) m1 f1) with (remem r0 m1 f1) in *. pose proof (page_pos v Hv). rewrite (proj2 (Z.eqb_neq v 0)) by lia. rewrite (bind_ret _ _ _ tt (with_res s (remem r0 m1 f1))) by done.
  assert (4096 * i / 4096 = i) as En by (rewrite Z.mul_comm, Z.div_mul; lia). assert ((4096 * i + PGSIZE - 1) / 4096 = i) as En2 by (unfold PGSIZE; replace (4096 * i + 4096 - 1) with (i * 4096 + 4095) by lia; rewrite Z.div_add_l by lia; change (4095 / 4096) with 0; lia).
  destruct (page_phys v Hv) as (Hal & Hvr & _). unfold PHYSTOP in Hvr.
  destruct (mappages_spec Hsolo (4096 * i) PGSIZE (V2P v) (Z.lor PTE_W PTE_U) (remem r0 m1 f1) l1 d T) as (x & m2 & f2 & l2 & T2 & new & j & E & V2 & M & S2 & O & P2);
    [apply (u_vm _ _ _ _ _ H1)|lia|done|unfold UPAGES, PGSIZE in *; lia|done|lia|rewrite En2, En; lia|done| |].
  - rewrite En2, En. intros n Hn'. replace n with i by lia. apply (u_none _ _ _ _ _ H1); [lia|]. apply Hnone. lia.
  - rewrite (bind_ret _ _ _ _ _ E). clear E. change (remem (remem r0 m1 f1) m2 f2) with (remem r0 m2 f2) in *. change (pmem (remem r0 m1 f1)) with m1 in *. rewrite En2, En in O. rewrite En in P2. destruct O as [[-> Hj]|(-> & Hj & ->)].
    + cbn [Z.ltb Z.compare]. replace j with 1 in P2 by lia. unfold PGSIZE. replace (4096 * i + 4096) with (4096 * (i + 1)) by lia.
      eapply IH; [|lia|lia|lia|done| |done]. { apply (grew_next r0 l0 d T0 U0 i0 i m f v l1 T U m2 f2 l2 T2 new HG); [lia|done|apply Hnone; lia|done|done|done|done]. }
      intros n Hn'. rewrite lookup_insert_ne by lia. apply Hnone. lia.
    + exfalso. pose proof (tables_bound _ _ _ _ V2) as Hb2. rewrite (mt_size _ _ _ _ _ M) in Hb2. rewrite (mt_taken _ _ _ _ _ M), app_nil_r in Hc. cbn [length] in Hc. lia.
Qed.

(** A page whose frame is not written keeps its translation and its contents. *)
Lemma kept r d T U l m f l' T' U' P n : uvm r l d T U → uvm (remem r m f) l' d T' U' → same_but P (pmem r) m → (∀ v, P v → page_ok v) →
  0 ≤ n < KERNBASE → U' !! (n / 4096) = U !! (n / 4096) → (∀ v g, U !! (n / 4096) = Some (v, g) → ¬ P v) →
  translate m d n = translate (pmem r) d n ∧ ubyte m d n = ubyte (pmem r) d n.
Proof.
  intros H H' S HP Hn Hu Hv. pose proof (user_translate _ _ _ _ _ n H' Hn) as E1. change (pmem (remem r m f)) with m in E1. pose proof (user_translate _ _ _ _ _ n H Hn) as E2. rewrite Hu in E1.
  split; [by rewrite E1, E2|]. unfold ubyte. rewrite E1, E2. destruct (U !! (n / 4096)) as [[v g]|] eqn:Eu; [|done]. cbn. f_equal. destruct (u_some _ _ _ _ _ H _ _ _ Eu) as (_ & Hok & _).
  eapply same_but_at; [exact S|done|done|by eapply Hv|]. pose proof (Z.mod_pos_bound n 4096 ltac:(lia)). unfold in_page, PGSIZE. lia.
Qed.
Lemma free_or_dir_ok r l d T U v : uvm r l d T U → v ∈ l ∨ dir_page d T v → page_ok v.
Proof.
  intros H [Hw|Hw]; [|by apply (dir_page_ok _ _ _ _ _ (u_vm _ _ _ _ _ H)) in Hw as [? _]]. by eapply Forall_forall in Hw; [|apply (kmem_pages _ _ (vm_free _ _ _ _ (u_vm _ _ _ _ _ H)))].
Qed.


(** [deallocuvm] makes an address space smaller: the pages beyond the new
    size are no longer mapped and their frames, each once, are free; every
    other address has the translation and the contents it had.  A size that is
    not smaller changes nothing. *)
Theorem deallocuvm_correct r l d T U oldsz newsz : let i := (newsz + 4095) / 4096 in let np := (oldsz + 4095) / 4096 in
  uvm r l d T U → 0 ≤ newsz → oldsz ≤ KERNBASE →
  (oldsz ≤ newsz → deallocuvm d oldsz newsz (with_res s r) = Ret oldsz (with_res s r)) ∧
  (newsz < oldsz → ∃ m f l' U', deallocuvm d oldsz newsz (with_res s r) = Ret newsz (with_res s (remem r m f)) ∧ uvm (remem r m f) l' d T U' ∧
    (∀ va, i ≤ va / 4096 < np → translate m d va = None) ∧
    (∀ va, 0 ≤ va < KERNBASE → ¬ i ≤ va / 4096 < np → translate m d va = translate (pmem r) d va ∧ ubyte m d va = ubyte (pmem r) d va) ∧
    NoDup l' ∧ ∀ v, v ∈ l' ↔ v ∈ l ∨ ∃ va e, i ≤ va / 4096 < np ∧ translate (pmem r) d va = Some (V2P v, e) ∧ page_ok v).
Proof.
  intros i np H Hn Ho. split; [intros Hle; unfold deallocuvm; by rewrite (proj2 (Z.leb_le _ _) Hle)|]. intros Hlt.
  destruct (deallocuvm_spec HL Hsolo oldsz newsz r l d T U H) as (m & f & l' & U' & E & H' & [Um Uf] & S); [lia|done|]. fold i np in Um, Uf, S. exists m, f, l', U'.
  assert (∀ va, i ≤ va / 4096 < np → 0 ≤ va < KERNBASE) as Hr.
  { intros va Hva. pose proof (Z.div_mod va 4096 ltac:(lia)). pose proof (Z.mod_pos_bound va 4096 ltac:(lia)). assert (0 ≤ i) by (apply Z.div_pos; lia). unfold KERNBASE in *. assert (np < 524289) by (apply Z.div_lt_upper_bound; lia). lia. }
  split; [done|]. split; [done|]. split; [|split; [|split]].
  - intros va Hva. pose proof (user_translate _ _ _ _ _ va H' (Hr va Hva)) as Et. change (pmem (remem r m f)) with m in Et. by rewrite Um, decide_True in Et.
  - intros va Hva Hout. eapply kept; [exact H|exact H'|exact S| |done|by rewrite Um, decide_False|].
    + intros v [Hv|(n & g & _ & Hv)]; [by apply (dir_page_ok _ _ _ _ _ (u_vm _ _ _ _ _ H)) in Hv as [? _]|]. by destruct (u_some _ _ _ _ _ H _ _ _ Hv) as (_ & ? & _).
    + intros v g Hv [Hd|(n & g' & Hin & Hv')]; [by destruct (u_some _ _ _ _ _ H _ _ _ Hv) as (_ & _ & _ & ? & _)|]. apply Hout. by rewrite (u_inj _ _ _ _ _ H _ _ _ _ _ Hv Hv').
  - apply (kmem_nodup _ _ (vm_free _ _ _ _ (u_vm _ _ _ _ _ H'))).
  - intros v. rewrite Uf. split; (intros [?|Hx]; [by left|right]).
    + destruct Hx as (n & g & Hin & Hv). assert (4096 * n / 4096 = n) as En by (rewrite Z.mul_comm, Z.div_mul; lia). exists (4096 * n), g. rewrite En. split; [done|].
      rewrite (user_translate _ _ _ _ _ (4096 * n) H) by (apply Hr; by rewrite En). rewrite En, Hv. rewrite (Z.mul_comm 4096 n), Z.mod_mul, Z.add_0_r by lia. split; [done|]. by destruct (u_some _ _ _ _ _ H _ _ _ Hv) as (_ & ? & _).
    + destruct Hx as (va & e & Hin & Ht & Hv). rewrite (user_translate _ _ _ _ _ va H (Hr va Hin)) in Ht. destruct (U !! (va / 4096)) as [[w g]|] eqn:Eu; [|done]. injection Ht as Hw He. exists (va / 4096), g. split; [done|].
      rewrite Eu. do 2 f_equal. destruct (u_some _ _ _ _ _ H _ _ _ Eu) as (_ & Hwok & _). destruct (page_phys v Hv) as (Z1 & _ & P1). destruct (page_phys w Hwok) as (Z2 & _ & P2). pose proof (Z.mod_pos_bound va 4096 ltac:(lia)).
      apply Z.mod_divide in Z1 as [a1 A1]; [|lia]. apply Z.mod_divide in Z2 as [a2 A2]; [|lia]. rewrite <- P1, <- P2. f_equal. lia.
Qed.
End grow.
