(* ===== verification/Env.v ===== *)
(** * The kernel proc.c runs on

    The instance of [ProcEnv] made of the other components, with which fork,
    exit, wait and the rest of proc.c are those of the whole kernel. *)

From S2P Require Import Prelude Machine Spinlock CString ProcTable Proc Lifecycle Kstate.
From S2P Require Import Sleeplock Devices Disk Bio Layout Log Inode Console Fs Kalloc File Vm.

Section env.
Context {FU : Fuel} {HW : Hw} {DK : Disk} {LK : Link}.

(** A pointer as the process table holds it. *)
Definition deref (p : Z) : K nat := try_get (fun _ => unptr p).

#[export] Instance kernel_env : ProcEnv kres := {|
  Proc.forkret_addr := forkret_sym;
  Proc.trapret_addr := trapret_sym;
  Proc.ts_addr := ts_sym;
  Proc.kalloc := kalloc;
  Proc.kfree := kfree;
  Proc.setupkvm := setupkvm;
  Proc.inituvm := inituvm initcode;
  Proc.allocuvm := allocuvm;
  Proc.deallocuvm := deallocuvm;
  Proc.copyuvm := copyuvm;
  Proc.freevm := freevm;
  Proc.filedup f := i <- deref f ;; filedup i ;;; ret f;
  Proc.fileclose f := i <- deref f ;; fileclose i;
  Proc.idup p := i <- deref p ;; idup i ;;; ret p;
  Proc.iput p := i <- deref p ;; iput i;
  Proc.namei_root := o <- namei (cs "/") ;; ret match o with Some i => ptr i | None => 0 end;
  Proc.begin_op := begin_op;
  Proc.end_op := end_op;
  Proc.iinit := iinit ROOTDEV;
  Proc.initlog := initlog ROOTDEV |}.
End env.
