(* ===== verification/Exec.v ===== *)
(** * Loading programs (exec.c, elf.h) *)

From S2P Require Import Prelude Machine Spinlock CString ProcTable Proc Lifecycle Kstate.
From S2P Require Import Sleeplock Devices Disk Bio Layout Log Inode Console Fs Kalloc File Vm Env.

(** ** elf.h *)

Definition ELF_MAGIC : Z := 0x464C457F.
Definition ELF_PROG_LOAD : Z := 1.

Record elfhdr := mk_elfhdr { e_magic : Z; e_entry : Z; e_phoff : Z; e_phnum : Z }.
Record proghdr := mk_proghdr { ph_type : Z; ph_off : Z; ph_vaddr : Z; ph_filesz : Z; ph_memsz : Z }.

Definition sizeof_elfhdr : Z := 52.
Definition sizeof_proghdr : Z := 32.

(** The fields that [exec] uses, at their offsets. *)
Definition decode_elfhdr (d : list Z) : option elfhdr :=
  a ← get32 d 0; b ← get32 d 24; c ← get32 d 28; e ← le_decode <$> get_bytes d 44 2;
  Some (mk_elfhdr a b c e).
Definition decode_proghdr (d : list Z) : option proghdr :=
  a ← get32 d 0; b ← get32 d 4; c ← get32 d 8; e ← get32 d 16; f ← get32 d 20;
  Some (mk_proghdr a b c e f).

(** [for(last=s=path; *s; s++) if( *s == '/') last = s+1;] *)
Fixpoint last_elem (last s : list Z) : option (list Z) :=
  match s with
  | [] => None
  | c :: s' => if c =? 0 then Some last else last_elem (if c =? 47 then s' else last) s'
  end.

Section exec.
Context {FU : Fuel} {HW : Hw} {DK : Disk} {LK : Link}.

(** The label [bad]. *)
Definition exec_bad (pgdir : Z) (ip : option nat) : K Z :=
  (if negb (pgdir =? 0) then freevm pgdir else ret tt) ;;;
  match ip with Some i => iunlockput i ;;; end_op | None => ret tt end ;;;
  ret (-1).

(** The loop over the program headers, [n] of them to go; the size reached,
    or [None] for a jump to [bad]. *)
Fixpoint load_segments (n : nat) (ip : nat) (pgdir off sz : Z) : K (option Z) :=
  match n with
  | O => ret (Some sz)
  | S n' =>
      r <- readi ip (u32 off) sizeof_proghdr ;;
      if negb (fst r =? sizeof_proghdr) then ret None else
      ph <- try_get (fun _ => decode_proghdr (snd r)) ;;
      if negb (ph_type ph =? ELF_PROG_LOAD) then load_segments n' ip pgdir (s32 (off + sizeof_proghdr)) sz else
      if ph_memsz ph <? ph_filesz ph then ret None else
      if u32 (ph_vaddr ph + ph_memsz ph) <? ph_vaddr ph then ret None else
      sz <- allocuvm pgdir sz (u32 (ph_vaddr ph + ph_memsz ph)) ;;
      if sz =? 0 then ret None else
      if negb (ph_vaddr ph mod PGSIZE =? 0) then ret None else
      l <- loaduvm pgdir (ph_vaddr ph) ip (ph_off ph) (ph_filesz ph) ;;
      if l <? 0 then ret None else
      load_segments n' ip pgdir (s32 (off + sizeof_proghdr)) sz
  end.

(** Push the argument strings, [argc] of them so far; the stack pointer and
    the addresses of the strings, or [None] for a jump to [bad]. *)
Fixpoint push_args (pgdir : Z) (argv : list (list Z)) (argc : nat) (sp : Z) : K (option (Z * list Z)) :=
  match argv with
  | [] => ret (Some (sp, []))
  | a :: argv' =>
      if (MAXARG <=? argc)%nat then ret None else
      len <- try_get (fun _ => strlen a) ;;
      let sp := Z.ldiff (u32 (sp - (Z.of_nat len + 1))) 3 in
      r <- copyout pgdir sp (take (S len) a) ;;
      if r <? 0 then ret None else
      x <- push_args pgdir argv' (S argc) sp ;;
      ret match x with Some (sp', l) => Some (sp', sp :: l) | None => None end
  end.

(** [ustack] *)
Definition ustack (args : list Z) (sp : Z) : list Z :=
  let argc := Z.of_nat (length args) in
  0xffffffff :: argc :: u32 (sp - (argc + 1) * 4) :: args ++ [0].

(** From the end of the loading on; [ip] is released. *)
Definition exec_image (path : list Z) (argv : list (list Z)) (elf : elfhdr) (pgdir sz : Z) : K Z :=
  let sz := PGROUNDUP sz in
  sz <- allocuvm pgdir sz (u32 (sz + 2 * PGSIZE)) ;;
  if sz =? 0 then exec_bad pgdir None else
  clearpteu pgdir (u32 (sz - 2 * PGSIZE)) ;;;
  x <- push_args pgdir argv 0 sz ;;
  match x with
  | None => exec_bad pgdir None
  | Some (sp0, args) =>
      let us := ustack args sp0 in
      let sp := u32 (sp0 - 4 * Z.of_nat (length us)) in
      r <- copyout pgdir sp (encode_words us) ;;
      if r <? 0 then exec_bad pgdir None else
      last <- try_get (fun _ => last_elem path path) ;;
      p <- curproc ;;
      set_name p last ;;;
      q <- get_proc p ;;
      let oldpgdir := ProcTable.pgdir q in
      set_proc p (fun q => q <| ProcTable.pgdir := pgdir |>) ;;;
      set_proc p (fun q => q <| ProcTable.sz := sz |>) ;;;
      set_proc p (fun q => q <| tf ::= fun t => t <| t_eip := e_entry elf |> <| t_esp := sp |> |>) ;;;
      switchuvm p ;;;
      freevm oldpgdir ;;;
      ret 0
  end.

Definition exec (path : list Z) (argv : list (list Z)) : K Z :=
  begin_op ;;;
  o <- namei path ;;
  match o with
  | None => end_op ;;; cprintf (csn "exec: fail") [] ;;; ret (-1)
  | Some ip =>
      ilock ip ;;;
      r <- readi ip 0 sizeof_elfhdr ;;
      if negb (fst r =? sizeof_elfhdr) then exec_bad 0 (Some ip) else
      elf <- try_get (fun _ => decode_elfhdr (snd r)) ;;
      if negb (e_magic elf =? ELF_MAGIC) then exec_bad 0 (Some ip) else
      pgdir <- setupkvm ;;
      if pgdir =? 0 then exec_bad 0 (Some ip) else
      x <- load_segments (Z.to_nat (e_phnum elf)) ip pgdir (s32 (e_phoff elf)) 0 ;;
      match x with
      | None => exec_bad pgdir (Some ip)
      | Some sz =>
          iunlockput ip ;;;
          end_op ;;;
          exec_image path argv elf pgdir sz
      end
  end.
End exec.
