(* ===== verification/Bootmain.v ===== *)
(** * The boot loader (bootmain.c)

    bootmain() runs in protected mode without paging: it reads the kernel, an
    ELF file that starts at sector 1 of the disk, to the physical addresses
    its program headers ask for and jumps to its entry point.  The state is the
    physical memory and the accesses to the ports of the disk controller.

    The theorem: every segment is in memory, followed by zeros up to its size
    in memory, when control goes to the entry point. *)

From S2P Require Import Prelude Machine Spinlock CString ProcTable Proc Lifecycle Kstate.
From S2P Require Import Sleeplock Devices Disk Bio Layout Log Inode Console Fs Kalloc File Vm Env Exec.

(** ** The program *)

Definition SECTSIZE : Z := 512.

Record bst := mk_bst { bmem : Z → Z; bports : list io }.
#[export] Instance bst_eta : Eta bst := fun s => mk_bst (bmem s) (bports s).

(** Bytes put in memory at increasing addresses. *)
Fixpoint store (a : Z) (l : list Z) (m : Z → Z) : Z → Z :=
  match l with
  | [] => m
  | b :: l' => store (u32 (a + 1)) l' (fun x => if x =? a then b else m x)
  end.
Definition load (m : Z → Z) (a : Z) (n : nat) : Z := le_decode ((fun i => m (u32 (a + Z.of_nat i))) <$> seq 0 n).

Section bootmain.
Context {FU : Fuel} {HW : Hw}.

(** x86.h *)
Definition b_inb (port : Z) : M bst Z :=
  v <- gets (fun s => u8 (hw_in (bports s) port)) ;;
  modify (fun s => s <| bports ::= cons (In port v) |>) ;;;
  ret v.
Definition b_outb (port v : Z) : M bst unit := modify (fun s => s <| bports ::= cons (Out port (u8 v)) |>).
Fixpoint b_insl (port addr : Z) (cnt : nat) : M bst unit :=
  match cnt with
  | O => ret tt
  | S cnt' =>
      v <- gets (fun s => u32 (hw_in (bports s) port)) ;;
      modify (fun s => s <| bports ::= cons (In port v) |> <| bmem ::= store addr (le_encode 4 v) |>) ;;;
      b_insl port (u32 (addr + 4)) cnt'
  end.
Definition b_stosb (addr data cnt : Z) : M bst unit :=
  modify (fun s => s <| bmem ::= store addr (replicate (Z.to_nat cnt) (u8 data)) |>).

Definition waitdisk : M bst unit :=
  while fuel (v <- b_inb 0x1F7 ;; ret (negb (Z.land v 0xC0 =? 0x40))) (ret tt).

Definition readsect (dst offset : Z) : M bst unit :=
  waitdisk ;;;
  b_outb 0x1F2 1 ;;;
  b_outb 0x1F3 offset ;;;
  b_outb 0x1F4 (Z.shiftr offset 8) ;;;
  b_outb 0x1F5 (Z.shiftr offset 16) ;;;
  b_outb 0x1F6 (Z.lor (Z.shiftr offset 24) 0xE0) ;;;
  b_outb 0x1F7 0x20 ;;;
  waitdisk ;;;
  b_insl 0x1F0 dst (Z.to_nat (SECTSIZE / 4)).

(** [for(; pa < epa; pa += SECTSIZE, offset++)], at most [n] sectors. *)
Fixpoint read_sectors (n : nat) (pa epa offset : Z) : M bst unit :=
  if pa <? epa then
    match n with
    | O => fun _ => NoFuel
    | S n' => readsect pa offset ;;; read_sectors n' (u32 (pa + SECTSIZE)) epa (u32 (offset + 1))
    end
  else ret tt.

Definition readseg (pa count offset : Z) : M bst unit :=
  let epa := u32 (pa + count) in
  let pa := u32 (pa - offset mod SECTSIZE) in
  let offset := offset / SECTSIZE + 1 in
  read_sectors fuel pa epa offset.

(** [struct elfhdr] in the scratch space and its fields. *)
Definition elf : Z := 0x10000.
Definition elf_magic (m : Z → Z) : Z := load m elf 4.
Definition elf_entry (m : Z → Z) : Z := load m (elf + 24) 4.
Definition elf_phoff (m : Z → Z) : Z := load m (elf + 28) 4.
Definition elf_phnum (m : Z → Z) : Z := load m (elf + 44) 2.
(** [struct proghdr] at [ph]. *)
Definition ph_field (m : Z → Z) (ph o : Z) : Z := load m (u32 (ph + o)) 4.

(** The body of the loop over the program headers. *)
Definition one_header (ph : Z) : M bst unit :=
  pa <- gets (fun s => ph_field (bmem s) ph 12) ;;
  filesz <- gets (fun s => ph_field (bmem s) ph 16) ;;
  off <- gets (fun s => ph_field (bmem s) ph 4) ;;
  readseg pa filesz off ;;;
  memsz <- gets (fun s => ph_field (bmem s) ph 20) ;;
  filesz <- gets (fun s => ph_field (bmem s) ph 16) ;;
  if filesz <? memsz then b_stosb (u32 (pa + filesz)) 0 (memsz - filesz) else ret tt.

(** [for(; ph < eph; ph++)], at most [n] headers. *)
Fixpoint load_headers (n : nat) (ph eph : Z) : M bst unit :=
  if ph <? eph then
    match n with
    | O => fun _ => NoFuel
    | S n' => one_header ph ;;; load_headers n' (u32 (ph + sizeof_proghdr)) eph
    end
  else ret tt.

(** The address that control goes to, or [None] when bootmain returns. *)
Definition bootmain : M bst (option Z) :=
  readseg elf 4096 0 ;;;
  magic <- gets (fun s => elf_magic (bmem s)) ;;
  if negb (magic =? ELF_MAGIC) then ret None else
  phoff <- gets (fun s => elf_phoff (bmem s)) ;;
  phnum <- gets (fun s => elf_phnum (bmem s)) ;;
  let ph := u32 (elf + phoff) in
  let eph := u32 (ph + phnum * sizeof_proghdr) in
  load_headers fuel ph eph ;;;
  entry <- gets (fun s => elf_entry (bmem s)) ;;
  ret (Some entry).
End bootmain.

(** ** Memory *)

Lemma u32_id a : 0 ≤ a < 2 ^ 32 → u32 a = a.
Proof. intros. unfold u32. by apply Z.mod_small. Qed.

Lemma store_at l a m x : 0 ≤ a → a + Z.of_nat (length l) ≤ 2 ^ 32 →
  store a l m x = if decide (a ≤ x < a + Z.of_nat (length l)) then l !!! Z.to_nat (x - a) else m x.
Proof.
  revert a m. induction l as [|b l IH]; intros a m Ha Hl; cbn [store length] in *; [by rewrite decide_False by lia|].
  destruct (decide (x = a)) as [->|Hx].
  - rewrite (decide_True (P := a ≤ a < a + _)) by lia. rewrite Z.sub_diag. destruct l as [|c l]; [cbn [store]; by rewrite Z.eqb_refl|].
    cbn [length] in Hl. rewrite u32_id by (cbn [length] in *; lia). rewrite IH by (cbn [length] in *; lia). rewrite decide_False by lia. by rewrite Z.eqb_refl.
  - apply Z.eqb_neq in Hx as Hx'. destruct l as [|c l].
    + cbn [store length]. rewrite Hx', decide_False by lia. done.
    + rewrite u32_id by (cbn [length] in *; lia). rewrite IH by (cbn [length] in *; lia). destruct (decide (a + 1 ≤ x < _)).
      * rewrite decide_True by lia. by replace (Z.to_nat (x - a)) with (S (Z.to_nat (x - (a + 1)))) by lia.
      * rewrite decide_False by lia. by rewrite Hx'.
Qed.

(** The bytes of a stretch of memory given by a function of the address. *)
Definition loaded_at (m : Z → Z) (a n : Z) (f : Z → Z) : Prop := ∀ j, 0 ≤ j < n → m (a + j) = f j.
Lemma load_ext m a n f : 0 ≤ a → a + Z.of_nat n ≤ 2 ^ 32 → loaded_at m a (Z.of_nat n) f → load m a n = le_decode ((f ∘ Z.of_nat) <$> seq 0 n).
Proof.
  intros Ha Hn Hf. unfold load. f_equal. apply list_fmap_ext. intros i k [-> Hk]%lookup_seq. rewrite u32_id by lia. apply Hf. lia.
Qed.

(** ** The disk controller

    What the ATA specification says of reading a sector in LBA mode by
    programmed I/O, for a disk of sectors [D]: the status register becomes
    ready within [fuel] reads of it, and after the command has been issued and
    any number of reads of the status the data register delivers the words of
    the sector one after the other. *)
Section disk.
Context {FU : Fuel} {HW : Hw}.

Definition status_read (log : list io) : list io := In 0x1F7 (u8 (hw_in log 0x1F7)) :: log.
Definition issued (n : Z) (log : list io) : list io :=
  Out 0x1F7 0x20 :: Out 0x1F6 (u8 (Z.lor (Z.shiftr n 24) 0xE0)) :: Out 0x1F5 (u8 (Z.shiftr n 16)) :: Out 0x1F4 (u8 (Z.shiftr n 8)) ::
  Out 0x1F3 (u8 n) :: Out 0x1F2 1 :: log.
Definition sector_word (d : list Z) (k : nat) : Z := le_decode (take 4 (drop (4 * k) d)).
Fixpoint transferred (d : list Z) (k : nat) (log : list io) : list io :=
  match k with O => log | S k' => In 0x1F0 (sector_word d k') :: transferred d k' log end.

Record ata_disk (D : Z → list Z) : Prop := {
  ata_sectors : ∀ n, length (D n) = 512%nat ∧ is_bytes (D n);
  ata_ready : ∀ log, ∃ k, (k ≤ fuel)%nat ∧ Z.land (u8 (hw_in (Nat.iter k status_read log) 0x1F7)) 0xC0 = 0x40;
  ata_data : ∀ log n k p, 0 ≤ n < 2 ^ 28 → (k < 128)%nat →
    hw_in (transferred (D n) k (Nat.iter p status_read (issued n log))) 0x1F0 = sector_word (D n) k }.

Context {D : Z → list Z} (HD : ata_disk D).

Lemma waitdisk_ends s : ∃ k, waitdisk s = Ret tt (mk_bst (bmem s) (Nat.iter k status_read (bports s))).
Proof.
  destruct (ata_ready D HD (bports s)) as (k & Hk & Hr). unfold waitdisk. revert s k Hk Hr. generalize fuel as n.
  induction n as [|n IH]; intros s k Hk Hr; cbn [while].
  - replace k with 0%nat in * by lia. exists 1%nat. rewrite (bind_ret _ _ s (negb (Z.land (u8 (hw_in (bports s) 0x1F7)) 0xC0 =? 0x40)) (mk_bst (bmem s) (status_read (bports s)))) by done.
    change (Nat.iter 0 status_read (bports s)) with (bports s) in Hr. by rewrite Hr.
  - rewrite (bind_ret _ _ s (negb (Z.land (u8 (hw_in (bports s) 0x1F7)) 0xC0 =? 0x40)) (mk_bst (bmem s) (status_read (bports s)))) by done.
    destruct (Z.eqb_spec (Z.land (u8 (hw_in (bports s) 0x1F7)) 0xC0) 0x40) as [E|E]; [by exists 1%nat|]. cbn [negb].
    destruct k as [|k]; [done|]. rewrite (bind_ret _ _ _ tt (mk_bst (bmem s) (status_read (bports s)))) by done.
    destruct (IH (mk_bst (bmem s) (status_read (bports s))) k) as (k' & ->); [lia| |].
    + cbn [bports]. by rewrite Nat.iter_succ_r in Hr.
    + exists (S k'). by rewrite Nat.iter_succ_r.
Qed.

Lemma sector_bytes n k : (k < 128)%nat → le_encode 4 (u32 (sector_word (D n) k)) = take 4 (drop (4 * k) (D n)).
Proof.
  intros Hk. destruct (ata_sectors D HD n) as [Hl Hb]. unfold sector_word. set (l := take 4 (drop (4 * k) (D n))).
  assert (length l = 4%nat) as H4 by (unfold l; rewrite length_take, length_drop; lia). assert (is_bytes l) as Hbl by by apply Forall_take, Forall_drop.
  pose proof (le_decode_bound l Hbl) as Hd. rewrite H4 in Hd. rewrite u32_id by (change (2 ^ 32) with (256 ^ Z.of_nat 4); lia).
  rewrite <- H4 at 1. by apply le_encode_decode.
Qed.

Lemma insl_sector n log p cnt k dst m : 0 ≤ n < 2 ^ 28 → (k + cnt ≤ 128)%nat → 0 ≤ dst → dst + 4 * Z.of_nat cnt ≤ 2 ^ 32 →
  let base := Nat.iter p status_read (issued n log) in
  ∃ m' l', b_insl 0x1F0 dst cnt (mk_bst m (transferred (D n) k base)) = Ret tt (mk_bst m' l') ∧
    ∀ x, m' x = if decide (dst ≤ x < dst + 4 * Z.of_nat cnt) then D n !!! (4 * k + Z.to_nat (x - dst))%nat else m x.
Proof.
  intros Hn Hk Hd Hw base. revert k dst m Hk Hd Hw. induction cnt as [|cnt IH]; intros k dst m Hk Hd Hw; cbn [b_insl].
  - exists m, (transferred (D n) k base). split; [done|]. intros x. by rewrite decide_False by lia.
  - set (w := u32 (sector_word (D n) k)). rewrite (bind_ret _ _ _ w (mk_bst m (transferred (D n) k base))) by (unfold gets; cbn [bports]; unfold base; by rewrite (ata_data D HD log n k p) by lia).
    set (m1 := store dst (le_encode 4 w) m). assert (w = sector_word (D n) k) as Ew.
    { unfold w. apply u32_id. pose proof (le_decode_bound (take 4 (drop (4 * k) (D n)))) as Hb. destruct (ata_sectors D HD n) as [Hl Hbs].
      rewrite length_take, length_drop, Hl in Hb. replace (4 `min` (512 - 4 * k))%nat with 4%nat in Hb by lia. apply Hb. by apply Forall_take, Forall_drop. }
    rewrite (bind_ret _ _ _ tt (mk_bst m1 (transferred (D n) (S k) base))) by (cbn [transferred]; by rewrite <- Ew).
    assert (∀ x, m1 x = if decide (dst ≤ x < dst + 4) then D n !!! (4 * k + Z.to_nat (x - dst))%nat else m x) as Hm1.
    { intros x. unfold m1. rewrite store_at by (rewrite ?length_le_encode; lia). rewrite length_le_encode. change (Z.of_nat 4) with 4. destruct (decide (dst ≤ x < dst + 4)) as [Hx|]; [|done].
      unfold w. rewrite sector_bytes by lia. rewrite lookup_total_take by lia. rewrite lookup_total_drop. by rewrite decide_True by lia. }
    destruct cnt as [|cnt].
    + exists m1, (transferred (D n) (S k) base). split; [done|]. intros x. by rewrite Hm1.
    + rewrite u32_id by lia. destruct (IH (S k) (dst + 4) m1) as (m' & l' & -> & Hm'); [lia..|]. exists m', l'. split; [done|]. intros x. rewrite Hm', Hm1.
      destruct (decide (dst + 4 ≤ x < _)); [rewrite (decide_True (P := dst ≤ x < _)) by lia; f_equal; lia|].
      destruct (decide (dst ≤ x < dst + 4)); [by rewrite decide_True by lia|by rewrite decide_False by lia].
Qed.

Lemma readsect_at dst n s : 0 ≤ n < 2 ^ 28 → 0 ≤ dst → dst + 512 ≤ 2 ^ 32 →
  ∃ m' l', readsect dst n s = Ret tt (mk_bst m' l') ∧
    ∀ x, m' x = if decide (dst ≤ x < dst + 512) then D n !!! Z.to_nat (x - dst) else bmem s x.
Proof.
  intros Hn Hd Hw. unfold readsect. destruct (waitdisk_ends s) as (p & E). rewrite (bind_ret _ _ _ _ _ E). clear E. set (log := Nat.iter p status_read (bports s)).
  change (∃ m' l', (waitdisk ;;; b_insl 0x1F0 dst 128) (mk_bst (bmem s) (issued n log)) = Ret tt (mk_bst m' l') ∧
    ∀ x, m' x = if decide (dst ≤ x < dst + 512) then D n !!! Z.to_nat (x - dst) else bmem s x).
  destruct (waitdisk_ends (mk_bst (bmem s) (issued n log))) as (p' & E). rewrite (bind_ret _ _ _ _ _ E).
  exact (insl_sector n log p' 128 0 dst (bmem s) Hn (le_n _) Hd Hw).
Qed.

(** The bytes of the kernel file, which starts at sector 1. *)
Definition kbyte (j : Z) : Z := D (j / 512 + 1) !!! Z.to_nat (j mod 512).

Lemma read_sectors_at k n pa epa o s : (k ≤ n)%nat → 0 ≤ pa → pa + 512 * Z.of_nat k < 2 ^ 32 → 1 ≤ o → o + Z.of_nat k ≤ 2 ^ 28 →
  epa ≤ pa + 512 * Z.of_nat k → (k ≠ 0%nat → pa + 512 * (Z.of_nat k - 1) < epa) →
  ∃ m' l', read_sectors n pa epa o s = Ret tt (mk_bst m' l') ∧
    ∀ x, m' x = if decide (pa ≤ x < pa + 512 * Z.of_nat k) then kbyte ((o - 1) * 512 + (x - pa)) else bmem s x.
Proof.
  revert n pa o s. induction k as [|k IH]; intros n pa o s Hn Hp Hw Ho Hb He Hl; destruct n as [|n]; try lia; cbn [read_sectors].
  1,2: rewrite (proj2 (Z.ltb_ge _ _)) by lia; exists (bmem s), (bports s); (split; [by destruct s|]); intros x; by rewrite decide_False by lia.
  specialize (Hl ltac:(done)). rewrite (proj2 (Z.ltb_lt _ _)) by lia. destruct (readsect_at pa o s) as (m1 & l1 & E & Hm1); [lia..|]. rewrite (bind_ret _ _ _ _ _ E).
  unfold SECTSIZE. rewrite !u32_id by lia. destruct (IH n (pa + 512) (o + 1) (mk_bst m1 l1)) as (m' & l' & -> & Hm'); [lia..|].
  exists m', l'. split; [done|]. intros x. rewrite Hm'. cbn [bmem]. rewrite Hm1. destruct (decide (pa + 512 ≤ x < _)).
  - rewrite (decide_True (P := pa ≤ x < _)) by lia. f_equal. lia.
  - destruct (decide (pa ≤ x < pa + 512)) as [Hx|]; [|by rewrite decide_False by lia]. rewrite decide_True by lia. unfold kbyte.
    rewrite Z.add_comm, Z.mod_add, Z.div_add, Z.mod_small, Z.div_small by lia. by replace (0 + (o - 1) + 1) with o by lia.
Qed.

(** The number of sectors that [readseg] reads. *)
Definition sectors_of (count off : Z) : Z := (count + off mod 512 + 511) / 512.

Lemma readseg_at pa count off s : 0 ≤ count → 0 ≤ off → off mod 512 ≤ pa → pa + count + 512 < 2 ^ 32 → (off + count) / 512 + 2 < 2 ^ 28 →
  sectors_of count off ≤ Z.of_nat fuel →
  ∃ m' l', readseg pa count off s = Ret tt (mk_bst m' l') ∧
    ∀ x, m' x = if decide (pa - off mod 512 ≤ x < pa - off mod 512 + 512 * sectors_of count off) then kbyte (off + (x - pa)) else bmem s x.
Proof.
  intros Hc Ho Hp Hw Hb Hf. pose proof (Z.mod_pos_bound off 512 ltac:(lia)). pose proof (Z.div_mod off 512 ltac:(lia)) as Hdm. pose proof (Z.div_pos off 512 ltac:(lia) ltac:(lia)).
  unfold sectors_of in *. set (k := (count + off mod 512 + 511) / 512) in *. pose proof (Z.div_mod (count + off mod 512 + 511) 512 ltac:(lia)) as Hk.
  pose proof (Z.mod_pos_bound (count + off mod 512 + 511) 512 ltac:(lia)). fold k in Hk. pose proof (Z.div_mod (off + count) 512 ltac:(lia)). pose proof (Z.mod_pos_bound (off + count) 512 ltac:(lia)).
  unfold readseg, SECTSIZE. rewrite !u32_id by lia. destruct (read_sectors_at (Z.to_nat k) fuel (pa - off mod 512) (pa + count) (off / 512 + 1) s) as (m' & l' & -> & Hm'); [lia..|].
  exists m', l'. split; [done|]. intros x. rewrite Hm', Z2Nat.id by lia. destruct (decide _); [|done]. f_equal. lia.
Qed.

(** ** The kernel file *)

Definition kload (o : Z) (n : nat) : Z := le_decode ((fun i => kbyte (o + Z.of_nat i)) <$> seq 0 n).
Definition phoff : Z := kload 28 4.
Definition phnum : Z := kload 44 2.
Definition seg_off (i : Z) : Z := kload (phoff + 32 * i + 4) 4.
Definition seg_pa (i : Z) : Z := kload (phoff + 32 * i + 12) 4.
Definition seg_filesz (i : Z) : Z := kload (phoff + 32 * i + 16) 4.
Definition seg_memsz (i : Z) : Z := kload (phoff + 32 * i + 20) 4.
(** The end of the segment, and where the first sector of it is put. *)
Definition seg_end (i : Z) : Z := seg_pa i + Z.max (seg_filesz i) (seg_memsz i).
Definition seg_start (i : Z) : Z := seg_pa i - seg_off i `mod` 512.

(** A kernel that fits the loader: the headers are in the first page, the
    segments are above the scratch space, in memory and on the disk, and in
    increasing order, with room in front of each for the start of its first
    sector. *)
Record bootable : Prop := {
  bt_headers : phoff + 32 * phnum ≤ 4096;
  bt_fuel : phnum ≤ Z.of_nat fuel;
  bt_above : ∀ i, 0 ≤ i < phnum → elf + 4096 ≤ seg_start i;
  bt_memory : ∀ i, 0 ≤ i < phnum → seg_end i + 512 < 2 ^ 32;
  bt_disk : ∀ i, 0 ≤ i < phnum → (seg_off i + seg_filesz i) / 512 + 2 < 2 ^ 28 ∧ sectors_of (seg_filesz i) (seg_off i) ≤ Z.of_nat fuel;
  bt_order : ∀ i j, 0 ≤ i < j → j < phnum → seg_end i ≤ seg_start j }.

(** The first page of the file is in the scratch space. *)
Definition scratch (m : Z → Z) : Prop := ∀ j, 0 ≤ j < 4096 → m (elf + j) = kbyte j.
(** Segment [i] is in memory. *)
Definition in_place (m : Z → Z) (i : Z) : Prop :=
  (∀ j, 0 ≤ j < seg_filesz i → m (seg_pa i + j) = kbyte (seg_off i + j)) ∧
  (∀ j, seg_filesz i ≤ j < seg_memsz i → m (seg_pa i + j) = 0).

Lemma kload_bound o n : 0 ≤ o → 0 ≤ kload o n < 256 ^ Z.of_nat n.
Proof.
  intros Ho. unfold kload. assert (is_bytes ((fun i => kbyte (o + Z.of_nat i)) <$> seq 0 n)) as Hb.
  { apply Forall_fmap, Forall_true. intros i. unfold compose, kbyte. destruct (ata_sectors D HD ((o + Z.of_nat i) / 512 + 1)) as [Hl Hb].
    pose proof (Z.mod_pos_bound (o + Z.of_nat i) 512 ltac:(lia)). apply (Forall_lookup_total_1 _ _ _ Hb). lia. }
  apply le_decode_bound in Hb. by rewrite length_fmap, length_seq in Hb.
Qed.
Lemma load_scratch m o n : scratch m → 0 ≤ o → o + Z.of_nat n ≤ 4096 → load m (elf + o) n = kload o n.
Proof.
  intros Hm Ho Hn. unfold elf. rewrite (load_ext m (0x10000 + o) n (fun j => kbyte (o + j))); [done|lia|lia|].
  intros j Hj. rewrite <- Z.add_assoc. apply Hm. lia.
Qed.

Section headers.
Context (HB : bootable).

Lemma scratch_below m m' b : scratch m → elf + 4096 ≤ b → (∀ x, x < b → m' x = m x) → scratch m'.
Proof. intros Hm Hb H j Hj. rewrite H by lia. by apply Hm. Qed.
Lemma in_place_below m m' i b : in_place m i → seg_end i ≤ b → (∀ x, x < b → m' x = m x) → in_place m' i.
Proof. unfold seg_end. intros [H1 H2] Hb H. split; intros j Hj; rewrite H by lia; auto. Qed.

Lemma header_fields m i : scratch m → 0 ≤ i < phnum → let ph := elf + phoff + 32 * i in
  ph_field m ph 4 = seg_off i ∧ ph_field m ph 12 = seg_pa i ∧ ph_field m ph 16 = seg_filesz i ∧ ph_field m ph 20 = seg_memsz i.
Proof.
  intros Hm Hi ph. pose proof (bt_headers HB). assert (0 ≤ phoff) by (apply kload_bound; lia).
  assert (∀ o, 0 ≤ o → o + 4 ≤ 32 → ph_field m ph o = kload (phoff + 32 * i + o) 4) as Hf.
  { intros o H1 H2. unfold ph_field, ph. rewrite u32_id by (unfold elf; lia). rewrite <- !Z.add_assoc. apply load_scratch; [done|lia|lia]. }
  by rewrite !Hf.
Qed.
Lemma seg_bounds i : 0 ≤ i → 0 ≤ seg_off i ∧ 0 ≤ seg_filesz i ∧ 0 ≤ seg_memsz i.
Proof. intros Hi. assert (0 ≤ phoff) by (apply kload_bound; lia). repeat split; apply kload_bound; lia. Qed.

Lemma one_header_at i s : 0 ≤ i < phnum → scratch (bmem s) →
  ∃ s', one_header (elf + phoff + 32 * i) s = Ret tt s' ∧ in_place (bmem s') i ∧ ∀ x, x < seg_start i → bmem s' x = bmem s x.
Proof.
  intros Hi Hs. set (ph := elf + phoff + 32 * i). destruct (header_fields (bmem s) i Hs Hi) as (F1 & F2 & F3 & F4). fold ph in F1, F2, F3, F4.
  destruct (seg_bounds i ltac:(lia)) as (B1 & B2 & B3). pose proof (Z.mod_pos_bound (seg_off i) 512 ltac:(lia)).
  pose proof (bt_above HB i Hi) as Ha. pose proof (bt_memory HB i Hi) as Hm. destruct (bt_disk HB i Hi) as [Hd1 Hd2]. unfold seg_end, seg_start in *. unfold elf in Ha.
  unfold one_header. rewrite (bind_ret _ _ _ (seg_pa i) s), (bind_ret _ _ _ (seg_filesz i) s), (bind_ret _ _ _ (seg_off i) s) by (unfold gets; by rewrite ?F1, ?F2, ?F3).
  destruct (readseg_at (seg_pa i) (seg_filesz i) (seg_off i) s) as (m1 & l1 & E & Hm1); [lia..|]. rewrite (bind_ret _ _ _ _ _ E). clear E.
  assert (∀ x, x < seg_pa i - seg_off i `mod` 512 → m1 x = bmem s x) as Hlow by (intros x Hx; by rewrite Hm1, decide_False by lia).
  assert (∀ j, 0 ≤ j < seg_filesz i → m1 (seg_pa i + j) = kbyte (seg_off i + j)) as Hfile.
  { intros j Hj. rewrite Hm1. unfold sectors_of. pose proof (Z.div_mod (seg_filesz i + seg_off i `mod` 512 + 511) 512 ltac:(lia)). pose proof (Z.mod_pos_bound (seg_filesz i + seg_off i `mod` 512 + 511) 512 ltac:(lia)).
    rewrite decide_True by lia. f_equal. lia. }
  destruct (header_fields m1 i) as (_ & _ & G3 & G4); [eapply scratch_below; [exact Hs| |exact Hlow]; unfold elf; lia|done|]. fold ph in G3, G4.
  rewrite (bind_ret _ _ _ (seg_memsz i) (mk_bst m1 l1)), (bind_ret _ _ _ (seg_filesz i) (mk_bst m1 l1)) by (unfold gets; cbn [bmem]; by rewrite ?G3, ?G4).
  destruct (Z.ltb_spec (seg_filesz i) (seg_memsz i)) as [Hlt|Hge].
  - eexists. split; [reflexivity|]. unfold b_stosb, modify. change (u8 0) with 0. set (m2 := store (u32 (seg_pa i + seg_filesz i)) (replicate (Z.to_nat (seg_memsz i - seg_filesz i)) 0) m1).
    change (in_place m2 i ∧ ∀ x, x < seg_pa i - seg_off i `mod` 512 → m2 x = bmem s x).
    assert (∀ x, m2 x = if decide (seg_pa i + seg_filesz i ≤ x < seg_pa i + seg_memsz i) then 0 else m1 x) as Hm2.
    { intros x. unfold m2. rewrite u32_id by lia. rewrite store_at by (rewrite ?length_replicate; lia). rewrite length_replicate, Z2Nat.id by lia.
      replace (seg_pa i + seg_filesz i + (seg_memsz i - seg_filesz i)) with (seg_pa i + seg_memsz i) by lia. destruct (decide _); [|done]. apply lookup_total_replicate_2. lia. }
    split; [split|]; intros j Hj; rewrite Hm2; [rewrite decide_False by lia; by apply Hfile|by rewrite decide_True by lia|rewrite decide_False by lia; by apply Hlow].
  - exists (mk_bst m1 l1). split; [done|]. split; [|done]. split; [done|]. intros j Hj. lia.
Qed.

Lemma load_headers_at k i n s : phnum = i + Z.of_nat k → 0 ≤ i → (k ≤ n)%nat → scratch (bmem s) → (∀ j, 0 ≤ j < i → in_place (bmem s) j) →
  ∃ s', load_headers n (elf + phoff + 32 * i) (elf + phoff + 32 * phnum) s = Ret tt s' ∧ scratch (bmem s') ∧ ∀ j, 0 ≤ j < phnum → in_place (bmem s') j.
Proof.
  revert i n s. induction k as [|k IH]; intros i n s Hk Hi Hn Hs Hp; (destruct n as [|n]; [try lia|]); cbn [load_headers].
  1,2: rewrite (proj2 (Z.ltb_ge _ _)) by lia; exists s; split; [done|]; split; [done|]; intros j Hj; apply Hp; lia.
  rewrite (proj2 (Z.ltb_lt _ _)) by lia. destruct (one_header_at i s) as (s1 & E & Hin & Hlow); [lia|done|]. rewrite (bind_ret _ _ _ _ _ E). clear E.
  pose proof (bt_headers HB). assert (0 ≤ phoff) by (apply kload_bound; lia). unfold sizeof_proghdr. rewrite u32_id by (unfold elf; lia).
  replace (elf + phoff + 32 * i + 32) with (elf + phoff + 32 * (i + 1)) by lia. apply IH; [lia..| |].
  - eapply scratch_below; [exact Hs| |exact Hlow]. apply (bt_above HB). lia.
  - intros j Hj. destruct (decide (j = i)) as [->|]; [done|]. eapply in_place_below; [apply Hp; lia| |exact Hlow]. apply (bt_order HB); lia.
Qed.

End headers.

Lemma first_page s : 8 ≤ Z.of_nat fuel → ∃ s', readseg elf 4096 0 s = Ret tt s' ∧ scratch (bmem s').
Proof.
  intros Hf. destruct (readseg_at elf 4096 0 s) as (m & l & E & Hm); [by vm_compute..| |].
  - by change (8 ≤ Z.of_nat fuel).
  - exists (mk_bst m l). split; [done|]. intros j Hj. cbn [bmem]. rewrite Hm. change (0 mod 512) with 0. change (sectors_of 4096 0) with 8. rewrite decide_True by lia. f_equal. lia.
Qed.

(** bootmain() loads the kernel.  On a disk that holds an ELF file fit for
    the loader it ends, every segment of the file is in memory at its physical
    address, followed by zeros up to its size in memory, and control goes to
    the entry point of the file; when the file does not start with the magic
    number of ELF, bootmain returns instead. *)
Theorem bootmain_loads s : 8 ≤ Z.of_nat fuel → (kload 0 4 = ELF_MAGIC → bootable) → ∃ s', scratch (bmem s') ∧
  if decide (kload 0 4 = ELF_MAGIC) then bootmain s = Ret (Some (kload 24 4)) s' ∧ ∀ i, 0 ≤ i < phnum → in_place (bmem s') i
  else bootmain s = Ret None s'.
Proof.
  intros Hf HB. destruct (first_page s Hf) as (s1 & E & Hs1). unfold bootmain. rewrite (bind_ret _ _ _ _ _ E). clear E.
  rewrite (bind_ret _ _ _ (kload 0 4) s1) by (unfold gets, elf_magic; f_equal; rewrite <- (Z.add_0_r elf); apply load_scratch; [done|lia|lia]).
  destruct (decide (kload 0 4 = ELF_MAGIC)) as [Hma|Hne]; [specialize (HB Hma)|exists s1; split; [done|]; by rewrite (proj2 (Z.eqb_neq _ _) Hne)].
  rewrite Hma, Z.eqb_refl. cbn [negb]. rewrite (bind_ret _ _ _ phoff s1), (bind_ret _ _ _ phnum s1) by (unfold gets, elf_phoff, elf_phnum; f_equal; apply load_scratch; [done|lia|lia]).
  pose proof (bt_headers HB). pose proof (bt_fuel HB). assert (0 ≤ phoff) by (apply kload_bound; lia). assert (0 ≤ phnum) by (apply kload_bound; lia).
  unfold sizeof_proghdr. rewrite !u32_id by (rewrite ?u32_id; unfold elf; lia).
  destruct (load_headers_at HB (Z.to_nat phnum) 0 fuel s1) as (s' & E & Hs' & Hin); [lia|lia|lia|done|intros; lia|].
  replace (elf + phoff + 32 * 0) with (elf + phoff) in E by lia. replace (phnum * 32) with (32 * phnum) by lia. rewrite (bind_ret _ _ _ _ _ E). exists s'. split; [done|].
  split; [|done]. rewrite (bind_ret _ _ _ (kload 24 4) s') by (unfold gets, elf_entry; f_equal; apply load_scratch; [done|lia|lia]). done.
Qed.
End disk.

(** ** A disk and its controller *)

(** The word the data register delivers next: [k] words have been read since
    the command. *)
Fixpoint data_word (D : Z → list Z) (log : list io) (k : nat) : Z :=
  match log with
  | In p _ :: l => data_word D l (if p =? 0x1F0 then S k else k)
  | Out _ _ :: Out _ d :: Out _ c :: Out _ b :: Out _ a :: _ => sector_word (D (a + 256 * b + 65536 * c + 16777216 * Z.land d 0xF)) k
  | _ => 0
  end.
(** A controller that is ready at once. *)
Definition ata_hw (D : Z → list Z) : Hw :=
  {| hw_in log p := if p =? 0x1F0 then data_word D log 0 else 0x40; hw_min _ _ := 0; hw_cr2 _ := 0 |}.

Lemma lba_bytes n : 0 ≤ n < 2 ^ 28 →
  u8 n + 256 * u8 (Z.shiftr n 8) + 65536 * u8 (Z.shiftr n 16) + 16777216 * Z.land (u8 (Z.lor (Z.shiftr n 24) 0xE0)) 0xF = n.
Proof.
  intros Hn. rewrite !Z.shiftr_div_pow2 by lia. change (2 ^ 8) with 256. change (2 ^ 16) with 65536. change (2 ^ 24) with 16777216. set (h := n / 16777216).
  assert (0 ≤ h < 16) as Hh by (unfold h; split; [apply Z.div_pos; lia|apply Z.div_lt_upper_bound; lia]).
  assert (Z.land (u8 (Z.lor h 0xE0)) 0xF = h) as ->.
  { assert (h = 0 ∨ h = 1 ∨ h = 2 ∨ h = 3 ∨ h = 4 ∨ h = 5 ∨ h = 6 ∨ h = 7 ∨ h = 8 ∨ h = 9 ∨ h = 10 ∨ h = 11 ∨ h = 12 ∨ h = 13 ∨ h = 14 ∨ h = 15) as Hc by lia.
    clear Hh. clearbody h. repeat (destruct Hc as [->|Hc]; [done|]). by rewrite Hc. }
  unfold u8, h. change (2 ^ 8) with 256. Z.to_euclidean_division_equations. lia.
Qed.

Lemma ata_hw_ok (FU : Fuel) D : (∀ n, length (D n) = 512%nat ∧ is_bytes (D n)) → ata_disk (HW := ata_hw D) D.
Proof.
  intros HD. split; [done|intros log; exists 0%nat; split; [lia|done]|]. intros log n k p Hn Hk.
  change (data_word D (transferred (D n) k (Nat.iter p (status_read (HW := ata_hw D)) (issued n log))) 0 = sector_word (D n) k).
  assert (∀ a, data_word D (Nat.iter p (status_read (HW := ata_hw D)) (issued n log)) a = sector_word (D n) a) as Hp.
  { intros a. induction p as [|p IH]; [|done]. change (sector_word (D (u8 n + 256 * u8 (Z.shiftr n 8) + 65536 * u8 (Z.shiftr n 16) + 16777216 * Z.land (u8 (Z.lor (Z.shiftr n 24) 0xE0)) 0xF)) a = sector_word (D n) a).
    by rewrite lba_bytes. }
  assert (∀ a, data_word D (transferred (D n) k (Nat.iter p (status_read (HW := ata_hw D)) (issued n log))) a = sector_word (D n) (k + a)) as H.
  { clear Hk. induction k as [|k IH]; intros a; [apply Hp|]. cbn [transferred data_word]. rewrite Z.eqb_refl, IH. f_equal. lia. }
  by rewrite H, Nat.add_0_r.
Qed.

(** A kernel of two segments: 600 bytes from offset 512 on, with 100 bytes of
    zeros behind them, and 20 bytes from offset 1200 on. *)
Definition b_header : list Z :=
  le_encode 4 ELF_MAGIC ++ replicate 20 0 ++ le_encode 4 0x100000 ++ le_encode 4 52 ++ replicate 12 0 ++ le_encode 2 2 ++ replicate 6 0 ++
  le_encode 4 1 ++ le_encode 4 512 ++ le_encode 4 0 ++ le_encode 4 0x100000 ++ le_encode 4 600 ++ le_encode 4 700 ++ replicate 8 0 ++
  le_encode 4 1 ++ le_encode 4 1200 ++ le_encode 4 0 ++ le_encode 4 0x100400 ++ le_encode 4 20 ++ le_encode 4 20 ++ replicate 8 0.
Definition b_disk (n : Z) : list Z := if n =? 1 then b_header ++ replicate 396 0 else replicate 512 (u8 n).
Definition b_fuel : Fuel := 8%nat.
Definition b_start : bst := mk_bst (fun _ => 0xFF) [].

Lemma b_disk_bytes n : length (b_disk n) = 512%nat ∧ is_bytes (b_disk n).
Proof.
  unfold b_disk. destruct (n =? 1); [split; [done|]|split; [by rewrite length_replicate|]].
  - apply Forall_forall. intros b Hb. assert (forallb (fun b => (0 <=? b) && (b <? 256)) (b_header ++ replicate 396 0) = true) as H by by vm_compute.
    rewrite forallb_forall in H. apply list_elem_of_In in Hb. apply H in Hb. lia.
  - apply Forall_replicate. apply Z.mod_pos_bound. lia.
Qed.
Lemma b_bootable : bootable (FU := b_fuel) (D := b_disk).
Proof.
  assert (phnum (D := b_disk) = 2) as Hn by by vm_compute.
  assert (∀ i, 0 ≤ i < phnum (D := b_disk) → i = 0 ∨ i = 1) as H2 by (intros i; rewrite Hn; lia).
  split; [by vm_compute..|intros i [->| ->]%H2; by vm_compute|intros i [->| ->]%H2; by vm_compute|intros i [->| ->]%H2; split; by vm_compute|].
  intros i j Hij Hj. rewrite Hn in Hj. assert (i = 0) as -> by lia. assert (j = 1) as -> by lia. by vm_compute.
Qed.

Lemma bootmain_loads_witness : ∃ s', bootmain (FU := b_fuel) (HW := ata_hw b_disk) b_start = Ret (Some 0x100000) s' ∧
  bmem s' 0x100257 = 3 ∧ bmem s' 0x100258 = 0 ∧ bmem s' 0x100400 = 3.
Proof.
  destruct (bootmain_loads (FU := b_fuel) (HW := ata_hw b_disk) (ata_hw_ok b_fuel b_disk b_disk_bytes) b_start) as (s' & _ & H); [done|intros _; exact b_bootable|].
  rewrite decide_True in H by by vm_compute. destruct H as [E H]. exists s'. split; [exact E|].
  assert (phnum (D := b_disk) = 2) as Hn by (repeat split; vm_compute; reflexivity). rewrite Hn in H. destruct (H 0 ltac:(lia)) as [H1 H2]. destruct (H 1 ltac:(lia)) as [H3 _].
  assert (seg_pa (D := b_disk) 0 = 0x100000 ∧ seg_filesz (D := b_disk) 0 = 600 ∧ seg_memsz (D := b_disk) 0 = 700 ∧ seg_pa (D := b_disk) 1 = 0x100400) as (A1 & A2 & A3 & A4) by (repeat split; vm_compute; reflexivity).
  assert (seg_off (D := b_disk) 0 = 512 ∧ seg_off (D := b_disk) 1 = 1200 ∧ seg_filesz (D := b_disk) 1 = 20) as (A5 & A6 & A7) by (repeat split; vm_compute; reflexivity).
  rewrite A1, A2, ?A3, ?A5 in H1. rewrite A1, A2, A3 in H2. rewrite A4, A6, A7 in H3. split; [|split].
  - change 0x100257 with (0x100000 + 599). rewrite (H1 599) by lia. vm_compute. reflexivity.
  - apply (H2 600). lia.
  - change 0x100400 with (0x100400 + 0). rewrite (H3 0) by lia. vm_compute. reflexivity.
Defined.
