(* ===== verification/Syscall.v ===== *)
(** * System calls (syscall.c, sysproc.c, sysfile.c)

    User memory is reached through the page table of the current process,
    which is the one loaded while it runs.  A pointer argument that only points
    at a string is replaced by the string: as the code remarks, it cannot
    change between the check and the use. *)

From S2P Require Import Prelude Machine Spinlock CString ProcTable Proc Lifecycle Kstate.
From S2P Require Import Sleeplock Devices Disk Bio Layout Log Inode Console Fs Kalloc File Vm Env Exec.

(** fcntl.h *)
Definition O_RDONLY : Z := 0x000.
Definition O_WRONLY : Z := 0x001.
Definition O_RDWR : Z := 0x002.
Definition O_CREATE : Z := 0x200.

(** ** User memory *)

(** The physical address of [va] in the address space [pgdir], if the page is
    there with the given permission bits. *)
Definition translate (m : mem) (pgdir va flags : Z) : option Z :=
  let pde := load32 m (V2P (u32 (pgdir + 4 * PDX va))) in
  if negb (has pde PTE_P) then None else
  let pte := load32 m (u32 (PTE_ADDR pde + 4 * PTX va)) in
  if bool_decide (Z.land pte flags = flags) then Some (PTE_ADDR pte + va mod PGSIZE) else None.

Fixpoint uread (m : mem) (pgdir va : Z) (n : nat) : option (list Z) :=
  match n with
  | O => Some []
  | S n' =>
      a ← translate m pgdir va PTE_P;
      l ← uread m pgdir (u32 (va + 1)) n';
      Some (m a :: l)
  end.

(** The kernel honours write protection ([CR0_WP]). *)
Fixpoint uwrite (m : mem) (pgdir va : Z) (l : list Z) : option mem :=
  match l with
  | [] => Some m
  | b :: l' =>
      a ← translate m pgdir va (Z.lor PTE_P PTE_W);
      uwrite (store m a b) pgdir (u32 (va + 1)) l'
  end.

(** [for(s = *pp; s < ep; s++) if( *s == 0) return s - *pp;]: the characters
    up to the terminator among the next [n].  The outer [None] is a page fault. *)
Fixpoint ustring (m : mem) (pgdir va : Z) (n : nat) : option (option (list Z)) :=
  match n with
  | O => Some None
  | S n' =>
      a ← translate m pgdir va PTE_P;
      if m a =? 0 then Some (Some [0])
      else o ← ustring m pgdir (va + 1) n'; Some (match o with Some l => Some (m a :: l) | None => None end)
  end.

Section syscalls.
Context {FU : Fuel} {HW : Hw} {DK : Disk} {LK : Link}.

(** The current process. *)
Definition me : K proc := p <- curproc ;; get_proc p.

Definition user_read (va : Z) (n : nat) : K (list Z) :=
  q <- me ;; try_get (fun s => uread (pmem (res s)) (pgdir q) va n).
Definition user_write (va : Z) (l : list Z) : K unit :=
  q <- me ;;
  try_modify (fun s => m ← uwrite (pmem (res s)) (pgdir q) va l; Some (s <| res ::= fun r => r <| pmem := m |> |>)).

(** ** syscall.c: [None] for the result -1 *)

Definition fetchint (addr : Z) : K (option Z) :=
  q <- me ;;
  if (sz q <=? addr) || (sz q <? u32 (addr + 4)) then ret None else
  l <- user_read addr 4 ;;
  ret (Some (s32 (le_decode l))).

Definition fetchstr (addr : Z) : K (option (list Z)) :=
  q <- me ;;
  if sz q <=? addr then ret None else
  try_get (fun s => ustring (pmem (res s)) (pgdir q) addr (Z.to_nat (sz q - addr))).

Definition argint (n : Z) : K (option Z) := q <- me ;; fetchint (u32 (t_esp (tf q) + 4 + 4 * n)).

(** The pointer as an unsigned address. *)
Definition argptr (n size : Z) : K (option Z) :=
  q <- me ;;
  o <- argint n ;;
  match o with
  | None => ret None
  | Some i =>
      if (size <? 0) || (sz q <=? u32 i) || (sz q <? u32 (u32 i + size)) then ret None else ret (Some (u32 i))
  end.

Definition argstr (n : Z) : K (option (list Z)) :=
  o <- argint n ;;
  match o with None => ret None | Some addr => fetchstr (u32 addr) end.

(** ** sysproc.c *)

Definition sys_fork : K Z := fork.
Definition sys_exit : K Z := exit ;;; ret 0.
Definition sys_wait : K Z := wait.

Definition sys_kill : K Z :=
  o <- argint 0 ;; match o with None => ret (-1) | Some p => kill p end.
Definition sys_getpid : K Z := q <- me ;; ret (pid q).

Definition sys_sbrk : K Z :=
  o <- argint 0 ;;
  match o with
  | None => ret (-1)
  | Some n =>
      q <- me ;;
      let addr := s32 (sz q) in
      r <- growproc n ;;
      if r <? 0 then ret (-1) else ret addr
  end.

(** The loop of [sys_sleep]; [n] is compared as an unsigned number. *)
Fixpoint sleep_loop (k : nat) (ticks0 n : Z) : K Z :=
  now <- gets ticks ;;
  if u32 (now - ticks0) <? u32 n then
    kd <- mykilled ;;
    if kd : bool then unlock tickslock ;;; ret (-1) else
    match k with
    | O => fun _ => NoFuel
    | S k' => sleep ticks_chan tickslock ;;; sleep_loop k' ticks0 n
    end
  else unlock tickslock ;;; ret 0.

Definition sys_sleep : K Z :=
  o <- argint 0 ;;
  match o with
  | None => ret (-1)
  | Some n => lock tickslock ;;; ticks0 <- gets ticks ;; sleep_loop fuel ticks0 n
  end.

Definition sys_uptime : K Z :=
  lock tickslock ;;; xticks <- gets ticks ;; unlock tickslock ;;; ret (s32 xticks).

(** The three results of [wait2] are stored through the pointers. *)
Definition sys_wait2 : K Z :=
  o0 <- argptr 0 4 ;;
  match o0 with
  | None => ret (-1)
  | Some retime =>
      o1 <- argptr 1 4 ;;
      match o1 with
      | None => ret (-1)
      | Some rutime =>
          o2 <- argptr 2 4 ;;
          match o2 with
          | None => ret (-1)
          | Some stime =>
              r <- wait2 ;;
              match snd r with
              | None => ret tt
              | Some (re, ru, st) =>
                  user_write retime (le_encode 4 re) ;;;
                  user_write rutime (le_encode 4 ru) ;;;
                  user_write stime (le_encode 4 st)
              end ;;;
              ret (fst r)
          end
      end
  end.

Definition sys_yield : K Z := yield ;;; ret 0.
Definition sys_change_prio : K Z :=
  o <- argint 0 ;; match o with None => ret (-1) | Some p => change_prio p end.

(** ** sysfile.c *)

(** The descriptor and the file. *)
Definition argfd (n : Z) : K (option (Z * nat)) :=
  o <- argint n ;;
  match o with
  | None => ret None
  | Some fd =>
      if (fd <? 0) || (Z.of_nat NOFILE <=? fd) then ret None else
      q <- me ;;
      f <- try_get (fun _ => ofile q !! Z.to_nat fd) ;;
      if f =? 0 then ret None else i <- deref f ;; ret (Some (fd, i))
  end.

(** The first free descriptor. *)
Fixpoint free_fd (l : list Z) (fd : Z) : option Z :=
  match l with
  | [] => None
  | f :: l' => if f =? 0 then Some fd else free_fd l' (fd + 1)
  end.

Definition fdalloc (f : nat) : K Z :=
  p <- curproc ;;
  q <- get_proc p ;;
  match free_fd (ofile q) 0 with
  | Some fd => set_proc p (fun q => q <| ofile ::= <[Z.to_nat fd := ptr f]> |>) ;;; ret fd
  | None => ret (-1)
  end.

Definition sys_dup : K Z :=
  o <- argfd 0 ;;
  match o with
  | None => ret (-1)
  | Some (_, f) =>
      fd <- fdalloc f ;;
      if fd <? 0 then ret (-1) else filedup f ;;; ret fd
  end.

(** The arguments of [sys_read] and [sys_write]. *)
Definition rw_args : K (option (nat * Z * Z)) :=
  o <- argfd 0 ;;
  match o with
  | None => ret None
  | Some (_, f) =>
      o <- argint 2 ;;
      match o with
      | None => ret None
      | Some n =>
          o <- argptr 1 n ;;
          ret match o with None => None | Some p => Some (f, n, p) end
      end
  end.

Definition sys_read : K Z :=
  o <- rw_args ;;
  match o with
  | None => ret (-1)
  | Some (f, n, p) => r <- fileread f n ;; user_write p (snd r) ;;; ret (fst r)
  end.

Definition sys_write : K Z :=
  o <- rw_args ;;
  match o with
  | None => ret (-1)
  | Some (f, n, p) => l <- user_read p (Z.to_nat n) ;; filewrite f l
  end.

Definition sys_close : K Z :=
  o <- argfd 0 ;;
  match o with
  | None => ret (-1)
  | Some (fd, f) =>
      p <- curproc ;;
      set_proc p (fun q => q <| ofile ::= <[Z.to_nat fd := 0]> |>) ;;;
      fileclose f ;;;
      ret 0
  end.

(** [struct stat]: 20 bytes; the two bytes of padding after [type] and after
    [nlink] are not written. *)
Definition sys_fstat : K Z :=
  o <- argfd 0 ;;
  match o with
  | None => ret (-1)
  | Some (_, f) =>
      o <- argptr 1 20 ;;
      match o with
      | None => ret (-1)
      | Some a =>
          o <- filestat f ;;
          match o with
          | None => ret (-1)
          | Some st =>
              user_write (u32 (a + 4)) (le_encode 4 (st_dev st)) ;;;
              user_write (u32 (a + 8)) (le_encode 4 (st_ino st)) ;;;
              user_write a (le_encode 2 (st_type st)) ;;;
              user_write (u32 (a + 12)) (le_encode 2 (st_nlink st)) ;;;
              user_write (u32 (a + 16)) (le_encode 4 (st_size st)) ;;;
              ret 0
          end
      end
  end.

(** Change the link count of a locked inode and write it. *)
Definition add_nlink (ip : nat) (d : Z) : K unit :=
  inode_set ip (fun x => x <| i_nlink ::= fun n => s16 (n + d) |>) ;;; iupdate ip.

(** The label [bad] of [sys_link]. *)
Definition link_bad (ip : nat) : K Z :=
  ilock ip ;;; add_nlink ip (-1) ;;; iunlockput ip ;;; end_op ;;; ret (-1).

Definition sys_link : K Z :=
  o <- argstr 0 ;;
  match o with
  | None => ret (-1)
  | Some old =>
  o <- argstr 1 ;;
  match o with
  | None => ret (-1)
  | Some new =>
      begin_op ;;;
      o <- namei old ;;
      match o with
      | None => end_op ;;; ret (-1)
      | Some ip =>
          ilock ip ;;;
          x <- inode_get ip ;;
          if i_type x =? T_DIR then iunlockput ip ;;; end_op ;;; ret (-1) else
          add_nlink ip 1 ;;;
          iunlock ip ;;;
          r <- nameiparent new (replicate DIRSIZ 0) ;;
          match fst r with
          | None => link_bad ip
          | Some dp =>
              ilock dp ;;;
              d <- inode_get dp ;;
              x <- inode_get ip ;;
              l <- (if negb (i_dev d =? i_dev x) then ret (-1) else dirlink dp (snd r) (i_inum x)) ;;
              if l <? 0 then iunlockput dp ;;; link_bad ip else
              iunlockput dp ;;;
              iput ip ;;;
              end_op ;;;
              ret 0
          end
      end
  end end.

(** From offset 32 on. *)
Fixpoint isdirempty_loop (k : nat) (dp : nat) (off : Z) : K bool :=
  x <- inode_get dp ;;
  if off <? i_size x then
    match k with
    | O => fun _ => NoFuel
    | S k' =>
        de <- read_dirent dp off "isdirempty: readi" ;;
        if negb (de_inum de =? 0) then ret false else isdirempty_loop k' dp (off + dirent_size)
    end
  else ret true.
Definition isdirempty (dp : nat) : K bool :=
  x <- inode_get dp ;; isdirempty_loop (S (Z.to_nat (i_size x / dirent_size))) dp (2 * dirent_size).

Definition unlink_bad (dp : nat) : K Z := iunlockput dp ;;; end_op ;;; ret (-1).

Definition sys_unlink : K Z :=
  o <- argstr 0 ;;
  match o with
  | None => ret (-1)
  | Some path =>
      begin_op ;;;
      r <- nameiparent path (replicate DIRSIZ 0) ;;
      match fst r with
      | None => end_op ;;; ret (-1)
      | Some dp =>
          ilock dp ;;;
          c1 <- try_get (fun _ => namecmp (snd r) (cs ".")) ;;
          c2 <- (if c1 =? 0 then ret 0 else try_get (fun _ => namecmp (snd r) (cs ".."))) ;;
          if c2 =? 0 then unlink_bad dp else
          o <- dirlookup dp (snd r) ;;
          match o with
          | None => unlink_bad dp
          | Some (ip, off) =>
              ilock ip ;;;
              x <- inode_get ip ;;
              if i_nlink x <? 1 then panic "unlink: nlink < 1" else
              e <- (if i_type x =? T_DIR then isdirempty ip else ret true) ;;
              if negb e then iunlockput ip ;;; unlink_bad dp else
              w <- writei dp (replicate 16 0) off ;;
              if negb (w =? dirent_size) then panic "unlink: writei" else
              x <- inode_get ip ;;
              (if i_type x =? T_DIR then add_nlink dp (-1) else ret tt) ;;;
              iunlockput dp ;;;
              add_nlink ip (-1) ;;;
              iunlockput ip ;;;
              end_op ;;;
              ret 0
          end
      end
  end.

(** A locked inode, or null. *)
Definition create (path : list Z) (type major minor : Z) : K (option nat) :=
  r <- nameiparent path (replicate DIRSIZ 0) ;;
  match fst r with
  | None => ret None
  | Some dp =>
      let name := snd r in
      ilock dp ;;;
      o <- dirlookup dp name ;;
      match o with
      | Some (ip, _) =>
          iunlockput dp ;;;
          ilock ip ;;;
          x <- inode_get ip ;;
          if (type =? T_FILE) && (i_type x =? T_FILE) then ret (Some ip)
          else iunlockput ip ;;; ret None
      | None =>
          d <- inode_get dp ;;
          ip <- ialloc (i_dev d) type ;;
          ilock ip ;;;
          inode_set ip (fun x => x <| i_major := major |> <| i_minor := minor |> <| i_nlink := 1 |>) ;;;
          iupdate ip ;;;
          x <- inode_get ip ;;
          (if type =? T_DIR then
             add_nlink dp 1 ;;;
             l <- dirlink ip (cs ".") (i_inum x) ;;
             if l <? 0 then panic "create dots" else
             d <- inode_get dp ;;
             l <- dirlink ip (cs "..") (i_inum d) ;;
             if l <? 0 then panic "create dots" else ret tt
           else ret tt) ;;;
          l <- dirlink dp name (i_inum x) ;;
          if l <? 0 then panic "create: dirlink" else
          iunlockput dp ;;;
          ret (Some ip)
      end
  end.

(** The inode [sys_open] opens, locked. *)
Definition open_inode (path : list Z) (omode : Z) : K (option nat) :=
  if negb (Z.land omode O_CREATE =? 0) then create path T_FILE 0 0 else
  o <- namei path ;;
  match o with
  | None => ret None
  | Some ip =>
      ilock ip ;;;
      x <- inode_get ip ;;
      if (i_type x =? T_DIR) && negb (omode =? O_RDONLY) then iunlockput ip ;;; ret None
      else ret (Some ip)
  end.

Definition sys_open : K Z :=
  o <- argstr 0 ;;
  match o with
  | None => ret (-1)
  | Some path =>
  o <- argint 1 ;;
  match o with
  | None => ret (-1)
  | Some omode =>
      begin_op ;;;
      o <- open_inode path omode ;;
      match o with
      | None => end_op ;;; ret (-1)
      | Some ip =>
          o <- filealloc ;;
          fd <- match o with Some f => fdalloc f | None => ret (-1) end ;;
          match o, 0 <=? fd with
          | Some f, true =>
              iunlock ip ;;;
              end_op ;;;
              file_set f (fun x => x <| f_type := FD_INODE |> <| f_ip := ptr ip |> <| f_off := 0 |>
                <| f_readable := Z.b2z (Z.land omode O_WRONLY =? 0) |>
                <| f_writable := Z.b2z (negb (Z.land omode O_WRONLY =? 0) || negb (Z.land omode O_RDWR =? 0)) |>) ;;;
              ret fd
          | _, _ =>
              close_some o ;;;
              iunlockput ip ;;;
              end_op ;;;
              ret (-1)
          end
      end
  end end.

(** [iunlockput(ip); end_op(); return 0;], or [end_op(); return -1;] for null. *)
Definition finish_create (o : option nat) : K Z :=
  match o with
  | None => end_op ;;; ret (-1)
  | Some ip => iunlockput ip ;;; end_op ;;; ret 0
  end.

Definition sys_mkdir : K Z :=
  begin_op ;;;
  o <- argstr 0 ;;
  r <- match o with None => ret None | Some path => create path T_DIR 0 0 end ;;
  finish_create r.

Definition sys_mknod : K Z :=
  begin_op ;;;
  o <- argstr 0 ;;
  r <- match o with
       | None => ret None
       | Some path =>
           ma <- argint 1 ;;
           match ma with
           | None => ret None
           | Some major =>
               mi <- argint 2 ;;
               match mi with
               | None => ret None
               | Some minor => create path T_DEV (s16 major) (s16 minor)
               end
           end
       end ;;
  finish_create r.

Definition sys_chdir : K Z :=
  p <- curproc ;;
  begin_op ;;;
  o <- argstr 0 ;;
  r <- match o with None => ret None | Some path => namei path end ;;
  match r with
  | None => end_op ;;; ret (-1)
  | Some ip =>
      ilock ip ;;;
      x <- inode_get ip ;;
      if negb (i_type x =? T_DIR) then iunlockput ip ;;; end_op ;;; ret (-1) else
      iunlock ip ;;;
      q <- get_proc p ;;
      old <- deref (cwd q) ;;
      iput old ;;;
      end_op ;;;
      set_proc p (fun q => q <| cwd := ptr ip |>) ;;;
      ret 0
  end.

(** The loop of [sys_exec] with room for [n] more strings; [None] for -1. *)
Fixpoint fetch_argv (n : nat) (uargv : Z) : K (option (list (list Z))) :=
  match n with
  | O => ret None
  | S n' =>
      o <- fetchint uargv ;;
      match o with
      | None => ret None
      | Some uarg =>
          if uarg =? 0 then ret (Some []) else
          o <- fetchstr (u32 uarg) ;;
          match o with
          | None => ret None
          | Some a =>
              r <- fetch_argv n' (u32 (uargv + 4)) ;;
              ret match r with Some l => Some (a :: l) | None => None end
          end
      end
  end.

Definition sys_exec : K Z :=
  o <- argstr 0 ;;
  match o with
  | None => ret (-1)
  | Some path =>
  o <- argint 1 ;;
  match o with
  | None => ret (-1)
  | Some uargv =>
      r <- fetch_argv MAXARG (u32 uargv) ;;
      match r with None => ret (-1) | Some argv => exec path argv end
  end end.

(** [myproc()->ofile[fd] = 0] *)
Definition clear_fd (fd : Z) : K unit :=
  p <- curproc ;; set_proc p (fun q => q <| ofile ::= <[Z.to_nat fd := 0]> |>).

Definition sys_pipe : K Z :=
  o <- argptr 0 8 ;;
  match o with
  | None => ret (-1)
  | Some fd =>
      o <- pipealloc ;;
      match o with
      | None => ret (-1)
      | Some (rf, wf) =>
          fd0 <- fdalloc rf ;;
          fd1 <- (if fd0 <? 0 then ret (-1) else fdalloc wf) ;;
          if fd1 <? 0 then
            (if 0 <=? fd0 then clear_fd fd0 else ret tt) ;;;
            fileclose rf ;;;
            fileclose wf ;;;
            ret (-1)
          else
            user_write fd (le_encode 4 fd0) ;;;
            user_write (u32 (fd + 4)) (le_encode 4 fd1) ;;;
            ret 0
      end
  end.

(** ** The table; there is no call 22 *)

Definition syscalls : list (option (K Z)) :=
  [None; Some sys_fork; Some sys_exit; Some sys_wait; Some sys_pipe; Some sys_read; Some sys_kill;
   Some sys_exec; Some sys_fstat; Some sys_chdir; Some sys_dup; Some sys_getpid; Some sys_sbrk;
   Some sys_sleep; Some sys_uptime; Some sys_open; Some sys_write; Some sys_mknod; Some sys_unlink;
   Some sys_link; Some sys_mkdir; Some sys_close; None; Some sys_wait2; Some sys_yield; Some sys_change_prio].

Definition syscall_entry (num : Z) : option (K Z) :=
  if 0 <? num then mjoin (syscalls !! Z.to_nat num) else None.

Definition syscall : K unit :=
  p <- curproc ;;
  q <- get_proc p ;;
  let num := s32 (t_eax (tf q)) in
  match syscall_entry num with
  | Some f =>
      r <- f ;;
      set_proc p (fun q => q <| tf ::= fun t => t <| t_eax := u32 r |> |>)
  | None =>
      cprintf (csn "%d %s: unknown sys call %d") [Num (pid q); Str (pname q); Num num] ;;;
      set_proc p (fun q => q <| tf ::= fun t => t <| t_eax := u32 (-1) |> |>)
  end.
End syscalls.
