(* ===== verification/Args.v ===== *)
(** * Arguments of system calls

    The kernel reads the arguments of a system call from the memory of the
    process.  For a process whose pages below [sz] are mapped, the checks of
    syscall.c let through exactly the addresses below [sz]: no argument makes
    the kernel fault or read or write beyond the memory of the process. *)

From S2P Require Import Prelude Machine Spinlock CString ProcTable Proc Lifecycle Ready Aging.
From S2P Require Import ProcLemmas Scheduler Reach Blocking Kstate Sleeplock Solo.
From S2P Require Import Devices Disk Bio Layout Log Inode Console Fs Kalloc File Vm Env Exec Syscall PageTable AddrSpace.

(** A process with memory up to [sz]. *)
Record user_ok {LK : Link} (r : kres) (l : list Z) (q : proc) (T : gmap Z Z) (U : gmap Z (Z * Z)) : Prop := {
  uo_uvm : uvm r l (pgdir q) T U;
  uo_size : 0 ≤ sz q ≤ KERNBASE;
  uo_pages : ∀ n, 0 ≤ n < (sz q + 4095) / 4096 → is_Some (U !! n) }.

Section args.
Context {FU : Fuel} {HW : Hw} {DK : Disk} {LK : Link}.
Context {s : kstate} {c p : nat} {u : cpu} {q : proc} (Hsolo : solo s c p u q).
Context {r : kres} {l : list Z} {T : gmap Z Z} {U : gmap Z (Z * Z)} (HU : user_ok r l q T U).

(** The memory of the process. *)
Definition umem (va : Z) : Z := default 0 (ubyte (pmem r) (pgdir q) va).

Lemma umem_at va : 0 ≤ va < sz q → ∃ a, Syscall.translate (pmem r) (pgdir q) va PTE_P = Some a ∧ pmem r a = umem va.
Proof.
  intros Hva. destruct HU as [H Hs Hp]. unfold KERNBASE in Hs. destruct (Hp (va / 4096)) as [[v f] E].
  { split; [apply Z.div_pos; lia|]. apply Z.div_lt_upper_bound; [lia|]. pose proof (Z.div_mod (sz q + 4095) 4096 ltac:(lia)). pose proof (Z.mod_pos_bound (sz q + 4095) 4096 ltac:(lia)). lia. }
  exists (V2P v + va mod 4096). destruct (u_some _ _ _ _ _ H _ _ _ E) as (_ & Hv & _ & _ & Hf & Ho & Hpte). destruct (mapped_entry _ _ _ _ _ _ _ _ H E) as (Hodd & t & Ht). split.
  - pose proof (u_vm _ _ _ _ _ H) as V. unfold Syscall.translate. rewrite (pde_addr V) by lia. destruct (vm_table _ _ _ _ V _ _ Ht) as (_ & A2 & _ & _ & ->). destruct (page_phys t A2) as (B1 & B2 & _). unfold PHYSTOP in B2.
    rewrite has_P_odd, PTE_ADDR_add by (done || lia). rewrite Z.odd_add. apply Z.mod_divide in B1 as [a B1]; [|lia]. rewrite B1, Z.odd_mul, andb_false_r. cbn [xorb negb Z.odd]. rewrite <- B1, PTX_mod. pose proof (Z.mod_pos_bound (va / 4096) 1024 ltac:(lia)).
    assert (u32 (V2P t + 4 * (va / 4096 mod 1024)) = V2P t + 4 * (va / 4096 mod 1024)) as -> by (unfold u32; rewrite Z.mod_small; lia).
    assert (load32 (pmem r) (V2P t + 4 * (va / 4096 mod 1024)) = V2P v + f) as -> by (rewrite <- Hpte; unfold pte; by rewrite Ht).
    destruct (page_phys v Hv) as (Hz & _). rewrite bool_decide_true, PTE_ADDR_add by (done || (unfold PTE_P; change 1 with (Z.ones 1); rewrite Z.land_ones by lia; change (2 ^ 1) with 2; rewrite Zmod_odd, Hodd; done)). done.
  - unfold umem, ubyte. rewrite (user_translate _ _ _ _ _ va H) by (unfold KERNBASE; lia). by rewrite E.
Qed.

Lemma uread_at n va : 0 ≤ va → va + Z.of_nat n ≤ sz q → uread (pmem r) (pgdir q) va n = Some (umem <$> seqZ va (Z.of_nat n)).
Proof.
  pose proof (uo_size _ _ _ _ _ HU) as Hs. unfold KERNBASE in Hs. revert va. induction n as [|n IH]; intros va Hva Hn; [done|]. cbn [uread]. destruct (umem_at va ltac:(lia)) as (a & -> & Ha). cbn [mbind option_bind].
  assert (u32 (va + 1) = va + 1) as -> by (unfold u32; rewrite Z.mod_small; lia). rewrite IH by lia. cbn [mbind option_bind]. rewrite (seqZ_cons va) by lia. rewrite Ha. cbn [fmap list_fmap]. replace (Z.succ va) with (va + 1) by lia. by replace (Z.pred (Z.of_nat (S n))) with (Z.of_nat n) by lia.
Qed.

Lemma me_solo : me (with_res s r) = Ret q (with_res s r).
Proof. unfold me. rewrite (bind_ret _ _ _ _ _ (curproc_solo Hsolo r)). exact (get_proc_ret p (with_res s r) q (solo_proc _ _ _ _ _ Hsolo)). Qed.

Lemma fetchint_spec addr : 0 ≤ addr < 2 ^ 32 → fetchint addr (with_res s r) =
  Ret (if decide (addr + 4 ≤ sz q) then Some (s32 (le_decode (umem <$> seqZ addr 4))) else None) (with_res s r).
Proof.
  intros Ha. pose proof (uo_size _ _ _ _ _ HU) as Hs. unfold KERNBASE in Hs. unfold fetchint. rewrite (bind_ret _ _ _ _ _ me_solo). destruct (Z.leb_spec (sz q) addr) as [Hle|Hgt]; [by rewrite decide_False by lia|].
  assert (u32 (addr + 4) = addr + 4) as -> by (unfold u32; rewrite Z.mod_small; lia). cbn [orb]. destruct (Z.ltb_spec (sz q) (addr + 4)); [by rewrite decide_False by lia|]. rewrite decide_True by lia.
  assert (user_read addr 4 (with_res s r) = Ret (umem <$> seqZ addr 4) (with_res s r)) as E.
  { unfold user_read. rewrite (bind_ret _ _ _ _ _ me_solo). unfold try_get. change (pmem (res (with_res s r))) with (pmem r). by rewrite (uread_at 4 addr) by lia. }
  by rewrite (bind_ret _ _ _ _ _ E).
Qed.

(** The string at an address: its bytes up to the first zero, which is below [sz]. *)
Definition string_at (addr : Z) (o : option (list Z)) : Prop :=
  match o with
  | Some cs => ∃ n, 0 ≤ n ∧ addr + n < sz q ∧ cs = umem <$> seqZ addr (n + 1) ∧ umem (addr + n) = 0 ∧ ∀ j, addr ≤ j < addr + n → umem j ≠ 0
  | None => ∀ j, addr ≤ j < sz q → umem j ≠ 0
  end.

Lemma ustring_spec n addr : 0 ≤ addr → sz q = addr + Z.of_nat n → ∃ o, ustring (pmem r) (pgdir q) addr n = Some o ∧ string_at addr o.
Proof.
  revert addr. induction n as [|n IH]; intros addr Ha Hn; cbn [ustring]; [exists None; split; [done|]; intros j Hj; lia|].
  destruct (umem_at addr ltac:(lia)) as (a & -> & Hm). cbn [mbind option_bind]. destruct (Z.eqb_spec (pmem r a) 0) as [Hz|Hnz].
  - exists (Some [0]). split; [done|]. exists 0. split; [lia|]. split; [lia|]. split; [|rewrite Z.add_0_r, <- Hm; split; [done|intros; lia]]. change (0 + 1) with 1. rewrite seqZ_cons by lia. cbn. by rewrite <- Hm, Hz.
  - destruct (IH (addr + 1) ltac:(lia) ltac:(lia)) as (o & -> & Ho). cbn [mbind option_bind]. destruct o as [cs|]; eexists; (split; [done|]).
    + destruct Ho as (k & Hk & Hlt & -> & Hz & Hf). exists (k + 1). split; [lia|]. split; [lia|]. split; [|split; [by replace (addr + (k + 1)) with (addr + 1 + k) by lia|]].
      * rewrite (seqZ_cons addr) by lia. cbn [fmap list_fmap]. rewrite Hm. replace (Z.succ addr) with (addr + 1) by lia. by replace (Z.pred (k + 1 + 1)) with (k + 1) by lia.
      * intros j Hj. destruct (decide (j = addr)) as [->|]; [by rewrite <- Hm|]. apply Hf. lia.
    + intros j Hj. destruct (decide (j = addr)) as [->|]; [by rewrite <- Hm|]. apply Ho. lia.
Qed.

Lemma fetchstr_spec addr : 0 ≤ addr → ∃ o, fetchstr addr (with_res s r) = Ret o (with_res s r) ∧ string_at addr o.
Proof.
  intros Ha. unfold fetchstr. rewrite (bind_ret _ _ _ _ _ me_solo). destruct (Z.leb_spec (sz q) addr); [exists None; split; [done|]; intros j Hj; lia|].
  destruct (ustring_spec (Z.to_nat (sz q - addr)) addr Ha ltac:(lia)) as (o & E & Ho). exists o. split; [|done]. unfold try_get. change (pmem (res (with_res s r))) with (pmem r). by rewrite E.
Qed.

(** The [n]th argument of the system call: a word on the stack of the process. *)
Definition arg_addr (n : Z) : Z := u32 (t_esp (tf q) + 4 + 4 * n).
Definition arg_word (n : Z) : option Z := if decide (arg_addr n + 4 ≤ sz q) then Some (s32 (le_decode (umem <$> seqZ (arg_addr n) 4))) else None.

Lemma argint_spec n : argint n (with_res s r) = Ret (arg_word n) (with_res s r).
Proof. unfold argint. rewrite (bind_ret _ _ _ _ _ me_solo). apply fetchint_spec. apply Z.mod_pos_bound. lia. Qed.

(** C19. The arguments of system calls are checked completely.  Whatever the
    stack pointer and the words on the stack are, the routines that fetch an
    argument return without a fault and without changing anything: an integer
    if its four bytes are in the memory of the process and -1 otherwise; a
    pointer if the whole block of the size asked for is in the memory of the
    process and -1 otherwise, also when the sum wraps around; a string if it
    ends inside that memory and -1 otherwise. *)
Theorem arguments_checked n size : -2 ^ 31 ≤ size < 2 ^ 31 →
  argint n (with_res s r) = Ret (arg_word n) (with_res s r) ∧
  argptr n size (with_res s r) = Ret (w ← arg_word n; if decide (0 ≤ size ∧ u32 w < sz q ∧ u32 w + size ≤ sz q) then Some (u32 w) else None) (with_res s r) ∧
  ∃ o, argstr n (with_res s r) = Ret o (with_res s r) ∧ match arg_word n with Some w => string_at (u32 w) o | None => o = None end.
Proof.
  intros Hsz. pose proof (uo_size _ _ _ _ _ HU) as Hs. unfold KERNBASE in Hs. split; [apply argint_spec|]. split.
  - unfold argptr. rewrite (bind_ret _ _ _ _ _ me_solo), (bind_ret _ _ _ _ _ (argint_spec n)). destruct (arg_word n) as [w|]; [|done]. cbn [mbind option_bind].
    pose proof (Z.mod_pos_bound w (2 ^ 32) ltac:(lia)) as Hw. fold (u32 w) in Hw. destruct (Z.ltb_spec size 0); [by rewrite decide_False by lia|]. destruct (Z.leb_spec (sz q) (u32 w)); [by rewrite decide_False by lia|]. cbn [orb].
    assert (u32 (u32 w + size) = u32 w + size) as -> by (unfold u32 at 1; rewrite Z.mod_small; lia). destruct (Z.ltb_spec (sz q) (u32 w + size)); [by rewrite decide_False by lia|by rewrite decide_True by lia].
  - unfold argstr. rewrite (bind_ret _ _ _ _ _ (argint_spec n)). destruct (arg_word n) as [w|]; [|by exists None]. apply fetchstr_spec. apply Z.mod_pos_bound. lia.
Qed.
End args.
