(* ===== verification/Trap.v ===== *)
(** * Traps, processors and boot (trap.c, mp.c, main.c) *)

From S2P Require Import Prelude Machine Spinlock CString ProcTable Proc Lifecycle Kstate.
From S2P Require Import Sleeplock Devices Disk Bio Layout Log Inode Console Kbd Fs Kalloc File Vm Env Exec.
From S2P Require Import Syscall.

(** mmu.h *)
Definition STS_IG32 : Z := 0xE.
Definition STS_TG32 : Z := 0xF.
Definition SETGATE (istrap : bool) (sel off d : Z) : gatedesc :=
  mk_gatedesc (Z.land off 0xffff) sel 0 0 (if istrap then STS_TG32 else STS_IG32) 0 d 1 (Z.shiftr off 16).

Section trap.
Context {FU : Fuel} {HW : Hw} {DK : Disk} {LK : Link}.

(** ** trap.c *)

(** The 256 gates; the system call gate is open to user code. *)
Definition tvinit : K unit :=
  let sel := Z.shiftl (Z.of_nat SEG_KCODE) 3 in
  v <- try_get (fun _ => vectors !! Z.to_nat T_SYSCALL) ;;
  rmod (fun r => r <| dev ::= fun d => d <| idt :=
    <[Z.to_nat T_SYSCALL := SETGATE true sel v DPL_USER]> (map (fun v => SETGATE false sel v 0) (take 256 vectors)) |> |>) ;;;
  on_mach (initlock tickslock "time").

(** [lidt]: all CPUs use the same table. *)
Definition idtinit : K unit := ret tt.

Definition rcr2 : K Z := rget (fun r => hw_cr2 (iolog (dev r))).

Definition mycpuid : K Z := on_mach cpuid.

Definition trap_timer : K unit :=
  c <- mycpuid ;;
  (if c =? 0 then
     lock tickslock ;;;
     modify (fun s => s <| ticks ::= fun t => u32 (t + 1) |>) ;;;
     updateClock ;;;
     upgradePriority_Aging ;;;
     wakeup ticks_chan ;;;
     unlock tickslock
   else ret tt) ;;;
  lapiceoi.

Definition trap_spurious (t : trapframe) : K unit :=
  c <- mycpuid ;;
  cprintf (csn "cpu%d: spurious interrupt at %x:%x") [Num c; Num (t_cs t); Num (t_eip t)] ;;;
  lapiceoi.

Definition trap_default (t : trapframe) : K unit :=
  o <- myproc ;;
  match o, Z.land (t_cs t) 3 =? 0 with
  | Some p, false =>
      q <- get_proc p ;;
      c <- mycpuid ;;
      a <- rcr2 ;;
      cprintf (csn "pid %d %s: trap %d err %d on cpu %d eip 0x%x addr 0x%x--kill proc")
        [Num (pid q); Str (pname q); Num (trapno t); Num (t_err t); Num c; Num (t_eip t); Num a] ;;;
      set_proc p (fun q => q <| killed := 1 |>)
  | _, _ =>
      c <- mycpuid ;;
      a <- rcr2 ;;
      cprintf (csn "unexpected trap %d from cpu %d eip %x (cr2=0x%x)")
        [Num (trapno t); Num c; Num (t_eip t); Num a] ;;;
      panic "trap"
  end.

(** The switch on [tf->trapno]. *)
Definition trap_switch (t : trapframe) : K unit :=
  let n := trapno t in
  if n =? T_IRQ0 + IRQ_TIMER then trap_timer
  else if n =? T_IRQ0 + IRQ_IDE then ideintr ;;; lapiceoi
  else if n =? T_IRQ0 + IRQ_IDE + 1 then ret tt
  else if n =? T_IRQ0 + IRQ_KBD then kbdintr ;;; lapiceoi
  else if n =? T_IRQ0 + IRQ_COM1 then uartintr ;;; lapiceoi
  else if (n =? T_IRQ0 + 7) || (n =? T_IRQ0 + IRQ_SPURIOUS) then trap_spurious t
  else trap_default t.

(** [if(myproc() && myproc()->killed && (tf->cs&3) == DPL_USER) exit();] *)
Definition exit_if_killed (t : trapframe) : K unit :=
  o <- myproc ;;
  match o with
  | None => ret tt
  | Some p =>
      q <- get_proc p ;;
      if negb (killed q =? 0) && (Z.land (t_cs t) 3 =? DPL_USER) then exit else ret tt
  end.

(** Preemption: does the process give up the CPU on this trap? *)
Definition preempts (t : trapframe) (q : proc) : bool :=
  is_state RUNNING q && (trapno t =? T_IRQ0 + IRQ_TIMER) && (clock q =? INTERV) && (priority q =? 1).

Definition trap (t : trapframe) : K unit :=
  if trapno t =? T_SYSCALL then
    k <- mykilled ;;
    (if k : bool then exit else ret tt) ;;;
    p <- curproc ;;
    set_proc p (fun q => q <| tf := t |>) ;;;
    syscall ;;;
    k <- mykilled ;;
    if k : bool then exit else ret tt
  else
    trap_switch t ;;;
    exit_if_killed t ;;;
    o <- myproc ;;
    match o with
    | None => ret tt
    | Some p => q <- get_proc p ;; if preempts t q then yield else ret tt
    end ;;;
    exit_if_killed t.
End trap.
