(* ===== verification/Boot.v ===== *)
(** * Finding the processors and starting the kernel (mp.c, main.c) *)

From S2P Require Import Prelude Machine Spinlock CString ProcTable Proc Lifecycle Kstate.
From S2P Require Import Sleeplock Devices Disk Bio Layout Log Inode Console Kbd Fs Kalloc File Vm Env Exec.
From S2P Require Import Syscall Trap.

(** ** mp.c

    The tables are read from physical memory. *)

Definition MPPROC : Z := 0x00.
Definition MPBUS : Z := 0x01.
Definition MPIOAPIC : Z := 0x02.
Definition MPIOINTR : Z := 0x03.
Definition MPLINTR : Z := 0x04.
Definition sizeof_mp : Z := 16.
Definition sizeof_mpconf : Z := 44.
Definition sizeof_mpproc : Z := 20.
Definition sizeof_mpioapic : Z := 8.

(** The sum is an [int], returned as a byte. *)
Fixpoint sum_bytes (m : mem) (a : Z) (len : nat) : Z :=
  match len with O => 0 | S n => m a + sum_bytes m (a + 1) n end.
Definition sum (m : mem) (a : Z) (len : nat) : Z := u8 (sum_bytes m a len).

(** [memcmp(p, "...", 4) == 0] *)
Definition sig_at (m : mem) (a : Z) (s : string) : bool :=
  bool_decide (map (fun i => m (a + i)) [0; 1; 2; 3] = chars s).

Fixpoint mpsearch_loop (m : mem) (p : Z) (n : nat) : option Z :=
  match n with
  | O => None
  | S n' => if sig_at m p "_MP_" && (sum m p (Z.to_nat sizeof_mp) =? 0) then Some p
            else mpsearch_loop m (p + sizeof_mp) n'
  end.
(** [len] is a multiple of the size of the structure. *)
Definition mpsearch1 (m : mem) (a len : Z) : option Z := mpsearch_loop m a (Z.to_nat (len / sizeof_mp)).

Definition mpsearch (m : mem) : option Z :=
  let bda := 0x400 in
  let p := Z.shiftl (Z.lor (Z.shiftl (m (bda + 0x0F)) 8) (m (bda + 0x0E))) 4 in
  let found :=
    if negb (p =? 0) then mpsearch1 m p 1024
    else mpsearch1 m (u32 (Z.lor (Z.shiftl (m (bda + 0x14)) 8) (m (bda + 0x13)) * 1024 - 1024)) 1024 in
  match found with Some a => Some a | None => mpsearch1 m 0xF0000 0x10000 end.

Definition load16 (m : mem) (a : Z) : Z := m a + 2 ^ 8 * m (a + 1).

(** The configuration table and the floating pointer structure. *)
Definition mpconfig (m : mem) : option (Z * Z) :=
  match mpsearch m with
  | None => None
  | Some mp =>
      let conf := load32 m (mp + 4) in
      if conf =? 0 then None else
      if negb (sig_at m conf "PCMP") then None else
      if negb (m (conf + 6) =? 1) && negb (m (conf + 6) =? 4) then None else
      if negb (sum m conf (Z.to_nat (load16 m (conf + 4))) =? 0) then None else Some (conf, mp)
  end.

Section boot.
Context {FU : Fuel} {HW : Hw} {DK : Disk} {LK : Link}.

(** [cpus[ncpu].apicid = proc->apicid; ncpu++;] *)
Definition add_cpu (id : Z) (m : mach) : mach :=
  if ncpu m <? NCPU then
    m <| cpus ::= alter (fun c => c <| apicid := id |>) (Z.to_nat (ncpu m)) |> <| ncpu := ncpu m + 1 |>
  else m.

(** The loop over the entries of the table.  An entry of an unknown kind leaves
    the switch, not the loop, and [p] stays where it is. *)
Fixpoint mp_entries (n : nat) (p e : Z) (ismp : bool) : K bool :=
  if p <? e then
    match n with
    | O => fun _ => NoFuel
    | S n' =>
        ty <- rget (fun r => pmem r p) ;;
        id <- rget (fun r => pmem r (p + 1)) ;;
        if ty =? MPPROC then
          on_mach (modify (add_cpu id)) ;;; mp_entries n' (p + sizeof_mpproc) e ismp
        else if ty =? MPIOAPIC then
          rmod (fun r => r <| dev ::= fun d => d <| ioapicid := id |> |>) ;;;
          mp_entries n' (p + sizeof_mpioapic) e ismp
        else if (ty =? MPBUS) || (ty =? MPIOINTR) || (ty =? MPLINTR) then mp_entries n' (p + 8) e ismp
        else mp_entries n' p e false
    end
  else ret ismp.

(** Every entry has at least 8 bytes and the table less than 64 KB. *)
Definition mpinit : K unit :=
  o <- rget (fun r => mpconfig (pmem r)) ;;
  match o with
  | None => panic "Expect to run on an SMP"
  | Some (conf, mp) =>
      rmod (fun r => r <| dev ::= fun d => d <| lapic_set := negb (load32 (pmem r) (conf + 36) =? 0) |> |>) ;;;
      len <- rget (fun r => load16 (pmem r) (conf + 4)) ;;
      ismp <- mp_entries (Z.to_nat (2 ^ 13)) (conf + sizeof_mpconf) (conf + len) true ;;
      if negb ismp then panic "Didn't find a suitable machine" else
      imcrp <- rget (fun r => pmem r (mp + 12)) ;;
      if negb (imcrp =? 0) then
        outb 0x22 0x70 ;;;
        v <- inb 0x23 ;;
        outb 0x23 (Z.lor v 1)
      else ret tt
  end.

(** ** main.c *)

Definition mpmain : K unit :=
  c <- mycpuid ;;
  c' <- mycpuid ;;
  cprintf (csn "cpu%d: starting %d") [Num c; Num c'] ;;;
  idtinit ;;;
  i <- on_mach mycpu ;;
  on_mach (cpu_set i (fun u => u <| started := 1 |>)) ;;;
  scheduler.

(** Another CPU enters here, from entryother.S. *)
Definition mpenter : K unit :=
  i <- on_mach mycpu ;;
  switchkvm i ;;;
  on_mach seginit ;;;
  lapicinit ;;;
  mpmain.

(** Start CPU [i] and wait for it; the reason of the wait names the CPU. *)
Definition start_cpu (i : nat) : K unit :=
  let code := 0x7000 in
  me <- on_mach mycpu ;;
  if (i =? me)%nat then ret tt else
  stack <- kalloc ;;
  kstore (P2V (code - 4)) (u32 (stack + KSTACKSIZE)) ;;;
  kstore (P2V (code - 8)) mpenter_sym ;;;
  kstore (P2V (code - 12)) (V2P entrypgdir_sym) ;;;
  c <- on_mach (cpu_get i) ;;
  lapicstartap (apicid c) code ;;;
  while fuel (c <- on_mach (cpu_get i) ;; ret (started c =? 0)) (suspend (Spin (Z.of_nat i))).

Definition startothers : K unit :=
  kput (P2V 0x7000) entryother ;;;
  n <- on_mach (gets ncpu) ;;
  for_range 0 (Z.to_nat n) start_cpu.

Definition main : K unit :=
  kinit1 kend (P2V (4 * 1024 * 1024)) ;;;
  kvmalloc ;;;
  mpinit ;;;
  lapicinit ;;;
  on_mach seginit ;;;
  picinit ;;;
  ioapicinit ;;;
  consoleinit ;;;
  uartinit ;;;
  pinit ;;;
  tvinit ;;;
  binit ;;;
  fileinit ;;;
  ideinit ;;;
  startothers ;;;
  kinit2 (P2V (4 * 1024 * 1024)) (P2V PHYSTOP) ;;;
  userinit ;;;
  mpmain.

(** The page table for entering the kernel: 4 MB pages at 0 and at KERNBASE. *)
Definition entrypgdir : list Z :=
  let e := Z.lor (Z.lor PTE_P PTE_W) 0x80 in
  <[Z.to_nat (Z.shiftr KERNBASE 22) := e]> (<[0%nat := e]> (replicate NPDENTRIES 0)).
End boot.

(** ** Theorems *)

(** An entry of an unknown kind in the MP configuration table makes the
    boot processor loop for ever: no number of rounds ends the loop, so the
    message about an unsuitable machine is never reached. *)
Theorem mp_unknown_entry_hangs n p e ismp (s : kstate) :
  p < e → MPLINTR < pmem (res s) p → mp_entries n p e ismp s = NoFuel.
Proof.
  intros Hp Hty. revert ismp. induction n as [|n IH]; intros ismp; cbn [mp_entries];
    rewrite (proj2 (Z.ltb_lt p e) Hp); [done|].
  erewrite bind_ret by reflexivity. erewrite bind_ret by reflexivity. cbn beta.
  unfold MPPROC, MPIOAPIC, MPBUS, MPIOINTR, MPLINTR in *.
  assert (∀ k, k ≤ 4 → (pmem (res s) p =? k) = false) as Hne by (intros; apply Z.eqb_neq; lia).
  rewrite !Hne by lia. cbn [orb]. apply IH.
Qed.
