(* ===== verification/X86.v ===== *)
(** * The processor as the assembly files use it

    The x86 instructions of bootasm.S, entry.S, entryother.S, swtch.S,
    trapasm.S, vectors.pl, usys.S and initcode.S, as the processor manuals
    document them: registers, segment registers with their hidden bases,
    control registers, the paging unit with 4 KB and 4 MB pages, descriptor
    tables in memory, interrupts through gates with the stack switch of the
    task state segment, and ports.  Physical memory is the memory of bytes of
    the rest of the kernel.

    An instruction the processor would fault on, and one whose operand size
    does not fit the mode, gives [None].  Segment limits and types are not
    checked.  Assembly source is a list of [item]s; [placed] says that its
    instructions and data lie at the addresses a linker gave them. *)

From S2P Require Import Prelude Machine Spinlock CString ProcTable Proc Lifecycle Kstate.
From S2P Require Import Sleeplock Devices Disk Bio Layout Log Inode Console Kbd Fs Kalloc File Vm PageTable Env Exec Syscall Trap.

(** ** mmu.h *)

Definition CR0_PE : Z := 0x00000001.
Definition CR0_WP : Z := 0x00010000.
Definition CR0_PG : Z := 0x80000000.
Definition CR4_PSE : Z := 0x00000010.
Definition PTE_PS : Z := 0x080.

(** A segment descriptor as its two words: a C bit-field is laid out from the
    low bits up. *)
Definition segdesc_words (d : segdesc) : Z * Z :=
  (lim_15_0 d + base_15_0 d * 2 ^ 16,
   base_23_16 d + seg_type d * 2 ^ 8 + seg_s d * 2 ^ 12 + seg_dpl d * 2 ^ 13 + seg_p d * 2 ^ 15 +
   lim_19_16 d * 2 ^ 16 + avl d * 2 ^ 20 + rsv1 d * 2 ^ 21 + db d * 2 ^ 22 + g d * 2 ^ 23 + base_31_24 d * 2 ^ 24).
Definition gatedesc_words (d : gatedesc) : Z * Z :=
  (off_15_0 d + g_cs d * 2 ^ 16,
   g_args d + g_rsv1 d * 2 ^ 5 + g_type d * 2 ^ 8 + g_s d * 2 ^ 12 + g_dpl d * 2 ^ 13 + g_p d * 2 ^ 15 +
   off_31_16 d * 2 ^ 16).

(** ** State *)

Inductive reg := EAX | ECX | EDX | EBX | ESP | EBP | ESI | EDI.
Inductive sreg := CS | DS | ES | FS | GS | SS.
Inductive creg := CR0 | CR3 | CR4.

Record regs := mk_regs { eax : Z; ecx : Z; edx : Z; ebx : Z; esp : Z; ebp : Z; esi : Z; edi : Z }.
#[export] Instance regs_eta : Eta regs := fun r =>
  mk_regs (eax r) (ecx r) (edx r) (ebx r) (esp r) (ebp r) (esi r) (edi r).

(** A segment register: the selector, and from its descriptor the base and
    whether it is a 32-bit segment. *)
Record seg := mk_seg { sel : Z; sbase : Z; big : bool }.
Record segs := mk_segs { cs : seg; ds : seg; es : seg; fs : seg; gs : seg; ss : seg }.
#[export] Instance segs_eta : Eta segs := fun r => mk_segs (cs r) (ds r) (es r) (fs r) (gs r) (ss r).

Record ctl := mk_ctl { c_cr0 : Z; c_cr3 : Z; c_cr4 : Z }.
#[export] Instance ctl_eta : Eta ctl := fun c => mk_ctl (c_cr0 c) (c_cr3 c) (c_cr4 c).

(** [x_gdtr] and [x_idtr] are base and limit, [x_tr] the linear address of the
    task state segment. *)
Record xst := mk_xst {
  x_regs : regs; x_segs : segs; x_eip : Z; x_flags : Z; x_ctl : ctl;
  x_gdtr : Z * Z; x_idtr : Z * Z; x_tr : Z; x_mem : mem; x_ports : list io }.
#[export] Instance xst_eta : Eta xst := fun s =>
  mk_xst (x_regs s) (x_segs s) (x_eip s) (x_flags s) (x_ctl s) (x_gdtr s) (x_idtr s) (x_tr s) (x_mem s) (x_ports s).

Definition getr (r : reg) (t : regs) : Z :=
  match r with EAX => eax t | ECX => ecx t | EDX => edx t | EBX => ebx t
             | ESP => esp t | EBP => ebp t | ESI => esi t | EDI => edi t end.
Definition setr (r : reg) (v : Z) (t : regs) : regs :=
  match r with
  | EAX => t <| eax := v |> | ECX => t <| ecx := v |> | EDX => t <| edx := v |> | EBX => t <| ebx := v |>
  | ESP => t <| esp := v |> | EBP => t <| ebp := v |> | ESI => t <| esi := v |> | EDI => t <| edi := v |> end.
Definition gets_ (r : sreg) (t : segs) : seg :=
  match r with CS => cs t | DS => ds t | ES => es t | FS => fs t | GS => gs t | SS => ss t end.
Definition sets (r : sreg) (v : seg) (t : segs) : segs :=
  match r with
  | CS => t <| cs := v |> | DS => t <| ds := v |> | ES => t <| es := v |>
  | FS => t <| fs := v |> | GS => t <| gs := v |> | SS => t <| ss := v |> end.

Definition set_reg (r : reg) (v : Z) (s : xst) : xst := s <| x_regs ::= setr r v |>.
Definition set_seg (r : sreg) (v : seg) (s : xst) : xst := s <| x_segs ::= sets r v |>.
(** The low 16 and 8 bits of a register. *)
Definition set_low (w : Z) (r : reg) (v : Z) (s : xst) : xst :=
  set_reg r (getr r (x_regs s) - getr r (x_regs s) mod 2 ^ w + v mod 2 ^ w) s.

Definition protected (c : ctl) : bool := has (c_cr0 c) CR0_PE.
(** The current privilege level. *)
Definition cpl (s : xst) : Z := if protected (x_ctl s) then Z.land (sel (cs (x_segs s))) 3 else 0.

(** ** Memory *)

(** The paging unit: the physical address for an access by user or supervisor
    code, to read or to write. *)
Definition allowed (c : ctl) (user wr : bool) (e : Z) : bool :=
  implb user (has e PTE_U) && implb (wr && (user || has (c_cr0 c) CR0_WP)) (has e PTE_W).
Definition xlate (c : ctl) (m : mem) (user wr : bool) (a : Z) : option Z :=
  if negb (has (c_cr0 c) CR0_PG) then Some a else
  let pde := load32 m (PTE_ADDR (c_cr3 c) + 4 * PDX a) in
  if negb (has pde PTE_P) then None else
  if has pde PTE_PS && has (c_cr4 c) CR4_PSE then
    if allowed c user wr pde then Some (Z.land pde 0xFFC00000 + a mod 2 ^ 22) else None
  else
  let pte := load32 m (PTE_ADDR pde + 4 * PTX a) in
  if negb (has pte PTE_P) then None else
  if allowed c user wr pde && allowed c user wr pte then Some (PTE_ADDR pte + a mod PGSIZE) else None.

(** The byte and the word at a linear address, one byte after the other. *)
Definition ld8 (user : bool) (s : xst) (a : Z) : option Z :=
  p ← xlate (x_ctl s) (x_mem s) user false (u32 a); Some (x_mem s p).
Definition ld16 (user : bool) (s : xst) (a : Z) : option Z :=
  b0 ← ld8 user s a; b1 ← ld8 user s (a + 1); Some (b0 + 2 ^ 8 * b1).
Definition ld32 (user : bool) (s : xst) (a : Z) : option Z :=
  b0 ← ld8 user s a; b1 ← ld8 user s (a + 1); b2 ← ld8 user s (a + 2); b3 ← ld8 user s (a + 3);
  Some (b0 + 2 ^ 8 * b1 + 2 ^ 16 * b2 + 2 ^ 24 * b3).
Definition wr_at (user : bool) (s : xst) (a : Z) : option Z := xlate (x_ctl s) (x_mem s) user true (u32 a).
Definition st16 (user : bool) (a v : Z) (s : xst) : option xst :=
  p0 ← wr_at user s a; p1 ← wr_at user s (a + 1);
  Some (s <| x_mem ::= fun m => store (store m p0 v) p1 (Z.shiftr v 8) |>).
Definition st32 (user : bool) (a v : Z) (s : xst) : option xst :=
  p0 ← wr_at user s a; p1 ← wr_at user s (a + 1); p2 ← wr_at user s (a + 2); p3 ← wr_at user s (a + 3);
  Some (s <| x_mem ::= fun m =>
    store (store (store (store m p0 v) p1 (Z.shiftr v 8)) p2 (Z.shiftr v 16)) p3 (Z.shiftr v 24) |>).

Definition is_user (s : xst) : bool := cpl s =? 3.

(** ** Segments *)

(** What the processor takes from a descriptor. *)
Definition desc_base (d : Z * Z) : Z :=
  Z.shiftr d.1 16 + (d.2 mod 2 ^ 8) * 2 ^ 16 + Z.shiftr d.2 24 * 2 ^ 24.
Definition desc_big (d : Z * Z) : bool := Z.testbit d.2 22.
Definition desc_present (d : Z * Z) : bool := Z.testbit d.2 15.
Definition desc_dpl (d : Z * Z) : Z := Z.shiftr d.2 13 mod 4.
Definition gate_off (d : Z * Z) : Z := d.1 mod 2 ^ 16 + Z.shiftr d.2 16 * 2 ^ 16.
Definition gate_sel (d : Z * Z) : Z := Z.shiftr d.1 16.
Definition gate_type (d : Z * Z) : Z := Z.shiftr d.2 8 mod 2 ^ 5.

(** A descriptor of the table at [base]; the processor reads its tables with
    supervisor rights. *)
Definition ld_desc (s : xst) (t : Z * Z) (o : Z) : option (Z * Z) :=
  if t.2 <? o + 7 then None else
  w0 ← ld32 false s (t.1 + o); w1 ← ld32 false s (t.1 + o + 4); Some (w0, w1).

(** The segment for a selector: in real mode the base is 16 times the
    selector; a null selector has no descriptor; there is no local table. *)
Definition ld_seg (s : xst) (v : Z) : option seg :=
  let v := v mod 2 ^ 16 in
  if negb (protected (x_ctl s)) then Some (mk_seg v (16 * v) false) else
  if v <? 4 then Some (mk_seg v 0 true) else
  if Z.testbit v 2 then None else
  d ← ld_desc s (x_gdtr s) (8 * Z.shiftr v 3);
  if desc_present d then Some (mk_seg v (desc_base d) (desc_big d)) else None.

(** ** Instructions *)

Inductive opnd := Imm (z : Z) | Reg (r : reg) | Mem (disp : Z) (base : option reg).

(** In the order of the source operand and the destination. [JMP], [JNZ] and
    [CALL] hold the distance from the next instruction. *)
Inductive instr :=
| MOVL (src dst : opnd) | MOVW (src : opnd) (dst : reg) | MOVB (imm : Z) (dst : reg)
| MOVS (src : reg) (dst : sreg) | MOVFC (src : creg) (dst : reg) | MOVTC (src : reg) (dst : creg)
| PUSHL (src : opnd) | POPL (dst : reg) | PUSHS (src : sreg) | POPS (dst : sreg) | PUSHAL | POPAL
| ADDL (imm : Z) (dst : reg) | ORL (imm : Z) (dst : reg) | XORW (src dst : reg) | TESTB (imm : Z) (dst : reg)
| JMP (rel : Z) | JMPR (src : reg) | JNZ (rel : Z) | CALL (rel : Z) | CALLM (addr : Z) | RET
| LJMP (sel off : Z) | INT (n : Z) | IRET
| LGDT (addr : Z) | CLI | INB (port : Z) | OUTB (port : Z) | OUTW.

(** A processor may push a selector as a word of 32 bits or write only its 16
    bits and leave the others alone: both are documented. *)
Class Cpu := { pushes_16 : bool }.

(** ** Execution *)

Section execute.
Context {HW : Hw} {CP : Cpu}.

Definition ea (s : xst) (disp : Z) (base : option reg) : Z :=
  let b := match base with Some (ESP | EBP) => ss (x_segs s) | _ => ds (x_segs s) end in
  u32 (sbase b + u32 (disp + match base with Some r => getr r (x_regs s) | None => 0 end)).
Definition rd_opnd (s : xst) (o : opnd) : option Z :=
  match o with
  | Imm z => Some (u32 z)
  | Reg r => Some (getr r (x_regs s))
  | Mem d b => ld32 (is_user s) s (ea s d b)
  end.
Definition wr_opnd (o : opnd) (v : Z) (s : xst) : option xst :=
  match o with
  | Imm _ => None
  | Reg r => Some (set_reg r v s)
  | Mem d b => st32 (is_user s) (ea s d b) v s
  end.

(** The stack: only 32-bit stacks are used. *)
Definition sp_at (s : xst) (o : Z) : Z := u32 (sbase (ss (x_segs s)) + u32 (esp (x_regs s) + o)).
Definition add_sp (o : Z) (s : xst) : xst := s <| x_regs ::= fun t => t <| esp := u32 (esp t + o) |> |>.
Definition push (v : Z) (s : xst) : option xst :=
  if negb (big (ss (x_segs s))) then None else
  s' ← st32 (is_user s) (sp_at s (-4)) v s; Some (add_sp (-4) s').
Definition push_sel (v : Z) (s : xst) : option xst :=
  if negb (big (ss (x_segs s))) then None else
  s' ← (if pushes_16 then st16 else st32) (is_user s) (sp_at s (-4)) v s; Some (add_sp (-4) s').
Definition pop (s : xst) : option (Z * xst) :=
  if negb (big (ss (x_segs s))) then None else
  v ← ld32 (is_user s) s (sp_at s 0); Some (v, add_sp 4 s).
Definition pop_reg (r : reg) (s : xst) : option xst := '(v, s') ← pop s; Some (set_reg r v s').
Definition pop_seg (r : sreg) (s : xst) : option xst :=
  '(v, s') ← pop s; d ← ld_seg s' v; Some (set_seg r d s').

(** The flags: carry, parity, zero, sign and overflow. *)
Definition set_flag (i : Z) (b : bool) (e : Z) : Z := if b then Z.lor e (2 ^ i) else Z.ldiff e (2 ^ i).
Definition even_parity (v : Z) : bool :=
  negb (foldr xorb false ((fun i => Z.testbit v (Z.of_nat i)) <$> seq 0 8)).
Definition result_flags (w r e : Z) : Z :=
  set_flag 2 (even_parity r) (set_flag 6 (r =? 0) (set_flag 7 (Z.testbit r (w - 1)) e)).
Definition logic_flags (w r e : Z) : Z := set_flag 0 false (set_flag 11 false (result_flags w r e)).
Definition add_flags (a b e : Z) : Z :=
  let r := u32 (a + b) in
  set_flag 0 (2 ^ 32 <=? a + b)
    (set_flag 4 (16 <=? a mod 16 + b mod 16)
      (set_flag 11 (eqb (Z.testbit a 31) (Z.testbit b 31) && negb (eqb (Z.testbit a 31) (Z.testbit r 31)))
        (result_flags 32 r e))).
Definition zf (s : xst) : bool := Z.testbit (x_flags s) 6.

Definition jump (rel : Z) (s : xst) : xst := s <| x_eip ::= fun e => u32 (e + rel) |>.

Definition set_cr (c : creg) (v : Z) (s : xst) : xst :=
  match c with
  | CR0 => s <| x_ctl ::= fun t => t <| c_cr0 := v |> |>
  | CR3 => s <| x_ctl ::= fun t => t <| c_cr3 := v |> |>
  | CR4 => s <| x_ctl ::= fun t => t <| c_cr4 := v |> |>
  end.
Definition get_cr (c : creg) (s : xst) : Z :=
  match c with CR0 => c_cr0 (x_ctl s) | CR3 => c_cr3 (x_ctl s) | CR4 => c_cr4 (x_ctl s) end.

(** *** Interrupts

    The gate of vector [n]; [soft] for the instruction INT, which needs the
    rights of the gate.  Coming from a less privileged level, the stack is the
    one of the task state segment.  An interrupt gate clears the interrupt
    flag.  [err] is the error code of an exception that has one. *)
Definition NT_TF_RF_VM : Z := 0x34100.
Definition enter_gate (d : Z * Z) (s : xst) : option xst :=
  c ← ld_desc s (x_gdtr s) (8 * Z.shiftr (gate_sel d) 3);
  if negb (desc_present c) then None else
  let lvl := desc_dpl c in
  let k := mk_seg (8 * Z.shiftr (gate_sel d) 3 + lvl) (desc_base c) (desc_big c) in
  let old := x_regs s in
  s1 ← (if lvl <? cpl s then
          e0 ← ld32 false s (x_tr s + 4);
          v0 ← ld16 false s (x_tr s + 8);
          let s0 := set_seg CS k s in
          st ← ld_seg s0 v0;
          s1 ← push_sel (sel (ss (x_segs s))) (set_reg ESP e0 (set_seg SS st s0));
          push (esp old) s1
        else Some (set_seg CS k s));
  s2 ← push (x_flags s) s1;
  s3 ← push_sel (sel (cs (x_segs s))) s2;
  s4 ← push (x_eip s) s3;
  let f := Z.ldiff (x_flags s) NT_TF_RF_VM in
  Some (s4 <| x_eip := gate_off d |> <| x_flags := if gate_type d =? STS_IG32 then Z.ldiff f FL_IF else f |>).
Definition interrupt (n : Z) (soft : bool) (err : option Z) (s : xst) : option xst :=
  d ← ld_desc s (x_idtr s) (8 * n);
  if negb (desc_present d) then None else
  if negb ((gate_type d =? STS_IG32) || (gate_type d =? STS_TG32)) then None else
  if soft && (desc_dpl d <? cpl s) then None else
  s' ← enter_gate d s;
  match err with Some e => push e s' | None => Some s' end.

(** Back to the level of the selector on the stack. *)
Definition iret (s : xst) : option xst :=
  '(ip, s1) ← pop s;
  '(c, s2) ← pop s1;
  '(f, s3) ← pop s2;
  k ← ld_seg s3 c;
  s4 ← (if cpl s <? Z.land c 3 then
          '(sp, s4) ← pop s3;
          '(v, s5) ← pop s4;
          d ← ld_seg s5 v;
          Some (set_reg ESP sp (set_seg SS d s5))
        else Some s3);
  Some (set_seg CS k s4 <| x_eip := ip |> <| x_flags := f |>).

(** *** One instruction

    [x_eip] is already the address of the next one.  The code of the boot
    sector runs in 16-bit mode at first; the instructions that use the stack
    or memory operands are for 32-bit code. *)
Definition pushal (s : xst) : option xst :=
  let t := x_regs s in
  s ← push (eax t) s; s ← push (ecx t) s; s ← push (edx t) s; s ← push (ebx t) s;
  s ← push (esp t) s; s ← push (ebp t) s; s ← push (esi t) s; push (edi t) s.
Definition popal (s : xst) : option xst :=
  s ← pop_reg EDI s; s ← pop_reg ESI s; s ← pop_reg EBP s; let s := add_sp 4 s in
  s ← pop_reg EBX s; s ← pop_reg EDX s; s ← pop_reg ECX s; pop_reg EAX s.
(** LGDT loads 24 bits of the base in 16-bit code. *)
Definition lgdt (a : Z) (s : xst) : option xst :=
  l ← ld16 (is_user s) s (ea s a None);
  b ← ld32 (is_user s) s (ea s (a + 2) None);
  Some (s <| x_gdtr := (if big (cs (x_segs s)) then b else b mod 2 ^ 24, l) |>).

Definition execute (i : instr) (s : xst) : option xst :=
  let t := x_regs s in
  match i with
  | MOVL a b => v ← rd_opnd s a; wr_opnd b v s
  | MOVW (Imm z) r => Some (set_low 16 r z s)
  | MOVW (Reg q) r => Some (set_low 16 r (getr q t) s)
  | MOVW (Mem _ _) _ => None
  | MOVB z r => Some (set_low 8 r z s)
  | MOVS r d => v ← ld_seg s (getr r t); Some (set_seg d v s)
  | MOVFC c r => Some (set_reg r (get_cr c s) s)
  | MOVTC r c => Some (set_cr c (getr r t) s)
  | PUSHL a => v ← rd_opnd s a; push v s
  | POPL r => pop_reg r s
  | PUSHS r => push_sel (sel (gets_ r (x_segs s))) s
  | POPS r => pop_seg r s
  | PUSHAL => pushal s
  | POPAL => popal s
  | ADDL z r => Some (set_reg r (u32 (getr r t + u32 z)) s <| x_flags ::= add_flags (getr r t) (u32 z) |>)
  | ORL z r => let v := Z.lor (getr r t) (u32 z) in Some (set_reg r v s <| x_flags ::= logic_flags 32 v |>)
  | XORW q r =>
      let v := Z.lxor (getr q t mod 2 ^ 16) (getr r t mod 2 ^ 16) in
      Some (set_low 16 r v s <| x_flags ::= logic_flags 16 v |>)
  | TESTB z r => Some (s <| x_flags ::= logic_flags 8 (Z.land (getr r t mod 2 ^ 8) z) |>)
  | JMP d => Some (jump d s)
  | JMPR r => Some (s <| x_eip := getr r t |>)
  | JNZ d => Some (if zf s then s else jump d s)
  | CALL d => s' ← push (x_eip s) s; Some (jump d s')
  | CALLM a => v ← ld32 (is_user s) s (ea s a None); s' ← push (x_eip s) s; Some (s' <| x_eip := v |>)
  | RET => '(v, s') ← pop s; Some (s' <| x_eip := v |>)
  | LJMP v o => c ← ld_seg s v; Some (set_seg CS c s <| x_eip := o |>)
  | INT n => interrupt n true None s
  | IRET => iret s
  | LGDT a => lgdt a s
  | CLI => Some (s <| x_flags ::= fun e => Z.ldiff e FL_IF |>)
  | INB p =>
      let v := u8 (hw_in (x_ports s) p) in Some (set_low 8 EAX v s <| x_ports ::= cons (In p v) |>)
  | OUTB p => Some (s <| x_ports ::= cons (Out p (u8 (eax t))) |>)
  | OUTW => Some (s <| x_ports ::= cons (Out (edx t mod 2 ^ 16) (eax t mod 2 ^ 16)) |>)
  end.

(** *** Programs

    The code by its physical address: 16 or 32 bits, the instruction and its
    length. *)
Definition text := Z → option (bool * instr * Z).

(** The code at a linear address, for user code or for the kernel. *)
Definition fetch_at (code : text) (c : ctl) (m : mem) (user : bool) (a : Z) : option (bool * instr * Z) :=
  p ← xlate c m user false a; code p.
Definition fetch (code : text) (s : xst) : option (bool * instr * Z) :=
  fetch_at code (x_ctl s) (x_mem s) (is_user s) (u32 (sbase (cs (x_segs s)) + x_eip s)).

Definition step (code : text) (s : xst) : option xst :=
  '(md, i, n) ← fetch code s;
  if eqb md (big (cs (x_segs s))) then execute i (s <| x_eip ::= fun e => u32 (e + n) |>) else None.
Fixpoint steps (code : text) (n : nat) (s : xst) : option xst :=
  match n with O => Some s | S n' => s' ← step code s; steps code n' s' end.
End execute.

(** ** Assembly source *)

(** [Ins] is an instruction, [Rel] one with a target, [Bytes] data. *)
Inductive item :=
| Lbl (name : string) | Ins (i : instr) | Rel (k : Z → instr) (target : Z) | Bytes (l : list Z)
| Align (n : Z) | Code16 | Code32.

Definition word16 (v : Z) : list Z := [v mod 256; v / 256 mod 256].
Definition long (v : Z) : list Z := le_encode 4 v.

(** The source is at address [a], assembled for 16- or 32-bit code: [sym] has
    the labels, [at_] the instructions and [m] the data. *)
Fixpoint placed (sym : string → Z) (at_ : text) (m : Z → Z) (md : bool) (a : Z) (l : list item) : Prop :=
  match l with
  | [] => True
  | Lbl n :: l' => sym n = a ∧ placed sym at_ m md a l'
  | Ins i :: l' => ∃ n, at_ a = Some (md, i, n) ∧ placed sym at_ m md (u32 (a + n)) l'
  | Rel k t :: l' => ∃ n, at_ a = Some (md, k (t - (a + n)), n) ∧ placed sym at_ m md (u32 (a + n)) l'
  | Bytes d :: l' => (∀ i b, d !! i = Some b → m (a + Z.of_nat i) = b) ∧ placed sym at_ m md (u32 (a + Z.of_nat (length d))) l'
  | Align n :: l' => placed sym at_ m md (u32 ((a + n - 1) / n * n)) l'
  | Code16 :: l' => placed sym at_ m false a l'
  | Code32 :: l' => placed sym at_ m true a l'
  end.
