(* ===== verification/X86Lemmas.v ===== *)
(** * Running kernel code

    Lemmas on the processor in kernel mode: flat segments, and a page table
    that maps the physical memory at KERNBASE.  [W] is the set of physical
    addresses the code may write, which the page tables are not part of, so
    that the mapping stays as it is while the code runs. *)

From S2P Require Import Prelude Machine Spinlock CString ProcTable Proc Lifecycle Kstate.
From S2P Require Import Sleeplock Devices Disk Bio Layout Log Inode Console Kbd Fs Kalloc File Vm PageTable Env Exec Syscall Trap X86.

#[global] Arguments step : simpl never.
#[global] Arguments push : simpl never.
#[global] Arguments push_sel : simpl never.
#[global] Arguments pop : simpl never.
#[global] Arguments iret : simpl never.
#[global] Arguments interrupt : simpl never.
#[global] Arguments enter_gate : simpl never.
#[global] Arguments ld_seg : simpl never.
#[global] Arguments ld_desc : simpl never.
#[global] Arguments load32 : simpl never.
#[global] Arguments store32 : simpl never.
#[global] Arguments u32 : simpl never.
#[global] Arguments KERNBASE : simpl never.
#[global] Arguments PHYSTOP : simpl never.

(** Two memories that differ at most on [W]. *)
Definition agree (W : Z → Prop) (m m' : mem) : Prop := ∀ p, ¬ W p → m' p = m p.

(** Two ranges of addresses that do not overlap. *)
Definition apart (a n b k : Z) : Prop := a + n ≤ b ∨ b + k ≤ a.

(** The kernel virtual addresses of physical memory. *)
Definition kva (a n : Z) : Prop := KERNBASE ≤ a ∧ 0 ≤ n ∧ a + n ≤ KERNBASE + PHYSTOP.

Record kspace (W : Z → Prop) (c : ctl) (m : mem) : Prop := {
  ks_pe : protected c = true;
  ks_rd : ∀ m', agree W m m' → ∀ a, kva a 1 → xlate c m' false false a = Some (a - KERNBASE);
  ks_wr : ∀ m', agree W m m' → ∀ a, kva a 1 → W (a - KERNBASE) → xlate c m' false true a = Some (a - KERNBASE) }.

(** The [n] bytes at [a] are kernel memory that may be written. *)
Definition writable (W : Z → Prop) (a n : Z) : Prop := kva a n ∧ ∀ x, a ≤ x < a + n → W (x - KERNBASE).

(** The processor runs kernel code on a kernel stack. *)
Record kflat (g : segs) : Prop := {
  kf_cs : sbase (cs g) = 0; kf_cpl : Z.land (sel (cs g)) 3 = 0; kf_cbig : big (cs g) = true;
  kf_ss : sbase (ss g) = 0; kf_sbig : big (ss g) = true }.

(** The code of the kernel by its virtual address. *)
Definition ktext (code : text) : text := fun a =>
  if (KERNBASE <=? a) && (a <? KERNBASE + PHYSTOP) then code (a - KERNBASE) else None.

Lemma agree_refl W m : agree W m m.
Proof. done. Qed.
Lemma agree_trans W m1 m2 m3 : agree W m1 m2 → agree W m2 m3 → agree W m1 m3.
Proof. intros H1 H2 p Hp. by rewrite H2, H1. Qed.
Lemma kspace_agree W c m m' : kspace W c m → agree W m m' → kspace W c m'.
Proof.
  intros [H0 H1 H2] Ha. split; [done|intros m1 H; apply H1; by eapply agree_trans|intros m1 H; apply H2; by eapply agree_trans].
Qed.

Lemma agree_store32 W m a v : writable W a 4 → agree W m (store32 m (a - KERNBASE) v).
Proof.
  intros [_ H] p Hp. rewrite store32_spec. destruct (Z.leb_spec (a - KERNBASE) p), (Z.ltb_spec p (a - KERNBASE + 4)); try done.
  destruct Hp. specialize (H (p + KERNBASE) ltac:(lia)). by replace (p + KERNBASE - KERNBASE) with p in H by lia.
Qed.
Lemma kspace_store32 W c m a v : writable W a 4 → kspace W c m → kspace W c (store32 m (a - KERNBASE) v).
Proof. intros Ha H. eapply kspace_agree; [done|by apply agree_store32]. Qed.

Lemma writable_sub W a n b k : writable W a n → a ≤ b → 0 ≤ k → b + k ≤ a + n → writable W b k.
Proof. unfold writable, kva. intros [? H] ? ? ?. split; [lia|]. intros x Hx. apply H. lia. Qed.
Lemma writable_kva W a n : writable W a n → kva a n.
Proof. by intros [? _]. Qed.

Lemma kva_u32 a n : kva a n → 0 < n → u32 a = a.
Proof. unfold kva, u32, KERNBASE, PHYSTOP. intros. apply Z.mod_small. lia. Qed.

(** 16 bits of memory, and what pushing a selector writes. *)
Definition load16 (m : mem) (a : Z) : Z := m a + 2 ^ 8 * m (a + 1).
Definition sel_store {CP : Cpu} (m : mem) (a v : Z) : mem :=
  if pushes_16 then store (store m a v) (a + 1) (Z.shiftr v 8) else store32 m a v.

Lemma sel_store_at {CP : Cpu} m a v : 0 ≤ v < 2 ^ 16 → load16 (sel_store m a v) a = v.
Proof.
  intros Hv. assert (u8 v + 2 ^ 8 * u8 (Z.shiftr v 8) = v) as E.
  { unfold u8. rewrite Z.shiftr_div_pow2 by lia. change (2 ^ 8) with 256. pose proof (Z.div_mod v 256 ltac:(lia)).
    rewrite (Z.mod_small (v / 256)); [lia|]. split; [apply Z.div_pos; lia|apply Z.div_lt_upper_bound; lia]. }
  unfold sel_store, load16. destruct pushes_16.
  - unfold store. rewrite (proj2 (Z.eqb_neq a (a + 1))), !Z.eqb_refl by lia. done.
  - rewrite !store32_spec, !(proj2 (Z.leb_le _ _)), !(proj2 (Z.ltb_lt _ _)) by lia. cbn [andb].
    by rewrite Z.sub_diag, Z.add_simpl_l, Z.mul_0_r, Z.shiftr_0_r.
Qed.
Lemma sel_store_ne {CP : Cpu} m a v p : ¬ (a ≤ p < a + 4) → sel_store m a v p = m p.
Proof.
  intros Hp. unfold sel_store. destruct pushes_16.
  - unfold store. by rewrite (proj2 (Z.eqb_neq p a)), (proj2 (Z.eqb_neq p (a + 1))) by lia.
  - rewrite store32_spec. destruct (Z.leb_spec a p), (Z.ltb_spec p (a + 4)); try done. lia.
Qed.
Lemma store32_ne m a v p : ¬ (a ≤ p < a + 4) → store32 m a v p = m p.
Proof. intros Hp. rewrite store32_spec. destruct (Z.leb_spec a p), (Z.ltb_spec p (a + 4)); try done. lia. Qed.
Lemma agree_sel_store {CP : Cpu} W m a v : writable W a 4 → agree W m (sel_store m (a - KERNBASE) v).
Proof.
  intros [_ H] p Hp. apply sel_store_ne. intros Ha. destruct Hp. specialize (H (p + KERNBASE) ltac:(lia)).
  by replace (p + KERNBASE - KERNBASE) with p in H by lia.
Qed.
Lemma kspace_sel_store {CP : Cpu} W c m a v : writable W a 4 → kspace W c m → kspace W c (sel_store m (a - KERNBASE) v).
Proof. intros Ha H. eapply kspace_agree; [done|by apply agree_sel_store]. Qed.
Lemma load32_low m a : load32 m a mod 2 ^ 16 = load16 m a mod 2 ^ 16.
Proof.
  unfold load32, load16. replace (m a + 2 ^ 8 * m (a + 1) + 2 ^ 16 * m (a + 2) + 2 ^ 24 * m (a + 3))
    with (m a + 2 ^ 8 * m (a + 1) + (m (a + 2) + 2 ^ 8 * m (a + 3)) * 2 ^ 16) by ring. by rewrite Z.mod_add by lia.
Qed.
Lemma load16_ext m m' a : (∀ b, a ≤ b < a + 2 → m b = m' b) → load16 m a = load16 m' a.
Proof. intros H. unfold load16. by rewrite !H by lia. Qed.

(** A word from the bytes of its encoding. *)
Lemma load32_bytes (m : mem) a v : 0 ≤ v < 2 ^ 32 → (∀ i b, long v !! i = Some b → m (a + Z.of_nat i) = b) → load32 m a = v.
Proof.
  intros Hv H. pose proof (H 0%nat _ eq_refl) as H0. pose proof (H 1%nat _ eq_refl) as H1. pose proof (H 2%nat _ eq_refl) as H2. pose proof (H 3%nat _ eq_refl) as H3.
  change (Z.of_nat 0) with 0 in H0. change (Z.of_nat 1) with 1 in H1. change (Z.of_nat 2) with 2 in H2. change (Z.of_nat 3) with 3 in H3. rewrite Z.add_0_r in H0. unfold load32. rewrite H0, H1, H2, H3. change (2 ^ 8) with 256. change (2 ^ 16) with 65536. change (2 ^ 24) with 16777216.
  pose proof (le_decode_encode 4 v) as E. change (256 ^ Z.of_nat 4) with (2 ^ 32) in E. rewrite Z.mod_small in E by done. cbn [le_encode le_decode] in E. lia.
Qed.

Section kernel.
Context {HW : Hw} {CP : Cpu}.
Context (W : Z → Prop).
Implicit Types (s : xst) (c : ctl) (m : mem) (g : segs).

Lemma ld8_k s a : kspace W (x_ctl s) (x_mem s) → kva a 1 → ld8 false s a = Some (x_mem s (a - KERNBASE)).
Proof. intros H Ha. unfold ld8. rewrite (kva_u32 a 1) by (done || lia). by rewrite (ks_rd _ _ _ H _ (agree_refl _ _) a Ha). Qed.
Lemma ld32_k s a : kspace W (x_ctl s) (x_mem s) → kva a 4 → ld32 false s a = Some (load32 (x_mem s) (a - KERNBASE)).
Proof.
  unfold kva. intros H Ha. unfold ld32. rewrite !ld8_k by (done || (unfold kva; lia)). cbn [mbind option_bind]. unfold load32.
  by replace (a + 1 - KERNBASE) with (a - KERNBASE + 1) by lia; replace (a + 2 - KERNBASE) with (a - KERNBASE + 2) by lia; replace (a + 3 - KERNBASE) with (a - KERNBASE + 3) by lia.
Qed.
Lemma wr_at_k s a n j : kspace W (x_ctl s) (x_mem s) → writable W a n → 0 ≤ j < n → wr_at false s (a + j) = Some (a - KERNBASE + j).
Proof.
  unfold writable, kva. intros H [Ha Hw] Hj. unfold wr_at. rewrite (kva_u32 (a + j) 1) by (unfold kva; lia). rewrite (ks_wr _ _ _ H _ (agree_refl _ _)); [f_equal; lia|unfold kva; lia|apply Hw; lia].
Qed.
Lemma st32_k s a v : kspace W (x_ctl s) (x_mem s) → writable W a 4 → st32 false a v s = Some (s <| x_mem ::= fun m => store32 m (a - KERNBASE) v |>).
Proof.
  intros H Ha. unfold st32. replace (wr_at false s a) with (wr_at false s (a + 0)) by (f_equal; lia). rewrite !(wr_at_k s a 4) by (done || lia). cbn [mbind option_bind].
  by rewrite Z.add_0_r.
Qed.
Lemma st16_k s a v : kspace W (x_ctl s) (x_mem s) → writable W a 4 →
  st16 false a v s = Some (s <| x_mem ::= fun m => store (store m (a - KERNBASE) v) (a - KERNBASE + 1) (Z.shiftr v 8) |>).
Proof.
  intros H Ha. unfold st16. replace (wr_at false s a) with (wr_at false s (a + 0)) by (f_equal; lia). rewrite !(wr_at_k s a 4) by (done || lia). cbn [mbind option_bind].
  by rewrite Z.add_0_r.
Qed.
Lemma ld16_k s a : kspace W (x_ctl s) (x_mem s) → kva a 2 → ld16 false s a = Some (load16 (x_mem s) (a - KERNBASE)).
Proof.
  unfold kva. intros H Ha. unfold ld16. rewrite !ld8_k by (done || (unfold kva; lia)). cbn [mbind option_bind]. unfold load16.
  by replace (a + 1 - KERNBASE) with (a - KERNBASE + 1) by lia.
Qed.

Lemma not_user s : protected (x_ctl s) = true → kflat (x_segs s) → is_user s = false ∧ cpl s = 0.
Proof. intros H F. unfold is_user, cpl. by rewrite H, (kf_cpl _ F). Qed.

(** The stack. *)
Lemma sp_at_k s o n : kflat (x_segs s) → kva (esp (x_regs s) + o) n → 0 < n → sp_at s o = esp (x_regs s) + o.
Proof. intros F Ha Hn. unfold sp_at. rewrite (kf_ss _ F), Z.add_0_l. by rewrite !(kva_u32 (_ + o) n). Qed.
Lemma add_sp_k s o n : kva (esp (x_regs s) + o) n → 0 < n → add_sp o s = s <| x_regs ::= fun t => t <| esp := esp t + o |> |>.
Proof. intros Ha Hn. unfold add_sp. destruct s as [t ? ? ? ? ? ? ? ? ?]. cbn in *. by rewrite (kva_u32 _ n). Qed.

Lemma push_k v t g ip f c gd id tr m p : kspace W c m → kflat g → writable W (esp t - 4) 4 →
  push v (mk_xst t g ip f c gd id tr m p) =
  Some (mk_xst (t <| esp := esp t - 4 |>) g ip f c gd id tr (store32 m (esp t - 4 - KERNBASE) v) p).
Proof.
  intros H F Hw. set (s := mk_xst _ _ _ _ _ _ _ _ _ _). destruct (not_user s (ks_pe _ _ _ H) F) as [U _]. pose proof (writable_kva _ _ _ Hw) as Hv.
  unfold push. cbn [x_segs s]. rewrite (kf_sbig _ F), U. cbn [negb]. rewrite (sp_at_k s (-4) 4) by (done || lia).
  rewrite st32_k by done. cbn [mbind option_bind]. rewrite (add_sp_k _ (-4) 4) by (done || lia). done.
Qed.
Lemma push_sel_k v t g ip f c gd id tr m p : kspace W c m → kflat g → writable W (esp t - 4) 4 →
  push_sel v (mk_xst t g ip f c gd id tr m p) =
  Some (mk_xst (t <| esp := esp t - 4 |>) g ip f c gd id tr (sel_store m (esp t - 4 - KERNBASE) v) p).
Proof.
  intros H F Hw. set (s := mk_xst _ _ _ _ _ _ _ _ _ _). destruct (not_user s (ks_pe _ _ _ H) F) as [U _]. pose proof (writable_kva _ _ _ Hw) as Hv.
  unfold push_sel. cbn [x_segs s]. rewrite (kf_sbig _ F), U. cbn [negb]. rewrite (sp_at_k s (-4) 4) by (done || lia). unfold sel_store.
  destruct pushes_16; [rewrite st16_k by done|rewrite st32_k by done]; cbn [mbind option_bind]; rewrite (add_sp_k _ (-4) 4) by (done || lia); done.
Qed.
Lemma pop_k t g ip f c gd id tr m p : kspace W c m → kflat g → kva (esp t) 4 → kva (esp t + 4) 0 →
  pop (mk_xst t g ip f c gd id tr m p) =
  Some (load32 m (esp t - KERNBASE), mk_xst (t <| esp := esp t + 4 |>) g ip f c gd id tr m p).
Proof.
  intros H F Hv Hv'. set (s := mk_xst _ _ _ _ _ _ _ _ _ _). destruct (not_user s (ks_pe _ _ _ H) F) as [U _].
  unfold pop. cbn [x_segs s]. rewrite (kf_sbig _ F), U. cbn [negb]. rewrite (sp_at_k s 0 4) by (rewrite ?Z.add_0_r; done || lia). rewrite Z.add_0_r.
  rewrite ld32_k by done. cbn [mbind option_bind]. unfold add_sp. cbn. do 3 f_equal. unfold u32, kva, KERNBASE, PHYSTOP in *. cbn [esp x_regs s]. f_equal. apply Z.mod_small. lia.
Qed.

Lemma push_to e v t g ip f c gd id tr m p : esp t = e + 4 → kspace W c m → kflat g → writable W e 4 →
  push v (mk_xst t g ip f c gd id tr m p) = Some (mk_xst (t <| esp := e |>) g ip f c gd id tr (store32 m (e - KERNBASE) v) p).
Proof. intros E ? ? ?. assert (e = esp t - 4) as -> by lia. by apply push_k. Qed.
Lemma push_sel_to e v t g ip f c gd id tr m p : esp t = e + 4 → kspace W c m → kflat g → writable W e 4 →
  push_sel v (mk_xst t g ip f c gd id tr m p) = Some (mk_xst (t <| esp := e |>) g ip f c gd id tr (sel_store m (e - KERNBASE) v) p).
Proof. intros E ? ? ?. assert (e = esp t - 4) as -> by lia. by apply push_sel_k. Qed.
Lemma pop_from e v t g ip f c gd id tr m p : esp t + 4 = e → load32 m (esp t - KERNBASE) = v → kspace W c m → kflat g → kva (esp t) 4 → kva e 0 →
  pop (mk_xst t g ip f c gd id tr m p) = Some (v, mk_xst (t <| esp := e |>) g ip f c gd id tr m p).
Proof. intros <- <- ? ? ? ?. by apply pop_k. Qed.

(** Memory operands. *)
Lemma rd_stack_k d t g ip f c gd id tr m p : kspace W c m → kflat g → kva (esp t + d) 4 →
  rd_opnd (mk_xst t g ip f c gd id tr m p) (Mem d (Some ESP)) = Some (load32 m (esp t + d - KERNBASE)).
Proof.
  intros H F Hv. set (s := mk_xst _ _ _ _ _ _ _ _ _ _). destruct (not_user s (ks_pe _ _ _ H) F) as [U _]. unfold rd_opnd, ea. rewrite U. cbn [x_segs x_regs s getr].
  rewrite (kf_ss _ F), Z.add_0_l, (Z.add_comm d), !(kva_u32 (_ + d) 4) by (done || lia). by rewrite ld32_k.
Qed.
Lemma wr_ptr_k r v t g ip f c gd id tr m p : kspace W c m → kflat g → sbase (ds g) = 0 → r ≠ ESP → r ≠ EBP → writable W (getr r t) 4 →
  wr_opnd (Mem 0 (Some r)) v (mk_xst t g ip f c gd id tr m p) = Some (mk_xst t g ip f c gd id tr (store32 m (getr r t - KERNBASE) v) p).
Proof.
  intros H F Hd H1 H2 Hw. set (s := mk_xst _ _ _ _ _ _ _ _ _ _). destruct (not_user s (ks_pe _ _ _ H) F) as [U _]. pose proof (writable_kva _ _ _ Hw) as Hv.
  unfold wr_opnd. rewrite U. assert (ea s 0 (Some r) = getr r t) as ->.
  { pose proof (kva_u32 _ 4 Hv ltac:(lia)) as E. unfold ea. cbn [x_regs s]. rewrite Z.add_0_l, E. destruct r; try done; cbn [x_segs s]; by rewrite Hd, Z.add_0_l. }
  by rewrite st32_k.
Qed.

(** Fetching. *)
Lemma step_k code i n t g ip f c gd id tr m p : kspace W c m → kflat g → ktext code ip = Some (true, i, n) →
  step code (mk_xst t g ip f c gd id tr m p) = execute i (mk_xst t g (u32 (ip + n)) f c gd id tr m p).
Proof.
  intros H F. unfold ktext. destruct (Z.leb_spec KERNBASE ip) as [H1|], (Z.ltb_spec ip (KERNBASE + PHYSTOP)) as [H2|]; try done. cbn [andb]. intros Hc.
  set (s := mk_xst _ _ _ _ _ _ _ _ _ _). destruct (not_user s (ks_pe _ _ _ H) F) as [U _]. assert (kva ip 1) as Hv by (unfold kva; lia).
  unfold step, fetch, fetch_at. rewrite U. cbn [x_segs x_eip s x_ctl x_mem]. rewrite (kf_cs _ F), Z.add_0_l, (kva_u32 ip 1) by (done || lia).
  rewrite (ks_rd _ _ _ H _ (agree_refl _ _) ip Hv). cbn [mbind option_bind]. rewrite Hc. cbn [mbind option_bind]. rewrite (kf_cbig _ F). done.
Qed.
End kernel.

(** Side conditions: the mapping after stores, and ranges of addresses. *)
Ltac kaddr := solve [assumption | unfold kva in *; lia | match goal with H : writable _ _ _ |- _ => apply (writable_sub _ _ _ _ _ H); lia end].
Ltac kmem := repeat first [assumption | apply kspace_store32; [kaddr|] | apply kspace_sel_store; [kaddr|]].
(** One instruction of the code, and one use of the stack. *)
Ltac xcbn := cbn; unfold set_low, set_reg, set_seg, set_cr, jump; cbn.
Ltac kside := cbn; first [eassumption | match goal with H : _ |- kflat _ => apply H end | lia | solve [kmem] | kaddr].
Ltac kstep T := lazymatch goal with _ : kspace ?W _ _ |- _ => erewrite (step_k W) by (first [exact T | kside]) end; cbn [execute].
Ltac kpush e := lazymatch goal with _ : kspace ?W _ _ |- _ => rewrite (push_to W e) by kside end; xcbn.
Ltac kpush_sel e := lazymatch goal with _ : kspace ?W _ _ |- _ => rewrite (push_sel_to W e) by kside end; xcbn.
Ltac kpop e := lazymatch goal with _ : kspace ?W _ _ |- _ => erewrite (pop_from W e) by (first [reflexivity | kside]) end; xcbn.

(** ** A stack as the list of what was pushed *)

(** A word, or a selector. *)
Inductive pushed := PW (v : Z) | PS (v : Z).

Section stack.
Context {HW : Hw} {CP : Cpu}.

Definition push_one (m : mem) (a : Z) (x : pushed) : mem :=
  match x with PW v => store32 m (a - KERNBASE) v | PS v => sel_store m (a - KERNBASE) v end.
(** The stack that was empty at [e], after the pushes [L]. *)
Fixpoint pushes (e : Z) (L : list pushed) (m : mem) : mem :=
  match L with [] => m | x :: L' => pushes (e - 4) L' (push_one m (e - 4) x) end.
Definition below (e : Z) (L : list pushed) : Z := e - 4 * Z.of_nat (length L).

Lemma pushes_snoc e L x m : pushes e (L ++ [x]) m = push_one (pushes e L m) (below e L - 4) x.
Proof.
  revert e m. induction L as [|y L IH]; intros e m; cbn [app pushes]; [unfold below; cbn [length]; f_equal; lia|].
  rewrite IH. f_equal. unfold below. cbn [length]. lia.
Qed.
Lemma below_snoc e L x : below e (L ++ [x]) = below e L - 4.
Proof. unfold below. rewrite length_app. cbn [length]. lia. Qed.

Lemma below_app e L L' : below e (L ++ L') = below e L - 4 * Z.of_nat (length L').
Proof. unfold below. rewrite length_app. lia. Qed.

Lemma push_one_ne m a x p : ¬ (a ≤ p + KERNBASE < a + 4) → push_one m a x p = m p.
Proof. intros H. destruct x; cbn; [apply store32_ne|apply sel_store_ne]; lia. Qed.
Lemma pushes_ne e L m p : ¬ (below e L ≤ p + KERNBASE < e) → pushes e L m p = m p.
Proof.
  revert e m. induction L as [|y L IH]; intros e m Hp; cbn [pushes]; [done|]. unfold below in *. cbn [length] in Hp.
  rewrite IH by lia. apply push_one_ne. lia.
Qed.
Lemma pushes_agree W e L m n : writable W (e - n) n → 4 * Z.of_nat (length L) ≤ n → agree W m (pushes e L m).
Proof.
  intros [_ Hw] Hn p Hp. apply pushes_ne. intros H. apply Hp. unfold below in H. specialize (Hw (p + KERNBASE) ltac:(lia)). by replace (p + KERNBASE - KERNBASE) with p in Hw by lia.
Qed.

Lemma pushes_word e L m i v : L !! i = Some (PW v) → load32 (pushes e L m) (e - 4 * Z.of_nat (S i) - KERNBASE) = u32 v.
Proof.
  revert e m i. induction L as [|y L IH]; intros e m i Hi; [done|]. cbn [pushes]. destruct i as [|i]; cbn in Hi.
  - simplify_eq. replace (e - 4 * Z.of_nat 1) with (e - 4) by lia. rewrite (load32_ext _ (push_one m (e - 4) (PW v))); [apply load_store32|].
    intros p Hp. apply pushes_ne. unfold below. lia.
  - replace (e - 4 * Z.of_nat (S (S i))) with (e - 4 - 4 * Z.of_nat (S i)) by lia. by apply IH.
Qed.
Lemma pushes_sel e L m i v : L !! i = Some (PS v) → 0 ≤ v < 2 ^ 16 → load16 (pushes e L m) (e - 4 * Z.of_nat (S i) - KERNBASE) = v.
Proof.
  revert e m i. induction L as [|y L IH]; intros e m i Hi Hv; [done|]. cbn [pushes]. destruct i as [|i]; cbn in Hi.
  - simplify_eq. replace (e - 4 * Z.of_nat 1) with (e - 4) by lia. rewrite (load16_ext _ (push_one m (e - 4) (PS v))); [by apply sel_store_at|].
    intros p Hp. apply pushes_ne. unfold below. lia.
  - replace (e - 4 * Z.of_nat (S (S i))) with (e - 4 - 4 * Z.of_nat (S i)) by lia. by apply IH.
Qed.

(** Pushing onto such a stack, which has room for [n] bytes. *)
Lemma push_on W n e L v t g ip f c gd id tr m p : kspace W c m → kflat g → writable W (e - n) n → 4 * Z.of_nat (length L) + 4 ≤ n → esp t = below e L →
  push v (mk_xst t g ip f c gd id tr (pushes e L m) p) =
  Some (mk_xst (t <| esp := below e (L ++ [PW v]) |>) g ip f c gd id tr (pushes e (L ++ [PW v]) m) p).
Proof.
  intros Hs Hg Hw Hn He. rewrite (push_to W (below e L - 4)); [by rewrite pushes_snoc, below_snoc|lia| |done|].
  - eapply kspace_agree; [done|]. eapply pushes_agree; [done|lia].
  - apply (writable_sub _ _ _ _ _ Hw); unfold below; lia.
Qed.
Lemma push_sel_on W n e L v t g ip f c gd id tr m p : kspace W c m → kflat g → writable W (e - n) n → 4 * Z.of_nat (length L) + 4 ≤ n → esp t = below e L →
  push_sel v (mk_xst t g ip f c gd id tr (pushes e L m) p) =
  Some (mk_xst (t <| esp := below e (L ++ [PS v]) |>) g ip f c gd id tr (pushes e (L ++ [PS v]) m) p).
Proof.
  intros Hs Hg Hw Hn He. rewrite (push_sel_to W (below e L - 4)); [by rewrite pushes_snoc, below_snoc|lia| |done|].
  - eapply kspace_agree; [done|]. eapply pushes_agree; [done|lia].
  - apply (writable_sub _ _ _ _ _ Hw); unfold below; lia.
Qed.
End stack.
#[global] Arguments pushes : simpl never.
#[global] Arguments below : simpl never.

(** ** Descriptor tables *)

(** The table at [t.1] with limit [t.2] holds the descriptors [ws] and is not
    written. *)
Record table (W : Z → Prop) (m : mem) (t : Z * Z) (ws : list (Z * Z)) : Prop := {
  tb_kva : kva (fst t) (8 * Z.of_nat (length ws));
  tb_limit : snd t = 8 * Z.of_nat (length ws) - 1;
  tb_fixed : ∀ x, fst t ≤ x < fst t + 8 * Z.of_nat (length ws) → ¬ W (x - KERNBASE);
  tb_words : ∀ i w, ws !! i = Some w →
    load32 m (fst t + 8 * Z.of_nat i - KERNBASE) = fst w ∧ load32 m (fst t + 8 * Z.of_nat i + 4 - KERNBASE) = snd w }.

Lemma table_agree W m m' t ws : table W m t ws → agree W m m' → table W m' t ws.
Proof.
  intros [H1 H2 H3 H4] Ha. split; [done|done|done|]. intros i w Hi. destruct (H4 i w Hi) as [<- <-]. apply lookup_lt_Some in Hi.
  split; apply load32_ext; intros p Hp; apply Ha; (replace p with (p + KERNBASE - KERNBASE) by lia); apply H3; lia.
Qed.
Lemma ld_desc_k W s t ws i w : kspace W (x_ctl s) (x_mem s) → table W (x_mem s) t ws → ws !! i = Some w → ld_desc s t (8 * Z.of_nat i) = Some w.
Proof.
  intros Hs [H1 H2 H3 H4] Hi. destruct (H4 i w Hi) as [E1 E2]. apply lookup_lt_Some in Hi. unfold kva in H1.
  unfold ld_desc. destruct (Z.ltb_spec (snd t) (8 * Z.of_nat i + 7)); [lia|]. rewrite !(ld32_k W) by (done || (unfold kva; lia)). cbn [mbind option_bind].
  rewrite E1. replace (t.1 + (8 * Z.of_nat i) + 4) with (t.1 + 8 * Z.of_nat i + 4) by lia. rewrite E2. by destruct w.
Qed.

(** The segment that a selector names in a table. *)
Definition seg_of (ws : list (Z * Z)) (v : Z) : option seg :=
  let v := v mod 2 ^ 16 in
  if v <? 4 then Some (mk_seg v 0 true) else
  if Z.testbit v 2 then None else
  d ← ws !! Z.to_nat (Z.shiftr v 3);
  if desc_present d then Some (mk_seg v (desc_base d) (desc_big d)) else None.
Lemma ld_seg_k W s ws v d : kspace W (x_ctl s) (x_mem s) → table W (x_mem s) (x_gdtr s) ws → seg_of ws v = Some d → ld_seg s v = Some d.
Proof.
  intros Hs Ht. unfold seg_of, ld_seg. rewrite (ks_pe _ _ _ Hs). cbn [negb]. destruct (_ <? 4); [done|]. destruct (Z.testbit _ 2); [done|].
  destruct (ws !! _) as [w|] eqn:E; [|done]. cbn [mbind option_bind]. pose proof (ld_desc_k W s _ ws _ w Hs Ht E) as Hd.
  rewrite Z2Nat.id in Hd by (apply Z.shiftr_nonneg, Z.mod_pos_bound; lia). rewrite Hd. done.
Qed.

Lemma steps_app {HW : Hw} {CP : Cpu} code n k s s' : steps code n s = Some s' → steps code (n + k) s = steps code k s'.
Proof.
  revert s. induction n as [|n IH]; intros s; cbn [steps]; [by intros [= ->]|]. cbn [Nat.add steps].
  destruct (step code s); cbn [mbind option_bind]; [apply IH|done].
Qed.

Lemma kflat_not_user s : kflat (x_segs s) → is_user s = false.
Proof. intros Hg. unfold is_user, cpl. rewrite (kf_cpl _ Hg). by destruct (protected _). Qed.
