(* ===== verification/Paging.v ===== *)
(** * Address spaces on the processor

    The page tables that vm.c makes, walked by the paging unit of the
    processor: kernel code finds the physical memory at KERNBASE, and user
    code reaches the frames of its own pages and nothing else. *)

From S2P Require Import Prelude Machine Spinlock CString ProcTable Proc Lifecycle Ready Aging.
From S2P Require Import ProcLemmas Scheduler Reach Blocking Kstate Sleeplock Solo.
From S2P Require Import Devices Disk Bio Layout Log Inode Console Fs Kalloc Vm PageTable AddrSpace X86 X86Lemmas.

(** The processor runs in protected mode with the page directory [d]. *)
Record paged (c : ctl) (d : Z) : Prop := {
  pg_pe : protected c = true; pg_on : has (c_cr0 c) CR0_PG = true; pg_dir : c_cr3 c = V2P d }.

(** Where user code with the pages [U] gets when it reads or writes at [va]. *)
Definition user_reach (U : gmap Z (Z * Z)) (w : bool) (va : Z) : option Z :=
  if va <? KERNBASE then
    match U !! (va / 4096) with
    | Some (v, f) => if has f PTE_U && implb w (has f PTE_W) then Some (V2P v + va mod 4096) else None
    | None => None
    end
  else None.

(** Memory that kernel code may write while it runs on the tables [T] of the
    directory [d]: neither these tables nor the text of the kernel. *)
Definition kernel_data {LK : Link} (d : Z) (T : gmap Z Z) (p : Z) : Prop :=
  (∀ v, dir_page d T v → ¬ in_page v p) ∧ ¬ (V2P KERNLINK ≤ p < V2P kdata).

Lemma has_low e f : 0 ≤ f < 4096 → has e f = has (e mod 4096) f.
Proof.
  intros Hf. unfold has. f_equal. f_equal. change 4096 with (2 ^ 12). rewrite <- Z.land_ones by lia. rewrite <- Z.land_assoc. f_equal.
  rewrite Z.land_comm, Z.land_ones by lia. symmetry. by apply Z.mod_small.
Qed.
Lemma allowed_low c u w e : allowed c u w e = allowed c u w (e mod 4096).
Proof. unfold allowed. rewrite !(has_low e) by (unfold PTE_U, PTE_W; lia). done. Qed.

Section paging.
Context {FU : Fuel} {HW : Hw} {DK : Disk} {LK : Link} (HL : link_ok).

(** The directory at [d] has the tables [T]. *)
Record tables (m : mem) (d : Z) (T : gmap Z Z) : Prop := {
  tt_dir : page_ok d;
  tt_some : ∀ i t, T !! i = Some t → 0 ≤ i < 1024 ∧ page_ok t ∧ load32 m (V2P d + 4 * i) = V2P t + 7;
  tt_none : ∀ i, 0 ≤ i < 1024 → T !! i = None → Z.odd (load32 m (V2P d + 4 * i)) = false }.
Lemma vm_tables r l d T : vm r l d T → tables (pmem r) d T.
Proof. intros [_ [H1 _] H2 H3 _]. split; [done| |done]. intros i t Ht. destruct (H2 i t Ht) as (? & ? & _ & _ & ?). done. Qed.

(** Code that does not write to the tables leaves the mapping as it is. *)
Lemma tables_agree W m m' d T : tables m d T → agree W m m' → (∀ p, W p → ∀ v, dir_page d T v → ¬ in_page v p) →
  tables m' d T ∧ ∀ n, 0 ≤ n < 1048576 → pte m' T n = pte m T n.
Proof.
  intros [H1 H2 H3] Ha HWr. assert (∀ v k, dir_page d T v → 0 ≤ k < 1024 → load32 m' (V2P v + 4 * k) = load32 m (V2P v + 4 * k)) as Hl.
  { intros v k Hv Hk. apply load32_ext. intros p Hp. apply Ha. intros Hw. apply (HWr p Hw v Hv). unfold in_page, PGSIZE. lia. }
  split; [split; [done|intros i t Ht; destruct (H2 i t Ht) as (? & ? & ?); by rewrite Hl by (done || by left)|intros i Hi Hn; rewrite Hl by (done || by left); by apply H3]|].
  intros n Hn. unfold pte. destruct (T !! (n / 1024)) as [t|] eqn:E; [|done]. apply Hl; [right; eauto|apply Z.mod_pos_bound; lia].
Qed.

(** The walk of the paging unit. *)
Lemma xlate_walk m d T c u w va : tables m d T → paged c d → 0 ≤ va < 2 ^ 32 →
  xlate c m u w va = let e := pte m T (va / 4096) in if Z.odd e && allowed c u w e then Some (PTE_ADDR e + va mod 4096) else None.
Proof.
  intros [Hp H2 H3] [_ Hon Hd] Hva. unfold xlate, pte. rewrite Hon, Hd. cbn [negb]. destruct (page_phys d Hp) as (Hm & _).
  assert (PTE_ADDR (V2P d) = V2P d) as -> by (rewrite <- (Z.add_0_r (V2P d)) at 1; by rewrite PTE_ADDR_add). rewrite PDX_div, PTX_mod, !has_P_odd by done.
  destruct (T !! (va / 4096 / 1024)) as [t|] eqn:E.
  - destruct (H2 _ _ E) as (_ & A2 & ->). destruct (page_phys t A2) as (B1 & _). rewrite PTE_ADDR_add by (done || lia).
    assert ((V2P t + 7) mod 4096 = 7) as E7 by (rewrite Z.add_mod, B1 by lia; done). rewrite (has_low _ PTE_PS), (allowed_low _ _ _ (V2P t + 7)), E7 by (unfold PTE_PS; lia).
    assert (Z.odd (V2P t + 7) = true) as ->. { apply Z.mod_divide in B1 as [a ->]; [|lia]. by rewrite Z.odd_add, Z.odd_mul, andb_false_r. }
    change (has 7 PTE_PS) with false. assert (allowed c u w 7 = true) as -> by (unfold allowed; by destruct u, w, (has (c_cr0 c) CR0_WP)). cbn [negb andb]. by destruct (Z.odd _).
  - by rewrite H3 by (done || by apply pdx_range).
Qed.

(** User code gets nowhere but to its pages, *)
Lemma user_xlate r l d T U c w va : uvm r l d T U → (∀ n, 524288 ≤ n → pte (pmem r) T n = kpte n) → paged c d → 0 ≤ va < 2 ^ 32 →
  xlate c (pmem r) true w va = user_reach U w va.
Proof.
  intros H Hk Hc Hva. rewrite (xlate_walk _ _ _ _ _ _ _ (vm_tables _ _ _ _ (u_vm _ _ _ _ _ H)) Hc Hva). cbv zeta. unfold user_reach, KERNBASE. pose proof (Z.div_mod va 4096 ltac:(lia)) as Hd. pose proof (Z.mod_pos_bound va 4096 ltac:(lia)).
  destruct (Z.ltb_spec va 2147483648) as [Hlt|Hge].
  - destruct (U !! (va / 4096)) as [[v f]|] eqn:E.
    + destruct (u_some _ _ _ _ _ H _ _ _ E) as (_ & Hv & _ & _ & Hf & Ho & ->). destruct (page_phys v Hv) as (Hz & _).
      assert ((V2P v + f) mod 4096 = f) as Em by (rewrite Z.add_mod, Hz, Z.add_0_l, Z.mod_mod by lia; by apply Z.mod_small). rewrite PTE_ADDR_add, allowed_low, Em by done.
      assert (Z.odd (V2P v + f) = true) as ->. { apply Z.mod_divide in Hz as [a ->]; [|lia]. by rewrite Z.odd_add, Z.odd_mul, andb_false_r, Ho. }
      unfold allowed. cbn [andb implb orb]. rewrite andb_true_r. done.
    + by rewrite (u_none _ _ _ _ _ H) by (done || unfold UPAGES; lia).
  - rewrite Hk by lia. set (n := va / 4096) in *. assert (∀ x e, 0 ≤ e < 4 → allowed c true w (4096 * x + e) = false) as Hno.
    { intros x e He. rewrite allowed_low. replace ((4096 * x + e) mod 4096) with e by (rewrite Z.add_comm, Z.mul_comm, Z.mod_add, Z.mod_small; lia).
      assert (e = 0 ∨ e = 1 ∨ e = 2 ∨ e = 3) as [->|[->|[->| ->]]] by lia; done. }
    unfold kpte. repeat case_decide; rewrite ?Hno, ?andb_false_r by lia; done.
Qed.

(** and the kernel is mapped wherever its code runs. *)
Lemma kernel_space r l d T c W : vm r l d T → (∀ n, 524288 ≤ n → pte (pmem r) T n = kpte n) → paged c d → (∀ p, W p → kernel_data d T p) → kspace W c (pmem r).
Proof.
  intros H Hk Hc HWr. pose proof (vm_tables _ _ _ _ H) as Ht. destruct (data_phys HL) as (D1 & D2 & D3).
  assert (∀ m' w a, agree W (pmem r) m' → kva a 1 → (w = true → W (a - KERNBASE)) → xlate c m' false w a = Some (a - KERNBASE)) as Hx.
  { intros m' w a Ha Hv Hw. unfold kva in Hv. destruct (tables_agree W _ _ _ _ Ht Ha) as [Ht' Hp]; [intros p Hp; by apply HWr|]. unfold KERNBASE, PHYSTOP in Hv.
    rewrite (xlate_walk _ _ _ _ _ _ _ Ht' Hc) by lia. cbv zeta. pose proof (Z.div_mod a 4096 ltac:(lia)) as Hd. pose proof (Z.mod_pos_bound a 4096 ltac:(lia)). set (n := a / 4096) in *. assert (524288 ≤ n < 581632) as Hn by lia.
    rewrite Hp, Hk by lia. assert (∀ e, 0 ≤ e < 4 → PTE_ADDR (4096 * (n - 524288) + e) + a mod 4096 = a - KERNBASE) as Hpa.
    { intros e He. rewrite PTE_ADDR_add by (lia || (rewrite Z.mul_comm; apply Z.mod_mul; lia)). unfold KERNBASE. lia. }
    assert (∀ e, e = 1 ∨ e = 3 → (w = true → e = 3) → Z.odd (4096 * (n - 524288) + e) && allowed c false w (4096 * (n - 524288) + e) = true) as Hal.
    { intros e He Hwe. rewrite allowed_low, Z.odd_add, Z.odd_mul. replace ((4096 * (n - 524288) + e) mod 4096) with e by (rewrite Z.add_comm, Z.mul_comm, Z.mod_add, Z.mod_small; lia).
      unfold allowed. destruct w; [rewrite Hwe by done|destruct He as [->| ->]]; by destruct (has (c_cr0 c) CR0_WP). }
    unfold kpte. destruct (decide (524288 ≤ n < 524544)); [by rewrite Hal, Hpa by (lia || by right)|]. destruct (decide (524544 ≤ n < kdata / 4096)); [|destruct (decide _); [by rewrite Hal, Hpa by (lia || by right)|lia]].
    rewrite Hal, Hpa; [done|lia|by left|]. intros ->. exfalso. apply (HWr _ (Hw eq_refl)). change (V2P KERNLINK) with 0x100000. rewrite D1. unfold KERNBASE. lia. }
  split; [apply Hc|intros m' Ha a Hv; by apply Hx|intros m' Ha a Hv Hw; by apply Hx].
Qed.

(** With write protection on, not even kernel code writes to the text. *)
Lemma text_readonly r l d T c va : vm r l d T → (∀ n, 524288 ≤ n → pte (pmem r) T n = kpte n) → paged c d → has (c_cr0 c) CR0_WP = true → KERNLINK ≤ va < kdata → xlate c (pmem r) false true va = None.
Proof.
  intros H Hk Hc Hwp Hva. destruct (data_phys HL) as (D1 & D2 & D3). unfold KERNLINK, KERNBASE, EXTMEM in Hva. rewrite (xlate_walk _ _ _ _ _ _ _ (vm_tables _ _ _ _ H) Hc) by lia. cbv zeta.
  pose proof (Z.div_mod va 4096 ltac:(lia)). pose proof (Z.mod_pos_bound va 4096 ltac:(lia)). set (n := va / 4096) in *. assert (524544 ≤ n < kdata / 4096) as Hn by lia. rewrite Hk by lia.
  unfold kpte. rewrite decide_False, decide_True by lia. rewrite allowed_low. replace ((4096 * (n - 524288) + 1) mod 4096) with 1 by (rewrite Z.add_comm, Z.mul_comm, Z.mod_add; [done|lia]).
  unfold allowed. rewrite Hwp. by rewrite andb_false_r.
Qed.

Context {s : kstate} {c0 p0 : nat} {u0 : cpu} {q0 : proc} (Hsolo : solo s c0 p0 u0 q0).


(** C9. Memory protection after fork().  Where copyuvm() succeeds, user code of
    the child reaches only frames that were free before the call, hence no
    memory of the kernel, of a page table in use or of another process, and
    only for the pages its parent had, with the parent's permissions; there
    it finds the parent's bytes.  The kernel stays mapped while the child
    runs. *)
Theorem child_isolated r l d T U sz : let np := (sz + 4095) / 4096 in
  uvm r l d T U → bytes (pmem r) → 0 ≤ sz ≤ KERNBASE → (∀ n, 0 ≤ n < np → is_Some (U !! n)) →
  ∃ x m f, copyuvm d sz (with_res s r) = Ret x (with_res s (remem r m f)) ∧
    ((x = 0 ∧ Z.of_nat (length l) ≤ 1025 + np) ∨
     ∃ T', (∀ v, dir_page x T' v → v ∈ l) ∧ ∀ c, paged c x → kspace (kernel_data x T') c m ∧
       ∀ w va, 0 ≤ va < 2 ^ 32 →
         match xlate c m true w va with
         | Some pa => va / 4096 < np ∧ (∃ v, v ∈ l ∧ ¬ dir_page x T' v ∧ in_page v pa) ∧ ∃ pa0, user_reach U w va = Some pa0 ∧ m pa = pmem r pa0
         | None => va / 4096 < np → user_reach U w va = None
         end).
Proof.
  intros np H HB Hsz Hall. destruct (copyuvm_spec HL Hsolo r l d T U sz H HB Hsz Hall) as (x & m & f & E & [(-> & Hl & _)|(l' & T' & U' & [C1 C2 C3 C4 C5 C6 C7])]); [exists 0, m, f; split; [done|by left]|].
  exists x, m, f. split; [done|]. right. exists T'. split; [intros v Hv; apply C3; right; by left|]. intros c Hc. split; [by apply (kernel_space (remem r m f) l' x T'); [apply C1|..]|].
  intros w va Hva. rewrite (user_xlate (remem r m f) l' x T' U') by done. fold np in C6, C7. unfold user_reach. destruct (va <? KERNBASE); [|done]. pose proof (Z.mod_pos_bound va 4096 ltac:(lia)) as Hm. assert (0 ≤ va / 4096) as Hn by (apply Z.div_pos; lia).
  destruct (decide (va / 4096 < np)) as [Hlt|Hge]; [|by rewrite C7 by lia]. destruct (C6 (va / 4096) ltac:(lia)) as (v & g & v' & E1 & E2 & Hb). rewrite E1, E2. destruct (_ && _); [|done].
  split; [done|]. split; [|eauto]. exists v'. destruct (u_some _ _ _ _ _ C1 _ _ _ E2) as (_ & _ & _ & Hd & _). split; [apply C3; right; right; eauto|]. split; [done|]. unfold in_page, PGSIZE. lia.
Qed.
End paging.
