(* ===== verification/Swtch.v ===== *)
(** * The context switch (swtch.S)

    [swtch] saves the callee-saved registers of one kernel thread on its stack
    as a [struct context] and resumes the thread whose context it is given. *)

From S2P Require Import Prelude Machine Spinlock CString ProcTable Proc Lifecycle Kstate.
From S2P Require Import Sleeplock Devices Disk Bio Layout Log Inode Console Kbd Fs Kalloc File Vm PageTable Env Exec Syscall Trap X86 X86Lemmas.

Definition swtch_S : list item :=
  [Lbl "swtch";
   Ins (MOVL (Mem 4 (Some ESP)) (Reg EAX));
   Ins (MOVL (Mem 8 (Some ESP)) (Reg EDX));
   Ins (PUSHL (Reg EBP));
   Ins (PUSHL (Reg EBX));
   Ins (PUSHL (Reg ESI));
   Ins (PUSHL (Reg EDI));
   Ins (MOVL (Reg ESP) (Mem 0 (Some EAX)));
   Ins (MOVL (Reg EDX) (Reg ESP));
   Ins (POPL EDI);
   Ins (POPL ESI);
   Ins (POPL EBX);
   Ins (POPL EBP);
   Ins RET].

(** The [struct context] at a kernel virtual address, with the fields in the
    order of proc.h. *)
Definition context_in (m : mem) (a : Z) : context :=
  let w o := load32 m (a + o - KERNBASE) in mk_context (w 0) (w 4) (w 8) (w 12) (w 16).

Section swtch.
Context {HW : Hw} {CP : Cpu} (W : Z → Prop) (code : text) (sym : string → Z).

Hypothesis text_at : placed sym (ktext code) (fun _ => 0) true (sym "swtch"%string) swtch_S.

Lemma swtch_run t g f c gd id tr m p old new : let e := esp t in
  kspace W c m → kflat g → sbase (ds g) = 0 → writable W (e - 16) 16 → kva e 12 → writable W old 4 → kva new 20 →
  load32 m (e + 4 - KERNBASE) = old → load32 m (e + 8 - KERNBASE) = new →
  let m' := store32 (store32 (store32 (store32 (store32 m (e - 4 - KERNBASE) (ebp t)) (e - 8 - KERNBASE) (ebx t))
    (e - 12 - KERNBASE) (esi t)) (e - 16 - KERNBASE) (edi t)) (old - KERNBASE) (e - 16) in
  let n := context_in m' new in
  steps code 13 (mk_xst t g (sym "swtch"%string) f c gd id tr m p) =
  Some (mk_xst (mk_regs old (ecx t) new (c_ebx n) (new + 20) (c_ebp n) (c_esi n) (c_edi n)) g (c_eip n) f c gd id tr m' p).
Proof.
  intros e0 Hs Hg Hd Hst Hsk Ho Hn Eo En m' n. destruct t as [a0 c0 d0 b0 e bp0 si0 di0]. cbn [esp ecx ebp ebx esi edi] in *. subst e0.
  cbn in text_at. destruct text_at as (_ & n1 & T1 & n2 & T2 & n3 & T3 & n4 & T4 & n5 & T5 & n6 & T6 & n7 & T7 & n8 & T8 & n9 & T9 & n10 & T10 & n11 & T11 & n12 & T12 & n13 & T13 & _).
  cbn [steps]. kstep T1. rewrite (rd_stack_k W) by kside. xcbn. rewrite Eo.
  kstep T2. rewrite (rd_stack_k W) by kside. xcbn. rewrite En.
  kstep T3. xcbn. kpush (e - 4). kstep T4. xcbn. kpush (e - 8). kstep T5. xcbn. kpush (e - 12). kstep T6. xcbn. kpush (e - 16).
  kstep T7. cbn [rd_opnd mbind option_bind]. rewrite (wr_ptr_k W) by (try done; kside). xcbn. kstep T8. xcbn.
  kstep T9. unfold pop_reg. kpop (new + 4). kstep T10. unfold pop_reg. kpop (new + 8).  kstep T11. unfold pop_reg. kpop (new + 12). kstep T12. unfold pop_reg. kpop (new + 16). kstep T13. kpop (new + 20).
  unfold n, context_in. cbn [c_edi c_esi c_ebx c_ebp c_eip]. by rewrite Z.add_0_r.
Qed.

(** A call swtch(old, new) about to execute: the arguments are on the stack
    above the return address, and neither the slot [old] nor the context [new]
    overlaps the part of the stack that is in use. *)
Record swtch_call (s : xst) (old new : Z) : Prop := {
  sc_at : x_eip s = sym "swtch"%string;
  sc_space : kspace W (x_ctl s) (x_mem s);
  sc_flat : kflat (x_segs s);
  sc_ds : sbase (ds (x_segs s)) = 0;
  sc_words : ∀ r, 0 ≤ getr r (x_regs s) < 2 ^ 32;
  sc_stack : writable W (esp (x_regs s) - 16) 16;
  sc_args : kva (esp (x_regs s)) 12;
  sc_arg0 : load32 (x_mem s) (esp (x_regs s) + 4 - KERNBASE) = old;
  sc_arg1 : load32 (x_mem s) (esp (x_regs s) + 8 - KERNBASE) = new;
  sc_old : writable W old 4;
  sc_new : kva new 20;
  sc_apart : apart old 4 (esp (x_regs s) - 16) 28 ∧ apart new 20 (esp (x_regs s) - 16) 28 ∧ apart new 20 old 4 }.

(** The thread with the context [c] goes on with its stack at [sp]. *)
Definition resumes (c : context) (sp : Z) (s : xst) : Prop :=
  edi (x_regs s) = c_edi c ∧ esi (x_regs s) = c_esi c ∧ ebx (x_regs s) = c_ebx c ∧ ebp (x_regs s) = c_ebp c ∧
  x_eip s = c_eip c ∧ esp (x_regs s) = sp.

(** The context of the caller of swtch: its callee-saved registers and the
    return address. *)
Definition caller (s : xst) : context :=
  let t := x_regs s in mk_context (edi t) (esi t) (ebx t) (ebp t) (load32 (x_mem s) (esp t - KERNBASE)).

Lemma context_in_ext m m' a : (∀ p, a - KERNBASE ≤ p < a - KERNBASE + 20 → m' p = m p) → context_in m' a = context_in m a.
Proof. intros H. unfold context_in. f_equal; apply load32_ext; intros p Hp; apply H; lia. Qed.

Lemma swtch_spec s old new : swtch_call s old new → let e := esp (x_regs s) in
  ∃ s', steps code 13 s = Some s' ∧ resumes (context_in (x_mem s) new) (new + 20) s' ∧
    load32 (x_mem s') (old - KERNBASE) = e - 16 ∧ context_in (x_mem s') (e - 16) = caller s ∧
    (∀ p, ¬ (e - 16 ≤ p + KERNBASE < e) → ¬ (old ≤ p + KERNBASE < old + 4) → x_mem s' p = x_mem s p) ∧
    x_segs s' = x_segs s ∧ x_ctl s' = x_ctl s ∧ x_flags s' = x_flags s.
Proof.
  intros [H1 H2 H3 H4 H5 H6 H7 H8 H9 H10 H11 (A1 & A2 & A3)] e. destruct s as [t g ip f c gd id tr m p]. cbn [x_eip x_ctl x_mem x_segs x_regs x_flags] in *. subst ip.
  pose proof (swtch_run t g f c gd id tr m p old new H2 H3 H4 H6 H7 H10 H11 H8 H9) as E. cbv zeta in E. fold e in E, H6, H7, A1, A2, A3.
  set (m' := store32 _ (old - KERNBASE) _) in E. assert (∀ q, ¬ (e - 16 ≤ q + KERNBASE < e) → ¬ (old ≤ q + KERNBASE < old + 4) → m' q = m q) as Hm.
  { intros q Q1 Q2. unfold m'. rewrite !store32_ne by lia. done. }
  assert (context_in m' new = context_in m new) as En. { apply context_in_ext. intros q Hq. unfold apart in *. apply Hm; lia. }
  eexists. split; [exact E|]. rewrite En. cbn [x_mem x_segs x_ctl x_flags]. split; [done|]. split; [|split; [|done]].
  - unfold m'. rewrite load_store32. pose proof (kva_u32 (e - 16) 16 (writable_kva _ _ _ H6) ltac:(lia)). done.
  - unfold context_in, caller. cbn [x_regs x_mem]. fold e. f_equal.
    + unfold m'. rewrite load_store32_ne by (unfold apart in *; lia). replace (e - 16 + 0 - KERNBASE) with (e - 16 - KERNBASE) by lia. rewrite load_store32. apply Z.mod_small, (H5 EDI).
    + unfold m'. rewrite !load_store32_ne by (unfold apart in *; lia). replace (e - 16 + 4 - KERNBASE) with (e - 12 - KERNBASE) by lia. rewrite load_store32. apply Z.mod_small, (H5 ESI).
    + unfold m'. rewrite !load_store32_ne by (unfold apart in *; lia). replace (e - 16 + 8 - KERNBASE) with (e - 8 - KERNBASE) by lia. rewrite load_store32. apply Z.mod_small, (H5 EBX).
    + unfold m'. rewrite !load_store32_ne by (unfold apart in *; lia). replace (e - 16 + 12 - KERNBASE) with (e - 4 - KERNBASE) by lia. rewrite load_store32. apply Z.mod_small, (H5 EBP).
    + replace (e - 16 + 16 - KERNBASE) with (e - KERNBASE) by lia. apply load32_ext. intros q Hq. unfold apart in *. apply Hm; lia.
Qed.

(** C10. A thread that calls swtch gets its saved context in the slot [old] and
    the processor goes on with the context [new]; whenever some thread later
    calls swtch with that context, while the saved words are still there, the
    first thread goes on after its call with its callee-saved registers and
    its stack pointer as they were. *)
Theorem swtch_roundtrip s1 old1 new1 : swtch_call s1 old1 new1 →
  ∃ s1', steps code 13 s1 = Some s1' ∧ resumes (context_in (x_mem s1) new1) (new1 + 20) s1' ∧
    let saved := load32 (x_mem s1') (old1 - KERNBASE) in saved = esp (x_regs s1) - 16 ∧
    (∀ p, ¬ (saved ≤ p + KERNBASE < saved + 16) → ¬ (old1 ≤ p + KERNBASE < old1 + 4) → x_mem s1' p = x_mem s1 p) ∧
    ∀ s2 old2, swtch_call s2 old2 saved →
      (∀ p, saved ≤ p + KERNBASE < saved + 20 → x_mem s2 p = x_mem s1' p) →
      ∃ s2', steps code 13 s2 = Some s2' ∧ resumes (caller s1) (esp (x_regs s1) + 4) s2'.
Proof.
  intros H1. destruct (swtch_spec s1 old1 new1 H1) as (s1' & E1 & R1 & S1 & C1 & F1 & _). exists s1'. split; [done|]. split; [done|]. rewrite S1. cbv zeta. split; [done|].
  split; [intros p P1 P2; apply F1; lia|]. intros s2 old2 H2 Hm. destruct (swtch_spec s2 old2 _ H2) as (s2' & E2 & R2 & _). exists s2'. split; [done|].
  rewrite (context_in_ext (x_mem s1')), C1 in R2 by (intros p Hp; apply Hm; lia). by replace (esp (x_regs s1) + 4) with (esp (x_regs s1) - 16 + 20) by lia.
Qed.
End swtch.
