(* ===== verification/Trapasm.v ===== *)
(** * Entering and leaving the kernel (trapasm.S, vectors.pl)

    An interrupt, an exception or a system call goes through a gate of the
    interrupt table to one of the 256 entry points that vectors.pl generates,
    then to [alltraps], which builds the [struct trapframe] on the kernel
    stack and calls trap(); [trapret] restores the registers from it. *)

From S2P Require Import Prelude Machine Spinlock CString ProcTable Proc Lifecycle Kstate.
From S2P Require Import Sleeplock Devices Disk Bio Layout Log Inode Console Kbd Fs Kalloc File Vm PageTable Env Exec Syscall Trap X86 X86Lemmas.
From stdpp Require Import pretty.
Local Open Scope Z_scope.

(** ** Layout of structures: the fields in order with their sizes *)

Fixpoint offset_of (l : list (string * Z)) (f : string) : Z :=
  match l with
  | [] => 0
  | (n, k) :: l' => if String.eqb n f then 0 else k + offset_of l' f
  end.
Definition size_of (l : list (string * Z)) : Z := foldr (fun x n => snd x + n) 0 l.

(** x86.h: [struct trapframe] *)
Definition trapframe_layout : list (string * Z) :=
  [("edi", 4); ("esi", 4); ("ebp", 4); ("oesp", 4); ("ebx", 4); ("edx", 4); ("ecx", 4); ("eax", 4);
   ("gs", 2); ("padding1", 2); ("fs", 2); ("padding2", 2); ("es", 2); ("padding3", 2); ("ds", 2); ("padding4", 2);
   ("trapno", 4); ("err", 4); ("eip", 4); ("cs", 2); ("padding5", 2); ("eflags", 4);
   ("esp", 4); ("ss", 2); ("padding6", 2)]%string.

(** mmu.h: [struct taskstate] *)
Definition taskstate_layout : list (string * Z) :=
  [("link", 4); ("esp0", 4); ("ss0", 2); ("padding1", 2); ("esp1", 4); ("ss1", 2); ("padding2", 2);
   ("esp2", 4); ("ss2", 2); ("padding3", 2); ("cr3", 4); ("eip", 4); ("eflags", 4);
   ("eax", 4); ("ecx", 4); ("edx", 4); ("ebx", 4); ("esp", 4); ("ebp", 4); ("esi", 4); ("edi", 4);
   ("es", 2); ("padding4", 2); ("cs", 2); ("padding5", 2); ("ss", 2); ("padding6", 2);
   ("ds", 2); ("padding7", 2); ("fs", 2); ("padding8", 2); ("gs", 2); ("padding9", 2);
   ("ldt", 2); ("padding10", 2); ("t", 2); ("iomb", 2)]%string.

(** The frame and the task state at a kernel virtual address. *)
Definition frame_in (m : mem) (a : Z) : trapframe :=
  let w f := load32 m (a + offset_of trapframe_layout f - KERNBASE) in
  let h f := load16 m (a + offset_of trapframe_layout f - KERNBASE) in
  mk_trapframe (w "edi") (w "esi") (w "ebp") (w "oesp") (w "ebx") (w "edx") (w "ecx") (w "eax")
    (h "gs") (h "fs") (h "es") (h "ds") (w "trapno") (w "err") (w "eip") (h "cs") (w "eflags") (w "esp") (h "ss")%string.
Definition tss_in (m : mem) (a : Z) (t : taskstate) : Prop :=
  load32 m (a + offset_of taskstate_layout "esp0" - KERNBASE) = esp0 t ∧
  load16 m (a + offset_of taskstate_layout "ss0" - KERNBASE) = ss0 t.

Lemma frame_in_at m a : frame_in m a =
  let w o := load32 m (a + o - KERNBASE) in let h o := load16 m (a + o - KERNBASE) in
  mk_trapframe (load32 m (a - KERNBASE)) (w 4) (w 8) (w 12) (w 16) (w 20) (w 24) (w 28) (h 32) (h 36) (h 40) (h 44) (w 48) (w 52) (w 56) (h 60) (w 64) (w 68) (h 72).
Proof. cbv zeta. rewrite <- (Z.add_0_r a) at 2. reflexivity. Qed.

Lemma frame_in_ext m m' a : (∀ p, a ≤ p + KERNBASE < a + 76 → m' p = m p) → frame_in m' a = frame_in m a.
Proof. intros H. rewrite !frame_in_at. cbv zeta. f_equal; (apply load32_ext || apply load16_ext); intros p Hp; apply H; lia. Qed.

(** ** The source *)

(** The condition of vectors.pl: the processor pushes no error code. *)
Definition no_errcode (i : Z) : bool :=
  negb ((i =? 8) || ((10 <=? i) && (i <=? 14)) || (i =? 17)).
Definition vector_name (i : nat) : string := ("vector" +:+ pretty i)%string.

Section source.
Context (sym : string → Z).

Definition vector (i : nat) : list item :=
  Lbl (vector_name i) ::
  (if no_errcode (Z.of_nat i) then [Ins (PUSHL (Imm 0))] else []) ++
  [Ins (PUSHL (Imm (Z.of_nat i))); Rel JMP (sym "alltraps"%string)].
Definition vectors_S : list item := seq 0 256 ≫= vector.
(** The table [vectors] of the data section. *)
Definition vectors_table : list Z := (fun i => sym (vector_name i)) <$> seq 0 256.

Definition alltraps_S : list item :=
  [Lbl "alltraps";
   Ins (PUSHS DS);
   Ins (PUSHS ES);
   Ins (PUSHS FS);
   Ins (PUSHS GS);
   Ins PUSHAL;
   Ins (MOVW (Imm (Z.shiftl (Z.of_nat SEG_KDATA) 3)) EAX);
   Ins (MOVS EAX DS);
   Ins (MOVS EAX ES);
   Ins (PUSHL (Reg ESP));
   Rel CALL (sym "trap");
   Ins (ADDL 4 ESP)]%string.
Definition trapret_S : list item :=
  [Lbl "trapret";
   Ins POPAL;
   Ins (POPS GS);
   Ins (POPS FS);
   Ins (POPS ES);
   Ins (POPS DS);
   Ins (ADDL 0x8 ESP);
   Ins IRET]%string.
End source.

(** ** Descriptors and gates *)

Lemma gate_decodes istrap v off d : 0 ≤ v < 2 ^ 16 → 0 ≤ off < 2 ^ 32 → 0 ≤ d < 4 →
  let w := gatedesc_words (SETGATE istrap v off d) in
  desc_present w = true ∧ gate_type w = (if istrap then STS_TG32 else STS_IG32) ∧ desc_dpl w = d ∧ gate_sel w = v ∧ gate_off w = off.
Proof.
  intros Hv Ho Hd w. assert (w = (off mod 2 ^ 16 + v * 2 ^ 16, (if istrap then 15 else 14) * 2 ^ 8 + d * 2 ^ 13 + 2 ^ 15 + off / 2 ^ 16 * 2 ^ 16)) as ->.
  { unfold w, gatedesc_words, SETGATE. cbn [off_15_0 g_cs g_args g_rsv1 g_type g_s g_dpl g_p off_31_16].
    change 0xffff with (Z.ones 16). rewrite Z.land_ones, Z.shiftr_div_pow2 by lia. f_equal. unfold STS_TG32, STS_IG32. destruct istrap; ring. }
  pose proof (Z.mod_pos_bound off (2 ^ 16) ltac:(lia)). pose proof (Z.div_mod off (2 ^ 16) ltac:(lia)). set (h := off / 2 ^ 16) in *. set (l := off mod 2 ^ 16) in *.
  unfold desc_present, gate_type, desc_dpl, gate_sel, gate_off, STS_TG32, STS_IG32. cbn [fst snd]. set (T := if istrap then 15 else 14). assert (14 ≤ T < 16) as HT by (unfold T; destruct istrap; lia).
  rewrite Z.testbit_odd, !Z.shiftr_div_pow2 by lia. split; [|split; [|split; [|split]]].
  - replace ((T * 2 ^ 8 + d * 2 ^ 13 + 2 ^ 15 + h * 2 ^ 16) / 2 ^ 15) with (1 + 2 * h) by (apply (Z.div_unique_pos _ _ _ (T * 2 ^ 8 + d * 2 ^ 13)); lia).
    by rewrite Z.odd_add_mul_2.
  - replace ((T * 2 ^ 8 + d * 2 ^ 13 + 2 ^ 15 + h * 2 ^ 16) / 2 ^ 8) with (T + (d + 2 ^ 2 + h * 2 ^ 3) * 2 ^ 5) by (apply (Z.div_unique_pos _ _ _ 0); lia).
    rewrite Z.mod_add by lia. rewrite Z.mod_small by lia. done.
  - replace ((T * 2 ^ 8 + d * 2 ^ 13 + 2 ^ 15 + h * 2 ^ 16) / 2 ^ 13) with (d + (1 + h * 2) * 4) by (apply (Z.div_unique_pos _ _ _ (T * 2 ^ 8)); lia).
    rewrite Z.mod_add by lia. by apply Z.mod_small.
  - rewrite Z.div_add by lia. rewrite Z.div_small by lia. done.
  - replace ((T * 2 ^ 8 + d * 2 ^ 13 + 2 ^ 15 + h * 2 ^ 16) / 2 ^ 16) with h by (apply (Z.div_unique_pos _ _ _ (T * 2 ^ 8 + d * 2 ^ 13 + 2 ^ 15)); lia).
    rewrite Z.mod_add by lia. rewrite Z.mod_small by lia. lia.
Qed.

(** ** Placing the entry points *)

Fixpoint mode_after (md : bool) (l : list item) : bool :=
  match l with [] => md | Code16 :: l' => mode_after false l' | Code32 :: l' => mode_after true l' | _ :: l' => mode_after md l' end.
Lemma placed_app sym at_ m md a l1 l2 : placed sym at_ m md a (l1 ++ l2) →
  placed sym at_ m md a l1 ∧ ∃ a', placed sym at_ m (mode_after md l1) a' l2.
Proof.
  revert md a. induction l1 as [|x l1 IH]; intros md a; [cbn; eauto|]. destruct x; cbn [placed app mode_after].
  - intros [? H%IH]. naive_solver.
  - intros (n & ? & H%IH). naive_solver.
  - intros (n & ? & H%IH). naive_solver.
  - intros [? H%IH]. naive_solver.
  - intros H%IH. naive_solver.
  - intros H%IH. naive_solver.
  - intros H%IH. naive_solver.
Qed.
(** One of several pieces of source, each with a label of its own. *)
Lemma bind_placed {A} (f : A → list item) (name : A → string) sym at_ m a l i :
  (∀ x, mode_after true (f x) = true) → (∀ x, ∃ l', f x = Lbl (name x) :: l') →
  placed sym at_ m true a (l ≫= f) → i ∈ l → placed sym at_ m true (sym (name i)) (f i).
Proof.
  intros Hm Hf. revert a. induction l as [|x l IH]; intros a; [intros _ []%elem_of_nil|]. rewrite bind_cons, elem_of_cons. intros H%placed_app Hi.
  rewrite Hm in H. destruct H as [H1 [a' H2]]. destruct Hi as [->|Hi]; [|eauto]. pose proof H1 as H3. destruct (Hf x) as [l' E]. rewrite E in H3. destruct H3 as [E3 _]. by rewrite E3.
Qed.
Lemma vector_placed sym at_ m a l i : placed sym at_ m true a (l ≫= vector sym) → i ∈ l → placed sym at_ m true (sym (vector_name i)) (vector sym i).
Proof. apply (bind_placed (vector sym) vector_name); intros x; unfold vector; [by destruct (no_errcode _)|eauto]. Qed.

Lemma jump_rel x t : u32 (u32 x + (t - x)) = u32 t.
Proof. unfold u32. rewrite Z.add_mod_idemp_l by lia. f_equal. lia. Qed.
Lemma ktext_range code a r : ktext code a = Some r → kva a 1.
Proof. unfold ktext, kva. destruct (Z.leb_spec KERNBASE a), (Z.ltb_spec a (KERNBASE + PHYSTOP)); try done. lia. Qed.

Lemma seg_of_low ws v : seg_of ws v = seg_of ws (v mod 2 ^ 16).
Proof. unfold seg_of. by rewrite Z.mod_mod by lia. Qed.
Lemma low_16 a v : 0 ≤ v < 2 ^ 16 → (a - a mod 2 ^ 16 + v) mod 2 ^ 16 = v.
Proof.
  intros Hv. pose proof (Z.div_mod a (2 ^ 16) ltac:(lia)). replace (a - a mod 2 ^ 16 + v) with (v + a / 2 ^ 16 * 2 ^ 16) by lia.
  rewrite Z.mod_add by lia. by apply Z.mod_small.
Qed.

(** Steps on a stack given by the pushes. *)
Ltac lnorm := xcbn; rewrite <- ?app_assoc; cbn [app].
Ltac lside := first [done | eassumption | match goal with H : _ |- _ => apply H; cbn [length]; lia end | rewrite ?length_app; cbn [length]; lia].
Ltac lstep T := lazymatch goal with _ : kspace ?W _ _ |- _ => erewrite (step_k W) by (first [exact T | lside]) end; cbn [execute gets_ x_segs].
Ltac lpush n := lazymatch goal with _ : kspace ?W _ _ |- _ => erewrite (push_on W n) by lside end; lnorm.
Ltac lpush_sel n := lazymatch goal with _ : kspace ?W _ _ |- _ => erewrite (push_sel_on W n) by lside end; lnorm.

Definition kds : seg := mk_seg 16 0 true.
Definition kcs : seg := mk_seg 8 0 true.

Section traps.
Context {HW : Hw} {CP : Cpu} (W : Z → Prop) (code : text) (sym : string → Z).

Hypothesis alltraps_at : placed sym (ktext code) (fun _ => 0) true (sym "alltraps"%string) (alltraps_S sym ++ trapret_S).

(** What alltraps adds to the stack before it calls trap(). *)
Definition saved_regs (t : regs) (g : segs) (sp ret : Z) : list pushed :=
  [PS (sel (ds g)); PS (sel (es g)); PS (sel (fs g)); PS (sel (gs g));
   PW (eax t); PW (ecx t); PW (edx t); PW (ebx t); PW (sp - 16); PW (ebp t); PW (esi t); PW (edi t);
   PW (sp - 48); PW ret].

(** The instruction after the call of trap(). *)
Definition after_trap (a : Z) : Prop := ∃ n, ktext code a = Some (true, ADDL 4 ESP, n) ∧ u32 (a + n) = sym "trapret"%string.

Lemma alltraps_run n e L ws t g f c gd id tr m p : kspace W c m → kflat g → table W m gd ws → seg_of ws 16 = Some kds →
  writable W (e - n) n → 4 * Z.of_nat (length L) + 56 ≤ n → esp t = below e L →
  ∃ ret, after_trap ret ∧
  steps code 10 (mk_xst t g (sym "alltraps"%string) f c gd id tr (pushes e L m) p) =
  Some (mk_xst (t <| eax := eax t - eax t mod 2 ^ 16 + 16 |> <| esp := below e L - 56 |>) (g <| ds := kds |> <| es := kds |>) (u32 (sym "trap"%string)) f c gd id tr
    (pushes e (L ++ saved_regs t g (below e L) ret) m) p).
Proof.
  intros Hs Hg Hgd Hk Hw Hn He.
  cbn in alltraps_at. destruct alltraps_at as (_ & n1 & T1 & n2 & T2 & n3 & T3 & n4 & T4 & n5 & T5 & n6 & T6 & n7 & T7 & n8 & T8 & n9 & T9 & n10 & T10 & n11 & T11 & Ht & _).
  eexists. split; [exists n11; split; [exact T11|by rewrite Ht]|].
  assert (∀ L', (length L' ≤ 14)%nat → kspace W c (pushes e (L ++ L') m)) as Hsp.
  { intros L' HL. eapply kspace_agree; [done|]. eapply pushes_agree; [done|]. rewrite length_app. lia. }
  cbn [steps]. destruct t as [a0 c0 d0 b0 e0 bp0 si0 di0]. cbn [esp] in He. subst e0.
  rewrite <- (app_nil_r L) at 2. assert (esp (mk_regs a0 c0 d0 b0 (below e L) bp0 si0 di0) = below e (L ++ [])) as He by (by rewrite app_nil_r).
  lstep T1. lpush_sel n. lstep T2. lpush_sel n. lstep T3. lpush_sel n. lstep T4. lpush_sel n. lstep T5. unfold pushal. xcbn. do 8 lpush n.
  assert (seg_of ws (a0 - a0 mod 2 ^ 16 + 16) = Some kds) as Hv by (rewrite seg_of_low, low_16; [done|lia]).
  assert (∀ x y, kflat (mk_segs (cs g) x y (fs g) (gs g) (ss g))) as Hg' by (intros; by destruct Hg).
  lstep T6. xcbn. lstep T7. erewrite (ld_seg_k W) by (first [exact Hv | by apply Hsp; cbn; lia | eapply table_agree; [done|]; cbn; eapply pushes_agree; [done|rewrite length_app; cbn [length]; lia]]). xcbn.
  lstep T8. erewrite (ld_seg_k W) by (first [exact Hv | by apply Hsp; cbn; lia | eapply table_agree; [done|]; cbn; eapply pushes_agree; [done|rewrite length_app; cbn [length]; lia]]). xcbn.
  lstep T9. xcbn. lpush n. lstep T10. lpush n.
  rewrite jump_rel, !below_app. done.
Qed.

(** *** Leaving *)

Lemma seg_of_load ws m a : seg_of ws (load32 m a) = seg_of ws (load16 m a).
Proof. by rewrite seg_of_low, load32_low, <- seg_of_low. Qed.
Lemma land_load m a : Z.land (load32 m a) 3 = Z.land (load16 m a) 3.
Proof.
  change 3 with (Z.ones 2). rewrite !Z.land_ones by lia. pose proof (load32_low m a) as H. change (2 ^ 16) with (2 ^ 2 * 2 ^ 14) in H.
  rewrite !Z.rem_mul_r in H by lia. pose proof (Z.mod_pos_bound (load32 m a) (2 ^ 2) ltac:(lia)). pose proof (Z.mod_pos_bound (load16 m a) (2 ^ 2) ltac:(lia)).
  pose proof (Z.mod_pos_bound (load32 m a / 2 ^ 2) (2 ^ 14) ltac:(lia)). pose proof (Z.mod_pos_bound (load16 m a / 2 ^ 2) (2 ^ 14) ltac:(lia)). lia.
Qed.

(** The segments that a frame names. *)
Record frame_segs (ws : list (Z * Z)) (F : trapframe) (gg ff ee dd cc : seg) : Prop := {
  fg_gs : seg_of ws (t_gs F) = Some gg; fg_fs : seg_of ws (t_fs F) = Some ff; fg_es : seg_of ws (t_es F) = Some ee;
  fg_ds : seg_of ws (t_ds F) = Some dd; fg_cs : seg_of ws (t_cs F) = Some cc }.
Definition frame_regs (F : trapframe) (sp : Z) : regs :=
  mk_regs (t_eax F) (t_ecx F) (t_edx F) (t_ebx F) sp (t_ebp F) (t_esi F) (t_edi F).

Lemma trapret_at : placed sym (ktext code) (fun _ => 0) true (sym "trapret"%string) trapret_S.
Proof. destruct (placed_app _ _ _ _ _ _ _ alltraps_at) as (_ & a & H). cbn [mode_after alltraps_S] in H. pose proof H as [E _]. by rewrite E. Qed.

Lemma trapret_run ws t g f c gd id tr m p gg ff ee dd cc : let a := esp t in let F := frame_in m a in
  kspace W c m → kflat g → table W m gd ws → kva a 76 → frame_segs ws F gg ff ee dd cc →
  ∃ s1 f' ip, s1 = mk_xst (frame_regs F (a + 56)) (mk_segs (cs g) dd ee ff gg (ss g)) ip f' c gd id tr m p ∧
    steps code 7 (mk_xst t g (sym "trapret"%string) f c gd id tr m p) = iret s1.
Proof.
  intros a0 F Hs Hg Hgd Ha [G1 G2 G3 G4 _]. destruct t as [ax cx dx bx a bp si di]. cbn [esp] in *. subst a0.
  pose proof trapret_at as T0. cbn in T0. destruct T0 as (_ & n12 & T12 & n13 & T13 & n14 & T14 & n15 & T15 & n16 & T16 & n17 & T17 & n18 & T18 & _).
  assert (∀ x y z w, kflat (mk_segs (cs g) x y z w (ss g))) as Hg' by (intros; by destruct Hg).
  eexists _, _, _. split; [reflexivity|].
  { cbn [steps]. kstep T12. unfold popal, pop_reg. kpop (a + 4). kpop (a + 8). kpop (a + 12). rewrite (add_sp_k _ 4 4) by kside. xcbn. replace (a + 12 + 4) with (a + 16) by lia.
    kpop (a + 20). kpop (a + 24). kpop (a + 28). kpop (a + 32).
    kstep T13. unfold pop_seg. kpop (a + 36). erewrite (ld_seg_k W) by (first [rewrite seg_of_load; exact G1 | done]). xcbn.
    kstep T14. unfold pop_seg. kpop (a + 40). erewrite (ld_seg_k W) by (first [rewrite seg_of_load; exact G2 | done]). xcbn.
    kstep T15. unfold pop_seg. kpop (a + 44). erewrite (ld_seg_k W) by (first [rewrite seg_of_load; exact G3 | done]). xcbn.
    kstep T16. unfold pop_seg. kpop (a + 48). erewrite (ld_seg_k W) by (first [rewrite seg_of_load; exact G4 | done]). xcbn.
    kstep T17. xcbn. replace (u32 (a + 48 + u32 8)) with (a + 56); [|change (u32 8) with 8; rewrite (kva_u32 _ 1); kaddr].
    kstep T18. match goal with |- iret ?x ≫= _ = _ => transitivity (iret x); [by destruct (iret x)|] end.
    unfold frame_regs, F. rewrite frame_in_at. reflexivity. }
Qed.

(** The last step, to user code with a stack of its own or back to the kernel. *)
Lemma iret_user ws t g ip f c gd id tr m p cc hh a : let F := frame_in m a in
  kspace W c m → kflat g → table W m gd ws → kva a 76 → esp t = a + 56 → seg_of ws (t_cs F) = Some cc → seg_of ws (t_ss F) = Some hh → Z.land (t_cs F) 3 = 3 →
  iret (mk_xst t g ip f c gd id tr m p) =
  Some (mk_xst (t <| esp := t_esp F |>) (g <| cs := cc |> <| ss := hh |>) (t_eip F) (t_eflags F) c gd id tr m p).
Proof.
  intros F Hs Hg Hgd Ha He Hc Hh Hl. destruct t as [ax cx dx bx sp bp si di]. cbn [esp] in He. subst sp. unfold iret.
  kpop (a + 60). kpop (a + 64). kpop (a + 68). erewrite (ld_seg_k W) by (first [rewrite seg_of_load; exact Hc | done]). cbn [mbind option_bind].
  rewrite land_load. change (load16 m (a + 60 - KERNBASE)) with (t_cs F). rewrite Hl. destruct (not_user (mk_xst (mk_regs ax cx dx bx (a + 56) bp si di) g ip f c gd id tr m p) (ks_pe _ _ _ Hs) Hg) as [_ ->].
  change (0 <? 3) with true. cbn iota. kpop (a + 72). kpop (a + 76). erewrite (ld_seg_k W) by (first [rewrite seg_of_load; exact Hh | done]). xcbn. done.
Qed.
Lemma iret_kernel ws t g ip f c gd id tr m p cc a : let F := frame_in m a in
  kspace W c m → kflat g → table W m gd ws → kva a 68 → esp t = a + 56 → seg_of ws (t_cs F) = Some cc → Z.land (t_cs F) 3 = 0 →
  iret (mk_xst t g ip f c gd id tr m p) =
  Some (mk_xst (t <| esp := a + 68 |>) (g <| cs := cc |>) (t_eip F) (t_eflags F) c gd id tr m p).
Proof.
  intros F Hs Hg Hgd Ha He Hc Hl. destruct t as [ax cx dx bx sp bp si di]. cbn [esp] in He. subst sp. unfold iret.
  kpop (a + 60). kpop (a + 64). kpop (a + 68). erewrite (ld_seg_k W) by (first [rewrite seg_of_load; exact Hc | done]). cbn [mbind option_bind].
  rewrite land_load. change (load16 m (a + 60 - KERNBASE)) with (t_cs F). rewrite Hl. destruct (not_user (mk_xst (mk_regs ax cx dx bx (a + 56) bp si di) g ip f c gd id tr m p) (ks_pe _ _ _ Hs) Hg) as [_ ->].
  done.
Qed.

(** *** Entering *)

(** The segments that seginit() sets up. *)
Definition flat_gdt (G : list segdesc) : Prop :=
  G !! SEG_KCODE = Some (SEG (Z.lor STA_X STA_R) 0 0xffffffff 0) ∧ G !! SEG_KDATA = Some (SEG STA_W 0 0xffffffff 0) ∧
  G !! SEG_UCODE = Some (SEG (Z.lor STA_X STA_R) 0 0xffffffff DPL_USER) ∧ G !! SEG_UDATA = Some (SEG STA_W 0 0xffffffff DPL_USER).

(** The table with the descriptor of the task state marked busy, which LTR does. *)
Definition busy_tss (G : list segdesc) : list segdesc := alter (fun d => d <| seg_type := Z.lor (seg_type d) 2 |>) SEG_TSS G.

(** The tables of the processor are in kernel memory and stay as they are. *)
Record ktables (s : xst) (G : list segdesc) (I : list gatedesc) (T : taskstate) : Prop := {
  kt_gdt : table W (x_mem s) (x_gdtr s) (segdesc_words <$> G);
  kt_flat : flat_gdt G;
  kt_idt : table W (x_mem s) (x_idtr s) (gatedesc_words <$> I);
  kt_tr : kva (x_tr s) (size_of taskstate_layout);
  kt_fixed : ∀ x, x_tr s ≤ x < x_tr s + size_of taskstate_layout → ¬ W (x - KERNBASE);
  kt_tss : tss_in (x_mem s) (x_tr s) T }.

Lemma ktables_agree s s' G I T : ktables s G I T → agree W (x_mem s) (x_mem s') → x_gdtr s' = x_gdtr s → x_idtr s' = x_idtr s → x_tr s' = x_tr s → ktables s' G I T.
Proof.
  intros [K1 K2 K3 K4 K5 [K6 K7]] Ha E1 E2 E3. split; rewrite ?E1, ?E2, ?E3; [by eapply table_agree|done|by eapply table_agree|done|done|]. change (size_of taskstate_layout) with 104 in *.
  assert (∀ p, x_tr s - KERNBASE ≤ p < x_tr s - KERNBASE + 104 → x_mem s' p = x_mem s p) as Hp by (intros p Hp; apply Ha; replace p with (p + KERNBASE - KERNBASE) by lia; apply K5; lia).
  split; [rewrite <- K6; apply load32_ext|rewrite <- K7; apply load16_ext]; intros p H; apply Hp; cbn in H; lia.
Qed.

Lemma flat_seg G v d : flat_gdt G → seg_of (segdesc_words <$> [null_segdesc; SEG (Z.lor STA_X STA_R) 0 0xffffffff 0; SEG STA_W 0 0xffffffff 0;
   SEG (Z.lor STA_X STA_R) 0 0xffffffff DPL_USER; SEG STA_W 0 0xffffffff DPL_USER]) v = Some d → (4 ≤ v mod 2 ^ 16 → 0 < Z.shiftr (v mod 2 ^ 16) 3) →
  seg_of (segdesc_words <$> G) v = Some d.
Proof.
  unfold flat_gdt, SEG_KCODE, SEG_KDATA, SEG_UCODE, SEG_UDATA. intros (G1 & G2 & G3 & G4) Hs Hv. unfold seg_of in *. destruct (Z.ltb_spec (v mod 2 ^ 16) 4); [done|]. specialize (Hv ltac:(lia)). destruct (Z.testbit _ 2); [done|].
  rewrite list_lookup_fmap in *. set (k := Z.to_nat _) in *. assert (k ≠ 0%nat) by (unfold k; lia). clearbody k.
  destruct k as [|[|[|[|[|k]]]]]; [done| | | | |done]; cbn [lookup list_lookup] in Hs; (rewrite G1 || rewrite G2 || rewrite G3 || rewrite G4); done.
Qed.

(** What the processor pushes: on the way from user code also the stack. *)
Definition hw_frame (t : regs) (g : segs) (f ip : Z) (err : option Z) : list pushed :=
  [PW f; PS (sel (cs g)); PW ip] ++ match err with Some e => [PW e] | None => [] end.
Definition flags_in (istrap : bool) (f : Z) : Z :=
  let f1 := Z.ldiff f NT_TF_RF_VM in if istrap then f1 else Z.ldiff f1 FL_IF.

Lemma enter_tail k e L0 fl v ip0 err off f' t g ip f c gd id tr m p : kspace W c m → kflat g → writable W (e - k) k → 4 * Z.of_nat (length L0) + 16 ≤ k → esp t = below e L0 →
  (s2 ← push fl (mk_xst t g ip f c gd id tr (pushes e L0 m) p); s3 ← push_sel v s2; s4 ← push ip0 s3; Some (s4 <| x_eip := off |> <| x_flags := f' |>))
    ≫= (fun s' => match err with Some e0 => push e0 s' | None => Some s' end) =
  let L := L0 ++ [PW fl; PS v; PW ip0] ++ match err with Some e => [PW e] | None => [] end in
  Some (mk_xst (t <| esp := below e L |>) g off f' c gd id tr (pushes e L m) p).
Proof.
  intros Hs Hg Hw Hk He. rewrite <- (app_nil_r L0) in He. rewrite <- (app_nil_r L0) at 1. lpush k. lpush_sel k. lpush k. destruct err; [lpush k|]; done.
Qed.

Lemma interrupt_user n soft err istrap off dpl t g ip f c gd id tr m p G I T k : let s := mk_xst t g ip f c gd id tr m p in let e := esp0 T in
  let L := [PS (sel (ss g)); PW (esp t)] ++ hw_frame t g f ip err in
  kspace W c m → ktables s G I T → ss0 T = 16 → I !! n = Some (SETGATE istrap 8 off dpl) → 0 ≤ off < 2 ^ 32 → 0 ≤ dpl < 4 →
  (soft = true → dpl = 3) → cpl s = 3 → writable W (e - k) k → 24 ≤ k →
  interrupt (Z.of_nat n) soft err s =
  Some (mk_xst (t <| esp := below e L |>) (g <| cs := kcs |> <| ss := kds |>) off (flags_in istrap f) c gd id tr (pushes e L m) p).
Proof.
  intros s e L Hs [K1 K2 K3 K4 _ [K5 K6]] Hss Hn Ho Hd Hsoft Hc Hw Hk.
  destruct (gate_decodes istrap 8 off dpl ltac:(lia) Ho Hd) as (D1 & D2 & D3 & D4 & D5). set (w := gatedesc_words _) in *.
  unfold interrupt. rewrite (ld_desc_k W s _ _ n w Hs K3) by (rewrite list_lookup_fmap, Hn; done). cbn [mbind option_bind].
  rewrite D1, D2, D3, Hc. cbn [negb].
  assert ((if istrap then STS_TG32 else STS_IG32) =? STS_IG32 = negb istrap) as E1 by by destruct istrap.
  assert (negb (((if istrap then STS_TG32 else STS_IG32) =? STS_IG32) || ((if istrap then STS_TG32 else STS_IG32) =? STS_TG32)) = false) as -> by by destruct istrap.
  replace (soft && (dpl <? 3)) with false by (destruct soft; [rewrite Hsoft by done|]; done). cbn iota.
  unfold enter_gate. rewrite D4. change (8 * Z.shiftr 8 3) with (8 * Z.of_nat SEG_KCODE). pose proof K2 as (F1 & F2 & _).
  rewrite (ld_desc_k W s _ _ SEG_KCODE _ Hs K1) by (rewrite list_lookup_fmap, F1; reflexivity). cbn [mbind option_bind]. 
  change (desc_present _) with true. change (desc_dpl _) with 0. rewrite Hc. change (0 <? 3) with true. cbn [negb].
  change (mk_seg _ _ _) with kcs. rewrite (ld32_k W), (ld16_k W) by (done || (change (size_of taskstate_layout) with 104 in K4; cbn [s x_tr] in *; kaddr)). cbn [mbind option_bind].
  change (x_mem s) with m in *. change (x_tr s) with tr in *. change (offset_of taskstate_layout "esp0") with 4 in K5. change (offset_of taskstate_layout "ss0") with 8 in K6. rewrite K5, K6, Hss. fold e.
  erewrite (ld_seg_k W) by (first [apply (flat_seg G); [done|reflexivity|done] | done]). cbn [mbind option_bind].
  assert (kflat (g <| cs := kcs |> <| ss := kds |>)) as Hg by done.
  unfold s. xcbn. change m with (pushes e [] m) at 1. erewrite (push_sel_on W k e []) by (first [done | cbn [length]; lia | by cbn; unfold below; cbn; lia]). lnorm. lpush k.
  rewrite D2, E1, D5. assert ((if negb istrap then Z.ldiff (Z.ldiff f NT_TF_RF_VM) FL_IF else Z.ldiff f NT_TF_RF_VM) = flags_in istrap f) as -> by by destruct istrap.
  apply (enter_tail k); cbn [length]; try done; lia.
Qed.

Lemma interrupt_kernel n err istrap off dpl t g ip f c gd id tr m p G I T k : let s := mk_xst t g ip f c gd id tr m p in let e := esp t in
  let L := hw_frame t g f ip err in
  kspace W c m → kflat g → ktables s G I T → I !! n = Some (SETGATE istrap 8 off dpl) → 0 ≤ off < 2 ^ 32 → 0 ≤ dpl < 4 →
  writable W (e - k) k → 16 ≤ k →
  interrupt (Z.of_nat n) false err s =
  Some (mk_xst (t <| esp := below e L |>) (g <| cs := kcs |>) off (flags_in istrap f) c gd id tr (pushes e L m) p).
Proof.
  intros s e L Hs Hf [K1 K2 K3 _ _ _] Hn Ho Hd Hw Hk. destruct (not_user s (ks_pe _ _ _ Hs) Hf) as [_ Hc].
  destruct (gate_decodes istrap 8 off dpl ltac:(lia) Ho Hd) as (D1 & D2 & D3 & D4 & D5). set (w := gatedesc_words _) in *.
  unfold interrupt. rewrite (ld_desc_k W s _ _ n w Hs K3) by (rewrite list_lookup_fmap, Hn; done). cbn [mbind option_bind].
  rewrite D1, D2. cbn [negb andb].
  assert ((if istrap then STS_TG32 else STS_IG32) =? STS_IG32 = negb istrap) as E1 by by destruct istrap.
  assert (negb (((if istrap then STS_TG32 else STS_IG32) =? STS_IG32) || ((if istrap then STS_TG32 else STS_IG32) =? STS_TG32)) = false) as -> by by destruct istrap.
  unfold enter_gate. rewrite D4. change (8 * Z.shiftr 8 3) with (8 * Z.of_nat SEG_KCODE). pose proof K2 as (F1 & F2 & _).
  rewrite (ld_desc_k W s _ _ SEG_KCODE _ Hs K1) by (rewrite list_lookup_fmap, F1; reflexivity). cbn [mbind option_bind].
  change (desc_present _) with true. change (desc_dpl _) with 0. rewrite Hc. change (0 <? 0) with false. cbn [negb].
  change (mk_seg _ _ _) with kcs. unfold s. xcbn. rewrite D2, E1, D5.
  assert ((if negb istrap then Z.ldiff (Z.ldiff f NT_TF_RF_VM) FL_IF else Z.ldiff f NT_TF_RF_VM) = flags_in istrap f) as -> by by destruct istrap.
  change m with (pushes e [] m) at 1. apply (enter_tail k e []); first [done | by destruct Hf | unfold below; cbn [length]; lia].
Qed.

(** The entry point of a vector. *)
Hypothesis vectors_at : ∃ a, placed sym (ktext code) (fun _ => 0) true a (vectors_S sym).

Definition numbered (i : nat) : list pushed := (if no_errcode (Z.of_nat i) then [PW 0] else []) ++ [PW (Z.of_nat i)].

Lemma vector_run i k e L t g f c gd id tr m p : (i < 256)%nat → kspace W c m → kflat g → writable W (e - k) k → 4 * Z.of_nat (length L) + 8 ≤ k → esp t = below e L →
  ∃ n, steps code n (mk_xst t g (sym (vector_name i)) f c gd id tr (pushes e L m) p) =
  Some (mk_xst (t <| esp := below e (L ++ numbered i) |>) g (sym "alltraps"%string) f c gd id tr (pushes e (L ++ numbered i) m) p).
Proof.
  intros Hi Hs Hg Hw Hk He. destruct vectors_at as [a Hv]. apply (vector_placed _ _ _ _ _ i) in Hv; [|apply elem_of_seq; lia].
  assert (∀ L', (length L' ≤ 2)%nat → kspace W c (pushes e (L ++ L') m)) as Hsp.
  { intros L' HL. eapply kspace_agree; [done|]. eapply pushes_agree; [done|]. rewrite length_app. lia. }
  assert (u32 (sym "alltraps"%string) = sym "alltraps"%string) as Ea.
  { cbn in alltraps_at. destruct alltraps_at as (_ & n1 & T1 & _). apply ktext_range in T1. by apply (kva_u32 _ 1). }
  assert (u32 (Z.of_nat i) = Z.of_nat i) as Ei by (apply Z.mod_small; lia).
  rewrite <- (app_nil_r L) in He. unfold vector, numbered in *. destruct (no_errcode (Z.of_nat i)); cbn in Hv.
  - destruct Hv as (_ & n1 & T1 & n2 & T2 & n3 & T3 & _). exists 3%nat. cbn [steps]. rewrite <- (app_nil_r L) at 1. lstep T1. xcbn. change (u32 0) with 0. lpush k. lstep T2. xcbn. rewrite Ei. lpush k. lstep T3. xcbn.
    by rewrite jump_rel, Ea.
  - destruct Hv as (_ & n1 & T1 & n2 & T2 & _). exists 2%nat. cbn [steps]. rewrite <- (app_nil_r L) at 1. lstep T1. xcbn. rewrite Ei. lpush k. lstep T2. xcbn. by rewrite jump_rel, Ea.
Qed.
End traps.

(** ** What tvinit() and switchuvm() set up *)

Lemma tvinit_gates {FU : Fuel} {HW : Hw} {DK : Disk} {LK : Link} sym (k k' : kstate) (n : nat) : vectors = vectors_table sym → tvinit k = Ret tt k' → (n < 256)%nat →
  idt (dev (res k')) !! n = Some (SETGATE (n =? 64)%nat 8 (sym (vector_name n)) (if (n =? 64)%nat then 3 else 0)).
Proof.
  intros Hv E Hn. unfold tvinit in E. rewrite Hv in E.
  assert (∀ i, (i < 256)%nat → vectors_table sym !! i = Some (sym (vector_name i))) as Ht.
  { intros i Hi. unfold vectors_table. rewrite list_lookup_fmap, lookup_seq_lt by done. done. }
  assert (take 256 (vectors_table sym) = vectors_table sym) as Et by (apply take_ge; unfold vectors_table; by rewrite length_fmap, length_seq). rewrite Et in E. clear Et.
  assert (length (vectors_table sym) = 256%nat) as Hl by (unfold vectors_table; by rewrite length_fmap, length_seq).
  change (Z.to_nat T_SYSCALL) with 64%nat in E. unfold try_get, bind in E. rewrite (Ht 64%nat ltac:(lia)) in E. clear Hv. set (V := vectors_table sym) in *. clearbody V.
  set (v64 := sym (vector_name 64)) in E. injection E as <-. cbn [res dev idt].
  destruct (Nat.eqb_spec n 64) as [->|Hne].
  - rewrite list_lookup_insert_eq; [done|]. rewrite length_map. lia.
  - rewrite list_lookup_insert_ne by done. change @map with @list_fmap. rewrite list_lookup_fmap, Ht by done. done.
Qed.

(** User code: its registers are words, its selectors 16 bits. *)
Record user_state (u : xst) : Prop := {
  us_cpl : cpl u = 3;
  us_regs : ∀ r, 0 ≤ getr r (x_regs u) < 2 ^ 32;
  us_sels : ∀ r, 0 ≤ sel (gets_ r (x_segs u)) < 2 ^ 16;
  us_eip : 0 ≤ x_eip u < 2 ^ 32;
  us_flags : 0 ≤ x_flags u < 2 ^ 32 }.

(** The frame for the interrupt [n] of user code. *)
Definition user_frame (u : xst) (n err oesp : Z) : trapframe :=
  let t := x_regs u in let g := x_segs u in
  mk_trapframe (edi t) (esi t) (ebp t) oesp (ebx t) (edx t) (ecx t) (eax t)
    (sel (gs g)) (sel (fs g)) (sel (es g)) (sel (ds g)) n err (x_eip u) (sel (cs g)) (x_flags u) (esp t) (sel (ss g)).

Section roundtrip.
Context {HW : Hw} {CP : Cpu} (W : Z → Prop) (code : text) (sym : string → Z).
Hypothesis alltraps_at : placed sym (ktext code) (fun _ => 0) true (sym "alltraps"%string) (alltraps_S sym ++ trapret_S).
Hypothesis vectors_at : ∃ a, placed sym (ktext code) (fun _ => 0) true a (vectors_S sym).

(** The whole stack of a trap from user code. *)
Definition trap_stack (u : xst) (n : nat) (err ret top : Z) : list pushed :=
  [PS (sel (ss (x_segs u))); PW (esp (x_regs u)); PW (x_flags u); PS (sel (cs (x_segs u))); PW (x_eip u); PW err; PW (Z.of_nat n)] ++
  saved_regs (x_regs u) (x_segs u) (top - 28) ret.

(** The word or the selector number [i] of a stack. *)
Ltac frame_word H i tac := match goal with |- load32 _ ?a = _ => match a with context [?top - 76] => replace a with (top - 4 * Z.of_nat (S i) - KERNBASE) by lia end end; apply H; [reflexivity|tac].
Ltac frame_half H i r := match goal with |- load16 _ ?a = _ => match a with context [?top - 76] => replace a with (top - 4 * Z.of_nat (S i) - KERNBASE) by lia end end; apply (H i r); reflexivity.

Lemma trap_stack_frame u n err ret top m : user_state u → (n < 256)%nat → 0 ≤ err < 2 ^ 32 → kva (top - 84) 84 →
  let m' := pushes top (trap_stack u n err ret top) m in
  frame_in m' (top - 76) = user_frame u (Z.of_nat n) err (top - 44) ∧ load32 m' (top - 80 - KERNBASE) = top - 76 ∧ load32 m' (top - 84 - KERNBASE) = u32 ret.
Proof.
  intros [_ U2 U3 U4 U5] Hn He Hk m'. set (L := trap_stack u n err ret top) in *.
  assert (∀ i v, L !! i = Some (PW v) → 0 ≤ v < 2 ^ 32 → load32 m' (top - 4 * Z.of_nat (S i) - KERNBASE) = v) as Hw.
  { intros i v Hi Hv. unfold m'. rewrite (pushes_word _ _ _ _ _ Hi). by apply Z.mod_small. }
  assert (∀ i r, L !! i = Some (PS (sel (gets_ r (x_segs u)))) → load16 m' (top - 4 * Z.of_nat (S i) - KERNBASE) = sel (gets_ r (x_segs u))) as Hh.
  { intros i r Hi. unfold m'. apply (pushes_sel _ _ _ _ _ Hi), U3. }
  assert (0 ≤ top - 84 ∧ top ≤ 2 ^ 32) by (unfold kva, KERNBASE, PHYSTOP in *; lia). split; [|split].
  - rewrite frame_in_at. unfold user_frame. cbv zeta. f_equal.
    1: frame_word Hw 18%nat ltac:(first [apply (U2 EDI) | lia]). 1: frame_word Hw 17%nat ltac:(first [apply (U2 ESI) | lia]). 1: frame_word Hw 16%nat ltac:(first [apply (U2 EBP) | lia]). 1: transitivity (top - 28 - 16); [frame_word Hw 15%nat ltac:(lia)|lia]. 1: frame_word Hw 14%nat ltac:(first [apply (U2 EBX) | lia]). 1: frame_word Hw 13%nat ltac:(first [apply (U2 EDX) | lia]). 1: frame_word Hw 12%nat ltac:(first [apply (U2 ECX) | lia]). 1: frame_word Hw 11%nat ltac:(first [apply (U2 EAX) | lia]).
    1: frame_half Hh 10%nat GS. 1: frame_half Hh 9%nat FS. 1: frame_half Hh 8%nat ES. 1: frame_half Hh 7%nat DS. 1: frame_word Hw 6%nat ltac:(first [apply (U2 EAX) | lia]). 1: frame_word Hw 5%nat ltac:(first [apply (U2 EAX) | lia]). 1: frame_word Hw 4%nat ltac:(first [apply (U2 EAX) | lia]). 1: frame_half Hh 3%nat CS.
    1: frame_word Hw 2%nat ltac:(first [apply (U2 EAX) | lia]). 1: frame_word Hw 1%nat ltac:(first [apply (U2 ESP) | lia]). frame_half Hh 0%nat SS.
  - transitivity (top - 28 - 48); [|lia]. replace (top - 80) with (top - 4 * Z.of_nat 20) by lia. apply Hw; [reflexivity|lia].
  - replace (top - 84) with (top - 4 * Z.of_nat 21) by lia. by apply pushes_word.
Qed.

(** The gates that tvinit() makes. *)
Definition tv_gates (I : list gatedesc) : Prop := ∀ n : nat, (n < 256)%nat →
  I !! n = Some (SETGATE (n =? 64)%nat 8 (sym (vector_name n)) (if (n =? 64)%nat then 3 else 0)).

(** An error code comes with the vectors for which vectors.pl pushes none. *)
Definition err_ok (n : nat) (err : option Z) : Prop :=
  if no_errcode (Z.of_nat n) then err = None else ∃ v, err = Some v ∧ 0 ≤ v < 2 ^ 32.

Lemma vector_range n : (n < 256)%nat → 0 ≤ sym (vector_name n) < 2 ^ 32.
Proof.
  intros Hn. destruct vectors_at as [a H]. apply (vector_placed _ _ _ _ _ n) in H; [|apply elem_of_seq; lia].
  assert (∃ r, ktext code (sym (vector_name n)) = Some r) as [r Hr]. { unfold vector in H. destruct (no_errcode _); cbn in H; destruct H as (_ & n1 & -> & _); eauto. }
  apply ktext_range in Hr. unfold kva, KERNBASE, PHYSTOP in Hr. lia.
Qed.

Lemma trap_entry u n soft err G I T ks : let top := ks + KSTACKSIZE in
  user_state u → kspace W (x_ctl u) (x_mem u) → ktables W u G I T → ss0 T = 16 → esp0 T = top → tv_gates I → writable W ks KSTACKSIZE →
  (n < 256)%nat → (soft = true → n = 64%nat) → err_ok n err →
  ∃ k ret, after_trap code sym ret ∧ interrupt (Z.of_nat n) soft err u ≫= steps code k =
    Some (mk_xst ((x_regs u) <| eax := eax (x_regs u) - eax (x_regs u) mod 2 ^ 16 + 16 |> <| esp := top - 84 |>)
      (mk_segs kcs kds kds (fs (x_segs u)) (gs (x_segs u)) kds) (u32 (sym "trap"%string)) (flags_in (n =? 64)%nat (x_flags u)) (x_ctl u)
      (x_gdtr u) (x_idtr u) (x_tr u) (pushes top (trap_stack u n (default 0 err) ret top) (x_mem u)) (x_ports u)).
Proof.
  intros top U Hs Ht Hss He Hv Hw Hn Hsoft Herr. destruct u as [t g ip f c gd id tr m p]. cbn [x_ctl x_mem x_regs x_segs x_flags x_gdtr x_idtr x_tr x_ports] in *.
  assert (writable W (top - 4096) 4096) as Hw' by (replace (top - 4096) with ks by (unfold top, KSTACKSIZE; lia); done).
  rewrite (interrupt_user W n soft err (n =? 64)%nat (sym (vector_name n)) (if (n =? 64)%nat then 3 else 0) t g ip f c gd id tr m p G I T 4096); first last.
  1: lia. 1: by rewrite He. 1: apply (us_cpl _ U). 1: { intros E. by rewrite (Hsoft E). } 1: { destruct (_ =? _)%nat; lia. } 1: by apply vector_range. 1: by apply Hv. 1-3: done.
  cbn [mbind option_bind]. rewrite He. set (L1 := _ ++ hw_frame t g f ip err). set (g1 := g <| cs := kcs |> <| ss := kds |>). set (f1 := flags_in _ f).
  assert (kflat g1) as Hg by done. assert (Z.of_nat (length L1) ≤ 6) as HL by (unfold L1, hw_frame; rewrite !length_app; destruct err; cbn [length]; lia).
  destruct (vector_run W code sym alltraps_at vectors_at n 4096 top L1 (t <| esp := below top L1 |>) g1 f1 c gd id tr m p) as [k1 E1]; [done..|lia|done|].
  set (L2 := L1 ++ numbered n) in *. assert (L2 = [PS (sel (ss g)); PW (esp t); PW f; PS (sel (cs g)); PW ip; PW (default 0 err); PW (Z.of_nat n)]) as EL.
  { unfold L2, L1, hw_frame, numbered. unfold err_ok in Herr. destruct (no_errcode _); [by subst|]. by destruct Herr as (v & -> & _). }
  destruct (alltraps_run W code sym alltraps_at 4096 top L2 (segdesc_words <$> G) (t <| esp := below top L2 |>) g1 f1 c gd id tr m p) as (ret & Hr & E2);
    [done|done|exact (kt_gdt _ _ _ _ _ Ht)|by apply (flat_seg G); [apply Ht| |]|done|rewrite EL; cbn [length]; lia|done|].
  exists (k1 + 10)%nat, ret. split; [done|]. rewrite (steps_app _ _ _ _ _ E1). transitivity (steps code 10 (mk_xst (t <| esp := below top L2 |>) g1 (sym "alltraps"%string) f1 c gd id tr (pushes top L2 m) p)); [done|].
  rewrite E2. assert (below top L2 = top - 28) as -> by (rewrite EL; done). unfold trap_stack. cbn [x_regs x_segs x_flags x_eip]. rewrite <- EL. do 2 f_equal. cbn. f_equal. lia.
Qed.

(** The C function trap(), called at [s1] on the frame at [tf], has returned:
    control is at the return address with the argument still on the stack, the
    processor in kernel mode with its segments and tables. The page table, the
    other registers and the memory, the frame included, may have changed. *)
Record trap_returned (s1 s2 : xst) (G : list segdesc) : Prop := {
  td_eip : x_eip s2 = load32 (x_mem s1) (esp (x_regs s1) - KERNBASE);
  td_esp : esp (x_regs s2) = esp (x_regs s1) + 4;
  td_segs : x_segs s2 = x_segs s1;
  td_space : kspace W (x_ctl s2) (x_mem s2);
  td_gdt : table W (x_mem s2) (x_gdtr s2) (segdesc_words <$> G) }.

(** Selectors of segments of user code: null, or code and data. *)
Definition user_sel (v : Z) : Prop := v = 0 ∨ v = 0x1b ∨ v = 0x23.
Definition user_seg (v : Z) : seg := mk_seg v 0 true.
Lemma user_sel_seg G v : flat_gdt G → user_sel v → seg_of (segdesc_words <$> G) v = Some (user_seg v).
Proof. intros HG [->|[->| ->]]; apply (flat_seg G); done. Qed.

Record user_frame_ok (F : trapframe) : Prop := {
  uf_cs : t_cs F = 0x1b; uf_ss : t_ss F = 0x23;
  uf_gs : user_sel (t_gs F); uf_fs : user_sel (t_fs F); uf_es : user_sel (t_es F); uf_ds : user_sel (t_ds F) }.

(** The user code of a frame runs. *)
Record user_runs (F : trapframe) (s : xst) : Prop := {
  ur_regs : x_regs s = frame_regs F (t_esp F);
  ur_eip : x_eip s = t_eip F;
  ur_flags : x_flags s = t_eflags F;
  ur_segs : x_segs s = mk_segs (user_seg (t_cs F)) (user_seg (t_ds F)) (user_seg (t_es F)) (user_seg (t_fs F)) (user_seg (t_gs F)) (user_seg (t_ss F)) }.

(** trapret, entered with the stack at a frame. *)
Lemma trapret_user s G : let F := frame_in (x_mem s) (esp (x_regs s)) in
  x_eip s = sym "trapret"%string → kspace W (x_ctl s) (x_mem s) → kflat (x_segs s) → table W (x_mem s) (x_gdtr s) (segdesc_words <$> G) → flat_gdt G →
  kva (esp (x_regs s)) 76 → user_frame_ok F →
  ∃ s', steps code 7 s = Some s' ∧ user_runs F s' ∧ x_mem s' = x_mem s ∧ x_ctl s' = x_ctl s.
Proof.
  intros F Hip Hs Hg Ht HG Ha [F1 F2 F3 F4 F5 F6]. destruct s as [t g ip f c gd id tr m p]. cbn [x_eip x_ctl x_mem x_segs x_gdtr x_regs] in *. subst ip.
  assert (∀ v, user_sel v → seg_of (segdesc_words <$> G) v = Some (user_seg v)) as Hu by (intros; by apply user_sel_seg).
  assert (user_sel (t_cs F)) as F7 by (right; by left). assert (user_sel (t_ss F)) as F8 by (right; by right).
  destruct (trapret_run W code sym alltraps_at _ t g f c gd id tr m p _ _ _ _ _ Hs Hg Ht Ha (Build_frame_segs _ F _ _ _ _ _ (Hu _ F3) (Hu _ F4) (Hu _ F5) (Hu _ F6) (Hu _ F7))) as (s1 & f' & ip' & -> & ->).
  assert (kflat (mk_segs (cs g) (user_seg (t_ds F)) (user_seg (t_es F)) (user_seg (t_fs F)) (user_seg (t_gs F)) (ss g))) as Hg1 by by destruct Hg.
  rewrite (iret_user W _ (frame_regs F (esp t + 56)) _ _ _ _ _ _ _ _ _ _ _ (esp t) Hs Hg1 Ht Ha eq_refl (Hu _ F7) (Hu _ F8)) by (fold F; by rewrite F1).
  eexists. split; [done|]. done.
Qed.

Context {FU : Fuel} {DK : Disk} {LK : Link}.

(** The kernel is ready for traps of the user code [u]: tvinit() made the
    interrupt table, seginit() and switchuvm() the segments and the task state,
    for a process with its kernel stack at [ks]. *)
Record trap_ready (u : xst) (ks : Z) (G : list segdesc) : Prop := {
  rd_user : user_state u;
  rd_space : kspace W (x_ctl u) (x_mem u);
  rd_stack : writable W ks KSTACKSIZE;
  rd_vectors : vectors = vectors_table sym;
  rd_tables : ∃ (k0 k1 : kstate) i c0, tvinit k0 = Ret tt k1 ∧ G = busy_tss (gdt (load_tss i ks c0)) ∧
    ktables W u G (idt (dev (res k1))) (ts (load_tss i ks c0)) }.

(** trap() is about to run for the interrupt [n] of the user code [u]; the
    frame is where allocproc() reserved room for it. *)
Record in_trap (u : xst) (n : nat) (err ks : Z) (s : xst) : Prop := {
  it_eip : x_eip s = u32 (sym "trap"%string);
  it_cpl : cpl s = 0;
  it_flat : kflat (x_segs s);
  it_flags : x_flags s = flags_in (n =? 64)%nat (x_flags u);
  it_ctl : x_ctl s = x_ctl u;
  it_esp : esp (x_regs s) = tf_at (setup_stack ks zero_proc) - 8;
  it_arg : load32 (x_mem s) (esp (x_regs s) + 4 - KERNBASE) = tf_at (setup_stack ks zero_proc);
  it_frame : frame_in (x_mem s) (tf_at (setup_stack ks zero_proc)) = user_frame u (Z.of_nat n) err (tf_at (setup_stack ks zero_proc) + 32);
  it_mem : ∀ p, ¬ (ks ≤ p + KERNBASE < ks + KSTACKSIZE) → x_mem s p = x_mem u p;
  it_ret : after_trap code sym (load32 (x_mem s) (esp (x_regs s) - KERNBASE)) }.

Lemma frame_at ks : kva ks KSTACKSIZE → u32 (ks + KSTACKSIZE) = ks + KSTACKSIZE ∧ tf_at (setup_stack ks zero_proc) = ks + KSTACKSIZE - 76.
Proof.
  unfold setup_stack. cbn [tf_at update]. unfold kva, KERNBASE, PHYSTOP, KSTACKSIZE, sizeof_trapframe, u32. intros.
  rewrite (Z.mod_small (ks + 4096)), (Z.mod_small (ks + 4096 - 76)) by lia. lia.
Qed.

Lemma trap_in u ks G n soft err : trap_ready u ks G → (n < 256)%nat → (soft = true → n = 64%nat) → err_ok n err →
  flat_gdt G ∧ ∃ k s1, interrupt (Z.of_nat n) soft err u ≫= steps code k = Some s1 ∧ in_trap u n (default 0 err) ks s1.
Proof.
  intros [U Hs Hw Hvec (k0 & k1 & i & c0 & Htv & EG & Ht)] Hn Hsoft Herr. destruct (frame_at ks (writable_kva _ _ _ Hw)) as [Htop Etf]. split; [apply Ht|].
  assert (tv_gates (idt (dev (res k1)))) as Hv by (intros j Hj; by apply (tvinit_gates sym k0)).
  destruct (trap_entry u n soft err G _ _ ks U Hs Ht eq_refl Htop Hv Hw Hn Hsoft Herr) as (k & ret & Hret & E). set (top := ks + KSTACKSIZE) in *.
  assert (kva (top - 84) 84) as Hk by (apply writable_kva in Hw; unfold top, kva, KSTACKSIZE in *; lia).
  destruct (trap_stack_frame u n (default 0 err) ret top (x_mem u) U Hn) as (S1 & S2 & S3); [|done|].
  { unfold err_ok in Herr. destruct (no_errcode _); [by subst|]. destruct Herr as (v & -> & ?). done. }
  match type of E with _ = Some ?x => set (s1 := x) in E end. set (m1 := pushes top _ _) in *. exists k, s1. split; [done|].
  assert (esp (x_regs s1) = top - 84 ∧ x_mem s1 = m1) as (A1 & A2) by done.
  split; rewrite ?Etf, ?A1, ?A2; [done| |done|done|done|lia|by replace (top - 84 + 4) with (top - 80) by lia| | |].
  - unfold cpl. change (x_ctl s1) with (x_ctl u). by rewrite (ks_pe _ _ _ Hs).
  - by replace (top - 76 + 32) with (top - 44) by lia.
  - intros p Hp. apply pushes_ne. unfold below, trap_stack, saved_regs. cbn [length app]. unfold top, KSTACKSIZE in *. lia.
  - rewrite S3. pose proof Hret as (nr & R1 & _). by rewrite (kva_u32 ret 1) by (done || by eapply ktext_range).
Qed.

Lemma trap_out u n err ks s1 s2 G : in_trap u n err ks s1 → trap_returned s1 s2 G → flat_gdt G → kva ks KSTACKSIZE →
  let F := frame_in (x_mem s2) (tf_at (setup_stack ks zero_proc)) in user_frame_ok F →
  ∃ s3, steps code 8 s2 = Some s3 ∧ user_runs F s3 ∧ x_mem s3 = x_mem s2 ∧ x_ctl s3 = x_ctl s2.
Proof.
  intros I [T1 T2 T3 T4 T5] HG Hks F HF. destruct (frame_at ks Hks) as [_ Etf]. destruct (it_ret _ _ _ _ _ I) as (nr & R1 & R2). rewrite <- T1 in R1, R2. rewrite (it_esp _ _ _ _ _ I) in T2.
  pose proof (it_flat _ _ _ _ _ I) as Hg. rewrite <- T3 in Hg. set (tf := tf_at _) in *. clearbody tf.
  destruct s2 as [t2 g2 ip2 f2 c2 gd2 id2 tr2 m2 p2]. cbn [x_eip x_regs x_segs x_ctl x_mem x_gdtr] in *. assert (esp t2 + u32 4 = tf) as E4 by (rewrite T2; change (u32 4) with 4; lia).
  cbn [steps]. rewrite (step_k W _ _ nr) by done. cbn [execute mbind option_bind]. unfold set_reg. cbn. rewrite E4, R2, (kva_u32 tf 1) by (unfold kva, KSTACKSIZE in *; lia).
  match goal with |- context [step code ?x] => destruct (trapret_user x G) as (s3 & Q1 & Q2 & Q3 & Q4) end; [done..|cbn [x_regs esp]; rewrite Etf; unfold kva, KSTACKSIZE in *; lia|done|].
  by exists s3.
Qed.

End roundtrip.
