(* ===== verification/Inline.v ===== *)
(** * Loading the registers of the processor (x86.h)

    The inline functions of x86.h that load the table registers, the task
    register and the page directory, run on the processor, and what they do
    when seginit(), idtinit() and switchuvm() call them. *)

From S2P Require Import Prelude Machine Spinlock CString ProcTable Proc Lifecycle Kstate.
From S2P Require Import Sleeplock Devices Disk Bio Layout Log Inode Console Kbd Fs Kalloc File Vm PageTable Env Exec Syscall Trap X86 X86Lemmas Trapasm.

Definition outw (port data : Z) (s : xst) : xst := s <| x_ports ::= cons (Out (u16 port) (u16 data)) |>.
Definition loadgs (v : Z) (s : xst) : option xst := d ← ld_seg s v; Some (set_seg GS d s).
Definition lcr3 (val : Z) (s : xst) : xst := s <| x_ctl ::= fun c => c <| c_cr3 := val |> |>.

(** The array [pd] of lgdt() and lidt(), at the address [pd]. *)
Definition pseudo_desc (pd p size : Z) (s : xst) : option xst :=
  s ← st16 (is_user s) pd (size - 1) s;
  s ← st16 (is_user s) (pd + 2) p s;
  st16 (is_user s) (pd + 4) (Z.shiftr p 16) s.
Definition lgdt {HW : Hw} {CP : Cpu} (pd p size : Z) (s : xst) : option xst :=
  s ← pseudo_desc pd p size s; X86.lgdt pd s.
Definition lidt (pd p size : Z) (s : xst) : option xst :=
  s ← pseudo_desc pd p size s;
  l ← ld16 (is_user s) s (u32 (sbase (ds (x_segs s)) + u32 pd));
  b ← ld32 (is_user s) s (u32 (sbase (ds (x_segs s)) + u32 (pd + 2)));
  Some (s <| x_idtr := (b, l) |>).

(** LTR takes the base from the descriptor of an available task state and marks
    it busy. *)
Definition ltr (v : Z) (s : xst) : option xst :=
  let o := 8 * Z.shiftr (v mod 2 ^ 16) 3 in
  d ← ld_desc s (x_gdtr s) o;
  if desc_present d && (gate_type d =? STS_T32A)
  then s ← st32 false (fst (x_gdtr s) + o + 4) (Z.lor (snd d) 0x200) s; Some (s <| x_tr := desc_base d |>) else None.

Lemma kspace_mono (W W' : Z → Prop) c m : (∀ p, W p → W' p) → kspace W' c m → kspace W c m.
Proof.
  intros Hw [H1 H2 H3]. assert (∀ m', agree W m m' → agree W' m m') as Ha by (intros m' H p Hp; apply H; intros Q; by apply Hp, Hw).
  split; [done|intros m' H a; by apply H2, Ha|intros m' H a Hk HW; apply H3; [by apply Ha|done|by apply Hw]].
Qed.

Section inline.
Context {HW : Hw} {CP : Cpu} (W : Z → Prop).

(** The bytes of the array. *)
Definition with_pd (m : mem) (a p size : Z) : mem :=
  let st m a v := CString.store (CString.store m a v) (a + 1) (Z.shiftr v 8) in st (st (st m a (size - 1)) (a + 2) p) (a + 4) (Z.shiftr p 16).
Lemma with_pd_ne m a p size x : ¬ (a ≤ x < a + 6) → with_pd m a p size x = m x.
Proof. intros Hx. unfold with_pd, CString.store. cbv zeta beta. repeat match goal with |- context [x =? ?y] => destruct (Z.eqb_spec x y); [lia|] end. done. Qed.
Lemma with_pd_at m a p size : 0 ≤ p < 2 ^ 32 → 0 < size ≤ 2 ^ 16 → load16 (with_pd m a p size) a = size - 1 ∧ load32 (with_pd m a p size) (a + 2) = p.
Proof.
  intros Hp Hs. set (m' := with_pd m a p size). assert (m' a = u8 (size - 1) ∧ m' (a + 1) = u8 (Z.shiftr (size - 1) 8) ∧ m' (a + 2) = u8 p ∧ m' (a + 2 + 1) = u8 (Z.shiftr p 8) ∧
    m' (a + 2 + 2) = u8 (Z.shiftr p 16) ∧ m' (a + 2 + 3) = u8 (Z.shiftr p 24)) as (E0 & E1 & E2 & E3 & E4 & E5).
  { replace (Z.shiftr p 24) with (Z.shiftr (Z.shiftr p 16) 8) by by rewrite Z.shiftr_shiftr. unfold m', with_pd, CString.store. cbv zeta beta.
    split_and!; repeat match goal with |- context [?x =? ?y] => destruct (Z.eqb_spec x y); [try lia|try lia] end; done. }
  unfold load16, load32. rewrite E0, E1, E2, E3, E4, E5. rewrite !Z.shiftr_div_pow2 by lia. unfold u8. Z.to_euclidean_division_equations. lia.
Qed.
Lemma st16_2 s a v : kspace W (x_ctl s) (x_mem s) → writable W a 2 →
  st16 false a v s = Some (s <| x_mem ::= fun m => CString.store (CString.store m (a - KERNBASE) v) (a - KERNBASE + 1) (Z.shiftr v 8) |>).
Proof.
  intros H Ha. unfold st16. replace (wr_at false s a) with (wr_at false s (a + 0)) by (f_equal; lia). rewrite !(wr_at_k W s a 2) by (done || lia). cbn [mbind option_bind]. by rewrite Z.add_0_r.
Qed.
Lemma kspace_st16 c m a v : kspace W c m → writable W a 2 → kspace W c (CString.store (CString.store m (a - KERNBASE) v) (a - KERNBASE + 1) (Z.shiftr v 8)).
Proof.
  intros H [_ Ha]. eapply kspace_agree; [exact H|]. intros p Hp. unfold CString.store.
  destruct (Z.eqb_spec p (a - KERNBASE + 1)); [destruct Hp; replace p with (a + 1 - KERNBASE) by lia; apply Ha; lia|]. destruct (Z.eqb_spec p (a - KERNBASE)); [destruct Hp; subst; apply Ha; lia|done].
Qed.

Lemma pseudo_k pd p size t g ip f c gd id tr m l : kspace W c m → kflat g → writable W pd 6 →
  pseudo_desc pd p size (mk_xst t g ip f c gd id tr m l) = Some (mk_xst t g ip f c gd id tr (with_pd m (pd - KERNBASE) p size) l) ∧ kspace W c (with_pd m (pd - KERNBASE) p size).
Proof.
  intros Hs Hg Hw. assert (writable W pd 2 ∧ writable W (pd + 2) 2 ∧ writable W (pd + 4) 2) as (W1 & W2 & W3) by (split_and!; eapply writable_sub; (exact Hw || lia)).
  unfold pseudo_desc. rewrite !kflat_not_user by done. pose proof (kspace_st16 _ _ pd (size - 1) Hs W1) as S1. rewrite st16_2 by done. cbn [mbind option_bind].
  pose proof (kspace_st16 _ _ (pd + 2) p S1 W2) as S2. rewrite kflat_not_user, st16_2 by done. cbn [mbind option_bind].
  pose proof (kspace_st16 _ _ (pd + 4) (Z.shiftr p 16) S2 W3) as S3. rewrite kflat_not_user, st16_2 by done. unfold with_pd. cbv zeta beta.
  replace (pd - KERNBASE + 2) with (pd + 2 - KERNBASE) by lia. replace (pd - KERNBASE + 4) with (pd + 4 - KERNBASE) by lia. done.
Qed.

Lemma lgdt_k pd p size t g ip f c gd id tr m l : kspace W c m → kflat g → sbase (ds g) = 0 → writable W pd 6 → 0 ≤ p < 2 ^ 32 → 0 < size ≤ 2 ^ 16 →
  lgdt pd p size (mk_xst t g ip f c gd id tr m l) = Some (mk_xst t g ip f c (p, size - 1) id tr (with_pd m (pd - KERNBASE) p size) l).
Proof.
  intros Hs Hg Hd Hw Hp Hz. destruct (pseudo_k pd p size t g ip f c gd id tr m l Hs Hg Hw) as [E Hs']. unfold lgdt. rewrite E. cbn [mbind option_bind]. unfold X86.lgdt, ea. rewrite kflat_not_user by done. cbn [x_segs].
  apply writable_kva in Hw. assert (∀ k, 0 ≤ k < 6 → u32 (0 + u32 (pd + k + 0)) = pd + k) as Hu by (intros k Hk; unfold kva, KERNBASE, PHYSTOP in Hw; unfold u32; rewrite Z.add_0_l, Z.add_0_r, Z.mod_mod by lia; apply Z.mod_small; lia).
  pose proof (Hu 0 ltac:(lia)) as U0. rewrite !Z.add_0_r in U0. rewrite Hd, (Hu 2), Z.add_0_r, U0 by lia. unfold kva in Hw. rewrite (ld16_k W), (ld32_k W) by (done || (unfold kva; lia)). cbn [mbind option_bind x_mem].
  replace (pd + 2 - KERNBASE) with (pd - KERNBASE + 2) by lia. destruct (with_pd_at m (pd - KERNBASE) p size Hp Hz) as [-> ->]. by rewrite (kf_cbig _ Hg).
Qed.
Lemma lidt_k pd p size t g ip f c gd id tr m l : kspace W c m → kflat g → sbase (ds g) = 0 → writable W pd 6 → 0 ≤ p < 2 ^ 32 → 0 < size ≤ 2 ^ 16 →
  lidt pd p size (mk_xst t g ip f c gd id tr m l) = Some (mk_xst t g ip f c gd (p, size - 1) tr (with_pd m (pd - KERNBASE) p size) l).
Proof.
  intros Hs Hg Hd Hw Hp Hz. destruct (pseudo_k pd p size t g ip f c gd id tr m l Hs Hg Hw) as [E Hs']. unfold lidt. rewrite E. cbn [mbind option_bind]. rewrite kflat_not_user by done. cbn [x_segs].
  apply writable_kva in Hw. assert (∀ k, 0 ≤ k < 6 → u32 (0 + u32 (pd + k)) = pd + k) as Hu by (intros k Hk; unfold kva, KERNBASE, PHYSTOP in Hw; unfold u32; rewrite Z.add_0_l, Z.mod_mod by lia; apply Z.mod_small; lia).
  pose proof (Hu 0 ltac:(lia)) as U0. rewrite !Z.add_0_r in U0. rewrite Hd, (Hu 2), U0 by lia. unfold kva in Hw. rewrite (ld16_k W), (ld32_k W) by (done || (unfold kva; lia)). cbn [mbind option_bind x_mem].
  replace (pd + 2 - KERNBASE) with (pd - KERNBASE + 2) by lia. by destruct (with_pd_at m (pd - KERNBASE) p size Hp Hz) as [-> ->].
Qed.

(** The descriptor that switchuvm() makes for the task state at [base]. *)
Definition tss_desc (base : Z) : segdesc := (SEG16 STS_T32A base (sizeof_taskstate - 1) 0) <| seg_s := 0 |>.
Lemma tss_decodes base : 0 ≤ base < 2 ^ 32 → let d := segdesc_words (tss_desc base) in
  desc_base d = base ∧ desc_present d = true ∧ gate_type d = STS_T32A ∧ Z.lor (snd d) 0x200 = snd (segdesc_words ((tss_desc base) <| seg_type := 11 |>)) ∧ 0 ≤ Z.lor (snd d) 0x200 < 2 ^ 32.
Proof.
  intros Hb d. set (b1 := base / 2 ^ 16 mod 256). set (b3 := base / 2 ^ 24). assert (0 ≤ b1 < 256) as H1 by (apply Z.mod_pos_bound; lia).
  assert (0 ≤ b3 < 256) as H3 by (unfold b3; split; [apply Z.div_pos; lia|apply Z.div_lt_upper_bound; lia]).
  assert (snd (segdesc_words ((tss_desc base) <| seg_type := 11 |>)) = snd d + 512) as Hd2 by (unfold d, tss_desc, SEG16, segdesc_words, STS_T32A; cbn [update snd seg_type base_23_16 seg_s seg_dpl seg_p lim_19_16 avl rsv1 db g base_31_24]; lia).
  assert (d = (103 + base mod 2 ^ 16 * 2 ^ 16, b1 + 0x408900 + b3 * 2 ^ 24)) as ->.
  { unfold d, tss_desc, SEG16, segdesc_words. cbn [update lim_15_0 base_15_0 base_23_16 seg_type seg_s seg_dpl seg_p lim_19_16 avl rsv1 db g base_31_24]. change 0xffff with (Z.ones 16). change 0xff with (Z.ones 8). rewrite !Z.shiftr_div_pow2 by lia.
    rewrite !Z.land_ones by lia. change (2 ^ 8) with 256. fold b1 b3. change ((sizeof_taskstate - 1) mod 2 ^ 16) with 103. change (Z.land ((sizeof_taskstate - 1) / 2 ^ 16) 0xf) with 0. f_equal; unfold STS_T32A; lia. }
  set (w := b1 + 0x408900 + b3 * 2 ^ 24). assert (∀ n, 0 ≤ n → Z.testbit w n = Z.odd (w / 2 ^ n)) as Ht by (intros n Hn; by rewrite Z.testbit_odd, Z.shiftr_div_pow2).
  assert (w / 2 ^ 15 = 129 + b3 * 512 ∧ w / 2 ^ 9 = 8260 + b3 * 32768 ∧ w / 2 ^ 8 = 16521 + b3 * 65536 ∧ w / 2 ^ 24 = b3 ∧ w mod 256 = b1) as (D1 & D2 & D3 & D4 & D5) by (unfold w; split_and!; Z.to_euclidean_division_equations; lia).
  assert (Z.lor w 0x200 = w + 512) as Hor.
  { rewrite <- Z.add_lor_land. assert (Z.land w 512 = 0) as ->; [|lia]. change 512 with (2 ^ 9). apply Z.bits_inj'. intros n Hn. rewrite Z.land_spec, Z.pow2_bits_eqb, Z.bits_0 by lia.
    destruct (Z.eqb_spec 9 n) as [<-|]; [|by rewrite andb_false_r]. rewrite Ht, D2, Z.odd_add, Z.odd_mul by lia. by rewrite andb_false_r. }
  split; [|split; [|split; [|split]]].
  - unfold desc_base. cbn [fst snd]. rewrite !Z.shiftr_div_pow2 by lia. change (2 ^ 8) with 256. rewrite D4, D5. unfold b1, b3. Z.to_euclidean_division_equations. lia.
  - unfold desc_present. cbn [snd]. rewrite Ht, D1, Z.odd_add, Z.odd_mul by lia. by rewrite andb_false_r.
  - unfold gate_type. cbn [snd]. rewrite Z.shiftr_div_pow2, D3 by lia. unfold STS_T32A. change (2 ^ 5) with 32. replace (16521 + b3 * 65536) with (9 + (516 + b3 * 2048) * 32) by lia. by rewrite Z.mod_add.
  - transitivity (w + 512); [exact Hor|symmetry; exact Hd2].
  - cbn [snd]. fold w. rewrite Hor. lia.
Qed.

Context {FU : Fuel} {DK : Disk} {LK : Link} (W' : Z → Prop).

(** switchuvm() has stored the descriptor and the task state of CPU [i] for a
    process with the kernel stack [ks] and the page directory [d].  [W'] is
    what it may write, the tables included, [W] what later code may. *)
Record switching (s : xst) (i : nat) (ks d : Z) (c0 : cpu) (I : list gatedesc) : Prop := {
  sw_old : kspace W' (x_ctl s) (x_mem s);
  sw_new : kspace W' ((x_ctl s) <| c_cr3 := V2P d |>) (x_mem s);
  sw_less : ∀ p, W p → W' p;
  sw_limit : snd (x_gdtr s) = 47;
  sw_gdt : writable W' (fst (x_gdtr s)) 48 ∧ ∀ x, fst (x_gdtr s) ≤ x < fst (x_gdtr s) + 48 → ¬ W (x - KERNBASE);
  sw_segs : length (gdt c0) = 6%nat ∧ flat_gdt (gdt c0);
  sw_words : ∀ j w, (segdesc_words <$> gdt (load_tss i ks c0)) !! j = Some w →
    load32 (x_mem s) (fst (x_gdtr s) + 8 * Z.of_nat j - KERNBASE) = fst w ∧ load32 (x_mem s) (fst (x_gdtr s) + 8 * Z.of_nat j + 4 - KERNBASE) = snd w;
  sw_idt : table W (x_mem s) (x_idtr s) (gatedesc_words <$> I);
  sw_ts : kva (ts_sym i) 104 ∧ ∀ x, ts_sym i ≤ x < ts_sym i + 104 → ¬ W (x - KERNBASE);
  sw_tss : tss_in (x_mem s) (ts_sym i) (ts (load_tss i ks c0));
  sw_apart : apart (fst (x_gdtr s)) 48 (fst (x_idtr s)) (8 * Z.of_nat (length I)) ∧ apart (fst (x_gdtr s)) 48 (ts_sym i) 104 }.

(** C23. With the descriptor and the task state of the process in memory, the
    instructions ltr() and lcr3() of switchuvm() leave the processor with the
    tables that traps of the process need: the task register at the task state
    with the top of its kernel stack, the segments of seginit(), the gates of
    tvinit(), and its page directory, the kernel mapped; only the busy bit of
    the descriptor changes in memory. *)
Theorem switchuvm_loads s i ks d c0 I : switching s i ks d c0 I →
  ∃ s1, ltr (tr (load_tss i ks c0)) s = Some s1 ∧ let s' := lcr3 (V2P d) s1 in
    kspace W (x_ctl s') (x_mem s') ∧ ktables W s' (busy_tss (gdt (load_tss i ks c0))) I (ts (load_tss i ks c0)) ∧ c_cr3 (x_ctl s') = V2P d ∧ x_tr s' = ts_sym i ∧
    x_regs s' = x_regs s ∧ x_segs s' = x_segs s ∧ x_eip s' = x_eip s ∧ ∀ q, ¬ (fst (x_gdtr s) + 44 ≤ q + KERNBASE < fst (x_gdtr s) + 48) → x_mem s' q = x_mem s q.
Proof.
  intros [S1 S2 S3 S4 [S5 S6] [S7 S8] S9 S10 [S11 S12] S13 [S14 S15]]. destruct s as [t g ip f c [pg lim] id trr m l]. cbn [x_ctl x_mem x_gdtr x_idtr fst snd] in *. subst lim.
  set (G := gdt (load_tss i ks c0)) in *. assert (G = <[5%nat := tss_desc (ts_sym i)]> (gdt c0)) as EG by done. assert (length G = 6%nat) as HlG by (rewrite EG; by rewrite length_insert).
  assert (G !! 5%nat = Some (tss_desc (ts_sym i))) as G5 by (rewrite EG; apply list_lookup_insert_eq; lia).
  assert (0 ≤ ts_sym i < 2 ^ 32) as Hb by (unfold kva, KERNBASE, PHYSTOP in S11; lia). destruct (tss_decodes (ts_sym i) Hb) as (D1 & D2 & D3 & D4 & D5). set (dw := segdesc_words (tss_desc (ts_sym i))) in *.
  assert ((segdesc_words <$> G) !! 5%nat = Some dw) as W5 by (rewrite list_lookup_fmap, G5; done). destruct (S9 _ _ W5) as [L1 L2]. change (8 * Z.of_nat 5) with 40 in L1, L2.
  set (v := Z.lor dw.2 0x200). set (m' := store32 m (pg + 40 + 4 - KERNBASE) v).
  assert (ltr 40 (mk_xst t g ip f c (pg, 47) id trr m l) = Some (mk_xst t g ip f c (pg, 47) id (ts_sym i) m' l)) as E.
  { unfold ltr. change (8 * Z.shiftr (40 mod 2 ^ 16) 3) with 40. unfold ld_desc. cbn [x_gdtr fst snd]. change (47 <? 40 + 7) with false. pose proof (writable_kva _ _ _ S5) as Hk. unfold kva in Hk.
    rewrite !(ld32_k W') by (done || (unfold kva; lia)). cbn [mbind option_bind x_mem]. rewrite L1, L2. replace (dw.1, dw.2) with dw by by destruct dw. rewrite D2, D3, Z.eqb_refl. cbn [andb].
    rewrite (st32_k W') by (done || (eapply writable_sub; [exact S5|lia..])). cbn. by rewrite D1. }
  exists (mk_xst t g ip f c (pg, 47) id (ts_sym i) m' l). split; [exact E|]. cbv zeta. unfold lcr3. cbn [x_ctl x_mem x_regs x_segs x_eip update c_cr3].
  assert (∀ q, ¬ (pg + 44 ≤ q + KERNBASE < pg + 48) → m' q = m q) as Hq by (intros q Hq; apply store32_ne; lia).
  assert (kspace W' (c <| c_cr3 := V2P d |>) m') as Hn by (apply kspace_store32; [eapply writable_sub; [exact S5|lia..]|exact S2]).
  split; [by apply (kspace_mono W W')|]. split; [|by split_and!].
  split; cbn [x_mem x_gdtr x_idtr x_tr fst snd].
  - assert (length (segdesc_words <$> busy_tss G) = 6%nat) as Hl by (rewrite length_fmap; unfold busy_tss; by rewrite length_alter).
    split; rewrite ?Hl; cbn [fst snd]; [by eapply writable_kva|done|exact S6|]. intros j w Hj. unfold busy_tss, SEG_TSS in Hj. rewrite list_lookup_fmap in Hj. destruct (decide (j = 5%nat)) as [->|Hne].
    + rewrite list_lookup_alter_eq, G5 in Hj. cbn in Hj. injection Hj as <-. change (8 * Z.of_nat 5) with 40. split.
      * rewrite (load32_ext m' m) by (intros q Hr; apply Hq; lia). exact L1.
      * unfold m'. rewrite load_store32. transitivity v; [by apply Z.mod_small|exact D4].
    + rewrite list_lookup_alter_ne in Hj by done. rewrite <- list_lookup_fmap in Hj. pose proof (lookup_lt_Some _ _ _ Hj) as Hl'. rewrite length_fmap, HlG in Hl'. destruct (S9 _ _ Hj) as [E1 E2].
      split; [rewrite <- E1|rewrite <- E2]; apply load32_ext; intros q Hr; apply Hq; lia.
  - destruct S8 as (F1 & F2 & F3 & F4). unfold flat_gdt, busy_tss. rewrite EG. unfold SEG_KCODE, SEG_KDATA, SEG_UCODE, SEG_UDATA, SEG_TSS in *. by rewrite !list_lookup_alter_ne, !list_lookup_insert_ne by done.
  - destruct S10 as [T1 T2 T3 T4]. split; [done|done|done|]. intros j w Hj. destruct (T4 j w Hj) as [E1 E2]. apply lookup_lt_Some in Hj. rewrite length_fmap in Hj. unfold apart in S14.
    split; [rewrite <- E1|rewrite <- E2]; apply load32_ext; intros q Hr; apply Hq; lia.
  - exact S11.
  - exact S12.
  - destruct S13 as [E1 E2]. unfold apart in S15. split; [rewrite <- E1; apply load32_ext|rewrite <- E2; apply load16_ext]; intros q Hr; apply Hq; cbn in Hr; lia.
Qed.
End inline.
