(* ===== verification/Start.v ===== *)
(** * The first run of a process

    allocproc() builds the kernel stack of a new process so that the scheduler
    can switch to it as to any other: a context that resumes in forkret(), the
    return address trapret below the trap frame, and the frame itself. *)

From S2P Require Import Prelude Machine Spinlock CString ProcTable Proc Lifecycle Kstate.
From S2P Require Import Sleeplock Devices Disk Bio Layout Log Inode Console Kbd Fs Kalloc File Vm PageTable Env Exec Syscall Trap X86 X86Lemmas Swtch Trapasm.

(** The kernel stack of a process is in memory as its record says. *)
Record kstack_in (m : mem) (q : proc) : Prop := {
  ki_ctx : context_in m (context_at q) = ctx q;
  ki_ret : load32 m (context_at q + sizeof_context - KERNBASE) = kret q;
  ki_tf : frame_in m (tf_at q) = tf q }.

Section start.
Context {HW : Hw} {CP : Cpu} {FU : Fuel} {DK : Disk} {LK : Link} (W : Z → Prop) (code : text) (sym : string → Z).
Hypothesis swtch_at : placed sym (ktext code) (fun _ => 0) true (sym "swtch"%string) swtch_S.
Hypothesis alltraps_at : placed sym (ktext code) (fun _ => 0) true (sym "alltraps"%string) (alltraps_S sym ++ trapret_S).
Hypothesis forkret_linked : forkret_sym = sym "forkret"%string.
Hypothesis trapret_linked : trapret_sym = sym "trapret"%string.

(** forkret() was entered at [s1] and has returned; the trap frame of [q] is
    still there. *)
Record forkret_returned (s1 s2 : xst) (G : list segdesc) (q : proc) : Prop := {
  fr_eip : x_eip s2 = load32 (x_mem s1) (esp (x_regs s1) - KERNBASE);
  fr_esp : esp (x_regs s2) = esp (x_regs s1) + 4;
  fr_segs : x_segs s2 = x_segs s1;
  fr_space : kspace W (x_ctl s2) (x_mem s2);
  fr_gdt : table W (x_mem s2) (x_gdtr s2) (segdesc_words <$> G);
  fr_tf : frame_in (x_mem s2) (tf_at q) = tf q }.

(** C21. The first time the scheduler switches to a process that allocproc()
    set up, whatever frame fork() or userinit() then gave it, forkret() starts
    on the kernel stack of the process, and when it returns the processor
    enters user mode with exactly the registers of that frame: after fork()
    the child goes on like its parent, with 0 in eax; the first process starts
    at address 0. *)
Theorem new_process_enters_user s old ks q0 f G : let q := (setup_stack ks q0) <| tf := f |> in
  kva ks KSTACKSIZE → swtch_call W sym s old (context_at q) → apart old 4 ks KSTACKSIZE → apart (esp (x_regs s) - 16) 16 ks KSTACKSIZE → kstack_in (x_mem s) q →
  ∃ s1, steps code 13 s = Some s1 ∧ x_eip s1 = sym "forkret"%string ∧ esp (x_regs s1) = tf_at q - 4 ∧ kstack_in (x_mem s1) q ∧
    ∀ s2, forkret_returned s1 s2 G q → flat_gdt G → user_frame_ok f →
      ∃ s3, steps code 7 s2 = Some s3 ∧ user_runs f s3 ∧ x_ctl s3 = x_ctl s2 ∧ x_mem s3 = x_mem s2.
Proof.
  intros q Hks Hcall Hold Hstk [I1 I2 I3].
  assert (tf_at q = ks + KSTACKSIZE - 76 ∧ context_at q = ks + KSTACKSIZE - 100) as [E1 E2].
  { unfold q, setup_stack. cbn [tf_at context_at update]. unfold kva, KERNBASE, PHYSTOP, KSTACKSIZE, sizeof_trapframe, sizeof_context, u32 in *.
    rewrite (Z.mod_small (ks + 4096)), (Z.mod_small (ks + 4096 - 76)), (Z.mod_small (ks + 4096 - 76 - 4)), (Z.mod_small (ks + 4096 - 76 - 4 - 20)) by lia. lia. }
  destruct (swtch_spec W code sym swtch_at s old _ Hcall) as (s1 & R1 & (_ & _ & _ & _ & R2 & R3) & _ & _ & R4 & R5 & R6 & _).
  assert (∀ p, ks ≤ p + KERNBASE < ks + KSTACKSIZE → x_mem s1 p = x_mem s p) as Hm. { intros p Hp. apply R4; unfold apart in *; lia. }
  exists s1. split; [done|]. split; [rewrite R2, I1; exact forkret_linked|]. split; [rewrite R3; lia|].
  unfold KSTACKSIZE in *. assert (kstack_in (x_mem s1) q) as Hki.
  { split; [rewrite <- I1; apply context_in_ext|rewrite <- I2; apply load32_ext|rewrite <- I3; apply frame_in_ext]; intros p Hp; apply Hm; rewrite ?E1, ?E2 in Hp; unfold sizeof_context in Hp; lia. }
  split; [done|]. intros s2 [F1 F2 F3 F4 F5 F6] HG Hf.
  assert (x_eip s2 = sym "trapret"%string) as Hip. { rewrite F1, R3. pose proof (ki_ret _ _ Hki) as Hr. unfold sizeof_context in Hr. rewrite Hr. exact trapret_linked. }
  assert (esp (x_regs s2) = tf_at q) as Hsp by lia. assert (kflat (x_segs s2)) as Hg by (rewrite F3, R5; apply (sc_flat _ _ _ _ _ Hcall)).
  destruct (trapret_user W code sym alltraps_at s2 G Hip F4 Hg F5 HG) as (s3 & Q1 & Q2 & Q3 & Q4); rewrite Hsp in *; [unfold kva in *; lia|by rewrite F6|].
  exists s3. rewrite F6 in Q2. done.
Qed.
End start.
