(* ===== verification/Ucode.v ===== *)
(** * Assembly in user space (usys.S, initcode.S)

    The system call stubs of usys.S, which every user program is linked with,
    and initcode.S, the first program, which execs /init. *)

From S2P Require Import Prelude Machine Spinlock CString ProcTable Proc Lifecycle Kstate.
From S2P Require Import Sleeplock Devices Disk Bio Layout Log Inode Console Kbd Fs Kalloc File Vm PageTable Env Exec Syscall Trap X86 X86Lemmas Trapasm.

(** ** The source *)

(** syscall.h *)
Definition syscall_h : list (string * Z) :=
  [("fork", 1); ("exit", 2); ("wait", 3); ("pipe", 4); ("read", 5); ("kill", 6); ("exec", 7); ("fstat", 8); ("chdir", 9);
   ("dup", 10); ("getpid", 11); ("sbrk", 12); ("sleep", 13); ("uptime", 14); ("open", 15); ("write", 16); ("mknod", 17);
   ("unlink", 18); ("link", 19); ("mkdir", 20); ("close", 21); ("wait2", 23); ("yield", 24); ("change_prio", 25)]%string.
Definition SYS (name : string) : Z :=
  match list_find (fun x => fst x = name) syscall_h with Some (_, x) => snd x | None => 0 end.

(** The macro SYSCALL(name) of usys.S, and its uses. *)
Definition SYSCALL (name : string) : list item :=
  [Lbl name;
   Ins (MOVL (Imm (SYS name)) (Reg EAX));
   Ins (INT T_SYSCALL);
   Ins RET].
Definition usys_names : list string :=
  ["fork"; "exit"; "wait"; "pipe"; "read"; "write"; "close"; "kill"; "exec"; "open"; "mknod"; "unlink"; "fstat"; "link"; "mkdir";
   "chdir"; "dup"; "getpid"; "sbrk"; "sleep"; "uptime"; "wait2"; "yield"; "change_prio"]%string.
Definition usys_S : list item := usys_names ≫= SYSCALL.

(** "/init\0" and the terminator that .string adds. *)
Definition init_string : list Z := [47; 105; 110; 105; 116; 0; 0].

Definition initcode_S (sym : string → Z) : list item :=
  [Lbl "start";
   Ins (PUSHL (Imm (sym "argv")));
   Ins (PUSHL (Imm (sym "init")));
   Ins (PUSHL (Imm 0));
   Ins (MOVL (Imm (SYS "exec")) (Reg EAX));
   Ins (INT T_SYSCALL);
   Lbl "exit";
   Ins (MOVL (Imm (SYS "exit")) (Reg EAX));
   Ins (INT T_SYSCALL);
   Rel JMP (sym "exit");
   Lbl "init";
   Bytes init_string;
   Align 4;
   Lbl "argv";
   Bytes (long (sym "init"));
   Bytes (long 0)]%string.

(** ** User mode *)

(** Flat segments for code and stack. *)
Record uflat (s : xst) : Prop := {
  uf_user : is_user s = true; uf_code : sbase (cs (x_segs s)) = 0; uf_cbig : big (cs (x_segs s)) = true;
  uf_stack : sbase (ss (x_segs s)) = 0; uf_sbig : big (ss (x_segs s)) = true }.

Section user.
Context {HW : Hw} {CP : Cpu} (code : text).

(** The code of the program by its virtual address. *)
Definition utext (s : xst) : text := fetch_at code (x_ctl s) (x_mem s) true.

Lemma step_u s i n : uflat s → 0 ≤ x_eip s < 2 ^ 32 → utext s (x_eip s) = Some (true, i, n) →
  step code s = execute i (s <| x_eip ::= fun e => u32 (e + n) |>).
Proof.
  intros [U1 U2 U3 _ _] He Hf. unfold step, fetch. rewrite U1, U2, Z.add_0_l. assert (u32 (x_eip s) = x_eip s) as -> by (apply Z.mod_small; lia). unfold utext in Hf. rewrite Hf. cbn [mbind option_bind].
  by rewrite U3.
Qed.

Lemma user_cpl s : is_user s = true ↔ cpl s = 3.
Proof. unfold is_user. by rewrite Z.eqb_eq. Qed.

Lemma ret_u s ra : uflat s → 0 ≤ esp (x_regs s) < 2 ^ 32 → ld32 true s (esp (x_regs s)) = Some ra →
  execute RET s = Some (s <| x_regs ::= fun t => t <| esp := u32 (esp t + 4) |> |> <| x_eip := ra |>).
Proof.
  intros [U1 U2 U3 U4 U5] He Hl. cbn [execute]. unfold pop. rewrite U5, U1. cbn [negb]. assert (sp_at s 0 = esp (x_regs s)) as ->.
  { unfold sp_at, u32. rewrite U4, Z.add_0_l, Z.add_0_r, Z.mod_mod by lia. by apply Z.mod_small. }
  rewrite Hl. done.
Qed.
End user.

(** ** System calls *)

Section usys.
Context {HW : Hw} {CP : Cpu} {FU : Fuel} {DK : Disk} {LK : Link} (W : Z → Prop) (code : text) (ksym usym : string → Z).
Hypothesis alltraps_at : placed ksym (ktext code) (fun _ => 0) true (ksym "alltraps"%string) (alltraps_S ksym ++ trapret_S).
Hypothesis vectors_at : ∃ a, placed ksym (ktext code) (fun _ => 0) true a (vectors_S ksym).

(** The kernel function that each stub is for. *)
Definition sys_function (name : string) : option (K Z) :=
  '(_, x) ← list_find (fun x => fst x = name)
    [("fork", sys_fork); ("exit", sys_exit); ("wait", sys_wait); ("pipe", sys_pipe); ("read", sys_read); ("write", sys_write); ("close", sys_close);
     ("kill", sys_kill); ("exec", sys_exec); ("open", sys_open); ("mknod", sys_mknod); ("unlink", sys_unlink); ("fstat", sys_fstat); ("link", sys_link);
     ("mkdir", sys_mkdir); ("chdir", sys_chdir); ("dup", sys_dup); ("getpid", sys_getpid); ("sbrk", sys_sbrk); ("sleep", sys_sleep);
     ("uptime", sys_uptime); ("wait2", sys_wait2); ("yield", sys_yield); ("change_prio", sys_change_prio)]%string; Some (snd x).

Lemma stub_dispatch name : name ∈ usys_names → ∃ f, sys_function name = Some f ∧ syscall_entry (SYS name) = Some f ∧ 0 < SYS name < 2 ^ 31.
Proof.
  intros H. unfold usys_names in H. repeat (apply elem_of_cons in H as [->|H]; [eexists; split; [reflexivity|]; split; [reflexivity|done]|]). by apply elem_of_nil in H.
Qed.

Lemma stub_placed at_ m a name : placed usym at_ m true a usys_S → name ∈ usys_names → placed usym at_ m true (usym name) (SYSCALL name).
Proof. apply (bind_placed SYSCALL id); [done|]. intros x. unfold SYSCALL. eauto. Qed.

(** The frame of a call of a stub: the number of the call in eax, the stack of
    the caller, where argint() looks for the arguments, and control after the
    INT instruction. *)
Record stub_frame (name : string) (u : xst) (F : trapframe) : Prop := {
  sf_trapno : trapno F = T_SYSCALL;
  sf_number : t_eax F = SYS name;
  sf_stack : t_esp F = esp (x_regs u);
  sf_regs : frame_regs F (t_esp F) = (x_regs u) <| eax := SYS name |> }.

(** C22. A user program that calls the stub of a system call gets to trap() with
    a frame that has the number of the call in eax and the stack pointer of
    the caller; the table of syscall() has the function of that name under the
    number.  When trap() returns with the result in eax of the frame, the stub
    returns to its caller with the result in eax and all other registers
    kept. *)
Theorem stub_calls_kernel name u ks G ra :
  name ∈ usys_names → trap_ready W ksym u ks G → uflat u → x_eip u = usym name → (∃ a m, placed usym (utext code u) m true a usys_S) →
  ld32 true u (esp (x_regs u)) = Some ra →
  (∃ f, sys_function name = Some f ∧ syscall_entry (SYS name) = Some f) ∧
  ∃ k s1 u2, steps code k u = Some s1 ∧ u2 = u <| x_regs ::= fun t => t <| eax := SYS name |> |> <| x_eip := x_eip u2 |> ∧ in_trap code ksym u2 64 0 ks s1 ∧
    let F1 := frame_in (x_mem s1) (tf_at (setup_stack ks zero_proc)) in stub_frame name u F1 ∧
    ∀ s2 r, trap_returned W s1 s2 G → frame_in (x_mem s2) (tf_at (setup_stack ks zero_proc)) = F1 <| t_eax := r |> → user_frame_ok F1 →
      (∀ a, utext code s2 a = utext code u a) → ld32 true s2 (esp (x_regs u)) = Some ra →
      ∃ s3, steps code 9 s2 = Some s3 ∧ x_eip s3 = ra ∧ x_regs s3 = (x_regs u) <| eax := r |> <| esp := u32 (esp (x_regs u) + 4) |> ∧ is_user s3 = true ∧ x_mem s3 = x_mem s2.
Proof.
  intros Hn R Hf Hip [a [m Hp]] Hra. destruct (stub_dispatch name Hn) as (f & D1 & D2 & D3). split; [by exists f|].
  apply (stub_placed _ _ _ name) in Hp as (_ & n1 & T1 & n2 & T2 & n3 & T3 & _); [|done]. pose proof R as [[U1 U2 U3 U4 U5] R2 R3 R4 R5].
  set (u1 := u <| x_eip := u32 (x_eip u + n1) |> <| x_regs ::= fun t => t <| eax := SYS name |> |>). set (u2 := u1 <| x_eip := u32 (x_eip u1 + n2) |>).
  assert (u32 (SYS name) = SYS name) as En by (apply Z.mod_small; lia). assert (∀ x, 0 ≤ u32 x < 2 ^ 32) as Hu by (intros; apply Z.mod_pos_bound; lia).
  assert (step code u = Some u1) as E1. { rewrite (step_u code u _ n1 Hf U4) by (rewrite Hip; exact T1). cbn [execute rd_opnd wr_opnd mbind option_bind]. by rewrite En. }
  assert (step code u1 = interrupt (Z.of_nat 64) true None u2) as E2. { rewrite (step_u code u1 (INT T_SYSCALL) n2); [reflexivity|by destruct Hf|apply Hu|]. unfold u1 at 2. cbn [x_eip update]. rewrite Hip. exact T2. }
  assert (trap_ready W ksym u2 ks G) as R'.
  { split; [|done|done|done|]. 2:{ destruct R5 as (k0 & k1 & i & c0 & ? & ? & K). exists k0, k1, i, c0. split; [done|]. split; [done|]. by destruct K. }
    split; [done| |done|apply Hu|done]. intros []; try apply (U2 ECX) || apply (U2 EDX) || apply (U2 EBX) || apply (U2 ESP) || apply (U2 EBP) || apply (U2 ESI) || apply (U2 EDI). cbn. lia. }
  destruct (trap_in W code ksym alltraps_at vectors_at u2 ks G 64 true None R') as (HG & k & s1 & E3 & I); [lia|done|done|].
  exists (2 + k)%nat, s1, u2. split; [cbn [Nat.add steps]; rewrite E1; cbn [mbind option_bind]; by rewrite E2|]. split; [done|]. split; [done|]. cbv zeta. pose proof (it_frame _ _ _ _ _ _ _ I) as HF. cbn [default] in HF.
  set (tf := tf_at _) in *. split; [rewrite HF; split; [done..|]; by destruct u as [[] ? ? ? ? ? ? ? ? ?]|].
  intros s2 r T HF2 Hok Htx Hl. set (F := frame_in (x_mem s2) tf) in *. assert (user_frame_ok F) as HokF by (rewrite HF2; by destruct Hok).
  destruct (trap_out W code ksym alltraps_at u2 64 0 ks s1 s2 G I T HG (writable_kva _ _ _ R3) HokF) as (s3 & Q1 & [P1 P2 P3 P4] & Q3 & Q4). fold tf in P1, P2, P3, P4. fold F in P1, P2, P3, P4.
  assert (t_eip F = u32 (u32 (usym name + n1) + n2)) as Eip by (rewrite HF2, HF, <- Hip; done). assert (t_esp F = esp (x_regs u)) as Esp by (rewrite HF2, HF; done).
  assert (uflat s3) as Hf3. { split; rewrite ?P4; [|done..]. unfold is_user, cpl. rewrite Q4, (ks_pe _ _ _ (td_space _ _ _ _ T)), P4. cbn [cs sel user_seg]. by rewrite (uf_cs _ HokF). }
  assert (x_regs s3 = (x_regs u) <| eax := r |>) as Er. { rewrite P1, HF2, HF. by destruct u as [[] ? ? ? ? ? ? ? ? ?]. }
  assert (ld32 true s3 (esp (x_regs s3)) = Some ra) as Hl3. { rewrite Er. cbn [esp update]. unfold ld32, ld8 in *. by rewrite Q3, Q4. }
  assert (∀ x, utext code s3 x = utext code u x) as Ht3. { intros x. rewrite <- Htx. unfold utext. by rewrite Q3, Q4. }
  set (s4 := s3 <| x_eip ::= fun e => u32 (e + n3) |>). assert (step code s3 = Some (s4 <| x_regs ::= fun t => t <| esp := u32 (esp t + 4) |> |> <| x_eip := ra |>)) as E4.
  { rewrite (step_u code s3 RET n3); [|done|rewrite P2, Eip; apply Hu|by rewrite P2, Eip, Ht3]. apply ret_u; [by destruct Hf3| |done]. unfold s4. cbn [x_regs update]. rewrite Er. apply (U2 ESP). }
  eexists. split; [change 9%nat with (8 + 1)%nat; rewrite (steps_app code 8 1 s2 s3 Q1); cbn [steps]; rewrite E4; reflexivity|].
  unfold s4. cbn [x_eip x_regs x_mem update]. rewrite Er. split; [done|]. split; [done|]. split; [|done]. apply (uf_user _ Hf3).
Qed.
End usys.

(** ** The first program *)

(** The first page of the address space is the physical page at [P], open to
    user code. *)
Definition upage (P : Z) (c : ctl) (m : mem) : Prop := ∀ m', agree (fun p => P ≤ p < P + PGSIZE) m m' →
  ∀ w a, 0 ≤ a < PGSIZE → xlate c m' true w a = Some (P + a).
Definition ptext (P : Z) (code : text) : text := fun a => if (0 <=? a) && (a <? PGSIZE) then code (P + a) else None.

Lemma upage_store P c m a v : upage P c m → 0 ≤ a → a + 4 ≤ PGSIZE → upage P c (store32 m (P + a) v).
Proof.
  intros H H1 H2 m' Ha. apply H. intros p Hp. rewrite (Ha p Hp). apply store32_ne. lia.
Qed.

Ltac up := cbn; repeat (apply upage_store; [|unfold PGSIZE; lia..]); done.

Section initcode.
Context {HW : Hw} {CP : Cpu} {FU : Fuel} {DK : Disk} {LK : Link} (code : text) (P : Z).

Lemma upage_u32 a : 0 ≤ a < PGSIZE → u32 a = a.
Proof. unfold PGSIZE, u32. intros. apply Z.mod_small. lia. Qed.

Lemma push_u v s : uflat s → upage P (x_ctl s) (x_mem s) → 4 ≤ esp (x_regs s) ≤ PGSIZE →
  push v s = Some (s <| x_mem ::= fun m => store32 m (P + (esp (x_regs s) - 4)) v |> <| x_regs ::= fun t => t <| esp := esp t - 4 |> |>).
Proof.
  intros [U1 _ _ U4 U5] Hp He. unfold push. rewrite U5, U1. cbn [negb]. set (e := esp (x_regs s)) in *.
  assert (sp_at s (-4) = e - 4) as ->. { unfold sp_at. fold e. rewrite U4, Z.add_0_l. replace (e + -4) with (e - 4) by lia. by rewrite !(upage_u32 (e - 4)) by lia. }
  assert (∀ j, 0 ≤ j < 4 → wr_at true s (e - 4 + j) = Some (P + (e - 4) + j)) as Hw.
  { intros j Hj. unfold wr_at. rewrite upage_u32 by lia. rewrite (Hp _ (agree_refl _ _)) by lia. f_equal. lia. }
  unfold st32. replace (wr_at true s (e - 4)) with (wr_at true s (e - 4 + 0)) by (f_equal; lia). rewrite !Hw by lia. cbn [mbind option_bind]. rewrite Z.add_0_r. f_equal.
  destruct s as [[] ? ? ? ? ? ? ? ? ?]. unfold add_sp. cbn in *. do 2 f_equal. match goal with |- u32 ?x = _ => replace x with (e - 4) by (unfold e; lia) end. rewrite upage_u32; unfold e in *; lia.
Qed.

Lemma step_p s i n : uflat s → upage P (x_ctl s) (x_mem s) → ptext P code (x_eip s) = Some (true, i, n) →
  step code s = execute i (s <| x_eip ::= fun e => u32 (e + n) |>).
Proof.
  intros Hf Hp. unfold ptext. destruct (Z.leb_spec 0 (x_eip s)), (Z.ltb_spec (x_eip s) PGSIZE); try done. cbn [andb]. intros Hc.
  apply step_u; [done|unfold PGSIZE in *; lia|]. unfold utext, fetch_at. rewrite (Hp _ (agree_refl _ _)) by lia. done.
Qed.

(** The state of the program at its system call exec, with the arguments on
    its stack and the data they point to. *)
Record exec_init (sym : string → Z) (u : xst) : Prop := {
  ei_number : eax (x_regs u) = SYS "exec";
  ei_esp : esp (x_regs u) = PGSIZE - 12;
  ei_arg0 : load32 (x_mem u) (P + (PGSIZE - 8)) = sym "init"%string;
  ei_arg1 : load32 (x_mem u) (P + (PGSIZE - 4)) = sym "argv"%string;
  ei_path : ∀ i b, init_string !! i = Some b → x_mem u (P + (sym "init"%string + Z.of_nat i)) = b;
  ei_argv0 : load32 (x_mem u) (P + sym "argv"%string) = sym "init"%string;
  ei_argv1 : load32 (x_mem u) (P + (sym "argv"%string + 4)) = 0 }.

Definition data_in_page (sym : string → Z) : Prop :=
  0 ≤ sym "init"%string ∧ sym "init"%string + 7 ≤ PGSIZE - 12 ∧ 0 ≤ sym "argv"%string ∧ sym "argv"%string + 8 ≤ PGSIZE - 12.

Lemma initcode_run sym t g f c gd id tr m p : let u := mk_xst t g 0 f c gd id tr m p in
  placed sym (ptext P code) (fun a => m (P + a)) true 0 (initcode_S sym) → data_in_page sym → uflat u → upage P c m → t = frame_regs user_tf PGSIZE →
    let u2 := mk_xst (t <| esp := PGSIZE - 12 |> <| eax := SYS "exec" |>) g (sym "exit"%string) f c gd id tr
      (store32 (store32 (store32 m (P + (PGSIZE - 4)) (sym "argv"%string)) (P + (PGSIZE - 8)) (sym "init"%string)) (P + (PGSIZE - 12)) 0) p in
    steps code 5 u = interrupt 64 true None u2.
Proof.
  intros u Hp Hd Hf Hu ->. cbn in Hp. destruct Hp as (_ & n1 & T1 & n2 & T2 & n3 & T3 & n4 & T4 & n5 & T5 & Hx & n6 & T6 & n7 & T7 & n8 & T8 & Hi & Hb & Ha & H1 & H2 & _).
  assert (∀ t' ip m', uflat (mk_xst t' g ip f c gd id tr m' p)) as Hf' by (intros; by destruct Hf).
  assert (u32 (sym "argv"%string) = sym "argv"%string ∧ u32 (sym "init"%string) = sym "init"%string) as [E1 E2] by (unfold data_in_page, PGSIZE in Hd; split; apply Z.mod_small; lia).
  unfold u. change PGSIZE with 4096 in *. cbn [steps]. rewrite (step_p _ _ n1) by done. xcbn. rewrite E1, push_u; [|done|done|cbn; unfold PGSIZE; lia]. xcbn.
  erewrite (step_p _ _ n2); [|done|up|exact T2]. xcbn. rewrite E2, push_u; [|done|up|cbn; unfold PGSIZE; lia]. xcbn.
  erewrite (step_p _ _ n3); [|done|up|exact T3]. xcbn. rewrite push_u; [|done|up|cbn; unfold PGSIZE; lia]. xcbn.
  erewrite (step_p _ _ n4); [|done|up|exact T4]. xcbn.
  erewrite (step_p _ _ n5); [|done|up|exact T5]. xcbn. change T_SYSCALL with 64. rewrite Hx.
  match goal with |- ?x ≫= _ = _ => transitivity x; [by destruct x|] end. done.
Qed.

Lemma exit_loop sym m v : placed sym (ptext P code) m true 0 (initcode_S sym) → uflat v → upage P (x_ctl v) (x_mem v) → x_eip v = sym "exit"%string →
  ∃ v1 v2, step code v = Some v1 ∧ step code v1 = interrupt 64 true None v2 ∧ eax (x_regs v2) = SYS "exit" ∧
    ∀ v3, uflat v3 → upage P (x_ctl v3) (x_mem v3) → x_eip v3 = x_eip v2 → ∃ v4, step code v3 = Some v4 ∧ x_eip v4 = sym "exit"%string.
Proof.
  intros Hp Hf Hu Hv. cbn in Hp. destruct Hp as (_ & n1 & T1 & n2 & T2 & n3 & T3 & n4 & T4 & n5 & T5 & Hx & n6 & T6 & n7 & T7 & n8 & T8 & _). rewrite <- Hx in *.
  assert (u32 (sym "exit"%string) = sym "exit"%string) as Ex by (rewrite Hx; apply Z.mod_mod; lia).
  set (v1 := v <| x_eip := u32 (x_eip v + n6) |> <| x_regs ::= fun t => t <| eax := SYS "exit" |> |>). exists v1, (v1 <| x_eip := u32 (x_eip v1 + n7) |>). split; [|split; [|split; [done|]]].
  - rewrite (step_p v (MOVL (Imm (SYS "exit")) (Reg EAX)) n6); [done|done|done|by rewrite Hv].
  - rewrite (step_p v1 (INT T_SYSCALL) n7); [done|by destruct Hf|done|]. unfold v1. cbn [x_eip update]. by rewrite Hv.
  - unfold v1. cbn [x_eip update]. rewrite Hv. intros v3 Hf3 Hu3 E3. eexists.
    split; [rewrite (step_p v3 (JMP (sym "exit"%string - (u32 (u32 (sym "exit"%string + n6) + n7) + n8))) n8); [reflexivity|done|done|by rewrite E3]|].
    unfold jump. cbn [x_eip update]. rewrite E3, jump_rel. done.
Qed.

Context (W : Z → Prop) (ksym : string → Z).
Hypothesis alltraps_at : placed ksym (ktext code) (fun _ => 0) true (ksym "alltraps"%string) (alltraps_S ksym ++ trapret_S).
Hypothesis vectors_at : ∃ a, placed ksym (ktext code) (fun _ => 0) true a (vectors_S ksym).

End initcode.
