(* ===== verification/BootAsm.v ===== *)
(** * Starting the processors (bootasm.S, entry.S, entryother.S)

    bootasm.S takes the first processor from the real mode of the BIOS to
    32-bit protected mode and calls bootmain(); entry.S turns on paging and
    jumps to main() at its high address; entryother.S does both for every
    other processor and calls mpenter(). *)

From S2P Require Import Prelude Machine Spinlock CString ProcTable Proc Lifecycle Kstate.
From S2P Require Import Sleeplock Devices Disk Bio Layout Log Inode Console Kbd Fs Kalloc File Vm PageTable Env Exec Bootmain Syscall Trap Boot X86 X86Lemmas Trapasm.
Import CString Kalloc.

(** ** The source *)

(** asm.h *)
Definition SEG_NULLASM : list Z := word16 0 ++ word16 0 ++ [0; 0; 0; 0].
Definition SEG_ASM (type base lim : Z) : list Z :=
  word16 (Z.land (Z.shiftr lim 12) 0xffff) ++ word16 (Z.land base 0xffff) ++
  [Z.land (Z.shiftr base 16) 0xff; Z.lor 0x90 type; Z.lor 0xC0 (Z.land (Z.shiftr lim 28) 0xf); Z.land (Z.shiftr base 24) 0xff].

(** memlayout.h: for the assembler, without casts. *)
Definition V2P_WO (x : Z) : Z := x - KERNBASE.

Definition kcode_sel : Z := Z.shiftl (Z.of_nat SEG_KCODE) 3.
Definition kdata_sel : Z := Z.shiftl (Z.of_nat SEG_KDATA) 3.

Section source.
Context (sym : string → Z).

(** The bootstrap table that bootasm.S and entryother.S both end with. *)
Definition gdt_S : list item :=
  [Align 4;
   Lbl "gdt";
   Bytes SEG_NULLASM;
   Bytes (SEG_ASM (Z.lor STA_X STA_R) 0x0 0xffffffff);
   Bytes (SEG_ASM STA_W 0x0 0xffffffff);
   Lbl "gdtdesc";
   Bytes (word16 (sym "gdtdesc" - sym "gdt" - 1));
   Bytes (long (sym "gdt"))]%string.

(** What both do should the C code return. *)
Definition hang_S : list item :=
  [Ins (MOVW (Imm 0x8a00) EAX);
   Ins (MOVW (Reg EAX) EDX);
   Ins OUTW;
   Ins (MOVW (Imm 0x8ae0) EAX);
   Ins OUTW;
   Lbl "spin";
   Rel JMP (sym "spin")]%string.

Definition bootasm_S : list item :=
  [Code16;
   Lbl "start";
   Ins CLI;
   Ins (XORW EAX EAX);
   Ins (MOVS EAX DS);
   Ins (MOVS EAX ES);
   Ins (MOVS EAX SS);
   Lbl "seta20.1";
   Ins (INB 0x64);
   Ins (TESTB 0x2 EAX);
   Rel JNZ (sym "seta20.1");
   Ins (MOVB 0xd1 EAX);
   Ins (OUTB 0x64);
   Lbl "seta20.2";
   Ins (INB 0x64);
   Ins (TESTB 0x2 EAX);
   Rel JNZ (sym "seta20.2");
   Ins (MOVB 0xdf EAX);
   Ins (OUTB 0x60);
   Ins (LGDT (sym "gdtdesc"));
   Ins (MOVFC CR0 EAX);
   Ins (ORL CR0_PE EAX);
   Ins (MOVTC EAX CR0);
   Ins (LJMP kcode_sel (sym "start32"));
   Code32;
   Lbl "start32";
   Ins (MOVW (Imm kdata_sel) EAX);
   Ins (MOVS EAX DS);
   Ins (MOVS EAX ES);
   Ins (MOVS EAX SS);
   Ins (MOVW (Imm 0) EAX);
   Ins (MOVS EAX FS);
   Ins (MOVS EAX GS);
   Ins (MOVL (Imm (sym "start")) (Reg ESP));
   Rel CALL (sym "bootmain")]%string ++ hang_S ++ gdt_S.

Definition entry_S : list item :=
  [Lbl "entry";
   Ins (MOVFC CR4 EAX);
   Ins (ORL CR4_PSE EAX);
   Ins (MOVTC EAX CR4);
   Ins (MOVL (Imm (V2P_WO (sym "entrypgdir"))) (Reg EAX));
   Ins (MOVTC EAX CR3);
   Ins (MOVFC CR0 EAX);
   Ins (ORL (Z.lor CR0_PG CR0_WP) EAX);
   Ins (MOVTC EAX CR0);
   Ins (MOVL (Imm (sym "stack" + KSTACKSIZE)) (Reg ESP));
   Ins (MOVL (Imm (sym "main")) (Reg EAX));
   Ins (JMPR EAX)]%string.
(** The ELF entry point of the kernel. *)
Definition start_addr : Z := V2P_WO (sym "entry"%string).
(** The multiboot header of entry.S. *)
Definition multiboot_header : list Z := long 0x1badb002 ++ long 0 ++ long (- 0x1badb002 - 0).

Definition entryother_S : list item :=
  [Code16;
   Lbl "start";
   Ins CLI;
   Ins (XORW EAX EAX);
   Ins (MOVS EAX DS);
   Ins (MOVS EAX ES);
   Ins (MOVS EAX SS);
   Ins (LGDT (sym "gdtdesc"));
   Ins (MOVFC CR0 EAX);
   Ins (ORL CR0_PE EAX);
   Ins (MOVTC EAX CR0);
   Ins (LJMP kcode_sel (sym "start32"));
   Code32;
   Lbl "start32";
   Ins (MOVW (Imm kdata_sel) EAX);
   Ins (MOVS EAX DS);
   Ins (MOVS EAX ES);
   Ins (MOVS EAX SS);
   Ins (MOVW (Imm 0) EAX);
   Ins (MOVS EAX FS);
   Ins (MOVS EAX GS);
   Ins (MOVFC CR4 EAX);
   Ins (ORL CR4_PSE EAX);
   Ins (MOVTC EAX CR4);
   Ins (MOVL (Mem (sym "start" - 12) None) (Reg EAX));
   Ins (MOVTC EAX CR3);
   Ins (MOVFC CR0 EAX);
   Ins (ORL (Z.lor (Z.lor CR0_PE CR0_PG) CR0_WP) EAX);
   Ins (MOVTC EAX CR0);
   Ins (MOVL (Mem (sym "start" - 4) None) (Reg ESP));
   Ins (CALLM (sym "start" - 8))]%string ++ hang_S ++ gdt_S.
End source.

(** ** The two descriptions of a segment agree *)

Lemma lor_nibble b : 0 ≤ b < 16 → Z.lor 0x90 b = 0x90 + b ∧ Z.lor 0xC0 b = 0xC0 + b.
Proof. intros Hb. rewrite <- (Z2Nat.id b) by lia. assert (Z.to_nat b < 16)%nat as Hn by lia. generalize dependent (Z.to_nat b). intros n Hn. do 16 (destruct n as [|n]; [done|]). lia. Qed.
Lemma long_bytes a b c d v : 0 ≤ a < 256 → 0 ≤ b < 256 → 0 ≤ c < 256 → 0 ≤ d < 256 → v = a + 256 * (b + 256 * (c + 256 * d)) → [a; b; c; d] = long v.
Proof.
  intros Ha Hb Hc Hd ->. pose proof (le_encode_decode [a; b; c; d]) as E. cbn [le_decode length] in E. unfold long. rewrite <- E at 1; [f_equal; lia|]. unfold is_bytes. by rewrite !Forall_cons, Forall_nil.
Qed.

(** The macro of asm.h and the macro of mmu.h give the same descriptor. *)
Lemma SEG_ASM_SEG type base lim : 0 ≤ type < 16 → 0 ≤ base < 2 ^ 32 → 0 ≤ lim < 2 ^ 32 →
  let w := segdesc_words (SEG type base lim 0) in SEG_ASM type base lim = long (fst w) ++ long (snd w).
Proof.
  intros Ht Hb Hl w. unfold w, SEG_ASM, segdesc_words, SEG, long. cbn [lim_15_0 base_15_0 base_23_16 seg_type seg_s seg_dpl seg_p lim_19_16 avl rsv1 db g base_31_24 fst snd].
  assert (∀ x k, 0 ≤ k → Z.land x (Z.ones k) = x mod 2 ^ k) as Hm by (intros; by apply Z.land_ones).
  change 0xffff with (Z.ones 16). change 0xff with (Z.ones 8). change 0xf with (Z.ones 4). rewrite !Hm, !Z.shiftr_div_pow2 by lia. rewrite (proj1 (lor_nibble _ Ht)), (proj2 (lor_nibble (_ mod 2 ^ 4) (Z.mod_pos_bound _ (2 ^ 4) eq_refl))).
  set (x := (lim / 2 ^ 12) mod 2 ^ 16). set (y := base mod 2 ^ 16). set (z := (base / 2 ^ 16) mod 2 ^ 8). set (l := (lim / 2 ^ 28) mod 2 ^ 4).
  assert ((base / 2 ^ 24) mod 2 ^ 8 = base / 2 ^ 24) as -> by (apply Z.mod_small; split; [apply Z.div_pos; lia|apply Z.div_lt_upper_bound; lia]). set (b := base / 2 ^ 24).
  assert (0 ≤ x < 65536 ∧ 0 ≤ y < 65536 ∧ 0 ≤ z < 256 ∧ 0 ≤ l < 16) as (Hx & Hy & Hz & Hl') by (repeat split; apply Z.mod_pos_bound; lia).
  assert (0 ≤ b < 256) as Hb' by (unfold b; split; [apply Z.div_pos; lia|apply Z.div_lt_upper_bound; lia]). clearbody x y z l b. unfold word16. cbn [app].
  change (?a :: ?b :: ?c :: ?d :: ?l) with ([a; b; c; d] ++ l). pose proof (Z.div_mod x 256 ltac:(lia)). pose proof (Z.div_mod y 256 ltac:(lia)).
  assert (∀ v, 0 ≤ v < 65536 → 0 ≤ v mod 256 < 256 ∧ (v / 256) mod 256 = v / 256 ∧ 0 ≤ v / 256 < 256) as Hq.
  { intros v Hv. assert (0 ≤ v / 256 < 256) by (split; [apply Z.div_pos; lia|apply Z.div_lt_upper_bound; lia]). split; [apply Z.mod_pos_bound; lia|]. split; [by apply Z.mod_small|done]. }
  destruct (Hq x Hx) as (? & -> & ?), (Hq y Hy) as (? & -> & ?). change (Z.ones 4) with 15. f_equal; apply long_bytes; lia.
Qed.

(** ** Running without paging *)

Section unpaged.
Context {HW : Hw} {CP : Cpu}.
Implicit Types (s : xst) (c : ctl) (m : mem) (g : segs).

Lemma has_lor a b f : has (Z.lor a b) f = has a f || has b f.
Proof.
  unfold has. rewrite Z.land_lor_distr_l. destruct (Z.eqb_spec (Z.lor (Z.land a f) (Z.land b f)) 0) as [E|E].
  - apply Z.lor_eq_0_iff in E as [-> ->]. done.
  - destruct (Z.eqb_spec (Z.land a f) 0) as [E1|], (Z.eqb_spec (Z.land b f) 0) as [E2|]; try done. rewrite E1, E2 in E. done.
Qed.

Lemma xlate_off c m u w a : has (c_cr0 c) CR0_PG = false → xlate c m u w a = Some a.
Proof. intros H. unfold xlate. by rewrite H. Qed.

(** The linear address of the next instruction. *)
Lemma lin_next B ip a n : u32 (B + ip) = a → u32 (B + u32 (ip + n)) = u32 (a + n).
Proof. intros <-. unfold u32. rewrite Z.add_mod_idemp_r, Z.add_mod_idemp_l by lia. f_equal. lia. Qed.
Lemma lin_zero x : u32 (0 + u32 x) = u32 x.
Proof. apply Z.mod_mod. lia. Qed.

Lemma step_r code md i n a t g ip f c gd id tr m p : has (c_cr0 c) CR0_PG = false → u32 (sbase (cs g) + ip) = a → big (cs g) = md → code a = Some (md, i, n) →
  step code (mk_xst t g ip f c gd id tr m p) = execute i (mk_xst t g (u32 (ip + n)) f c gd id tr m p).
Proof.
  intros H Ha Hm Hc. unfold step, fetch, fetch_at. cbn [x_ctl x_segs x_eip x_mem]. rewrite xlate_off, Ha by done. cbn [mbind option_bind]. rewrite Hc. cbn [mbind option_bind].
  rewrite Hm. by destruct md.
Qed.

Lemma ld8_r s u a : has (c_cr0 (x_ctl s)) CR0_PG = false → 0 ≤ a < 2 ^ 32 → ld8 u s a = Some (x_mem s a).
Proof. intros H Ha. unfold ld8. assert (u32 a = a) as -> by (apply Z.mod_small; lia). by rewrite xlate_off. Qed.
Lemma ld32_r s u a : has (c_cr0 (x_ctl s)) CR0_PG = false → 0 ≤ a → a + 4 ≤ 2 ^ 32 → ld32 u s a = Some (load32 (x_mem s) a).
Proof. intros H H1 H2. unfold ld32. rewrite !ld8_r by (done || lia). done. Qed.
Lemma ld16_r s u a : has (c_cr0 (x_ctl s)) CR0_PG = false → 0 ≤ a → a + 2 ≤ 2 ^ 32 → ld16 u s a = Some (load16 (x_mem s) a).
Proof. intros H H1 H2. unfold ld16. rewrite !ld8_r by (done || lia). done. Qed.

Lemma push_r v t g ip f c gd id tr m p : has (c_cr0 c) CR0_PG = false → sbase (ss g) = 0 → big (ss g) = true → 4 ≤ esp t < 2 ^ 32 →
  push v (mk_xst t g ip f c gd id tr m p) = Some (mk_xst (t <| esp := esp t - 4 |>) g ip f c gd id tr (store32 m (esp t - 4) v) p).
Proof.
  intros H Hb Hg He. unfold push. cbn [x_segs]. rewrite Hg. cbn [negb]. unfold sp_at. cbn [x_segs x_regs]. rewrite Hb, lin_zero. replace (esp t + -4) with (esp t - 4) by lia.
  assert (∀ x, 0 ≤ x < 2 ^ 32 → u32 x = x) as Hu by (intros; by apply Z.mod_small). rewrite Hu by lia. unfold st32, wr_at. cbn [x_ctl x_mem]. rewrite !xlate_off by done. cbn [mbind option_bind]. rewrite !Hu by lia.
  unfold add_sp. cbn. replace (esp t + -4) with (esp t - 4) by lia. rewrite Hu by lia. done.
Qed.

Lemma ld_seg_real s v k : protected (x_ctl s) = false → v mod 2 ^ 16 = k → ld_seg s v = Some (mk_seg k (16 * k) false).
Proof. intros H <-. unfold ld_seg. by rewrite H. Qed.
End unpaged.

(** ** The page table of the entry code *)

(** The array [entrypgdir] of main.c is at a physical address. *)
Definition pgdir_at (m : mem) (a : Z) : Prop := ∀ i e, entrypgdir !! i = Some e → load32 m (a + 4 * Z.of_nat i) = e.
(** It maps the first 4 MB of memory at 0 and at KERNBASE. *)
Definition boot_map (a : Z) : option Z :=
  if a <? 0x400000 then Some a else if (KERNBASE <=? a) && (a <? KERNBASE + 0x400000) then Some (a - KERNBASE) else None.

Lemma entrypgdir_at i : (i < 1024)%nat → entrypgdir !! i = Some (if (i =? 0)%nat || (i =? 512)%nat then 0x83 else 0).
Proof.
  intros Hi. unfold entrypgdir. change (Z.to_nat (Z.shiftr KERNBASE 22)) with 512%nat. change NPDENTRIES with 1024%nat.
  destruct (Nat.eqb_spec i 512) as [->|H5]; [by rewrite list_lookup_insert_eq by (rewrite length_insert, length_replicate; lia)|]. rewrite list_lookup_insert_ne by done.
  destruct (Nat.eqb_spec i 0) as [->|H0]; [by rewrite list_lookup_insert_eq by (rewrite length_replicate; lia)|]. rewrite list_lookup_insert_ne by done. by rewrite lookup_replicate_2.
Qed.

Lemma entry_xlate c m w a : has (c_cr0 c) CR0_PG = true → has (c_cr4 c) CR4_PSE = true → pgdir_at m (PTE_ADDR (c_cr3 c)) → 0 ≤ a < 2 ^ 32 →
  xlate c m false w a = boot_map a.
Proof.
  intros H0 H4 Hp Ha. unfold xlate. rewrite H0. cbn [negb]. rewrite PDX_div, Z.div_div by lia. change (4096 * 1024) with 4194304. set (i := a / 4194304).
  assert (0 ≤ i < 1024) as Hi by (unfold i; split; [apply Z.div_pos; lia|apply Z.div_lt_upper_bound; lia]).
  pose proof (Hp (Z.to_nat i) _ (entrypgdir_at (Z.to_nat i) ltac:(lia))) as E. rewrite Z2Nat.id in E by lia. rewrite E.
  pose proof (Z.div_mod a 4194304 ltac:(lia)) as Hd. fold i in Hd. pose proof (Z.mod_pos_bound a 4194304 ltac:(lia)). unfold boot_map. change KERNBASE with (4194304 * 512).
  assert (allowed c false w 131 = true) as Hal by (unfold allowed; change (has 131 PTE_W) with true; by rewrite implb_true_r).
  destruct (Nat.eqb_spec (Z.to_nat i) 0); [|destruct (Nat.eqb_spec (Z.to_nat i) 512)]; cbn [orb].
  - change (has 131 PTE_P) with true. change (has 131 PTE_PS) with true. rewrite H4, Hal. cbn [negb andb]. destruct (Z.ltb_spec a 0x400000); [|lia]. f_equal. change (2 ^ 22) with 4194304. change (Z.land 131 _) with 0. lia.
  - change (has 131 PTE_P) with true. change (has 131 PTE_PS) with true. rewrite H4, Hal. cbn [negb andb]. destruct (Z.ltb_spec a 0x400000); [lia|].
    rewrite (proj2 (Z.leb_le _ _)), (proj2 (Z.ltb_lt a _)) by lia. cbn [andb]. f_equal. change (2 ^ 22) with 4194304. change (Z.land 131 _) with 0. lia.
  - change (has 0 PTE_P) with false. cbn [negb]. destruct (Z.ltb_spec a 0x400000); [lia|]. destruct (Z.leb_spec (4194304 * 512) a), (Z.ltb_spec a (4194304 * 512 + 0x400000)); try done. lia.
Qed.

(** ** entry.S *)

(** The kernel as it is loaded: linked at KERNBASE, in the first 4 MB. *)
Definition ltext (code : text) : text := fun a =>
  if (KERNBASE <=? a) && (a <? KERNBASE + 0x400000) then code (a - KERNBASE) else None.

Section entry.
Context {HW : Hw} {CP : Cpu} (code : text) (sym : string → Z).

Lemma ltext_range a r : ltext code a = Some r → KERNBASE ≤ a < KERNBASE + 0x400000 ∧ code (a - KERNBASE) = Some r.
Proof. unfold ltext. destruct (Z.leb_spec KERNBASE a), (Z.ltb_spec a (KERNBASE + 0x400000)); try done. Qed.


(** One instruction, at a low address, with or without paging. *)
Lemma step_low i n a t g f c gd id tr m p : (∀ x, 0 ≤ x < 0x400000 → xlate c m false false x = Some x) → kflat g → ltext code a = Some (true, i, n) →
  step code (mk_xst t g (a - KERNBASE) f c gd id tr m p) = execute i (mk_xst t g (u32 (a - KERNBASE + n)) f c gd id tr m p).
Proof.
  intros Hx Hg [Ha Hc]%ltext_range. unfold step, fetch, fetch_at. set (s := mk_xst _ _ _ _ _ _ _ _ _ _). rewrite (kflat_not_user s Hg).
  cbn [x_ctl x_segs x_eip x_mem s]. rewrite (kf_cs _ Hg), Z.add_0_l. assert (u32 (a - KERNBASE) = a - KERNBASE) as -> by (apply Z.mod_small; lia). rewrite Hx by lia. cbn [mbind option_bind].
  rewrite Hc. cbn [mbind option_bind]. by rewrite (kf_cbig _ Hg).
Qed.
Lemma low_next a n r : ltext code (u32 (a + n)) = Some r → u32 (a - KERNBASE + n) = u32 (a + n) - KERNBASE.
Proof.
  intros [H _]%ltext_range. replace (a - KERNBASE + n) with (a + n - KERNBASE) by lia. unfold u32 at 1.
  rewrite <- (Zminus_mod_idemp_l (a + n)). fold (u32 (a + n)). apply Z.mod_small. unfold KERNBASE in *. lia.
Qed.

Ltac estep H T Tn := erewrite step_low by (first [exact H | eapply H; reflexivity | eassumption | exact T]); rewrite (low_next _ _ _ Tn); xcbn.

(** The kernel as bootmain() loaded it and entered it: protected mode without
    paging, at the physical address of entry. *)
Record entered (s : xst) : Prop := {
  en_at : x_eip s = start_addr sym;
  en_flat : kflat (x_segs s);
  en_nopage : has (c_cr0 (x_ctl s)) CR0_PG = false;
  en_text : placed sym (ltext code) (fun _ => 0) true (sym "entry"%string) (entry_S sym);
  en_pgdir : sym "entrypgdir"%string mod 4096 = 0 ∧ KERNBASE ≤ sym "entrypgdir"%string < KERNBASE + 0x400000;
  en_table : pgdir_at (x_mem s) (V2P_WO (sym "entrypgdir"%string));
  en_syms : 0 ≤ sym "main"%string < 2 ^ 32 ∧ 0 ≤ sym "stack"%string + KSTACKSIZE < 2 ^ 32 }.

(** C36. entry turns on paging with the table [entrypgdir] and jumps to main()
    at its high address, on the boot stack: the first 4 MB of physical memory
    are then mapped at 0, where entry itself runs on until the jump, and at
    KERNBASE, and nothing else is mapped.  Memory is not changed. *)
Theorem entry_reaches_main s : entered s →
  ∃ s', steps code 11 s = Some s' ∧ x_eip s' = sym "main"%string ∧ esp (x_regs s') = sym "stack"%string + KSTACKSIZE ∧
    x_mem s' = x_mem s ∧ x_segs s' = x_segs s ∧
    (∀ w a, 0 ≤ a < 2 ^ 32 → xlate (x_ctl s') (x_mem s') false w a = boot_map a) ∧
    has (c_cr0 (x_ctl s')) CR0_WP = true ∧
    (KERNBASE ≤ sym "main"%string < KERNBASE + 0x400000 → fetch code s' = code (sym "main"%string - KERNBASE)).
Proof.
  intros [E1 E2 E3 E4 E5 E6 E7]. destruct s as [t g ip f c gd id tr m p]. cbn [x_eip x_segs x_ctl x_mem] in *. subst ip. unfold start_addr, V2P_WO.
  cbn in E4. destruct E4 as (_ & n1 & T1 & n2 & T2 & n3 & T3 & n4 & T4 & n5 & T5 & n6 & T6 & n7 & T7 & n8 & T8 & n9 & T9 & n10 & T10 & n11 & T11 & _).
  assert (∀ c', c_cr0 c' = c_cr0 c → ∀ x, 0 ≤ x < 0x400000 → xlate c' m false false x = Some x) as Hoff by (intros c' Ec x _; apply xlate_off; by rewrite Ec).
  assert (∀ x, 0 ≤ x < 2 ^ 32 → u32 x = x) as Hu by (intros; by apply Z.mod_small).
  set (c' := mk_ctl (Z.lor (c_cr0 c) (u32 (Z.lor CR0_PG CR0_WP))) (sym "entrypgdir"%string - KERNBASE) (Z.lor (c_cr4 c) (u32 CR4_PSE))).
  assert (has (c_cr0 c') CR0_WP = true) as Hwp by (cbn [c_cr0 c']; rewrite has_lor; apply orb_true_iff; right; reflexivity).
  assert (∀ w a, 0 ≤ a < 2 ^ 32 → xlate c' m false w a = boot_map a) as Hon.
  { intros w a Ha. apply entry_xlate; [unfold c'; cbn [c_cr0]; rewrite has_lor; apply orb_true_iff; right; reflexivity|unfold c'; cbn [c_cr4]; rewrite has_lor; apply orb_true_iff; right; reflexivity| |done].
    cbn [c_cr3 c']. assert (PTE_ADDR (sym "entrypgdir"%string - KERNBASE) = sym "entrypgdir"%string - KERNBASE) as ->; [|done].
    rewrite PTE_ADDR_div. destruct E5 as [Hm _]. apply Z.mod_divide in Hm as [k ->]; [|lia]. unfold KERNBASE. replace (k * 4096 - 2147483648) with ((k - 524288) * 4096) by lia. rewrite Z.div_mul by lia. lia. }
  assert (∀ x, 0 ≤ x < 0x400000 → xlate c' m false false x = Some x) as Hlow. { intros x Hx. rewrite Hon by lia. unfold boot_map. by rewrite (proj2 (Z.ltb_lt _ _)) by lia. }
  cbn [steps]. estep Hoff T1 T2. estep Hoff T2 T3. estep Hoff T3 T4. estep Hoff T4 T5. unfold V2P_WO. rewrite (Hu (_ - KERNBASE)) by (unfold KERNBASE in *; lia).
  estep Hoff T5 T6. estep Hoff T6 T7. estep Hoff T7 T8. estep Hoff T8 T9. estep Hlow T9 T10. rewrite (Hu (_ + KSTACKSIZE)) by lia. estep Hlow T10 T11. rewrite (Hu (sym _)) by lia.
  rewrite (step_low _ _ _ _ _ _ _ _ _ _ _ _ Hlow E2 T11). xcbn. eexists. split; [reflexivity|]. cbn [x_eip x_regs esp x_mem x_segs x_ctl]. do 4 (split; [done|]). split; [exact Hon|]. split; [exact Hwp|].
  intros Hmain. unfold fetch, fetch_at. rewrite kflat_not_user by done. cbn [x_segs x_eip x_ctl x_mem]. rewrite (kf_cs _ E2), Z.add_0_l, (Hu (sym _)) by lia. change (x_ctl _) with c'.
  rewrite Hon by lia. unfold boot_map. destruct (Z.ltb_spec (sym "main"%string) 0x400000); [unfold KERNBASE in *; lia|]. rewrite (proj2 (Z.leb_le _ _)), (proj2 (Z.ltb_lt _ (KERNBASE + _))) by lia. done.
Qed.
End entry.

(** ** The bootstrap segments *)

(** The descriptors of the table of bootasm.S and entryother.S, as words. *)
Record boot_gdt (m : mem) (a : Z) : Prop := {
  bg_range : 0 ≤ a ∧ a + 30 ≤ 0x10000;
  bg_code : load32 m (a + 8) = 0x0000ffff ∧ load32 m (a + 12) = 0x00cf9a00;
  bg_data : load32 m (a + 16) = 0x0000ffff ∧ load32 m (a + 20) = 0x00cf9200;
  bg_limit : load16 m (a + 24) = 23;
  bg_base : load32 m (a + 26) = a }.

Lemma bytes_word (m : mem) a d o v : 0 ≤ v < 2 ^ 32 → (∀ i b, d !! i = Some b → m (a + Z.of_nat i) = b) → take 4 (drop o d) = long v → load32 m (a + Z.of_nat o) = v.
Proof.
  intros Hv H E. apply load32_bytes; [done|]. intros i b Hb. assert (i < 4)%nat as Hi by (apply lookup_lt_Some in Hb; unfold long in Hb; by rewrite length_le_encode in Hb).
  rewrite <- E, lookup_take_lt, lookup_drop in Hb by done. replace (a + Z.of_nat o + Z.of_nat i) with (a + Z.of_nat (o + i)) by lia. by apply H.
Qed.

Lemma gdt_placed sym at_ m md a : placed sym at_ m md a (gdt_S sym) → sym "gdt"%string + 30 ≤ 0x10000 → boot_gdt m (sym "gdt"%string) ∧ sym "gdtdesc"%string = sym "gdt"%string + 24.
Proof.
  intros (Hg & _ & B1 & B2 & Hd & B3 & B4 & _) Hr. rewrite <- Hg in B1, B2, B3, B4, Hd. assert (0 ≤ sym "gdt"%string) as H0 by (rewrite Hg; apply Z.mod_pos_bound; lia). set (G := sym "gdt"%string) in *.
  assert (∀ x, 0 ≤ x < 2 ^ 32 → u32 x = x) as Hu by (intros; by apply Z.mod_small).
  change (Z.of_nat (length SEG_NULLASM)) with 8 in *. change (Z.of_nat (length (SEG_ASM _ _ _))) with 8 in *. rewrite (Hu (G + 8)), (Hu (G + 8 + 8)), (Hu (G + 8 + 8 + 8)) in * by lia.
  assert (sym "gdtdesc"%string = G + 24) as Hd' by lia. split; [|done]. rewrite Hd' in B3, B4. replace (G + 24 - G - 1) with 23 in B3 by lia. replace (G + 8 + 8 + 8) with (G + 24) in * by lia.
  change (Z.of_nat (length (word16 _))) with 2 in B4. rewrite (Hu (G + 24 + 2)) in B4 by lia. split; [lia| | | |].
  - split; [replace (G + 8) with (G + 8 + Z.of_nat 0) by lia|replace (G + 12) with (G + 8 + Z.of_nat 4) by lia]; (eapply bytes_word; [done|exact B1|reflexivity]).
  - split; [replace (G + 16) with (G + 8 + 8 + Z.of_nat 0) by lia|replace (G + 20) with (G + 8 + 8 + Z.of_nat 4) by lia]; (eapply bytes_word; [done|exact B2|reflexivity]).
  - pose proof (B3 0%nat _ eq_refl) as E0. pose proof (B3 1%nat _ eq_refl) as E1. change (Z.of_nat 0) with 0 in E0. change (Z.of_nat 1) with 1 in E1. unfold load16. rewrite Z.add_0_r in E0. by rewrite E0, E1.
  - replace (G + 26) with (G + 24 + 2 + Z.of_nat 0) by lia. eapply bytes_word; [lia|exact B4|by rewrite drop_0, firstn_all2 by (unfold long; rewrite length_le_encode; lia)].
Qed.

Section boot_segs.
Context {HW : Hw} {CP : Cpu}.

Lemma ld_seg_boot s a v k : boot_gdt (x_mem s) a → x_gdtr s = (a, 23) → protected (x_ctl s) = true → has (c_cr0 (x_ctl s)) CR0_PG = false → v mod 2 ^ 16 = k → k = 0 ∨ k = 8 ∨ k = 16 →
  ld_seg s v = Some (mk_seg k 0 true).
Proof.
  intros [B1 [B2 B3] [B4 B5] _ _] Hg Hp Hpg Hv Hk. unfold ld_seg. rewrite Hp, Hv. cbn [negb]. unfold ld_desc. rewrite Hg. cbn [fst snd].
  destruct Hk as [->|[->| ->]]; [done| |].
  - change (8 <? 4) with false. change (Z.testbit 8 2) with false. change (8 * Z.shiftr 8 3) with 8. change (23 <? 8 + 7) with false. cbn [negb]. rewrite !ld32_r by (done || lia). replace (a + 8 + 4) with (a + 12) by lia. rewrite B2, B3. done.
  - change (16 <? 4) with false. change (Z.testbit 16 2) with false. change (8 * Z.shiftr 16 3) with 16. change (23 <? 16 + 7) with false. cbn [negb]. rewrite !ld32_r by (done || lia). replace (a + 16 + 4) with (a + 20) by lia. rewrite B4, B5. done.
Qed.

Lemma lgdt_boot s a : boot_gdt (x_mem s) a → sbase (ds (x_segs s)) = 0 → has (c_cr0 (x_ctl s)) CR0_PG = false →
  lgdt (a + 24) s = Some (s <| x_gdtr := (a, 23) |>).
Proof.
  intros [B1 _ _ B4 B5] Hd Hpg. unfold lgdt, ea. rewrite Hd. rewrite !Z.add_0_r, !Z.add_0_l.
  assert (∀ x, 0 ≤ x < 2 ^ 32 → u32 x = x) as Hu by (intros; by apply Z.mod_small). rewrite !Hu by (rewrite ?Hu; lia).
  rewrite ld16_r, ld32_r by (done || lia). cbn [mbind option_bind]. rewrite B4. replace (a + 24 + 2) with (a + 26) by lia. rewrite B5. by rewrite Z.mod_small by lia; destruct (big _).
Qed.
End boot_segs.

(** ** bootasm.S *)

(** The keyboard controller: bit 1 of its status says that it has not yet taken
    the last byte. *)
Definition kbc_busy {HW : Hw} (l : list io) : bool := negb (Z.land (u8 (hw_in l 0x64)) 0x2 =? 0).
Definition kbc_poll {HW : Hw} (l : list io) : list io := In 0x64 (u8 (hw_in l 0x64)) :: l.

Lemma low_w w a v : 0 ≤ w → (a - a mod 2 ^ w + v mod 2 ^ w) mod 2 ^ w = v mod 2 ^ w.
Proof.
  intros Hw. pose proof (Z.div_mod a (2 ^ w) ltac:(lia)). replace (a - a mod 2 ^ w + v mod 2 ^ w) with (v mod 2 ^ w + a / 2 ^ w * 2 ^ w) by lia.
  rewrite Z.mod_add by lia. apply Z.mod_mod. lia.
Qed.
Lemma testbit_set_flag i b e j : 0 ≤ i → 0 ≤ j → Z.testbit (set_flag i b e) j = if i =? j then b else Z.testbit e j.
Proof.
  intros Hi Hj. unfold set_flag. destruct b; rewrite ?Z.lor_spec, ?Z.ldiff_spec, Z.pow2_bits_eqb by lia; destruct (i =? j); by rewrite ?orb_true_r, ?orb_false_r, ?andb_false_r, ?andb_true_r.
Qed.

#[local] Arguments logic_flags : simpl never.

Ltac bseg k := erewrite (ld_seg_boot _ _ _ k) by (first [eassumption | done | apply (low_w 16 _ k); lia | lia]); xcbn.
Ltac rseg := rewrite (ld_seg_real _ _ 0) by (done || apply (low_w 16 _ 0); lia); xcbn.

Section bootasm.
Context {HW : Hw} {CP : Cpu} (code : text).

Lemma zf_logic w r e : Z.testbit (logic_flags w r e) 6 = (r =? 0).
Proof. unfold logic_flags, result_flags. rewrite !testbit_set_flag by lia. done. Qed.

Lemma logic_if w r e : Z.testbit (logic_flags w r e) 9 = Z.testbit e 9.
Proof. unfold logic_flags, result_flags. rewrite !testbit_set_flag by lia. done. Qed.

Section polling.
Context (a n1 n2 n3 : Z) (g : segs) (c : ctl) (gd id : Z * Z) (tr : Z) (m : mem).
Hypotheses (Hpg : has (c_cr0 c) CR0_PG = false) (Hcs : sbase (cs g) = 0) (Hbig : big (cs g) = false) (Ha : u32 a = a).
Hypothesis T1 : code a = Some (false, INB 0x64, n1).
Hypothesis T2 : code (u32 (a + n1)) = Some (false, TESTB 0x2 EAX, n2).
Hypothesis T3 : code (u32 (u32 (a + n1) + n2)) = Some (false, JNZ (a - (u32 (u32 (a + n1) + n2) + n3)), n3).

Lemma kbc_round l t f : ∃ e f', Z.testbit f' 9 = Z.testbit f 9 ∧ steps code 3 (mk_xst t g a f c gd id tr m l) =
  Some (mk_xst (t <| eax := e |>) g (if kbc_busy l then a else u32 (u32 (u32 (a + n1) + n2) + n3)) f' c gd id tr m (kbc_poll l)).
Proof.
  cbn [steps]. eexists _, _. split; [apply (logic_if 8)|]. erewrite (step_r code false _ _ a) by (first [exact T1 | done | by rewrite Hcs, Z.add_0_l]). xcbn.
  erewrite (step_r code false _ _ (u32 (a + n1))) by (first [exact T2 | done | by rewrite Hcs, lin_zero]). xcbn.
  erewrite (step_r code false _ _ (u32 (u32 (a + n1) + n2))) by (first [exact T3 | done | by rewrite Hcs, lin_zero]). cbn [execute mbind option_bind]. unfold zf. cbn [x_flags]. rewrite zf_logic, low_w by lia.
  assert (u8 (hw_in l 0x64) mod 2 ^ 8 = u8 (hw_in l 0x64)) as -> by (unfold u8; by rewrite Z.mod_mod by lia). unfold kbc_busy. destruct (_ =? 0); cbn [negb]; [reflexivity|].
  unfold jump. cbn. rewrite jump_rel, Ha. reflexivity.
Qed.

(** A loop that polls the controller until it is ready. *)
Lemma kbc_loop n l t f : kbc_busy (Nat.iter n kbc_poll l) = false → ∃ k j e f', Z.testbit f' 9 = Z.testbit f 9 ∧
  steps code k (mk_xst t g a f c gd id tr m l) = Some (mk_xst (t <| eax := e |>) g (u32 (u32 (u32 (a + n1) + n2) + n3)) f' c gd id tr m (Nat.iter (S j) kbc_poll l)).
Proof.
  revert l t f. induction n as [|n IH]; intros l t f Hb; destruct (kbc_round l t f) as (e & f' & Hif & E); destruct (kbc_busy l) eqn:Hl.
  - cbn in Hb. by rewrite Hl in Hb.
  - exists 3%nat, 0%nat, e, f'. done.
  - rewrite Nat.iter_succ_r in Hb. destruct (IH (kbc_poll l) (t <| eax := e |>) f' Hb) as (k & j & e2 & f2 & Hif2 & E2). exists (3 + k)%nat, (S j), e2, f2.
    split; [by rewrite Hif2|]. rewrite (steps_app _ _ _ _ _ E), E2. by rewrite (Nat.iter_succ_r (S j)).
  - exists 3%nat, 0%nat, e, f'. done.
Qed.
End polling.

Context (sym : string → Z).

Ltac rlin := solve [cbn; repeat match goal with H : cs _ = _ |- _ => rewrite H end; cbn; first [reflexivity | assumption | apply lin_zero]].
Ltac rstep T := lazymatch type of T with code ?a = Some (?md, ?i, ?n) => erewrite (step_r code md i n a) by (first [exact T | done | rlin]) end; xcbn.


Ltac hlin := solve [cbn; repeat match goal with H : sbase (cs _) = 0 |- _ => rewrite H end; cbn; first [assumption | apply lin_zero]].
Ltac hstep T := lazymatch type of T with code ?a = Some (?md, ?i, ?n) => erewrite (step_r code md i n a) by (first [exact T | done | hlin]) end; xcbn.

(** What the BIOS leaves: real mode, at the first instruction of the boot
    sector, which is at 0x7c00. *)
Record bios_handoff (s : xst) : Prop := {
  bh_eip : x_eip s = 0x7c00;
  bh_cs : cs (x_segs s) = mk_seg 0 0 false;
  bh_real : protected (x_ctl s) = false;
  bh_nopage : has (c_cr0 (x_ctl s)) CR0_PG = false;
  bh_text : placed sym code (x_mem s) false 0x7c00 (bootasm_S sym);
  bh_low : sym "gdt"%string + 30 ≤ 0x10000 }.

(** The segments of protected mode that bootasm.S and entryother.S load. *)
Definition boot_segs : segs := mk_segs kcs kds kds (mk_seg 0 0 true) (mk_seg 0 0 true) kds.

(** bootmain() is about to run. *)
Record at_bootmain (s s' : xst) : Prop := {
  ab_eip : x_eip s' = u32 (sym "bootmain"%string);
  ab_segs : x_segs s' = boot_segs;
  ab_pe : protected (x_ctl s') = true;
  ab_nopage : has (c_cr0 (x_ctl s')) CR0_PG = false;
  ab_if : Z.testbit (x_flags s') 9 = false;
  ab_esp : esp (x_regs s') = 0x7c00 - 4;
  ab_mem : ∀ p, ¬ (0x7c00 - 4 ≤ p < 0x7c00) → x_mem s' p = x_mem s p;
  ab_ret : ∃ m, placed sym code m true (load32 (x_mem s') (esp (x_regs s'))) (hang_S sym);
  ab_ports : ∃ i j, x_ports s' = Out 0x60 0xdf :: Nat.iter (S j) kbc_poll (Out 0x64 0xd1 :: Nat.iter (S i) kbc_poll (x_ports s)) }.

Lemma bootasm_run s : (∀ l, ∃ n, kbc_busy (Nat.iter n kbc_poll l) = false) → bios_handoff s → ∃ k s', steps code k s = Some s' ∧ at_bootmain s s'.
Proof.
  intros Hkbc [H1 H2 H3 H4 H5 H6]. destruct s as [t g ip f c gd id tr m p]. cbn [x_eip x_segs x_ctl x_mem x_ports] in *. subst ip.
  unfold bootasm_S in H5. rewrite app_assoc in H5. destruct (placed_app _ _ _ _ _ _ _ H5) as [H7 [ga Hg]]. apply gdt_placed in Hg as [Hg Ed]; [|done]. cbn [placed app] in H7.
  destruct H7 as (Es & n1 & T1 & n2 & T2 & n3 & T3 & n4 & T4 & n5 & T5 & E1 & n6 & T6 & n7 & T7 & n8 & T8 & n9 & T9 & n10 & T10 & E2 & n11 & T11 & n12 & T12 & n13 & T13 & n14 & T14 & n15 & T15 &
    n16 & T16 & n17 & T17 & n18 & T18 & n19 & T19 & n20 & T20 & E3 & n21 & T21 & n22 & T22 & n23 & T23 & n24 & T24 & n25 & T25 & n26 & T26 & n27 & T27 & n28 & T28 & n29 & T29 & Hh).
  rewrite <- E1 in *. rewrite <- E2 in *. rewrite <- E3 in *. set (z := mk_seg 0 0 false).
  assert (steps code 5 (mk_xst t g 0x7c00 f c gd id tr m p) = Some (mk_xst (t <| eax := eax t - eax t mod 2 ^ 16 + 0 |>) (mk_segs (cs g) z z (fs g) (gs g) z) (sym "seta20.1"%string) (logic_flags 16 0 (Z.ldiff f FL_IF)) c gd id tr m p)) as S1.
  { cbn [steps]. rstep T1. rstep T2. rewrite Z.lxor_nilpotent. change (0 mod 2 ^ 16) with 0.
    rstep T3. rewrite (ld_seg_real _ _ 0) by (done || apply (low_w 16 _ 0); lia). xcbn.
    rstep T4. rewrite (ld_seg_real _ _ 0) by (done || apply (low_w 16 _ 0); lia). xcbn.
    rstep T5. rewrite (ld_seg_real _ _ 0) by (done || apply (low_w 16 _ 0); lia). xcbn. by rewrite E1. }
  set (g1 := mk_segs (cs g) z z (fs g) (gs g) z) in S1. set (t1 := t <| eax := _ |>) in S1. set (f1 := logic_flags 16 0 _) in S1.
  assert (sbase (cs g1) = 0 ∧ big (cs g1) = false) as [Hb1 Hb2] by (cbn; by rewrite H2).
  destruct (Hkbc p) as [k1 K1]. destruct (kbc_loop (sym "seta20.1"%string) n6 n7 n8 g1 c gd id tr m H4 Hb1 Hb2 ltac:(rewrite E1; apply Z.mod_mod; lia) T6 T7 T8 k1 p t1 f1 K1) as (s1 & i & e2 & f2 & F2 & S2).
  set (p2 := Nat.iter (S i) kbc_poll p) in S2. assert (∀ e v, u8 (e - e mod 2 ^ 8 + v mod 2 ^ 8) = u8 v) as Hu8 by (intros; apply low_w; lia).
  assert (steps code 2 (mk_xst (t1 <| eax := e2 |>) g1 (u32 (u32 (u32 (sym "seta20.1"%string + n6) + n7) + n8)) f2 c gd id tr m p2) =
    Some (mk_xst (t1 <| eax := e2 - e2 mod 2 ^ 8 + 0xd1 |>) g1 (sym "seta20.2"%string) f2 c gd id tr m (Out 0x64 0xd1 :: p2))) as S3.
  { cbn [steps]. rstep T9. rstep T10. by rewrite (Hu8 e2 0xd1), E2. }
  destruct (Hkbc (Out 0x64 0xd1 :: p2)) as [k3 K3].
  destruct (kbc_loop (sym "seta20.2"%string) n11 n12 n13 g1 c gd id tr m H4 Hb1 Hb2 ltac:(rewrite E2; apply Z.mod_mod; lia) T11 T12 T13 k3 _ (t1 <| eax := e2 - e2 mod 2 ^ 8 + 0xd1 |>) f2 K3) as (s4 & j & e4 & f4 & F4 & S4).
  remember (Nat.iter (S j) kbc_poll (Out 0x64 0xd1 :: p2)) as p4 eqn:Hp4 in S4. set (c' := c <| c_cr0 := Z.lor (c_cr0 c) (u32 CR0_PE) |>). set (f5 := logic_flags 32 (Z.lor (c_cr0 c) (u32 CR0_PE)) f4).
  assert (protected c' = true ∧ has (c_cr0 c') CR0_PG = false) as [P1 P2]. { unfold protected, c'. cbn [c_cr0 update]. rewrite !has_lor, H4. split; [apply orb_true_iff; by right|done]. }
  match type of S4 with _ = Some ?x => assert (steps code 7 x = Some (mk_xst (t1 <| eax := Z.lor (c_cr0 c) (u32 CR0_PE) |>) (g1 <| cs := kcs |>) (sym "start32"%string) f5 c' (sym "gdt"%string, 23) id tr m (Out 0x60 0xdf :: p4))) as S5 end.
  { cbn [steps]. rstep T14. rstep T15. rewrite (Hu8 e4 0xdf). rstep T16. rewrite Ed, lgdt_boot by done. xcbn. rstep T17. rstep T18. rstep T19. rstep T20.
    rewrite (ld_seg_boot _ (sym "gdt"%string) _ 8) by (first [exact P1 | exact P2 | done | lia]). xcbn. done. }
  set (g5 := g1 <| cs := kcs |>) in S5. assert (u32 (sym "start"%string) = 0x7c00) as Est by by rewrite Es.
  assert (u32 (sym "start32"%string) = sym "start32"%string) as E32 by (rewrite E3; apply Z.mod_mod; lia).
  match type of S5 with _ = Some ?x => assert (∃ r e, placed sym code m true r (hang_S sym) ∧ 0 ≤ r < 2 ^ 32 ∧ steps code 9 x = Some (mk_xst (t1 <| eax := e |> <| esp := 0x7c00 - 4 |>) boot_segs (u32 (sym "bootmain"%string)) f5 c' (sym "gdt"%string, 23) id tr (store32 m (0x7c00 - 4) r) (Out 0x60 0xdf :: p4))) as (r & e & Hr & Hr32 & S6) end.
  { eexists _, _. split; [exact Hh|]. split; [apply Z.mod_pos_bound; lia|]. cbn [steps]. rstep T21. rstep T22. bseg 16. rstep T23. bseg 16. rstep T24. bseg 16. rstep T25. rstep T26. bseg 0. rstep T27. bseg 0. rstep T28. rewrite Est. rstep T29.
    rewrite push_r by (done || (cbn; lia)). xcbn. rewrite jump_rel. reflexivity. }
  exists (5 + (s1 + (2 + (s4 + (7 + 9)))))%nat. eexists. split; [by rewrite (steps_app _ _ _ _ _ S1), (steps_app _ _ _ _ _ S2), (steps_app _ _ _ _ _ S3), (steps_app _ _ _ _ _ S4), (steps_app _ _ _ _ _ S5), S6|].
  split; [done|done|done|done| |done| | |].
  - cbn [x_flags]. unfold f5. rewrite logic_if, F4, F2. unfold f1. rewrite logic_if, Z.ldiff_spec. by rewrite andb_false_r.
  - intros q Hq. cbn [x_mem]. apply store32_ne. lia.
  - exists m. cbn [x_mem x_regs esp update]. rewrite load_store32. by rewrite (Z.mod_small r (2 ^ 32) Hr32 : u32 r = r).
  - exists i, j. cbn [x_ports]. by rewrite Hp4.
Qed.

(** Where the processor ends when the C code returns: it writes to a port and
    then stays where it is. *)
Lemma hang_run m s : has (c_cr0 (x_ctl s)) CR0_PG = false → sbase (cs (x_segs s)) = 0 → big (cs (x_segs s)) = true → 0 ≤ x_eip s < 2 ^ 32 → placed sym code m true (x_eip s) (hang_S sym) →
  ∃ s', steps code 5 s = Some s' ∧ x_mem s' = x_mem s ∧ ∀ k, steps code k s' = Some s'.
Proof.
  intros Hpg Hc Hb Hip Hp. destruct s as [t g ip f c gd id tr ms p]. cbn [x_ctl x_segs x_eip x_mem] in *. cbn in Hp. destruct Hp as (n1 & T1 & n2 & T2 & n3 & T3 & n4 & T4 & n5 & T5 & Es & n6 & T6 & _). rewrite <- Es in *.
  assert (u32 ip = ip) as Hu by by apply Z.mod_small. assert (u32 (sym "spin"%string) = sym "spin"%string) as Hs by (rewrite Es; apply Z.mod_mod; lia).
  eexists. split; [cbn [steps]; hstep T1; hstep T2; hstep T3; hstep T4; hstep T5; reflexivity|]. split; [done|]. rewrite <- Es. induction k as [|k IH]; [done|]. cbn [steps]. hstep T6. rewrite jump_rel, Hs. exact IH.
Qed.

End bootasm.

(** ** entryother.S *)

(** The code as it is copied to low memory. *)
Definition lowtext (code : text) : text := fun a => if (0 <=? a) && (a <? 0x400000) then code a else None.

Section entryother.
Context {HW : Hw} {CP : Cpu} {LK : Link} (code : text) (sym : string → Z).

Lemma lowtext_range a r : lowtext code a = Some r → 0 ≤ a < 0x400000 ∧ code a = Some r.
Proof. unfold lowtext. destruct (Z.leb_spec 0 a), (Z.ltb_spec a 0x400000); try done. Qed.

(** Under a page table that maps low memory to itself. *)
Lemma step_id i n a t g f c gd id tr m p : (∀ w x, 0 ≤ x < 2 ^ 32 → xlate c m false w x = boot_map x) → kflat g → lowtext code a = Some (true, i, n) →
  step code (mk_xst t g a f c gd id tr m p) = execute i (mk_xst t g (u32 (a + n)) f c gd id tr m p).
Proof.
  intros Hx Hg [Ha Hc]%lowtext_range. unfold step, fetch, fetch_at. rewrite kflat_not_user by done. cbn [x_ctl x_segs x_eip x_mem]. rewrite (kf_cs _ Hg), Z.add_0_l.
  assert (u32 a = a) as -> by (apply Z.mod_small; lia). rewrite Hx by lia. unfold boot_map. rewrite (proj2 (Z.ltb_lt _ _)) by lia. cbn [mbind option_bind]. rewrite Hc. cbn [mbind option_bind]. by rewrite (kf_cbig _ Hg).
Qed.
Lemma ld32_id s a : (∀ w x, 0 ≤ x < 2 ^ 32 → xlate (x_ctl s) (x_mem s) false w x = boot_map x) → 0 ≤ a → a + 4 ≤ 0x400000 → ld32 false s a = Some (load32 (x_mem s) a).
Proof.
  intros Hx H1 H2. assert (∀ b, a ≤ b < a + 4 → ld8 false s b = Some (x_mem s b)) as Hb.
  { intros b Hb. unfold ld8. assert (u32 b = b) as -> by (apply Z.mod_small; lia). rewrite Hx by lia. unfold boot_map. by rewrite (proj2 (Z.ltb_lt _ _)) by lia. }
  unfold ld32. rewrite !Hb by lia. done.
Qed.
Lemma push_high v t g ip f c gd id tr m p : (∀ w x, 0 ≤ x < 2 ^ 32 → xlate c m false w x = boot_map x) → kflat g → KERNBASE + 4 ≤ esp t ≤ KERNBASE + 0x400000 →
  push v (mk_xst t g ip f c gd id tr m p) = Some (mk_xst (t <| esp := esp t - 4 |>) g ip f c gd id tr (store32 m (esp t - 4 - KERNBASE) v) p).
Proof.
  intros Hx Hg He. unfold push. cbn [x_segs]. rewrite (kf_sbig _ Hg), kflat_not_user by done. cbn [negb]. unfold sp_at. cbn [x_segs x_regs]. rewrite (kf_ss _ Hg), lin_zero. replace (esp t + -4) with (esp t - 4) by lia.
  assert (∀ x, 0 ≤ x < 2 ^ 32 → u32 x = x) as Hu by (intros; by apply Z.mod_small). rewrite Hu by (unfold KERNBASE in *; lia).
  assert (∀ j, 0 ≤ j < 4 → wr_at false (mk_xst t g ip f c gd id tr m p) (esp t - 4 + j) = Some (esp t - 4 - KERNBASE + j)) as Hw.
  { intros j Hj. unfold wr_at. cbn [x_ctl x_mem]. rewrite Hu, Hx by (unfold KERNBASE in *; lia). unfold boot_map. destruct (Z.ltb_spec (esp t - 4 + j) 0x400000); [unfold KERNBASE in *; lia|].
    rewrite (proj2 (Z.leb_le _ _)), (proj2 (Z.ltb_lt _ (KERNBASE + _))) by lia. cbn [andb]. f_equal. lia. }
  unfold st32. pose proof (Hw 0 ltac:(lia)) as W0. rewrite !Z.add_0_r in W0. rewrite W0, !Hw by lia. cbn [mbind option_bind].
  unfold add_sp. cbn. replace (esp t + -4) with (esp t - 4) by lia. rewrite Hu by (unfold KERNBASE in *; lia). done.
Qed.

Lemma boot_flat : kflat boot_segs.
Proof. split; done. Qed.
Ltac ea_low a := rewrite kflat_not_user by exact boot_flat; lazymatch goal with |- context [ea ?s ?d None] => replace (ea s d None) with a by (unfold ea; cbn [ds x_segs boot_segs sbase kds]; match goal with E : sym "start"%string = _ |- _ => by rewrite E end) end.
Ltac olin := solve [cbn; repeat match goal with H : cs _ = _ |- _ => rewrite H end; cbn; first [reflexivity | assumption | apply lin_zero | repeat apply lin_next; assumption]].
Ltac ostep T := lazymatch type of T with lowtext code ?a = Some (?md, ?i, ?n) => erewrite (step_r code md i n a) by (first [exact (proj2 (lowtext_range _ _ T)) | done | olin]) end; xcbn.

(** A processor that got the start-up interrupt for the page 0x7000. *)
Record startup (s : xst) (stack : Z) : Prop := {
  su_eip : x_eip s = 0;
  su_cs : cs (x_segs s) = mk_seg 0x700 0x7000 false;
  su_real : protected (x_ctl s) = false;
  su_nopage : has (c_cr0 (x_ctl s)) CR0_PG = false;
  su_text : placed sym (lowtext code) (x_mem s) false 0x7000 (entryother_S sym);
  su_low : sym "gdt"%string + 30 ≤ 0x10000;
  su_aligned : V2P entrypgdir_sym mod 4096 = 0;
  su_table : pgdir_at (x_mem s) (V2P entrypgdir_sym);
  su_mapped : KERNBASE ≤ stack ∧ stack + KSTACKSIZE ≤ KERNBASE + 0x400000;
  su_apart : apart (V2P entrypgdir_sym) 4096 (stack + KSTACKSIZE - 4 - KERNBASE) 4 }.

(** The processor is about to run the first instruction of mpenter(), on the
    stack [stack]. *)
Record at_mpenter (s s' : xst) (stack : Z) : Prop := {
  am_eip : x_eip s' = mpenter_sym;
  am_segs : x_segs s' = boot_segs;
  am_pe : protected (x_ctl s') = true;
  am_if : Z.testbit (x_flags s') 9 = false;
  am_esp : esp (x_regs s') = stack + KSTACKSIZE - 4;
  am_mem : ∀ q, ¬ (stack + KSTACKSIZE - 4 ≤ q + KERNBASE < stack + KSTACKSIZE) → x_mem s' q = x_mem s q;
  am_map : ∀ w a, 0 ≤ a < 2 ^ 32 → xlate (x_ctl s') (x_mem s') false w a = boot_map a }.

Lemma entryother_run s stack : startup s stack →
  load32 (x_mem s) (0x7000 - 4) = stack + KSTACKSIZE → load32 (x_mem s) (0x7000 - 8) = mpenter_sym → load32 (x_mem s) (0x7000 - 12) = V2P entrypgdir_sym →
  ∃ s', steps code 27 s = Some s' ∧ at_mpenter s s' stack.
Proof.
  intros [H1 H2 H3 H4 H5 H6 H10 H11 H12 H13] H7 H8 H9. destruct s as [t g ip f c gd id tr m p]. cbn [x_eip x_segs x_ctl x_mem x_ports] in *.
  unfold entryother_S in H5. rewrite app_assoc in H5. destruct (placed_app _ _ _ _ _ _ _ H5) as [H [ga Hg]]. apply gdt_placed in Hg as [Hg Ed]; [|done]. cbn [placed app] in H.
  destruct H as (Es & n1 & T1 & n2 & T2 & n3 & T3 & n4 & T4 & n5 & T5 & n6 & T6 & n7 & T7 & n8 & T8 & n9 & T9 & n10 & T10 & E3 & n11 & T11 & n12 & T12 & n13 & T13 & n14 & T14 & n15 & T15 &
    n16 & T16 & n17 & T17 & n18 & T18 & n19 & T19 & n20 & T20 & n21 & T21 & n22 & T22 & n23 & T23 & n24 & T24 & n25 & T25 & n26 & T26 & n27 & T27 & Hh).
  rewrite <- E3 in *. assert (u32 (0x7000 + ip) = 0x7000) as Hlin by by rewrite H1. assert (u32 (sym "start32"%string) = sym "start32"%string) as E32 by (rewrite E3; apply Z.mod_mod; lia). clear H1 E3.
  set (c1 := c <| c_cr0 := Z.lor (c_cr0 c) (u32 CR0_PE) |>).
  assert (protected c1 = true ∧ has (c_cr0 c1) CR0_PG = false) as [P1 P2]. { unfold protected, c1. cbn [c_cr0 update]. rewrite !has_lor, H4. split; [apply orb_true_iff; by right|done]. }
  assert (∃ e f', Z.testbit f' 9 = false ∧ steps code 10 (mk_xst t g ip f c gd id tr m p) =
    Some (mk_xst (t <| eax := e |>) (mk_segs kcs (mk_seg 0 0 false) (mk_seg 0 0 false) (fs g) (gs g) (mk_seg 0 0 false)) (sym "start32"%string) f' c1 (sym "gdt"%string, 23) id tr m p)) as (e1 & f1 & F1 & S1).
  { eexists _, _. split; [|cbn [steps]; ostep T1; ostep T2; rewrite Z.lxor_nilpotent; change (0 mod 2 ^ 16) with 0;
      ostep T3; rseg; ostep T4; rseg;
      ostep T5; rseg; ostep T6; rewrite Ed, lgdt_boot by done; xcbn; ostep T7; ostep T8; ostep T9; ostep T10; bseg 8; reflexivity].
    rewrite !logic_if, Z.ldiff_spec. by rewrite andb_false_r. }
  set (c2 := mk_ctl (Z.lor (c_cr0 c1) (u32 (Z.lor CR0_PE (Z.lor CR0_PG CR0_WP)))) (V2P entrypgdir_sym) (Z.lor (c_cr4 c1) (u32 CR4_PSE))).
  set (g1 := mk_segs kcs (mk_seg 0 0 false) (mk_seg 0 0 false) (fs g) (gs g) (mk_seg 0 0 false)) in S1.
  assert (∃ e f', Z.testbit f' 9 = false ∧ steps code 15 (mk_xst (t <| eax := e1 |>) g1 (sym "start32"%string) f1 c1 (sym "gdt"%string, 23) id tr m p) =
    Some (mk_xst (t <| eax := e |>) boot_segs (u32 (u32 (u32 (u32 (u32 (u32 (u32 (u32 (u32 (u32 (u32 (u32 (u32 (u32 (u32 (sym "start32"%string + n11) + n12) + n13) + n14) + n15) + n16) + n17) + n18) + n19) + n20) + n21) + n22) + n23) + n24) + n25)) f' c2 (sym "gdt"%string, 23) id tr m p)) as (e2 & f2 & F2 & S2).
  { clearbody c1. eexists _, _. split; [|cbn [steps]; ostep T11; ostep T12; bseg 16; ostep T13; bseg 16; ostep T14; bseg 16; ostep T15; ostep T16; bseg 0; ostep T17; bseg 0; ostep T18; ostep T19; ostep T20; ostep T21; ea_low (0x7000 - 12);
      rewrite ld32_r by (done || lia); cbn [x_mem]; rewrite H9; xcbn; ostep T22; ostep T23; ostep T24; ostep T25; reflexivity].
    by rewrite !logic_if. }
  assert (∀ m', pgdir_at m' (V2P entrypgdir_sym) → ∀ w a, 0 ≤ a < 2 ^ 32 → xlate c2 m' false w a = boot_map a) as Hon.
  { intros m' Hp w a Ha. apply entry_xlate; [..|done]; unfold c2; cbn [c_cr0 c_cr3 c_cr4]; [rewrite has_lor; apply orb_true_iff; by right..|].
    assert (PTE_ADDR (V2P entrypgdir_sym) = V2P entrypgdir_sym) as ->; [|done]. rewrite PTE_ADDR_div. apply Z.mod_divide in H10 as [k ->]; [|lia]. rewrite Z.div_mul by lia. lia. }
  pose proof (Hon m H11) as Hm. cbn in Hh. assert (u32 (stack + KSTACKSIZE) = stack + KSTACKSIZE) as Hk by (apply Z.mod_small; unfold KERNBASE, KSTACKSIZE in *; lia).
  assert (protected c2 = true) as Hp2 by (unfold protected, c2; cbn [c_cr0]; rewrite has_lor; apply orb_true_iff; by right).
  exists (mk_xst (t <| eax := e2 |> <| esp := stack + KSTACKSIZE - 4 |>) boot_segs mpenter_sym f2 c2 (sym "gdt"%string, 23) id tr
    (store32 m (stack + KSTACKSIZE - 4 - KERNBASE) (u32 (u32 (u32 (u32 (u32 (u32 (u32 (u32 (u32 (u32 (u32 (u32 (u32 (u32 (u32 (u32 (u32 (sym "start32"%string + n11) + n12) + n13) + n14) + n15) + n16) + n17) + n18) + n19) + n20) + n21) + n22) + n23) + n24) + n25) + n26) + n27))) p). split.
  { change 27%nat with (10 + (15 + 2))%nat. rewrite (steps_app _ _ _ _ _ S1), (steps_app _ _ _ _ _ S2). cbn [steps]. rewrite (step_id _ _ _ _ _ _ _ _ _ _ _ _ Hm boot_flat T26). xcbn. ea_low (0x7000 - 4).
    rewrite ld32_id by (done || lia). cbn [x_mem]. rewrite H7. xcbn. rewrite (step_id _ _ _ _ _ _ _ _ _ _ _ _ Hm boot_flat T27). xcbn. ea_low (0x7000 - 8). rewrite ld32_id by (done || lia). cbn [x_mem mbind option_bind]. rewrite H8.
    rewrite push_high by (first [exact Hm | exact boot_flat | cbn; unfold KSTACKSIZE in *; lia]). xcbn. reflexivity. }
  split; try done; cbn [x_mem x_ctl]; [intros q Hq; apply store32_ne; lia|]. apply Hon. intros i en Hi. rewrite <- (H11 i en Hi). apply load32_ext. intros j Hj. apply store32_ne.
  pose proof (lookup_lt_Some _ _ _ Hi) as Hl. change (length entrypgdir) with 1024%nat in Hl. unfold apart in H13. lia.
Qed.

(** What startothers() does before it waits for the processor. *)
Context {FU : Fuel}.
Definition with_dev (d : devstate) (k : kstate) : kstate := k <| res ::= fun r => r <| dev := d |> |>.

Lemma lapicw_ret i v k : ∃ d, lapicw i v k = Ret tt (with_dev d k).
Proof. eexists. reflexivity. Qed.
Lemma outb_ret i v k : ∃ d, outb i v k = Ret tt (with_dev d k).
Proof. eexists. reflexivity. Qed.

Ltac devstep := match goal with
  | |- context [bind (lapicw ?i ?v) _ ?k] => let d := fresh "d" in let E := fresh "E" in destruct (lapicw_ret i v k) as [d E]; rewrite (bind_ret _ _ _ _ _ E); clear E
  | |- context [bind (outb ?i ?v) _ ?k] => let d := fresh "d" in let E := fresh "E" in destruct (outb_ret i v k) as [d E]; rewrite (bind_ret _ _ _ _ _ E); clear E
  | |- context [bind (microdelay ?n) _ ?k] => rewrite (bind_ret (microdelay n) _ _ _ _ eq_refl)
  end.

Lemma lapicstartap_ret id a k : ∃ d, lapicstartap id a k =
  Ret tt (with_dev d (k <| res ::= fun r => r <| pmem ::= fun m => store16 (store16 m WRV 0) (WRV + 2) (u16 (Z.shiftr a 4)) |> |>)).
Proof.
  unfold lapicstartap. do 2 devstep. erewrite bind_ret by reflexivity. repeat devstep. cbn [for_range].
  assert (∀ k, ∃ d, (lapicw ICRHI (Z.shiftl id 24) ;;; lapicw ICRLO (Z.lor STARTUP (Z.shiftr a 12)) ;;; microdelay 200) k = Ret tt (with_dev d k)) as H by (intros k'; repeat devstep; by eexists).
  do 2 match goal with |- context [bind ?b _ ?k'] => destruct (H k') as [? E]; rewrite (bind_ret b _ _ _ _ E); clear E end. by eexists.
Qed.

Lemma store16_ne m a v q : ¬ (a ≤ q < a + 2) → store16 m a v q = m q.
Proof. intros Hq. unfold store16, CString.store. destruct (Z.eqb_spec q (a + 1)), (Z.eqb_spec q a); lia || done. Qed.

Lemma kalloc_boot k : use_lock (res k) = 0 → ∃ k', kalloc k = Ret (freelist (res k)) k' ∧ pmem (res k') = pmem (res k) ∧ machine k' = machine k.
Proof.
  intros Hl. unfold kalloc. assert (∀ k, use_lock (res k) = 0 → kmem_enter k = Ret tt k ∧ kmem_leave k = Ret tt k) as H.
  { intros k' E. unfold kmem_enter, kmem_leave. by rewrite !(bind_ret (rget use_lock) _ k' _ k' eq_refl), E. }
  rewrite (bind_ret _ _ _ _ _ (proj1 (H k Hl))), (bind_ret (rget freelist) _ k _ k eq_refl). destruct (negb _).
  - erewrite bind_ret by reflexivity. erewrite bind_ret by (by apply H). by eexists.
  - rewrite (bind_ret (ret tt) _ k tt k eq_refl), (bind_ret _ _ _ _ _ (proj2 (H k Hl))). by eexists.
Qed.

Lemma start_cpu_waits i k me u : mycpu (machine k) = Ret me (machine k) → i ≠ me → use_lock (res k) = 0 → cpus (machine k) !! i = Some u → started u = 0 → (0 < fuel)%nat →
  ∃ k' C, start_cpu i k = Wait (Spin (Z.of_nat i)) k' C ∧
    load32 (pmem (res k')) (0x7000 - 4) = u32 (freelist (res k) + KSTACKSIZE) ∧ load32 (pmem (res k')) (0x7000 - 8) = u32 mpenter_sym ∧
    load32 (pmem (res k')) (0x7000 - 12) = u32 (V2P entrypgdir_sym) ∧
    ∀ q, ¬ (0x7000 - 12 ≤ q < 0x7000) → ¬ (WRV ≤ q < WRV + 4) → pmem (res k') q = pmem (res k) q.
Proof.
  intros Hme Hi Hl Hu H0 Hf. unfold start_cpu. erewrite bind_ret by (unfold on_mach, zoom; rewrite Hme; reflexivity). rewrite (proj2 (Nat.eqb_neq _ _)) by done.
  replace (k <| machine := machine k |>) with k by by destruct k. destruct (kalloc_boot k Hl) as (k1 & E & Hm & Hc). rewrite (bind_ret _ _ _ _ _ E). clear E. do 3 (erewrite bind_ret by reflexivity).
  match goal with |- context [bind (on_mach (cpu_get i)) _ ?x] => set (k2 := x) end.
  assert (∀ k : kstate, machine k = machine k1 → on_mach (cpu_get i) k = Ret u k) as Hg. { intros k' E. unfold on_mach, zoom, cpu_get, try_get. rewrite E, Hc, Hu. cbn. f_equal. rewrite <- Hc, <- E. by destruct k'. }
  rewrite (bind_ret _ _ _ _ _ (Hg k2 eq_refl)).
  destruct (lapicstartap_ret (apicid u) 0x7000 k2) as [d E]. rewrite (bind_ret _ _ _ _ _ E). clear E. destruct fuel as [|n]; [lia|]. cbn [while].
  erewrite bind_ret; [|erewrite bind_ret by (apply Hg; reflexivity); reflexivity]. rewrite H0. cbn [Z.eqb]. eexists _, _. split; [reflexivity|]. unfold k2. cbn [res pmem with_dev update]. rewrite Hm.
  assert (∀ a, ¬ (WRV - 4 < a < WRV + 4) → ∀ m v v', load32 (store16 (store16 m WRV v) (WRV + 2) v') a = load32 m a) as Hw. { intros a Ha m v v'. apply load32_ext. intros j Hj. rewrite !store16_ne by lia. done. }
  split_and!; first last.
  { intros q Q1 Q2. rewrite !store16_ne by lia. change (V2P (P2V (0x7000 - 4))) with (0x7000 - 4). change (V2P (P2V (0x7000 - 8))) with (0x7000 - 8). change (V2P (P2V (0x7000 - 12))) with (0x7000 - 12). rewrite !store32_ne by lia. done. }
  all: unfold WRV in *; rewrite !Hw by (vm_compute; intuition done); clear Hw; change (V2P (P2V (0x7000 - 4))) with (0x7000 - 4); change (V2P (P2V (0x7000 - 8))) with (0x7000 - 8); change (V2P (P2V (0x7000 - 12))) with (0x7000 - 12).
  1: by rewrite load_store32. 1: by rewrite load_store32_ne, load_store32 by lia.
  rewrite !load_store32_ne, load_store32 by lia. apply Z.mod_mod. lia.
Qed.

(** C34. startothers() starts a processor: it stores what the processor needs
    below the code at 0x7000 and waits for it, and the processor, woken at that
    page, reaches mpenter() in 27 instructions, in protected mode with
    interrupts off, on the stack allocated for it and with paging under
    [entrypgdir]: the first 4 MB of memory mapped at 0, where this code runs,
    and at KERNBASE, where mpenter() and the stack are. *)
Theorem started_cpu_reaches_mpenter i k me u : mycpu (machine k) = Ret me (machine k) → i ≠ me → use_lock (res k) = 0 → cpus (machine k) !! i = Some u → started u = 0 → (0 < fuel)%nat →
  0 ≤ mpenter_sym < 2 ^ 32 →
  ∃ k' C, start_cpu i k = Wait (Spin (Z.of_nat i)) k' C ∧
    (∀ q, ¬ (0x7000 - 12 ≤ q < 0x7000) → ¬ (WRV ≤ q < WRV + 4) → pmem (res k') q = pmem (res k) q) ∧
    ∀ s, x_mem s = pmem (res k') → startup s (freelist (res k)) → ∃ s', steps code 27 s = Some s' ∧ at_mpenter s s' (freelist (res k)).
Proof.
  intros H1 H2 H3 H4 H5 H6 Hm. destruct (start_cpu_waits i k me u H1 H2 H3 H4 H5 H6) as (k' & C & E & L1 & L2 & L3 & L4). exists k', C. split; [done|]. split; [done|]. intros s Es Hs.
  pose proof (su_mapped _ _ Hs) as Hk. apply entryother_run; [done|rewrite Es..].
  - rewrite L1. apply Z.mod_small. unfold KERNBASE, KSTACKSIZE in *. lia.
  - rewrite L2. by apply Z.mod_small.
  - rewrite L3. apply Z.mod_mod. lia.
Qed.
End entryother.
