(* ===== verification/User.v ===== *)
(** * User programs (user.h, ulib.c, printf.c)

    A user program is a tree of system calls: it ends, or makes a call and goes
    on with the answer.  [run] executes it against a handler, which stands for
    the kernel.  The C library routines that make calls are here, with the
    small programs built on them in [Utils]. *)

From S2P Require Import Prelude CString Kstate Console.

(** ** System calls

    The last six are what the tests do to provoke the kernel: bad pointers, and
    instructions that may trap.  [Read fd n] answers with the result and the bytes put into the buffer;
    [Fstat], [Pipe] and [Wait2] answer with the result and what they store
    through their pointers.  Path names and arguments are strings without the
    terminating zero. *)

Record ustat := mk_ustat { us_type : Z; us_dev : Z; us_ino : Z; us_nlink : Z; us_size : Z }.

Inductive call : Type → Type :=
| Fork : call Z
| Wait : call Z
| Wait2 : call (Z * (Z * Z * Z))
| Pipe : call (Z * (Z * Z))
| Write (fd : Z) (d : list Z) : call Z
| Read (fd n : Z) : call (Z * list Z)
| Close (fd : Z) : call Z
| Kill (pid : Z) : call Z
| Exec (path : list Z) (argv : list (list Z)) : call Z
| Open (path : list Z) (mode : Z) : call Z
| Mknod (path : list Z) (major minor : Z) : call Z
| Unlink (path : list Z) : call Z
| Fstat (fd : Z) : call (Z * ustat)
| Link (old new : list Z) : call Z
| Mkdir (path : list Z) : call Z
| Chdir (path : list Z) : call Z
| Dup (fd : Z) : call Z
| Getpid : call Z
| Sbrk (n : Z) : call Z
| Sleep (n : Z) : call Z
| Uptime : call Z
| Yield : call unit
| ChangePrio (prio : Z) : call Z
| LinkPtr (old : list Z) (new : Z) : call Z                 (** the new name is at address [new] *)
| IntAt (eax esp : Z) : call Z                              (** the trap itself, with these registers *)
| Peek (a : Z) : call (option Z)                            (** a load; [None] when the kernel kills the process *)
| Poke (a v : Z) : call (option unit)
| Inb (port : Z) : call (option Z)
| Outb (port v : Z) : call (option unit).

(** ** Programs *)

Inductive prog (A : Type) : Type :=
| Done (a : A)
| Exit                                       (** exit() *)
| Ask {B : Type} (c : call B) (k : B → prog A)
| Segv                                       (** an access outside an array, a division by zero *)
| Endless.                                   (** a loop used up its bound *)
Arguments Done {A}.
Arguments Exit {A}.
Arguments Ask {A B}.
Arguments Segv {A}.
Arguments Endless {A}.

Fixpoint pbind {A B} (p : prog A) (f : A → prog B) : prog B :=
  match p with
  | Done a => f a
  | Exit => Exit
  | Ask c k => Ask c (fun b => pbind (k b) f)
  | Segv => Segv
  | Endless => Endless
  end.

Declare Scope prog_scope.
Delimit Scope prog_scope with prog.
Notation "x <- p ;; k" := (pbind p (fun x => k))
  (at level 100, p at next level, right associativity) : prog_scope.
Notation "p ;;; k" := (pbind p (fun _ => k))
  (at level 100, right associativity) : prog_scope.
Open Scope prog_scope.

Definition ask {B} (c : call B) : prog B := Ask c Done.
Definition try {A} (o : option A) : prog A := match o with Some a => Done a | None => Segv end.

(** [for(x in l) body(x)] *)
Fixpoint each {X} (l : list X) (body : X → prog unit) : prog unit :=
  match l with [] => Done tt | x :: l' => body x ;;; each l' body end.

(** ** Running a program *)

Inductive result (A S : Type) : Type :=
| Returned (a : A) (s : S)
| Exited (s : S)
| Segfault (s : S)
| Running.
Arguments Returned {A S}.
Arguments Exited {A S}.
Arguments Segfault {A S}.
Arguments Running {A S}.

Definition handler (S : Type) : Type := ∀ B, call B → S → B * S.

Fixpoint run {A S} (h : handler S) (p : prog A) (s : S) : result A S :=
  match p with
  | Done a => Returned a s
  | Exit => Exited s
  | Ask c k => let '(b, s') := h _ c s in run h (k b) s'
  | Segv => Segfault s
  | Endless => Running
  end.

Lemma run_bind {A B S} (h : handler S) (p : prog A) (f : A → prog B) s :
  run h (pbind p f) s =
  match run h p s with
  | Returned a s' => run h (f a) s'
  | Exited s' => Exited s'
  | Segfault s' => Segfault s'
  | Running => Running
  end.
Proof.
  revert s. induction p as [a| |C c k IH| |]; intros s; try done. cbn [pbind run]. destruct (h C c s) as [b s']. apply IH.
Qed.

Lemma run_returned {A B S} (h : handler S) (p : prog A) (f : A → prog B) s a s' :
  run h p s = Returned a s' → run h (pbind p f) s = run h (f a) s'.
Proof. intros H. by rewrite run_bind, H. Qed.

(** ** printf.c *)

Definition udigits : list Z := chars "0123456789ABCDEF".

Definition putc (fd c : Z) : prog unit := ask (Write fd [u8 c]) ;;; Done tt.

Definition uprintint (fd xx base : Z) (sgn : bool) : prog unit :=
  each (printint_chars udigits xx base sgn) (putc fd).

(** [c] follows a [%]. *)
Definition printf_item (fd c : Z) (ap : list arg) : prog (list arg) :=
  if c =? 100 then
    match ap with Num z :: ap' => uprintint fd z 10 true ;;; Done ap' | _ => Segv end
  else if (c =? 120) || (c =? 112) then
    match ap with Num z :: ap' => uprintint fd z 16 false ;;; Done ap' | _ => Segv end
  else if c =? 115 then
    match ap with
    | Str s :: ap' => each s (putc fd) ;;; Done ap'
    | NullStr :: ap' => each (chars "(null)") (putc fd) ;;; Done ap'
    | _ => Segv
    end
  else if c =? 99 then
    match ap with Num z :: ap' => putc fd z ;;; Done ap' | _ => Segv end
  else if c =? 37 then putc fd c ;;; Done ap
  else putc fd 37 ;;; putc fd c ;;; Done ap.

(** [state] is the variable of that name: has a [%] just been read? *)
Fixpoint printf_loop (fd : Z) (fmt : list Z) (state : bool) (ap : list arg) : prog unit :=
  match fmt with
  | [] => Done tt
  | c :: fmt' =>
      if state then ap' <- printf_item fd c ap ;; printf_loop fd fmt' false ap'
      else if c =? 37 then printf_loop fd fmt' true ap
      else putc fd c ;;; printf_loop fd fmt' false ap
  end.
Definition printf (fd : Z) (fmt : string) (ap : list arg) : prog unit :=
  printf_loop fd (chars fmt) false ap.

(** ** ulib.c *)

(** The loop of [gets]: [n] more characters fit. *)
Fixpoint gets_loop (n : nat) (acc : list Z) : prog (list Z) :=
  match n with
  | O => Done acc
  | S n' =>
      r <- ask (Read 0 1) ;;
      if r.1 <? 1 then Done acc else
      match r.2 with
      | c :: _ => if (c =? 10) || (c =? 13) then Done (acc ++ [c]) else gets_loop n' (acc ++ [c])
      | [] => Segv
      end
  end.
(** The string read, with its terminating zero; it overwrites the start of [buf]. *)
Definition ugets (buf : list Z) (max : Z) : prog (list Z) :=
  l <- gets_loop (Z.to_nat (max - 1)) [] ;;
  if (length l <? length buf)%nat then Done (l ++ 0 :: drop (S (length l)) buf) else Segv.

Definition stat (n : list Z) : prog (Z * ustat) :=
  fd <- ask (Open n 0) ;;
  if fd <? 0 then Done (-1, mk_ustat 0 0 0 0 0) else
  r <- ask (Fstat fd) ;;
  ask (Close fd) ;;;
  Done r.
