(* ===== verification/Umalloc.v ===== *)
(** * The user-level allocator (umalloc.c)

    Memory is a map from the address of a 32-bit word to its value; a header is
    two words, the pointer and the size in units of eight bytes.  The free list
    is a ring sorted by address that starts at the static header [base].  The
    program calls [sbrk] for more memory. *)

From S2P Require Import Prelude Machine User.

Definition wmem : Type := Z → Z.
Definition upd (m : wmem) (a v : Z) : wmem := fun b => if b =? a then v else m b.

(** The statics of the file, with the memory. *)
Record umem := mk_umem { words : wmem; freep : Z }.
#[export] Instance umem_eta : Eta umem := fun u => mk_umem (words u) (freep u).

(** [sizeof(Header)] *)
Definition HDR : Z := 8.
Definition ptr (m : wmem) (p : Z) : Z := m p.
Definition size (m : wmem) (p : Z) : Z := m (p + 4).
Definition set_ptr (m : wmem) (p v : Z) : wmem := upd m p v.
Definition set_size (m : wmem) (p v : Z) : wmem := upd m (p + 4) v.
(** [p + n] on a [Header*]. *)
Definition hadd (p n : Z) : Z := u32 (p + HDR * n).

(** Where the search of [free] stops. *)
Definition stop_at (m : wmem) (bp p : Z) : bool :=
  (p <? bp) && (bp <? ptr m p) || (ptr m p <=? p) && ((p <? bp) || (bp <? ptr m p)).
Fixpoint free_search (n : nat) (m : wmem) (bp p : Z) : option Z :=
  match n with
  | O => None
  | S n' => if stop_at m bp p then Some p else free_search n' m bp (ptr m p)
  end.

(** The part of [free] after the search. *)
Definition free_insert (m : wmem) (bp p : Z) : umem :=
  let m :=
    if hadd bp (size m bp) =? ptr m p then
      let m := set_size m bp (u32 (size m bp + size m (ptr m p))) in
      set_ptr m bp (ptr m (ptr m p))
    else set_ptr m bp (ptr m p) in
  let m :=
    if hadd p (size m p) =? bp then
      let m := set_size m p (u32 (size m p + size m bp)) in
      set_ptr m p (ptr m bp)
    else set_ptr m p bp in
  mk_umem m p.

Definition free (n : nat) (ap : Z) (u : umem) : option umem :=
  let bp := u32 (ap - HDR) in
  p ← free_search n (words u) bp (freep u);
  Some (free_insert (words u) bp p).

(** A loop that goes round more than [n] times is [Endless]. *)
Definition bounded {A} (o : option A) : prog A := match o with Some a => Done a | None => Endless end.

Definition morecore (n : nat) (nu : Z) (u : umem) : prog (Z * umem) :=
  let nu := if nu <? 4096 then 4096 else nu in
  p <- ask (Sbrk (s32 (nu * HDR))) ;;
  if p =? -1 then Done (0, u) else
  let u := mk_umem (set_size (words u) p nu) (freep u) in
  u <- bounded (free n (hadd p 1) u) ;;
  Done (freep u, u).

(** Takes [nunits] from the block [p] that follows [prevp]. *)
Definition carve (m : wmem) (nunits prevp p : Z) : Z * umem :=
  let '(p, m) :=
    if size m p =? nunits then (p, set_ptr m prevp (ptr m p))
    else
      let m := set_size m p (u32 (size m p - nunits)) in
      let p := hadd p (size m p) in
      (p, set_size m p nunits) in
  (hadd p 1, mk_umem m prevp).

Fixpoint malloc_loop (n : nat) (nunits prevp p : Z) (u : umem) : prog (Z * umem) :=
  match n with
  | O => Endless
  | S n' =>
      if nunits <=? size (words u) p then Done (carve (words u) nunits prevp p) else
      if p =? freep u then
        r <- morecore n' nunits u ;;
        let '(p, u) := r in
        if p =? 0 then Done (0, u) else malloc_loop n' nunits p (ptr (words u) p) u
      else malloc_loop n' nunits p (ptr (words u) p) u
  end.

Definition nunits_of (nbytes : Z) : Z := u32 (u32 (nbytes + HDR - 1) / HDR + 1).

(** [base] is the address of the static header. *)
Definition malloc (n : nat) (base nbytes : Z) (u : umem) : prog (Z * umem) :=
  let nunits := nunits_of nbytes in
  let u := if freep u =? 0 then mk_umem (set_size (set_ptr (words u) base base) base 0) base else u in
  let prevp := freep u in
  malloc_loop n nunits prevp (ptr (words u) prevp) u.

(** ** The free list *)

Notation blk := (Z * Z)%type.
Definition head_addr (l : list blk) (nxt : Z) : Z := match l with [] => nxt | b :: _ => b.1 end.

(** The blocks of [l] are linked in memory, the last one to [nxt]. *)
Fixpoint lseg (m : wmem) (l : list blk) (nxt : Z) : Prop :=
  match l with
  | [] => True
  | b :: l' => ptr m b.1 = head_addr l' nxt ∧ size m b.1 = b.2 ∧ lseg m l' nxt
  end.

(** The room of a block; also the empty header [base] takes one unit. *)
Definition end_of (b : blk) : Z := b.1 + HDR * Z.max 1 b.2.
(** By address, and no two blocks touch. *)
Fixpoint apart (l : list blk) : Prop :=
  match l with
  | b :: l' => (match l' with c :: _ => end_of b ≤ c.1 ∧ b.1 + HDR * b.2 < c.1 | [] => True end) ∧ apart l'
  | [] => True
  end.
Definition disjoint_blk (b c : blk) : Prop := end_of b ≤ c.1 ∨ end_of c ≤ b.1.

Definition disjoint_all (x : blk) (l : list blk) : Prop := ∀ b, b ∈ l → disjoint_blk x b.
Definition block_ok (top : Z) (b : blk) : Prop := 1 ≤ b.2 ∧ end_of b ≤ top.
Definition units (l : list blk) : Z := foldr (fun b n => b.2 + n) 0 l.

(** The ring, without the header [base]. *)
Record ring_ok (base top : Z) (u : umem) (l : list blk) : Prop := {
  ro_seg : lseg (words u) ((base, 0) :: l) base;
  ro_apart : apart ((base, 0) :: l);
  ro_freep : freep u ∈ base :: l.*1;
  ro_blocks : Forall (block_ok top) l;
  ro_base : 0 < base ∧ base + HDR ≤ top ≤ KERNBASE }.

(** The allocator's state: [top] bounds the memory obtained from the kernel,
    [nfree] counts the free units, and [alloc] has the blocks handed out, by
    the address of their headers. *)
Record heap_ok (base top : Z) (u : umem) (nfree : Z) (alloc : gmap Z Z) : Prop := {
  ho_ring : ∃ l, ring_ok base top u l ∧ units l = nfree ∧ ∀ a s, alloc !! a = Some s → disjoint_all (a, s) l;
  ho_alloc : ∀ a s, alloc !! a = Some s → size (words u) a = s ∧ base + HDR ≤ a ∧ block_ok top (a, s);
  ho_disjoint : ∀ a s b t, alloc !! a = Some s → alloc !! b = Some t → a ≠ b → disjoint_blk (a, s) (b, t) }.

(** ** Lemmas on the ring *)

Lemma lseg_app m l1 l2 nxt : lseg m (l1 ++ l2) nxt ↔ lseg m l1 (head_addr l2 nxt) ∧ lseg m l2 nxt.
Proof.
  induction l1 as [|b l1 IH]; cbn; [naive_solver|]. rewrite IH. by destruct l1; naive_solver.
Qed.
Lemma lseg_split m l nxt a : lseg m l nxt → a ∈ l.*1 → ∃ l1 s l2, l = l1 ++ (a, s) :: l2 ∧ ptr m a = head_addr l2 nxt ∧ size m a = s.
Proof.
  intros Hl (b & -> & Hb)%list_elem_of_fmap. apply list_elem_of_split in Hb as (l1 & l2 & ->). exists l1, b.2, l2.
  apply lseg_app in Hl as [_ (Hp & Hs & _)]. by destruct b.
Qed.
Lemma lseg_rotate m l1 l2 : lseg m (l1 ++ l2) (head_addr (l1 ++ l2) 0) → lseg m (l2 ++ l1) (head_addr (l2 ++ l1) 0).
Proof.
  intros H. destruct l1 as [|b1 l1]; [by rewrite app_nil_r|]. destruct l2 as [|b2 l2]; [by rewrite app_nil_r in H|].
  apply lseg_app in H as [H1 H2]. apply lseg_app. split; done.
Qed.

(** Writing a word that is no header's. *)
Lemma lseg_upd m l nxt a v : (∀ b, b ∈ l → a ≠ b.1 ∧ a ≠ b.1 + 4) → lseg (upd m a v) l nxt ↔ lseg m l nxt.
Proof.
  induction l as [|b l IH]; intros H; [done|]. cbn. rewrite IH by (intros; apply H; set_solver).
  unfold ptr, size, upd. destruct (H b) as [H1 H2]; [set_solver|].
  by rewrite (proj2 (Z.eqb_neq b.1 a)), (proj2 (Z.eqb_neq (b.1 + 4) a)) by lia.
Qed.
Lemma upd_eq m a v : upd m a v a = v.
Proof. unfold upd. by rewrite Z.eqb_refl. Qed.
Lemma upd_ne m a b v : a ≠ b → upd m a v b = m b.
Proof. intros H. unfold upd. by rewrite (proj2 (Z.eqb_neq b a)) by lia. Qed.

Lemma apart_app l1 b l2 : apart (l1 ++ b :: l2) → apart (l1 ++ [b]) ∧ apart (b :: l2).
Proof.
  induction l1 as [|c l1 IH]; intros H; [done|]. destruct H as [Hc H]. apply IH in H as [H1 H2]. split; [|done].
  split; [|done]. destruct l1; done.
Qed.
Lemma apart_app_inv l1 b l2 : apart (l1 ++ [b]) → apart (b :: l2) → apart (l1 ++ b :: l2).
Proof.
  induction l1 as [|c l1 IH]; intros H1 H2; [done|]. destruct H1 as [Hc H1]. split; [|by apply IH]. destruct l1; done.
Qed.
Lemma apart_last l b c : apart (l ++ [b]) → b.1 = c.1 → apart (l ++ [c]).
Proof.
  intros H E. induction l as [|d l IH]; [done|]. destruct H as [H1 H2]. split; [|by apply IH].
  destruct l; cbn in *; [|done]. by rewrite <- E.
Qed.
Lemma end_of_gt b : b.1 + HDR ≤ end_of b ∧ b.1 + HDR * b.2 ≤ end_of b.
Proof. unfold end_of, HDR. lia. Qed.
(** The first block lies below all the others. *)
Lemma apart_lt b l : apart (b :: l) → ∀ c, c ∈ l → end_of b ≤ c.1.
Proof.
  revert b. induction l as [|d l IH]; intros b H c Hc; [by apply not_elem_of_nil in Hc|]. destruct H as [[Hb _] H].
  apply elem_of_cons in Hc as [->|Hc]; [done|]. specialize (IH d H c Hc). pose proof (end_of_gt d). unfold HDR in *. lia.
Qed.
Lemma apart_before l b : apart (l ++ [b]) → ∀ c, c ∈ l → end_of c ≤ b.1.
Proof.
  induction l as [|d l IH]; intros H c Hc; [by apply not_elem_of_nil in Hc|].
  apply elem_of_cons in Hc as [->|Hc]; [|apply IH; [apply H|done]]. apply (apart_lt d (l ++ [b]) H). set_solver.
Qed.

(** *** The search of [free] *)

Lemma search_stops m bp l1 b l2 nxt n : lseg m (l1 ++ b :: l2) nxt → Forall (fun c => stop_at m bp c.1 = false) l1 →
  stop_at m bp b.1 = true → (length l1 < n)%nat → free_search n m bp (head_addr (l1 ++ b :: l2) nxt) = Some b.1.
Proof.
  intros Hl Hf Hb. revert n. induction Hf as [|c l1 Hc _ IH]; intros n Hn; (destruct n as [|n]; [cbn in Hn; lia|]).
  - cbn. by rewrite Hb.
  - destruct Hl as (Hp & _ & Hl). cbn [head_addr app free_search]. rewrite Hc, Hp. apply IH; [done|]. cbn in Hn. lia.
Qed.

(** Where the block [(bp, bs)] belongs. *)
Definition place (l1 : list blk) (q : blk) (l2 : list blk) (bp bs : Z) : Prop :=
  end_of q ≤ bp ∧ match l2 with c :: _ => bp + HDR * bs ≤ c.1 | [] => True end.
Lemma place_exists b l bp bs : 1 ≤ bs → apart (b :: l) → end_of b ≤ bp → (∀ c, c ∈ l → disjoint_blk (bp, bs) c) →
  ∃ l1 q l2, b :: l = l1 ++ q :: l2 ∧ place l1 q l2 bp bs.
Proof.
  intros Hbs. revert b. induction l as [|c l IH]; intros b Hap Hb Hd; [by exists [], b, []|].
  destruct (Hd c) as [H|H]; [set_solver| |].
  - exists [], b, (c :: l). split; [done|]. split; [done|]. unfold end_of, HDR in *. cbn in H. lia.
  - destruct (IH c) as (l1 & q & l2 & E & Hpl); [apply Hap|done|set_solver|]. exists (b :: l1), q, l2. by rewrite E.
Qed.

Lemma apart_head_lt b l c : apart (b :: l) → c ∈ b :: l → b.1 ≤ c.1.
Proof.
  intros H Hc. apply elem_of_cons in Hc as [->|Hc]; [lia|]. pose proof (apart_lt b l H c Hc). pose proof (end_of_gt b).
  unfold HDR in *. lia.
Qed.

(** The ring and the place of a block in it. *)
Record ring_at (m : wmem) (base : Z) (l l1 : list blk) (q : blk) (l2 : list blk) (bp bs : Z) : Prop := {
  ra_ring : (base, 0) :: l = l1 ++ q :: l2;
  ra_seg : lseg m ((base, 0) :: l) base;
  ra_apart : apart ((base, 0) :: l);
  ra_size : 1 ≤ bs;
  ra_place : place l1 q l2 bp bs }.

Lemma ring_base m base l l1 q l2 bp bs c : ring_at m base l l1 q l2 bp bs → c ∈ l1 ++ q :: l2 → base ≤ c.1.
Proof. intros [Hring _ Hap _ _]. rewrite <- Hring. intros Hc. by apply (apart_head_lt (base, 0) l). Qed.

Lemma ring_stop_here m base l l1 q l2 bp bs : ring_at m base l l1 q l2 bp bs → stop_at m bp q.1 = true.
Proof.
  intros HR. pose proof HR as [Hring Hseg Hap Hbs Hplace]. destruct Hplace as [H1 H2]. rewrite Hring in Hseg, Hap. apply lseg_app in Hseg as [_ (Hp & _)].
  pose proof (end_of_gt q) as He. unfold HDR in *. unfold stop_at. rewrite Hp. destruct l2 as [|c l2']; cbn [head_addr].
  - assert (base ≤ q.1) by (apply (ring_base _ _ _ _ _ _ _ _ _ HR); set_solver).
    rewrite (proj2 (Z.ltb_lt q.1 bp)), (proj2 (Z.leb_le base q.1)) by lia. by rewrite orb_true_r.
  - by rewrite (proj2 (Z.ltb_lt q.1 bp)), (proj2 (Z.ltb_lt bp c.1)) by lia.
Qed.

Lemma ring_stop_before m base l l1 q l2 bp bs : ring_at m base l l1 q l2 bp bs → Forall (fun c => stop_at m bp c.1 = false) l1.
Proof.
  intros HR. pose proof HR as [Hring Hseg Hap Hbs Hplace]. apply Forall_forall. intros c Hc. destruct Hplace as [H1 _]. rewrite Hring in Hseg, Hap.
  apply list_elem_of_split in Hc as (k1 & k2 & E). rewrite E, <- app_assoc in Hseg, Hap. cbn [app] in *.
  apply lseg_app in Hseg as [_ (Hp & _)]. apply apart_app in Hap as [_ Hk].
  pose proof (end_of_gt q) as Hq. pose proof (end_of_gt c) as Hec. unfold HDR in *.
  assert (∃ d, d ∈ k2 ++ q :: l2 ∧ ptr m c.1 = d.1 ∧ d.1 ≤ q.1) as (d & Hd & Hpd & Hdq).
  { destruct k2 as [|d k2]; [exists q; split; [set_solver|]; cbn in Hp; split; [done|lia]|]. exists d. split; [set_solver|]. cbn in Hp. split; [done|].
    eapply (apart_head_lt d (k2 ++ q :: l2)); [apply Hk|set_solver]. }
  pose proof (apart_lt c _ Hk d Hd). unfold stop_at. rewrite Hpd.
  rewrite (proj2 (Z.ltb_ge bp d.1)), (proj2 (Z.leb_gt d.1 c.1)) by lia. by rewrite andb_false_r.
Qed.

Lemma ring_stop_after m base l l1 q l2 bp bs : ring_at m base l l1 q l2 bp bs → Forall (fun c => stop_at m bp c.1 = false) l2.
Proof.
  intros HR. pose proof HR as [Hring Hseg Hap Hbs Hplace]. apply Forall_forall. intros c Hc. pose proof Hc as Hc'. destruct Hplace as [H1 H2]. pose proof Hring as E0. rewrite Hring in Hseg, Hap.
  assert (bp < c.1) as Hlt.
  { destruct l2 as [|d l2']; [set_solver|]. apply apart_app in Hap as [_ [_ Hk]]. pose proof (apart_head_lt _ _ _ Hk Hc). unfold HDR in *. lia. }
  pose proof (end_of_gt q) as Hq. pose proof (end_of_gt c) as Hec. unfold HDR in *.
  assert (base ≤ q.1) as Hb by (apply (ring_base _ _ _ _ _ _ _ _ _ HR); set_solver).
  apply list_elem_of_split in Hc' as (k1 & k2 & E). rewrite E, (app_comm_cons k1), (app_assoc l1) in Hseg, Hap.
  apply lseg_app in Hseg as [_ (Hp & _)]. apply apart_app in Hap as [_ Hk]. unfold stop_at. rewrite Hp.
  rewrite (proj2 (Z.ltb_ge c.1 bp)) by lia. cbn [andb orb]. destruct k2 as [|d k2]; cbn [head_addr].
  - rewrite (proj2 (Z.ltb_ge bp base)) by lia. by rewrite andb_false_r.
  - assert (end_of c ≤ d.1) by (apply (apart_lt c _ Hk); set_solver). by rewrite (proj2 (Z.leb_gt d.1 c.1)) by lia.
Qed.

(** The search finds the place from wherever it starts. *)
Lemma ring_search m base l l1 q l2 bp bs fp n : ring_at m base l l1 q l2 bp bs → fp ∈ base :: l.*1 → (length l < n)%nat → free_search n m bp fp = Some q.1.
Proof.
  intros HR Hfp Hn. pose proof (ring_stop_here _ _ _ _ _ _ _ _ HR) as Hh. pose proof (ring_stop_before _ _ _ _ _ _ _ _ HR) as Hb.
  pose proof (ring_stop_after _ _ _ _ _ _ _ _ HR) as Ha. destruct HR as [Hring Hseg _ _ _].
  change (base :: l.*1) with (((base, 0) :: l).*1) in Hfp. apply list_elem_of_fmap in Hfp as (b & -> & Hin).
  assert (length l = length l1 + length l2)%nat as Hlen.
  { apply (f_equal length) in Hring. rewrite length_app in Hring. cbn in Hring. lia. }
  assert (lseg m (l1 ++ q :: l2) (head_addr (l1 ++ q :: l2) 0)) as Hs by (rewrite <- Hring; exact Hseg).
  rewrite Hring in Hin. apply elem_of_app in Hin as [Hin|[->|Hin]%elem_of_cons].
  - apply list_elem_of_split in Hin as (k1 & k2 & E). rewrite E, <- app_assoc in Hs. apply lseg_rotate in Hs.
    rewrite <- app_comm_cons, <- (app_comm_cons (k2 ++ _)), <- !app_assoc, (app_comm_cons k2) in Hs. cbn [app] in Hs.
    rewrite E in Hb, Hlen. apply Forall_app in Hb as [_ Hb]. rewrite length_app in Hlen. cbn in Hlen.
    apply (search_stops m bp (b :: k2) q (l2 ++ k1) _ n) in Hs; [exact Hs|done|done|cbn; lia].
  - apply lseg_rotate in Hs. apply (search_stops m bp [] q (l2 ++ l1) _ n) in Hs; [exact Hs|done|done|cbn; lia].
  - apply list_elem_of_split in Hin as (k1 & k2 & E). rewrite E, (app_comm_cons k1), (app_assoc l1) in Hs. apply lseg_rotate in Hs.
    rewrite (app_assoc (b :: k2)) in Hs.
    rewrite E in Ha, Hlen. apply Forall_app in Ha as [_ Ha]. rewrite length_app in Hlen. cbn in Hlen.
    apply (search_stops m bp ((b :: k2) ++ l1) q k1 _ n) in Hs; [exact Hs|by apply Forall_app_2|done|rewrite length_app; cbn; lia].
Qed.

(** *** Inserting and coalescing *)

(** [l'] covers the same units as [l]. *)
Record covers (l l' : list blk) : Prop := {
  cv_units : units l' = units l;
  cv_disjoint : ∀ x, disjoint_all x l → disjoint_all x l';
  cv_inside : ∀ b, b ∈ l → ∃ b', b' ∈ l' ∧ b'.1 ≤ b.1 ∧ end_of b ≤ end_of b' }.

Lemma covers_refl l : covers l l.
Proof. split; [done..|]. intros b Hb. by exists b. Qed.
Lemma units_cons b l : units (b :: l) = b.2 + units l.
Proof. done. Qed.
Lemma units_app l1 l2 : units (l1 ++ l2) = units l1 + units l2.
Proof. induction l1 as [|b l1 IH]; [done|]. cbn [app]. rewrite !units_cons, IH. lia. Qed.
Lemma covers_app l1 l2 l2' : covers l2 l2' → covers (l1 ++ l2) (l1 ++ l2').
Proof.
  intros [Hu Hd Hi]. split; [by rewrite !units_app, Hu| |].
  - intros x H b [Hb|Hb]%elem_of_app; [apply H, elem_of_app; by left|]. apply Hd; [|done]. intros c Hc. apply H, elem_of_app. by right.
  - intros b [Hb|Hb]%elem_of_app; [exists b; split; [apply elem_of_app; by left|done]|].
    destruct (Hi b Hb) as (b' & Hb' & ?). exists b'. split; [apply elem_of_app; by right|done].
Qed.
Lemma covers_trans l1 l2 l3 : covers l1 l2 → covers l2 l3 → covers l1 l3.
Proof.
  intros [H1 H2 H3] [K1 K2 K3]. split; [congruence|auto|]. intros b Hb. destruct (H3 b Hb) as (b1 & Hb1 & ? & ?).
  destruct (K3 b1 Hb1) as (b2 & Hb2 & ? & ?). exists b2. split; [done|lia].
Qed.
(** Two blocks that touch become one. *)
Lemma covers_merge a s t l : 1 ≤ s → 1 ≤ t → covers ((a, s) :: (a + HDR * s, t) :: l) ((a, s + t) :: l).
Proof.
  intros Hs Ht. split; [cbn; lia| |].
  - intros x H b [->|Hb]%elem_of_cons; [|apply H; by do 2 right].
    pose proof (H (a, s) ltac:(by left)) as H1. pose proof (H (a + HDR * s, t) ltac:(right; by left)) as H2.
    unfold disjoint_blk, end_of, HDR in *. cbn in *. lia.
  - intros b [->|[->|Hb]%elem_of_cons]%elem_of_cons; [..|exists b; split; [by right|lia]];
      exists (a, s + t); (split; [by left|]); unfold end_of, HDR; cbn; lia.
Qed.

Lemma hadd_small top a s : top ≤ KERNBASE → 0 ≤ a → 0 ≤ s → a + HDR * s ≤ top → hadd a s = a + HDR * s.
Proof. intros. unfold hadd, u32, HDR, KERNBASE in *. apply Z.mod_small. lia. Qed.

Lemma hadd_1 top a : top ≤ KERNBASE → 0 ≤ a → a + HDR ≤ top → hadd a 1 = a + HDR.
Proof. intros. rewrite (hadd_small top); unfold HDR in *; lia. Qed.

(** The first half of [free_insert], with [nxt] for [p->s.ptr]. *)
Definition insert_right (m : wmem) (bp nxt : Z) : wmem :=
  if hadd bp (size m bp) =? nxt then
    let m := set_size m bp (u32 (size m bp + size m nxt)) in set_ptr m bp (ptr m nxt)
  else set_ptr m bp nxt.

Lemma insert_right_frame m bp nxt a : a ≠ bp → a ≠ bp + 4 → insert_right m bp nxt a = m a.
Proof. intros. unfold insert_right, set_ptr, set_size. destruct (_ =? _); by rewrite !upd_ne by done. Qed.

(** A write to the header of [bp] does not touch a list that lies apart from it. *)
Lemma lseg_upd_far m l nxt bp o v : o = 0 ∨ o = 4 → (∀ b, b ∈ l → bp + HDR ≤ b.1 ∨ end_of b ≤ bp) →
  lseg (upd m (bp + o) v) l nxt ↔ lseg m l nxt.
Proof.
  intros Ho H. apply lseg_upd. intros b Hb. pose proof (end_of_gt b). destruct (H b Hb); unfold HDR in *; lia.
Qed.

Lemma insert_right_ok top m base bp bs l : top ≤ KERNBASE → 0 < base < bp → lseg m l base → apart l →
  match l with c :: _ => bp + HDR * bs ≤ c.1 | [] => True end → Forall (block_ok top) l →
  size m bp = bs → 1 ≤ bs → bp + HDR * bs ≤ top →
  ∃ bs1 k, lseg (insert_right m bp (head_addr l base)) ((bp, bs1) :: k) base ∧ apart ((bp, bs1) :: k) ∧
    Forall (block_ok top) ((bp, bs1) :: k) ∧ covers ((bp, bs) :: l) ((bp, bs1) :: k) ∧ bs ≤ bs1.
Proof.
  intros Htop Hbase Hl Hap Hplace Hok Hsz Hbs Hend. unfold insert_right. rewrite Hsz.
  assert (∀ l', apart l' → match l' with c :: _ => bp + HDR * bs ≤ c.1 | [] => True end →
           ∀ b, b ∈ l' → bp + HDR ≤ b.1 ∨ end_of b ≤ bp) as Hfar.
  { intros [|c l'] Ha Hp b Hb; [set_solver|]. left. pose proof (apart_head_lt c l' b Ha Hb). unfold HDR in *. lia. }
  rewrite (hadd_small top bp bs) by (unfold HDR in *; lia).
  assert (end_of (bp, bs) ≤ top) as Hendof by (unfold end_of, HDR in *; cbn; lia).
  destruct (Z.eqb_spec (bp + HDR * bs) (head_addr l base)) as [E|E].
  - destruct l as [|[c cs] l']; cbn [head_addr fst] in E; [unfold HDR in *; lia|]. cbn [head_addr fst].
    destruct Hl as (Hp & Hs & Hl). cbn [fst snd] in *. destruct Hap as [Hc Hap]. apply Forall_cons in Hok as [[Hcs Hcend] Hok]. cbn [fst snd] in *.
    assert (0 ≤ bs + cs < 2 ^ 32) as Hsum by (unfold end_of, HDR, KERNBASE in *; cbn in *; lia).
    exists (bs + cs), l'. unfold set_ptr, set_size. rewrite Hs.
    assert (ptr (upd m (bp + 4) (u32 (bs + cs))) c = head_addr l' base) as Hpc.
    { unfold ptr. rewrite upd_ne; [done|]. unfold HDR in *. lia. }
    rewrite Hpc. unfold u32. rewrite Z.mod_small by lia.
    assert (∀ b, b ∈ l' → bp + HDR ≤ b.1 ∨ end_of b ≤ bp) as Hfar'.
    { apply Hfar; [done|]. destruct l' as [|d l']; [done|]. unfold end_of, HDR in *. cbn in *. lia. }
    split_and!.
    + cbn [lseg fst snd]. unfold ptr at 1, size at 1. rewrite upd_eq, upd_ne, upd_eq by (unfold HDR; lia). split_and!; [done..|].
      pose proof (λ m v, lseg_upd_far m l' base bp 0 v (or_introl eq_refl) Hfar') as H0. rewrite Z.add_0_r in H0. rewrite H0.
      by rewrite lseg_upd_far by auto.
    + split; [|done]. destruct l' as [|d l']; [done|]. unfold end_of, HDR in *. cbn in *. lia.
    + constructor; [|done]. unfold block_ok, end_of, HDR in *. cbn in *. lia.
    + rewrite <- E. by apply covers_merge.
    + lia.
  - exists bs, l. unfold set_ptr. split_and!; [| | |apply covers_refl|done].
    + cbn [lseg fst snd]. unfold ptr at 1. rewrite upd_eq. unfold size at 1. rewrite upd_ne by lia. split_and!; [done..|].
      pose proof (λ m v, lseg_upd_far m l base bp 0 v (or_introl eq_refl) (Hfar l Hap Hplace)) as H0. rewrite Z.add_0_r in H0. by rewrite H0.
    + split; [|done]. destruct l as [|c l]; [done|]. cbn [head_addr] in E. unfold end_of, HDR in *. cbn in *. lia.
    + by constructor.
Qed.

(** The second half. *)
Definition insert_left (m : wmem) (p bp : Z) : wmem :=
  if hadd p (size m p) =? bp then
    let m := set_size m p (u32 (size m p + size m bp)) in set_ptr m p (ptr m bp)
  else set_ptr m p bp.

Lemma insert_left_frame m p bp a : a ≠ p → a ≠ p + 4 → insert_left m p bp a = m a.
Proof. intros. unfold insert_left, set_ptr, set_size. destruct (_ =? _); by rewrite !upd_ne by done. Qed.

Lemma free_insert_halves m bp p : p ≠ bp + 4 →
  free_insert m bp p = mk_umem (insert_left (insert_right m bp (ptr m p)) p bp) p.
Proof.
  intros H. unfold free_insert. cbv zeta.
  assert (∀ v, ptr (set_size m bp v) p = ptr m p) as Hp by (intros v; apply upd_ne; lia). by rewrite Hp.
Qed.

Lemma insert_left_ok top m base l1 q bp bs k : top ≤ KERNBASE → 0 < q.1 → 0 ≤ q.2 → end_of q ≤ bp → 1 ≤ bs →
  lseg m l1 q.1 → size m q.1 = q.2 → lseg m ((bp, bs) :: k) base → apart (l1 ++ [q]) → apart ((bp, bs) :: k) →
  Forall (block_ok top) ((bp, bs) :: k) →
  ∃ r, lseg (insert_left m q.1 bp) (l1 ++ r) base ∧ apart (l1 ++ r) ∧
    (r = q :: (bp, bs) :: k ∨ 1 ≤ q.2 ∧ ∃ s, r = (q.1, s) :: k ∧ block_ok top (q.1, s) ∧ covers (q :: (bp, bs) :: k) r).
Proof.
  intros Htop Hq1 Hq2 Hend Hbs Hl1 Hsz Hl Ha1 Ha2 Hok. unfold insert_left. rewrite Hsz.
  pose proof (end_of_gt q) as Hgt. pose proof (Forall_cons_1 _ _ _ Hok) as [[_ Hbend] Hok']. pose proof (end_of_gt (bp, bs)) as Hbgt. cbn [fst snd] in *.
  rewrite (hadd_small top q.1 q.2) by (unfold HDR in *; lia).
  assert (∀ b, b ∈ l1 → q.1 + HDR ≤ b.1 ∨ end_of b ≤ q.1) as Hfar1 by (intros b Hb; right; by apply (apart_before l1 q)).
  assert (∀ b, b ∈ (bp, bs) :: k → q.1 + HDR ≤ b.1 ∨ end_of b ≤ q.1) as Hfar2.
  { intros b Hb. left. pose proof (apart_head_lt _ _ _ Ha2 Hb). cbn in *. lia. }
  assert (∀ m v l nxt, (∀ b, b ∈ l → q.1 + HDR ≤ b.1 ∨ end_of b ≤ q.1) → lseg (upd m q.1 v) l nxt ↔ lseg m l nxt) as Hupd0.
  { intros m' v l nxt Hb. rewrite <- (Z.add_0_r q.1). apply lseg_upd_far; [by left|done]. }
  destruct (Z.eqb_spec (q.1 + HDR * q.2) bp) as [E|E].
  - assert (1 ≤ q.2) as Hq by (unfold HDR in *; lia). destruct Hl as (Hp & Hs & Hl). cbn [fst snd] in *.
    assert (0 ≤ q.2 + bs < 2 ^ 32) as Hsum by (unfold end_of, HDR, KERNBASE in *; cbn in *; lia).
    exists ((q.1, q.2 + bs) :: k). unfold set_ptr, set_size. rewrite Hs.
    assert (ptr (upd m (q.1 + 4) (u32 (q.2 + bs))) bp = head_addr k base) as Hpc.
    { unfold ptr. rewrite upd_ne; [done|]. unfold HDR in *. lia. }
    rewrite Hpc. unfold u32. rewrite Z.mod_small by lia. split_and!.
    + apply lseg_app. cbn [head_addr fst]. rewrite Hupd0, lseg_upd_far by auto. split; [done|].
      cbn [lseg fst snd]. unfold ptr at 1, size at 1. rewrite upd_eq, upd_ne, upd_eq by lia. split_and!; [done..|].
      rewrite Hupd0, lseg_upd_far; [done|by auto|intros; apply Hfar2; set_solver|intros; apply Hfar2; set_solver].
    + apply apart_app_inv; [by apply (apart_last l1 q)|].
      destruct Ha2 as [Hb Ha2]. split; [|done]. destruct k as [|d k]; [done|]. unfold end_of, HDR in *. cbn in *. lia.
    + right. split; [done|]. exists (q.2 + bs). split; [done|]. split; [unfold block_ok, end_of, HDR in *; cbn in *; lia|].
      rewrite <- E. destruct q as [qa qs]. by apply covers_merge.
  - exists (q :: (bp, bs) :: k). unfold set_ptr. split_and!; [| |by left].
    + apply lseg_app. cbn [head_addr]. rewrite Hupd0 by done. split; [done|].
      cbn [lseg head_addr fst snd]. unfold ptr at 1, size at 1. rewrite upd_eq, upd_ne by lia. split; [done|split; [done|]].
      change (lseg (upd m q.1 bp) ((bp, bs) :: k) base). by rewrite Hupd0.
    + apply apart_app_inv; [done|]. split; [|done]. cbn. unfold HDR in *. lia.
Qed.

Lemma covers_perm l l' : l ≡ₚ l' → covers l l'.
Proof.
  intros H. split; [|intros x Hx b Hb; apply Hx; by rewrite H|intros b Hb; exists b; by rewrite <- H]. unfold units.
  induction H as [|b l l' _ IH|b c l|l1 l2 l3 _ IH1 _ IH2]; cbn in *; lia.
Qed.
Lemma units_length top l : Forall (block_ok top) l → Z.of_nat (length l) ≤ units l.
Proof. induction 1 as [|b l [Hb _] _ IH]; [done|]. rewrite units_cons. cbn [length]. lia. Qed.

Lemma lseg_frame m m' l nxt : (∀ b, b ∈ l → m' b.1 = m b.1 ∧ m' (b.1 + 4) = m (b.1 + 4)) → lseg m l nxt → lseg m' l nxt.
Proof.
  intros H. induction l as [|b l IH]; [done|]. intros (H1 & H2 & H3). destruct (H b) as [F1 F2]; [set_solver|].
  cbn. unfold ptr, size. rewrite F1, F2. split_and!; [done..|]. apply IH; [|done]. intros; apply H; set_solver.
Qed.

Lemma free_insert_ok top m base l1 q l2 bp bs : top ≤ KERNBASE → 0 < base ≤ q.1 → lseg m (l1 ++ q :: l2) base →
  apart (l1 ++ q :: l2) → Forall (block_ok top) l2 → 0 ≤ q.2 → place l1 q l2 bp bs →
  size m bp = bs → block_ok top (bp, bs) →
  ∃ r, lseg (words (free_insert m bp q.1)) (l1 ++ r) base ∧ apart (l1 ++ r) ∧
    ((∃ k, r = q :: k ∧ Forall (block_ok top) k ∧ covers ((bp, bs) :: l2) k) ∨
     1 ≤ q.2 ∧ q.1 ∈ r.*1 ∧ Forall (block_ok top) r ∧ covers (q :: (bp, bs) :: l2) r).
Proof.
  intros Htop Hbq Hseg Hap Hok2 Hq2 [Hqend Hpl] Hsz [Hbs Hend]. pose proof (end_of_gt (bp, bs)) as Hgt. pose proof (end_of_gt q) as Hgq.
  cbn [fst snd] in *. apply lseg_app in Hseg as [Hs1 (Hpq & Hsq & Hs2)]. apply apart_app in Hap as [Ha1 Ha2]. cbn [head_addr] in Hs1.
  rewrite free_insert_halves by (unfold HDR in *; lia). rewrite Hpq. cbn [words].
  destruct (insert_right_ok top m base bp bs l2) as (bs1 & k & Hseg' & Hap' & Hok' & Hcov & Hle);
    [lia|unfold HDR in *; lia|done|apply Ha2|done|done|done|done|lia|].
  set (m1 := insert_right _ _ _) in *.
  assert (∀ b, end_of b ≤ bp → m1 b.1 = m b.1 ∧ m1 (b.1 + 4) = m (b.1 + 4)) as Hfr.
  { intros b Hb'. pose proof (end_of_gt b). unfold HDR in *. unfold m1. split; apply insert_right_frame; lia. }
  assert (lseg m1 l1 q.1) as Hs1'.
  { eapply lseg_frame; [|exact Hs1]. intros b Hb. apply Hfr. pose proof (apart_before l1 q Ha1 b Hb). unfold HDR in *. lia. }
  destruct (insert_left_ok top m1 base l1 q bp bs1 k) as (r & Hr & Har & Hcase);
    [lia|lia|done|done|lia|done|unfold size; by rewrite (proj2 (Hfr q Hqend))|done..|].
  exists r. split; [done|]. split; [done|]. destruct Hcase as [->|(Hq & s & -> & Hs & Hcov')].
  - left. by exists ((bp, bs1) :: k).
  - right. apply Forall_cons in Hok' as [_ Hok']. split; [done|]. split; [by left|]. split; [by constructor|].
    eapply covers_trans; [|exact Hcov']. by apply (covers_app [q]).
Qed.
Lemma free_insert_frame m bp p a : p ≠ bp + 4 → a ≠ bp → a ≠ bp + 4 → a ≠ p → a ≠ p + 4 → words (free_insert m bp p) a = m a.
Proof. intros. rewrite free_insert_halves by done. cbn. by rewrite insert_left_frame, insert_right_frame by done. Qed.

(** The ring after a block [(bp, bs)] has been returned to it. *)
Lemma free_ring n base top u l bp bs : ring_ok base top u l → size (words u) bp = bs → base + HDR ≤ bp →
  block_ok top (bp, bs) → disjoint_all (bp, bs) l → (length l < n)%nat →
  ∃ u' l', free n (bp + HDR) u = Some u' ∧ ring_ok base top u' l' ∧ covers ((bp, bs) :: l) l' ∧
    ∀ a s, base + HDR ≤ a → disjoint_all (a, s) ((bp, bs) :: l) → size (words u') a = size (words u) a.
Proof.
  intros [Hseg Hap Hfp Hok [Hb Htop]] Hsz Hbp Hbok Hdis Hn. pose proof (end_of_gt (bp, bs)) as Hgt. cbn [fst snd] in *.
  destruct (place_exists (base, 0) l bp bs) as (l1 & q & l2 & E & Hpl); [apply Hbok|done|exact Hbp|exact Hdis|].
  assert (ring_at (words u) base l l1 q l2 bp bs) as HR by (constructor; try done; apply Hbok).
  pose proof (ring_base _ _ _ _ _ _ _ _ q HR ltac:(set_solver)) as Hbq. pose proof (end_of_gt q) as Hgq.
  pose proof Hbok as [Hbs Hend]. unfold free.
  replace (u32 (bp + HDR - HDR)) with bp by (unfold u32, HDR, KERNBASE in *; rewrite Z.mod_small; lia).
  rewrite (ring_search _ _ _ _ _ _ _ _ _ n HR Hfp Hn). cbn [mbind option_bind].
  assert (q = (base, 0) ∨ q ∈ l) as Hq by (assert (q ∈ (base, 0) :: l) by (rewrite E; set_solver); set_solver).
  assert (0 ≤ q.2) as Hq2.
  { destruct Hq as [->|Hq]; [done|]. eapply Forall_forall in Hok as [? _]; [|exact Hq]. lia. }
  destruct (free_insert_ok top (words u) base l1 q l2 bp bs) as (r & Hr & Har & Hcase);
    [lia|lia|by rewrite <- E|by rewrite <- E| |done|done|done|done|].
  { destruct l1; injection E as <- ->; [done|]. by apply Forall_app in Hok as [_ [_ ?]%Forall_cons]. }
  assert (∃ l', l1 ++ r = (base, 0) :: l' ∧ q.1 ∈ base :: l'.*1 ∧ Forall (block_ok top) l' ∧ covers ((bp, bs) :: l) l') as (l' & E' & Hfp' & Hok' & Hcov).
  { destruct l1 as [|c l1]; injection E as <- ->.
    - destruct Hcase as [(k & -> & Hk & Hcov)|[Hlt _]]; [|cbn in Hlt; lia]. exists k. split_and!; [done|by left|done|done].
    - apply Forall_app in Hok as [Hok1 [Hokq _]%Forall_cons]. exists (l1 ++ r). split; [done|].
      assert (q.1 ∈ r.*1 ∧ Forall (block_ok top) r ∧ covers (q :: (bp, bs) :: l2) r) as (H1 & H2 & H3).
      { destruct Hcase as [(k & -> & Hk & Hcov)|(_ & H1 & H2 & H3)]; [|done]. split; [by left|]. split; [by constructor|].
        by apply (covers_app [q]). }
      split; [right; rewrite fmap_app; apply elem_of_app; by right|]. split; [by apply Forall_app|]. eapply covers_trans; [|apply covers_app, H3].
      apply covers_perm. by rewrite (Permutation_middle l1), Permutation_swap. }
  rewrite E' in Hr, Har. eexists _, l'. split; [reflexivity|]. split; [by constructor|]. split; [done|].
  intros a s Ha Hd. pose proof (Hd (bp, bs) ltac:(by left)) as Hd1. unfold size.
  assert (a + 4 ≠ q.1 ∧ a ≠ q.1) as [Hn1 Hn2].
  { destruct Hq as [->|Hq]; [cbn; unfold HDR in *; lia|]. pose proof (Hd q ltac:(by right)) as Hd2. unfold disjoint_blk, end_of, HDR in *. cbn in *. lia. }
  destruct Hpl as [Hqend _]. clear -Hn1 Hn2 Hd1 Hqend Hgq Hbs.
  unfold disjoint_blk, end_of, HDR in *. cbn in *. apply free_insert_frame; lia.
Qed.

(** *** Taking a block *)

Lemma apart_nodup l : apart l → NoDup l.*1.
Proof.
  induction l as [|b l IH]; intros H; [constructor|]. cbn. constructor; [|apply IH, H].
  intros (c & E & Hc)%list_elem_of_fmap. pose proof (apart_lt b l H c Hc). pose proof (end_of_gt b). unfold HDR in *. lia.
Qed.
Lemma apart_remove l1 p b l2 : 0 ≤ b.2 → apart (l1 ++ p :: b :: l2) → apart (l1 ++ p :: l2).
Proof.
  intros Hb H. apply apart_app in H as [H1 [H2 [H3 H4]]]. apply apart_app_inv; [done|]. split; [|done].
  destruct l2 as [|c l2]; [done|]. unfold end_of, HDR in *. lia.
Qed.
Lemma apart_shrink l1 a s t l2 : t ≤ s → apart (l1 ++ (a, s) :: l2) → apart (l1 ++ (a, t) :: l2).
Proof.
  intros Ht H. apply apart_app in H as [H1 [H2 H3]]. apply apart_app_inv; [by eapply apart_last|]. split; [|done].
  destruct l2 as [|c l2]; [done|]. unfold end_of, HDR in *. cbn in *. lia.
Qed.
(** A block of the list and the others. *)
Lemma apart_others l1 b l2 : apart (l1 ++ b :: l2) → ∀ c, c ∈ l1 ++ l2 → end_of b ≤ c.1 ∨ end_of c ≤ b.1.
Proof.
  intros H c [Hc|Hc]%elem_of_app; apply apart_app in H as [H1 H2]; [right; by apply (apart_before l1)|left; by apply (apart_lt b l2)].
Qed.

(** What [carve] leaves: the block [(a, nunits)] and the ring [l']. *)
Record carved (base top : Z) (u : umem) (l : list blk) (nunits : Z) (r : Z * umem) (l' : list blk) : Prop := {
  ca_ring : ring_ok base top r.2 l';
  ca_units : units l' = units l - nunits;
  ca_old : ∀ x, disjoint_all x l → disjoint_all x ((r.1 - HDR, nunits) :: l');
  ca_new : disjoint_all (r.1 - HDR, nunits) l';
  ca_block : base + HDR ≤ r.1 - HDR ∧ block_ok top (r.1 - HDR, nunits) ∧ size (words r.2) (r.1 - HDR) = nunits;
  ca_frame : ∀ a s, base + HDR ≤ a → disjoint_all (a, s) l → size (words r.2) a = size (words u) a }.

Lemma ring_base_lt base top u l b : ring_ok base top u l → b ∈ l → base + HDR ≤ b.1.
Proof. intros [_ Hap _ _ _] Hb. apply (apart_lt (base, 0) l Hap b Hb). Qed.

(** Unlinking a block from the ring. *)
Lemma lseg_remove m l1 prevp ps b l2 base : 0 ≤ b.2 → apart (l1 ++ (prevp, ps) :: b :: l2) →
  lseg m (l1 ++ (prevp, ps) :: b :: l2) base → lseg (upd m prevp (head_addr l2 base)) (l1 ++ (prevp, ps) :: l2) base.
Proof.
  intros Hb Hap Hseg. apply lseg_app in Hseg as [Hs1 (_ & Hps & _ & _ & Hs2)]. cbn [head_addr fst snd] in *.
  pose proof (apart_others l1 (prevp, ps) l2 (apart_remove _ _ _ _ Hb Hap)) as Hfar. pose proof (end_of_gt (prevp, ps)) as Hgp.
  assert (∀ l nxt, (∀ c, c ∈ l → c ∈ l1 ++ l2) → lseg (upd m prevp (head_addr l2 base)) l nxt ↔ lseg m l nxt) as Hup.
  { intros k nxt Hk. rewrite <- (Z.add_0_r prevp). apply lseg_upd_far; [by left|]. intros c Hc. pose proof (Hfar c (Hk c Hc)). cbn in *. lia. }
  apply lseg_app. cbn [head_addr fst]. rewrite Hup by (intros; apply elem_of_app; by left). split; [done|]. cbn [lseg fst snd].
  unfold ptr at 1, size at 1. rewrite upd_eq, upd_ne by lia. split; [done|]. split; [done|].
  rewrite Hup by (intros; apply elem_of_app; by right). done.
Qed.
Lemma ring_remove (base : Z) (l l1 l2 : list blk) prevp ps b : (base, 0) :: l = l1 ++ (prevp, ps) :: b :: l2 →
  ∃ l', l1 ++ (prevp, ps) :: l2 = (base, 0) :: l' ∧ l ≡ₚ b :: l' ∧ prevp ∈ base :: l'.*1 ∧ (prevp = base ∨ (prevp, ps) ∈ l').
Proof.
  destruct l1 as [|c l1]; intros E; cbn in E; simplify_eq/=.
  - exists l2. split_and!; [done|done|by left|by left].
  - exists (l1 ++ (prevp, ps) :: l2). split; [done|]. split_and!.
    + by rewrite (Permutation_middle l1 _ b), Permutation_swap.
    + right. rewrite fmap_app. apply elem_of_app. right. by left.
    + right. apply elem_of_app. right. by left.
Qed.
(** A header outside the free blocks. *)
Lemma outside_ne base l a s p ps : base + HDR ≤ a → disjoint_all (a, s) l → p = base ∨ (p, ps) ∈ l →
  a ≠ p ∧ a + 4 ≠ p ∧ a ≠ p + 4.
Proof.
  intros Ha Hd [->|Hp]; [unfold HDR in *; lia|]. pose proof (Hd _ Hp) as H. unfold disjoint_blk, end_of, HDR in *. cbn in *. lia.
Qed.

(** The whole block is taken. *)
Lemma carve_exact base top u l1 prevp ps b l2 l nunits : ring_ok base top u l → (base, 0) :: l = l1 ++ (prevp, ps) :: b :: l2 →
  size (words u) b.1 = nunits → ∃ l', carved base top u l nunits (carve (words u) nunits prevp b.1) l'.
Proof.
  intros HR E Hn. pose proof HR as [Hseg Hap Hfp Hok [Hb Htop]]. pose proof E as E0. rewrite E in Hseg, Hap.
  pose proof Hseg as Hseg0. apply lseg_app in Hseg as [_ (_ & _ & Hpb & Hsb & _)]. cbn [head_addr fst snd] in *.
  assert (b ∈ l) as Hbl. { clear -E. destruct l1; cbn in E; simplify_eq/=; [by left|]. apply elem_of_app. do 2 right. by left. }
  assert (block_ok top b) as [Hbs Hbend] by (by eapply Forall_forall in Hok).
  pose proof (ring_base_lt _ _ _ _ _ HR Hbl) as Hbb. assert (nunits = b.2) as -> by congruence.
  pose proof (end_of_gt b) as Hgb. pose proof (end_of_gt (prevp, ps)) as Hgp. cbn [fst snd] in *.
  unfold carve. rewrite Hn, Z.eqb_refl, Hpb, (hadd_1 top) by (unfold HDR in *; lia).
  assert (0 ≤ b.2) as Hb0 by lia. pose proof (lseg_remove _ _ _ _ _ _ _ Hb0 Hap Hseg0) as Hseg'.
  pose proof (apart_remove _ _ _ _ Hb0 Hap) as Hap'. destruct (ring_remove _ _ _ _ _ _ _ E) as (l' & E' & Hperm & Hfp' & Hpl).
  rewrite cons_middle, (app_assoc l1) in Hap. pose proof (apart_others (l1 ++ [(prevp, ps)]) b l2 Hap) as Hbd.
  rewrite <- app_assoc in Hbd. cbn [app] in Hbd. rewrite E' in Hseg', Hap', Hbd.
  exists l'. pose proof (covers_perm _ _ Hperm) as [Hu Hd _]. rewrite units_cons in Hu.
  replace (b.1 + HDR - HDR) with b.1 by lia. assert (b = (b.1, b.2)) as Hbeq by by destruct b.
  split; cbn [fst snd words]; replace (b.1 + HDR - HDR) with b.1 by lia; rewrite <- ?Hbeq.
  - split; cbn [words freep]; [done|done|done| |done]. rewrite Hperm in Hok. by apply Forall_cons in Hok as [_ ?].
  - lia.
  - done.
  - intros c Hc. apply Hbd. by right.
  - split; [done|]. split; [done|]. unfold size, set_ptr. rewrite upd_ne; [done|].
    destruct (outside_ne base l' b.1 b.2 prevp ps) as (? & ? & ?); [done| |done|done]. rewrite <- Hbeq. intros c Hc. apply Hbd. by right.
  - intros a s Ha Hda. unfold size, set_ptr. apply upd_ne. destruct (outside_ne base l a s prevp ps) as (? & ? & ?); [done..| |done].
    destruct Hpl as [->|Hpl]; [by left|]. right. rewrite Hperm. by right.
Qed.

Lemma size_set_size m p v : size (set_size m p v) p = v.
Proof. apply upd_eq. Qed.

(** The tail of the block is taken. *)
Lemma lseg_shrink m l1 b l2 base t : 1 ≤ t → 1 ≤ b.2 → apart (l1 ++ b :: l2) →
  lseg m (l1 ++ b :: l2) base → lseg (upd m (b.1 + 4) t) (l1 ++ (b.1, t) :: l2) base.
Proof.
  intros Ht Hb Hap Hseg. apply lseg_app in Hseg as [Hs1 (Hp & _ & Hs2)]. cbn [head_addr fst snd] in *.
  pose proof (apart_others l1 b l2 Hap) as Hfar. pose proof (end_of_gt b) as Hgp.
  assert (∀ l nxt, (∀ c, c ∈ l → c ∈ l1 ++ l2) → lseg (upd m (b.1 + 4) t) l nxt ↔ lseg m l nxt) as Hup.
  { intros k nxt Hk. apply lseg_upd_far; [by right|]. intros c Hc. pose proof (Hfar c (Hk c Hc)). lia. }
  apply lseg_app. cbn [head_addr fst]. rewrite Hup by (intros; apply elem_of_app; by left). split; [done|]. cbn [lseg fst snd].
  unfold ptr at 1, size at 1. rewrite upd_eq, upd_ne by lia. split; [done|]. split; [done|].
  rewrite Hup by (intros; apply elem_of_app; by right). done.
Qed.
Lemma carve_split base top u l1 b l2 l nunits prevp : ring_ok base top u l → l = l1 ++ b :: l2 →
  prevp ∈ base :: l.*1 → 1 ≤ nunits < b.2 → ∃ l', carved base top u l nunits (carve (words u) nunits prevp b.1) l'.
Proof.
  destruct b as [bp bs]. intros HR -> Hprev Hn. cbn [fst snd] in *. pose proof HR as [Hseg Hap Hfp Hok [Hb Htop]]. rewrite app_comm_cons in Hseg, Hap.
  pose proof Hseg as Hs0. apply lseg_app in Hs0 as [_ (_ & Hsb & _)]. cbn [app] in *.
  pose proof (ring_base_lt _ _ _ _ (bp, bs) HR ltac:(apply elem_of_app; right; by left)) as Hbb.
  pose proof Hok as [Hok1 [Hokb Hok2]%Forall_cons]%Forall_app. pose proof Hokb as [Hbs Hbend]. pose proof (end_of_gt (bp, bs)) as Hgb.
  cbn [fst snd] in *. set (t := bs - nunits). set (a := bp + HDR * t). assert (1 ≤ t) as Ht by (unfold t; lia).
  assert (end_of (bp, bs) = a + HDR * nunits ∧ bp + HDR ≤ a) as [Hae Hba] by (unfold a, end_of, t, HDR in *; cbn; lia).
  pose proof (lseg_shrink (words u) ((base, 0) :: l1) (bp, bs) l2 base t Ht Hbs Hap Hseg) as Hseg'.
  pose proof (apart_others ((base, 0) :: l1) (bp, bs) l2 Hap) as Hfar.
  cbn [fst snd] in *. pose proof (apart_shrink ((base, 0) :: l1) bp bs t l2 ltac:(unfold t; lia) Hap) as Hap'.
  assert (carve (words u) nunits prevp bp = (a + HDR, mk_umem (upd (upd (words u) (bp + 4) t) (a + 4) nunits) prevp)) as ->.
  { unfold carve. rewrite Hsb, (proj2 (Z.eqb_neq _ _)) by lia. cbv zeta. rewrite size_set_size. fold t. replace (u32 t) with t by (unfold u32, t, end_of, HDR, KERNBASE in *; cbn in *; rewrite Z.mod_small; lia).
    rewrite (hadd_small top bp t) by (unfold a, HDR in *; lia). fold a. by rewrite (hadd_1 top a) by (unfold HDR in *; lia). }
  exists (l1 ++ (bp, t) :: l2). split; cbn [fst snd words]; replace (a + HDR - HDR) with a by lia.
  - split; cbn [words freep]; [| |by rewrite fmap_app in *| |done].
    + rewrite app_comm_cons, lseg_upd; [done|]. intros c Hc.
      assert (c = (bp, t) ∨ c ∈ ((base, 0) :: l1) ++ l2) as [->|Hc'] by set_solver; [cbn; unfold HDR in *; lia|].
      pose proof (Hfar c Hc'). pose proof (end_of_gt c). unfold HDR in *. lia.
    + exact Hap'.
    + apply Forall_app. split; [done|]. constructor; [|done]. unfold block_ok, end_of, t, HDR in *. cbn in *. lia.
  - rewrite !units_app, !units_cons. cbn. unfold t. lia.
  - intros x Hx. pose proof (Hx (bp, bs) ltac:(apply elem_of_app; right; by left)) as Hxb.
    intros c [->|[Hc|[->|Hc]%elem_of_cons]%elem_of_app]%elem_of_cons; [| |
      |apply Hx, elem_of_app; right; by right]; [|by apply Hx, elem_of_app; left|]; clear -Hxb Hae Ht Hn Hba;
      unfold disjoint_blk, end_of, a, t, HDR in *; cbn in *; lia.
  - intros c [Hc|[->|Hc]%elem_of_cons]%elem_of_app; [| |]; [| |].
    + pose proof (Hfar c ltac:(right; apply elem_of_app; by left)). unfold disjoint_blk, end_of, HDR in *. cbn in *. lia.
    + right. unfold end_of. cbn. unfold a. unfold HDR in *. lia.
    + pose proof (Hfar c ltac:(right; apply elem_of_app; by right)). unfold disjoint_blk, end_of, HDR in *. cbn in *. lia.
  - split; [unfold HDR in *; lia|]. split; [|unfold size; by rewrite upd_eq]. unfold block_ok, end_of, HDR in *. cbn in *. lia.
  - intros a' s Ha' Hd. pose proof (Hd (bp, bs) ltac:(apply elem_of_app; right; by left)) as Hdb. unfold size.
    unfold disjoint_blk in Hdb. pose proof (end_of_gt (a', s)). cbn in *. rewrite !upd_ne; unfold HDR in *; lia.
Qed.

(** *** The search of [malloc] *)

Lemma take_block base top u l nunits prevp b : ring_ok base top u l → prevp ∈ base :: l.*1 → ptr (words u) prevp = b.1 →
  b ∈ (base, 0) :: l → 1 ≤ nunits ≤ b.2 → ∃ l', carved base top u l nunits (carve (words u) nunits prevp b.1) l'.
Proof.
  intros HR Hprev Hp Hb Hn. apply elem_of_cons in Hb as [->|Hb]; [cbn in Hn; lia|].
  pose proof (ring_base_lt _ _ _ _ _ HR Hb) as Hlt. pose proof HR as [Hseg Hap _ _ _].
  assert (size (words u) b.1 = b.2) as Hsb.
  { apply list_elem_of_split in Hb as (k1 & k2 & ->). rewrite app_comm_cons in Hseg. by apply lseg_app in Hseg as [_ (_ & ? & _)]. }
  destruct (decide (b.2 = nunits)) as [E|E].
  - destruct (lseg_split _ _ _ prevp Hseg) as (k1 & s & k2 & Ek & Hk & _); [by apply Hprev|]. rewrite Hp in Hk.
    destruct k2 as [|c k2]; [unfold HDR in *; cbn in Hk; lia|]. cbn in Hk. rewrite Hk. eapply carve_exact; [done|exact Ek|congruence].
  - apply list_elem_of_split in Hb as (k1 & k2 & ->). eapply carve_split; [done|reflexivity|done|lia].
Qed.

Section Walk.
Context (u : umem) (nunits : Z).
Let passed (c : blk) : Prop := c.2 < nunits ∧ c.1 ≠ freep u.

Lemma loop_found l1 b l2 nxt prev : lseg (words u) (l1 ++ b :: l2) nxt → Forall passed l1 → nunits ≤ b.2 →
  ptr (words u) prev = head_addr (l1 ++ b :: l2) nxt →
  ∃ prevp, prevp ∈ prev :: l1.*1 ∧ ptr (words u) prevp = b.1 ∧ ∀ n, (length l1 < n)%nat →
    malloc_loop n nunits prev (head_addr (l1 ++ b :: l2) nxt) u = Done (carve (words u) nunits prevp b.1).
Proof.
  intros Hseg Hl1 Hb. revert prev. induction Hl1 as [|c l1 [Hc1 Hc2] _ IH]; intros prev Hp.
  - exists prev. split; [by left|]. split; [done|]. intros [|n] Hn; [cbn in Hn; lia|].
    destruct Hseg as (_ & Hs & _). cbn. rewrite Hs. by rewrite (proj2 (Z.leb_le _ _) Hb).
  - destruct Hseg as (Hpc & Hs & Hseg). destruct (IH Hseg c.1) as (prevp & Hin & Hpp & E); [done|].
    exists prevp. split; [by right|]. split; [done|]. intros [|n] Hn; [cbn in Hn; lia|]. cbn [app head_addr malloc_loop].
    rewrite Hs, (proj2 (Z.leb_gt _ _) Hc1), (proj2 (Z.eqb_neq _ _) Hc2), Hpc. apply E. cbn in Hn. lia.
Qed.
Lemma loop_none l1 b nxt n prev : lseg (words u) (l1 ++ [b]) nxt → Forall passed l1 → b.2 < nunits → b.1 = freep u →
  malloc_loop (length l1 + S n) nunits prev (head_addr (l1 ++ [b]) nxt) u =
  (r <- morecore n nunits u ;;
   let '(p, u) := r in if p =? 0 then Done (0, u) else malloc_loop n nunits p (ptr (words u) p) u).
Proof.
  intros Hseg Hl1 Hb Hfp. revert prev. induction Hl1 as [|c l1 [Hc1 Hc2] _ IH]; intros prev.
  - destruct Hseg as (_ & Hs & _). cbn [length Nat.add app head_addr malloc_loop]. by rewrite Hs, (proj2 (Z.leb_gt _ _) Hb), Hfp, Z.eqb_refl.
  - destruct Hseg as (Hpc & Hs & Hseg). cbn [length Nat.add app head_addr malloc_loop].
    rewrite Hs, (proj2 (Z.leb_gt _ _) Hc1), (proj2 (Z.eqb_neq _ _) Hc2), Hpc. by apply IH.
Qed.
End Walk.

(** The ring as [malloc] goes round it: from the block after [freep] to [freep]. *)
Lemma ring_walk base top u l : ring_ok base top u l → ∃ w fs, w ++ [(freep u, fs)] ≡ₚ (base, 0) :: l ∧
  lseg (words u) (w ++ [(freep u, fs)]) (head_addr (w ++ [(freep u, fs)]) 0) ∧
  ptr (words u) (freep u) = head_addr (w ++ [(freep u, fs)]) 0 ∧ freep u ∉ w.*1.
Proof.
  intros [Hseg Hap Hfp _ _]. pose proof (apart_nodup _ Hap) as Hnd.
  destruct (lseg_split _ _ _ _ Hseg Hfp) as (k1 & fs & k2 & E & Hp & _). exists (k2 ++ k1), fs.
  assert ((k2 ++ k1) ++ [(freep u, fs)] ≡ₚ (base, 0) :: l) as Hperm.
  { rewrite E, <- app_assoc. rewrite (Permutation_app_comm k2), <- app_assoc. done. }
  split; [done|]. split; [|split].
  - rewrite <- app_assoc. apply lseg_rotate. rewrite <- app_assoc. cbn [app]. rewrite <- E. done.
  - rewrite Hp. destruct k2; [|done]. cbn [app head_addr]. destruct k1 as [|c k1]; cbn in *; by simplify_eq.
  - rewrite <- Hperm, fmap_app in Hnd. apply NoDup_app in Hnd as (_ & Hnd & _). intros Hin. apply (Hnd _ Hin). by left.
Qed.

Lemma first_big (nunits : Z) (l : list blk) :
  (∃ l1 b l2, l = l1 ++ b :: l2 ∧ Forall (fun c => c.2 < nunits) l1 ∧ nunits ≤ b.2) ∨ Forall (fun c => c.2 < nunits) l.
Proof.
  induction l as [|b l IH]; [by right|]. destruct (Z.le_gt_cases nunits b.2) as [H|H]; [left; by exists [], b, l|].
  destruct IH as [(l1 & c & l2 & -> & H1 & H2)|IH]; [left; exists (b :: l1), c, l2; split_and!; [done|by constructor|done]|right; by constructor].
Qed.

Lemma head_addr_any (l1 : list blk) b l2 x y : head_addr (l1 ++ b :: l2) x = head_addr (l1 ++ b :: l2) y.
Proof. by destruct l1. Qed.

(** The blocks before the first big one are not [freep]. *)
Lemma before_last (w l1 l2 : list blk) f b : w ++ [f] = l1 ++ b :: l2 → ∀ c, c ∈ l1 → c ∈ w.
Proof.
  intros E c Hc. destruct (exists_last (l := b :: l2) ltac:(done)) as (l2' & d & E2). rewrite E2, app_assoc in E.
  apply app_inj_tail in E as [-> _]. apply elem_of_app. by left.
Qed.

(** Going round the ring once. *)
Lemma malloc_round base top u l nunits : ring_ok base top u l → 1 ≤ nunits →
  (∃ l' r, carved base top u l nunits r l' ∧
     ∀ n, (length l < n)%nat → malloc_loop n nunits (freep u) (ptr (words u) (freep u)) u = Done r) ∨
  (Forall (fun c => c.2 < nunits) l ∧ ∀ n, malloc_loop (length l + S n) nunits (freep u) (ptr (words u) (freep u)) u =
    (r <- morecore n nunits u ;;
     let '(p, u) := r in if p =? 0 then Done (0, u) else malloc_loop n nunits p (ptr (words u) p) u)).
Proof.
  intros HR Hn. destruct (ring_walk _ _ _ _ HR) as (w & fs & Hperm & Hseg & Hp & Hnin).
  assert (length w = length l) as Hlen by (apply Permutation_length in Hperm; rewrite length_app in Hperm; cbn in Hperm; lia).
  assert (∀ l1, Forall (fun c => c.2 < nunits) l1 → (∀ c, c ∈ l1 → c ∈ w) → Forall (fun c => c.2 < nunits ∧ c.1 ≠ freep u) l1) as Hpass.
  { intros l1 H1 Hsub. apply Forall_forall. intros c Hc. split; [by eapply Forall_forall in H1|]. intros Heq. apply Hnin. rewrite <- Heq.
    apply list_elem_of_fmap. exists c. auto. }
  destruct (first_big nunits (w ++ [(freep u, fs)])) as [(l1 & b & l2 & E & H1 & H2)|[H H']%Forall_app].
  - left. pose proof (before_last _ _ _ _ _ E) as Hsub. rewrite E in Hseg, Hp, Hperm.
    set (h := head_addr (l1 ++ b :: l2) 0) in Hseg. rewrite (head_addr_any _ _ _ 0 h) in Hp.
    destruct (loop_found u nunits l1 b l2 h (freep u) Hseg (Hpass _ H1 Hsub) H2 Hp) as (prevp & Hin & Hpp & HE).
    assert (prevp ∈ base :: l.*1) as Hin'.
    { change (base :: l.*1) with (((base, 0) :: l).*1). rewrite <- Hperm, fmap_app. apply elem_of_cons in Hin as [->|Hin]; [|apply elem_of_app; by left].
      rewrite <- fmap_app, Hperm. apply HR. }
    destruct (take_block base top u l nunits prevp b HR Hin' Hpp) as [l' Hc]; [rewrite <- Hperm; apply elem_of_app; right; by left|lia|].
    exists l', (carve (words u) nunits prevp b.1). split; [exact Hc|]. intros n Hln. rewrite Hp. apply HE.
    apply (f_equal length) in E. rewrite !length_app in E. cbn in E. lia.
  - right. split.
    + assert (Forall (fun c => c.2 < nunits) ((base, 0) :: l)) as Hall by (rewrite <- Hperm; by apply Forall_app). by apply Forall_cons in Hall as [_ ?].
    + intros n. set (h := head_addr (w ++ [(freep u, fs)]) 0) in Hseg. rewrite Hp, <- Hlen, (head_addr_any _ _ _ 0 h). apply loop_none; [done|by apply Hpass|by apply Forall_cons in H' as [? _]|done].
Qed.

(** ** The allocator with the kernel behind it *)

(** What [malloc] needs of [sbrk]: it fails, or moves the end of the memory up
    and returns the old end. *)
Class SbrkOk {S : Type} (h : handler S) := {
  brk : S → Z;
  sbrk_law : ∀ s n, 0 < n < KERNBASE →
    let '(r, s') := h _ (Sbrk n) s in
    r = -1 ∧ brk s' = brk s ∨ r = brk s ∧ brk s' = brk s + n ∧ brk s' ≤ KERNBASE }.

Lemma ring_ok_mono base top top' u l : ring_ok base top u l → top ≤ top' ≤ KERNBASE → ring_ok base top' u l.
Proof.
  intros [H1 H2 H3 H4 H5] Ht. split; [done..| |lia]. eapply Forall_impl; [exact H4|]. intros b [? ?]. split; [done|lia].
Qed.
Lemma ring_beyond base top u l s : ring_ok base top u l → disjoint_all (top, s) l.
Proof. intros HR b Hb. right. cbn. destruct HR as [_ _ _ Hok _]. by eapply Forall_forall in Hok as [_ ?]. Qed.
(** A header beyond the memory the ring knows of. *)
Lemma ring_set_size base top u l a v : ring_ok base top u l → top ≤ a →
  ring_ok base top (mk_umem (set_size (words u) a v) (freep u)) l.
Proof.
  intros [H1 H2 H3 H4 H5] Ha. split; [|done..]. cbn [words]. unfold set_size. apply lseg_upd_far; [by right| |done].
  intros b [->|Hb]%elem_of_cons; right; [unfold end_of, HDR in *; cbn; lia|]. eapply Forall_forall in H4 as [_ ?]; [|exact Hb]. lia.
Qed.
Lemma freep_pos base top u l : ring_ok base top u l → 0 < freep u.
Proof.
  intros [_ Hap Hfp _ [Hb _]]. change (base :: l.*1) with (((base, 0) :: l).*1) in Hfp.
  apply list_elem_of_fmap in Hfp as (b & -> & Hin). pose proof (apart_head_lt _ _ _ Hap Hin). cbn in *. lia.
Qed.

Section Malloc.
Context {S : Type} (h : handler S) {SB : SbrkOk h}.

(** A larger ring [l'], which covers [l] and the [nu] units from [top] on. *)
Record grown (base top : Z) (u : umem) (l : list blk) (nu : Z) (u' : umem) (l' : list blk) : Prop := {
  gr_ring : ring_ok base (top + HDR * nu) u' l';
  gr_covers : covers ((top, nu) :: l) l';
  gr_frame : ∀ a s, base + HDR ≤ a → disjoint_all (a, s) ((top, nu) :: l) → size (words u') a = size (words u) a }.

Definition units_asked (nunits : Z) : Z := Z.max 4096 nunits.

Lemma morecore_run base u l nunits n s : ring_ok base (brk s) u l → 1 ≤ nunits < 2 ^ 28 → (length l < n)%nat →
  ∃ s', (run h (morecore n nunits u) s = Returned (0, u) s' ∧ brk s' = brk s) ∨
    (∃ u' l', run h (morecore n nunits u) s = Returned (freep u', u') s' ∧ brk s' = brk s + HDR * units_asked nunits ∧
       grown base (brk s) u l (units_asked nunits) u' l').
Proof.
  intros HR Hn Hlen. unfold morecore, ask. set (nu := if nunits <? 4096 then 4096 else nunits).
  assert (nu = units_asked nunits) as Enu by (unfold nu, units_asked; destruct (Z.ltb_spec nunits 4096); lia). clearbody nu.
  assert (4096 ≤ nu < 2 ^ 28) as Hnu by (unfold units_asked in Enu; lia).
  replace (s32 (nu * HDR)) with (HDR * nu) by (unfold s32, HDR in *; rewrite Z.mod_small; lia).
  cbn [pbind run]. pose proof (sbrk_law s (HDR * nu)) as Hlaw. destruct (h Z (Sbrk (HDR * nu)) s) as [p s'].
  pose proof HR as [_ _ _ _ [Hb Htop]]. destruct Hlaw as [[-> Hs]|(-> & Hs & Hle)]; [unfold HDR, KERNBASE; lia| |].
  - exists s'. left. by split.
  - exists s'. right. rewrite (proj2 (Z.eqb_neq (brk s) (-1))) by (unfold HDR in *; lia). rewrite Hs in Hle.
    rewrite (hadd_1 (brk s + HDR * nu)) by (unfold HDR in *; lia).
    set (u1 := mk_umem (set_size (words u) (brk s) nu) (freep u)).
    assert (ring_ok base (brk s + HDR * nu) u1 l) as HR1.
    { apply (ring_ok_mono _ (brk s)); [|unfold HDR in *; lia]. by apply ring_set_size. }
    destruct (free_ring n base (brk s + HDR * nu) u1 l (brk s) nu) as (u' & l' & E & HR' & Hcov & Hfr);
      [done|apply size_set_size|lia|unfold block_ok, end_of, HDR; cbn; lia|by eapply ring_beyond|done|].
    rewrite E. exists u', l'. split; [reflexivity|]. rewrite <- Enu. split; [done|]. split; [done..|].
    intros a t Ha Hd. rewrite (Hfr a t) by done. unfold u1, size, set_size. cbn [words]. apply upd_ne.
    pose proof (Hd (brk s, nu) ltac:(by left)) as Hd'. unfold disjoint_blk, end_of, HDR in *. cbn in *. lia.
Qed.

(** What [malloc] leaves when it succeeds, after growing by [g] units. *)
Record served (base top : Z) (u : umem) (l : list blk) (nunits g : Z) (r : Z * umem) (l' : list blk) : Prop := {
  se_ring : ring_ok base (top + HDR * g) r.2 l';
  se_units : units l' = units l + g - nunits;
  se_block : base + HDR ≤ r.1 - HDR ∧ block_ok (top + HDR * g) (r.1 - HDR, nunits) ∧ size (words r.2) (r.1 - HDR) = nunits;
  se_new : disjoint_all (r.1 - HDR, nunits) l';
  se_old : ∀ a s, base + HDR ≤ a → block_ok top (a, s) → disjoint_all (a, s) l →
    disjoint_all (a, s) ((r.1 - HDR, nunits) :: l') ∧ size (words r.2) a = size (words u) a }.

Lemma served_direct base top u l nunits r l' : carved base top u l nunits r l' → served base top u l nunits 0 r l'.
Proof.
  intros [H1 H2 H3 H4 H5 H6]. replace top with (top + HDR * 0) in H1, H5 by lia. split; [done|lia|done|done|].
  intros a s Ha _ Hd. split; [by apply H3|by eapply H6].
Qed.
Lemma served_grown base top u l nunits g u1 l1 r l' : 0 < g → grown base top u l g u1 l1 → carved base (top + HDR * g) u1 l1 nunits r l' →
  served base top u l nunits g r l'.
Proof.
  intros Hg [G1 [G2 G3 _] G4] [H1 H2 H3 H4 H5 H6]. split; [done| |done|done|].
  - rewrite H2, G2, units_cons. cbn. lia.
  - intros a s Ha [_ Hend] Hd. assert (disjoint_all (a, s) ((top, g) :: l)) as Hd' by (intros b [->|Hb]%elem_of_cons; [by left|by apply Hd]).
    split; [by apply H3, G3|]. rewrite (H6 a s Ha) by (by apply G3). by apply (G4 a s).
Qed.

Definition malloc_fuel (nfree nunits : Z) : nat := Z.to_nat (3 * nfree + nunits + 4096 + 4).

(** After growing, the ring has a block that is big enough. *)
Lemma grown_big base top u l nunits u' l' : 1 ≤ nunits → grown base top u l (units_asked nunits) u' l' → ¬ Forall (fun c => c.2 < nunits) l'.
Proof.
  intros Hn [HR [_ _ Hin] _] Hall. destruct (Hin (top, units_asked nunits)) as (b & Hb & Hb1 & Hb2); [by left|].
  eapply Forall_forall in Hall; [|exact Hb]. cbn beta in Hall. destruct HR as [_ _ _ Hok _]. eapply Forall_forall in Hok as [Hok _]; [|exact Hb].
  unfold units_asked, end_of, HDR in *. cbn in *. lia.
Qed.

Lemma malloc_run base u l nunits n s : ring_ok base (brk s) u l → 1 ≤ nunits < 2 ^ 28 → (malloc_fuel (units l) nunits ≤ n)%nat →
  ∃ s', (run h (malloc_loop n nunits (freep u) (ptr (words u) (freep u)) u) s = Returned (0, u) s' ∧ brk s' = brk s) ∨
    (∃ r l' g, 0 ≤ g ∧ run h (malloc_loop n nunits (freep u) (ptr (words u) (freep u)) u) s = Returned r s' ∧
       brk s' = brk s + HDR * g ∧ served base (brk s) u l nunits g r l').
Proof.
  intros HR Hn Hf. pose proof (units_length _ _ (ro_blocks _ _ _ _ HR)) as Hlen. unfold malloc_fuel in Hf.
  destruct (malloc_round _ _ _ _ _ HR (proj1 Hn)) as [(l' & r & Hc & HE)|[_ HE]].
  - exists s. right. exists r, l', 0. split; [done|]. rewrite HE by lia. split; [done|]. split; [lia|]. by apply served_direct.
  - replace n with (length l + Datatypes.S (n - length l - 1))%nat by lia. rewrite HE, run_bind. set (k := (n - length l - 1)%nat).
    destruct (morecore_run base u l nunits k s HR Hn) as (s' & [[-> Hb]|(u' & l' & -> & Hb & Hg)]); [lia| |]; exists s'; [by left|right].
    pose proof Hg as [HR' Hcov _]. rewrite (proj2 (Z.eqb_neq (freep u') 0)) by (pose proof (freep_pos _ _ _ _ HR'); lia).
    pose proof (units_length _ _ (ro_blocks _ _ _ _ HR')) as Hlen'. rewrite (cv_units _ _ Hcov), units_cons in Hlen'. cbn [snd] in Hlen'.
    destruct (malloc_round _ _ _ _ _ HR' (proj1 Hn)) as [(l2 & r & Hc & HE')|[Hall _]]; [|by apply grown_big in Hg; [|lia]].
    assert (length l' < k)%nat as Hk by (unfold units_asked, k in *; lia).
    exists r, l2, (units_asked nunits). rewrite (HE' k Hk). split; [unfold units_asked; lia|]. split; [done|]. split; [done|].
    eapply served_grown; [unfold units_asked; lia|done|exact Hc].
Qed.
End Malloc.

(** The allocator's state, before the first call or after. *)
Definition heap_inv (base top : Z) (u : umem) (nfree : Z) (alloc : gmap Z Z) : Prop :=
  heap_ok base top u nfree alloc ∨ freep u = 0 ∧ nfree = 0 ∧ alloc = ∅ ∧ 0 < base ∧ base + HDR ≤ top ≤ KERNBASE.

Lemma ring_init base top m : 0 < base → base + HDR ≤ top ≤ KERNBASE →
  ring_ok base top (mk_umem (set_size (set_ptr m base base) base 0) base) [].
Proof.
  intros Hb Ht. split; [|done|by left|done|done]. cbn. unfold ptr, size, set_size, set_ptr. rewrite upd_ne, !upd_eq by lia. done.
Qed.

Lemma heap_ok_empty base top u l : ring_ok base top u l → heap_ok base top u (units l) ∅.
Proof.
  intros HR. split; [exists l; split_and!; [done|done|intros a s []%lookup_empty_Some]|intros a s []%lookup_empty_Some|intros a s b t []%lookup_empty_Some].
Qed.

(** After a block has been handed out. *)
Lemma served_heap base top u l nunits g r l' alloc : 0 ≤ g → heap_ok base top u (units l) alloc → ring_ok base top u l →
  (∀ a s, alloc !! a = Some s → disjoint_all (a, s) l) → served base top u l nunits g r l' →
  alloc !! (r.1 - HDR) = None ∧ heap_ok base (top + HDR * g) r.2 (units l + g - nunits) (<[r.1 - HDR := nunits]> alloc).
Proof.
  intros Hg [_ Hal Hdj] HR Hd [S1 S2 (S3 & S4 & S5) S6 S7].
  assert (∀ a s, alloc !! a = Some s → disjoint_all (a, s) ((r.1 - HDR, nunits) :: l') ∧ size (words r.2) a = size (words u) a) as Hold.
  { intros a s Ha. destruct (Hal a s Ha) as (_ & Hb & Hok). by apply S7; [..|apply Hd]. }
  assert (alloc !! (r.1 - HDR) = None) as Hnone.
  { destruct (alloc !! (r.1 - HDR)) as [s|] eqn:Ha; [|done]. destruct (Hold _ _ Ha) as [Hda _].
    pose proof (Hda (r.1 - HDR, nunits) ltac:(by left)) as [H|H]; unfold end_of, HDR in H; cbn in H; lia. }
  split; [done|]. split.
  - exists l'. split; [done|]. split; [done|]. intros a s [[<- <-]|[_ Ha]]%lookup_insert_Some; [done|].
    destruct (Hold a s Ha) as [Hda _]. intros b Hb. apply Hda. by right.
  - intros a s [[<- <-]|[_ Ha]]%lookup_insert_Some; [done|]. destruct (Hal a s Ha) as (Hs & Hb & [H1 H2]). destruct (Hold a s Ha) as [_ ->].
    split; [done|]. split; [done|]. split; [done|]. unfold HDR in *. lia.
  - intros a s b t [[<- <-]|[_ Ha]]%lookup_insert_Some [[<- <-]|[_ Hb]]%lookup_insert_Some Hne; [done|..].
    + destruct (Hold b t Hb) as [Hdb _]. pose proof (Hdb (r.1 - HDR, nunits) ltac:(by left)) as [H|H]; [by right|by left].
    + destruct (Hold a s Ha) as [Hda _]. apply Hda. by left.
    + by eapply Hdj.
Qed.

Lemma nunits_small nbytes : 0 ≤ nbytes < 2 ^ 30 → nunits_of nbytes = (nbytes + 7) / 8 + 1 ∧ 1 ≤ nunits_of nbytes < 2 ^ 28.
Proof.
  intros H. unfold nunits_of, HDR, u32. rewrite (Z.mod_small (nbytes + 8 - 1)) by lia. replace (nbytes + 8 - 1) with (nbytes + 7) by lia.
  assert (0 ≤ (nbytes + 7) / 8 < 2 ^ 28 - 1) by (split; [apply Z.div_pos; lia|apply Z.div_lt_upper_bound; lia]).
  rewrite Z.mod_small by lia. lia.
Qed.


(** C26. [free] on a block in use ends and returns all its units to the free
    memory, without disturbing the blocks that stay in use; the free list stays
    sorted and fully coalesced. *)
Theorem free_correct base top u nfree alloc n a sz : heap_ok base top u nfree alloc → alloc !! a = Some sz → (Z.to_nat nfree < n)%nat →
  ∃ u', free n (a + HDR) u = Some u' ∧ heap_ok base top u' (nfree + sz) (delete a alloc).
Proof.
  intros [(l & HR & <- & Hd) Hal Hdj] Ha Hn. destruct (Hal a sz Ha) as (Hs & Hb & Hok).
  pose proof (units_length _ _ (ro_blocks _ _ _ _ HR)) as Hlen.
  destruct (free_ring n base top u l a sz) as (u' & l' & E & HR' & [Hu Hc _] & Hfr); [done|done|done|done|by apply Hd|lia|].
  exists u'. split; [done|].
  assert (∀ b t, delete a alloc !! b = Some t → disjoint_all (b, t) ((a, sz) :: l)) as Hdis.
  { intros b t [Hne Hb']%lookup_delete_Some. intros c [->|Hc']%elem_of_cons; [by eapply Hdj; eauto|by eapply Hd]. }
  split.
  - exists l'. split; [done|]. split; [rewrite Hu, units_cons; cbn; lia|]. intros b t Hbt. by apply Hc, Hdis.
  - intros b t Hbt. pose proof Hbt as [_ Hb']%lookup_delete_Some. destruct (Hal b t Hb') as (Hs' & Hb2 & Hok'). by rewrite (Hfr b t Hb2 (Hdis b t Hbt)).
  - intros b s c t [_ H1]%lookup_delete_Some [_ H2]%lookup_delete_Some. by apply Hdj.
Qed.

Lemma nunits_wraps nbytes : 2 ^ 32 - 7 ≤ nbytes < 2 ^ 32 → nunits_of nbytes = 1.
Proof.
  intros H. unfold nunits_of, HDR, u32. replace (nbytes + 8 - 1) with (nbytes - (2 ^ 32 - 7) + 1 * 2 ^ 32) by lia.
  rewrite Z.mod_add, (Z.mod_small (nbytes - _)) by lia. rewrite Z.div_small by lia. done.
Qed.

(** The size computation of [malloc] wraps around: asked for one of the
    seven largest values of an [unsigned int], it succeeds whenever any memory
    is free, with a block of one unit, the header alone, without a byte of
    room behind the pointer it returns. *)
Theorem malloc_size_wraps {S} (h : handler S) base top nbytes u nfree alloc n (s : S) :
  heap_ok base top u nfree alloc → 1 ≤ nfree → 2 ^ 32 - 7 ≤ nbytes < 2 ^ 32 → (Z.to_nat nfree < n)%nat →
  ∃ r u', run h (malloc n base nbytes u) s = Returned (r, u') s ∧ heap_ok base top u' (nfree - 1) (<[r - HDR := 1]> alloc).
Proof.
  intros Hok Hfree Hnb Hn. pose proof Hok as [(l & HR & <- & Hd) _ _]. unfold malloc. rewrite nunits_wraps by done.
  pose proof (units_length _ _ (ro_blocks _ _ _ _ HR)) as Hlen. pose proof (freep_pos _ _ _ _ HR) as Hfp.
  rewrite (proj2 (Z.eqb_neq (freep u) 0)) by lia.
  destruct (malloc_round base top u l 1 HR) as [(l' & [r u'] & Hc & HE)|[Hall _]]; [lia| |].
  - exists r, u'. rewrite HE by lia. split; [done|]. apply served_direct in Hc.
    destruct (served_heap _ _ _ _ _ _ _ _ alloc ltac:(done) Hok HR Hd Hc) as [_ Hh]. cbn [fst snd] in Hh.
    by rewrite Z.mul_0_r, !Z.add_0_r in Hh.
  - destruct HR as [_ _ _ Hblocks _]. destruct l as [|b l]; [cbn in Hfree; lia|]. apply Forall_cons in Hall as [? _], Hblocks as [[? _] _]. lia.
Qed.

(** ** Examples *)

(** A kernel that has memory up to KERNBASE; its state is the end of memory. *)
Definition heap_handler : handler Z := fun B c =>
  match c in call B return Z → B * Z with
  | Sbrk n => fun b => if b + n <=? KERNBASE then (b, b + n) else (-1, b)
  | Read _ _ => fun b => ((-1, []), b)
  | Pipe => fun b => ((-1, (0, 0)), b)
  | Wait2 => fun b => ((-1, (0, 0, 0)), b)
  | Fstat _ => fun b => ((-1, mk_ustat 0 0 0 0 0), b)
  | Yield => fun b => (tt, b)
  | Write _ _ | Fork | Wait | Close _ | Kill _ | Exec _ _ | Open _ _ | Mknod _ _ _ | Unlink _ | Link _ _ | Mkdir _ | Chdir _
  | Dup _ | Getpid | Sleep _ | Uptime | ChangePrio _ | LinkPtr _ _ | IntAt _ _ => fun b => (-1, b)
  | Peek _ | Poke _ _ | Inb _ | Outb _ _ => fun b => (None, b)
  end.
#[refine, export] Instance heap_sbrk : SbrkOk heap_handler := {| brk := fun b => b |}.
Proof. intros s n Hn. cbn. destruct (Z.leb_spec (s + n) KERNBASE); [right|left]; lia. Defined.

(** A heap with ten free units and one block of four units in use. *)
Definition ex_words : wmem := fun a =>
  if a =? 0x1000 then 0x2000 else if a =? 0x2000 then 0x1000 else if a =? 0x2004 then 10 else if a =? 0x3004 then 4 else 0.
Definition ex_umem : umem := mk_umem ex_words 0x1000.
Lemma ex_heap_ok : heap_ok 0x1000 0x4000 ex_umem 10 {[0x3000 := 4]}.
Proof.
  split.
  - exists [(0x2000, 10)]. split; [|split; [reflexivity|]].
    + split; [cbn; auto|cbn; unfold end_of, HDR; cbn; lia|by left|repeat constructor; cbn; unfold end_of, HDR; cbn; lia|unfold HDR, KERNBASE; lia].
    + intros a s [<- <-]%lookup_singleton_Some b ->%list_elem_of_singleton. right. unfold end_of, HDR. cbn. lia.
  - intros a s [<- <-]%lookup_singleton_Some. split; [reflexivity|]. unfold block_ok, end_of, HDR. cbn. lia.
  - intros a s b t [<- _]%lookup_singleton_Some [<- _]%lookup_singleton_Some. done.
Qed.

Lemma free_correct_witness : ∃ u', free 11 (0x3000 + HDR) ex_umem = Some u' ∧ heap_ok 0x1000 0x4000 u' (10 + 4) (delete 0x3000 {[0x3000 := 4]}).
Proof. apply free_correct; [exact ex_heap_ok|reflexivity|cbn; lia]. Defined.
Lemma malloc_size_wraps_witness : ∃ r u', run heap_handler (malloc 11 0x1000 (2 ^ 32 - 1) ex_umem) 0x4000 = Returned (r, u') 0x4000 ∧
  heap_ok 0x1000 0x4000 u' (10 - 1) (<[r - HDR := 1]> {[0x3000 := 4]}).
Proof. apply malloc_size_wraps; [exact ex_heap_ok|lia|lia|cbn; lia]. Defined.
