(* ===== verification/Utils.v ===== *)
(** * The small user programs (echo.c, cat.c, wc.c, ls.c, ln.c, kill.c, mkdir.c,
    rm.c, zombie.c, init.c, forktest.c, stressfs.c, sanity.c, tp_testes.c)

    [main] of a program gets [argv] as the list of its strings.  Every loop
    that reads until the kernel says stop has a bound; the theorems show when
    it is enough. *)

From S2P Require Import Prelude CString Kstate Layout Console Syscall User.

(** The characters of a string up to its terminating zero. *)
Fixpoint cut0 (l : list Z) : list Z :=
  match l with [] => [] | c :: l' => if c =? 0 then [] else c :: cut0 l' end.

Lemma cut0_app a j : 0 ∉ a → cut0 (a ++ 0 :: j) = a.
Proof.
  induction a as [|c a IH]; intros H; [done|]. apply not_elem_of_cons in H as [H1 H2]. cbn.
  rewrite (proj2 (Z.eqb_neq c 0)) by done. by rewrite IH.
Qed.

(** ** echo.c *)

Definition echo_main (argv : list (list Z)) : prog unit :=
  each (seq 1 (length argv - 1)) (fun i =>
    s <- try (argv !! i) ;;
    printf 1 "%s%s" [Str s; Str (if (S i <? length argv)%nat then [32] else [10])]) ;;;
  Exit.

(** ** cat.c *)

Fixpoint cat (n : nat) (fd : Z) : prog unit :=
  r <- ask (Read fd 512) ;;
  if 0 <? r.1 then
    match n with
    | O => Endless
    | S n' =>
        w <- ask (Write 1 (take (Z.to_nat r.1) r.2)) ;;
        if negb (w =? r.1) then printf 1 "cat: write error
" [] ;;; Exit else
        cat n' fd
    end
  else if r.1 <? 0 then printf 1 "cat: read error
" [] ;;; Exit
  else Done tt.

Definition cat_main (n : nat) (argv : list (list Z)) : prog unit :=
  if (length argv <=? 1)%nat then cat n 0 ;;; Exit else
  each (tail argv) (fun f =>
    fd <- ask (Open f 0) ;;
    if fd <? 0 then printf 1 "cat: cannot open %s
" [Str f] ;;; Exit else
    cat n fd ;;;
    ask (Close fd) ;;;
    Done tt) ;;;
  Exit.

(** ** wc.c *)

Record wcount := mk_wcount { wl : Z; ww : Z; wch : Z; inword : bool }.

Definition is_space (c : Z) : bool :=
  match strchr [32; 13; 9; 10; 11; 0] c with Some (Some _) => true | _ => false end.

Definition wc_char (s : wcount) (c : Z) : wcount :=
  let l := if c =? 10 then s32 (wl s + 1) else wl s in
  if is_space c then mk_wcount l (ww s) (s32 (wch s + 1)) false
  else if inword s then mk_wcount l (ww s) (s32 (wch s + 1)) true
  else mk_wcount l (s32 (ww s + 1)) (s32 (wch s + 1)) true.

Fixpoint wc_loop (n : nat) (fd : Z) (s : wcount) : prog (Z * wcount) :=
  r <- ask (Read fd 512) ;;
  if 0 <? r.1 then
    match n with
    | O => Endless
    | S n' => wc_loop n' fd (foldl wc_char s (take (Z.to_nat r.1) r.2))
    end
  else Done (r.1, s).

Definition wc (n : nat) (fd : Z) (name : list Z) : prog unit :=
  r <- wc_loop n fd (mk_wcount 0 0 0 false) ;;
  if r.1 <? 0 then printf 1 "wc: read error
" [] ;;; Exit else
  printf 1 "%d %d %d %s
" [Num (wl r.2); Num (ww r.2); Num (wch r.2); Str name].

Definition wc_main (n : nat) (argv : list (list Z)) : prog unit :=
  if (length argv <=? 1)%nat then wc n 0 [] ;;; Exit else
  each (tail argv) (fun f =>
    fd <- ask (Open f 0) ;;
    if fd <? 0 then printf 1 "wc: cannot open %s
" [Str f] ;;; Exit else
    wc n fd f ;;;
    ask (Close fd) ;;;
    Done tt) ;;;
  Exit.

(** ** ls.c *)

(** The characters after the last slash. *)
Definition last_part (path : list Z) : list Z :=
  foldl (fun acc c => if c =? 47 then [] else acc ++ [c]) [] path.
Definition fmtname (path : list Z) : list Z :=
  let p := last_part path in
  if (DIRSIZ <=? length p)%nat then p else p ++ replicate (DIRSIZ - length p) 32.

Definition ls_line (path : list Z) (st : ustat) : prog unit :=
  printf 1 "%s %d %d %d
" [Str (fmtname path); Num (us_type st); Num (us_ino st); Num (us_size st)].

Fixpoint ls_loop (n : nat) (fd : Z) (path : list Z) : prog unit :=
  r <- ask (Read fd 16) ;;
  if negb (r.1 =? 16) then Done tt else
  match n with
  | O => Endless
  | S n' =>
      de <- try (decode_dirent r.2) ;;
      if de_inum de =? 0 then ls_loop n' fd path else
      let buf := path ++ 47 :: cut0 (de_name de) in
      st <- stat buf ;;
      (if st.1 <? 0 then printf 1 "ls: cannot stat %s
" [Str buf] else ls_line buf st.2) ;;;
      ls_loop n' fd path
  end.

Definition ls (n : nat) (path : list Z) : prog unit :=
  fd <- ask (Open path 0) ;;
  if fd <? 0 then printf 2 "ls: cannot open %s
" [Str path] else
  st <- ask (Fstat fd) ;;
  if st.1 <? 0 then printf 2 "ls: cannot stat %s
" [Str path] ;;; ask (Close fd) ;;; Done tt else
  (if us_type st.2 =? T_FILE then ls_line path st.2
   else if us_type st.2 =? T_DIR then
     if (512 <? length path + 1 + DIRSIZ + 1)%nat then printf 1 "ls: path too long
" [] else ls_loop n fd path
   else Done tt) ;;;
  ask (Close fd) ;;;
  Done tt.

Definition ls_main (n : nat) (argv : list (list Z)) : prog unit :=
  if (length argv <? 2)%nat then ls n [46] ;;; Exit else
  each (tail argv) (ls n) ;;;
  Exit.

(** ** ln.c, kill.c, mkdir.c, rm.c, zombie.c *)

Definition ln_main (argv : list (list Z)) : prog unit :=
  match argv with
  | [_; old; new] =>
      r <- ask (Link old new) ;;
      (if r <? 0 then printf 2 "link %s %s: failed
" [Str old; Str new] else Done tt) ;;;
      Exit
  | _ => printf 2 "Usage: ln old new
" [] ;;; Exit
  end.

Definition kill_main (argv : list (list Z)) : prog unit :=
  if (length argv <? 2)%nat then printf 2 "usage: kill pid...
" [] ;;; Exit else
  each (tail argv) (fun s => n <- try (atoi (s ++ [0])) ;; ask (Kill n) ;;; Done tt) ;;;
  Exit.

Fixpoint mkdir_loop (l : list (list Z)) : prog unit :=
  match l with
  | [] => Done tt
  | f :: l' =>
      r <- ask (Mkdir f) ;;
      if r <? 0 then printf 2 "mkdir: %s failed to create
" [Str f] else mkdir_loop l'
  end.
Definition mkdir_main (argv : list (list Z)) : prog unit :=
  if (length argv <? 2)%nat then printf 2 "Usage: mkdir files...
" [] ;;; Exit else
  mkdir_loop (tail argv) ;;;
  Exit.

Fixpoint rm_loop (l : list (list Z)) : prog unit :=
  match l with
  | [] => Done tt
  | f :: l' =>
      r <- ask (Unlink f) ;;
      if r <? 0 then printf 2 "rm: %s failed to delete
" [Str f] else rm_loop l'
  end.
Definition rm_main (argv : list (list Z)) : prog unit :=
  if (length argv <? 2)%nat then printf 2 "Usage: rm files...
" [] ;;; Exit else
  rm_loop (tail argv) ;;;
  Exit.

Definition zombie_main : prog unit :=
  r <- ask Fork ;;
  (if 0 <? r then ask (Sleep 5) ;;; Done tt else Done tt) ;;;
  Exit.

(** ** init.c *)

Definition sh_argv : list (list Z) := [chars "sh"].

(** [while((wpid=wait()) >= 0 && wpid != pid) printf(1, "zombie!\n");] *)
Fixpoint reap_zombies (n : nat) (pid : Z) : prog unit :=
  wpid <- ask Wait ;;
  if (0 <=? wpid) && negb (wpid =? pid) then
    match n with
    | O => Endless
    | S n' => printf 1 "zombie!
" [] ;;; reap_zombies n' pid
    end
  else Done tt.

Fixpoint init_loop (n : nat) : prog unit :=
  match n with
  | O => Endless
  | S n' =>
      printf 1 "init: starting sh
" [] ;;;
      pid <- ask Fork ;;
      if pid <? 0 then printf 1 "init: fork failed
" [] ;;; Exit else
      if pid =? 0 then
        ask (Exec (chars "sh") sh_argv) ;;;
        printf 1 "init: exec sh failed
" [] ;;;
        Exit
      else reap_zombies n' pid ;;; init_loop n'
  end.

Definition init_main (n : nat) : prog unit :=
  fd <- ask (Open (chars "console") O_RDWR) ;;
  (if fd <? 0 then
     ask (Mknod (chars "console") 1 1) ;;;
     ask (Open (chars "console") O_RDWR) ;;;
     Done tt
   else Done tt) ;;;
  ask (Dup 0) ;;;
  ask (Dup 0) ;;;
  init_loop n.

(** ** forktest.c: its [printf] writes the string as it is *)

Definition forktest_printf (fd : Z) (s : string) : prog unit := ask (Write fd (chars s)) ;;; Done tt.

(** [for(n=0; n<N; n++)] with [k] rounds left; returns [n]. *)
Fixpoint fork_all (k : nat) (n : Z) : prog Z :=
  match k with
  | O => Done n
  | S k' =>
      pid <- ask Fork ;;
      if pid <? 0 then Done n else
      if pid =? 0 then Exit else fork_all k' (n + 1)
  end.
Fixpoint wait_all (n : nat) : prog unit :=
  match n with
  | O => Done tt
  | S n' =>
      r <- ask Wait ;;
      if r <? 0 then forktest_printf 1 "wait stopped early
" ;;; Exit else wait_all n'
  end.

Definition forktest : prog unit :=
  forktest_printf 1 "fork test
" ;;;
  n <- fork_all 1000 0 ;;
  if n =? 1000 then forktest_printf 1 "fork claimed to work N times!
" ;;; Exit else
  wait_all (Z.to_nat n) ;;;
  r <- ask Wait ;;
  if negb (r =? -1) then forktest_printf 1 "wait got too many
" ;;; Exit else
  forktest_printf 1 "fork test OK
".
Definition forktest_main : prog unit := forktest ;;; Exit.

(** ** stressfs.c *)

(** [for(i = 0; i < 4; i++) if(fork() > 0) break;] with [k] rounds left; returns [i]. *)
Fixpoint fork_until (k : nat) (i : Z) : prog Z :=
  match k with
  | O => Done i
  | S k' => pid <- ask Fork ;; if 0 <? pid then Done i else fork_until k' (i + 1)
  end.

Definition stressfs_main : prog unit :=
  printf 1 "stressfs starting
" [] ;;;
  let data := replicate 512 97 in
  i <- fork_until 4 0 ;;
  printf 1 "write %d
" [Num i] ;;;
  let path := chars "stressfs" ++ [s8 (48 + i)] in
  fd <- ask (Open path (Z.lor O_CREATE O_RDWR)) ;;
  each (seq 0 20) (fun _ => ask (Write fd data) ;;; Done tt) ;;;
  ask (Close fd) ;;;
  printf 1 "read
" [] ;;;
  fd <- ask (Open path O_RDONLY) ;;
  each (seq 0 20) (fun _ => ask (Read fd 512) ;;; Done tt) ;;;
  ask (Close fd) ;;;
  ask Wait ;;;
  Exit.

(** ** sanity.c, tp_testes.c

    Both start [3 * n] children of three kinds and print their times; the busy
    loops have no effect.  [prio] is what a child does first: nothing, or
    [change_prio]. *)

Definition NUM_PROCESSOS : Z := 3.

Definition child_work (tipo : Z) : prog unit :=
  if tipo =? 1 then each (seq 0 20) (fun _ => ask Yield)
  else if tipo =? 2 then each (seq 0 100) (fun _ => ask (Sleep 1) ;;; Done tt)
  else Done tt.

Definition child (prio : prog unit) : prog unit :=
  pid <- ask Getpid ;;
  prio ;;;
  child_work (Z.rem pid NUM_PROCESSOS) ;;;
  Exit.

(** The first loop of sanity.c. *)
Fixpoint start_children (k : nat) : prog unit :=
  match k with
  | O => Done tt
  | S k' => pid <- ask Fork ;; if pid =? 0 then child (Done tt) else start_children k'
  end.

Definition prioridades : list Z := replicate 20 4 ++ replicate 20 3 ++ replicate 10 1.

(** The first loop of tp_testes.c, with its variables [i] and [j]. *)
Fixpoint start_children_prio (k i j : nat) : prog unit :=
  match k with
  | O => Done tt
  | S k' =>
      pid <- ask Fork ;;
      if pid =? 0 then child (pr <- try (prioridades !! j) ;; ask (ChangePrio pr) ;;; Done tt) else
      start_children_prio k' (S i) (if (i mod 3 =? 0)%nat then S j else j)
  end.

(** Sums of the times of one kind of processes. *)
Record times := mk_times { t_retime : Z; t_rutime : Z; t_stime : Z; t_n : Z }.
Definition add_times (t : times) (x : Z * Z * Z) : times :=
  mk_times (s32 (t_retime t + x.1.1)) (s32 (t_rutime t + x.1.2)) (s32 (t_stime t + x.2)) (s32 (t_n t + 1)).

Definition print_times (kind : string) (pid : Z) (x : Z * Z * Z) : prog unit :=
  printf 1 (String.append "pid: %d, " (String.append kind ", READY time: %d, RUNNING time: %d, SLEEPING time: %d
")) [Num pid; Num x.1.1; Num x.1.2; Num x.2].

(** The second loop: CPU-bound, S-bound and I/O-bound processes. *)
Fixpoint collect (k : nat) (cpu s io : times) : prog (times * times * times) :=
  match k with
  | O => Done (cpu, s, io)
  | S k' =>
      r <- ask Wait2 ;;
      let tipo := Z.rem r.1 NUM_PROCESSOS in
      if tipo =? 0 then print_times "CPU-Bound" r.1 r.2 ;;; collect k' (add_times cpu r.2) s io
      else if tipo =? 1 then print_times "S-Bound" r.1 r.2 ;;; collect k' cpu (add_times s r.2) io
      else if tipo =? 2 then print_times "IO-Bound" r.1 r.2 ;;; collect k' cpu s (add_times io r.2)
      else collect k' cpu s io
  end.

(** [a / b] traps when [b] is zero. *)
Definition quot (a b : Z) : prog Z := if b =? 0 then Segv else Done (Z.quot a b).

Definition averages (fmt : string) (t : times) : prog unit :=
  a <- quot (t_retime t) (t_n t) ;;
  b <- quot (t_rutime t) (t_n t) ;;
  c <- quot (t_stime t) (t_n t) ;;
  d <- quot (s32 (s32 (t_retime t + t_rutime t) + t_stime t)) (t_n t) ;;
  printf 1 fmt [Num a; Num b; Num c; Num d].

Definition report (n : nat) : prog unit :=
  let zero := mk_times 0 0 0 0 in
  t <- collect n zero zero zero ;;
  averages "

CPU-Bound medias:
READY time: %d
RUNNING time: %d
SLEEPING time: %d
TURNAROUND time: %d


" t.1.1 ;;;
  averages "S-Bound medias:
READY time: %d
RUNNING time: %d
SLEEPING  time: %d
TURNAROUND time: %d


" t.1.2 ;;;
  averages "I/O-Bound medias:
READY time: %d
RUNNING time: %d
SLEEPING time: %d
TURNAROUND time: %d


" t.2 ;;;
  Exit.

(** The usage message is in UTF-8. *)
Definition sanity_usage : list Z :=
  chars "Sanity recebe somente um parametro(n" ++ [195; 186] ++ chars "mero de processos)" ++ [10].

Definition sanity_main (argv : list (list Z)) : prog unit :=
  match argv with
  | [_; a] =>
      n <- try (atoi (a ++ [0])) ;;
      let k := Z.to_nat (s32 (NUM_PROCESSOS * n)) in
      start_children k ;;;
      report k
  | _ => printf_loop 1 sanity_usage false [] ;;; Exit
  end.

Definition tp_testes_main (argv : list (list Z)) : prog unit :=
  a <- try (argv !! 1%nat) ;;
  n <- try (atoi (a ++ [0])) ;;
  let k := Z.to_nat (s32 (NUM_PROCESSOS * n)) in
  start_children_prio k 0 0 ;;;
  report k.

(** ** Theorems

    What the programs below need of the kernel: descriptor [fd] delivers a
    stream of bytes in pieces of any size up to what was asked for, and
    everything written to standard output is accepted and appended. *)

Class Stream {S : Type} (h : handler S) (fd : Z) := {
  rest : S → list Z;
  output : S → list Z;
  read_law : ∀ s n, 0 < n →
    let '((k, d), s') := h _ (Read fd n) s in
    k = Z.of_nat (length d) ∧ k ≤ n ∧ rest s = d ++ rest s' ∧ (d = [] → rest s = []) ∧ output s' = output s;
  write_law : ∀ s d,
    let '(k, s') := h _ (Write 1 d) s in
    k = Z.of_nat (length d) ∧ rest s' = rest s ∧ output s' = output s ++ d }.

#[local] Opaque printf.

Section streams.
Context {S : Type} {h : handler S} {fd : Z} {ST : Stream h fd}.

(** A non-empty piece, or the end. *)
Lemma read_step s n :
  0 < n → ∃ d s', h _ (Read fd n) s = ((Z.of_nat (length d), d), s') ∧ Z.of_nat (length d) ≤ n ∧
    rest s = d ++ rest s' ∧ (d = [] → rest s = []) ∧ output s' = output s.
Proof.
  intros Hn. pose proof (read_law s n Hn) as H. destruct (h _ (Read fd n) s) as [[k d] s'].
  destruct H as (-> & H2 & H3 & H4 & H5). by exists d, s'.
Qed.
Lemma write_step s d :
  ∃ s', h _ (Write 1 d) s = (Z.of_nat (length d), s') ∧ rest s' = rest s ∧ output s' = output s ++ d.
Proof.
  pose proof (write_law s d) as H. destruct (h _ (Write 1 d) s) as [k s']. destruct H as (-> & H2 & H3). by exists s'.
Qed.

(** [cat] writes to standard output exactly the bytes it can read, in
    whatever pieces they come, and ends; as many rounds as there are bytes are
    enough. *)
Theorem cat_copies n s :
  (length (rest s) ≤ n)%nat →
  ∃ s', run h (cat n fd) s = Returned tt s' ∧ output s' = output s ++ rest s ∧ rest s' = [].
Proof.
  revert s. induction n as [|n IH]; intros s Hn.
  - destruct (read_step s 512) as (d & s1 & Hr & _ & Hrest & _ & Ho); [lia|]. cbn. rewrite Hr. cbn.
    assert (rest s = []) as Hnil by (by apply nil_length_inv; lia). rewrite Hnil in Hrest.
    symmetry in Hrest. apply app_nil in Hrest as [-> Hr1]. cbn. exists s1. by rewrite Ho, Hnil, app_nil_r.
  - destruct (read_step s 512) as (d & s1 & Hr & _ & Hrest & Hend & Ho); [lia|]. cbn. rewrite Hr. cbn.
    destruct d as [|b d].
    + cbn. exists s1. rewrite Ho, (Hend eq_refl), app_nil_r. rewrite (Hend eq_refl) in Hrest. done.
    + rewrite (proj2 (Z.ltb_lt _ _)) by (simpl; lia). rewrite Nat2Z.id, firstn_all.
      destruct (write_step s1 (b :: d)) as (s2 & Hw & Hr2 & Ho2). cbn [run pbind ask]. rewrite Hw, Z.eqb_refl. cbn [negb].
      destruct (IH s2) as (s3 & H1 & H2 & H3).
      { rewrite Hr2. rewrite Hrest, length_app in Hn. simpl in Hn. lia. }
      exists s3. split; [done|]. split; [|done]. by rewrite H2, Ho2, Ho, Hr2, Hrest, app_assoc.
Qed.

(** Printing to standard output. *)
Definition prints (p : prog unit) (d : list Z) : Prop :=
  ∀ s, ∃ s', run h p s = Returned tt s' ∧ rest s' = rest s ∧ output s' = output s ++ d.

Lemma prints_nil : prints (Done tt) [].
Proof. intros s. exists s. by rewrite app_nil_r. Qed.
Lemma prints_seq p q d1 d2 : prints p d1 → prints q d2 → prints (p ;;; q) (d1 ++ d2).
Proof.
  intros Hp Hq s. destruct (Hp s) as (s1 & H1 & H2 & H3), (Hq s1) as (s2 & H4 & H5 & H6).
  exists s2. rewrite (run_returned _ _ _ _ _ _ H1). split; [done|]. rewrite H5, H6, H2, H3. split; [done|]. by rewrite app_assoc.
Qed.
Lemma prints_putc c : prints (putc 1 c) [u8 c].
Proof. intros s. destruct (write_step s [u8 c]) as (s' & H1 & H2 & H3). exists s'. cbn. by rewrite H1. Qed.
Lemma prints_each l : prints (each l (putc 1)) (u8 <$> l).
Proof.
  induction l as [|c l IH]; [apply prints_nil|]. cbn [each fmap list_fmap].
  apply (prints_seq _ _ [u8 c]); [apply prints_putc|done].
Qed.

(** What a conversion prints, and the arguments left. *)
Definition item_out (c : Z) (ap : list arg) : option (list Z * list arg) :=
  if c =? 100 then match ap with Num z :: ap' => Some (printint_chars udigits z 10 true, ap') | _ => None end
  else if (c =? 120) || (c =? 112) then
    match ap with Num z :: ap' => Some (printint_chars udigits z 16 false, ap') | _ => None end
  else if c =? 115 then
    match ap with Str s :: ap' => Some (s, ap') | NullStr :: ap' => Some (chars "(null)", ap') | _ => None end
  else if c =? 99 then match ap with Num z :: ap' => Some ([z], ap') | _ => None end
  else if c =? 37 then Some ([c], ap)
  else Some ([37; c], ap).

Fixpoint fmt_out (fmt : list Z) (state : bool) (ap : list arg) : option (list Z) :=
  match fmt with
  | [] => Some []
  | c :: fmt' =>
      if state then '(d, ap') ← item_out c ap; d' ← fmt_out fmt' false ap'; Some (d ++ d')
      else if c =? 37 then fmt_out fmt' true ap
      else d' ← fmt_out fmt' false ap; Some (c :: d')
  end.

Lemma run_item c ap d ap' s :
  item_out c ap = Some (d, ap') →
  ∃ s', run h (printf_item 1 c ap) s = Returned ap' s' ∧ rest s' = rest s ∧ output s' = output s ++ (u8 <$> d).
Proof.
  assert (∀ p d (x : list arg) s, prints p d →
    ∃ s', run h (p ;;; Done x) s = Returned x s' ∧ rest s' = rest s ∧ output s' = output s ++ d) as He.
  { intros p d0 x s0 Hp. destruct (Hp s0) as (s' & H1 & H2 & H3). exists s'. by rewrite (run_returned _ _ _ _ _ _ H1). }
  unfold item_out, printf_item. intros H.
  destruct (c =? 100); [destruct ap as [|[z| |] ap]; simplify_eq; apply He, prints_each|].
  destruct ((c =? 120) || (c =? 112)); [destruct ap as [|[z| |] ap]; simplify_eq; apply He, prints_each|].
  destruct (c =? 115); [destruct ap as [|[z|t|] ap]; simplify_eq; apply He, prints_each|].
  destruct (c =? 99); [destruct ap as [|[z| |] ap]; simplify_eq; apply He, prints_putc|].
  destruct (c =? 37); simplify_eq; [apply He, prints_putc|].
  destruct (prints_putc 37 s) as (s1 & H1 & H2 & H3). rewrite (run_returned _ _ _ _ _ _ H1).
  destruct (He _ _ ap' s1 (prints_putc c)) as (s2 & H4 & H5 & H6). exists s2. split; [done|].
  rewrite H5, H6, H2, H3. split; [done|]. by rewrite <- app_assoc.
Qed.

(** [printf] to standard output prints what the format says. *)
Lemma printf_loop_prints fmt state ap d :
  fmt_out fmt state ap = Some d → prints (printf_loop 1 fmt state ap) (u8 <$> d).
Proof.
  revert state ap d. induction fmt as [|c fmt IH]; intros state ap d H; cbn [fmt_out printf_loop] in *.
  - injection H as <-. apply prints_nil.
  - destruct state; [|destruct (c =? 37); [by apply IH|]].
    + destruct (item_out c ap) as [[d1 ap']|] eqn:Hi; [|done]. cbn in H.
      destruct (fmt_out fmt false ap') as [d2|] eqn:Hf; [|done]. injection H as <-. rewrite fmap_app.
      intros s. destruct (run_item c ap d1 ap' s Hi) as (s1 & H1 & H2 & H3).
      destruct (IH _ _ _ Hf s1) as (s2 & H4 & H5 & H6). exists s2. rewrite (run_returned _ _ _ _ _ _ H1).
      split; [done|]. rewrite H5, H6, H2, H3. split; [done|]. by rewrite app_assoc.
    + destruct (fmt_out fmt false ap) as [d2|] eqn:Hf; [|done]. injection H as <-.
      apply (prints_seq _ _ [u8 c]); [apply prints_putc|by apply IH].
Qed.
Lemma printf_prints fmt ap d : fmt_out (chars fmt) false ap = Some d → prints (printf 1 fmt ap) (u8 <$> d).
Proof. apply printf_loop_prints. Qed.
End streams.

(** ** Numbers *)

(** The decimal representation [printf] prints for [%d]. *)
Definition dec (n : Z) : list Z := printint_chars udigits n 10 true.

Lemma udigit k : 0 ≤ k < 10 → default 0 (udigits !! Z.to_nat k) = 48 + k.
Proof. intros Hk. assert (k = 0 ∨ k = 1 ∨ k = 2 ∨ k = 3 ∨ k = 4 ∨ k = 5 ∨ k = 6 ∨ k = 7 ∨ k = 8 ∨ k = 9) as H by lia.
  by destruct_or! H; subst k. Qed.

Lemma s32_mod a b : (a - b) mod 2 ^ 32 = 0 → s32 a = s32 b.
Proof.
  intros H. unfold s32. f_equal. apply Z.mod_divide in H as [k Hk]; [|lia].
  replace (a + 2 ^ 31) with (b + 2 ^ 31 + k * 2 ^ 32) by lia. apply Z.mod_add. lia.
Qed.
Lemma s32_eq a : ∃ k, s32 a = a + k * 2 ^ 32.
Proof. unfold s32. exists (- ((a + 2 ^ 31) / 2 ^ 32)). pose proof (Z.div_mod (a + 2 ^ 31) (2 ^ 32)). lia. Qed.
Lemma s32_in_range a : - 2 ^ 31 ≤ a < 2 ^ 31 → s32 a = a.
Proof. intros. unfold s32. rewrite Z.mod_small by lia. lia. Qed.

(** [atoi] reads the digits [printint] produces, also when it wraps around. *)
Lemma atoi_digits n x acc tl :
  0 ≤ x < 10 ^ Z.of_nat n →
  atoi_from (rev (digits_of n udigits x 10) ++ tl) (s32 acc) =
  atoi_from tl (s32 (acc * 10 ^ Z.of_nat (length (digits_of n udigits x 10)) + x)).
Proof.
  revert x acc tl. induction n as [|n IH]; intros x acc tl Hx.
  - cbn [digits_of rev app length]. change (10 ^ Z.of_nat 0) with 1 in *. by replace (acc * 1 + x) with acc by lia.
  - cbn [digits_of]. pose proof (Z.mod_pos_bound x 10 ltac:(lia)) as Hm. pose proof (Z.div_mod x 10 ltac:(lia)) as Hdm.
    assert (∀ a, atoi_from (default 0 (udigits !! Z.to_nat (x mod 10)) :: tl) (s32 a) = atoi_from tl (s32 (a * 10 + x mod 10))) as Hd.
    { intros a. rewrite udigit by done. cbn [atoi_from]. rewrite !(proj2 (Z.leb_le _ _)) by lia. cbn [andb]. f_equal.
      apply s32_mod. destruct (s32_eq a) as [k ->].
      replace ((a + k * 2 ^ 32) * 10 + (48 + x mod 10) - 48 - (a * 10 + x mod 10)) with ((k * 10) * 2 ^ 32) by lia.
      apply Z.mod_mul. lia. }
    destruct (Z.eqb_spec (x / 10) 0) as [H0|H0].
    + cbn [rev app length]. rewrite Hd. do 2 f_equal. change (10 ^ Z.of_nat 1) with 10. lia.
    + cbn [rev length]. rewrite <- app_assoc. cbn [app]. rewrite IH.
      * rewrite Hd. do 2 f_equal. rewrite Nat2Z.inj_succ, Z.pow_succ_r by lia. lia.
      * rewrite Nat2Z.inj_succ, Z.pow_succ_r in Hx by lia. split; [apply Z.div_pos; lia|]. apply Z.div_lt_upper_bound; lia.
Qed.

(** [atoi] reads back every number that [printf] prints with [%d], from 0
    to the largest [int]. *)
Theorem atoi_printf n : 0 ≤ n < 2 ^ 31 → atoi (dec n ++ [0]) = Some n.
Proof.
  intros Hn. unfold dec, printint_chars, atoi. rewrite (proj2 (Z.ltb_ge n 0)) by lia. cbn [andb]. rewrite app_nil_r.
  unfold u32. rewrite Z.mod_small by lia. change 0 with (s32 0) at 2. rewrite atoi_digits.
  - cbn. by rewrite s32_in_range by lia.
  - split; [lia|]. apply (Z.lt_le_trans _ (10 ^ 10)); [lia|]. apply Z.pow_le_mono_r; lia.
Qed.
Lemma atoi_printf_witness : atoi (dec 2147483647 ++ [0]) = Some 2147483647.
Proof. apply (atoi_printf 2147483647). lia. Defined.

(** ** wc *)

#[local] Opaque printint_chars.

Definition lines (l : list Z) : Z := Z.of_nat (length (filter (fun c => c = 10) l)).
(** A word starts at a character that is not a space, after a space or at the start. *)
Definition word_starts (prev : Z) (l : list Z) : Z :=
  Z.of_nat (length (filter (fun pc : Z * Z => is_space pc.1 = true ∧ is_space pc.2 = false) (zip (prev :: l) l))).
Definition words (l : list Z) : Z := word_starts 32 l.

Lemma lines_cons c l : lines (c :: l) = (if c =? 10 then 1 else 0) + lines l.
Proof. unfold lines. rewrite filter_cons. destruct (Z.eqb_spec c 10); case_decide; simpl; lia. Qed.
Lemma word_starts_cons prev c l :
  word_starts prev (c :: l) = (if is_space prev && negb (is_space c) then 1 else 0) + word_starts c l.
Proof.
  unfold word_starts. cbn [zip zip_with]. rewrite filter_cons. cbn [fst snd].
  destruct (is_space prev), (is_space c); case_decide; cbn [length andb negb]; (lia || naive_solver).
Qed.
Lemma lines_bound l : 0 ≤ lines l ≤ Z.of_nat (length l).
Proof. unfold lines. pose proof (length_filter (fun c => c = 10) l). lia. Qed.
Lemma word_starts_bound prev l : 0 ≤ word_starts prev l ≤ Z.of_nat (length l).
Proof.
  revert prev. induction l as [|c l IH]; intros prev; [done|]. rewrite word_starts_cons. specialize (IH c).
  cbn [length]. destruct (_ && _); lia.
Qed.

Lemma last_cons_default (x : Z) l d : List.last (x :: l) d = List.last l x.
Proof. revert x d. induction l as [|y l IH]; intros x d; [done|]. change (List.last (y :: l) d = List.last (y :: l) x). by rewrite !IH. Qed.

Lemma wc_fold l prev a b c :
  0 ≤ a → 0 ≤ b → 0 ≤ c → a + Z.of_nat (length l) < 2 ^ 31 → b + Z.of_nat (length l) < 2 ^ 31 → c + Z.of_nat (length l) < 2 ^ 31 →
  foldl wc_char (mk_wcount a b c (negb (is_space prev))) l =
  mk_wcount (a + lines l) (b + word_starts prev l) (c + Z.of_nat (length l)) (negb (is_space (List.last l prev))).
Proof.
  revert prev a b c. induction l as [|x l IH]; intros prev a b c Ha Hb Hc H1 H2 H3.
  - cbn. by rewrite !Z.add_0_r.
  - cbn [foldl]. cbn [length] in *.
    assert (wc_char (mk_wcount a b c (negb (is_space prev))) x =
      mk_wcount (a + if x =? 10 then 1 else 0) (b + if is_space prev && negb (is_space x) then 1 else 0) (c + 1) (negb (is_space x))) as ->.
    { unfold wc_char. cbn. rewrite !s32_in_range by lia. destruct (x =? 10), (is_space x), (is_space prev); cbn; rewrite ?Z.add_0_r; done. }
    rewrite IH by (try destruct (x =? 10); try destruct (is_space prev && negb (is_space x)); lia).
    rewrite lines_cons, word_starts_cons. rewrite last_cons_default.
    f_equal; lia.
Qed.

Section wc.
Context {S : Type} {h : handler S} {fd : Z} {ST : Stream h fd}.

Lemma wc_loop_spec n s w :
  (length (rest s) ≤ n)%nat →
  ∃ s', run h (wc_loop n fd w) s = Returned (0, foldl wc_char w (rest s)) s' ∧ output s' = output s ∧ rest s' = [].
Proof.
  revert s w. induction n as [|n IH]; intros s w Hn;
    (destruct (read_step s 512) as (d & s1 & Hr & _ & Hrest & Hend & Ho); [lia|]); cbn [wc_loop pbind ask run]; rewrite Hr; cbn [fst snd].
  - assert (rest s = []) as Hnil by (by apply nil_length_inv; lia). rewrite Hnil in Hrest.
    symmetry in Hrest. apply app_nil in Hrest as [-> Hr1]. exists s1. by rewrite Hnil.
  - destruct d as [|b d].
    + exists s1. rewrite (Hend eq_refl) in *. done.
    + rewrite (proj2 (Z.ltb_lt _ _)) by (simpl; lia). rewrite Nat2Z.id, firstn_all.
      destruct (IH s1 (foldl wc_char w (b :: d))) as (s2 & H1 & H2 & H3).
      { rewrite Hrest, length_app in Hn. simpl in Hn. lia. }
      exists s2. rewrite Hrest, foldl_app. split; [exact H1|]. by rewrite H2, Ho.
Qed.

(** [wc] prints the number of lines, of words and of characters of the
    stream, however it is cut into pieces, and the name, for streams of fewer
    than 2^31 bytes. *)
Theorem wc_counts n s name :
  (length (rest s) ≤ n)%nat → Z.of_nat (length (rest s)) < 2 ^ 31 →
  ∃ s', run h (wc n fd name) s = Returned tt s' ∧
    output s' = output s ++ (u8 <$> (dec (lines (rest s)) ++ [32] ++ dec (words (rest s)) ++ [32] ++
      dec (Z.of_nat (length (rest s))) ++ [32] ++ name ++ [10])).
Proof.
  intros Hn Hlen. unfold wc. destruct (wc_loop_spec n s (mk_wcount 0 0 0 false) Hn) as (s1 & H1 & H2 & H3).
  rewrite (run_returned _ _ _ _ _ _ H1). cbn [fst snd]. change (0 <? 0) with false. cbv iota.
  change (mk_wcount 0 0 0 false) with (mk_wcount 0 0 0 (negb (is_space 32))). rewrite wc_fold by lia. cbn [wl ww wch].
  rewrite !Z.add_0_l. unfold words. set (a := lines _). set (b := word_starts _ _). set (c := Z.of_nat (length _)).
  assert (fmt_out (chars "%d %d %d %s
") false [Num a; Num b; Num c; Str name] = Some (dec a ++ [32] ++ dec b ++ [32] ++ dec c ++ [32] ++ name ++ [10])) as Hf.
  { unfold dec. cbn. reflexivity. }
  destruct (printf_prints (ST := ST) _ _ _ Hf s1) as (s2 & H4 & H5 & H6). exists s2. split; [exact H4|]. by rewrite H6, H2.
Qed.
End wc.

(** ** A kernel for the examples: the bytes to read, the sizes of the pieces, the output *)

Record io := mk_io { io_in : list Z; io_sizes : list nat; io_out : list Z }.

Definition io_read (n : Z) (s : io) : (Z * list Z) * io :=
  let k := Nat.min (Z.to_nat n) (match io_sizes s with z :: _ => S z | [] => Z.to_nat n end) in
  let d := take k (io_in s) in
  ((Z.of_nat (length d), d), mk_io (drop k (io_in s)) (tail (io_sizes s)) (io_out s)).

Definition io_handler : handler io := fun B c =>
  match c in call B return io → B * io with
  | Read _ n => io_read n
  | Write _ d => fun s => (Z.of_nat (length d), mk_io (io_in s) (io_sizes s) (io_out s ++ d))
  | Pipe => fun s => ((-1, (0, 0)), s)
  | Wait2 => fun s => ((-1, (0, 0, 0)), s)
  | Fstat _ => fun s => ((-1, mk_ustat 0 0 0 0 0), s)
  | Yield => fun s => (tt, s)
  | Fork | Wait | Close _ | Kill _ | Exec _ _ | Open _ _ | Mknod _ _ _ | Unlink _ | Link _ _ | Mkdir _ | Chdir _
  | Dup _ | Getpid | Sbrk _ | Sleep _ | Uptime | ChangePrio _ | LinkPtr _ _ | IntAt _ _ => fun s => (-1, s)
  | Peek _ | Poke _ _ | Inb _ | Outb _ _ => fun s => (None, s)
  end.

#[refine, export] Instance io_stream : Stream io_handler 0 := {| rest := io_in; output := io_out |}.
Proof.
  - intros s n Hn. unfold io_handler, io_read. set (k := Nat.min _ _).
    assert (1 ≤ k ≤ Z.to_nat n)%nat as Hk by (unfold k; destruct (io_sizes s); lia).
    split; [done|]. split; [rewrite length_take; lia|]. split; [symmetry; apply take_drop|]. split; [|done].
    intros Hd. destruct (io_in s) as [|b l]; [done|]. destruct k; [lia|done].
  - intros s d. done.
Defined.

(** [printf]-style output of seven bytes at a time. *)
Definition demo_text : list Z := chars "one two
 three
".

Lemma cat_copies_witness :
  ∃ s', run io_handler (cat 20 0) (mk_io demo_text [0; 6; 0]%nat []) = Returned tt s' ∧ io_out s' = demo_text.
Proof.
  destruct (cat_copies (ST := io_stream) 20 (mk_io demo_text [0; 6; 0]%nat [])) as (s' & H1 & H2 & _); [cbn; lia|].
  exists s'. split; [exact H1|exact H2].
Defined.

Lemma wc_counts_witness :
  ∃ s', run io_handler (wc 20 0 []) (mk_io demo_text [0; 6; 0]%nat []) = Returned tt s' ∧
    io_out s' = chars "2 3 15 
".
Proof.
  destruct (wc_counts (ST := io_stream) 20 (mk_io demo_text [0; 6; 0]%nat []) []) as (s' & H1 & H2); [cbn; lia|done|].
  exists s'. split; [exact H1|]. etrans; [exact H2|]. by vm_compute.
Defined.
