(* ===== verification/Grep.v ===== *)
(** * grep.c

    The matcher of Kernighan and Pike on strings without their terminating
    zero, and the loop over the lines of a file in the 1024-byte buffer.  The
    matcher is proved equal to the language of the regular expression. *)

From S2P Require Import Prelude CString Kstate Console User Utils.

(** ** The matcher *)

(** [mh] is [matchhere] on the rest of the expression. *)
Fixpoint matchstar (mh : list Z → bool) (c : Z) (text : list Z) : bool :=
  if mh text then true else
  match text with
  | [] => false
  | t :: text' => if (t =? c) || (c =? 46) then matchstar mh c text' else false
  end.

Fixpoint matchhere (re text : list Z) : bool :=
  match re with
  | [] => true
  | c :: re1 =>
      match re1 with
      | s :: re2 =>
          if s =? 42 then matchstar (matchhere re2) c text else
          match text with
          | t :: text' => if (c =? 46) || (c =? t) then matchhere re1 text' else false
          | [] => false
          end
      | [] =>
          if c =? 36 then match text with [] => true | _ => false end else
          match text with
          | t :: text' => if (c =? 46) || (c =? t) then matchhere re1 text' else false
          | [] => false
          end
      end
  end.

(** [do { if(matchhere(re, text)) return 1; } while( *text++ != 0);] *)
Fixpoint search (re text : list Z) : bool :=
  if matchhere re text then true else
  match text with [] => false | _ :: text' => search re text' end.

Definition match_ (re text : list Z) : bool :=
  match re with
  | c :: re' => if c =? 94 then matchhere re' text else search re text
  | [] => search re text
  end.

(** ** The loop over the lines of the buffer

    [p] is an index into [buf]; [n] bounds the number of lines. *)

Fixpoint grep_lines (n : nat) (pattern buf : list Z) (p : nat) : prog (list Z * nat) :=
  o <- try (strchr (drop p buf) 10) ;;
  match o with
  | None => Done (buf, p)
  | Some i =>
      match n with
      | O => Endless
      | S n' =>
          let q := (p + i)%nat in
          let buf1 := <[q := 0]> buf in
          if match_ pattern (cut0 (drop p buf1)) then
            let buf2 := <[q := 10]> buf1 in
            ask (Write 1 (take (S i) (drop p buf2))) ;;;
            grep_lines n' pattern buf2 (S q)
          else grep_lines n' pattern buf1 (S q)
      end
  end.

(** [d] written into [buf] at [i]; the kernel writes nothing outside the count it was given. *)
Definition put_at (buf : list Z) (i : nat) (d : list Z) : list Z :=
  take i buf ++ d ++ drop (i + length d) buf.

Fixpoint grep (n : nat) (pattern : list Z) (fd : Z) (buf : list Z) (m : nat) : prog (list Z) :=
  r <- ask (Read fd (1024 - Z.of_nat m - 1)) ;;
  if 0 <? r.1 then
    match n with
    | O => Endless
    | S n' =>
        let m1 := (m + Z.to_nat r.1)%nat in
        let buf1 := <[m1 := 0]> (put_at buf m r.2) in
        bp <- grep_lines 1024 pattern buf1 0 ;;
        let '(buf2, p) := bp in
        let m2 := if (p =? 0)%nat then 0%nat else m1 in
        if (0 <? m2)%nat then
          let m3 := (m2 - p)%nat in
          grep n' pattern fd (put_at buf2 0 (take m3 (drop p buf2))) m3
        else grep n' pattern fd buf2 m2
    end
  else Done buf.

Definition grep_buf : list Z := replicate 1024 0.

Fixpoint grep_files (n : nat) (pattern : list Z) (files : list (list Z)) (buf : list Z) : prog unit :=
  match files with
  | [] => Done tt
  | f :: files' =>
      fd <- ask (Open f 0) ;;
      if fd <? 0 then printf 1 "grep: cannot open %s
" [Str f] ;;; Exit else
      buf' <- grep n pattern fd buf 0 ;;
      ask (Close fd) ;;;
      grep_files n pattern files' buf'
  end.

Definition grep_main (n : nat) (argv : list (list Z)) : prog unit :=
  match argv with
  | _ :: pattern :: [] => grep n pattern 0 grep_buf 0 ;;; Exit
  | _ :: pattern :: files => grep_files n pattern files grep_buf ;;; Exit
  | _ => printf 2 "usage: grep pattern [file ...]
" [] ;;; Exit
  end.

(** ** Regular expressions *)

Inductive sym := Lit (c : Z) | Any.
Definition sat (i : sym) (t : Z) : Prop := match i with Lit c => t = c | Any => True end.

(** Symbols, each starred or not, with the two anchors. *)
Record regexp := mk_regexp { at_start : bool; pieces : list (bool * sym); at_end : bool }.

Fixpoint lang (ps : list (bool * sym)) (w : list Z) : Prop :=
  match ps with
  | [] => w = []
  | (star, i) :: ps' =>
      ∃ w1 w2, w = w1 ++ w2 ∧ lang ps' w2 ∧
        if star then Forall (sat i) w1 else ∃ t, w1 = [t] ∧ sat i t
  end.

(** [text] contains a word of the language at an allowed place. *)
Definition found (r : regexp) (text : list Z) : Prop :=
  ∃ pre mid post, text = pre ++ mid ++ post ∧ lang (pieces r) mid ∧
    (at_start r = true → pre = []) ∧ (at_end r = true → post = []).

(** The expression a pattern denotes: [c] followed by a star is starred, a
    dollar sign at the end and a caret at the start are anchors. *)
Definition sym_of (c : Z) : sym := if c =? 46 then Any else Lit c.
Fixpoint parse_pieces (re : list Z) : list (bool * sym) * bool :=
  match re with
  | [] => ([], false)
  | c :: re1 =>
      match re1 with
      | s :: re2 =>
          if s =? 42 then let '(ps, e) := parse_pieces re2 in ((true, sym_of c) :: ps, e)
          else let '(ps, e) := parse_pieces re1 in ((false, sym_of c) :: ps, e)
      | [] => if c =? 36 then ([], true) else ([(false, sym_of c)], false)
      end
  end.
Definition parse_regexp (re : list Z) : regexp :=
  match re with
  | c :: re' => if c =? 94 then let '(ps, e) := parse_pieces re' in mk_regexp true ps e
                else let '(ps, e) := parse_pieces re in mk_regexp false ps e
  | [] => mk_regexp false [] false
  end.

(** A prefix of [text] is in the language, all of it with the end anchor. *)
Definition found_here (pe : list (bool * sym) * bool) (text : list Z) : Prop :=
  ∃ mid post, text = mid ++ post ∧ lang pe.1 mid ∧ (pe.2 = true → post = []).

Lemma sat_sym c t : sat (sym_of c) t ↔ (t =? c) || (c =? 46) = true.
Proof.
  unfold sat, sym_of. destruct (Z.eqb_spec c 46); rewrite orb_true_iff, Z.eqb_eq; naive_solver.
Qed.

Lemma found_here_one i ps e text :
  found_here ((false, i) :: ps, e) text ↔ ∃ t text', text = t :: text' ∧ sat i t ∧ found_here (ps, e) text'.
Proof.
  unfold found_here. cbn [fst snd lang]. split.
  - intros (mid & post & -> & (w1 & w2 & -> & Hw & t & -> & Ht) & He). exists t, (w2 ++ post). split; [done|]. eauto 6.
  - intros (t & text' & -> & Ht & mid & post & -> & Hw & He). exists (t :: mid), post.
    split; [done|]. split; [|done]. exists [t], mid. eauto.
Qed.

Lemma found_here_star i ps e text :
  found_here ((true, i) :: ps, e) text ↔ ∃ w text', text = w ++ text' ∧ Forall (sat i) w ∧ found_here (ps, e) text'.
Proof.
  unfold found_here. cbn [fst snd lang]. split.
  - intros (mid & post & -> & (w1 & w2 & -> & Hw & Hs) & He). exists w1, (w2 ++ post). rewrite <- app_assoc. eauto 7.
  - intros (w & text' & -> & Hs & mid & post & -> & Hw & He). exists (w ++ mid), post. rewrite <- app_assoc.
    split; [done|]. split; [|done]. exists w, mid. eauto.
Qed.

Lemma matchstar_spec mh c text :
  matchstar mh c text = true ↔ ∃ w text', text = w ++ text' ∧ Forall (sat (sym_of c)) w ∧ mh text' = true.
Proof.
  induction text as [|t text IH]; cbn [matchstar].
  - destruct (mh []) eqn:H0; split; [|done| |]; [intros _; by exists [], []|done|].
    intros (w & text' & [-> ->]%eq_sym%app_nil & _ & H1). congruence.
  - destruct (mh (t :: text)) eqn:H0.
    + split; [|done]. intros _. by exists [], (t :: text).
    + destruct ((t =? c) || (c =? 46)) eqn:Ht.
      * rewrite IH. split.
        -- intros (w & text' & -> & Hw & H1). exists (t :: w), text'. split; [done|]. split; [|done].
           constructor; [by apply sat_sym|done].
        -- intros ([|t' w] & text' & Heq & Hw & H1); simpl in Heq; [subst; congruence|]. injection Heq as -> ->.
           apply Forall_cons in Hw as [_ Hw]. eauto.
      * split; [done|]. intros ([|t' w] & text' & Heq & Hw & H1); simpl in Heq; [subst; congruence|].
        injection Heq as -> ->. apply Forall_cons in Hw as [Hw _]. apply sat_sym in Hw. congruence.
Qed.

Lemma one_char c ps e (mh : list Z → bool) text :
  (∀ text, mh text = true ↔ found_here (ps, e) text) →
  (match text with t :: text' => if (c =? 46) || (c =? t) then mh text' else false | [] => false end) = true ↔
  found_here ((false, sym_of c) :: ps, e) text.
Proof.
  intros Hmh. rewrite found_here_one. destruct text as [|t text]; [naive_solver|].
  assert ((c =? 46) || (c =? t) = (t =? c) || (c =? 46)) as -> by (rewrite orb_comm; f_equal; apply Z.eqb_sym).
  destruct ((t =? c) || (c =? 46)) eqn:Ht.
  - rewrite Hmh. apply sat_sym in Ht. naive_solver.
  - split; [done|]. intros (t' & text' & [= <- <-] & Hs & _). apply sat_sym in Hs. congruence.
Qed.

Lemma matchhere_spec re text : matchhere re text = true ↔ found_here (parse_pieces re) text.
Proof.
  revert text. induction re as [re IH] using (induction_ltof1 _ (@length Z)); unfold ltof in IH.
  destruct re as [|c [|s re2]]; intros text; cbn [matchhere parse_pieces].
  - split; [|done]. intros _. by exists [], text.
  - destruct (c =? 36).
    + destruct text as [|t text]; (split; [intros H; try done|]).
      * by exists [], [].
      * done.
      * intros (mid & post & Heq & Hl & He). cbn in Hl. subst mid. by rewrite (He eq_refl) in Heq.
    + apply (one_char c [] false (matchhere [])). intros text'. apply (IH []). simpl. lia.
  - destruct (s =? 42).
    + pose proof (IH re2 ltac:(simpl; lia)) as IH2. destruct (parse_pieces re2) as [ps e]. rewrite found_here_star, matchstar_spec.
      by setoid_rewrite IH2.
    + pose proof (IH (s :: re2) ltac:(simpl; lia)) as IH1.
      destruct (parse_pieces (s :: re2)) as [ps e] eqn:Hp. cbn [parse_pieces] in Hp. rewrite Hp.
      by apply (one_char c ps e (matchhere (s :: re2))).
Qed.

Lemma search_spec re text :
  search re text = true ↔ ∃ pre text', text = pre ++ text' ∧ found_here (parse_pieces re) text'.
Proof.
  induction text as [|t text IH]; cbn [search]; destruct (matchhere re _) eqn:Hm.
  - apply matchhere_spec in Hm. split; [|done]. intros _. by exists [], [].
  - split; [done|]. intros (pre & text' & [-> ->]%eq_sym%app_nil & H). apply matchhere_spec in H. congruence.
  - apply matchhere_spec in Hm. split; [|done]. intros _. by exists [], (t :: text).
  - rewrite IH. split.
    + intros (pre & text' & -> & H). by exists (t :: pre), text'.
    + intros ([|t' pre] & text' & Heq & H); simpl in Heq; [|injection Heq as -> ->; eauto].
      subst text'. apply matchhere_spec in H. congruence.
Qed.

(** C29. [match] of grep.c finds a pattern in a line exactly when the line
    contains a word of the regular expression that the pattern denotes, at the
    start or at the end of the line where the pattern is anchored. *)
Theorem match_correct re text : match_ re text = true ↔ found (parse_regexp re) text.
Proof.
  assert (∀ ps e, (∃ pre text', text = pre ++ text' ∧ found_here (ps, e) text') ↔ found (mk_regexp false ps e) text) as Hs.
  { intros ps e. unfold found, found_here. cbn. split.
    - intros (pre & text' & -> & mid & post & -> & H1 & H2). by exists pre, mid, post.
    - intros (pre & mid & post & -> & H1 & _ & H2). exists pre, (mid ++ post). eauto 6. }
  unfold match_, parse_regexp. destruct re as [|c re'].
  - rewrite search_spec. apply Hs.
  - destruct (c =? 94).
    + rewrite matchhere_spec. destruct (parse_pieces re') as [ps e]. unfold found, found_here. cbn. split.
      * intros (mid & post & -> & H1 & H2). by exists [], mid, post.
      * intros (pre & mid & post & -> & H1 & H2 & H3). exists mid, post. by rewrite (H2 eq_refl).
    + rewrite search_spec. destruct (parse_pieces (c :: re')) as [ps e]. apply Hs.
Qed.

(** ** Lines *)

Definition line (l : list Z) : list Z := l ++ [10].
Definition text_of (ls : list (list Z)) : list Z := concat (line <$> ls).
(** A line that fits into the buffer, and has no newline and no zero. *)
Record short_line (l : list Z) : Prop := { sl_nl : 10 ∉ l; sl_nul : 0 ∉ l; sl_len : (length l ≤ 1022)%nat }.

Lemma strchr_from_None a j k : 10 ∉ a → strchr_from (a ++ 0 :: j) k 10 = Some None.
Proof.
  revert k. induction a as [|c a IH]; intros k H; [done|]. cbn [app strchr_from]. apply not_elem_of_cons in H as [H1 H2].
  destruct (c =? 0); [done|]. destruct (Z.eqb_spec c 10); [done|]. by apply IH.
Qed.
Lemma strchr_from_Some a j k : 10 ∉ a → 0 ∉ a → strchr_from (a ++ 10 :: j) k 10 = Some (Some (k + length a)%nat).
Proof.
  revert k. induction a as [|c a IH]; intros k H H0; cbn [app strchr_from length]; [f_equal; f_equal; lia|].
  apply not_elem_of_cons in H as [H1 H2]. apply not_elem_of_cons in H0 as [H3 H4].
  rewrite (proj2 (Z.eqb_neq c 0)), (proj2 (Z.eqb_neq c 10)) by done. rewrite IH by done. f_equal. f_equal. lia.
Qed.

Lemma drop_insert_at {A} (buf : list A) p a x j v :
  drop p buf = a ++ x :: j → drop p (<[(p + length a)%nat := v]> buf) = a ++ v :: j.
Proof.
  intros H. assert (p + length a < length buf)%nat as Hlt.
  { assert (length (drop p buf) = length (a ++ x :: j)) as Hl by (by rewrite H). rewrite length_drop, length_app in Hl. simpl in Hl. lia. }
  rewrite drop_insert_ge by lia. rewrite H. replace (p + length a - p)%nat with (length a + 0)%nat by lia.
  by rewrite insert_app_r.
Qed.

Lemma grep_lines_none n pattern buf p : strchr (drop p buf) 10 = Some None → grep_lines n pattern buf p = Done (buf, p).
Proof. intros H. destruct n; cbn [grep_lines]; by rewrite H. Qed.

Section grep_streams.
Context {S : Type} {h : handler S} {fd : Z} {ST : Stream h fd}.

Definition matching (pattern : list Z) (ls : list (list Z)) : list Z :=
  text_of (filter (fun l => match_ pattern l = true) ls).

Lemma matching_cons pattern l ls :
  matching pattern (l :: ls) = (if match_ pattern l then line l else []) ++ matching pattern ls.
Proof. unfold matching. rewrite filter_cons. destruct (match_ pattern l); case_decide; try done. Qed.

(** The complete lines from [p] on are printed when they match. *)
Lemma grep_lines_spec n pattern ls tl j buf p s :
  (length ls ≤ n)%nat → Forall (fun l => 10 ∉ l ∧ 0 ∉ l) ls → 10 ∉ tl → drop p buf = text_of ls ++ tl ++ 0 :: j →
  ∃ buf' s', run h (grep_lines n pattern buf p) s = Returned (buf', p + length (text_of ls))%nat s' ∧
    length buf' = length buf ∧ drop (p + length (text_of ls)) buf' = tl ++ 0 :: j ∧
    rest s' = rest s ∧ output s' = output s ++ matching pattern ls.
Proof.
  revert n buf p s. induction ls as [|l ls IH]; intros n buf p s Hn Hls Htl Hbuf.
  - exists buf, s. cbn [text_of] in *. change (text_of []) with (@nil Z) in *. cbn in Hbuf. cbn [length]. rewrite Nat.add_0_r.
    assert (strchr (drop p buf) 10 = Some None) as Hc by (rewrite Hbuf; by apply strchr_from_None).
    split; [|split_and!; [done|done|done|by rewrite app_nil_r]]. destruct n; cbn [grep_lines]; rewrite Hc; done.
  - destruct n as [|n]; [simpl in Hn; lia|]. apply Forall_cons in Hls as [[Hl1 Hl2] Hls].
    change (text_of (l :: ls)) with (line l ++ text_of ls) in *. unfold line in *. rewrite <- !app_assoc in Hbuf. cbn [app] in Hbuf.
    assert (strchr (drop p buf) 10 = Some (Some (length l))) as Hc by (rewrite Hbuf; by apply strchr_from_Some).
    set (buf1 := <[(p + length l)%nat := 0]> buf). pose proof (drop_insert_at buf p l 10 _ 0 Hbuf) as Hb1. fold buf1 in Hb1.
    set (q := Datatypes.S (p + length l)).
    assert (∀ b, drop p b = l ++ 10 :: text_of ls ++ tl ++ 0 :: j ∨ drop p b = l ++ 0 :: text_of ls ++ tl ++ 0 :: j →
      drop q b = text_of ls ++ tl ++ 0 :: j) as Hq.
    { intros b Hb. replace q with (p + Datatypes.S (length l))%nat by (unfold q; lia). rewrite <- drop_drop.
      destruct Hb as [-> | ->]; rewrite drop_app_ge by lia; by replace (Datatypes.S (length l) - length l)%nat with 1%nat by lia. }
    assert (p + length ((l ++ [10%Z]) ++ text_of ls) = q + length (text_of ls))%nat as ->.
    { rewrite !length_app. unfold q. simpl. lia. }
    cbn [grep_lines]. rewrite Hc. cbn [try pbind]. fold buf1. rewrite Hb1, cut0_app by done.
    rewrite matching_cons. destruct (match_ pattern l).
    + set (buf2 := <[(p + length l)%nat := 10]> buf1). pose proof (drop_insert_at buf1 p l 0 _ 10 Hb1) as Hb2. fold buf2 in Hb2.
      assert (take (Datatypes.S (length l)) (drop p buf2) = line l) as Ht.
      { rewrite Hb2. unfold line. rewrite take_app_ge by lia. by replace (Datatypes.S (length l) - length l)%nat with 1%nat by lia. }
      rewrite Ht. destruct (write_step s (line l)) as (s1 & Hw & Hr1 & Ho1). cbn [ask pbind run]. rewrite Hw.
      destruct (IH n buf2 q s1) as (buf' & s' & H1 & H2 & H3 & H4 & H5); [simpl in Hn; lia|done|done|by apply Hq; left|].
      exists buf', s'. split_and!; [done| |done|congruence|by rewrite H5, Ho1, app_assoc].
      rewrite H2. unfold buf2, buf1. by rewrite !length_insert.
    + destruct (IH n buf1 q s) as (buf' & s' & H1 & H2 & H3 & H4 & H5); [simpl in Hn; lia|done|done|by apply Hq; right|].
      exists buf', s'. split_and!; [done| |done|done|done]. rewrite H2. unfold buf1. by rewrite length_insert.
Qed.

(** The buffer after a piece [d] was read behind the [m] bytes [pre]. *)
Lemma put_at_spec buf m pre d :
  length buf = 1024%nat → take m buf = pre → (m + length d ≤ 1023)%nat →
  ∃ j, <[(m + length d)%nat := 0]> (put_at buf m d) = pre ++ d ++ 0 :: j ∧ length (pre ++ d ++ 0 :: j) = 1024%nat.
Proof.
  intros Hl Hp Hd. assert (length pre = m) as Hm by (subst pre; rewrite length_take; lia).
  exists (drop (Datatypes.S (m + length d)) buf). split.
  - unfold put_at. rewrite Hp. rewrite <- Hm at 1. rewrite insert_app_r. f_equal.
    replace (length d) with (length d + 0)%nat at 1 by lia. rewrite insert_app_r. f_equal.
    rewrite <- Hm. destruct (drop (length pre + length d) buf) as [|x j] eqn:Hdr.
    + assert (length (drop (length pre + length d) buf) = 0%nat) as H0 by (by rewrite Hdr). rewrite length_drop in H0. lia.
    + cbn. f_equal. replace (Datatypes.S (length pre + length d)) with (length pre + length d + 1)%nat by lia.
      rewrite <- drop_drop, Hdr. done.
  - rewrite !length_app. cbn [length]. rewrite length_drop. lia.
Qed.

(** Cutting a text after [k] bytes: complete lines, and the start of a line. *)
Lemma cut_text ls k :
  Forall short_line ls →
  ∃ ls1 ls2 tl, ls = ls1 ++ ls2 ∧ take k (text_of ls) = text_of ls1 ++ tl ∧ tl ++ drop k (text_of ls) = text_of ls2 ∧
    10 ∉ tl ∧ (length tl ≤ 1022)%nat ∧ ((1023 ≤ k)%nat → ls1 = [] → ls = []).
Proof.
  revert k. induction ls as [|l ls IH]; intros k Hls.
  - exists [], [], []. split_and!; [done|by destruct k|by destruct k|by apply not_elem_of_nil|simpl; lia|done].
  - apply Forall_cons in Hls as [[Hl1 Hl2 Hl3] Hls]. change (text_of (l :: ls)) with (line l ++ text_of ls). unfold line.
    destruct (decide (k ≤ length l)%nat) as [Hk|Hk].
    + exists [], (l :: ls), (take k l). rewrite <- app_assoc, take_app_le, drop_app_le by lia. split_and!; try done.
      * rewrite app_assoc, take_drop. unfold text_of, line. cbn. by rewrite <- app_assoc.
      * intros Hin. apply Hl1. by eapply elem_of_take in Hin as (i & Hi & _); apply list_elem_of_lookup_2 with i.
      * rewrite length_take. lia.
      * lia.
    + destruct (IH (k - Datatypes.S (length l))%nat Hls) as (ls1 & ls2 & tl & -> & H1 & H2 & H3 & H4 & H5).
      exists (l :: ls1), ls2, tl. rewrite take_app_ge, drop_app_ge by (rewrite length_app; simpl; lia).
      assert (k - length (l ++ [10%Z]) = k - Datatypes.S (length l))%nat as -> by (rewrite length_app; simpl; lia).
      split_and!; try done. rewrite H1. unfold text_of at 2. cbn. unfold line at 1. by rewrite <- !app_assoc.
Qed.

(** The kernel reads a file: as many bytes as asked for, while there are. *)
Definition full_reads : Prop := ∀ s n, 0 < n → Z.of_nat (length ((h _ (Read fd n) s).1.2)) = Z.min n (Z.of_nat (length (rest s))).

Lemma full_step s n : full_reads → 0 < n →
  ∃ d s', h _ (Read fd n) s = ((Z.of_nat (length d), d), s') ∧ d = take (Z.to_nat n) (rest s) ∧
    rest s' = drop (Z.to_nat n) (rest s) ∧ output s' = output s.
Proof.
  intros Hf Hn. destruct (read_step s n Hn) as (d & s' & Hr & Hle & Hrest & _ & Ho). specialize (Hf s n Hn). rewrite Hr in Hf. cbn in Hf.
  exists d, s'. split; [done|]. rewrite Hrest in *. rewrite length_app in Hf.
  destruct (decide (length d = Z.to_nat n)) as [He|He].
  - rewrite <- He, take_app_length, drop_app_length. done.
  - assert (rest s' = []) as Hnil by (apply nil_length_inv; lia). rewrite Hnil, app_nil_r in *.
    rewrite take_ge, drop_ge by lia. done.
Qed.

Lemma length_text ls : (length ls ≤ length (text_of ls))%nat.
Proof. induction ls as [|l ls IH]; [done|]. unfold text_of, line in *. cbn. rewrite !length_app. simpl. lia. Qed.

Lemma text_pos ls : ls ≠ [] → (0 < length (text_of ls))%nat.
Proof. intros H. pose proof (length_text ls) as Hl. destruct ls; [done|]. cbn [length] in Hl. lia. Qed.

Lemma nl_text l ls : 10 ∈ text_of (l :: ls).
Proof. unfold text_of, line. cbn. rewrite <- app_assoc. apply elem_of_app. right. by left. Qed.

Lemma grep_spec n pattern ls pre buf s :
  full_reads → Forall short_line ls → (length ls ≤ n)%nat → (length pre ≤ 1022)%nat → 10 ∉ pre → length buf = 1024%nat →
  take (length pre) buf = pre → pre ++ rest s = text_of ls →
  ∃ buf' s', run h (grep n pattern fd buf (length pre)) s = Returned buf' s' ∧ output s' = output s ++ matching pattern ls.
Proof.
  intros Hfull. revert ls pre buf s. induction n as [|n IH]; intros ls pre buf s Hls Hn Hpre Hnl Hbuf Htake Htext;
    (destruct (full_step s (1024 - Z.of_nat (length pre) - 1) Hfull) as (d & s1 & Hr & Hd & Hrest & Ho); [lia|]);
    cbn [grep ask pbind run]; rewrite Hr; cbn [fst snd].
  - destruct ls; [|simpl in Hn; lia]. apply app_nil in Htext as [-> Hnil]. rewrite Hnil, take_nil in Hd. subst d.
    exists buf, s1. split; [done|]. by rewrite Ho, app_nil_r.
  - set (k := Z.to_nat (1024 - Z.of_nat (length pre) - 1)) in *. assert (k = 1023 - length pre)%nat as Hk by (unfold k; lia).
    destruct (cut_text ls 1023 Hls) as (ls1 & ls2 & tl & -> & H1 & H2 & H3 & H4 & H5).
    assert (pre ++ d = text_of ls1 ++ tl) as Hcut by (rewrite <- H1, <- Htext, Hd, take_app_ge, <- Hk by lia; done).
    assert (tl ++ rest s1 = text_of ls2) as Hrest1 by (rewrite <- H2, <- Htext, drop_app_ge, <- Hk, Hrest by lia; done).
    apply Forall_app in Hls as [Hls1 Hls2].
    assert (length d = 0%nat ∨ ls1 ≠ []) as Hcase.
    { destruct (decide (ls1 = [])) as [->|]; [left|by right]. apply app_nil in H5 as [_ ->]; [|lia|done].
      cbn in Htext. apply app_nil in Htext as [_ Hnil]. subst d. by rewrite Hnil, take_nil. }
    destruct (Z.ltb_spec 0 (Z.of_nat (length d))) as [Hpos|Hpos].
    2:{ assert (d = []) as -> by (apply nil_length_inv; lia). rewrite app_nil_r in Hcut.
        destruct ls1 as [|l ls1]; [|exfalso; apply Hnl; rewrite Hcut; apply elem_of_app; left; apply nl_text].
        apply app_nil in H5 as [_ ->]; [|lia|done]. exists buf, s1. split; [done|]. by rewrite Ho, app_nil_r. }
    assert (length pre + length d ≤ 1023)%nat as Hfit by (rewrite Hd, length_take; lia).
    destruct (put_at_spec buf (length pre) pre d Hbuf Htake Hfit) as (j & Hput & Hlput). rewrite Nat2Z.id, Hput.
    rewrite app_assoc, Hcut, <- app_assoc in *.
    destruct (grep_lines_spec 1024 pattern ls1 tl j (text_of ls1 ++ tl ++ 0 :: j) 0 s1)
      as (buf2 & s2 & G1 & G2 & G3 & G4 & G5).
    + pose proof (length_text ls1). rewrite length_app in Hlput. lia.
    + eapply Forall_impl; [exact Hls1|]. by intros l [].
    + done.
    + done.
    + rewrite (run_returned _ _ _ _ _ _ G1). cbn [Nat.add] in *.
      assert (ls1 ≠ []) as Hne by (destruct Hcase; [lia|done]).
      assert (0 < length (text_of ls1))%nat as Hp by (by apply text_pos).
      assert (length pre + length d = length (text_of ls1) + length tl)%nat as Hm1 by (rewrite <- !length_app; by rewrite Hcut).
      rewrite (proj2 (Nat.eqb_neq _ _)), (proj2 (Nat.ltb_lt 0 _)) by lia.
      replace (length pre + length d - length (text_of ls1))%nat with (length tl) by lia.
      rewrite G3, take_app_length.
      destruct (IH ls2 tl (put_at buf2 0 tl) s2) as (buf' & s' & I1 & I2); try done.
      * rewrite length_app in Hn. destruct ls1; [done|simpl in Hn; lia].
      * unfold put_at. rewrite take_0, !length_app, length_drop. cbn [length Nat.add app].
        rewrite G2, Hlput. rewrite !length_app in Hlput. simpl in Hlput. lia.
      * unfold put_at. cbn [take app]. by rewrite take_0, app_nil_l, take_app_length.
      * by rewrite G4.
      * exists buf', s'. split; [done|]. rewrite I2, G5, Ho. unfold matching. rewrite filter_app, <- app_assoc. f_equal.
        unfold text_of. by rewrite fmap_app, concat_app.
Qed.

(** [grep] on a file whose lines end with a newline, have no zero byte and
    are at most 1022 characters long prints exactly the lines that match, in
    their order, and ends; as many rounds as there are lines are enough. *)
Theorem grep_prints_matching_lines n pattern ls s :
  full_reads → Forall short_line ls → rest s = text_of ls → (length ls ≤ n)%nat →
  ∃ buf' s', run h (grep n pattern fd grep_buf 0) s = Returned buf' s' ∧
    output s' = output s ++ text_of (filter (fun l => match_ pattern l = true) ls).
Proof.
  intros Hfull Hls Hrest Hn. apply (grep_spec n pattern ls [] grep_buf s); try done.
  - simpl. lia.
  - apply not_elem_of_nil.
Qed.

(** But a piece without a newline is thrown away: when a read at the start
    of the buffer returns part of a line, as reads from a pipe do, [grep] goes
    on as if those bytes had never been there. *)
Theorem grep_drops_partial_line n pattern buf s d s1 :
  length buf = 1024%nat → h _ (Read fd 1023) s = ((Z.of_nat (length d), d), s1) → d ≠ [] → 10 ∉ d →
  ∃ buf', length buf' = 1024%nat ∧
    run h (grep (Datatypes.S n) pattern fd buf 0) s = run h (grep n pattern fd buf' 0) s1.
Proof.
  intros Hbuf Hr Hd Hnl. assert (length d ≤ 1023)%nat as Hle.
  { destruct (read_step s 1023) as (d' & s' & Hr' & Hle & _); [lia|]. rewrite Hr in Hr'. simplify_eq. lia. }
  destruct (put_at_spec buf 0 [] d Hbuf eq_refl) as (j & Hput & Hl); [lia|].
  exists (d ++ 0 :: j). split; [done|]. cbn [grep ask pbind run]. change (1024 - Z.of_nat 0 - 1) with 1023. rewrite Hr. cbn [fst snd].
  rewrite (proj2 (Z.ltb_lt _ _)) by (destruct d; [done|simpl; lia]). rewrite Nat2Z.id, Hput. cbn [app].
  by rewrite (grep_lines_none 1024 pattern (d ++ 0 :: j) 0 (strchr_from_None d j 0 Hnl)).
Qed.
End grep_streams.

(** ** The theorems at concrete inputs *)

(** A kernel that reads from a file. *)
Definition file_handler : handler io := fun B c s => io_handler B c (mk_io (io_in s) [] (io_out s)).

#[refine, export] Instance file_stream : Stream file_handler 0 := {| rest := io_in; output := io_out |}.
Proof.
  - intros s n Hn. exact (read_law (Stream := io_stream) (mk_io (io_in s) [] (io_out s)) n Hn).
  - intros s d. done.
Defined.

Lemma file_full_reads : full_reads (ST := file_stream).
Proof.
  intros s n Hn. unfold file_handler, io_handler, io_read. cbn [fst snd io_sizes io_in rest file_stream].
  rewrite length_take. lia.
Qed.

Definition demo_lines : list (list Z) := [chars "one"; chars "two"; chars "three"; chars "the end"; chars "tie"].
Lemma demo_lines_short : Forall short_line demo_lines.
Proof.
  repeat (apply Forall_cons; split; [split; [by apply (bool_decide_eq_true_1 _); vm_compute..|cbn; lia]|]). apply Forall_nil_2.
Qed.

Lemma grep_prints_matching_lines_witness :
  ∃ buf' s', run file_handler (grep 5 (chars "^t.*e$") 0 grep_buf 0) (mk_io (text_of demo_lines) [] []) = Returned buf' s' ∧
    io_out s' = text_of [chars "three"; chars "tie"].
Proof.
  destruct (grep_prints_matching_lines (ST := file_stream) 5 (chars "^t.*e$") demo_lines (mk_io (text_of demo_lines) [] []))
    as (buf' & s' & H1 & H2); [apply file_full_reads|apply demo_lines_short|done|cbn; lia|].
  exists buf', s'. split; [exact H1|]. etrans; [exact H2|]. by vm_compute.
Defined.

(** [echo hello | grep hello] with the first two characters read alone. *)
Lemma grep_drops_partial_line_witness :
  ∃ buf', run io_handler (grep 5 (chars "hello") 0 grep_buf 0) (mk_io (chars "hello" ++ [10]) [1%nat] []) =
    run io_handler (grep 4 (chars "hello") 0 buf' 0) (mk_io (chars "llo" ++ [10]) [] []).
Proof.
  destruct (grep_drops_partial_line (ST := io_stream) 4 (chars "hello") grep_buf (mk_io (chars "hello" ++ [10]) [1%nat] [])
    (chars "he") (mk_io (chars "llo" ++ [10]) [] [])) as (buf' & _ & H).
  - apply length_replicate.
  - by vm_compute.
  - done.
  - by apply (bool_decide_eq_true_1 _); vm_compute.
  - exists buf'. exact H.
Defined.
