(* ===== verification/Sh.v ===== *)
(** * The shell (sh.c)

    The parser works on the command line without its terminating zero; a
    pointer into the line is an index, and reading at the end gives zero.  A
    parsed command refers to its words by their start and end, as the C code
    does, until [nulterminate] writes a zero at the end of each.  Storage for
    the nodes comes from [malloc], which is taken to succeed. *)

From S2P Require Import Prelude CString Kstate Console Syscall User Utils.

Definition MAXARGS : nat := 10.

(** A word of the line: from [q] up to [eq]. *)
Definition span : Type := nat * nat.

(** struct cmd: [W] is [span] in the parser and the string itself later. *)
Inductive cmd (W : Type) : Type :=
| ExecCmd (argv : list W)
| RedirCmd (c : cmd W) (file : W) (mode fd : Z)
| PipeCmd (left right : cmd W)
| ListCmd (left right : cmd W)
| BackCmd (c : cmd W).
Arguments ExecCmd {W}.
Arguments RedirCmd {W}.
Arguments PipeCmd {W}.
Arguments ListCmd {W}.
Arguments BackCmd {W}.

(** ** Tokens *)

Definition whitespace : list Z := [32; 9; 13; 10; 11; 0].
Definition symbols : list Z := chars "<|>&;()" ++ [0].

(** [strchr(s, c) != 0] *)
Definition in_str (s : list Z) (c : Z) : bool := match strchr s c with Some (Some _) => true | _ => false end.
Definition is_ws (c : Z) : bool := in_str whitespace c.
Definition is_word (c : Z) : bool := negb (is_ws c) && negb (in_str symbols c).

(** How far [while(s < es && p( *s)) s++] goes. *)
Fixpoint span_len (p : Z → bool) (l : list Z) : nat :=
  match l with [] => O | c :: l' => if p c then S (span_len p l') else O end.
Definition skip (p : Z → bool) (s : list Z) (i : nat) : nat := (i + span_len p (drop i s))%nat.
Definition char_at (s : list Z) (i : nat) : Z := default 0 (s !! i).

(** Returns the kind of token, its extent and the new position. *)
Definition gettoken (s : list Z) (ps : nat) : Z * span * nat :=
  let q := skip is_ws s ps in
  let c := char_at s q in
  let '(ret, e) :=
    if c =? 0 then (0, q)
    else if (c =? 124) || (c =? 40) || (c =? 41) || (c =? 59) || (c =? 38) || (c =? 60) then (c, S q)
    else if c =? 62 then if char_at s (S q) =? 62 then (43, S (S q)) else (62, S q)
    else (97, skip is_word s q) in
  (ret, (q, e), skip is_ws s e).

(** Skips white space; is the next character one of [toks]? *)
Definition peek (s : list Z) (ps : nat) (toks : list Z) : bool * nat :=
  let q := skip is_ws s ps in
  let c := char_at s q in
  (negb (c =? 0) && in_str toks c, q).

(** ** Parsing *)

Inductive parsed (A : Type) : Type :=
| Ok (a : A)
| Perr (msg : string)              (** panic(msg) *)
| Pleft (rest : list Z)            (** leftovers: rest, then panic(syntax) *)
| Pfuel.
Arguments Ok {A}.
Arguments Perr {A}.
Arguments Pleft {A}.
Arguments Pfuel {A}.

Definition obind {A B} (o : parsed A) (f : A → parsed B) : parsed B :=
  match o with Ok a => f a | Perr m => Perr m | Pleft l => Pleft l | Pfuel => Pfuel end.
Declare Scope parse_scope.
Delimit Scope parse_scope with parse.
Notation "x <~ o ;; k" := (obind o (fun x => k)) (at level 100, o at next level, right associativity) : parse_scope.
Open Scope parse_scope.

Definition add_redir (c : cmd span) (tok : Z) (file : span) : cmd span :=
  if tok =? 60 then RedirCmd c file O_RDONLY 0
  else if (tok =? 62) || (tok =? 43) then RedirCmd c file (Z.lor O_WRONLY O_CREATE) 1
  else c.

Definition redir_toks : list Z := chars "<>" ++ [0].
Definition exec_stop : list Z := chars "|)&;" ++ [0].

(** The redirections found, as functions to wrap around the command: in
    [parseexec] the innermost command is still being filled in. *)
Fixpoint parseredirs (n : nat) (s : list Z) (ps : nat) (acc : list (Z * span)) : parsed (list (Z * span) * nat) :=
  let '(b, ps) := peek s ps redir_toks in
  if b : bool then
    match n with
    | O => Pfuel
    | S n' =>
        let '(tok, _, ps) := gettoken s ps in
        let '(t, q, ps) := gettoken s ps in
        if negb (t =? 97) then Perr "missing file for redirection" else
        parseredirs n' s ps (acc ++ [(tok, q)])
    end
  else Ok (acc, ps).
Definition wrap (c : cmd span) (rs : list (Z * span)) : cmd span :=
  foldl (fun c r => add_redir c r.1 r.2) c rs.

(** The loop of [parseexec]: the arguments and the redirections so far. *)
Fixpoint exec_args (n : nat) (s : list Z) (ps : nat) (argv : list span) (rs : list (Z * span)) :
    parsed (cmd span * nat) :=
  let '(b, ps) := peek s ps exec_stop in
  if b : bool then Ok (wrap (ExecCmd argv) rs, ps) else
  match n with
  | O => Pfuel
  | S n' =>
      let '(tok, q, ps) := gettoken s ps in
      if tok =? 0 then Ok (wrap (ExecCmd argv) rs, ps) else
      if negb (tok =? 97) then Perr "syntax" else
      let argv := argv ++ [q] in
      if (MAXARGS <=? length argv)%nat then Perr "too many args" else
      r <~ parseredirs n' s ps rs ;;
      exec_args n' s r.2 argv r.1
  end.

(** [while(peek(ps, es, "&")) { gettoken(ps, es, 0, 0); cmd = backcmd(cmd); }] *)
Fixpoint parse_backs (n : nat) (s : list Z) (c : cmd span) (ps : nat) : parsed (cmd span * nat) :=
  let '(b, ps) := peek s ps [38; 0] in
  if b : bool then
    match n with
    | O => Pfuel
    | S n' => let '(_, _, ps) := gettoken s ps in parse_backs n' s (BackCmd c) ps
    end
  else Ok (c, ps).

Fixpoint parseline (n : nat) (s : list Z) (ps : nat) : parsed (cmd span * nat) :=
  match n with
  | O => Pfuel
  | S n' =>
      r <~ parsepipe n' s ps ;;
      r <~ parse_backs n' s r.1 r.2 ;;
      let '(b, ps) := peek s r.2 [59; 0] in
      if b : bool then
        let '(_, _, ps) := gettoken s ps in
        r2 <~ parseline n' s ps ;;
        Ok (ListCmd r.1 r2.1, r2.2)
      else Ok (r.1, ps)
  end
with parsepipe (n : nat) (s : list Z) (ps : nat) : parsed (cmd span * nat) :=
  match n with
  | O => Pfuel
  | S n' =>
      r <~ parseexec n' s ps ;;
      let '(b, ps) := peek s r.2 [124; 0] in
      if b : bool then
        let '(_, _, ps) := gettoken s ps in
        r2 <~ parsepipe n' s ps ;;
        Ok (PipeCmd r.1 r2.1, r2.2)
      else Ok (r.1, ps)
  end
with parseexec (n : nat) (s : list Z) (ps : nat) : parsed (cmd span * nat) :=
  match n with
  | O => Pfuel
  | S n' =>
      let '(b, ps) := peek s ps [40; 0] in
      if b : bool then parseblock n' s ps else
      r <~ parseredirs n' s ps [] ;;
      exec_args n' s r.2 [] r.1
  end
with parseblock (n : nat) (s : list Z) (ps : nat) : parsed (cmd span * nat) :=
  match n with
  | O => Pfuel
  | S n' =>
      let '(b, ps) := peek s ps [40; 0] in
      if negb b then Perr "parseblock" else
      let '(_, _, ps) := gettoken s ps in
      r <~ parseline n' s ps ;;
      let '(b, ps) := peek s r.2 [41; 0] in
      if negb b then Perr "syntax - missing )" else
      let '(_, _, ps) := gettoken s ps in
      rs <~ parseredirs n' s ps [] ;;
      Ok (wrap r.1 rs.1, rs.2)
  end.

(** ** The words of a command *)

(** [nulterminate]: the line with a zero at the end of every word. *)
Fixpoint nulterminate (c : cmd span) (buf : list Z) : list Z :=
  match c with
  | ExecCmd argv => foldl (fun b w => <[w.2 := 0]> b) buf argv
  | RedirCmd c file _ _ => <[file.2 := 0]> (nulterminate c buf)
  | PipeCmd l r => nulterminate r (nulterminate l buf)
  | ListCmd l r => nulterminate r (nulterminate l buf)
  | BackCmd c => nulterminate c buf
  end.

Fixpoint map_cmd {V W} (f : V → W) (c : cmd V) : cmd W :=
  match c with
  | ExecCmd argv => ExecCmd (f <$> argv)
  | RedirCmd c file mode fd => RedirCmd (map_cmd f c) (f file) mode fd
  | PipeCmd l r => PipeCmd (map_cmd f l) (map_cmd f r)
  | ListCmd l r => ListCmd (map_cmd f l) (map_cmd f r)
  | BackCmd c => BackCmd (map_cmd f c)
  end.

(** The string at a pointer into the line. *)
Definition string_at (buf : list Z) (w : span) : list Z := cut0 (drop w.1 buf).

(** A bound on the depth of the recursion for a line of [n] characters. *)
Definition parse_fuel (s : list Z) : nat := (8 * length s + 8)%nat.

(** The command with its strings; the message about leftovers is printed by
    [run_line]. *)
Definition parsecmd (s : list Z) : parsed (cmd (list Z)) :=
  r <~ parseline (parse_fuel s) s 0 ;;
  let ps := (peek s r.2 [0]).2 in
  if negb (ps =? length s)%nat then Pleft (drop ps s) else
  let buf := nulterminate r.1 (s ++ [0]) in
  Ok (map_cmd (string_at buf) r.1).

(** ** Running commands *)

Definition panic (m : string) : prog unit := printf 2 "%s
" [Str (chars m)] ;;; Exit.

Definition fork1 : prog Z :=
  pid <- ask Fork ;;
  (if pid =? -1 then panic "fork" else Done tt) ;;;
  Done pid.

(** Never returns. *)
Fixpoint runcmd (c : cmd (list Z)) : prog unit :=
  match c with
  | ExecCmd argv =>
      match argv with
      | [] => Exit
      | a0 :: _ =>
          ask (Exec a0 argv) ;;;
          printf 2 "exec %s failed
" [Str a0] ;;;
          Exit
      end
  | RedirCmd c file mode fd =>
      ask (Close fd) ;;;
      r <- ask (Open file mode) ;;
      if r <? 0 then printf 2 "open %s failed
" [Str file] ;;; Exit else
      runcmd c ;;;
      Exit
  | ListCmd l r =>
      pid <- fork1 ;;
      (if pid =? 0 then runcmd l else Done tt) ;;;
      ask Wait ;;;
      runcmd r ;;;
      Exit
  | PipeCmd l r =>
      a <- ask Pipe ;;
      let '(p0, p1) := a.2 in
      (if a.1 <? 0 then panic "pipe" else Done tt) ;;;
      pid <- fork1 ;;
      (if pid =? 0 then
         ask (Close 1) ;;; ask (Dup p1) ;;; ask (Close p0) ;;; ask (Close p1) ;;; runcmd l
       else Done tt) ;;;
      pid <- fork1 ;;
      (if pid =? 0 then
         ask (Close 0) ;;; ask (Dup p0) ;;; ask (Close p0) ;;; ask (Close p1) ;;; runcmd r
       else Done tt) ;;;
      ask (Close p0) ;;;
      ask (Close p1) ;;;
      ask Wait ;;;
      ask Wait ;;;
      Exit
  | BackCmd c =>
      pid <- fork1 ;;
      (if pid =? 0 then runcmd c else Done tt) ;;;
      Exit
  end.

(** The result and the new contents of [buf]. *)
Definition getcmd (buf : list Z) (nbuf : nat) : prog (Z * list Z) :=
  printf 2 "$ " [] ;;;
  buf <- ugets (replicate nbuf 0 ++ drop nbuf buf) (Z.of_nat nbuf) ;;
  if char_at buf 0 =? 0 then Done (-1, buf) else Done (0, buf).

(** [while((fd = open("console", O_RDWR)) >= 0)] *)
Fixpoint open_three (n : nat) : prog unit :=
  fd <- ask (Open (chars "console") O_RDWR) ;;
  if 0 <=? fd then
    if 3 <=? fd then ask (Close fd) ;;; Done tt else
    match n with O => Endless | S n' => open_three n' end
  else Done tt.

(** What the child does with the line: [runcmd(parsecmd(buf))]. *)
Definition run_line (line : list Z) : prog unit :=
  match parsecmd line with
  | Ok c => runcmd c
  | Perr m => panic m
  | Pleft rest => printf 2 "leftovers: %s
" [Str rest] ;;; panic "syntax"
  | Pfuel => Endless
  end.

Fixpoint sh_loop (n : nat) (buf : list Z) : prog unit :=
  r <- getcmd buf 100 ;;
  let '(ok, buf) := r in
  if 0 <=? ok then
    match n with
    | O => Endless
    | S n' =>
        if (char_at buf 0 =? 99) && (char_at buf 1 =? 100) && (char_at buf 2 =? 32) then
          len <- try (strlen buf) ;;
          let buf := <[(len - 1)%nat := 0]> buf in
          e <- ask (Chdir (cut0 (drop 3 buf))) ;;
          (if e <? 0 then printf 2 "cannot cd %s
" [Str (cut0 (drop 3 buf))] else Done tt) ;;;
          sh_loop n' buf
        else
          pid <- fork1 ;;
          (if pid =? 0 then run_line (cut0 buf) else Done tt) ;;;
          ask Wait ;;;
          sh_loop n' buf
    end
  else Done tt.

Definition sh_main (n : nat) : prog unit :=
  open_three n ;;;
  sh_loop n (replicate 100 0) ;;;
  Exit.

(** ** Words are not damaged by the terminating zeros *)

Definition sub (s : list Z) (w : span) : list Z := take (w.2 - w.1) (drop w.1 s).

(** A maximal word of the line. *)
Record word_at (s : list Z) (w : span) : Prop := {
  wa_start : (w.1 ≤ w.2)%nat;
  wa_end : (w.2 ≤ length s)%nat;
  wa_chars : ∀ i, (w.1 ≤ i < w.2)%nat → is_word (char_at s i) = true;
  wa_stop : is_word (char_at s w.2) = false ∨ w.2 = length s }.

Fixpoint words_of {W} (c : cmd W) : list W :=
  match c with
  | ExecCmd argv => argv
  | RedirCmd c file _ _ => words_of c ++ [file]
  | PipeCmd l r => words_of l ++ words_of r
  | ListCmd l r => words_of l ++ words_of r
  | BackCmd c => words_of c
  end.

Lemma span_len_le p l : (span_len p l ≤ length l)%nat.
Proof. induction l as [|c l IH]; simpl; [lia|]. destruct (p c); simpl; lia. Qed.
Lemma span_len_lookup p l i c : (i < span_len p l)%nat → l !! i = Some c → p c = true.
Proof.
  revert i. induction l as [|d l IH]; intros i Hi Hl; [done|]. simpl in Hi. destruct (p d) eqn:Hd; [|lia].
  destruct i as [|i]; simpl in Hl; [congruence|]. apply (IH i); [lia|done].
Qed.
Lemma span_len_stop p l c : l !! span_len p l = Some c → p c = false.
Proof. induction l as [|d l IH]; [done|]. simpl. destruct (p d) eqn:Hd; simpl; [done|congruence]. Qed.

Lemma skip_spec p s i : (i ≤ length s)%nat →
  (i ≤ skip p s i ≤ length s)%nat ∧ (∀ j, (i ≤ j < skip p s i)%nat → p (char_at s j) = true) ∧
  (skip p s i = length s ∨ p (char_at s (skip p s i)) = false).
Proof.
  intros Hi. unfold skip. pose proof (span_len_le p (drop i s)) as Hle. rewrite length_drop in Hle.
  split; [lia|]. split.
  - intros j Hj. unfold char_at. destruct (lookup_lt_is_Some_2 s j) as [c Hc]; [lia|]. rewrite Hc. cbn.
    apply (span_len_lookup p (drop i s) (j - i)); [lia|]. rewrite lookup_drop. by replace (i + (j - i))%nat with j by lia.
  - unfold char_at. destruct (s !! (i + span_len p (drop i s))%nat) as [c|] eqn:Hc.
    + right. cbn. apply (span_len_stop p (drop i s)). by rewrite lookup_drop.
    + left. apply lookup_ge_None in Hc. lia.
Qed.

Lemma gettoken_spec s ps : (ps ≤ length s)%nat →
  let '(t, w, ps') := gettoken s ps in (ps' ≤ length s)%nat ∧ (t = 97 → word_at s w).
Proof.
  intros Hps. unfold gettoken. destruct (skip_spec is_ws s ps Hps) as (Hq & _ & _). set (q := skip is_ws s ps) in *.
  set (c := char_at s q).
  assert (∀ e, (e ≤ length s)%nat → (skip is_ws s e ≤ length s)%nat) as Hskip by (intros e He; by apply (skip_spec is_ws s e)).
  assert (c ≠ 0 → (q < length s)%nat) as Hin.
  { intros Hc. destruct (decide (q < length s)%nat) as [|Hge]; [done|]. unfold c, char_at in Hc.
    by rewrite (lookup_ge_None_2 s q) in Hc by lia. }
  destruct (Z.eqb_spec c 0) as [H0|H0]; [split; [apply Hskip; lia|done]|]. specialize (Hin H0).
  destruct (_ || _) eqn:Hsym; [split; [apply Hskip; lia|intros Hc; by rewrite Hc in Hsym]|].
  destruct (Z.eqb_spec c 62) as [H62|H62].
  - destruct (Z.eqb_spec (char_at s (S q)) 62) as [H|H]; (split; [apply Hskip|done]); [|lia].
    unfold char_at in H. destruct (s !! S q) eqn:Hl; [|done]. apply lookup_lt_Some in Hl. lia.
  - destruct (skip_spec is_word s q ltac:(lia)) as (He & Hw & Hstop). split; [apply Hskip; lia|]. intros _.
    split; cbn; [lia|lia|done|]. tauto.
Qed.

Lemma peek_spec s ps toks : (ps ≤ length s)%nat → let '(b, ps') := peek s ps toks in (ps' ≤ length s)%nat.
Proof. intros H. unfold peek. by apply (skip_spec is_ws s ps). Qed.

(** Redirections of standard input and output only. *)
Fixpoint std_redirs {W} (c : cmd W) : Prop :=
  match c with
  | ExecCmd _ => True
  | RedirCmd c _ _ fd => (fd = 0 ∨ fd = 1) ∧ std_redirs c
  | PipeCmd l r => std_redirs l ∧ std_redirs r
  | ListCmd l r => std_redirs l ∧ std_redirs r
  | BackCmd c => std_redirs c
  end.
(** The result of a parser: a position in the line, and words of the line. *)
Definition well_parsed (s : list Z) (c : cmd span) : Prop := Forall (word_at s) (words_of c) ∧ std_redirs c.
Definition good (s : list Z) (o : parsed (cmd span * nat)) : Prop :=
  ∀ c ps, o = Ok (c, ps) → (ps ≤ length s)%nat ∧ well_parsed s c.

Lemma obind_Ok {A B} (o : parsed A) (f : A → parsed B) b : obind o f = Ok b → ∃ a, o = Ok a ∧ f a = Ok b.
Proof. destruct o; [by eauto|done..]. Qed.

Lemma words_redir s c tok w : well_parsed s c → word_at s w → well_parsed s (add_redir c tok w).
Proof.
  intros [Hc Hs] Hw. unfold add_redir. destruct (tok =? 60); [|destruct (_ || _); [|done]];
    (split; [cbn; apply Forall_app_2; [done|by constructor]|split; [by auto|done]]).
Qed.
Lemma words_wrap s c rs : well_parsed s c → Forall (fun r : Z * span => word_at s r.2) rs →
  well_parsed s (wrap c rs).
Proof.
  intros Hc Hrs. revert c Hc. induction Hrs as [|[tok w] rs Hw _ IH]; intros c Hc; [done|]. apply IH. by apply words_redir.
Qed.

Lemma parseredirs_good n s ps acc rs ps' :
  (ps ≤ length s)%nat → Forall (fun r : Z * span => word_at s r.2) acc → parseredirs n s ps acc = Ok (rs, ps') →
  (ps' ≤ length s)%nat ∧ Forall (fun r : Z * span => word_at s r.2) rs.
Proof.
  revert ps acc. induction n as [|n IH]; intros ps acc Hps Hacc H; cbn [parseredirs] in H;
    pose proof (peek_spec s ps redir_toks Hps) as Hpk; destruct (peek s ps redir_toks) as [b ps1]; destruct b; simplify_eq; try done.
  pose proof (gettoken_spec s ps1 Hpk) as Ht1. destruct (gettoken s ps1) as [[tok w1] ps2]. destruct Ht1 as [Hps2 _].
  pose proof (gettoken_spec s ps2 Hps2) as Ht2. destruct (gettoken s ps2) as [[t w2] ps3]. destruct Ht2 as [Hps3 Hw].
  destruct (Z.eqb_spec t 97) as [->|]; [|done]. apply IH in H; [done|done|]. apply Forall_app_2; [done|]. constructor; [by apply Hw|done].
Qed.

Lemma exec_args_good n s ps argv rs :
  (ps ≤ length s)%nat → Forall (word_at s) argv → Forall (fun r : Z * span => word_at s r.2) rs → good s (exec_args n s ps argv rs).
Proof.
  revert ps argv rs. induction n as [|n IH]; intros ps argv rs Hps Hargv Hrs c ps' H; cbn [exec_args] in H;
    pose proof (peek_spec s ps exec_stop Hps) as Hpk; destruct (peek s ps exec_stop) as [b ps1]; destruct b; simplify_eq;
    try (split; [done|]; by apply words_wrap).
  pose proof (gettoken_spec s ps1 Hpk) as Ht1. destruct (gettoken s ps1) as [[tok w1] ps2]. destruct Ht1 as [Hps2 Hw].
  destruct (tok =? 0); [simplify_eq; split; [done|by apply words_wrap]|].
  destruct (Z.eqb_spec tok 97) as [->|]; [|done]. destruct (MAXARGS <=? _)%nat; [done|]. cbn [negb] in H.
  apply obind_Ok in H as ([rs' ps3] & Hr & H). apply parseredirs_good in Hr as [Hps3 Hrs']; [|done|done].
  apply IH in H; [done|done| |done]. apply Forall_app_2; [done|]. constructor; [by apply Hw|done].
Qed.

Lemma parse_backs_good n s c ps : (ps ≤ length s)%nat → well_parsed s c → good s (parse_backs n s c ps).
Proof.
  revert c ps. induction n as [|n IH]; intros c ps Hps Hc c' ps' H; cbn [parse_backs] in H;
    pose proof (peek_spec s ps [38; 0] Hps) as Hpk; destruct (peek s ps [38; 0]) as [b ps1]; destruct b; simplify_eq; try done.
  pose proof (gettoken_spec s ps1 Hpk) as Ht1. destruct (gettoken s ps1) as [[tok w1] ps2]. destruct Ht1 as [Hps2 _].
  apply IH in H; done.
Qed.

(** Steps of the position that [peek] and [gettoken] make. *)
Ltac step_pos H :=
  match type of H with
  | context [peek ?s ?ps ?t] =>
      let Hp := fresh "Hps" in
      pose proof (peek_spec s ps t ltac:(assumption)) as Hp; destruct (peek s ps t) as [? ?]
  | context [gettoken ?s ?ps] =>
      let Hp := fresh "Hps" in
      pose proof (gettoken_spec s ps ltac:(assumption)) as Hp; destruct (gettoken s ps) as [[? ?] ?]; destruct Hp as [Hp _]
  end.

Lemma well_parsed_pair s a b : well_parsed s a → well_parsed s b → well_parsed s (ListCmd a b) ∧ well_parsed s (PipeCmd a b).
Proof. intros [] []. split; (split; [by apply Forall_app_2|done]). Qed.
Lemma parse_good n s :
  (∀ ps, (ps ≤ length s)%nat → good s (parseline n s ps)) ∧ (∀ ps, (ps ≤ length s)%nat → good s (parsepipe n s ps)) ∧
  (∀ ps, (ps ≤ length s)%nat → good s (parseexec n s ps)) ∧ (∀ ps, (ps ≤ length s)%nat → good s (parseblock n s ps)).
Proof.
  induction n as [|n (IH1 & IH2 & IH3 & IH4)]; [by split_and!|]. split_and!; intros ps Hps c ps' H.
  - cbn [parseline] in H. apply obind_Ok in H as ([c1 p1] & H1 & H). apply IH2 in H1 as [Hp1 Hw1]; [|done]. cbn [fst snd] in H.
    apply obind_Ok in H as ([c2 p2] & H2 & H). apply parse_backs_good in H2 as [Hp2 Hw2]; [|done|done]. cbn [fst snd] in H.
    step_pos H. destruct b; [|by simplify_eq]. step_pos H. apply obind_Ok in H as ([c3 p3] & H3 & H).
    apply IH1 in H3 as [Hp3 Hw3]; [|done]. simplify_eq/=. split; [done|]. by apply well_parsed_pair.
  - cbn [parsepipe] in H. apply obind_Ok in H as ([c1 p1] & H1 & H). apply IH3 in H1 as [Hp1 Hw1]; [|done]. cbn [fst snd] in H.
    step_pos H. destruct b; [|by simplify_eq]. step_pos H. apply obind_Ok in H as ([c3 p3] & H3 & H).
    apply IH2 in H3 as [Hp3 Hw3]; [|done]. simplify_eq/=. split; [done|]. by apply well_parsed_pair.
  - cbn [parseexec] in H. step_pos H. destruct b; [by apply IH4 in H|].
    apply obind_Ok in H as ([rs p1] & H1 & H). apply parseredirs_good in H1 as [Hp1 Hrs]; [|done|done].
    apply exec_args_good in H; done.
  - cbn [parseblock] in H. step_pos H. destruct b; [|done]. cbn [negb] in H. step_pos H.
    apply obind_Ok in H as ([c1 p1] & H1 & H). apply IH1 in H1 as [Hp1 Hw1]; [|done]. cbn [fst snd] in H.
    step_pos H. destruct b; [|done]. cbn [negb] in H. step_pos H.
    apply obind_Ok in H as ([rs p2] & H2 & H). apply parseredirs_good in H2 as [Hp2 Hrs]; [|done|done]. simplify_eq/=.
    split; [done|]. by apply words_wrap.
Qed.

Definition terminate (ws : list span) (buf : list Z) : list Z := foldl (fun b w => <[w.2 := 0]> b) buf ws.

Lemma nulterminate_words c buf : nulterminate c buf = terminate (words_of c) buf.
Proof.
  unfold terminate. revert buf. induction c as [argv|c IH f m fd|l IHl r IHr|l IHl r IHr|c IH]; intros buf; cbn [nulterminate words_of];
    rewrite ?foldl_app; cbn [foldl]; congruence.
Qed.

Lemma lookup_terminate ws buf i x :
  buf !! i = Some x → terminate ws buf !! i = Some (if decide (i ∈ snd <$> ws) then 0 else x).
Proof.
  unfold terminate. revert buf x. induction ws as [|w ws IH]; intros buf x Hx; [done|]. cbn [foldl].
  pose proof (lookup_lt_Some _ _ _ Hx) as Hlt. destruct (decide (w.2 = i)) as [Hi|Hi].
  - rewrite (IH _ 0) by (rewrite Hi; by apply list_lookup_insert_eq). f_equal.
    rewrite (decide_True (P := i ∈ snd <$> (w :: ws))) by (cbn; rewrite Hi; left). by case_decide.
  - rewrite (IH _ x) by (by rewrite list_lookup_insert_ne). f_equal. apply decide_ext. cbn. set_solver.
Qed.

Lemma string_terminated s ws w :
  Forall (fun c => c ≠ 0) s → Forall (word_at s) ws → w ∈ ws → string_at (terminate ws (s ++ [0])) w = sub s w.
Proof.
  intros Hs Hws Hw. rewrite Forall_forall in Hws. pose proof (Hws w Hw) as [H1 H2 H3 H4]. unfold string_at.
  set (buf := terminate ws (s ++ [0])). set (k := (w.2 - w.1)%nat).
  assert (take k (drop w.1 buf) = sub s w) as Htake.
  { apply list_eq. intros i. unfold sub. fold k. destruct (decide (i < k)%nat) as [Hi|Hi].
    - rewrite !lookup_take_lt, !lookup_drop by done.
      destruct (lookup_lt_is_Some_2 s (w.1 + i)%nat) as [x Hx]; [unfold k in Hi; lia|].
      assert ((s ++ [0]) !! (w.1 + i)%nat = Some x) as Hx' by (by apply lookup_app_l_Some).
      unfold buf. rewrite (lookup_terminate ws _ _ x Hx'), Hx. f_equal. rewrite decide_False; [done|].
      intros (w' & Hend & Hw')%list_elem_of_fmap. destruct (Hws w' Hw') as [_ _ _ Hstop]. rewrite <- Hend in Hstop.
      assert (is_word (char_at s (w.1 + i)) = true) as Hword by (apply H3; unfold k in Hi; lia).
      apply lookup_lt_Some in Hx. destruct Hstop; [congruence|lia].
    - rewrite !lookup_take_ge by lia. done. }
  assert (buf !! w.2 = Some 0) as Hend.
  { destruct (lookup_lt_is_Some_2 (s ++ [0]) w.2) as [x Hx]; [rewrite length_app; simpl; lia|].
    unfold buf. rewrite (lookup_terminate ws _ _ x Hx). rewrite decide_True; [done|]. apply list_elem_of_fmap. by exists w. }
  rewrite <- (take_drop k (drop w.1 buf)), Htake, drop_drop. replace (w.1 + k)%nat with w.2 by (unfold k; lia).
  destruct (drop w.2 buf) as [|x tl] eqn:Hd.
  { rewrite <- (Nat.add_0_r w.2), <- lookup_drop, Hd in Hend. done. }
  assert (x = 0) as ->. { rewrite <- (Nat.add_0_r w.2), <- lookup_drop, Hd in Hend. by injection Hend. }
  apply cut0_app. unfold sub. intros Hin. apply elem_of_take in Hin as (i & Hi & _). rewrite lookup_drop in Hi.
  rewrite Forall_lookup in Hs. by apply (Hs _ _ Hi).
Qed.

Lemma map_cmd_ext {V W} (f g : V → W) (c : cmd V) : (∀ w, w ∈ words_of c → f w = g w) → map_cmd f c = map_cmd g c.
Proof.
  induction c as [argv|c IH fl m fd|l IHl r IHr|l IHl r IHr|c IH]; cbn [words_of map_cmd]; intros H.
  - f_equal. apply list_fmap_ext. intros i w Hw. by eapply H, list_elem_of_lookup_2.
  - rewrite IH by (intros w Hw; apply H; set_solver). f_equal. apply H. set_solver.
  - rewrite IHl, IHr by (intros w Hw; apply H; set_solver). done.
  - rewrite IHl, IHr by (intros w Hw; apply H; set_solver). done.
  - by rewrite IH.
Qed.

Lemma words_survive s n c ps :
  Forall (fun c => c ≠ 0) s → parseline n s 0 = Ok (c, ps) →
  map_cmd (string_at (nulterminate c (s ++ [0]))) c = map_cmd (sub s) c.
Proof.
  intros Hs Hp. apply (proj1 (parse_good n s) 0%nat) in Hp as [_ [Hw _]]; [|lia].
  apply map_cmd_ext. intros w Hin. rewrite nulterminate_words. by apply string_terminated.
Qed.

(** The terminating zeros that [nulterminate] writes into the command line
    damage no word: for every line that the parser accepts, each word of the
    command read back as a C string is the word as it stood in the line. *)
Theorem nulterminate_safe s n c ps :
  Forall (fun c => c ≠ 0) s → parseline n s 0 = Ok (c, ps) →
  map_cmd (string_at (nulterminate c (s ++ [0]))) c = map_cmd (sub s) c.
Proof. apply words_survive. Qed.
Lemma nulterminate_safe_witness : ∃ c ps, parseline 100 (chars "ls | grep a > x") 0 = Ok (c, ps) ∧
  map_cmd (string_at (nulterminate c (chars "ls | grep a > x" ++ [0]))) c = map_cmd (sub (chars "ls | grep a > x")) c.
Proof.
  eexists _, _. split; [vm_compute; reflexivity|]. eapply (nulterminate_safe _ 100); [|vm_compute; reflexivity].
  cbn. repeat constructor; discriminate.
Defined.

(** ** Printing and parsing *)

(** A command as a line in which every part is in parentheses. *)
Fixpoint show (c : cmd (list Z)) : list Z :=
  match c with
  | ExecCmd argv => concat (cons 32 <$> argv)
  | RedirCmd c file _ fd => 40 :: show c ++ 41 :: (if fd =? 0 then 60 else 62) :: file
  | PipeCmd l r => 40 :: show l ++ 41 :: 124 :: 40 :: show r ++ [41]
  | ListCmd l r => 40 :: show l ++ 41 :: 59 :: 40 :: show r ++ [41]
  | BackCmd c => 40 :: show c ++ [41; 38]
  end.

Definition good_word (w : list Z) : Prop := w ≠ [] ∧ Forall (fun c => is_word c = true ∧ c ≠ 0) w.

(** The commands the parser can produce. *)
Fixpoint wf_cmd (c : cmd (list Z)) : Prop :=
  match c with
  | ExecCmd argv => (length argv < MAXARGS)%nat ∧ Forall good_word argv
  | RedirCmd c file mode fd =>
      wf_cmd c ∧ good_word file ∧ (mode = O_RDONLY ∧ fd = 0 ∨ mode = Z.lor O_WRONLY O_CREATE ∧ fd = 1)
  | PipeCmd l r => wf_cmd l ∧ wf_cmd r
  | ListCmd l r => wf_cmd l ∧ wf_cmd r
  | BackCmd c => wf_cmd c
  end.

(** The fuel the parser needs. *)
Fixpoint cost {W} (c : cmd W) : nat :=
  match c with
  | ExecCmd argv => (length argv + 5)%nat
  | RedirCmd c _ _ _ => (cost c + 6)%nat
  | PipeCmd l r => (Nat.max (cost l) (cost r) + 6)%nat
  | ListCmd l r => (Nat.max (cost l) (cost r) + 6)%nat
  | BackCmd c => (cost c + 6)%nat
  end.

Definition lstrip (t : list Z) : list Z := drop (span_len is_ws t) t.
(** What is left of the line at [ps], after white space. *)
Definition pos (s : list Z) (ps : nat) (t : list Z) : Prop := lstrip (drop ps s) = t.

Definition not_ws (t : list Z) : Prop := match t with [] => True | c :: _ => is_ws c = false end.
Lemma lstrip_id t : not_ws t → lstrip t = t.
Proof. destruct t as [|c t]; [done|]. unfold lstrip. cbn. by intros ->. Qed.
Lemma not_ws_lstrip t : not_ws (lstrip t).
Proof.
  induction t as [|c t IH]; [done|]. unfold lstrip. cbn. destruct (is_ws c) eqn:Hc; [exact IH|]. cbn. done.
Qed.
Lemma lstrip_lstrip t : lstrip (lstrip t) = lstrip t.
Proof. apply lstrip_id, not_ws_lstrip. Qed.
Lemma drop_skip s ps : drop (skip is_ws s ps) s = lstrip (drop ps s).
Proof. unfold skip, lstrip. by rewrite drop_drop. Qed.
Lemma pos_skip s ps t : pos s ps t → pos s (skip is_ws s ps) t.
Proof. unfold pos. by rewrite drop_skip, lstrip_lstrip. Qed.
Lemma char_at_drop s i : char_at s i = hd 0 (drop i s).
Proof. unfold char_at. rewrite <- (Nat.add_0_r i) at 1. rewrite <- lookup_drop. by destruct (drop i s). Qed.

Definition next_in (toks t : list Z) : bool := match t with [] => false | c :: _ => negb (c =? 0) && in_str toks c end.
Lemma peek_pos s ps t toks : pos s ps t → ∃ q, peek s ps toks = (next_in toks t, q) ∧ pos s q t.
Proof.
  intros H. exists (skip is_ws s ps). split; [|by apply pos_skip]. unfold peek. rewrite char_at_drop, drop_skip, H. by destruct t.
Qed.

(** Tokens at a position. *)
Definition is_sym (c : Z) : bool := (c =? 124) || (c =? 40) || (c =? 41) || (c =? 59) || (c =? 38) || (c =? 60).
Lemma sym_tok s ps c t : pos s ps (c :: t) → is_sym c = true → ∃ w ps', gettoken s ps = (c, w, ps') ∧ pos s ps' (lstrip t).
Proof.
  intros H Hc. unfold gettoken. rewrite char_at_drop, drop_skip, H. cbn [hd].
  assert ((c =? 0) = false) as -> by (apply Z.eqb_neq; intros ->; done). unfold is_sym in Hc. rewrite Hc.
  eexists _, _. split; [reflexivity|]. apply pos_skip. unfold pos. f_equal.
  rewrite <- (Nat.add_1_r (skip _ _ _)), <- drop_drop, drop_skip, H. done.
Qed.
Lemma gt_tok s ps t : pos s ps (62 :: t) → hd 0 t ≠ 62 → ∃ w ps', gettoken s ps = (62, w, ps') ∧ pos s ps' (lstrip t).
Proof.
  intros H Hc. unfold gettoken. rewrite !char_at_drop, drop_skip, H. cbn [hd].
  assert (drop (S (skip is_ws s ps)) s = t) as Ht.
  { rewrite <- (Nat.add_1_r (skip _ _ _)), <- drop_drop, drop_skip, H. done. }
  rewrite Ht, (proj2 (Z.eqb_neq _ _) Hc). eexists _, _. split; [reflexivity|]. apply pos_skip. unfold pos. by rewrite Ht.
Qed.
Lemma eof_tok s ps : pos s ps [] → ∃ w ps', gettoken s ps = (0, w, ps') ∧ pos s ps' [].
Proof.
  intros H. unfold gettoken. rewrite char_at_drop, drop_skip, H. cbn. eexists _, _. split; [reflexivity|]. by do 2 apply pos_skip.
Qed.

Definition stop_word (t : list Z) : Prop := match t with [] => True | c :: _ => is_word c = false end.
Lemma span_len_app p a t : Forall (fun c => p c = true) a → (match t with [] => True | c :: _ => p c = false end) →
  span_len p (a ++ t) = length a.
Proof.
  intros Ha Ht. induction Ha as [|c a Hc _ IH]; cbn; [|by rewrite Hc, IH]. destruct t as [|d t]; [done|]. cbn. by rewrite Ht.
Qed.
Lemma word_char c : is_word c = true → c ≠ 0 → is_ws c = false ∧ (c =? 0) = false ∧ is_sym c = false ∧ (c =? 62) = false.
Proof.
  intros Hw H0. unfold is_word in Hw. apply andb_true_iff in Hw as [Hws%negb_true_iff Hs%negb_true_iff].
  split; [done|]. split; [by apply Z.eqb_neq|]. unfold is_sym.
  split; [repeat (apply orb_false_iff; split)|]; apply Z.eqb_neq; intros ->; done.
Qed.
Lemma word_tok s ps w t : pos s ps (w ++ t) → good_word w → stop_word t →
  ∃ sp ps', gettoken s ps = (97, sp, ps') ∧ sub s sp = w ∧ pos s ps' (lstrip t).
Proof.
  intros H [Hne Hw] Ht. destruct w as [|c w]; [done|]. pose proof Hw as Hw'. apply Forall_cons in Hw' as [[Hc1 Hc2] _].
  destruct (word_char c Hc1 Hc2) as (E1 & E2 & E3 & E4). set (q := skip is_ws s ps).
  assert (drop q s = (c :: w) ++ t) as Hq by (unfold q; by rewrite drop_skip).
  assert (skip is_word s q = (q + length (c :: w))%nat) as Hskip.
  { unfold skip. rewrite Hq, span_len_app; [done| |done]. eapply Forall_impl; [exact Hw|]. naive_solver. }
  unfold gettoken. fold q. rewrite char_at_drop, Hq. cbn [hd app]. unfold is_sym in E3. rewrite E2, E3, E4, Hskip.
  eexists _, _. split; [reflexivity|]. split.
  - unfold sub. cbn [fst snd]. rewrite Hq. replace (q + length (c :: w) - q)%nat with (length (c :: w)) by lia. apply take_app_length.
  - apply pos_skip. unfold pos. f_equal. rewrite <- drop_drop, Hq. apply drop_app_length.
Qed.

(** *** The parser on printed text *)

(** After a command: the end of the line or of the block. *)
Definition stops (t : list Z) : Prop := t = [] ∨ ∃ u, t = 41 :: u.
(** After a parenthesis: no redirection. *)
Definition no_redir (t : list Z) : Prop := not_ws t ∧ next_in redir_toks t = false.
Lemma stops_no_redir t : stops t → no_redir t.
Proof. intros [->|[u ->]]; done. Qed.
Lemma stops_strip t : stops t → lstrip t = t.
Proof. intros H. apply lstrip_id. by apply stops_no_redir. Qed.
Lemma stops_stop_word t : stops t → stop_word t.
Proof. intros [->|[u ->]]; done. Qed.

Lemma parseredirs_none n s ps t acc : pos s ps t → no_redir t → ∃ q, parseredirs n s ps acc = Ok (acc, q) ∧ pos s q t.
Proof. intros H [_ Ht]. destruct (peek_pos s ps t redir_toks H) as (q & E & Hq). exists q. destruct n; cbn [parseredirs]; by rewrite E, Ht. Qed.

Definition redir_tok (fd : Z) : Z := if fd =? 0 then 60 else 62.
Lemma parseredirs_one n s ps fd file t : pos s ps (redir_tok fd :: file ++ t) → good_word file → stops t →
  ∃ sp q, parseredirs (S n) s ps [] = Ok ([(redir_tok fd, sp)], q) ∧ sub s sp = file ∧ pos s q t.
Proof.
  intros H Hf Ht. destruct (peek_pos s ps _ redir_toks H) as (q & E & Hq). pose proof Hf as [Hne Hfw]. destruct file as [|c file]; [done|].
  apply Forall_cons in Hfw as [[Hc1 Hc2] _]. destruct (word_char c Hc1 Hc2) as (E1 & _ & _ & E4).
  assert (∃ w q1, gettoken s q = (redir_tok fd, w, q1) ∧ pos s q1 ((c :: file) ++ t)) as (w & q1 & E5 & Hq1).
  { rewrite <- (lstrip_id ((c :: file) ++ t)) by exact E1. unfold redir_tok in *. destruct (fd =? 0).
    - by apply sym_tok.
    - apply gt_tok; [done|]. cbn. by apply Z.eqb_neq. }
  destruct (word_tok s q1 _ t Hq1 Hf) as (sp & q2 & E6 & Hsub & Hq2); [by apply stops_stop_word|].
  rewrite stops_strip in Hq2 by done. destruct (parseredirs_none n s q2 t [(redir_tok fd, sp)] Hq2) as (q3 & E7 & Hq3); [by apply stops_no_redir|].
  exists sp, q3. split; [|done]. cbn [parseredirs]. rewrite E.
  replace (next_in redir_toks (redir_tok fd :: (c :: file) ++ t)) with true by (unfold redir_tok; by destruct (fd =? 0)).
  rewrite E5, E6. exact E7.
Qed.

(** The words of a command and what follows. *)
Definition join (ws : list (list Z)) (t : list Z) : list Z := lstrip (concat (cons 32 <$> ws) ++ t).
Lemma join_cons w ws t : good_word w → join (w :: ws) t = w ++ concat (cons 32 <$> ws) ++ t.
Proof.
  intros [Hne Hw]. destruct w as [|c w]; [done|]. apply Forall_cons in Hw as [[Hc1 Hc2] _].
  destruct (word_char c Hc1 Hc2) as (E1 & _). unfold join. cbn. rewrite <- app_assoc. unfold lstrip. cbn. rewrite E1. done.
Qed.
Lemma join_nil t : stops t → join [] t = t.
Proof. apply stops_strip. Qed.
Lemma strchr_from_in l i c j : strchr_from l i c = Some (Some j) → c ∈ l ∧ c ≠ 0.
Proof.
  revert i. induction l as [|a l IH]; intros i; [done|]. cbn. destruct (Z.eqb_spec a 0); [done|].
  destruct (Z.eqb_spec a c) as [->|]; [set_solver|]. intros H. apply IH in H. set_solver.
Qed.
Lemma word_next w t toks : good_word w → forallb (fun x => (x =? 0) || in_str symbols x) toks = true →
  next_in toks (w ++ t) = false.
Proof.
  intros [Hne Hw] Ht. destruct w as [|c w]; [done|]. apply Forall_cons in Hw as [[Hc1 Hc2] _]. cbn.
  apply andb_false_iff. right. unfold in_str at 1. destruct (strchr toks c) as [[j|]|] eqn:E; [|done..].
  apply strchr_from_in in E as [Hin _]. rewrite forallb_forall in Ht.
  specialize (Ht c (proj1 (list_elem_of_In _ _) Hin)). unfold is_word in Hc1. apply andb_true_iff in Hc1 as [_ Hs%negb_true_iff].
  by rewrite Hs, (proj2 (Z.eqb_neq _ _) Hc2) in Ht.
Qed.

Lemma join_stop_word ws t : stops t → stop_word (concat (cons 32 <$> ws) ++ t).
Proof. destruct ws; [apply stops_stop_word|done]. Qed.
Lemma join_no_redir ws t : Forall good_word ws → stops t → no_redir (join ws t).
Proof.
  intros Hw Ht. split; [apply not_ws_lstrip|]. destruct Hw as [|w ws Hw _].
  - rewrite join_nil by done. by apply stops_no_redir.
  - rewrite join_cons by done. by apply word_next.
Qed.

Lemma exec_args_show ws : Forall good_word ws → ∀ n s ps argv t, stops t → pos s ps (join ws t) →
  (length argv + length ws < MAXARGS)%nat → (length ws < n)%nat →
  ∃ argv' q, exec_args n s ps argv [] = Ok (ExecCmd (argv ++ argv'), q) ∧ (sub s <$> argv') = ws ∧ pos s q t.
Proof.
  induction 1 as [|w ws Hw Hws IH]; intros n s ps argv t Ht H Hlen Hn; (destruct n as [|n]; [lia|]); cbn [exec_args].
  - rewrite join_nil in H by done. destruct (peek_pos s ps t exec_stop H) as (q & -> & Hq). exists []. rewrite app_nil_r.
    destruct Ht as [->|[u ->]]; [|by exists q]. destruct (eof_tok s q Hq) as (w & q' & E & Hq'). exists q'. cbn. by rewrite E.
  - rewrite join_cons in H by done. destruct (peek_pos s ps _ exec_stop H) as (q & -> & Hq). rewrite word_next by done. cbn [negb].
    destruct (word_tok s q w _ Hq Hw) as (sp & q1 & -> & Hsub & Hq1); [by apply join_stop_word|]. cbn [Z.eqb Pos.eqb negb].
    fold (join ws t) in Hq1. cbn [length] in Hlen, Hn.
    rewrite (proj2 (Nat.leb_gt _ _)) by (rewrite length_app; cbn; lia).
    destruct (parseredirs_none n s q1 _ [] Hq1) as (q2 & -> & Hq2); [by apply join_no_redir|]. cbn [obind fst snd].
    destruct (IH n s q2 (argv ++ [sp]) t Ht Hq2) as (argv' & q3 & -> & Hmap & Hq3); [rewrite length_app; cbn; lia|lia|].
    exists (sp :: argv'), q3. rewrite <- app_assoc. split; [done|]. split; [|done]. cbn. by rewrite Hsub, Hmap.
Qed.

(** What a parser has done with the text of [c]. *)
Definition parses (r : parsed (cmd span * nat)) (s : list Z) (c : cmd (list Z)) (t : list Z) : Prop :=
  ∃ c' q, r = Ok (c', q) ∧ map_cmd (sub s) c' = c ∧ pos s q t.

(** The text of [c] is a line that ends where it should. *)
Definition line_ok (c : cmd (list Z)) : Prop := ∀ n s ps t, stops t → (cost c ≤ n)%nat →
  pos s ps (lstrip (show c ++ t)) → parses (parseline n s ps) s c t.

Lemma stops_next c t : stops t → c ≠ 41 → next_in [c; 0] t = false.
Proof.
  intros [->|[u ->]] H; [done|]. cbn. unfold in_str, strchr. cbn. destruct (c =? 0); [done|]. by rewrite (proj2 (Z.eqb_neq _ _) H).
Qed.

Lemma block_open n s ps c t : line_ok c → (cost c ≤ n)%nat → pos s ps (40 :: show c ++ 41 :: t) →
  ∃ c' q, map_cmd (sub s) c' = c ∧ pos s q (lstrip t) ∧
    parseblock (S n) s ps = (rs <~ parseredirs n s q [] ;; Ok (wrap c' rs.1, rs.2)).
Proof.
  intros Hc Hn H. cbn [parseblock]. destruct (peek_pos s ps _ [40; 0] H) as (q & -> & Hq). cbn [next_in negb].
  destruct (sym_tok s q 40 _ Hq eq_refl) as (w & q1 & E & Hq1). rewrite E.
  destruct (Hc n s q1 (41 :: t)) as (c' & q2 & -> & Hmap & Hq2); [right; by eexists|done|done|]. cbn [obind fst snd].
  destruct (peek_pos s q2 _ [41; 0] Hq2) as (q3 & -> & Hq3). destruct (sym_tok s q3 41 _ Hq3 eq_refl) as (w' & q4 & E' & Hq4).
  exists c', q4. split; [done|]. split; [done|]. cbn. by rewrite E'.
Qed.
Lemma block_atom n s ps c t : line_ok c → (cost c < n)%nat → no_redir t → pos s ps (40 :: show c ++ 41 :: t) →
  parses (parseblock n s ps) s c t.
Proof.
  intros Hc Hn Ht H. destruct n as [|n]; [lia|]. destruct (block_open n s ps c t Hc) as (c' & q & Hmap & Hq & ->); [lia|done|].
  rewrite lstrip_id in Hq by apply Ht. destruct (parseredirs_none n s q t [] Hq Ht) as (q' & -> & Hq'). by exists c', q'.
Qed.
Lemma block_redir n s ps c fd file t : line_ok c → (cost c + 1 < n)%nat → good_word file → stops t →
  (fd = 0 ∨ fd = 1) → pos s ps (40 :: show c ++ 41 :: redir_tok fd :: file ++ t) →
  parses (parseblock n s ps) s (RedirCmd c file (if fd =? 0 then O_RDONLY else Z.lor O_WRONLY O_CREATE) fd) t.
Proof.
  intros Hc Hn Hf Ht Hfd H. destruct n as [|[|n]]; [lia..|].
  destruct (block_open (S n) s ps c (redir_tok fd :: file ++ t) Hc) as (c' & q & Hmap & Hq & ->); [lia|exact H|].
  rewrite lstrip_id in Hq by (unfold redir_tok; by destruct Hfd as [->| ->]).
  destruct (parseredirs_one n s q fd file t Hq Hf Ht) as (sp & q' & -> & Hsub & Hq'). cbn [obind fst snd].
  eexists _, q'. split; [reflexivity|]. split; [|done]. unfold redir_tok. destruct Hfd as [->| ->]; cbn; by rewrite Hmap, Hsub.
Qed.

Lemma exec_block n s ps t c r : pos s ps (40 :: t) →
  (∀ q, pos s q (40 :: t) → parses (parseblock n s q) s c r) → parses (parseexec (S n) s ps) s c r.
Proof. intros H Hb. cbn [parseexec]. destruct (peek_pos s ps _ [40; 0] H) as (q & -> & Hq). cbn. by apply Hb. Qed.
Lemma pipe_exec n s ps c t : parses (parseexec n s ps) s c t → next_in [124; 0] t = false → parses (parsepipe (S n) s ps) s c t.
Proof.
  intros (c' & q & E & Hmap & Hq) Ht. cbn [parsepipe]. rewrite E. cbn [obind fst snd].
  destruct (peek_pos s q t [124; 0] Hq) as (q' & -> & Hq'). rewrite Ht. by exists c', q'.
Qed.
Lemma backs_none n s c q t : pos s q t → next_in [38; 0] t = false → ∃ q', parse_backs n s c q = Ok (c, q') ∧ pos s q' t.
Proof. intros H Ht. destruct (peek_pos s q t [38; 0] H) as (q' & E & Hq'). exists q'. destruct n; cbn [parse_backs]; by rewrite E, Ht. Qed.
Lemma line_pipe n s ps c t : parses (parsepipe n s ps) s c t → stops t → parses (parseline (S n) s ps) s c t.
Proof.
  intros (c' & q & E & Hmap & Hq) Ht. cbn [parseline]. rewrite E. cbn [obind fst snd].
  destruct (backs_none n s c' q t Hq) as (q' & -> & Hq'); [by apply stops_next|]. cbn [obind fst snd].
  destruct (peek_pos s q' t [59; 0] Hq') as (q2 & -> & Hq2). rewrite stops_next by done. by exists c', q2.
Qed.
Lemma pipe_atom n s ps c t : line_ok c → (cost c + 3 ≤ n)%nat → no_redir t → next_in [124; 0] t = false →
  pos s ps (40 :: show c ++ 41 :: t) → parses (parsepipe n s ps) s c t.
Proof.
  intros Hc Hn Ht Hp H. destruct n as [|[|n]]; [lia..|]. apply pipe_exec; [|done]. eapply exec_block; [exact H|].
  intros q Hq. apply block_atom; [done|lia|done..].
Qed.
Lemma line_atom n s ps c t : line_ok c → (cost c + 4 ≤ n)%nat → stops t →
  pos s ps (40 :: show c ++ 41 :: t) → parses (parseline n s ps) s c t.
Proof.
  intros Hc Hn Ht H. destruct n as [|n]; [lia|]. apply line_pipe; [|done].
  apply pipe_atom; [done|lia|by apply stops_no_redir|by apply stops_next|done].
Qed.

Lemma line_exec ws : wf_cmd (ExecCmd ws) → line_ok (ExecCmd ws).
Proof.
  intros [Hlen Hws] n s ps t Ht Hn H. cbn [cost] in Hn. destruct n as [|[|[|n]]]; [lia..|].
  apply line_pipe; [|done]. apply pipe_exec; [|by apply stops_next]. cbn [parseexec show] in *. fold (join ws t) in H.
  assert (next_in [40; 0] (join ws t) = false) as H40.
  { destruct Hws as [|w ws Hw _]; [rewrite join_nil by done; by apply stops_next|]. rewrite join_cons by done. by apply word_next. }
  destruct (peek_pos s ps _ [40; 0] H) as (q & -> & Hq). rewrite H40.
  destruct (parseredirs_none n s q _ [] Hq) as (q1 & -> & Hq1); [by apply join_no_redir|]. cbn [obind fst snd].
  destruct (exec_args_show ws Hws n s q1 [] t Ht Hq1) as (argv & q2 & -> & Hmap & Hq2); [cbn; lia|lia|].
  exists (ExecCmd argv), q2. split; [done|]. split; [cbn; by rewrite Hmap|done].
Qed.
Lemma line_redir c file mode fd : line_ok c → wf_cmd (RedirCmd c file mode fd) → line_ok (RedirCmd c file mode fd).
Proof.
  intros IH (_ & Hf & Hfd) n s ps t Ht Hn H. cbn [cost] in Hn. destruct n as [|[|[|n]]]; [lia..|].
  apply line_pipe; [|done]. apply pipe_exec; [|by apply stops_next].
  rewrite lstrip_id in H by done. cbn in H. rewrite <- app_assoc in H. cbn in H. eapply exec_block; [exact H|]. intros q Hq.
  replace mode with (if fd =? 0 then O_RDONLY else Z.lor O_WRONLY O_CREATE) by (by destruct Hfd as [[-> ->]|[-> ->]]).
  apply block_redir; [done|lia|done..| |exact Hq]. naive_solver.
Qed.
Lemma line_pipecmd l r : line_ok l → line_ok r → line_ok (PipeCmd l r).
Proof.
  intros IHl IHr n s ps t Ht Hn H. cbn [cost] in Hn. destruct n as [|[|[|n]]]; [lia..|].
  apply line_pipe; [|done]. rewrite lstrip_id in H by done. cbn in H. rewrite <- app_assoc in H. cbn in H. rewrite <- app_assoc in H. cbn in H.
  assert (parses (parseexec (S n) s ps) s l (124 :: 40 :: show r ++ 41 :: t)) as (l' & q & E & Hl & Hq).
  { eapply exec_block; [exact H|]. intros q Hq. apply block_atom; [done|lia|done..]. }
  remember (S n) as m eqn:Hm. cbn [parsepipe]. rewrite E. cbn [obind fst snd]. destruct (peek_pos s q _ [124; 0] Hq) as (q1 & -> & Hq1).
  destruct (sym_tok s q1 124 _ Hq1 eq_refl) as (w & q2 & E2 & Hq2). cbn. rewrite E2.
  destruct (pipe_atom m s q2 r t IHr) as (r' & q3 & -> & Hr & Hq3);
    [lia|by apply stops_no_redir|by apply stops_next|exact Hq2|].
  exists (PipeCmd l' r'), q3. split; [done|]. split; [cbn; by rewrite Hl, Hr|done].
Qed.
Lemma line_list l r : line_ok l → line_ok r → line_ok (ListCmd l r).
Proof.
  intros IHl IHr n s ps t Ht Hn H. cbn [cost] in Hn. destruct n as [|n]; [lia|].
  rewrite lstrip_id in H by done. cbn in H. rewrite <- app_assoc in H. cbn in H. rewrite <- app_assoc in H. cbn in H.
  destruct (pipe_atom n s ps l (59 :: 40 :: show r ++ 41 :: t) IHl) as (l' & q & E & Hl & Hq); [lia|done|done|exact H|].
  cbn [parseline]. rewrite E. cbn [obind fst snd]. destruct (backs_none n s l' q _ Hq) as (q1 & -> & Hq1); [done|]. cbn [obind fst snd].
  destruct (peek_pos s q1 _ [59; 0] Hq1) as (q2 & -> & Hq2). destruct (sym_tok s q2 59 _ Hq2 eq_refl) as (w & q3 & E3 & Hq3). cbn. rewrite E3.
  destruct (line_atom n s q3 r t IHr) as (r' & q4 & -> & Hr & Hq4); [lia|done|exact Hq3|].
  exists (ListCmd l' r'), q4. split; [done|]. split; [cbn; by rewrite Hl, Hr|done].
Qed.
Lemma line_back c : line_ok c → line_ok (BackCmd c).
Proof.
  intros IH n s ps t Ht Hn H. cbn [cost] in Hn. destruct n as [|[|n]]; [lia..|].
  rewrite lstrip_id in H by done. cbn in H. rewrite <- app_assoc in H. cbn in H.
  destruct (pipe_atom (S n) s ps c (38 :: t) IH) as (c' & q & E & Hc & Hq); [lia|done|done|exact H|].
  remember (S n) as m eqn:Hm. cbn [parseline]. rewrite E. cbn [obind fst snd]. rewrite Hm. cbn [parse_backs].
  destruct (peek_pos s q _ [38; 0] Hq) as (q1 & -> & Hq1). destruct (sym_tok s q1 38 _ Hq1 eq_refl) as (w & q2 & E2 & Hq2). change (next_in [38; 0] (38 :: t)) with true. cbv iota beta. rewrite E2.
  rewrite stops_strip in Hq2 by done. destruct (backs_none n s (BackCmd c') q2 t Hq2) as (q3 & -> & Hq3); [by apply stops_next|]. cbn [obind fst snd].
  destruct (peek_pos s q3 t [59; 0] Hq3) as (q4 & -> & Hq4). rewrite stops_next by done.
  exists (BackCmd c'), q4. split; [done|]. split; [cbn; by rewrite Hc|done].
Qed.

Lemma show_parses c : wf_cmd c → line_ok c.
Proof.
  induction c as [ws|c IH file mode fd|l IHl r IHr|l IHl r IHr|c IH]; cbn [wf_cmd]; intros Hwf.
  - by apply line_exec.
  - apply line_redir; [apply IH, Hwf|done].
  - destruct Hwf. apply line_pipecmd; auto.
  - destruct Hwf. apply line_list; auto.
  - apply line_back; auto.
Qed.
Lemma cost_show c : (cost c ≤ 8 * length (show c) + 8)%nat.
Proof.
  induction c as [ws|c IH file mode fd|l IHl r IHr|l IHl r IHr|c IH]; cbn [cost show];
    try (cbn [length]; rewrite !length_app; cbn [length]; try rewrite !length_app; cbn [length]; lia).
  induction ws as [|w ws IH]; cbn [fmap list_fmap concat length]; [lia|]. rewrite length_app. cbn [length]. lia.
Qed.

Lemma show_nonzero c : wf_cmd c → Forall (fun c => c ≠ 0) (show c).
Proof.
  assert (∀ w, good_word w → Forall (fun c => c ≠ 0) w) as Hw by (intros w [_ H]; eapply Forall_impl; [exact H|naive_solver]).
  induction c as [ws|c IH file mode fd|l IHl r IHr|l IHl r IHr|c IH]; cbn [wf_cmd show]; intros Hwf.
  - destruct Hwf as [_ Hws]. induction Hws as [|w ws Hg _ IH]; cbn; [done|]. constructor; [done|]. apply Forall_app; auto.
  - destruct Hwf as (Hc & Hf & _). repeat (constructor || apply Forall_app || split); auto. by destruct (fd =? 0).
  - destruct Hwf. repeat (constructor || apply Forall_app || split); auto.
  - destruct Hwf. repeat (constructor || apply Forall_app || split); auto.
  - repeat (constructor || apply Forall_app || split); auto.
Qed.

Lemma pos_end s ps q : pos s ps [] → (ps ≤ length s)%nat → peek s ps [0] = (false, q) → q = length s.
Proof.
  intros H Hps [= _ <-]. unfold pos in H. rewrite <- drop_skip in H. apply (f_equal length) in H. rewrite length_drop in H. cbn in H.
  pose proof (skip_spec is_ws s ps Hps) as [? _]. lia.
Qed.

(** C27. The shell's parser inverts the printer: for every command whose words
    are nonempty strings of word characters, with at most nine words to a
    simple command, [parsecmd] on the command's text terminates and gives back
    the same command. *)
Theorem parsecmd_show c : wf_cmd c → parsecmd (show c) = Ok c.
Proof.
  intros Hwf. unfold parsecmd. set (s := show c).
  destruct (show_parses c Hwf (parse_fuel s) s 0%nat []) as (c' & q & E & Hmap & Hq);
    [by left|apply cost_show|unfold pos; by rewrite app_nil_r|].
  rewrite E. cbn [obind fst snd].
  pose proof (proj1 (parse_good (parse_fuel s) s) 0%nat (Nat.le_0_l _) _ _ E) as [Hle _].
  destruct (peek_pos s q [] [0] Hq) as (q' & E' & _). cbn [next_in] in E'. rewrite E'. cbn [snd].
  rewrite (pos_end s q q' Hq Hle E'), Nat.eqb_refl. cbn [negb]. f_equal. rewrite <- Hmap.
  eapply words_survive; [|exact E]. by apply show_nonzero.
Qed.
Definition ex_cmd : cmd (list Z) :=
  ListCmd (RedirCmd (PipeCmd (ExecCmd [chars "cat"; chars "a"]) (ExecCmd [chars "wc"])) (chars "out") (Z.lor O_WRONLY O_CREATE) 1)
          (BackCmd (ExecCmd [chars "ls"])).
Lemma parsecmd_show_witness : parsecmd (show ex_cmd) = Ok ex_cmd.
Proof.
  apply parsecmd_show. assert (∀ w, w ≠ [] → forallb (fun c => is_word c && negb (c =? 0)) w = true → good_word w) as Hw.
  { intros w Hne H. split; [done|]. apply Forall_forall. intros c Hc%list_elem_of_In. rewrite forallb_forall in H.
    specialize (H c Hc). apply andb_true_iff in H as [? ?%negb_true_iff%Z.eqb_neq]. done. }
  split; [split; [split; split|split; [|right; split; reflexivity]]|split]; cbn; try (unfold MAXARGS; lia); try apply Hw; try reflexivity; try discriminate;
    repeat apply Forall_cons_2; try apply Forall_nil_2; apply Hw; try reflexivity; discriminate.
Defined.
