(* ===== verification/ShRun.v ===== *)
(** * What the shell starts (sh.c: runcmd)

    [tree] follows a program and all the processes it forks, against the file
    descriptors of the kernel: [open], [dup] and [pipe] take the lowest free
    descriptors of a table of NOFILE entries, [fork] copies the table, [exec]
    replaces the process.  The theorem says with which standard input, output
    and error every program of a command line is started. *)

From S2P Require Import Prelude CString Kstate Console Syscall User Utils Sh.

(** ** File descriptors *)

Inductive obj : Type :=
| Term                              (** what the shell itself was started with *)
| Named (file : list Z) (mode : Z)
| PipeIn (id : nat)                 (** the end a reader uses *)
| PipeOut (id : nat).

Definition fds : Type := list (option obj).
Definition std (i o e : obj) : fds := Some i :: Some o :: Some e :: replicate 13 None.

Fixpoint lowest (t : fds) : option nat :=
  match t with [] => None | None :: _ => Some O | Some _ :: t' => S <$> lowest t' end.
Definition take_fd (t : fds) (x : obj) : Z * fds :=
  match lowest t with Some i => (Z.of_nat i, <[i := Some x]> t) | None => (-1, t) end.
Definition fd_obj (t : fds) (fd : Z) : option obj := if fd <? 0 then None else mjoin (t !! Z.to_nat fd).

(** Open files of a process, and the number of pipes made so far. *)
Definition world : Type := fds * nat.

Section Tree.
(** Whether [open] succeeds. *)
Context (can_open : list Z → Z → bool).

(** The answers to the calls other than [fork], [exec] and [exit]. *)
Definition answer {B} (c : call B) (w : world) : B * world :=
  match c in call B return B * world with
  | Fork => (-1, w)
  | Wait => (1, w)
  | Wait2 => ((1, (0, 0, 0)), w)
  | Pipe =>
      let '(r, t1) := take_fd w.1 (PipeIn w.2) in
      let '(q, t2) := take_fd t1 (PipeOut w.2) in
      if (r <? 0) || (q <? 0) then ((-1, (0, 0)), w) else ((0, (r, q)), (t2, S w.2))
  | Write _ d => (Z.of_nat (length d), w)
  | Read _ _ => ((0, []), w)
  | Close fd => match fd_obj w.1 fd with Some _ => (0, (<[Z.to_nat fd := None]> w.1, w.2)) | None => (-1, w) end
  | Kill _ => (-1, w)
  | Exec _ _ => (-1, w)
  | Open path mode =>
      if can_open path mode then let '(fd, t) := take_fd w.1 (Named path mode) in (fd, (t, w.2)) else (-1, w)
  | Mknod _ _ _ => (-1, w)
  | Unlink _ => (-1, w)
  | Fstat _ => ((-1, mk_ustat 0 0 0 0 0), w)
  | Link _ _ => (-1, w)
  | Mkdir _ => (-1, w)
  | Chdir _ => (-1, w)
  | Dup fd => match fd_obj w.1 fd with Some x => let '(fd', t) := take_fd w.1 x in (fd', (t, w.2)) | None => (-1, w) end
  | Getpid => (1, w)
  | Sbrk _ => (-1, w)
  | Sleep _ => (0, w)
  | Uptime => (0, w)
  | Yield => (tt, w)
  | ChangePrio _ | LinkPtr _ _ | IntAt _ _ => (-1, w)
  | Peek _ | Poke _ _ | Inb _ | Outb _ _ => (None, w)
  end.

Definition exec_of {B} (c : call B) : option (list (list Z)) := match c with Exec _ argv => Some argv | _ => None end.
Definition fork_of {B} (c : call B) : option (Z → B) :=
  match c in call B return option (Z → B) with Fork => Some (fun pid => pid) | _ => None end.

(** A program started: its arguments and its descriptors. *)
Definition started : Type := list (list Z) * fds.

(** Every program started by [p] and its descendants; the child first. *)
Fixpoint tree {A} (p : prog A) (w : world) : nat * list started :=
  match p with
  | Ask c k =>
      match exec_of c with
      | Some argv => (w.2, [(argv, w.1)])
      | None =>
          match fork_of c with
          | Some pid =>
              let '(n, l) := tree (k (pid 0)) w in
              let '(n', l') := tree (k (pid 1)) (w.1, n) in
              (n', l ++ l')
          | None => let '(b, w') := answer c w in tree (k b) w'
          end
      end
  | _ => (w.2, [])
  end.

(** What a command means: its programs with their standard descriptors. *)
Fixpoint wiring (c : cmd (list Z)) (i o e : obj) (n : nat) : nat * list started :=
  match c with
  | ExecCmd [] => (n, [])
  | ExecCmd argv => (n, [(argv, std i o e)])
  | RedirCmd c file mode fd =>
      if can_open file mode then
        if fd =? 0 then wiring c (Named file mode) o e n else wiring c i (Named file mode) e n
      else (n, [])
  | PipeCmd l r =>
      let '(n', a) := wiring l i (PipeOut n) e (S n) in
      let '(n'', b) := wiring r (PipeIn n) o e n' in
      (n'', a ++ b)
  | ListCmd l r =>
      let '(n', a) := wiring l i o e n in
      let '(n'', b) := wiring r i o e n' in
      (n'', a ++ b)
  | BackCmd c => wiring c i o e n
  end.

(** *** Programs that never return, and programs that only write *)

Fixpoint never {A} (p : prog A) : Prop :=
  match p with Done _ => False | Ask c k => ∀ b, never (k b) | _ => True end.
Fixpoint writer {A} (p : prog A) : Prop :=
  match p with
  | Ask c k => (match c with Write _ _ => True | _ => False end) ∧ ∀ b, writer (k b)
  | _ => True
  end.

Lemma never_bind {A B} (p : prog A) (f : A → prog B) : (∀ a, never (f a)) → never (pbind p f).
Proof. intros Hf. induction p; cbn; auto. Qed.
Lemma never_bind_l {A B} (p : prog A) (f : A → prog B) : never p → never (pbind p f).
Proof. induction p; cbn; auto. done. Qed.
Lemma writer_bind {A B} (p : prog A) (f : A → prog B) : writer p → (∀ a, writer (f a)) → writer (pbind p f).
Proof. intros Hp Hf. induction p as [| |C c k IH| |]; cbn in *; auto. destruct Hp as [Hc Hk]. auto. Qed.

Lemma tree_never {A B} (p : prog A) (f : A → prog B) w : never p → tree (pbind p f) w = tree p w.
Proof.
  revert w. induction p as [a| |C c k IH| |]; intros w Hp; try done. cbn in *.
  destruct (exec_of c); [done|]. destruct (fork_of c) as [pid|].
  - rewrite IH by done. destruct (tree (k (pid 0)) w) as [n l]. by rewrite IH.
  - destruct (answer c w) as [b w']. by apply IH.
Qed.
Lemma tree_writer {A} (p : prog A) w : writer p → tree p w = (w.2, []).
Proof.
  revert w. induction p as [a| |C c k IH| |]; intros w Hp; try done. cbn in *. destruct Hp as [Hc Hk]. destruct c; try done.
  cbn. by apply IH.
Qed.

Lemma writer_each {X} (l : list X) body : (∀ x, writer (body x)) → writer (each l body).
Proof. intros H. induction l as [|x l IH]; [done|]. apply writer_bind; auto. Qed.
Lemma writer_putc fd c : writer (putc fd c).
Proof. done. Qed.
Lemma writer_printf fd fmt ap : writer (printf fd fmt ap).
Proof.
  unfold printf. generalize (chars fmt) false. intros l. revert ap. induction l as [|c l IH]; intros ap st; [done|]. cbn [printf_loop].
  assert (∀ c ap, writer (printf_item fd c ap)) as Hitem.
  { intros c' ap'. unfold printf_item, uprintint.
    repeat match goal with |- writer (if ?b then _ else _) => destruct b | |- writer (match ?a with _ => _ end) => destruct a end;
    first [exact I|repeat (apply writer_bind; [try (apply writer_each; intros); apply writer_putc|intros _]); exact I]. }
  destruct st; [apply writer_bind; auto|]. destruct (c =? 37); [auto|]. apply writer_bind; auto. apply writer_putc.
Qed.

#[local] Opaque printf.

Lemma runcmd_never c : never (runcmd c).
Proof.
  destruct c as [[|a0 argv]|c file mode fd|l r|l r|c]; cbn [runcmd];
    repeat first [exact I | apply never_bind; intros ? | destruct (_ <? 0) | match goal with a : Z * (Z * Z) |- _ => destruct a as [? [? ?]] end].
Qed.

(** A fork in the middle of a program. *)
Lemma tree_fork1 {A} (k : Z → prog A) w :
  tree (pid <- fork1 ;; k pid) w =
  let '(n, l) := tree (k 0) w in let '(n', l') := tree (k 1) (w.1, n) in (n', l ++ l').
Proof. done. Qed.

Lemma tree_redir {A} (k : Z → prog A) file mode fd i o e n : fd = 0 ∨ fd = 1 →
  tree (ask (Close fd) ;;; r <- ask (Open file mode) ;; k r) (std i o e, n) =
  if can_open file mode then tree (k fd) (if fd =? 0 then std (Named file mode) o e else std i (Named file mode) e, n)
  else tree (k (-1)) (<[Z.to_nat fd := None]> (std i o e), n).
Proof. intros [->| ->]; cbn; destruct (can_open file mode); reflexivity. Qed.

(** The table while the pipe is being set up. *)
Definition with_pipe (i o e : obj) (n : nat) : fds :=
  [Some i; Some o; Some e; Some (PipeIn n); Some (PipeOut n)] ++ replicate 11 None.
Lemma tree_pipe {A} (k : Z * (Z * Z) → prog A) i o e n :
  tree (a <- ask Pipe ;; k a) (std i o e, n) = tree (k (0, (3, 4))) (with_pipe i o e n, S n).
Proof. reflexivity. Qed.
Lemma tree_left {A} (p : prog unit) (k : unit → prog A) i o e n m : never p →
  tree (x <- (ask (Close 1) ;;; ask (Dup 4) ;;; ask (Close 3) ;;; ask (Close 4) ;;; p) ;; k x) (with_pipe i o e n, m) =
  tree p (std i (PipeOut n) e, m).
Proof. intros H. rewrite <- (tree_never p k) by done. reflexivity. Qed.
Lemma tree_right {A} (p : prog unit) (k : unit → prog A) i o e n m : never p →
  tree (x <- (ask (Close 0) ;;; ask (Dup 3) ;;; ask (Close 3) ;;; ask (Close 4) ;;; p) ;; k x) (with_pipe i o e n, m) =
  tree p (std (PipeIn n) o e, m).
Proof. intros H. rewrite <- (tree_never p k) by done. reflexivity. Qed.

Lemma runcmd_wiring c : std_redirs c → ∀ i o e n, tree (runcmd c) (std i o e, n) = wiring c i o e n.
Proof.
  induction c as [[|a0 argv]|c IH file mode fd|l IHl r IHr|l IHl r IHr|c IH]; intros Hs i o e n; cbn [runcmd wiring]; try done.
  - destruct Hs as [Hfd Hs]. rewrite tree_redir by done. destruct (can_open file mode).
    + destruct Hfd as [->| ->]; cbn [Z.ltb Z.compare Z.eqb]; rewrite tree_never by apply runcmd_never; apply (IH Hs).
    + by rewrite tree_writer by (apply writer_bind; [apply writer_printf|done]).
  - destruct Hs as [Hl Hr]. rewrite tree_pipe. cbn [fst snd Z.ltb Z.compare pbind]. rewrite tree_fork1. cbn [Z.eqb fst].
    rewrite tree_left, (IHl Hl) by apply runcmd_never. destruct (wiring l i (PipeOut n) e (S n)) as [n' a]. cbn [pbind].
    rewrite tree_fork1. cbn [Z.eqb fst]. rewrite tree_right, (IHr Hr) by apply runcmd_never.
    destruct (wiring r (PipeIn n) o e n') as [n'' b]. 
    transitivity (n'', a ++ b ++ []); [reflexivity|by rewrite app_nil_r].
  - destruct Hs as [Hl Hr]. rewrite tree_fork1. cbn [Z.eqb fst]. rewrite tree_never, (IHl Hl) by apply runcmd_never.
    destruct (wiring l i o e n) as [n' a]. cbn. rewrite tree_never, (IHr Hr) by apply runcmd_never. by destruct (wiring r i o e n').
  - rewrite tree_fork1. cbn [Z.eqb fst]. rewrite tree_never, (IH Hs) by apply runcmd_never. destruct (wiring c i o e n). cbn. by rewrite app_nil_r.
Qed.
End Tree.

Lemma std_redirs_map {V W} (f : V → W) c : std_redirs c → std_redirs (map_cmd f c).
Proof. induction c; cbn; naive_solver. Qed.
Lemma parsecmd_std_redirs line c : parsecmd line = Ok c → std_redirs c.
Proof.
  unfold parsecmd. intros ([c' ps] & H & E)%obind_Ok. destruct (negb _); [done|]. injection E as <-. apply std_redirs_map.
  by apply (proj1 (parse_good _ _) 0%nat (Nat.le_0_l _)) in H as [_ [_ ?]].
Qed.

(** C28. The child that the shell forks for a line never returns to the shell's
    loop, and starts exactly the programs of the parsed command, each with the
    standard input, output and error that the redirections and pipes around it
    ask for and with no other descriptor open: no end of a pipe leaks. *)
Theorem run_line_wiring can_open line c i o e n : parsecmd line = Ok c →
  never (run_line line) ∧ tree can_open (run_line line) (std i o e, n) = wiring can_open c i o e n.
Proof.
  intros H. unfold run_line. rewrite H. split; [apply runcmd_never|]. eapply runcmd_wiring, parsecmd_std_redirs, H.
Qed.
Lemma run_line_wiring_witness :
  tree (fun _ _ => true) (run_line (chars "cat < in | wc > out; ls &")) (std Term Term Term, O) =
  (1%nat, [([chars "cat"], std (Named (chars "in") O_RDONLY) (PipeOut 0) Term);
           ([chars "wc"], std (PipeIn 0) (Named (chars "out") (Z.lor O_WRONLY O_CREATE)) Term);
           ([chars "ls"], std Term Term Term)]).
Proof.
  refine (eq_trans (proj2 (run_line_wiring (fun _ _ => true) _ _ Term Term Term O _)) _); vm_compute; reflexivity.
Defined.
