(* ===== verification/Usertests.v ===== *)
(** * The regression tests (usertests.c)

    Every test is a user program.  The array [buf], which the tests share, is
    passed on from one test to the next; a read that would go beyond an array
    is [Segv]; a loop that only the kernel can end takes a bound [n]. *)

From S2P Require Import Prelude Machine CString Kstate Layout Console User Umalloc.

Definition stdout : Z := 1.
Definition nl : string := String (Ascii.ascii_of_nat 10) EmptyString.
(** A line of output. *)
Definition say (fd : Z) (s : string) : prog unit := printf fd (s ++ nl) [].
(** [if(bad){ printf(fd, s); exit(); }] *)
Definition oops (bad : bool) (fd : Z) (s : string) : prog unit := if bad then say fd s ;;; Exit else Done tt.
Definition oops_args (bad : bool) (fd : Z) (s : string) (ap : list arg) : prog unit := if bad then printf fd s ap ;;; Exit else Done tt.

Definition O_RDONLY : Z := 0.
Definition O_WRONLY : Z := 1.
Definition O_RDWR : Z := 2.
Definition O_CREATE : Z := 0x200.

Definition open (path : string) (mode : Z) : prog Z := ask (Open (chars path) mode).
Definition unlink (path : string) : prog Z := ask (Unlink (chars path)).
Definition mkdir (path : string) : prog Z := ask (Mkdir (chars path)).
Definition chdir (path : string) : prog Z := ask (Chdir (chars path)).
Definition link (old new : string) : prog Z := ask (Link (chars old) (chars new)).
Definition close (fd : Z) : prog Z := ask (Close fd).
Definition write (fd : Z) (d : list Z) : prog Z := ask (Write fd d).
Definition do_wait : prog Z := ask Wait.
Definition do_fork : prog Z := ask Fork.

(** [char buf[8192]], before the first test *)
Definition buf0 : list Z := replicate (Z.to_nat 8192) 0.
(** The bytes [d] at the start of an array. *)
Definition over (d b : list Z) : list Z := d ++ drop (length d) b.
(** [read(fd, b, n)] *)
Definition read (fd n : Z) (b : list Z) : prog (Z * list Z) :=
  r <- ask (Read fd n) ;; if (length r.2 <=? length b)%nat then Done (r.1, over r.2 b) else Segv.
(** [b[i]] as an unsigned and as a signed character *)
Definition uchar_at (b : list Z) (i : nat) : prog Z := try (b !! i).
Definition char_at (b : list Z) (i : nat) : prog Z := c <- uchar_at b i ;; Done (s8 c).
(** [((int* )b)[0]] *)
Definition int_at (b : list Z) : Z := s32 (le_decode (take 4 b)).
(** [for(i = k; i < k + n; i++)] *)
Fixpoint for_n {A} (n : nat) (k : Z) (body : Z → A → prog A) (a : A) : prog A :=
  match n with O => Done a | S n' => a <- body k a ;; for_n n' (k + 1) body a end.
Definition loop (n : nat) (body : Z → prog unit) : prog unit := for_n n 0 (fun i _ => body i) tt.

(** ** Inodes of directories *)

Definition iputtest : prog unit :=
  say stdout "iput test" ;;;
  r <- mkdir "iputdir" ;; oops (r <? 0) stdout "mkdir failed" ;;;
  r <- chdir "iputdir" ;; oops (r <? 0) stdout "chdir iputdir failed" ;;;
  r <- unlink "../iputdir" ;; oops (r <? 0) stdout "unlink ../iputdir failed" ;;;
  r <- chdir "/" ;; oops (r <? 0) stdout "chdir / failed" ;;;
  say stdout "iput test ok".

Definition exitiputtest : prog unit :=
  say stdout "exitiput test" ;;;
  pid <- do_fork ;;
  oops (pid <? 0) stdout "fork failed" ;;;
  (if pid =? 0 then
     r <- mkdir "iputdir" ;; oops (r <? 0) stdout "mkdir failed" ;;;
     r <- chdir "iputdir" ;; oops (r <? 0) stdout "child chdir failed" ;;;
     r <- unlink "../iputdir" ;; oops (r <? 0) stdout "unlink ../iputdir failed" ;;;
     Exit
   else Done tt) ;;;
  do_wait ;;;
  say stdout "exitiput test ok".

Definition openiputtest : prog unit :=
  say stdout "openiput test" ;;;
  r <- mkdir "oidir" ;; oops (r <? 0) stdout "mkdir oidir failed" ;;;
  pid <- do_fork ;;
  oops (pid <? 0) stdout "fork failed" ;;;
  (if pid =? 0 then
     fd <- open "oidir" O_RDWR ;;
     oops (0 <=? fd) stdout "open directory for write succeeded" ;;;
     Exit
   else Done tt) ;;;
  ask (Sleep 1) ;;;
  r <- unlink "oidir" ;; oops (negb (r =? 0)) stdout "unlink failed" ;;;
  do_wait ;;;
  say stdout "openiput test ok".

(** ** Files *)

Definition opentest : prog unit :=
  say stdout "open test" ;;;
  fd <- open "echo" 0 ;; oops (fd <? 0) stdout "open echo failed!" ;;;
  close fd ;;;
  fd <- open "doesnotexist" 0 ;; oops (0 <=? fd) stdout "open doesnotexist succeeded!" ;;;
  say stdout "open test ok".

Definition writetest (buf : list Z) : prog (list Z) :=
  say stdout "small file test" ;;;
  fd <- open "small" (Z.lor O_CREATE O_RDWR) ;;
  (if 0 <=? fd then say stdout "creat small succeeded; ok" else say stdout "error: creat small failed!" ;;; Exit) ;;;
  loop 100 (fun i =>
    r <- write fd (chars "aaaaaaaaaa") ;;
    oops_args (negb (r =? 10)) stdout ("error: write aa %d new file failed" ++ nl) [Num i] ;;;
    r <- write fd (chars "bbbbbbbbbb") ;;
    oops_args (negb (r =? 10)) stdout ("error: write bb %d new file failed" ++ nl) [Num i]) ;;;
  say stdout "writes ok" ;;;
  close fd ;;;
  fd <- open "small" O_RDONLY ;;
  (if 0 <=? fd then say stdout "open small succeeded ok" else say stdout "error: open small failed!" ;;; Exit) ;;;
  r <- read fd 2000 buf ;;
  (if r.1 =? 2000 then say stdout "read succeeded ok" else say stdout "read failed" ;;; Exit) ;;;
  close fd ;;;
  u <- unlink "small" ;; oops (u <? 0) stdout "unlink small failed" ;;;
  say stdout "small file test ok" ;;;
  Done r.2.

Definition writetest1_write (fd : Z) (i : Z) (buf : list Z) : prog (list Z) :=
  let buf := over (le_encode 4 i) buf in
  r <- write fd (take 512 buf) ;;
  oops_args (negb (r =? 512)) stdout ("error: write big file failed" ++ nl) [Num i] ;;;
  Done buf.
(** The second loop; [k] more rounds are allowed. *)
Fixpoint writetest1_read (k : nat) (fd n : Z) (buf : list Z) : prog (list Z) :=
  match k with
  | O => Endless
  | S k' =>
      r <- read fd 512 buf ;;
      let '(i, buf) := r in
      if i =? 0 then
        oops_args (n =? MAXFILE - 1) stdout "read only %d blocks from big" [Num n] ;;; Done buf
      else
        oops_args (negb (i =? 512)) stdout ("read failed %d" ++ nl) [Num i] ;;;
        oops_args (negb (int_at buf =? n)) stdout ("read content of block %d is %d" ++ nl) [Num n; Num (int_at buf)] ;;;
        writetest1_read k' fd (n + 1) buf
  end.
Definition writetest1 (k : nat) (buf : list Z) : prog (list Z) :=
  say stdout "big files test" ;;;
  fd <- open "big" (Z.lor O_CREATE O_RDWR) ;; oops (fd <? 0) stdout "error: creat big failed!" ;;;
  buf <- for_n (Z.to_nat MAXFILE) 0 (writetest1_write fd) buf ;;
  close fd ;;;
  fd <- open "big" O_RDONLY ;; oops (fd <? 0) stdout "error: open big failed!" ;;;
  buf <- writetest1_read k fd 0 buf ;;
  close fd ;;;
  r <- unlink "big" ;; oops (r <? 0) stdout "unlink big failed" ;;;
  say stdout "big files ok" ;;;
  Done buf.

(** A character of a name, as an unsigned byte *)
Definition ch (c : Z) : Z := u8 c.

Definition createtest : prog unit :=
  say stdout "many creates, followed by unlink test" ;;;
  loop 52 (fun i => fd <- ask (Open [97; ch (48 + i)] (Z.lor O_CREATE O_RDWR)) ;; close fd ;;; Done tt) ;;;
  loop 52 (fun i => ask (Unlink [97; ch (48 + i)]) ;;; Done tt) ;;;
  say stdout "many creates, followed by unlink; ok".

Definition dirtest : prog unit :=
  say stdout "mkdir test" ;;;
  r <- mkdir "dir0" ;; oops (r <? 0) stdout "mkdir failed" ;;;
  r <- chdir "dir0" ;; oops (r <? 0) stdout "chdir dir0 failed" ;;;
  r <- chdir ".." ;; oops (r <? 0) stdout "chdir .. failed" ;;;
  r <- unlink "dir0" ;; oops (r <? 0) stdout "unlink dir0 failed" ;;;
  say stdout "mkdir test ok".

Definition echoargv : list (list Z) := [chars "echo"; chars "ALL"; chars "TESTS"; chars "PASSED"].
Definition exectest : prog unit :=
  say stdout "exec test" ;;;
  r <- ask (Exec (chars "echo") echoargv) ;;
  oops (r <? 0) stdout "exec echo failed".

(** ** Processes and pipes *)

(** The bytes [seq], [seq + 1], ... *)
Definition counting (seq : Z) (n : nat) : list Z := (fun i => u8 (seq + Z.of_nat i)) <$> List.seq 0 n.
Definition pipe1_child (fd : Z) (buf : list Z) : prog unit :=
  for_n 5 0 (fun n buf =>
    let buf := over (counting (1033 * n) 1033) buf in
    r <- write fd (take 1033 buf) ;;
    oops (negb (r =? 1033)) 1 "pipe1 oops 1" ;;;
    Done buf) buf ;;;
  Exit.
(** [m] characters from [i] on are compared with [seq], [seq + 1], ... *)
Fixpoint pipe1_check (m : nat) (i : nat) (seq : Z) (buf : list Z) : prog bool :=
  match m with
  | O => Done true
  | S m' =>
      c <- uchar_at buf i ;;
      if negb (Z.land c 255 =? Z.land seq 255) then Done false else pipe1_check m' (S i) (seq + 1) buf
  end.
(** The loop that reads; [None]: it returned with "oops 2". *)
Fixpoint pipe1_read (k : nat) (fd cc seq total : Z) (buf : list Z) : prog (option Z * list Z) :=
  match k with
  | O => Endless
  | S k' =>
      r <- read fd cc buf ;;
      let '(n, buf) := r in
      if 0 <? n then
        ok <- pipe1_check (Z.to_nat n) 0 seq buf ;;
        if negb ok then say 1 "pipe1 oops 2" ;;; Done (None, buf) else
        let cc := cc * 2 in
        pipe1_read k' fd (if 8192 <? cc then 8192 else cc) (seq + n) (total + n) buf
      else Done (Some total, buf)
  end.
Definition pipe1 (k : nat) (buf : list Z) : prog (list Z) :=
  r <- ask Pipe ;;
  oops (negb (r.1 =? 0)) 1 "pipe() failed" ;;;
  let '(fd0, fd1) := r.2 in
  pid <- do_fork ;;
  if pid =? 0 then
    close fd0 ;;; pipe1_child fd1 buf ;;; Exit
  else if 0 <? pid then
    close fd1 ;;;
    t <- pipe1_read k fd0 1 0 0 buf ;;
    match t.1 with
    | None => Done t.2
    | Some total =>
        oops_args (negb (total =? 5 * 1033)) 1 ("pipe1 oops 3 total %d" ++ nl) [Num total] ;;;
        close fd0 ;;;
        do_wait ;;;
        say 1 "pipe1 ok" ;;;
        Done t.2
    end
  else say 1 "fork() failed" ;;; Exit.

Definition preempt (buf : list Z) : prog (list Z) :=
  printf 1 "preempt: " [] ;;;
  pid1 <- do_fork ;;
  if pid1 =? 0 then Endless else
  pid2 <- do_fork ;;
  if pid2 =? 0 then Endless else
  p <- ask Pipe ;;
  let '(pfd0, pfd1) := p.2 in
  pid3 <- do_fork ;;
  if pid3 =? 0 then
    close pfd0 ;;;
    r <- write pfd1 [120] ;;
    (if negb (r =? 1) then printf 1 "preempt write error" [] else Done tt) ;;;
    close pfd1 ;;;
    Endless
  else
  close pfd1 ;;;
  r <- read pfd0 8192 buf ;;
  if negb (r.1 =? 1) then printf 1 "preempt read error" [] ;;; Done r.2 else
  close pfd0 ;;;
  printf 1 "kill... " [] ;;;
  ask (Kill pid1) ;;; ask (Kill pid2) ;;; ask (Kill pid3) ;;;
  printf 1 "wait... " [] ;;;
  do_wait ;;; do_wait ;;; do_wait ;;;
  say 1 "preempt ok" ;;;
  Done r.2.

Fixpoint exitwait_loop (k : nat) : prog unit :=
  match k with
  | O => say 1 "exitwait ok"
  | S k' =>
      pid <- do_fork ;;
      if pid <? 0 then say 1 "fork failed" else
      if negb (pid =? 0) then
        w <- do_wait ;;
        if negb (w =? pid) then say 1 "wait wrong pid" else exitwait_loop k'
      else Exit
  end.
Definition exitwait : prog unit := exitwait_loop 100.

(** ** Memory *)

(** [while((m2 = malloc(10001)) != 0)] ... *)
Fixpoint mem_fill (k n : nat) (base m1 : Z) (u : umem) : prog (Z * umem) :=
  match k with
  | O => Endless
  | S k' =>
      r <- malloc n base 10001 u ;;
      let '(m2, u) := r in
      if m2 =? 0 then Done (m1, u)
      else mem_fill k' n base m2 (mk_umem (Umalloc.upd (words u) m2 m1) (freep u))
  end.
(** [while(m1)] ... *)
Fixpoint mem_free (k n : nat) (m1 : Z) (u : umem) : prog umem :=
  if m1 =? 0 then Done u else
  match k with
  | O => Endless
  | S k' =>
      let m2 := words u m1 in
      u <- bounded (free n m1 u) ;;
      mem_free k' n m2 u
  end.
(** [base] is the static header of the allocator, [w] the memory at the start;
    the bounds are for the loops of the test and of the allocator. *)
Definition mem (k n : nat) (base : Z) (w : wmem) : prog unit :=
  say 1 "mem test" ;;;
  ppid <- ask Getpid ;;
  pid <- do_fork ;;
  if pid =? 0 then
    r <- mem_fill k n base 0 (mk_umem w 0) ;;
    let '(m1, u) := r in
    u <- mem_free k n m1 u ;;
    r <- malloc n base (1024 * 20) u ;;
    let '(m1, u) := r in
    (if m1 =? 0 then say 1 "couldn't allocate mem?!!" ;;; ask (Kill ppid) ;;; Exit else Done tt) ;;;
    bounded (free n m1 u) ;;;
    say 1 "mem ok" ;;;
    Exit
  else do_wait ;;; Done tt.

(** ** More file system tests *)

(** The loop that writes: it ends at the first write that fails. *)
Fixpoint sharedfd_write (k : nat) (fd : Z) (b : list Z) : prog unit :=
  match k with
  | O => Done tt
  | S k' =>
      r <- write fd b ;;
      if negb (r =? 10) then say 1 "fstests: write sharedfd failed" else sharedfd_write k' fd b
  end.
Definition count_char (c : Z) (b : list Z) : Z := Z.of_nat (length (filter (fun x => x = c) b)).
Fixpoint sharedfd_read (k : nat) (fd nc np : Z) (b : list Z) : prog (Z * Z) :=
  match k with
  | O => Endless
  | S k' =>
      r <- read fd 10 b ;;
      let '(n, b) := r in
      if 0 <? n then sharedfd_read k' fd (nc + count_char 99 b) (np + count_char 112 b) b else Done (nc, np)
  end.
Definition sharedfd (k : nat) : prog unit :=
  say 1 "sharedfd test" ;;;
  unlink "sharedfd" ;;;
  fd <- open "sharedfd" (Z.lor O_CREATE O_RDWR) ;;
  if fd <? 0 then printf 1 "fstests: cannot open sharedfd for writing" [] else
  pid <- do_fork ;;
  let b := replicate 10 (if pid =? 0 then 99 else 112) in
  sharedfd_write 1000 fd b ;;;
  (if pid =? 0 then Exit else do_wait) ;;;
  close fd ;;;
  fd <- open "sharedfd" 0 ;;
  if fd <? 0 then say 1 "fstests: cannot open sharedfd for reading" else
  r <- sharedfd_read k fd 0 0 b ;;
  let '(nc, np) := r in
  close fd ;;;
  unlink "sharedfd" ;;;
  if (nc =? 10000) && (np =? 10000) then say 1 "sharedfd ok"
  else printf 1 ("sharedfd oops %d %d" ++ nl) [Num nc; Num np] ;;; Exit.

(** [names[pi]] *)
Definition fourfiles_name (i : Z) : list Z := [102; 48 + i].
Definition fourfiles_child (pi : Z) (buf : list Z) : prog unit :=
  fd <- ask (Open (fourfiles_name pi) (Z.lor O_CREATE O_RDWR)) ;;
  oops (fd <? 0) 1 "create failed" ;;;
  let buf := over (replicate 512 (u8 (48 + pi))) buf in
  loop 12 (fun _ =>
    n <- write fd (take 500 buf) ;;
    oops_args (negb (n =? 500)) 1 ("write failed %d" ++ nl) [Num n]) ;;;
  Exit.
(** The characters [j] to [j + m - 1] are all [c]. *)
Fixpoint all_chars (m j : nat) (c : Z) (buf : list Z) : prog unit :=
  match m with
  | O => Done tt
  | S m' => x <- char_at buf j ;; oops (negb (x =? c)) 1 "wrong char" ;;; all_chars m' (S j) c buf
  end.
Fixpoint fourfiles_read (k : nat) (fd i total : Z) (buf : list Z) : prog (Z * list Z) :=
  match k with
  | O => Endless
  | S k' =>
      r <- read fd 8192 buf ;;
      let '(n, buf) := r in
      if 0 <? n then all_chars (Z.to_nat n) 0 (48 + i) buf ;;; fourfiles_read k' fd i (total + n) buf
      else Done (total, buf)
  end.
Definition fourfiles (k : nat) (buf : list Z) : prog (list Z) :=
  say 1 "fourfiles test" ;;;
  loop 4 (fun pi =>
    ask (Unlink (fourfiles_name pi)) ;;;
    pid <- do_fork ;;
    oops (pid <? 0) 1 "fork failed" ;;;
    if pid =? 0 then fourfiles_child pi buf else Done tt) ;;;
  loop 4 (fun _ => do_wait ;;; Done tt) ;;;
  buf <- for_n 2 0 (fun i buf =>
    fd <- ask (Open (fourfiles_name i) 0) ;;
    r <- fourfiles_read k fd i 0 buf ;;
    let '(total, buf) := r in
    close fd ;;;
    oops_args (negb (total =? 12 * 500)) 1 ("wrong length %d" ++ nl) [Num total] ;;;
    ask (Unlink (fourfiles_name i)) ;;;
    Done buf) buf ;;
  say 1 "fourfiles ok" ;;;
  Done buf.

Definition createdelete_child (pi : Z) : prog unit :=
  loop 20 (fun i =>
    fd <- ask (Open [112 + pi; 48 + i] (Z.lor O_CREATE O_RDWR)) ;;
    oops (fd <? 0) 1 "create failed" ;;;
    close fd ;;;
    if (0 <? i) && (i mod 2 =? 0) then
      r <- ask (Unlink [112 + pi; 48 + i / 2]) ;; oops (r <? 0) 1 "unlink failed"
    else Done tt) ;;;
  Exit.
Definition createdelete_check (i pi : Z) : prog unit :=
  let name := [112 + pi; 48 + i] in
  fd <- ask (Open name 0) ;;
  (if ((i =? 0) || (20 / 2 <=? i)) && (fd <? 0) then
     printf 1 ("oops createdelete %s didn't exist" ++ nl) [Str name] ;;; Exit
   else oops_args ((1 <=? i) && (i <? 20 / 2) && (0 <=? fd)) 1 ("oops createdelete %s did exist" ++ nl) [Str name]) ;;;
  if 0 <=? fd then close fd ;;; Done tt else Done tt.
Definition createdelete : prog unit :=
  say 1 "createdelete test" ;;;
  loop 4 (fun pi =>
    pid <- do_fork ;;
    oops (pid <? 0) 1 "fork failed" ;;;
    if pid =? 0 then createdelete_child pi else Done tt) ;;;
  loop 4 (fun _ => do_wait ;;; Done tt) ;;;
  loop 20 (fun i => loop 4 (fun pi => createdelete_check i pi)) ;;;
  loop 20 (fun i => loop 4 (fun pi => ask (Unlink [112 + i; 48 + i]) ;;; Done tt)) ;;;
  say 1 "createdelete ok".

Definition unlinkread (buf : list Z) : prog (list Z) :=
  say 1 "unlinkread test" ;;;
  fd <- open "unlinkread" (Z.lor O_CREATE O_RDWR) ;; oops (fd <? 0) 1 "create unlinkread failed" ;;;
  write fd (chars "hello") ;;;
  close fd ;;;
  fd <- open "unlinkread" O_RDWR ;; oops (fd <? 0) 1 "open unlinkread failed" ;;;
  u <- unlink "unlinkread" ;; oops (negb (u =? 0)) 1 "unlink unlinkread failed" ;;;
  fd1 <- open "unlinkread" (Z.lor O_CREATE O_RDWR) ;;
  write fd1 (chars "yyy") ;;;
  close fd1 ;;;
  r <- read fd 8192 buf ;;
  let '(n, buf) := r in
  oops_args (negb (n =? 5)) 1 "unlinkread read failed" [] ;;;
  c <- char_at buf 0 ;; oops (negb (c =? 104)) 1 "unlinkread wrong data" ;;;
  w <- write fd (take 10 buf) ;; oops (negb (w =? 10)) 1 "unlinkread write failed" ;;;
  close fd ;;;
  unlink "unlinkread" ;;;
  say 1 "unlinkread ok" ;;;
  Done buf.

Definition linktest (buf : list Z) : prog (list Z) :=
  say 1 "linktest" ;;;
  unlink "lf1" ;;;
  unlink "lf2" ;;;
  fd <- open "lf1" (Z.lor O_CREATE O_RDWR) ;; oops (fd <? 0) 1 "create lf1 failed" ;;;
  w <- write fd (chars "hello") ;; oops (negb (w =? 5)) 1 "write lf1 failed" ;;;
  close fd ;;;
  r <- link "lf1" "lf2" ;; oops (r <? 0) 1 "link lf1 lf2 failed" ;;;
  unlink "lf1" ;;;
  fd <- open "lf1" 0 ;; oops (0 <=? fd) 1 "unlinked lf1 but it is still there!" ;;;
  fd <- open "lf2" 0 ;; oops (fd <? 0) 1 "open lf2 failed" ;;;
  r <- read fd 8192 buf ;;
  let '(n, buf) := r in
  oops (negb (n =? 5)) 1 "read lf2 failed" ;;;
  close fd ;;;
  r <- link "lf2" "lf2" ;; oops (0 <=? r) 1 "link lf2 lf2 succeeded! oops" ;;;
  unlink "lf2" ;;;
  r <- link "lf2" "lf1" ;; oops (0 <=? r) 1 "link non-existant succeeded! oops" ;;;
  r <- link "." "lf1" ;; oops (0 <=? r) 1 "link . lf1 succeeded! oops" ;;;
  say 1 "linktest ok" ;;;
  Done buf.

Definition concreate_make (i : Z) : prog unit :=
  let file := [67; 48 + i] in
  ask (Unlink file) ;;;
  pid <- do_fork ;;
  (if negb (pid =? 0) && (i mod 3 =? 1) then ask (Link (chars "C0") file) ;;; Done tt
   else if (pid =? 0) && (i mod 5 =? 1) then ask (Link (chars "C0") file) ;;; Done tt
   else
     fd <- ask (Open file (Z.lor O_CREATE O_RDWR)) ;;
     oops_args (fd <? 0) 1 ("concreate create %s failed" ++ nl) [Str file] ;;;
     close fd ;;; Done tt) ;;;
  if pid =? 0 then Exit else do_wait ;;; Done tt.
(** The loop over the directory: [de] is the entry read last, [fa] the files seen. *)
Fixpoint concreate_scan (k : nat) (fd n : Z) (de : list Z) (fa : list bool) : prog Z :=
  match k with
  | O => Endless
  | S k' =>
      r <- read fd 16 de ;;
      let '(cc, de) := r in
      if 0 <? cc then
        if le_decode (take 2 de) =? 0 then concreate_scan k' fd n de fa else
        c0 <- uchar_at de 2 ;; c1 <- char_at de 3 ;; c2 <- uchar_at de 4 ;;
        if (c0 =? 67) && (c2 =? 0) then
          let i := c1 - 48 in
          let name := [67; u8 c1] in
          oops_args ((i <? 0) || (40 <=? i)) 1 ("concreate weird file %s" ++ nl) [Str name] ;;;
          seen <- try (fa !! Z.to_nat i) ;;
          oops_args seen 1 ("concreate duplicate file %s" ++ nl) [Str name] ;;;
          concreate_scan k' fd (n + 1) de (<[Z.to_nat i := true]> fa)
        else concreate_scan k' fd n de fa
      else Done n
  end.
Definition concreate_end (i : Z) : prog unit :=
  let file := [67; 48 + i] in
  let touch := fd <- ask (Open file 0) ;; close fd in
  pid <- do_fork ;;
  oops (pid <? 0) 1 "fork failed" ;;;
  (if (i mod 3 =? 0) && (pid =? 0) || (i mod 3 =? 1) && negb (pid =? 0)
   then touch ;;; touch ;;; touch ;;; touch
   else ask (Unlink file) ;;; ask (Unlink file) ;;; ask (Unlink file) ;;; ask (Unlink file)) ;;;
  if pid =? 0 then Exit else do_wait ;;; Done tt.
Definition concreate (k : nat) : prog unit :=
  say 1 "concreate test" ;;;
  loop 40 concreate_make ;;;
  fd <- open "." 0 ;;
  n <- concreate_scan k fd 0 (replicate 16 0) (replicate 40 false) ;;
  close fd ;;;
  oops (negb (n =? 40)) 1 "concreate not enough files in directory listing" ;;;
  loop 40 concreate_end ;;;
  say 1 "concreate ok".

(** [n] steps of the generator of [linkunlink]. *)
Fixpoint linkunlink_loop (n : nat) (x : Z) : prog unit :=
  match n with
  | O => Done tt
  | S n' =>
      let x := u32 (x * 1103515245 + 12345) in
      (if x mod 3 =? 0 then fd <- open "x" (Z.lor O_RDWR O_CREATE) ;; close fd
       else if x mod 3 =? 1 then link "cat" "x"
       else unlink "x") ;;;
      linkunlink_loop n' x
  end.
Definition linkunlink : prog unit :=
  say 1 "linkunlink test" ;;;
  unlink "x" ;;;
  pid <- do_fork ;;
  oops (pid <? 0) 1 "fork failed" ;;;
  linkunlink_loop 100 (if pid =? 0 then 97 else 1) ;;;
  (if negb (pid =? 0) then do_wait else Exit) ;;;
  say 1 "linkunlink ok".

Definition bigdir_name (i : Z) : list Z := [120; 48 + i / 64; 48 + i mod 64].
Definition bigdir : prog unit :=
  say 1 "bigdir test" ;;;
  unlink "bd" ;;;
  fd <- open "bd" O_CREATE ;; oops (fd <? 0) 1 "bigdir create failed" ;;;
  close fd ;;;
  loop 500 (fun i => r <- ask (Link (chars "bd") (bigdir_name i)) ;; oops (negb (r =? 0)) 1 "bigdir link failed") ;;;
  unlink "bd" ;;;
  loop 500 (fun i => r <- ask (Unlink (bigdir_name i)) ;; oops_args (negb (r =? 0)) 1 "bigdir unlink failed" []) ;;;
  say 1 "bigdir ok".

Definition subdir_make (buf : list Z) : prog (list Z) :=
  unlink "ff" ;;;
  r <- mkdir "dd" ;; oops (negb (r =? 0)) 1 "subdir mkdir dd failed" ;;;
  fd <- open "dd/ff" (Z.lor O_CREATE O_RDWR) ;; oops (fd <? 0) 1 "create dd/ff failed" ;;;
  write fd (chars "ff") ;;;
  close fd ;;;
  r <- unlink "dd" ;; oops (0 <=? r) 1 "unlink dd (non-empty dir) succeeded!" ;;;
  r <- mkdir "/dd/dd" ;; oops (negb (r =? 0)) 1 "subdir mkdir dd/dd failed" ;;;
  fd <- open "dd/dd/ff" (Z.lor O_CREATE O_RDWR) ;; oops (fd <? 0) 1 "create dd/dd/ff failed" ;;;
  write fd (chars "FF") ;;;
  close fd ;;;
  fd <- open "dd/dd/../ff" 0 ;; oops (fd <? 0) 1 "open dd/dd/../ff failed" ;;;
  r <- read fd 8192 buf ;;
  let '(cc, buf) := r in
  (if negb (cc =? 2) then oops true 1 "dd/dd/../ff wrong content"
   else c <- char_at buf 0 ;; oops (negb (c =? 102)) 1 "dd/dd/../ff wrong content") ;;;
  close fd ;;;
  Done buf.
Definition subdir_move (buf : list Z) : prog (list Z) :=
  r <- link "dd/dd/ff" "dd/dd/ffff" ;; oops (negb (r =? 0)) 1 "link dd/dd/ff dd/dd/ffff failed" ;;;
  r <- unlink "dd/dd/ff" ;; oops (negb (r =? 0)) 1 "unlink dd/dd/ff failed" ;;;
  r <- open "dd/dd/ff" O_RDONLY ;; oops (0 <=? r) 1 "open (unlinked) dd/dd/ff succeeded" ;;;
  r <- chdir "dd" ;; oops (negb (r =? 0)) 1 "chdir dd failed" ;;;
  r <- chdir "dd/../../dd" ;; oops (negb (r =? 0)) 1 "chdir dd/../../dd failed" ;;;
  r <- chdir "dd/../../../dd" ;; oops (negb (r =? 0)) 1 "chdir dd/../../dd failed" ;;;
  r <- chdir "./.." ;; oops (negb (r =? 0)) 1 "chdir ./.. failed" ;;;
  fd <- open "dd/dd/ffff" 0 ;; oops (fd <? 0) 1 "open dd/dd/ffff failed" ;;;
  r <- read fd 8192 buf ;;
  let '(n, buf) := r in
  oops (negb (n =? 2)) 1 "read dd/dd/ffff wrong len" ;;;
  close fd ;;;
  r <- open "dd/dd/ff" O_RDONLY ;; oops (0 <=? r) 1 "open (unlinked) dd/dd/ff succeeded!" ;;;
  Done buf.
Definition subdir_refused : prog unit :=
  r <- open "dd/ff/ff" (Z.lor O_CREATE O_RDWR) ;; oops (0 <=? r) 1 "create dd/ff/ff succeeded!" ;;;
  r <- open "dd/xx/ff" (Z.lor O_CREATE O_RDWR) ;; oops (0 <=? r) 1 "create dd/xx/ff succeeded!" ;;;
  r <- open "dd" O_CREATE ;; oops (0 <=? r) 1 "create dd succeeded!" ;;;
  r <- open "dd" O_RDWR ;; oops (0 <=? r) 1 "open dd rdwr succeeded!" ;;;
  r <- open "dd" O_WRONLY ;; oops (0 <=? r) 1 "open dd wronly succeeded!" ;;;
  r <- link "dd/ff/ff" "dd/dd/xx" ;; oops (r =? 0) 1 "link dd/ff/ff dd/dd/xx succeeded!" ;;;
  r <- link "dd/xx/ff" "dd/dd/xx" ;; oops (r =? 0) 1 "link dd/xx/ff dd/dd/xx succeeded!" ;;;
  r <- link "dd/ff" "dd/dd/ffff" ;; oops (r =? 0) 1 "link dd/ff dd/dd/ffff succeeded!" ;;;
  r <- mkdir "dd/ff/ff" ;; oops (r =? 0) 1 "mkdir dd/ff/ff succeeded!" ;;;
  r <- mkdir "dd/xx/ff" ;; oops (r =? 0) 1 "mkdir dd/xx/ff succeeded!" ;;;
  r <- mkdir "dd/dd/ffff" ;; oops (r =? 0) 1 "mkdir dd/dd/ffff succeeded!" ;;;
  r <- unlink "dd/xx/ff" ;; oops (r =? 0) 1 "unlink dd/xx/ff succeeded!" ;;;
  r <- unlink "dd/ff/ff" ;; oops (r =? 0) 1 "unlink dd/ff/ff succeeded!" ;;;
  r <- chdir "dd/ff" ;; oops (r =? 0) 1 "chdir dd/ff succeeded!" ;;;
  r <- chdir "dd/xx" ;; oops (r =? 0) 1 "chdir dd/xx succeeded!".
Definition subdir_remove : prog unit :=
  r <- unlink "dd/dd/ffff" ;; oops (negb (r =? 0)) 1 "unlink dd/dd/ff failed" ;;;
  r <- unlink "dd/ff" ;; oops (negb (r =? 0)) 1 "unlink dd/ff failed" ;;;
  r <- unlink "dd" ;; oops (r =? 0) 1 "unlink non-empty dd succeeded!" ;;;
  r <- unlink "dd/dd" ;; oops (r <? 0) 1 "unlink dd/dd failed" ;;;
  r <- unlink "dd" ;; oops (r <? 0) 1 "unlink dd failed".
Definition subdir (buf : list Z) : prog (list Z) :=
  say 1 "subdir test" ;;;
  buf <- subdir_make buf ;;
  buf <- subdir_move buf ;;
  subdir_refused ;;;
  subdir_remove ;;;
  say 1 "subdir ok" ;;;
  Done buf.

(** [for(sz = sz; sz < 12*512; sz += 471)] *)
Fixpoint bigwrite_loop (k : nat) (sz : Z) (buf : list Z) : prog unit :=
  if sz <? 12 * 512 then
    match k with
    | O => Endless
    | S k' =>
        fd <- open "bigwrite" (Z.lor O_CREATE O_RDWR) ;; oops (fd <? 0) 1 "cannot create bigwrite" ;;;
        loop 2 (fun _ =>
          cc <- write fd (take (Z.to_nat sz) buf) ;;
          oops_args (negb (cc =? sz)) 1 ("write(%d) ret %d" ++ nl) [Num sz; Num cc]) ;;;
        close fd ;;;
        unlink "bigwrite" ;;;
        bigwrite_loop k' (sz + 471) buf
    end
  else Done tt.
Definition bigwrite (buf : list Z) : prog unit :=
  say 1 "bigwrite test" ;;;
  unlink "bigwrite" ;;;
  bigwrite_loop 12 499 buf ;;;
  say 1 "bigwrite ok".

Fixpoint bigfile_read (k : nat) (fd i total : Z) (buf : list Z) : prog (Z * list Z) :=
  match k with
  | O => Endless
  | S k' =>
      r <- read fd 300 buf ;;
      let '(cc, buf) := r in
      oops (cc <? 0) 1 "read bigfile failed" ;;;
      if cc =? 0 then Done (total, buf) else
      oops (negb (cc =? 300)) 1 "short read bigfile" ;;;
      c0 <- char_at buf 0 ;; c1 <- char_at buf 299 ;;
      oops (negb (c0 =? i / 2) || negb (c1 =? i / 2)) 1 "read bigfile wrong data" ;;;
      bigfile_read k' fd (i + 1) (total + cc) buf
  end.
Definition bigfile (k : nat) (buf : list Z) : prog (list Z) :=
  say 1 "bigfile test" ;;;
  unlink "bigfile" ;;;
  fd <- open "bigfile" (Z.lor O_CREATE O_RDWR) ;; oops_args (fd <? 0) 1 "cannot create bigfile" [] ;;;
  buf <- for_n 20 0 (fun i buf =>
    let buf := over (replicate 600 (u8 i)) buf in
    r <- write fd (take 600 buf) ;; oops (negb (r =? 600)) 1 "write bigfile failed" ;;;
    Done buf) buf ;;
  close fd ;;;
  fd <- open "bigfile" 0 ;; oops (fd <? 0) 1 "cannot open bigfile" ;;;
  r <- bigfile_read k fd 0 0 buf ;;
  let '(total, buf) := r in
  close fd ;;;
  oops (negb (total =? 20 * 600)) 1 "read bigfile wrong total" ;;;
  unlink "bigfile" ;;;
  say 1 "bigfile test ok" ;;;
  Done buf.

Definition fourteen : prog unit :=
  say 1 "fourteen test" ;;;
  r <- mkdir "12345678901234" ;; oops (negb (r =? 0)) 1 "mkdir 12345678901234 failed" ;;;
  r <- mkdir "12345678901234/123456789012345" ;; oops (negb (r =? 0)) 1 "mkdir 12345678901234/123456789012345 failed" ;;;
  fd <- open "123456789012345/123456789012345/123456789012345" O_CREATE ;;
  oops (fd <? 0) 1 "create 123456789012345/123456789012345/123456789012345 failed" ;;;
  close fd ;;;
  fd <- open "12345678901234/12345678901234/12345678901234" 0 ;;
  oops (fd <? 0) 1 "open 12345678901234/12345678901234/12345678901234 failed" ;;;
  close fd ;;;
  r <- mkdir "12345678901234/12345678901234" ;; oops (r =? 0) 1 "mkdir 12345678901234/12345678901234 succeeded!" ;;;
  r <- mkdir "123456789012345/12345678901234" ;; oops (r =? 0) 1 "mkdir 12345678901234/123456789012345 succeeded!" ;;;
  say 1 "fourteen ok".

Definition rmdot : prog unit :=
  say 1 "rmdot test" ;;;
  r <- mkdir "dots" ;; oops (negb (r =? 0)) 1 "mkdir dots failed" ;;;
  r <- chdir "dots" ;; oops (negb (r =? 0)) 1 "chdir dots failed" ;;;
  r <- unlink "." ;; oops (r =? 0) 1 "rm . worked!" ;;;
  r <- unlink ".." ;; oops (r =? 0) 1 "rm .. worked!" ;;;
  r <- chdir "/" ;; oops (negb (r =? 0)) 1 "chdir / failed" ;;;
  r <- unlink "dots/." ;; oops (r =? 0) 1 "unlink dots/. worked!" ;;;
  r <- unlink "dots/.." ;; oops (r =? 0) 1 "unlink dots/.. worked!" ;;;
  r <- unlink "dots" ;; oops (negb (r =? 0)) 1 "unlink dots failed!" ;;;
  say 1 "rmdot ok".

Definition dirfile : prog unit :=
  say 1 "dir vs file" ;;;
  fd <- open "dirfile" O_CREATE ;; oops (fd <? 0) 1 "create dirfile failed" ;;;
  close fd ;;;
  r <- chdir "dirfile" ;; oops (r =? 0) 1 "chdir dirfile succeeded!" ;;;
  fd <- open "dirfile/xx" 0 ;; oops (0 <=? fd) 1 "create dirfile/xx succeeded!" ;;;
  fd <- open "dirfile/xx" O_CREATE ;; oops (0 <=? fd) 1 "create dirfile/xx succeeded!" ;;;
  r <- mkdir "dirfile/xx" ;; oops (r =? 0) 1 "mkdir dirfile/xx succeeded!" ;;;
  r <- unlink "dirfile/xx" ;; oops (r =? 0) 1 "unlink dirfile/xx succeeded!" ;;;
  r <- link "README" "dirfile/xx" ;; oops (r =? 0) 1 "link to dirfile/xx succeeded!" ;;;
  r <- unlink "dirfile" ;; oops (negb (r =? 0)) 1 "unlink dirfile failed!" ;;;
  fd <- open "." O_RDWR ;; oops (0 <=? fd) 1 "open . for writing succeeded!" ;;;
  fd <- open "." 0 ;;
  r <- write fd [120] ;; oops (0 <? r) 1 "write . succeeded!" ;;;
  close fd ;;;
  say 1 "dir vs file OK".

Definition iref : prog unit :=
  say 1 "empty file name" ;;;
  loop (50 + 1) (fun _ =>
    r <- mkdir "irefd" ;; oops (negb (r =? 0)) 1 "mkdir irefd failed" ;;;
    r <- chdir "irefd" ;; oops (negb (r =? 0)) 1 "chdir irefd failed" ;;;
    ask (Mkdir []) ;;;
    ask (Link (chars "README") []) ;;;
    fd <- ask (Open [] O_CREATE) ;;
    (if 0 <=? fd then close fd ;;; Done tt else Done tt) ;;;
    fd <- open "xx" O_CREATE ;;
    (if 0 <=? fd then close fd ;;; Done tt else Done tt) ;;;
    unlink "xx" ;;; Done tt) ;;;
  chdir "/" ;;;
  say 1 "empty file name OK".

(** Children are forked until it fails; how many. *)
Fixpoint forktest_fork (k : nat) (n : Z) : prog Z :=
  match k with
  | O => Done n
  | S k' =>
      pid <- do_fork ;;
      if pid <? 0 then Done n else if pid =? 0 then Exit else forktest_fork k' (n + 1)
  end.
Definition forktest : prog unit :=
  say 1 "fork test" ;;;
  n <- forktest_fork 1000 0 ;;
  oops (n =? 1000) 1 "fork claimed to work 1000 times!" ;;;
  loop (Z.to_nat n) (fun _ => r <- do_wait ;; oops (r <? 0) 1 "wait stopped early") ;;;
  r <- do_wait ;; oops (negb (r =? -1)) 1 "wait got too many" ;;;
  say 1 "fork test OK".

(** ** Tests with bad pointers *)

(** The process goes on after an instruction if the kernel lets it. *)
Definition alive {A} (o : option A) : prog A := match o with Some a => Done a | None => Exit end.
Definition sbrk (n : Z) : prog Z := p <- ask (Sbrk n) ;; Done (u32 p).
Definition store_byte (a v : Z) : prog unit := o <- ask (Poke a v) ;; alive o.
Definition load_byte (a : Z) : prog Z := o <- ask (Peek a) ;; alive o.
Definition BIG : Z := 100 * 1024 * 1024.
(** [for(;;) sleep(1000);] *)
Fixpoint sleep_forever (k : nat) : prog unit := match k with O => Endless | S k' => ask (Sleep 1000) ;;; sleep_forever k' end.

(** Can one grow by a byte at a time?  Ends with the address expected next. *)
Definition sbrk_small (a : Z) : prog Z :=
  for_n 5000 0 (fun i a =>
    b <- sbrk 1 ;;
    oops_args (negb (b =? a)) stdout ("sbrk test failed %d %x %x" ++ nl) [Num i; Num a; Num b] ;;;
    store_byte b 1 ;;;
    Done (u32 (b + 1))) a.
Definition sbrk_fork (a : Z) : prog unit :=
  pid <- do_fork ;;
  oops (pid <? 0) stdout "sbrk test fork failed" ;;;
  c <- sbrk 1 ;;
  c <- sbrk 1 ;;
  oops (negb (c =? u32 (a + 1))) stdout "sbrk test failed post-fork" ;;;
  (if pid =? 0 then Exit else Done tt) ;;;
  do_wait ;;; Done tt.
Definition sbrk_big (oldbrk : Z) : prog unit :=
  a <- sbrk 0 ;;
  p <- sbrk (s32 (u32 (BIG - a))) ;;
  oops (negb (p =? a)) stdout "sbrk test failed to grow big address space; enough phys mem?" ;;;
  let lastaddr := BIG - 1 in
  store_byte lastaddr 99 ;;;
  a <- sbrk 0 ;;
  c <- sbrk (-4096) ;;
  oops (c =? 0xffffffff) stdout "sbrk could not deallocate" ;;;
  c <- sbrk 0 ;;
  oops_args (negb (c =? u32 (a - 4096))) stdout ("sbrk deallocation produced wrong address, a %x c %x" ++ nl) [Num a; Num c] ;;;
  a <- sbrk 0 ;;
  c <- sbrk 4096 ;;
  (if negb (c =? a) then oops_args true stdout ("sbrk re-allocation failed, a %x c %x" ++ nl) [Num a; Num c]
   else e <- sbrk 0 ;; oops_args (negb (e =? u32 (a + 4096))) stdout ("sbrk re-allocation failed, a %x c %x" ++ nl) [Num a; Num c]) ;;;
  v <- load_byte lastaddr ;;
  oops (v =? 99) stdout "sbrk de-allocation didn't really deallocate" ;;;
  a <- sbrk 0 ;;
  e <- sbrk 0 ;;
  c <- sbrk (s32 (u32 (- (e - oldbrk)))) ;;
  oops_args (negb (c =? a)) stdout ("sbrk downsize failed, a %x c %x" ++ nl) [Num a; Num c].
(** Can the memory of the kernel be read? *)
Definition sbrk_kernel (i : Z) : prog unit :=
  let a := KERNBASE + 50000 * i in
  ppid <- ask Getpid ;;
  pid <- do_fork ;;
  oops (pid <? 0) stdout "fork failed" ;;;
  (if pid =? 0 then
     v <- load_byte a ;;
     printf stdout ("oops could read %x = %x" ++ nl) [Num a; Num (s8 v)] ;;;
     ask (Kill ppid) ;;;
     Exit
   else Done tt) ;;;
  do_wait ;;; Done tt.
(** A child that takes all memory, [k] rounds of its endless loop. *)
Definition sbrk_hog (k : nat) (fds : Z * Z) (pids : list Z) : prog (list Z) :=
  pid <- do_fork ;;
  (if pid =? 0 then
     e <- sbrk 0 ;;
     sbrk (s32 (u32 (BIG - e))) ;;;
     write fds.2 [120] ;;;
     sleep_forever k
   else Done tt) ;;;
  (if negb (pid =? -1) then ask (Read fds.1 1) ;;; Done tt else Done tt) ;;;
  Done (pids ++ [pid]).
Definition sbrk_leak (k : nat) (oldbrk : Z) : prog unit :=
  p <- ask Pipe ;;
  oops (negb (p.1 =? 0)) 1 "pipe() failed" ;;;
  pids <- for_n 10 0 (fun _ pids => sbrk_hog k p.2 pids) [] ;;
  c <- sbrk 4096 ;;
  each pids (fun pid => if pid =? -1 then Done tt else ask (Kill pid) ;;; do_wait ;;; Done tt) ;;;
  oops (c =? 0xffffffff) stdout "failed sbrk leaked memory" ;;;
  e <- sbrk 0 ;;
  if oldbrk <? e then e <- sbrk 0 ;; sbrk (s32 (u32 (- (e - oldbrk)))) ;;; Done tt else Done tt.
Definition sbrktest (k : nat) : prog unit :=
  say stdout "sbrk test" ;;;
  oldbrk <- sbrk 0 ;;
  a <- sbrk 0 ;;
  a <- sbrk_small a ;;
  sbrk_fork a ;;;
  sbrk_big oldbrk ;;;
  loop 40 sbrk_kernel ;;;
  sbrk_leak k oldbrk ;;;
  say stdout "sbrk test OK".

(** [SYS_sleep] with the stack pointer [p] *)
Definition validateint (p : Z) : prog unit := ask (IntAt 13 p) ;;; Done tt.
Definition validatetest : prog unit :=
  say stdout "validate test" ;;;
  loop (1100 / 4 + 1) (fun i =>
    let p := 4096 * i in
    pid <- do_fork ;;
    (if pid =? 0 then validateint p ;;; Exit else Done tt) ;;;
    ask (Sleep 0) ;;;
    ask (Sleep 0) ;;;
    ask (Kill pid) ;;;
    do_wait ;;;
    r <- ask (LinkPtr (chars "nosuchfile") p) ;;
    oops (negb (r =? -1)) stdout "link should not succeed") ;;;
  say stdout "validate ok".

(** [char uninit[10000]] *)
Definition uninit : list Z := replicate (Z.to_nat 10000) 0.
Definition bsstest : prog unit :=
  say stdout "bss test" ;;;
  each uninit (fun c => oops (negb (c =? 0)) stdout "bss test failed") ;;;
  say stdout "bss test ok".

Definition bigarg : list Z := chars ("bigargs test: failed" ++ nl) ++ replicate 199 32.
Definition bigargtest : prog unit :=
  unlink "bigarg-ok" ;;;
  pid <- do_fork ;;
  (if pid =? 0 then
     say stdout "bigarg test" ;;;
     ask (Exec (chars "echo") (replicate (32 - 1) bigarg)) ;;;
     say stdout "bigarg test ok" ;;;
     fd <- open "bigarg-ok" O_CREATE ;;
     close fd ;;;
     Exit
   else oops (pid <? 0) stdout "bigargtest: fork failed") ;;;
  do_wait ;;;
  fd <- open "bigarg-ok" 0 ;; oops (fd <? 0) stdout "bigarg test failed!" ;;;
  close fd ;;;
  unlink "bigarg-ok" ;;; Done tt.

Definition fsfull_name (n : Z) : list Z :=
  [102; ch (48 + Z.quot n 1000); ch (48 + Z.quot (Z.rem n 1000) 100); ch (48 + Z.quot (Z.rem n 100) 10); ch (48 + Z.rem n 10)].
(** [while(1)] ...: the number of bytes written *)
Fixpoint fsfull_write (k : nat) (fd total : Z) (buf : list Z) : prog Z :=
  match k with
  | O => Endless
  | S k' => cc <- write fd (take 512 buf) ;; if cc <? 512 then Done total else fsfull_write k' fd (total + cc) buf
  end.
Fixpoint fsfull_fill (k : nat) (nfiles : Z) (buf : list Z) : prog Z :=
  match k with
  | O => Endless
  | S k' =>
      let name := fsfull_name nfiles in
      printf 1 ("writing %s" ++ nl) [Str name] ;;;
      fd <- ask (Open name (Z.lor O_CREATE O_RDWR)) ;;
      if fd <? 0 then printf 1 ("open %s failed" ++ nl) [Str name] ;;; Done nfiles else
      total <- fsfull_write k' fd 0 buf ;;
      printf 1 ("wrote %d bytes" ++ nl) [Num total] ;;;
      close fd ;;;
      if total =? 0 then Done nfiles else fsfull_fill k' (nfiles + 1) buf
  end.
Fixpoint fsfull_remove (k : nat) : prog unit :=
  ask (Unlink (fsfull_name (Z.of_nat k))) ;;; match k with O => Done tt | S k' => fsfull_remove k' end.
Definition fsfull (k : nat) (buf : list Z) : prog unit :=
  say 1 "fsfull test" ;;;
  nfiles <- fsfull_fill k 0 buf ;;
  fsfull_remove (Z.to_nat nfiles) ;;;
  say 1 "fsfull test finished".

Definition uio : prog unit :=
  say 1 "uio test" ;;;
  pid <- do_fork ;;
  (if pid =? 0 then
     o <- ask (Outb 0x70 0x09) ;; alive o ;;;
     o <- ask (Inb 0x71) ;; alive o ;;;
     say 1 "uio: uio succeeded; test FAILED" ;;;
     Exit
   else oops (pid <? 0) 1 "fork failed") ;;;
  do_wait ;;;
  say 1 "uio test done".

(** The kernel has to refuse the buffer; data stored there would be beyond the
    end of memory. *)
Definition argptest : prog unit :=
  fd <- open "init" O_RDONLY ;; oops (fd <? 0) 2 "open failed" ;;;
  ask (Sbrk 0) ;;;
  r <- ask (Read fd (-1)) ;;
  (if (1 <? length r.2)%nat then Segv else Done tt) ;;;
  close fd ;;;
  say 1 "arg test passed".

(** The new [randstate], which is also the result. *)
Definition rand (randstate : Z) : Z := u32 (randstate * 1664525 + 1013904223).

(** The bounds are those of the loops that the kernel ends: [k], and [n] for the
    loops of the allocator. *)
Definition main (k n : nat) (base : Z) (w : wmem) : prog unit :=
  say 1 "usertests starting" ;;;
  fd <- open "usertests.ran" 0 ;;
  oops (0 <=? fd) 1 "already ran user tests -- rebuild fs.img" ;;;
  fd <- open "usertests.ran" O_CREATE ;;
  close fd ;;;
  argptest ;;; createdelete ;;; linkunlink ;;; concreate k ;;;
  buf <- fourfiles k buf0 ;;
  sharedfd k ;;;
  bigargtest ;;; bigwrite buf ;;; bigargtest ;;; bsstest ;;; sbrktest k ;;; validatetest ;;;
  opentest ;;;
  buf <- writetest buf ;;
  buf <- writetest1 k buf ;;
  createtest ;;;
  openiputtest ;;; exitiputtest ;;; iputtest ;;;
  mem k n base w ;;;
  buf <- pipe1 k buf ;;
  buf <- preempt buf ;;
  exitwait ;;;
  rmdot ;;; fourteen ;;;
  buf <- bigfile k buf ;;
  buf <- subdir buf ;;
  buf <- linktest buf ;;
  buf <- unlinkread buf ;;
  dirfile ;;; iref ;;; forktest ;;; bigdir ;;;
  uio ;;;
  exectest ;;;
  Exit.
