(* ===== verification/TestsOk.v ===== *)
(** * What the regression tests do, and what they miss

    A calculus of postconditions for user programs: [ok p Q] says that [p] makes
    no access outside its arrays and no call of [printf] with arguments that do
    not fit its format, and that [Q] holds of what it returns, whatever a kernel
    answers that keeps to the interface.  All tests are shown to be like that.
    Two tests are shown to pass on kernels that fail. *)

From S2P Require Import Prelude Machine CString Kstate Layout Console User Umalloc Usertests.

(** ** Postconditions *)

(** What every kernel does: [read] gives as many bytes as it says, and not more
    than it was asked for. *)
Definition good {B} (c : call B) : B → Prop :=
  match c in call B return B → Prop with
  | Read _ n => fun r => Z.of_nat (length r.2) = Z.max 0 r.1 ∧ r.1 ≤ Z.max n (-1) ∧ is_bytes r.2
  | _ => fun _ => True
  end.

Fixpoint ok {A} (p : prog A) (Q : A → Prop) : Prop :=
  match p with
  | Done a => Q a
  | Ask c k => ∀ b, good c b → ok (k b) Q
  | Segv => False
  | Exit | Endless => True
  end.

Lemma ok_mono {A} (p : prog A) (Q R : A → Prop) : ok p Q → (∀ a, Q a → R a) → ok p R.
Proof. intros H HQ. induction p as [a| |B c k IH| |]; cbn in *; auto. Qed.
Lemma ok_bind {A B} (p : prog A) (f : A → prog B) (Q : A → Prop) (R : B → Prop) : ok p Q → (∀ a, Q a → ok (f a) R) → ok (pbind p f) R.
Proof. intros H HQ. induction p as [a| |C c k IH| |]; cbn in *; auto. Qed.
Lemma ok_then {A B} (p : prog A) (q : prog B) (R : B → Prop) : ok p (fun _ => True) → ok q R → ok (pbind p (fun _ => q)) R.
Proof. intros H1 H2. eapply ok_bind; [exact H1|auto]. Qed.
Lemma ok_ask {B} (c : call B) (Q : B → Prop) : (∀ b, good c b → Q b) → ok (ask c) Q.
Proof. intros H. exact H. Qed.
Lemma ok_if {A} (b : bool) (p q : prog A) Q : (b = true → ok p Q) → (b = false → ok q Q) → ok (if b then p else q) Q.
Proof. destruct b; auto. Qed.

(** A kernel, and a program that runs on it. *)
Definition keeps_interface {S} (h : handler S) : Prop := ∀ B (c : call B) s, good c (fst (h B c s)).
Lemma ok_run {A S} (h : handler S) (p : prog A) Q s : keeps_interface h → ok p Q →
  match run h p s with Returned a _ => Q a | Segfault _ => False | _ => True end.
Proof.
  intros Hh. revert s. induction p as [a| |B c k IH| |]; intros s H; cbn in *; try done. pose proof (Hh B c s) as Hg. destruct (h B c s) as [b s']. by apply IH, H.
Qed.

(** Loops. *)
Lemma ok_each {X} (l : list X) (body : X → prog unit) : (∀ x, x ∈ l → ok (body x) (fun _ => True)) → ok (each l body) (fun _ => True).
Proof. induction l as [|x l IH]; intros H; cbn; [done|]. apply ok_then; [apply H; by left|]. apply IH. intros y Hy. apply H. by right. Qed.
Lemma ok_for_n {A} n k (body : Z → A → prog A) a (I : A → Prop) : I a → (∀ i a, k ≤ i < k + Z.of_nat n → I a → ok (body i a) I) → ok (for_n n k body a) I.
Proof.
  revert k a. induction n as [|n IH]; intros k a Ha H; cbn; [done|]. eapply ok_bind; [apply H; [lia|done]|]. intros a' Ha'. apply IH; [done|]. intros i b Hi. apply H. lia.
Qed.
Lemma ok_loop n (body : Z → prog unit) : (∀ i, 0 ≤ i < Z.of_nat n → ok (body i) (fun _ => True)) → ok (loop n body) (fun _ => True).
Proof. intros H. unfold loop. apply ok_for_n; [done|]. intros i _ Hi _. by apply H. Qed.

(** ** Output *)

(** The arguments fit the format. *)
Fixpoint fits (fmt : list Z) (state : bool) (ap : list arg) : bool :=
  match fmt with
  | [] => true
  | c :: fmt' =>
      if state then
        if (c =? 100) || (c =? 120) || (c =? 112) || (c =? 99) then match ap with Num _ :: ap' => fits fmt' false ap' | _ => false end
        else if c =? 115 then match ap with Str _ :: ap' | NullStr :: ap' => fits fmt' false ap' | _ => false end
        else fits fmt' false ap
      else if c =? 37 then fits fmt' true ap else fits fmt' false ap
  end.

Lemma ok_putc fd c : ok (putc fd c) (fun _ => True).
Proof. by apply ok_then. Qed.
Lemma ok_printint fd z b g : ok (uprintint fd z b g) (fun _ => True).
Proof. apply ok_each. intros x _. apply ok_putc. Qed.
Lemma ok_printf_loop fd fmt : ∀ state ap, fits fmt state ap = true → ok (printf_loop fd fmt state ap) (fun _ => True).
Proof.
  induction fmt as [|c fmt IH]; intros state ap H; [done|]. cbn [printf_loop fits] in *. destruct state.
  - unfold printf_item. destruct (Z.eqb_spec c 100); cbn [orb] in H.
    { destruct ap as [|[z| |] ap]; try done. eapply (ok_bind _ _ (eq ap)); [eapply ok_bind; [apply ok_printint|done]|]. intros ? <-. by apply IH. }
    destruct (Z.eqb_spec c 120); cbn [orb] in H.
    { destruct ap as [|[z| |] ap]; try done. eapply (ok_bind _ _ (eq ap)); [eapply ok_bind; [apply ok_printint|done]|]. intros ? <-. by apply IH. }
    destruct (Z.eqb_spec c 112); cbn [orb] in H |- *.
    { destruct ap as [|[z| |] ap]; try done. eapply (ok_bind _ _ (eq ap)); [eapply ok_bind; [apply ok_printint|done]|]. intros ? <-. by apply IH. }
    destruct (Z.eqb_spec c 115) as [->|]; [change (115 =? 99) with false in H; cbv iota in H|].
    { destruct ap as [|[z|l|] ap]; try done; (eapply (ok_bind _ _ (eq ap)); [eapply ok_bind; [apply ok_each; intros; apply ok_putc|done]|]; intros ? <-; by apply IH). }
    destruct (Z.eqb_spec c 99).
    { destruct ap as [|[z| |] ap]; try done. eapply (ok_bind _ _ (eq ap)); [eapply ok_bind; [apply ok_putc|done]|]. intros ? <-. by apply IH. }
    eapply (ok_bind _ _ (eq ap)); [|intros ? <-; by apply IH]. destruct (c =? 37); (repeat (eapply ok_bind; [apply ok_putc|intros ? _])); done.
  - destruct (c =? 37); [by apply IH|]. apply ok_then; [apply ok_putc|by apply IH].
Qed.
Lemma ok_printf fd fmt ap : fits (chars fmt) false ap = true → ok (printf fd fmt ap) (fun _ => True).
Proof. apply ok_printf_loop. Qed.

Lemma ok_say fd s : fits (chars (s ++ nl)) false [] = true → ok (say fd s) (fun _ => True).
Proof. apply ok_printf. Qed.
Lemma ok_oops bad fd s : fits (chars (s ++ nl)) false [] = true → ok (oops bad fd s) (fun _ => True).
Proof. intros H. unfold oops. destruct bad; [|done]. apply ok_then; [by apply ok_say|done]. Qed.
Lemma ok_oops_args bad fd s ap : fits (chars s) false ap = true → ok (oops_args bad fd s ap) (fun _ => True).
Proof. intros H. unfold oops_args. destruct bad; [|done]. apply ok_then; [by apply ok_printf|done]. Qed.

(** ** Input *)

Lemma length_over d b : (length d ≤ length b)%nat → length (over d b) = length b.
Proof. intros H. unfold over. rewrite length_app, length_drop. lia. Qed.
(** The array keeps its size, and the count is in its bounds. *)
Definition filled (n : Z) (b : list Z) (r : Z * list Z) : Prop := length r.2 = length b ∧ r.1 ≤ Z.max n (-1).
Lemma ok_read fd n b : n ≤ Z.of_nat (length b) → ok (read fd n b) (filled n b).
Proof.
  intros Hn. unfold read. eapply ok_bind; [apply ok_ask; intros r Hr; exact Hr|]. intros r (H1 & H2 & _). destruct (Nat.leb_spec (length r.2) (length b)) as [Hle|Hgt]; [|lia].
  cbn. split; [by apply length_over|done].
Qed.
Lemma ok_uchar_at b i : (i < length b)%nat → ok (uchar_at b i) (fun _ => True).
Proof. intros H. unfold uchar_at. destruct (lookup_lt_is_Some_2 b i H) as [c ->]. done. Qed.
Lemma ok_char_at b i : (i < length b)%nat → ok (char_at b i) (fun _ => True).
Proof. intros H. eapply ok_bind; [by apply ok_uchar_at|done]. Qed.

(** ** Automation *)

Ltac ok_solve := first [ done | lia | (vm_compute; reflexivity) ].
Ltac ok_step :=
  lazymatch goal with
  | |- ok (Done _) _ => cbn [ok]
  | |- ok Exit _ => exact I
  | |- ok Endless _ => exact I
  | |- ok (say _ _) _ => apply ok_say; vm_compute; reflexivity
  | |- ok (oops _ _ _) _ => apply ok_oops; vm_compute; reflexivity
  | |- ok (oops_args _ _ _ _) _ => apply ok_oops_args; vm_compute; reflexivity
  | |- ok (printf _ _ _) _ => apply ok_printf; vm_compute; reflexivity
  | |- ok (ask _) _ => apply ok_ask; intros
  | |- ok (loop _ _) _ => apply ok_loop; intros
  | |- ok (each _ _) _ => apply ok_each; intros
  | |- ok (if _ then _ else _) _ => apply ok_if; intros
  | |- ok (match ?o with Some _ => _ | None => _ end) _ => destruct o
  | |- ok (let '(_, _) := ?r in _) _ => destruct r
  | |- ok (pbind (read _ _ _) _) _ => eapply ok_bind; [apply ok_read; lia|intros [? ?] [? ?]; cbn [fst snd] in *]
  | |- ok (uchar_at _ _) _ => apply ok_uchar_at
  | |- ok (char_at _ _) _ => apply ok_char_at
  | |- ok (pbind _ _) _ => eapply (ok_bind _ _ (fun _ => True)); [|intros ? _]
  | |- ok (open _ _) _ => unfold open
  | |- ok (unlink _) _ => unfold unlink
  | |- ok (mkdir _) _ => unfold mkdir
  | |- ok (chdir _) _ => unfold chdir
  | |- ok (link _ _) _ => unfold link
  | |- ok (close _) _ => unfold close
  | |- ok (write _ _) _ => unfold write
  | |- ok do_wait _ => unfold do_wait
  | |- ok do_fork _ => unfold do_fork
  | |- ok (alive _) _ => unfold alive
  | |- ok (sbrk _) _ => unfold sbrk
  | |- ok (store_byte _ _) _ => unfold store_byte
  | |- ok (load_byte _) _ => unfold load_byte
  | |- True => exact I
  end.
Ltac ok_auto := repeat ok_step; cbn [fst snd] in *; try done; try lia.

(** ** The tests *)

Definition fine {A} (p : prog A) : Prop := ok p (fun _ => True).
(** A test that keeps the size of [buf]. *)
Definition fine_buf (t : list Z → prog (list Z)) : Prop := ∀ b, Z.of_nat (length b) = 8192 → ok (t b) (fun b' => Z.of_nat (length b') = 8192).

Lemma iput_tests : fine iputtest ∧ fine exitiputtest ∧ fine openiputtest.
Proof. unfold fine, iputtest, exitiputtest, openiputtest. split_and!; ok_auto. Qed.
Lemma opentest_ok : fine opentest.
Proof. unfold fine, opentest. ok_auto. Qed.
Lemma writetest_ok : fine_buf writetest.
Proof. intros b Hb. unfold writetest. ok_auto. Qed.

Definition full (b : list Z) : Prop := Z.of_nat (length b) = 8192.
Lemma full_over d b : full b → Z.of_nat (length d) ≤ 8192 → full (over d b).
Proof. unfold full. intros Hb Hd. rewrite length_over; lia. Qed.

Lemma writetest1_read_ok k fd n b : full b → ok (writetest1_read k fd n b) full.
Proof. unfold full. revert n b. induction k as [|k IH]; intros n b Hb; [done|]. cbn [writetest1_read]. ok_auto. apply IH. lia. Qed.
Lemma writetest1_ok k : fine_buf (writetest1 k).
Proof.
  intros b Hb. unfold writetest1. do 3 (ok_step; [ok_auto|]). eapply ok_bind.
  { apply (ok_for_n _ _ _ _ full); [done|]. intros i b' _ Hb'. unfold writetest1_write. ok_auto. apply full_over; [done|]. rewrite length_le_encode. lia. }
  intros b' Hb'. do 3 (ok_step; [ok_auto|]). eapply ok_bind; [by apply writetest1_read_ok|]. unfold full. intros b2 Hb2. ok_auto.
Qed.
Lemma small_tests : fine createtest ∧ fine dirtest ∧ fine exectest.
Proof. unfold fine, createtest, dirtest, exectest. split_and!; ok_auto. Qed.

Lemma pipe1_child_ok fd b : full b → fine (pipe1_child fd b).
Proof.
  intros Hb. unfold fine, pipe1_child. eapply ok_bind; [|done]. apply (ok_for_n _ _ _ _ full); [done|]. intros i b' _ Hb'. ok_auto. apply full_over; [done|].
  unfold counting. rewrite length_fmap, length_seq. lia.
Qed.
Lemma pipe1_check_ok m i seq b : Z.of_nat (i + m) ≤ Z.of_nat (length b) → fine (pipe1_check m i seq b).
Proof. unfold fine. revert i seq. induction m as [|m IH]; intros i seq H; [done|]. cbn [pipe1_check]. ok_auto. apply IH. lia. Qed.
Lemma pipe1_read_ok k fd cc seq total b : full b → 0 ≤ cc ≤ 8192 → ok (pipe1_read k fd cc seq total b) (fun r => full r.2).
Proof.
  unfold full. revert cc seq total b. induction k as [|k IH]; intros cc seq total b Hb Hcc; [done|]. cbn [pipe1_read]. ok_step. ok_step; [|cbn; lia].
  ok_step; [apply pipe1_check_ok; lia|]. ok_auto. apply IH; [lia|]. destruct (8192 <? cc * 2) eqn:E; lia.
Qed.
Lemma pipe1_ok k : fine_buf (pipe1 k).
Proof.
  intros b Hb. unfold pipe1. ok_step; [ok_auto|]. ok_step; [ok_auto|]. ok_step. ok_step; [ok_auto|]. ok_step; [|ok_step].
  - ok_step; [ok_auto|]. ok_step; [by apply pipe1_child_ok|done].
  - ok_step; [ok_auto|]. eapply ok_bind; [apply pipe1_read_ok; [done|lia]|]. unfold full. intros [t b'] Hb'. cbn [fst snd] in *. ok_auto.
  - ok_auto.
Qed.
Lemma preempt_ok : fine_buf preempt.
Proof. intros b Hb. unfold preempt. ok_auto. Qed.
Lemma exitwait_ok : fine exitwait.
Proof. unfold fine, exitwait. generalize 100%nat as k. induction k as [|k IH]; cbn [exitwait_loop]; ok_auto. Qed.

Lemma malloc_loop_ok n nu prevp p u : fine (malloc_loop n nu prevp p u).
Proof.
  unfold fine. revert prevp p u. induction n as [|n IH]; intros prevp p u; [done|]. cbn [malloc_loop]. ok_step; [done|]. ok_step; [|apply IH]. eapply (ok_bind _ _ (fun _ => True)).
  - unfold morecore, bounded. ok_auto.
  - intros [p' u'] _. ok_step; [done|apply IH].
Qed.
Lemma mem_fill_ok k n base m1 u : fine (mem_fill k n base m1 u).
Proof.
  unfold fine. revert m1 u. induction k as [|k IH]; intros m1 u; [done|]. cbn [mem_fill]. ok_step; [apply malloc_loop_ok|]. ok_step. ok_step; [done|apply IH].
Qed.
Lemma mem_free_ok k n m1 u : fine (mem_free k n m1 u).
Proof.
  unfold fine. revert m1 u. induction k as [|k IH]; intros m1 u; cbn [mem_free]; (ok_step; [done|]); [done|]. ok_step; [unfold bounded; ok_auto|apply IH].
Qed.
Lemma mem_ok k n base w : fine (mem k n base w).
Proof.
  unfold fine, mem. do 3 (ok_step; [ok_auto|]). ok_step; [|ok_auto]. ok_step; [apply mem_fill_ok|]. ok_step. ok_step; [apply mem_free_ok|]. ok_step; [apply malloc_loop_ok|]. unfold bounded. ok_auto.
Qed.

Lemma sharedfd_read_ok k fd nc np b : length b = 10%nat → fine (sharedfd_read k fd nc np b).
Proof. unfold fine. revert nc np b. induction k as [|k IH]; intros nc np b Hb; [done|]. cbn [sharedfd_read]. ok_auto. apply IH. lia. Qed.
Lemma sharedfd_write_ok k fd b : fine (sharedfd_write k fd b).
Proof. unfold fine. induction k as [|k IH]; [done|]. cbn [sharedfd_write]. ok_auto. Qed.
Lemma sharedfd_ok k : fine (sharedfd k).
Proof.
  unfold fine, sharedfd. do 3 (ok_step; [ok_auto|]). ok_step; [ok_auto|]. ok_step; [ok_auto|]. ok_step; [apply sharedfd_write_ok|]. do 3 (ok_step; [ok_auto|]). ok_step; [ok_auto|].
  ok_step; [apply sharedfd_read_ok; by rewrite length_replicate|]. ok_auto.
Qed.

Lemma all_chars_ok m j c b : Z.of_nat (j + m) ≤ Z.of_nat (length b) → fine (all_chars m j c b).
Proof. unfold fine. revert j. induction m as [|m IH]; intros j H; [done|]. cbn [all_chars]. ok_auto. apply IH. lia. Qed.
Lemma fourfiles_read_ok k fd i total b : full b → ok (fourfiles_read k fd i total b) (fun r => full r.2).
Proof.
  unfold full. revert total b. induction k as [|k IH]; intros total b Hb; [done|]. cbn [fourfiles_read]. ok_step. ok_step; [|cbn; lia]. ok_step; [apply all_chars_ok; lia|]. apply IH. lia.
Qed.
Lemma fourfiles_ok k : fine_buf (fourfiles k).
Proof.
  intros b Hb. unfold fourfiles. ok_step; [ok_auto|]. ok_step; [unfold fourfiles_child; ok_auto|]. ok_step; [ok_auto|]. eapply (ok_bind _ _ full); [|unfold full; intros; ok_auto].
  apply ok_for_n; [done|]. intros i b' _ Hb'. ok_step; [ok_auto|]. eapply ok_bind; [by apply fourfiles_read_ok|]. intros [t b2] Hb2. ok_auto.
Qed.
Lemma createdelete_ok : fine createdelete.
Proof. unfold fine, createdelete, createdelete_child, createdelete_check. ok_auto. Qed.
Lemma link_tests : fine_buf unlinkread ∧ fine_buf linktest.
Proof. split; intros b Hb; [unfold unlinkread|unfold linktest]; ok_auto. Qed.

(** A test goes on only if the condition is false. *)
Lemma oops_args_passed bad fd s ap : fits (chars s) false ap = true → ok (oops_args bad fd s ap) (fun _ => bad = false).
Proof. intros H. unfold oops_args. destruct bad; [|done]. apply ok_then; [by apply ok_printf|done]. Qed.

Lemma concreate_scan_ok k fd n de fa : length de = 16%nat → length fa = 40%nat → fine (concreate_scan k fd n de fa).
Proof.
  unfold fine. revert n de fa. induction k as [|k IH]; intros n de fa Hd Hf; [done|]. cbn [concreate_scan]. ok_step. ok_step; [|done]. ok_step; [apply IH; lia|].
  do 3 (ok_step; [ok_auto|]). ok_step; [|apply IH; lia]. eapply ok_bind; [apply oops_args_passed; vm_compute; reflexivity|]. intros [] Hi. apply orb_false_iff in Hi as [Hi1%Z.ltb_ge Hi2%Z.leb_gt].
  destruct (lookup_lt_is_Some_2 fa (Z.to_nat (a0 - 48))) as [x ->]; [lia|]. cbn [try]. ok_step; [done|]. ok_step; [ok_auto|]. apply IH; [lia|by rewrite length_insert].
Qed.
Lemma concreate_ok k : fine (concreate k).
Proof.
  unfold fine, concreate. ok_step; [ok_auto|]. ok_step; [unfold concreate_make; ok_auto|]. ok_step; [ok_auto|]. ok_step; [apply concreate_scan_ok; by rewrite length_replicate|]. unfold concreate_end. ok_auto.
Qed.
Lemma linkunlink_loop_ok n x : fine (linkunlink_loop n x).
Proof. unfold fine. revert x. induction n as [|n IH]; intros x; [done|]. cbn [linkunlink_loop]. ok_auto. Qed.
Lemma linkunlink_ok : fine linkunlink.
Proof. unfold fine, linkunlink. do 4 (ok_step; [ok_auto|]). ok_step; [apply linkunlink_loop_ok|]. ok_auto. Qed.
Lemma bigdir_ok : fine bigdir.
Proof. unfold fine, bigdir. ok_auto. Qed.
Lemma subdir_ok : fine_buf subdir.
Proof.
  intros b Hb. unfold subdir. ok_step; [ok_auto|]. eapply (ok_bind _ _ full); [unfold subdir_make, full; ok_auto|]. intros b1 Hb1. eapply (ok_bind _ _ full); [unfold subdir_move, full in *; ok_auto|].
  unfold full. intros b2 Hb2. unfold subdir_refused, subdir_remove. ok_auto.
Qed.
Lemma bigwrite_ok b : fine (bigwrite b).
Proof.
  unfold fine, bigwrite. do 2 (ok_step; [ok_auto|]). ok_step; [|ok_auto]. generalize 12%nat as k, 499 as sz. induction k as [|k IH]; intros sz; cbn [bigwrite_loop]; ok_auto.
Qed.
Lemma bigfile_read_ok k fd i total b : full b → ok (bigfile_read k fd i total b) (fun r => full r.2).
Proof. unfold full. revert i total b. induction k as [|k IH]; intros i total b Hb; [done|]. cbn [bigfile_read]. ok_auto. apply IH. lia. Qed.
Lemma bigfile_ok k : fine_buf (bigfile k).
Proof.
  intros b Hb. unfold bigfile. do 4 (ok_step; [ok_auto|]). eapply (ok_bind _ _ full).
  { apply ok_for_n; [done|]. intros i b' _ Hb'. ok_auto. apply full_over; [done|]. rewrite length_replicate. lia. }
  intros b1 Hb1. do 3 (ok_step; [ok_auto|]). eapply ok_bind; [by apply bigfile_read_ok|]. unfold full. intros [t b2] Hb2. ok_auto.
Qed.
Lemma name_tests : fine fourteen ∧ fine rmdot ∧ fine dirfile ∧ fine iref.
Proof. unfold fine, fourteen, rmdot, dirfile, iref. split_and!; ok_auto. Qed.
Lemma forktest_ok : fine forktest.
Proof.
  unfold fine, forktest. ok_step; [ok_auto|]. ok_step; [|ok_auto]. generalize 1000%nat as k, 0 as n. induction k as [|k IH]; intros n; cbn [forktest_fork]; ok_auto.
Qed.

Lemma sleep_forever_ok k : fine (sleep_forever k).
Proof. unfold fine. induction k as [|k IH]; [done|]. cbn [sleep_forever]. ok_auto. Qed.
Lemma sbrktest_ok k : fine (sbrktest k).
Proof.
  unfold fine, sbrktest. do 3 (ok_step; [ok_auto|]). ok_step; [apply ok_for_n; [done|]; intros; ok_auto|]. ok_step; [unfold sbrk_fork; ok_auto|]. ok_step; [unfold sbrk_big; ok_auto|].
  ok_step; [unfold sbrk_kernel; ok_auto|]. ok_step; [|ok_auto]. unfold sbrk_leak. do 2 (ok_step; [ok_auto|]). ok_step; [|ok_auto]. apply ok_for_n; [done|]. intros i pids _ _. unfold sbrk_hog.
  ok_step; [ok_auto|]. ok_step; [|ok_auto]. ok_step; [|done]. do 3 (ok_step; [ok_auto|]). apply sleep_forever_ok.
Qed.
Lemma pointer_tests : fine validatetest ∧ fine bsstest ∧ fine bigargtest ∧ fine uio.
Proof. unfold fine, validatetest, validateint, bsstest, bigargtest, uio. split_and!; ok_auto. Qed.
Lemma argptest_ok : fine argptest.
Proof.
  unfold fine, argptest. do 3 (ok_step; [ok_auto|]). eapply ok_bind; [apply ok_ask; intros r Hr; exact Hr|]. intros r (H1 & H2 & _). ok_step; [|ok_auto]. ok_step; [|ok_auto].
  destruct (Nat.ltb_spec 1 (length r.2)); [lia|done].
Qed.

(** ** The whole program *)

Lemma then_fine {A B} (p : prog A) (q : prog B) R : fine p → ok q R → ok (p ;;; q) R.
Proof. apply ok_then. Qed.
Lemma then_buf {B} t b (f : list Z → prog B) R : fine_buf t → full b → (∀ b', full b' → ok (f b') R) → ok (pbind (t b) f) R.
Proof. intros Ht Hb Hf. eapply ok_bind; [by apply Ht|done]. Qed.

Ltac run_test H := refine (then_fine _ _ _ H _).
Ltac run_test_buf H := refine (then_buf _ _ _ _ H _ _); [assumption|intros ? ?].

Lemma main_ok k n base w : ok (Usertests.main k n base w) (fun _ => False).
Proof.
  destruct iput_tests as (T1 & T2 & T3), small_tests as (T4 & _ & T5), link_tests as [T6 T7], name_tests as (T8 & T9 & T10 & T11), pointer_tests as (T12 & T13 & T14 & T15).
  unfold Usertests.main. do 5 (ok_step; [ok_auto|]). assert (full buf0) as Hbuf by (vm_compute; reflexivity).
  run_test argptest_ok. run_test createdelete_ok. run_test linkunlink_ok. run_test (concreate_ok k).
  run_test_buf (fourfiles_ok k). run_test (sharedfd_ok k). run_test T14. run_test (bigwrite_ok b'). run_test T14. run_test T13. run_test (sbrktest_ok k). run_test T12.
  run_test opentest_ok. run_test_buf writetest_ok. run_test_buf (writetest1_ok k). run_test T4. run_test T3. run_test T2. run_test T1.
  run_test (mem_ok k n base w). run_test_buf (pipe1_ok k). run_test_buf preempt_ok. run_test exitwait_ok. run_test T9. run_test T8.
  run_test_buf (bigfile_ok k). run_test_buf subdir_ok. run_test_buf T7. run_test_buf T6. run_test T10. run_test T11. run_test forktest_ok. run_test bigdir_ok. run_test T15. run_test T5. exact I.
Qed.


(** ** What the tests miss *)

(** A kernel that keeps only the first [m] blocks of a file; the state is the
    number of blocks read so far. *)
Definition forgetful (m : Z) : handler Z := fun B c =>
  match c in call B return Z → B * Z with
  | Write _ d => fun pos => (Z.of_nat (length d), pos)
  | Read _ _ => fun pos => if pos <? m then ((512, le_encode 4 pos ++ replicate 508 0), pos + 1) else ((0, []), pos)
  | Open _ _ => fun _ => (3, 0)
  | Pipe => fun pos => ((-1, (0, 0)), pos)
  | Wait2 => fun pos => ((-1, (0, 0, 0)), pos)
  | Fstat _ => fun pos => ((-1, mk_ustat 0 0 0 0 0), pos)
  | Yield => fun pos => (tt, pos)
  | Unlink _ | Close _ => fun pos => (0, pos)
  | Fork | Wait | Kill _ | Exec _ _ | Mknod _ _ _ | Link _ _ | Mkdir _ | Chdir _
  | Dup _ | Getpid | Sbrk _ | Sleep _ | Uptime | ChangePrio _ | LinkPtr _ _ | IntAt _ _ => fun pos => (-1, pos)
  | Peek _ | Poke _ _ | Inb _ | Outb _ _ => fun pos => (None, pos)
  end.

Lemma forgetful_writes m fd n : ∀ i b pos, full b → ∃ b', run (forgetful m) (for_n n i (writetest1_write fd) b) pos = Returned b' pos ∧ full b'.
Proof.
  induction n as [|n IH]; intros i b pos Hb; [by exists b|]. cbn [for_n]. set (b1 := over (le_encode 4 i) b). assert (full b1) as Hb1 by (apply full_over; [done|rewrite length_le_encode; lia]).
  rewrite (run_returned _ _ _ pos b1 pos); [by apply IH|]. unfold writetest1_write. fold b1. cbn [write ask pbind run forgetful]. assert (Z.of_nat (length (take 512 b1)) = 512) as -> by (unfold full in Hb1; rewrite length_take; lia). done.
Qed.
Lemma forgetful_reads m fd k : ∀ n b, full b → 0 ≤ n ≤ m → m ≤ 140 → m - n < Z.of_nat k →
  ∃ b', run (forgetful m) (writetest1_read k fd n b) n = (if m =? MAXFILE - 1 then Exited m else Returned b' m).
Proof.
  induction k as [|k IH]; intros n b Hb Hn Hm Hk; [lia|]. cbn [writetest1_read]. unfold read at 1. cbn [ask pbind run forgetful]. destruct (Z.ltb_spec n m) as [Hlt|Hge].
  - set (d := le_encode 4 n ++ replicate 508 0). assert (length d = 512%nat) as Hd by (unfold d; by rewrite length_app, length_le_encode, length_replicate). cbn [fst snd].
    assert (full (over d b)) as Hf by (apply full_over; [done|lia]). rewrite (proj2 (Nat.leb_le _ _)) by (unfold full in Hb; lia). cbn [pbind run].
    assert (int_at (over d b) = n) as ->.
    { unfold int_at, over, d. rewrite <- app_assoc, take_app_le by (rewrite length_le_encode; lia). rewrite take_ge by (rewrite length_le_encode; lia). rewrite le_decode_encode. change (256 ^ Z.of_nat 4) with (2 ^ 32). rewrite (Z.mod_small n) by lia. unfold s32. rewrite Z.mod_small by lia. lia. }
    rewrite (Z.eqb_refl n). destruct (IH (n + 1) (over d b) Hf) as (b' & E); [lia|lia|lia|]. by exists b'.
  - assert (n = m) as -> by lia. cbn [fst snd length Nat.leb pbind]. exists (over [] b). unfold oops_args. destruct (Z.eqb_spec m (MAXFILE - 1)) as [E|E]; cbn [Z.eqb]; [|done].
    rewrite run_bind, run_bind. rewrite E. vm_compute. reflexivity.
Qed.

(** [writetest1] does not notice that a file is truncated: the test for the
    number of blocks compares with one number only.  A kernel that keeps just
    the first [m] blocks of the file of 140, none of them for [m = 0], passes the
    test unless [m] is 139. *)
Theorem writetest1_accepts_truncated m k b : full b → 0 ≤ m ≤ MAXFILE → m < Z.of_nat k →
  ∃ b' s, run (forgetful m) (writetest1 k b) 0 = (if m =? MAXFILE - 1 then Exited s else Returned b' s).
Proof.
  intros Hb Hm Hk. unfold writetest1. rewrite (run_returned _ _ _ 0 tt 0) by (vm_compute; reflexivity). cbn [open ask pbind run forgetful]. rewrite (run_returned _ _ _ 0 tt 0) by done.
  destruct (forgetful_writes m 3 (Z.to_nat MAXFILE) 0 b 0 Hb) as (b1 & E1 & Hb1). rewrite (run_returned _ _ _ _ _ _ E1). cbn [close open ask pbind run forgetful]. rewrite (run_returned _ _ _ 0 tt 0) by done.
  destruct (forgetful_reads m 3 k 0 b1 Hb1) as (b2 & E2); [lia|assert (MAXFILE = 140) by done; lia|lia|]. exists b2, m. rewrite run_bind, E2. destruct (m =? MAXFILE - 1); [done|].
  cbn [close unlink ask pbind run forgetful]. rewrite (run_returned _ _ _ m tt m) by done. by rewrite (run_returned _ _ _ m tt m) by (vm_compute; reflexivity).
Qed.

(** A file of which nothing is left passes. *)
Lemma writetest1_accepts_truncated_witness : ∃ b' s, run (forgetful 0) (writetest1 10 buf0) 0 = Returned b' s.
Proof. apply (writetest1_accepts_truncated 0 10 buf0); [vm_compute; reflexivity|vm_compute; split; congruence|lia]. Defined.

(** A kernel that only lets a process write: the output. *)
Definition refuses : handler (list Z) := fun B c =>
  match c in call B return list Z → B * list Z with
  | Write _ d => fun out => (Z.of_nat (length d), out ++ d)
  | Read _ _ => fun out => ((-1, []), out)
  | Pipe => fun out => ((-1, (0, 0)), out)
  | Wait2 => fun out => ((-1, (0, 0, 0)), out)
  | Fstat _ => fun out => ((-1, mk_ustat 0 0 0 0 0), out)
  | Yield => fun out => (tt, out)
  | Unlink _ | Close _ | Open _ _ | Fork | Wait | Kill _ | Exec _ _ | Mknod _ _ _ | Link _ _ | Mkdir _ | Chdir _
  | Dup _ | Getpid | Sbrk _ | Sleep _ | Uptime | ChangePrio _ | LinkPtr _ _ | IntAt _ _ => fun out => (-1, out)
  | Peek _ | Poke _ _ | Inb _ | Outb _ _ => fun out => (None, out)
  end.
Lemma refuses_keeps : keeps_interface refuses.
Proof. intros B c s. destruct c; try done. cbn. split; [done|]. split; [lia|constructor]. Qed.

(** Data that [pipe1] finds to be wrong do not end the tests: it prints a line
    and returns, like a test that has passed. *)
Definition garbles : handler unit := fun B c =>
  match c in call B return unit → B * unit with
  | Write _ d => fun s => (Z.of_nat (length d), s)
  | Read _ _ => fun s => ((1, [7]), s)
  | Pipe => fun s => ((0, (3, 4)), s)
  | Fork => fun s => (2, s)
  | Wait2 => fun s => ((-1, (0, 0, 0)), s)
  | Fstat _ => fun s => ((-1, mk_ustat 0 0 0 0 0), s)
  | Yield => fun s => (tt, s)
  | Unlink _ | Close _ | Open _ _ | Wait | Kill _ | Exec _ _ | Mknod _ _ _ | Link _ _ | Mkdir _ | Chdir _
  | Dup _ | Getpid | Sbrk _ | Sleep _ | Uptime | ChangePrio _ | LinkPtr _ _ | IntAt _ _ => fun s => (-1, s)
  | Peek _ | Poke _ _ | Inb _ | Outb _ _ => fun s => (None, s)
  end.
Lemma pipe1_goes_on : match run garbles (pipe1 5 buf0) tt with Returned _ _ => True | _ => False end.
Proof. vm_compute. exact I. Qed.
