(* ===== verification/KernelExamples.v ===== *)
(** * Concrete kernel states

    A machine with one CPU that runs the first process, a blank kernel after
    [binit], and a transaction in progress.  The theorems on the storage system
    are applied at these states. *)

From S2P Require Import Prelude Machine Spinlock CString ProcTable Proc Lifecycle Ready Aging.
From S2P Require Import ProcLemmas Scheduler Reach Blocking Examples Kstate Sleeplock Solo Devices Disk Bio Cache.
From S2P Require Import Layout Log Crash Transaction Kalloc Boot.

(** ** The machine *)

(** The locks of the kernel and that of a pipe. *)
Definition k_pipe : Z := 0x8dfff000.
Definition boot_locks : list Z :=
  [k_pipe; ptable_lock; bcache_lock; idelock; log_lock; icache_lock; ftable_lock; kmem_lock; cons_lock] ++
  ((fun i => sl_spin (buf_lock i)) <$> seq 0 NBUF) ++ ((fun i => sl_spin (inode_lock i)) <$> seq 0 NINODE).
Definition k_mach : mach :=
  mk_mach 0x202 0 1 [run_cpu0] (list_to_map ((fun lk => (lk, mk_spinlock 0 "lock" None)) <$> boot_locks)).

(** ** A checker for the invariant of the cache *)

Definition linkedb (bs : list buf) (a : nat) (l : list nat) : bool :=
  forallb (fun k => match (a :: l) !! k, l !! k with
    | Some x, Some y => bool_decide (bnext <$> bs !! x = Some y) && bool_decide (bprev <$> bs !! y = Some x)
    | _, _ => true end) (seq 0 (length l)).

Definition bufb (me : Z) (r : kres) (h : list nat) (b : nat) : bool :=
  match bufs r !! b, slocks r !! buf_lock b with
  | Some x, Some k =>
      bool_decide (length (bdata x) = Z.to_nat BSIZE) &&
      (if bdev x =? 1 then (0 <=? blockno x) && (blockno x <? Z.of_nat (length (memdisk r))) &&
         ((bflags x =? B_VALID) || (bflags x =? B_BOTH)) else bflags x =? 0) &&
      (if bool_decide (b ∈ h) then (bdev x =? 1) && (refcnt x =? 1) && (sl_locked k =? 1) && (sl_pid k =? me)
       else (refcnt x =? 0) && (sl_locked k =? 0) &&
         (negb (bdev x =? 1) || negb (bflags x =? B_VALID) ||
          bool_decide (memdisk r !! Z.to_nat (blockno x) = Some (bdata x))))
  | _, _ => false
  end.

Definition uniqb (r : kres) : bool :=
  forallb (fun a => forallb (fun b => match bufs r !! a, bufs r !! b with
    | Some x, Some y => negb (bdev x =? 1) || negb (bdev y =? 1) || negb (blockno x =? blockno y) || (a =? b)%nat
    | _, _ => true end) (seq 0 NBUF)) (seq 0 NBUF).

Definition cacheb (me : Z) (r : kres) (l h : list nat) : bool :=
  bool_decide (length (bufs r) = S NBUF) && bool_decide (l ≡ₚ seq 0 NBUF) && linkedb (bufs r) bhead (l ++ [bhead]) &&
  forallb (bufb me r h) (seq 0 NBUF) && uniqb r &&
  forallb (fun d => bool_decide (length d = Z.to_nat BSIZE)) (memdisk r) && forallb (fun b => (b <? NBUF)%nat) h.

Lemma linkedb_ok bs a l : linkedb bs a l = true → linked bs a l.
Proof.
  unfold linkedb. rewrite forallb_forall. intros H k x y Hx Hy.
  specialize (H k). rewrite Hx, Hy, andb_true_iff, !bool_decide_eq_true in H. apply H, in_seq.
  apply lookup_lt_Some in Hy. lia.
Qed.

Lemma cacheb_ok me r l h : cacheb me r l h = true → cache_ok me r l h.
Proof.
  unfold cacheb. rewrite !andb_true_iff, !bool_decide_eq_true, !forallb_forall.
  intros ((((((H1 & H2) & H3) & H4) & H5) & H6) & H7).
  assert (∀ b, (b < NBUF)%nat → bufb me r h b = true) as Hb by (intros b Hb; apply H4, in_seq; lia).
  assert (∀ b x, (b < NBUF)%nat → bufs r !! b = Some x → ∃ k, slocks r !! buf_lock b = Some k ∧
    buf_ok (length (memdisk r)) x ∧
    (if decide (b ∈ h) then bdev x = 1 ∧ refcnt x = 1 ∧ sl_locked k = 1 ∧ sl_pid k = me
     else refcnt x = 0 ∧ sl_locked k = 0 ∧ clean (memdisk r) x)) as Hall.
  { intros b x Hlt Hx. specialize (Hb b Hlt). unfold bufb in Hb. rewrite Hx in Hb.
    destruct (slocks r !! buf_lock b) as [k|]; [|done]. exists k. split; [done|].
    rewrite !andb_true_iff, bool_decide_eq_true in Hb. destruct Hb as [[Hb1 Hb2] Hb3]. split.
    - split; [done| |]; destruct (Z.eqb_spec (bdev x) 1); try done; intros _; [|lia].
      rewrite !andb_true_iff, orb_true_iff in Hb2. unfold B_BOTH in Hb2. lia.
    - case_bool_decide; [rewrite decide_True by done|rewrite decide_False by done]; rewrite !andb_true_iff in Hb3; [lia|].
      split; [lia|]. split; [lia|]. destruct Hb3 as [_ Hb3]. intros Hd Hf. rewrite Hd, Hf in Hb3. by apply bool_decide_eq_true in Hb3. }
  split.
  - split; [done|done|by apply linkedb_ok].
  - intros b x Hlt Hx. by destruct (Hall b x Hlt Hx) as (k & _ & ? & _).
  - intros b x Hlt Hn Hx. destruct (Hall b x Hlt Hx) as (k & _ & _ & Hc). rewrite decide_False in Hc by done. apply Hc.
  - intros a b x y Ha Hlt Hx Hy Hdx Hdy Hn. unfold uniqb in H5. rewrite forallb_forall in H5.
    specialize (H5 a ltac:(apply in_seq; lia)). rewrite forallb_forall in H5. specialize (H5 b ltac:(apply in_seq; lia)).
    rewrite Hx, Hy, Hdx, Hdy, Hn, !Z.eqb_refl in H5. by apply Nat.eqb_eq in H5.
  - intros n d Hd. apply list_elem_of_lookup_2, list_elem_of_In, H6 in Hd. by apply bool_decide_eq_true in Hd.
  - intros b x Hlt Hx. destruct (Hall b x Hlt Hx) as (k & _ & _ & Hc). case_decide; apply Hc.
  - intros b Hlt. destruct (lookup_lt_is_Some_2 (bufs r) b) as [x Hx]; [lia|].
    destruct (Hall b x Hlt Hx) as (k & Hk & _ & Hc). exists k. split; [done|]. case_decide; apply Hc.
  - intros b Hin. assert (b < NBUF)%nat as Hlt by (apply Nat.ltb_lt, H7, list_elem_of_In, Hin). split; [done|].
    destruct (lookup_lt_is_Some_2 (bufs r) b) as [x Hx]; [lia|]. exists x. split; [done|].
    destruct (Hall b x Hlt Hx) as (k & _ & _ & Hc). rewrite decide_True in Hc by done. apply Hc.
Qed.

(** ** States *)

Definition zero_block : list Z := replicate 512 0.
Definition zero_kbuf : buf := mk_buf 0 0 0 0 0 0 None zero_block.
Definition k_log : logstate := mk_logstate 2 4 1 0 1 0 (replicate 30 0).
(** Static memory is zero; the disk has nine blocks, with a log of four at block 2. *)
Definition k_blank : kres :=
  mk_kres ∅ (replicate 31 zero_kbuf) (replicate 9 zero_block) [] (mk_idestate None 0)
    (mk_devstate [] true 0 0 0 []) (mk_superblock 9 3 1 4 2 6 7) k_log
    (replicate 50 (mk_inode 0 0 0 0 0 0 0 0 0 [])) (replicate 100 (mk_file FD_NONE 0 0 0 0 0 0))
    (replicate 10 DevNone) ∅ 0 0 (fun _ => 0) (mk_console [] 0 0 0 0 0 []).

Definition k_state (r : kres) : kstate := mk_pstate k_mach t_init 2 (Some 0%nat) 0 3251 false 0x803ff000 r.
Definition k_proc : proc := proc_of t_init 0.

#[local] Instance k_disk : Disk := memide_disk [].

(** The storage state after [m]. *)
Definition after_run {A} (m : K A) (r : kres) : kres :=
  match m (k_state r) with Ret _ s => res s | _ => r end.

Definition k_cache : kres := after_run binit k_blank.
(** Block 7 is held, *)
Definition k_held : kres := after_run (bread 1 7) k_cache.
Definition k_buf : nat := 0.
(** its first byte is changed and it is in the log, *)
Definition k_logged : kres :=
  after_run (set_data k_buf (fun d => put_bytes d 0 [42]) ;;; log_write k_buf) k_held.
(** and released. *)
Definition k_txn : kres := after_run (brelse k_buf) k_logged.

Lemma k_locks_free : map_Forall (fun _ l => is_free l) (locks k_mach).
Proof.
  assert (Forall (fun kl : Z * spinlock => is_free kl.2) ((fun lk => (lk, mk_spinlock 0 "lock" None)) <$> boot_locks)) as H.
  { apply Forall_fmap, Forall_forall. by intros. }
  intros lk l Hl. apply elem_of_list_to_map_2, (proj1 (Forall_forall _ _) H) in Hl. done.
Qed.

Lemma k_locks_all lk : klock lk → is_Some (locks k_mach !! lk).
Proof.
  intros Hk. destruct (locks k_mach !! lk) eqn:Hl; [by eauto|]. apply not_elem_of_list_to_map_2 in Hl. exfalso. apply Hl.
  rewrite <- list_fmap_compose. apply list_elem_of_fmap. exists lk. split; [done|]. unfold boot_locks. rewrite !elem_of_app.
  unfold klock in Hk. destruct Hk as [->|[->|[->|[->|[->|[->|[->|[->|[(i & Hi & ->)|(i & Hi & ->)]]]]]]]]];
    try (left; apply list_elem_of_In; cbn [List.In]; tauto); right; [left|right];
    apply list_elem_of_fmap; exists i; (split; [done|]); apply elem_of_seq; lia.
Qed.

Lemma t_init_awake i p : procs t_init !! i = Some p → state p ≠ SLEEPING.
Proof.
  assert (forallb (fun p => negb (bool_decide (state p = SLEEPING))) (procs t_init) = true) as H by by vm_compute.
  rewrite forallb_forall in H. intros Hp. apply list_elem_of_lookup_2, list_elem_of_In, H in Hp.
  by apply negb_true_iff, bool_decide_eq_false in Hp.
Qed.

Lemma k_mach_ok : mach_ok k_mach 0 run_cpu0.
Proof. split; [done|done|done|]. intros H. by vm_compute in H. Qed.

Lemma k_solo r : solo (k_state r) 0 0 run_cpu0 k_proc.
Proof.
  split; [apply k_mach_ok|done|done|done|by apply proc_of_lookup|apply k_locks_free|apply k_locks_all| |apply t_init_awake].
  by vm_compute.
Qed.

Lemma k_in_memory : in_memory k_disk.
Proof. by intros b. Qed.

Definition pinnedb (r : kres) (ns : list Z) : bool :=
  forallb (fun b => match bufs r !! b with
    | Some x => negb (bdev x =? 1) || negb (bflags x =? B_BOTH) || bool_decide (blockno x ∈ ns) | None => true end) (seq 0 NBUF).
Lemma pinnedb_ok r ns : pinnedb r ns = true → pinned r ns.
Proof.
  unfold pinnedb. rewrite forallb_forall. intros H m (b & x & (Hb & Hx & Hd & <-) & Hf).
  specialize (H b ltac:(apply in_seq; lia)). rewrite Hx, Hd, Hf in H. by apply bool_decide_eq_true in H.
Qed.
Definition holdsb (r : kres) (b : nat) (n : Z) : bool :=
  (b <? NBUF)%nat && match bufs r !! b with Some x => (bdev x =? 1) && (blockno x =? n) | None => false end.
Definition get_buf (r : kres) (b : nat) : buf := default zero_kbuf (bufs r !! b).
Lemma holdsb_ok r b n : holdsb r b n = true → holds r b n (get_buf r b).
Proof.
  unfold holdsb, get_buf. rewrite andb_true_iff, Nat.ltb_lt. intros [Hb H]. unfold holds.
  destruct (bufs r !! b) as [x|]; [|done]. apply andb_true_iff in H as [H1%Z.eqb_eq H2%Z.eqb_eq]. done.
Qed.

Definition fresh_order : list nat := rev (seq 0 30).

Lemma k_cache_ok : cache_ok (pid k_proc) k_cache fresh_order [].
Proof. apply cacheb_ok. by vm_compute. Qed.
Lemma k_held_ok : cache_ok (pid k_proc) k_held fresh_order [k_buf].
Proof. apply cacheb_ok. by vm_compute. Qed.
Lemma k_txn_ok : cache_ok (pid k_proc) k_txn (k_buf :: rev (seq 1 29)) [].
Proof. apply cacheb_ok. by vm_compute. Qed.

Lemma k_cache_unused b x : bufs k_cache !! b = Some x → bdev x = 0.
Proof.
  assert (forallb (fun x => bdev x =? 0) (bufs k_cache) = true) as H by by vm_compute.
  rewrite forallb_forall in H. intros Hx. apply list_elem_of_lookup_2, list_elem_of_In, H in Hx. by apply Z.eqb_eq.
Qed.

(** ** The theorems at these states *)

Lemma bread_correct_witness :
  ∃ b r', bread 1 7 (k_state k_cache) = Ret b (k_state r') ∧ view r' 7 = view k_cache 7 ∧
    pick (bufs k_cache) unused (rev fresh_order) = Some b.
Proof.
  assert (∀ b x, ¬ holds k_cache b 7 x) as Hno by (intros b x (_ & Hx & Hd & _); by rewrite (k_cache_unused b x Hx) in Hd).
  destruct (bread_correct k_in_memory (k_solo k_cache) k_cache_ok 7) as (b & r' & H1 & H2 & H3 & H4).
  - intros b x Hb. set_solver.
  - by vm_compute.
  - exists 0%nat, (get_buf k_cache 0). split_and!; [unfold NBUF; lia|by vm_compute..].
  - exists b, r'. split; [done|]. split; [apply H2|by apply H4].
Defined.

Lemma k_geometry : geometry 9 2 [7].
Proof. split; [lia|cbn; lia|apply NoDup_singleton|]. intros b ->%list_elem_of_singleton. cbn. lia. Qed.

Lemma k_log_at : log_at (log k_txn) 2 [7].
Proof. split; by vm_compute. Qed.

Lemma k_zero_head : head_is zero_block [].
Proof. split; [done|by vm_compute|done]. Qed.

Lemma k_committable : committable (pid k_proc) k_txn 2 [7].
Proof.
  split.
  - eexists. apply k_txn_ok.
  - apply k_log_at.
  - assert (length (memdisk k_txn) = 9%nat) as -> by by vm_compute. apply k_geometry.
  - apply pinnedb_ok. by vm_compute.
  - intros b ->%list_elem_of_singleton. exists k_buf, (get_buf k_txn k_buf). split; [apply holdsb_ok; by vm_compute|by vm_compute].
  - cbn. unfold NBUF. lia.
  - done.
  - exists zero_block. split; [by vm_compute|apply k_zero_head].
Qed.

Lemma commit_correct_witness :
  ∃ r', commit (k_state k_txn) = Ret tt (k_state r') ∧ memdisk r' !! 7%nat = view k_txn 7 ∧ lh_n (log r') = 0.
Proof.
  destruct (commit_correct k_in_memory (k_solo k_txn) k_committable)
    as (r' & ds & h1 & h0 & H1 & H2 & H3 & H4 & H5 & H6 & H7 & H8 & H9).
  exists r'. split; [done|]. split; [|done]. apply (H6 7). split; [lia|cbn; lia].
Defined.

(** A cache that is not in use is well formed on any disk. *)
Lemma idle_cache_ok me r l ls lg D :
  cache_ok me r l [] → (∀ b x, bufs r !! b = Some x → bdev x = 0) → log_at lg ls [] →
  (∀ n d, D !! n = Some d → length d = 512%nat) → rebooted me (r <| memdisk := D |> <| log := lg |>) ls D.
Proof.
  intros [H1 H2 H3 H4 H5 H6 H7 H8] H0 Hlg HD. split; [done| | |by eauto].
  - exists l. split; try done.
    + intros b x Hb Hx. destruct (H2 b x Hb Hx) as [A1 A2 A3]. split; [exact A1| |exact A3].
      intros Hd. by rewrite (H0 b x Hx) in Hd.
    + intros b x Hb Hn Hx Hd. by rewrite (H0 b x Hx) in Hd.
  - intros m (b & x & (_ & Hx & Hd & _) & _). by rewrite (H0 b x Hx) in Hd.
Qed.

(** A kernel booted on disk [D]. *)
Definition k_booted (D : list (list Z)) : kres := k_cache <| memdisk := D |> <| log := k_log |>.

Lemma k_booted_ok D : (∀ n d, D !! n = Some d → length d = 512%nat) → rebooted (pid k_proc) (k_booted D) 2 D.
Proof.
  intros HD. eapply idle_cache_ok; [exact k_cache_ok|exact k_cache_unused|by split|exact HD].
Qed.

Lemma apply_writes_sizes ws D :
  (∀ n d, D !! n = Some d → length d = 512%nat) → Forall (fun w : write => length w.2 = 512%nat) ws →
  ∀ n d, apply_writes ws D !! n = Some d → length d = 512%nat.
Proof.
  intros HD Hws. revert D HD. induction Hws as [|w ws Hw _ IH]; intros D HD; [exact HD|].
  apply IH. intros n d. unfold apply_write. rewrite list_lookup_insert. case_decide; [by intros [= <-]|apply HD].
Qed.

(** The writes of the commit of [k_txn]. *)
Definition k_writes : list write := writes (after_run commit k_txn).
Lemma k_txn_sizes n d : memdisk k_txn !! n = Some d → length d = 512%nat.
Proof. apply (cache_disk _ _ _ _ k_txn_ok). Qed.
Lemma sizes_ok ws :
  forallb (fun w : write => (length w.2 =? 512)%nat) ws = true → Forall (fun w : write => length w.2 = 512%nat) ws.
Proof.
  rewrite forallb_forall. intros H. apply Forall_forall. intros w Hw. apply Nat.eqb_eq, H, list_elem_of_In, Hw.
Qed.
Lemma k_writes_sizes : Forall (fun w : write => length w.2 = 512%nat) k_writes.
Proof. apply sizes_ok. vm_compute. reflexivity. Qed.

(** The machine stops after the header and boots: the transaction is there. *)
Lemma commit_crash_atomic_witness :
  ∃ r3, recover_from_log (k_state (k_booted (apply_writes (take 2 k_writes) (memdisk k_txn)))) = Ret tt (k_state r3) ∧
    memdisk r3 !! 7%nat = view k_txn 7.
Proof.
  destruct (commit_crash_atomic k_in_memory (k_solo k_txn) k_committable) as (r' & ws & H1 & H2 & H3).
  assert (k_writes = ws) as Hws.
  { unfold k_writes, after_run. rewrite <- (app_nil_l ws). change (@nil write) with (writes k_txn). rewrite <- H2.
    change (k_state k_txn) with (with_res (k_state k_txn) k_txn). by rewrite H1. }
  destruct (H3 2%nat (k_state k_cache) 0%nat 0%nat run_cpu0 k_proc
    (k_booted (apply_writes (take 2 k_writes) (memdisk k_txn)))) as (r3 & d & H4 & H5 & H6 & H7).
  - apply k_solo.
  - rewrite <- Hws. apply k_booted_ok, apply_writes_sizes; [apply k_txn_sizes|]. apply Forall_take, k_writes_sizes.
  - exists r3. split; [exact H4|]. apply (H7 7). split; [lia|cbn; lia].
Defined.

Definition k_crashed : list (list Z) := apply_writes (take 2 k_writes) (memdisk k_txn).
Definition k_data : list (list Z) := [default [] (view k_txn 7)].

Lemma recovery_crash_safe_witness :
  ∃ r', recover_from_log (k_state (k_booted k_crashed)) = Ret tt (k_state r') ∧ memdisk r' !! 7%nat = view k_txn 7.
Proof.
  destruct (recovery_crash_safe (bl := [7]) (ds := k_data) (D := k_crashed) (ls := 2) (r := k_booted k_crashed)
    k_in_memory (k_solo k_cache)) as (r' & ws & H1 & H2 & H3 & H4).
  - apply k_booted_ok, apply_writes_sizes; [apply k_txn_sizes|]. apply Forall_take, k_writes_sizes.
  - split; [|repeat constructor; by vm_compute]. exists (default [] (k_crashed !! 2%nat)). split; [by vm_compute|].
    split; [by vm_compute..|]. intros [|i] b Hb; [|done]. injection Hb as <-. by vm_compute.
  - assert (length k_crashed = 9%nat) as -> by by vm_compute. apply k_geometry.
  - vm_compute. lia.
  - exists r'. split; [exact H1|]. etrans; [apply (H3 7); split; [lia|cbn; lia]|]. by vm_compute.
Defined.

Lemma k_held_transaction : transaction (pid k_proc) k_held fresh_order [k_buf] 2 4 [].
Proof.
  split; [exact k_held_ok|split; by vm_compute|by vm_compute| | |constructor|by intros ? ?%not_elem_of_nil| |by intros ? ?%not_elem_of_nil].
  - assert (length (memdisk k_held) = 9%nat) as -> by by vm_compute. lia.
  - cbn. unfold LOGSIZE, MAXOPBLOCKS. lia.
  - apply pinnedb_ok. by vm_compute.
Qed.

Lemma log_write_correct_witness :
  ∃ r', log_write k_buf (k_state k_held) = Ret tt (k_state r') ∧
    transaction (pid k_proc) r' fresh_order [k_buf] 2 4 [7].
Proof.
  destruct (log_write_correct (b := k_buf) (x := get_buf k_held k_buf) (k_solo k_held) k_held_transaction)
    as (r' & H1 & H2 & _).
  - by left.
  - by vm_compute.
  - assert (length (memdisk k_held) = 9%nat) as -> by by vm_compute.
    assert (blockno (get_buf k_held k_buf) = 7) as -> by by vm_compute. split; lia.
  - by vm_compute.
  - by vm_compute.
  - exists r'. split; [exact H1|]. exact H2.
Defined.

(** An idle log as mkfs makes it. *)
Definition k_idle : kres := k_cache <| log := mk_logstate 2 LOGSIZE 0 0 1 0 (replicate 30 0) |>.

Lemma log_reservation_too_small_witness :
  ∃ r3, bind begin_op (fun _ => bind begin_op (fun _ => begin_op)) (k_state k_idle) = Ret tt (k_state r3) ∧
    outstanding (log r3) = 3.
Proof.
  destruct (log_reservation_too_small (k_solo k_idle) k_idle) as (r3 & H1 & H2 & _); [done..|].
  exists r3. split; [exact H1|exact H2].
Defined.

(** ** Memory *)

(** A kernel linked below 0x80200000. *)
#[local] Instance k_link : Link :=
  {| kend := 0x80200000; kdata := 0x80108000; forkret_sym := 0; trapret_sym := 0; ts_sym := fun _ => 0;
     mpenter_sym := 0; entrypgdir_sym := 0; vectors := []; initcode := []; entryother := [] |}.

Definition k_page : Z := 0x80200000.
Lemma k_page_ok : page_ok k_page.
Proof. unfold page_ok, k_page. cbn [kend k_link]. split; [done|]. by vm_compute. Qed.

Lemma k_nomem : kmem_ok k_cache [].
Proof. split; [by vm_compute|constructor|constructor]. Qed.

Definition k_onepage : kres := freed k_page k_cache.
Lemma k_onepage_ok : kmem_ok k_onepage [k_page].
Proof. apply kmem_ok_freed; [apply k_nomem|apply k_page_ok|by apply not_elem_of_nil]. Qed.

Lemma kalloc_correct_witness : ∃ r', kalloc (k_state k_onepage) = Ret k_page (k_state r') ∧ kmem_ok r' [].
Proof.
  destruct (kalloc_correct (k_solo k_onepage) k_onepage [k_page] k_onepage_ok) as (r' & H1 & H2 & _).
  exists r'. split; [exact H1|exact H2].
Defined.

Lemma kfree_correct_witness :
  ∃ r', kfree k_page (k_state k_cache) = Ret tt (k_state r') ∧ kmem_ok r' [k_page].
Proof.
  destruct (kfree_correct (k_solo k_cache) k_cache [] k_page k_nomem k_page_ok (not_elem_of_nil _))
    as [(r' & H1 & H2 & _) _].
  exists r'. split; [exact H1|exact H2].
Defined.

(** Three pages and a bit: the whole pages between two addresses. *)
Lemma freerange_correct_witness :
  ∃ r', freerange 0x80200001 0x80204010 (k_state k_cache) = Ret tt (k_state r') ∧
    kmem_ok r' [0x80203000; 0x80202000; 0x80201000].
Proof.
  destruct (freerange_correct (k_solo k_cache) k_cache [] 0x80200001 0x80204010 k_nomem) as (r' & H1 & H2).
  - repeat constructor; unfold page_ok; cbn [kend k_link]; by vm_compute.
  - intros v _. apply not_elem_of_nil.
  - exists r'. split; [exact H1|exact H2].
Defined.

(** ** The MP table *)

Definition k_badmp : kres := k_blank <| pmem := fun _ => 7 |>.

Lemma mp_unknown_entry_hangs_witness :
  mp_entries 1000 0 44 true (k_state k_badmp) = NoFuel.
Proof. apply (mp_unknown_entry_hangs 1000 0 44 true (k_state k_badmp)); by vm_compute. Defined.
