(* ===== verification/FsExamples.v ===== *)
(** * A small file system and a pipe

    A disk of 48 blocks with a log of 30, one block of inodes, the bitmap and
    14 data blocks, on which inode 1 is a file of 510 bytes; and a pipe with
    some bytes in it.  The theorems on files and pipes are applied to them. *)

From S2P Require Import Prelude Machine Spinlock CString ProcTable Proc Lifecycle Ready Aging.
From S2P Require Import ProcLemmas Scheduler Reach Blocking Examples Kstate Sleeplock Solo Devices Disk Bio Cache.
From S2P Require Import Layout Log Crash Transaction Inode Console Fs Content Txn Alloc Bmap Writei Kalloc File Pipes Boot KernelExamples.

#[local] Existing Instance k_disk.
(** The console is quiet. *)
#[local] Instance f_hw : Hw := {| hw_in := fun _ _ => 0; hw_min := fun _ _ => 0; hw_cr2 := fun _ => 0 |}.

(** ** The file system *)

Definition f_sb : superblock := mk_superblock 48 14 8 30 2 32 33.
(** The bits of blocks 0 to 34 are set. *)
Definition f_bitmap : list Z := [255; 255; 255; 255; 7] ++ replicate 507 0.
Definition f_inode : inode := mk_inode 1 1 1 1 T_FILE 0 0 1 510 (34 :: replicate 12 0).
Definition f_inodes : list Z := replicate 64 0 ++ encode_dinode (dinode_of f_inode) ++ replicate 384 0.
Definition f_data : list Z := replicate 510 65 ++ [0; 0].
Definition f_disk : list (list Z) := replicate 32 zero_block ++ [f_inodes; f_bitmap; f_data] ++ replicate 13 zero_block.
Definition f_res : kres :=
  k_cache <| memdisk := f_disk |> <| log := mk_logstate 2 30 1 0 1 0 (replicate 30 0) |> <| sb := f_sb |> <| inodes ::= <[0%nat := f_inode]> |>.
Definition f_view : blocks := view f_res.

Lemma seqZ_all (P : Z → bool) n : forallb P (seqZ 0 n) = true → ∀ k, 0 ≤ k < n → P k = true.
Proof. rewrite forallb_forall. intros H k Hk. apply H, list_elem_of_In, elem_of_seqZ. lia. Qed.

Lemma f_size : length (memdisk f_res) = 48%nat.
Proof. by vm_compute. Qed.

Lemma f_txn : txn (q := k_proc) 2 30 [] f_res [] f_view.
Proof.
  split; [|by vm_compute|done]. exists fresh_order.
  split; [apply cacheb_ok; by vm_compute|split; by vm_compute|by vm_compute|rewrite f_size; lia|cbn; unfold LOGSIZE, MAXOPBLOCKS; lia|
          constructor|by intros ? ?%not_elem_of_nil| |by intros ? ?%not_elem_of_nil].
  apply pinnedb_ok. by vm_compute.
Qed.

Lemma f_bblock b : 0 ≤ b < 48 → BBLOCK b f_sb = 33.
Proof. intros Hb. unfold BBLOCK. rewrite Z.div_small by (unfold BPB, BSIZE; lia). done. Qed.
Lemma f_iblock i : 0 ≤ i < 8 → IBLOCK i f_sb = 32.
Proof. intros Hi. unfold IBLOCK. rewrite Z.div_small by (change IPB with 8; lia). done. Qed.
Lemma f_used b : 0 ≤ b < 48 → used f_view f_sb b = Some (b <? 35).
Proof.
  intros Hb. pose proof (seqZ_all (fun b => bool_decide (used f_view f_sb b = Some (b <? 35))) 48 ltac:(by vm_compute) b Hb) as H.
  by apply bool_decide_eq_true in H.
Qed.
Lemma f_bitmap_ok : bitmap_ok 2 30 f_sb [] f_res f_view.
Proof.
  split; [done|rewrite f_size; cbn; lia|by vm_compute| | | |intros; split; intros; intros ? ? []%not_elem_of_nil]; cbn [sb_size f_sb]; unfold inside_home, home; rewrite ?f_size; intros b Hb.
  - rewrite f_bblock by done. lia.
  - rewrite f_used by done. intros [= Hu%Z.ltb_ge]. split; [lia|]. intros b' Hb'. rewrite f_bblock by done. lia.
  - rewrite f_used by done. intros [= Hu%Z.ltb_ge]. split; [lia|]. intros i Hi. rewrite f_iblock by done. lia.
Qed.

Lemma f_blocks bn : 0 ≤ bn < MAXFILE → fb f_view f_inode bn = if bn =? 0 then 34 else 0.
Proof.
  intros Hb. pose proof (seqZ_all (fun b => fb f_view f_inode b =? if b =? 0 then 34 else 0) MAXFILE ltac:(by vm_compute) bn Hb) as H. by apply Z.eqb_eq in H.
Qed.
Lemma f_ino_ok : ino_ok 48 2 30 f_sb f_view f_inode.
Proof.
  assert (MAXFILE = 140) as HM by done. assert (ind f_inode = 0) as Hi by done.
  split; try done.
  - split; [done|]. split; [done|]. intros i Hi'. rewrite f_iblock by done. split; [lia|]. split; [split; lia|].
    intros (b & Hb & E). rewrite f_bblock in E by done. done.
  - intros bn Hbn. rewrite f_blocks by done. destruct (bn =? 0); [|done]. intros _. split; [done|split; lia| | |by rewrite f_used].
    + intros (b & Hb & E). rewrite f_bblock in E by done. done.
    + intros (i & Hi' & E). rewrite f_iblock in E by done. done.
  - intros a b Ha Hb. rewrite !f_blocks by done. destruct (Z.eqb_spec a 0), (Z.eqb_spec b 0); by subst.
  - intros bn H0 Hlt. cbn in Hlt. unfold BSIZE in Hlt. assert (bn = 0) as -> by lia. by rewrite f_blocks.
Qed.
Lemma f_fstate : fstate (q := k_proc) 2 30 f_sb 0 f_res [] f_view f_inode.
Proof. split; [apply f_txn|apply f_bitmap_ok|by vm_compute|rewrite f_size; apply f_ino_ok]. Qed.
Lemma f_fields : fields_ok f_inode.
Proof. repeat split; done. Qed.

(** ** The theorems at work *)

Lemma balloc_correct_witness : ∃ r' V', balloc 1 (k_state f_res) = Ret 35 (k_state r') ∧
  txn (q := k_proc) 2 30 [] r' [33; 35] V' ∧ V' 35 = Some zeros.
Proof.
  destruct (balloc_correct k_in_memory (k_solo f_res) 2 30 f_sb f_res [] f_view f_txn f_bitmap_ok) as [H _]; [by vm_compute|].
  destruct (H 35) as (r' & V' & E & T & _ & Hz & _); [done|by rewrite f_used| |].
  - intros j Hj. rewrite f_used by (cbn; lia). by rewrite (proj2 (Z.ltb_lt _ _)) by lia.
  - exists r', V'. split; [exact E|]. split; [|done]. exact T.
Defined.

Lemma readi_correct_witness : ∃ l r', readi 0 500 100 (k_state f_res) = Ret (10, l) (k_state r') ∧ file_bytes f_view f_inode 500 10 = Some l.
Proof.
  destruct (readi_correct k_in_memory (k_solo f_res) 0 f_inode 500 100 f_res) as [_ H];
    [by eapply fstate_idle, f_fstate|by vm_compute|done|by eapply fstate_mapped, f_fstate|done|done|].
  destruct H as (l & r' & E & Hl & _); [done|done|]. exists l, r'. split; [exact E|exact Hl].
Defined.

(** Four bytes across the end of the first block: the second is allocated. *)
Lemma writei_correct_witness : ∃ r' bl' V' y', writei 0 [1; 2; 3; 4] 510 (k_state f_res) = Ret 4 (k_state r') ∧
  written (q := k_proc) 2 30 f_sb 0 f_res f_view f_inode 510 [1; 2; 3; 4] r' bl' V' y'.
Proof.
  destruct (writei_correct k_in_memory (k_solo f_res) 2 30 f_sb 0 [1; 2; 3; 4] 510 f_res [] f_view f_inode f_fstate f_fields) as [_ H]; [done..|].
  destruct H as (r' & bl' & V' & y' & E & W); [done|done|done|by vm_compute|]. exists r', bl', V', y'. split; [exact E|exact W].
Defined.

Lemma writei_readi_witness : ∃ r1 r2, writei 0 [1; 2; 3; 4] 510 (k_state f_res) = Ret 4 (k_state r1) ∧
  readi 0 510 4 (k_state r1) = Ret (4, [1; 2; 3; 4]) (k_state r2).
Proof.
  destruct (writei_readi k_in_memory (k_solo f_res) 2 30 f_sb 0 [1; 2; 3; 4] 510 f_res [] f_view f_inode f_fstate f_fields) as (r1 & r2 & E1 & E2);
    [done|done|done|done|by vm_compute|]. exists r1, r2. split; [exact E1|exact E2].
Defined.

(** ** A pipe *)

Definition p_three : pipe := pipe_put 30 (pipe_put 20 (pipe_put 10 new_pipe)).
Definition p_res : kres := k_cache <| pipes ::= <[k_pipe := p_three]> |>.

Lemma p_three_rep : pipe_rep p_three [10; 20; 30].
Proof.
  split; [by vm_compute|by vm_compute|by vm_compute|by vm_compute|].
  intros [|[|[|i]]] b Hb; [..|done]; injection Hb as <-; by vm_compute.
Qed.
Lemma k_pipe_free r : lock_free (machine (k_state r)) k_pipe.
Proof.
  destruct (locks k_mach !! k_pipe) as [l|] eqn:E; [|by vm_compute in E]. exists l. split; [exact E|]. exact (k_locks_free _ _ E).
Qed.


Lemma pipewrite_correct_witness : ∃ y, pipe_rep y [10; 20; 30; 40] ∧
  pipewrite k_pipe [40] (k_state p_res) = Ret 1 (k_state (p_res <| pipes ::= <[k_pipe := y]> |>)).
Proof.
  destruct (pipewrite_correct (k_state p_res) 0 0 run_cpu0 k_proc k_pipe p_res p_three [10; 20; 30] [40] (k_solo p_res) (k_pipe_free _)) as [H _];
    [done|by vm_compute|apply p_three_rep|]. destruct H as (y & Hy & _ & E); [by vm_compute|]. exists y. split; [exact Hy|exact E].
Defined.

Lemma piperead_correct_witness : ∃ y, pipe_rep y [30] ∧
  piperead k_pipe 2 (k_state p_res) = Ret (2, [10; 20]) (k_state (p_res <| pipes ::= <[k_pipe := y]> |>)).
Proof.
  destruct (piperead_correct (k_state p_res) 0 0 run_cpu0 k_proc k_pipe p_res p_three [10; 20; 30] 2 (k_solo p_res) (k_pipe_free _)) as (y & Hy & _ & E);
    [done|by vm_compute|apply p_three_rep|by left|]. exists y. split; [exact Hy|exact E].
Defined.
