(* ===== verification/MkExamples.v ===== *)
(** * An image and a kernel that runs on it

    mkfs is run on concrete files, and the kernel reads one of them from the
    image. *)

From S2P Require Import Prelude Machine Spinlock CString ProcTable Proc Lifecycle Ready Aging.
From S2P Require Import ProcLemmas Scheduler Reach Blocking Examples Kstate Sleeplock Solo Devices Disk Bio Cache.
From S2P Require Import Layout Log Crash Transaction Inode Console Fs Content Txn Alloc Bmap Writei Icache Namei Kalloc Boot KernelExamples FsExamples Mkfs MkImage MkRun MkTree.

#[local] Existing Instance k_disk.
#[local] Existing Instance f_hw.

(** ** Files *)

Definition usableb (l : list arg) : bool :=
  forallb (fun a => negb (bool_decide (47 ∈ arg_name a)) && bool_decide (is_Some (arg_reads a))) l &&
  (Z.of_nat (length l) + 1 <? NINODES) && forallb (fun c => Z.of_nat (length c) <=? MAXFILE * BSIZE) (image_files l) &&
  (nmeta + total (image_files l) <=? FSSIZE).
Lemma usableb_ok l : usableb l = true → usable l.
Proof.
  unfold usableb. rewrite !andb_true_iff, !forallb_forall. intros (((H1 & H2%Z.ltb_lt) & H3) & H4%Z.leb_le). split; [|done| |done].
  - intros a Ha%list_elem_of_In. specialize (H1 a Ha). by rewrite andb_true_iff, negb_true_iff, bool_decide_eq_false, bool_decide_eq_true in H1.
  - intros c Hc%list_elem_of_In. by apply Z.leb_le, H3.
Qed.

(** The file _a of two reads and the file b of one. *)
Definition m_files : list arg := [mk_arg [95; 97] (Some [[1; 2; 3]; [4; 5]]); mk_arg [98] (Some [replicate 512 7; [8]])].
Definition m_io (n : Z) : bool := true.
Definition m_start : mkst := mk_mkst [] 0 0.
(** Thirty empty files. *)
Definition m_many : list arg := replicate 30 (mk_arg [97] (Some [])).

Lemma mkfs_correct_witness : ∃ s Y, main m_io (Some true) m_files m_start = Ret tt s ∧
  holds_files (sectors s) 63 Y [root_bytes m_files; [1; 2; 3; 4; 5]; replicate 512 7 ++ [8]].
Proof.
  destruct (mkfs_correct m_io ltac:(done) m_files m_start) as (s & Y & E & _ & H); [apply usableb_ok; by vm_compute|]. exists s, Y. split; [exact E|exact H].
Defined.

Lemma mkfs_root_hole_witness : ∃ s d bn, main m_io (Some true) m_many m_start = Ret tt s ∧ inode_at make_sb (sectors s) ROOTINO = Some d ∧
  0 ≤ bn ∧ bn * BSIZE < d_size d ∧ fb (sectors s) (ino d) bn = 0.
Proof. apply (mkfs_root_hole m_io m_many m_start); [done|apply usableb_ok; by vm_compute|done]. Defined.

(** ** A kernel on the image *)

Definition img_of (o : out mkst unit) : list (list Z) := match o with Ret _ t => img t | _ => [] end.
Definition m_img : list (list Z) := img_of (main m_io (Some true) m_files m_start).
Lemma m_img_sizes n d : m_img !! n = Some d → length d = 512%nat.
Proof.
  assert (forallb (fun d => (length d =? 512)%nat) m_img = true) as H by by vm_compute. rewrite forallb_forall in H.
  intros Hd. apply list_elem_of_lookup_2, list_elem_of_In, H in Hd. by apply Nat.eqb_eq.
Qed.

(** A kernel just booted on a disk: the locks of the inodes are initialised and
    the super block is read. *)
Definition m_locks : gmap Z sleeplock := list_to_map ((fun i => (inode_lock i, mk_sleeplock 0 "inode" 0)) <$> seq 0 NINODE).
Definition booted_on (D : list (list Z)) (x : superblock) : kres := (k_booted D) <| slocks ::= fun m => m ∪ m_locks |> <| sb := x |>.

Lemma rebooted_idle me r ls D : rebooted me r ls D → idle me r.
Proof.
  intros [_ [l HC] Hd _]. split; [by exists l|]. exists []. split; [|cbn; unfold NBUF; lia].
  intros m Hm. exfalso. by apply (Hd m), elem_of_nil in Hm.
Qed.
Lemma more_locks_idle me r ls x : idle me r → (∀ b, (b < NBUF)%nat → is_Some (slocks r !! buf_lock b)) → idle me (r <| slocks ::= fun m => m ∪ ls |> <| sb := x |>).
Proof.
  intros H Hb. apply (idle_frame me r); [done|done|done|]. intros b Hlt. destruct (Hb b Hlt) as [k Hk]. rewrite Hk. by apply lookup_union_Some_l.
Qed.
Lemma unused_view r n : (∀ b x, bufs r !! b = Some x → bdev x = 0) → view r n = memdisk r !! Z.to_nat n.
Proof.
  intros H. unfold view. destruct (pick (bufs r) (cached 1 n) (seq 0 NBUF)) as [b|] eqn:E; [|done]. apply pick_Some in E as (_ & x & Hx & Hc).
  apply H in Hx. unfold cached in Hc. by rewrite Hx in Hc.
Qed.
Lemma m_buf_locks b : (b < NBUF)%nat → is_Some (slocks k_cache !! buf_lock b).
Proof.
  intros Hb. assert (forallb (fun b => some (slocks k_cache !! buf_lock b)) (seq 0 NBUF) = true) as H by (vm_compute; reflexivity). rewrite forallb_forall in H.
  specialize (H b ltac:(apply in_seq; lia)). destruct (slocks k_cache !! buf_lock b); [by eexists|done].
Qed.
Definition unlocked (m : gmap Z sleeplock) (i : nat) : bool := match m !! inode_lock i with Some k => sl_locked k =? 0 | None => false end.
Lemma unlocked_ok m i : unlocked m i = true → ∃ k, m !! inode_lock i = Some k ∧ sl_locked k = 0.
Proof. unfold unlocked. destruct (m !! inode_lock i) as [k|]; [|done]. intros E%Z.eqb_eq. by exists k. Qed.
Lemma m_inode_locks i : (i < NINODE)%nat → ∃ k, (slocks k_cache ∪ m_locks) !! inode_lock i = Some k ∧ sl_locked k = 0.
Proof.
  intros Hi. assert (forallb (unlocked (slocks k_cache ∪ m_locks)) (seq 0 NINODE) = true) as H by (vm_compute; reflexivity). rewrite forallb_forall in H.
  apply unlocked_ok, H, in_seq. lia.
Qed.

Lemma m_slots i y : inodes k_cache !! i = Some y → i_ref y = 0.
Proof.
  assert (forallb (fun y => i_ref y =? 0) (inodes k_cache) = true) as H by (vm_compute; reflexivity). rewrite forallb_forall in H. intros Hy. apply list_elem_of_lookup_2, list_elem_of_In, H in Hy. by apply Z.eqb_eq.
Qed.
Lemma m_slot_counts : length (inodes k_cache) = NINODE ∧ frees (inodes k_cache) = 50.
Proof. split; vm_compute; reflexivity. Qed.

(** No inode is in use. *)
Lemma fresh_icache me r V N x : idle me r → (∀ n, view r n = V n) → length (memdisk r) = N → sb r = x → length (inodes r) = NINODE → (∀ i y, inodes r !! i = Some y → i_ref y = 0) →
  (∀ i, (i < NINODE)%nat → ∃ k, slocks r !! inode_lock i = Some k ∧ sl_locked k = 0) → icache me V N x None r.
Proof.
  intros H1 H2 H3 H4 H5 H6 H7. split; try done.
  - intros i y Hy. rewrite (H6 _ _ Hy). split; [done|]. intros ?. lia.
  - intros i j y z Hy _ Hr. rewrite (H6 _ _ Hy) in Hr. lia.
Qed.
Lemma disk_icache me r D lg ls x : idle me (r <| memdisk := D |> <| log := lg |>) → (∀ b, (b < NBUF)%nat → is_Some (slocks r !! buf_lock b)) → (∀ b x, bufs r !! b = Some x → bdev x = 0) →
  length (inodes r) = NINODE → (∀ i y, inodes r !! i = Some y → i_ref y = 0) → (∀ i, (i < NINODE)%nat → ∃ k, (slocks r ∪ ls) !! inode_lock i = Some k ∧ sl_locked k = 0) →
  icache me (fun n => D !! Z.to_nat n) (length D) x None (r <| memdisk := D |> <| log := lg |> <| slocks ::= fun m => m ∪ ls |> <| sb := x |>).
Proof. intros H1 H2 H3 H4 H5 H6. apply fresh_icache; [by apply more_locks_idle|by intros n; apply unused_view|done..]. Qed.
Lemma booted_icache D x : (∀ n d, D !! n = Some d → length d = 512%nat) → icache (pid k_proc) (fun n => D !! Z.to_nat n) (length D) x None (booted_on D x).
Proof. intros HD. exact (disk_icache _ k_cache D k_log m_locks x (rebooted_idle _ _ _ _ (k_booted_ok D HD)) m_buf_locks k_cache_unused (proj1 m_slot_counts) m_slots m_inode_locks). Qed.

Lemma m_refs D x n : refs (inodes (booted_on D x)) n = 0.
Proof.
  change (inodes (booted_on D x)) with (inodes k_cache). assert (∀ l, (∀ y, y ∈ l → i_ref y = 0) → refs l n = 0) as H.
  { induction l as [|y l IH]; intros Hl; [done|]. cbn. rewrite IH by (intros z Hz; apply Hl; by right). unfold ref_to. rewrite (Hl y) by (by left). by destruct (i_inum y =? n). }
  apply H. intros y (i & Hy)%list_elem_of_lookup_1. by eapply m_slots.
Qed.
Lemma m_frees D x : 2 ≤ frees (inodes (booted_on D x)).
Proof. change (inodes (booted_on D x)) with (inodes k_cache). rewrite (proj2 m_slot_counts). lia. Qed.

Definition m_kernel : kres := booted_on m_img make_sb.
Definition m_path : list Z := [47; 47; 98].
Lemma m_names a : a ∈ m_files → chars (stored_name a).
Proof. intros Ha. apply list_elem_of_In in Ha. cbn in Ha. destruct Ha as [<-|[<-|[]]]; by repeat constructor. Qed.


(** The image as a tree of directories. *)
Lemma m_tree : ∃ t Y F, img t = m_img ∧ holds_files (sectors t) F Y (image_files m_files).
Proof.
  destruct (mkfs_run m_io (fun _ => eq_refl) m_files m_start) as (t & Y & E & _ & H); [apply usableb_ok; vm_compute; reflexivity|]. exists t, Y. eexists. split; [|exact H].
  unfold m_img. by rewrite E.
Qed.
Lemma m_usable : usable m_files ∧ (Z.of_nat (length m_files) + 2) mod 32 ≠ 0.
Proof. split; [apply usableb_ok; vm_compute; reflexivity|vm_compute; congruence]. Qed.
Definition no_inode : inode := mk_inode 0 0 0 0 0 0 0 0 0 [].
Lemma m_search t Y F : img t = m_img → holds_files (sectors t) F Y (image_files m_files) →
  can_search (q := k_proc) (V := sectors t) (N := length m_img) (x := make_sb) (image_inode (files := m_files)) m_kernel m_path 0 no_inode ∧
  resolve (V := sectors t) (x := make_sb) false ROOTINO [[98]] = Some 3.
Proof.
  intros Ht H. destruct m_usable as [HU Hm]. assert (length m_img = Z.to_nat FSSIZE) as Hl by (vm_compute; reflexivity). split.
  - split; [rewrite Hl; exact (image_tree H HU Hm m_names)|unfold sectors; rewrite Ht; exact (booted_icache m_img make_sb m_img_sizes)|exact (m_frees m_img make_sb)|unfold image_inode; vm_compute; split; congruence|].
    intros Hh. exfalso. apply Hh. reflexivity.
  - rewrite (root_resolve H HU Hm m_names) by congruence. vm_compute. reflexivity.
Qed.

(** The path //b leads to inode 3, and the reference to the root is given back. *)
Lemma namei_correct_witness : ∃ ip r', namei (m_path ++ [0]) (k_state m_kernel) = Ret (Some ip) (k_state r') ∧ refs (inodes r') 3 = 1 ∧ refs (inodes r') 1 = 0.
Proof.
  destruct m_tree as (t & Y & F & Ht & H). destruct (m_search t Y F Ht H) as [HC Hres].
  destruct (namei_correct k_in_memory (k_solo m_kernel) _ m_path (replicate DIRSIZ 0) m_kernel 0 no_inode HC) as [(a & r' & En & _ & Hf & Hr) _];
    [by repeat constructor|reflexivity|by repeat constructor|].
  change (components m_path) with [[98]] in Hf, Hr. change (start_inode m_path no_inode) with ROOTINO in Hf, Hr. rewrite Hres in Hf, Hr. destruct Hf as (ip & y & -> & _).
  exists ip, r'. split; [exact En|]. rewrite !Hr. unfold m_kernel. rewrite !m_refs. split; (vm_compute; reflexivity).
Defined.
