(* ===== verification/VmExamples.v ===== *)
(** * Concrete address spaces

    A kernel with 1200 free pages, an empty page directory, and the address
    space of a process with one page.  The theorems on page tables, on address
    spaces and on the arguments of system calls are applied at these states. *)

From S2P Require Import Prelude Machine Spinlock CString ProcTable Proc Lifecycle Ready Aging.
From S2P Require Import ProcLemmas Scheduler Reach Blocking Examples Kstate Sleeplock Solo Devices Disk Bio Cache.
From S2P Require Import Layout Log Kalloc Vm PageTable AddrSpace Grow Exec Syscall Args X86 X86Lemmas Paging KernelExamples FsExamples.

#[local] Existing Instance k_link.
#[local] Existing Instance k_disk.
#[local] Existing Instance f_hw.

Lemma v_link : link_ok.
Proof. split; cbn [kdata kend k_link]; by vm_compute. Qed.

(** ** Free memory *)

Definition v_base : Z := 0x80400000.
Definition v_pages (n : nat) : list Z := pages_from v_base n.
(** The pages freed one after the other, the first one last. *)
Definition v_freed (n : nat) : kres := foldr freed k_cache (v_pages n).

Lemma v_page_ok i : 0 ≤ i < 2000 → page_ok (v_base + PGSIZE * i).
Proof.
  intros Hi. unfold page_ok, v_base, PGSIZE, V2P, u32, PHYSTOP, KERNBASE. cbn [kend k_link]. rewrite (Z.mod_small _ (2 ^ 32)) by lia. split; [|lia].
  rewrite Z.mul_comm, Z.mod_add by lia. done.
Qed.

Lemma v_pages_ok n : (n ≤ 2000)%nat → Forall page_ok (v_pages n) ∧ NoDup (v_pages n).
Proof.
  intros Hn. split.
  - apply Forall_fmap, Forall_forall. intros i Hi%elem_of_seq. apply v_page_ok. lia.
  - apply NoDup_fmap_2; [|apply NoDup_seq]. intros i j H. unfold PGSIZE in H. lia.
Qed.

Lemma foldr_freed r l0 l : kmem_ok r l0 → Forall page_ok l → NoDup (l ++ l0) → kmem_ok (foldr freed r l) (l ++ l0).
Proof.
  intros H Hl Hn. induction Hl as [|v l Hv Hl IH]; [done|]. cbn in *. apply NoDup_cons in Hn as [Hv' Hn]. apply kmem_ok_freed; auto.
Qed.

Lemma v_freed_ok n : (n ≤ 2000)%nat → kmem_ok (v_freed n) (v_pages n).
Proof.
  intros Hn. destruct (v_pages_ok n Hn) as [H1 H2]. rewrite <- (app_nil_r (v_pages n)). apply foldr_freed; [apply k_nomem|done|by rewrite app_nil_r].
Qed.

Lemma freed_bytes v r : bytes (pmem r) → bytes (pmem (freed v r)).
Proof. intros H. destruct (freed_remem v r) as (m & -> & [_ Hm]). by apply Hm. Qed.
Lemma v_freed_bytes n : bytes (pmem (v_freed n)).
Proof. unfold v_freed. induction (v_pages n) as [|v l IH]; cbn [foldr]; [|by apply freed_bytes].
  intros a. assert (pmem k_cache a = 0) as -> by (vm_compute; reflexivity). lia. Qed.

(** ** An address space

    The first page is the directory, the second the frame of the page at 0, the
    third a page table; the rest is free. *)

Definition v_dir : Z := v_base.
Definition v_frame : Z := v_base + PGSIZE.
Definition v_table : Z := v_base + 2 * PGSIZE.
Definition v_free (n : nat) : list Z := pages_from (v_base + 3 * PGSIZE) n.

Lemma v_pages_3 n : v_pages (3 + n) = v_dir :: v_frame :: v_table :: v_free n.
Proof. unfold v_pages, v_free. cbn [Nat.add]. rewrite !pages_from_S. repeat f_equal; unfold v_frame, v_table, PGSIZE; lia. Qed.

(** A new directory, *)
Definition v_empty (n : nat) : kres := let r := v_freed (3 + n) in remem r (memset (pmem r) (V2P v_dir) 0 PGSIZE) (load32 (pmem r) (V2P v_dir)).
Lemma v_empty_vm n : (n ≤ 1900)%nat → vm (v_empty n) (v_frame :: v_table :: v_free n) v_dir ∅ ∧ ∀ m k, pte m ∅ k = 0.
Proof.
  intros Hn. pose proof (v_freed_ok (3 + n) ltac:(lia)) as H. rewrite v_pages_3 in H. split; [exact (proj1 (vm_new _ _ _ H))|]. intros m k. unfold pte. by rewrite lookup_empty.
Qed.
Lemma v_empty_uvm n : (n ≤ 1900)%nat → uvm (v_empty n) (v_frame :: v_table :: v_free n) v_dir ∅ ∅.
Proof. intros Hn. destruct (v_empty_vm n Hn) as [H1 H2]. split; [done|done| |done]. intros k _ _. by rewrite H2. Qed.
Lemma v_empty_bytes n : bytes (pmem (v_empty n)).
Proof. apply (sb_bytes _ _ _ (same_but_memset v_dir 0 _)), v_freed_bytes. Qed.

(** the frame of the page at 0, filled with zeros, *)
Definition v_zeroed (n : nat) : kres := let r := v_empty n in remem r (memset (pmem r) (V2P v_frame) 0 PGSIZE) (load32 (pmem r) (V2P v_frame)).
(** a page table for the first four megabytes, *)
Definition v_tabled (n : nat) : kres :=
  let r := v_zeroed n in remem r (store32 (memset (pmem r) (V2P v_table) 0 PGSIZE) (V2P v_dir + 4 * 0) (V2P v_table + 7)) (load32 (pmem r) (V2P v_table)).
(** and its first entry. *)
Definition v_space (n : nat) : kres := let r := v_tabled n in r <| pmem := store32 (pmem r) (V2P v_table + 4 * (0 mod 1024)) (V2P v_frame + 7) |>.

Definition v_tables : gmap Z Z := <[0 := v_table]> ∅.
Definition v_user : gmap Z (Z * Z) := <[0 := (v_frame, 7)]> ∅.

Lemma v_space_uvm n : (n ≤ 1900)%nat → uvm (v_space n) (v_free n) v_dir v_tables v_user.
Proof.
  intros Hn. destruct (zero_page _ _ _ _ _ _ (v_empty_uvm n Hn)) as (H1 & _ & Hf & Hfl & Hfs & _). fold (v_zeroed n) in H1.
  destruct (vm_add_table _ _ _ _ _ 0 (u_vm _ _ _ _ _ H1) ltac:(lia) (lookup_empty _)) as (H2 & _ & M & Hp2). fold v_tables in H2, M, Hp2.
  change (remem (v_zeroed n) _ _) with (v_tabled n) in H2.
  destruct (vm_set_pte (v_tabled n) (v_free n) v_dir v_tables 0 v_table (V2P v_frame + 7) H2 ltac:(lia) (lookup_insert_eq _ _ _)) as (H3 & _ & Hp3).
  apply (uvm_insert (v_zeroed n) (v_table :: v_free n) v_dir ∅ ∅ (v_space n) (v_free n) v_tables [v_table] 0 v_frame 7 H1 H3 M); [done|done|done|done|done|lia|done|].
  intros k Hk. etransitivity; [exact (Hp3 k ltac:(lia))|]. destruct (decide (k = 0)); [by vm_compute|]. apply Hp2. lia.
Qed.

Lemma v_space_bytes n : bytes (pmem (v_space n)).
Proof.
  assert (bytes (pmem (v_zeroed n))) as H by (apply (sb_bytes _ _ _ (same_but_memset v_frame 0 _)), v_empty_bytes).
  apply (sb_bytes _ _ _ (same_but_store32 v_table 0 (V2P v_frame + 7) _ ltac:(lia))), (sb_bytes _ _ _ (same_but_store32 v_dir 0 (V2P v_table + 7) _ ltac:(lia))).
  apply (sb_bytes _ _ _ (same_but_memset v_table 0 _)), H.
Qed.

Definition v_many : nat := 1150.
Lemma v_many_le : (v_many ≤ 1900)%nat.
Proof. unfold v_many. lia. Qed.
Lemma v_many_len : length (v_free v_many) = v_many.
Proof. unfold v_free, pages_from. by rewrite length_fmap, length_seq. Qed.

(** ** The theorems *)

(** Two pages at 0x2ff8, mapped at 0x400000 of the physical memory; the page
    that is mapped already. *)
Lemma mappages_correct_witness :
  (∃ m f, mappages v_dir 0x2ff8 16 0x400000 PTE_W (k_state (v_space v_many)) = Ret 0 (k_state (remem (v_space v_many) m f)) ∧
    PageTable.translate m v_dir 0x2ffc = Some (0x400ffc, 3) ∧ PageTable.translate m v_dir 0x3004 = Some (0x401004, 3)) ∧
  mappages v_dir 0 4096 0x400000 PTE_W (k_state (v_space v_many)) = Panic "remap".
Proof.
  pose proof (v_space_uvm v_many v_many_le) as H. split.
  - destruct (mappages_correct (k_solo (v_space v_many)) 0x2ff8 16 0x400000 PTE_W (v_space v_many) _ _ _ (u_vm _ _ _ _ _ H)) as [_ W]; [vm_compute; (reflexivity || congruence || (split; congruence))..|].
    destruct W as (x & m & f & l' & T' & new & j & E & V & M & _ & O & P).
    { intros k Hk. assert (2 ≤ k ≤ 3) by exact Hk. apply (u_none _ _ _ _ _ H k); unfold UPAGES; [lia|]. unfold v_user. rewrite lookup_insert_ne by lia. apply lookup_empty. }
    assert (x = 0 ∧ j = 2) as [-> ->].
    { destruct O as [[-> ->]|(_ & _ & ->)]; [split; reflexivity|]. exfalso. pose proof (tables_bound _ _ _ _ V) as B. pose proof (mt_size _ _ _ _ _ M) as S. pose proof (mt_taken _ _ _ _ _ M) as L.
      rewrite app_nil_r in L. rewrite <- L, v_many_len in S. unfold v_many in S. lia. }
    exists m, f. split; [exact E|]. split; (rewrite P by lia; vm_compute; reflexivity).
  - apply (mappages_correct (k_solo (v_space v_many)) 0 4096 0x400000 PTE_W (v_space v_many) _ _ _ (u_vm _ _ _ _ _ H)); [vm_compute; (reflexivity || congruence || (split; congruence))..|].
    destruct (u_some _ _ _ _ _ H 0 v_frame 7 (lookup_insert_eq _ _ _)) as (_ & _ & _ & _ & _ & _ & Hp). change (0 / 4096) with 0. rewrite Hp. vm_compute. reflexivity.
Defined.

(** The kernel half of a new directory: the first megabyte is mapped at
    KERNBASE, and no user address is mapped. *)
Lemma setupkvm_correct_witness :
  ∃ x m f, setupkvm (k_state (v_freed 1100)) = Ret x (k_state (remem (v_freed 1100) m f)) ∧
    PageTable.translate m x 0 = None ∧ PageTable.translate m x (KERNBASE + 5) = Some (5, 3).
Proof.
  destruct (setupkvm_correct v_link (k_solo (v_freed 1100)) (v_freed 1100) (v_pages 1100) (v_freed_ok 1100 ltac:(lia))) as (x & m & f & E & _ & [(_ & Hl & _)|(l' & T & _ & _ & Hu & Hk)]).
  - exfalso. unfold v_pages, pages_from in Hl. rewrite length_fmap, length_seq in Hl. lia.
  - exists x, m, f. split; [exact E|]. split; [apply Hu; unfold KERNBASE; lia|]. rewrite Hk by (unfold KERNBASE; lia). vm_compute. reflexivity.
Defined.

Lemma v_first_page k : 0 ≤ k < (4096 + 4095) / 4096 → is_Some (v_user !! k).
Proof. intros Hk. assert (k = 0) as -> by (change ((4096 + 4095) / 4096) with 1 in Hk; lia). eexists. apply lookup_insert_eq. Qed.

(** The child of a process of one page. *)
Lemma copyuvm_correct_witness :
  ∃ x m f, copyuvm v_dir 4096 (k_state (v_space v_many)) = Ret x (k_state (remem (v_space v_many) m f)) ∧ same_contents (pmem (v_space v_many)) m v_dir x 1.
Proof.
  destruct (copyuvm_correct v_link (k_solo (v_space v_many)) (v_space v_many) (v_free v_many) v_dir v_tables v_user 4096 (v_space_uvm v_many v_many_le) (v_space_bytes v_many)) as (x & m & f & E & _ & [(_ & Hl & _)|(l' & T & U & _ & _ & Hs)]).
  - unfold KERNBASE. lia.
  - apply v_first_page.
  - exfalso. rewrite v_many_len in Hl. change ((4096 + 4095) / 4096) with 1 in Hl. unfold v_many in Hl. lia.
  - exists x, m, f. split; [exact E|exact Hs].
Defined.


(** and shrinks to nothing. *)
Lemma deallocuvm_correct_witness :
  ∃ m f, deallocuvm v_dir 4096 0 (k_state (v_space v_many)) = Ret 0 (k_state (remem (v_space v_many) m f)) ∧ PageTable.translate m v_dir 9 = None.
Proof.
  destruct (deallocuvm_correct v_link (k_solo (v_space v_many)) (v_space v_many) (v_free v_many) v_dir v_tables v_user 4096 0 (v_space_uvm v_many v_many_le)) as [_ W].
  - lia.
  - unfold KERNBASE. lia.
  - destruct W as (m & f & l' & U & E & _ & Hn & _); [lia|]. exists m, f. split; [exact E|]. apply Hn. split; [vm_compute; congruence|vm_compute; reflexivity].
Defined.

(** ** The arguments of a system call *)

(** The first process, with the address space of one page and its stack pointer
    at 4000. *)
Definition v_proc : proc := k_proc <| pgdir := v_dir |> <| sz := 4096 |> <| tf ::= fun t => t <| t_esp := 4000 |> |>.
Definition with_proc (s : kstate) (p : nat) (q : proc) : kstate := s <| ptable ::= fun t => t <| procs ::= <[p := q]> |> |>.
Definition v_state (r : kres) : kstate := with_proc (k_state r) 0 v_proc.

Lemma solo_proc_set s c p u q q' : solo s c p u q → state q' ≠ SLEEPING → solo (with_proc s p q') c p u q'.
Proof.
  intros [H1 H2 H3 H4 H5 H6 H7 H8 H9] Hq. pose proof (lookup_lt_Some _ _ _ H5) as Hlt. split; [done|done|done|done| |done|done| |]; cbn.
  - by apply list_lookup_insert_eq.
  - by rewrite length_insert.
  - intros i p' Hp. destruct (decide (i = p)) as [->|Hi].
    + rewrite list_lookup_insert_eq in Hp by done. by assert (p' = q') as -> by congruence.
    + rewrite list_lookup_insert_ne in Hp by done. by eapply H9.
Qed.
Lemma v_solo r : solo (v_state r) 0 0 run_cpu0 v_proc.
Proof. apply (solo_proc_set _ _ _ _ k_proc); [apply k_solo|vm_compute; congruence]. Qed.

Lemma v_user_ok : user_ok (v_space v_many) (v_free v_many) v_proc v_tables v_user.
Proof. split; [exact (v_space_uvm v_many v_many_le)|vm_compute; split; congruence|apply v_first_page]. Qed.

Definition v_run : kstate := with_res (v_state (v_space v_many)) (v_space v_many).
(** The 50th argument would be beyond the memory; a buffer of 5000 bytes does not
    fit; a string ends inside the memory or is refused. *)
Lemma arguments_checked_witness :
  argint 50 v_run = Ret None v_run ∧
  argptr 1 5000 v_run = Ret None v_run ∧
  ∃ o, argstr 1 v_run = Ret o v_run.
Proof.
  destruct (arguments_checked (v_solo (v_space v_many)) v_user_ok 50 0 ltac:(lia)) as (H1 & _).
  destruct (arguments_checked (v_solo (v_space v_many)) v_user_ok 1 5000 ltac:(lia)) as (_ & H2 & o & H3 & _). split; [|split].
  - unfold arg_word in H1. rewrite decide_False in H1 by (vm_compute; congruence). exact H1.
  - destruct (arg_word 1) as [w|]; [|exact H2]. cbn [mbind option_bind] in H2. rewrite decide_False in H2; [exact H2|].
    change (sz v_proc) with 4096. pose proof (Z.mod_pos_bound w (2 ^ 32) ltac:(lia)). unfold u32. lia.
  - exists o. exact H3.
Defined.

(** ** The paging unit on these tables *)

Definition v_ctl (d : Z) : ctl := mk_ctl (Z.lor CR0_PE (Z.lor CR0_PG CR0_WP)) (V2P d) 0.
Lemma v_paged d : paged (v_ctl d) d.
Proof. by split. Qed.


Lemma child_isolated_witness :
  ∃ x m f, copyuvm v_dir 4096 (k_state (v_space v_many)) = Ret x (k_state (remem (v_space v_many) m f)) ∧
    xlate (v_ctl x) m true true KERNBASE = None ∧ xlate (v_ctl x) m true false 5000 = None.
Proof.
  destruct (child_isolated v_link (k_solo (v_space v_many)) (v_space v_many) (v_free v_many) v_dir v_tables v_user 4096 (v_space_uvm v_many v_many_le) (v_space_bytes v_many)) as (x & m & f & E & [(_ & Hl)|(T & _ & H)]).
  - unfold KERNBASE. lia.
  - apply v_first_page.
  - exfalso. rewrite v_many_len in Hl. change ((4096 + 4095) / 4096) with 1 in Hl. unfold v_many in Hl. lia.
  - exists x, m, f. split; [exact E|]. destruct (H (v_ctl x) (v_paged x)) as [_ Hu]. split.
    + specialize (Hu true KERNBASE ltac:(unfold KERNBASE; lia)). destruct (xlate _ _ _ _ _); [|reflexivity]. destruct Hu as [Hu _]. exfalso. vm_compute in Hu. congruence.
    + specialize (Hu false 5000 ltac:(lia)). destruct (xlate _ _ _ _ _); [|reflexivity]. destruct Hu as [Hu _]. exfalso. vm_compute in Hu. congruence.
Defined.
