(* ===== verification/AsmExamples.v ===== *)
(** * A machine for the assembly sources

    The theorems on the assembly sources applied at a concrete machine: the
    sources assembled at fixed addresses, the kernel mapped by 4 MB pages, the
    tables of the processor as tvinit(), seginit() and switchuvm() make them
    and one page of user memory. *)

From S2P Require Import Prelude Machine Spinlock CString ProcTable Proc Lifecycle Kstate.
From S2P Require Import Sleeplock Devices Disk Bio Layout Log Inode Console Kbd Fs Kalloc File Vm PageTable Env Exec Bootmain Syscall Trap Boot.
From S2P Require Import X86 X86Lemmas Swtch Trapasm Inline Start Ucode BootAsm Examples KernelExamples.

#[local] Instance reg_dec : EqDecision reg.
Proof. solve_decision. Defined.
#[local] Instance sreg_dec : EqDecision sreg.
Proof. solve_decision. Defined.
#[local] Instance creg_dec : EqDecision creg.
Proof. solve_decision. Defined.
#[local] Instance opnd_dec : EqDecision opnd.
Proof. solve_decision. Defined.
#[local] Instance instr_dec : EqDecision instr.
Proof. solve_decision. Defined.

(** An assembler whose instructions all have 4 bytes: the code, the labels and
    the data of a source at an address. *)
Fixpoint assemble (md : bool) (a : Z) (l : list item) : list (Z * (bool * instr * Z)) :=
  match l with
  | [] => []
  | Ins i :: l' => (a, (md, i, 4)) :: assemble md (u32 (a + 4)) l'
  | Rel k t :: l' => (a, (md, k (t - (a + 4)), 4)) :: assemble md (u32 (a + 4)) l'
  | Lbl _ :: l' => assemble md a l'
  | Bytes d :: l' => assemble md (u32 (a + Z.of_nat (length d))) l'
  | Align n :: l' => assemble md (u32 ((a + n - 1) / n * n)) l'
  | Code16 :: l' => assemble false a l'
  | Code32 :: l' => assemble true a l'
  end.
Fixpoint labels (a : Z) (l : list item) : list (string * Z) :=
  match l with
  | [] => []
  | (Ins _ | Rel _ _) :: l' => labels (u32 (a + 4)) l'
  | Lbl n :: l' => (n, a) :: labels a l'
  | Bytes d :: l' => labels (u32 (a + Z.of_nat (length d))) l'
  | Align n :: l' => labels (u32 ((a + n - 1) / n * n)) l'
  | (Code16 | Code32) :: l' => labels a l'
  end.
Fixpoint data_of (a : Z) (l : list item) : list (Z * Z) :=
  match l with
  | [] => []
  | (Ins _ | Rel _ _) :: l' => data_of (u32 (a + 4)) l'
  | Lbl _ :: l' => data_of a l'
  | Bytes d :: l' => imap (fun i b => (a + Z.of_nat i, b)) d ++ data_of (u32 (a + Z.of_nat (length d))) l'
  | Align n :: l' => data_of (u32 ((a + n - 1) / n * n)) l'
  | (Code16 | Code32) :: l' => data_of a l'
  end.

(** A test for [placed]. *)
Fixpoint placedb (sym : string → Z) (at_ : text) (m : Z → Z) (md : bool) (a : Z) (l : list item) : bool :=
  match l with
  | [] => true
  | Lbl n :: l' => (sym n =? a) && placedb sym at_ m md a l'
  | Ins i :: l' => match at_ a with Some (md', i', n) => eqb md' md && bool_decide (i' = i) && placedb sym at_ m md (u32 (a + n)) l' | None => false end
  | Rel k t :: l' => match at_ a with Some (md', i', n) => eqb md' md && bool_decide (i' = k (t - (a + n))) && placedb sym at_ m md (u32 (a + n)) l' | None => false end
  | Bytes d :: l' => forallb (fun i => m (a + Z.of_nat i) =? default (-1) (d !! i)) (seq 0 (length d)) && placedb sym at_ m md (u32 (a + Z.of_nat (length d))) l'
  | Align n :: l' => placedb sym at_ m md (u32 ((a + n - 1) / n * n)) l'
  | Code16 :: l' => placedb sym at_ m false a l'
  | Code32 :: l' => placedb sym at_ m true a l'
  end.

Lemma placedb_sound sym at_ m md a l : placedb sym at_ m md a l = true → placed sym at_ m md a l.
Proof.
  revert md a. induction l as [|[n|i|k t|d|n| |] l IH]; intros md a H; cbn [placed placedb] in *; [done|..|by apply IH|by apply IH|by apply IH].
  - apply andb_true_iff in H as [H1%Z.eqb_eq H2]. eauto.
  - destruct (at_ a) as [[[md' i'] n]|]; [|done]. apply andb_true_iff in H as [[H1%eqb_prop H2%bool_decide_eq_true_1]%andb_true_iff H3]. subst. eauto.
  - destruct (at_ a) as [[[md' i'] n]|]; [|done]. apply andb_true_iff in H as [[H1%eqb_prop H2%bool_decide_eq_true_1]%andb_true_iff H3]. subst. eauto.
  - apply andb_true_iff in H as [H1 H2]. split; [|by apply IH]. intros i b Hi. rewrite forallb_forall in H1.
    specialize (H1 i). rewrite Hi in H1. cbn in H1. apply Z.eqb_eq, H1, in_seq. apply lookup_lt_Some in Hi. lia.
Qed.

(** ** The page tables *)

(** 4 MB pages map the physical memory at KERNBASE. *)
Lemma large_kspace W c m : protected c = true → has (c_cr0 c) CR0_PG = true → has (c_cr4 c) CR4_PSE = true →
  (∀ i, 0 ≤ i < 56 → load32 m (PTE_ADDR (c_cr3 c) + 4 * (512 + i)) = 4194304 * i + 0x83) →
  (∀ p, PTE_ADDR (c_cr3 c) ≤ p < PTE_ADDR (c_cr3 c) + 4096 → ¬ W p) → kspace W c m.
Proof.
  intros Hp H0 H4 Hm HW. assert (∀ m' w a, agree W m m' → kva a 1 → xlate c m' false w a = Some (a - KERNBASE)) as H.
  { intros m' w a Ha Hk. unfold kva, KERNBASE, PHYSTOP in Hk. unfold xlate. rewrite H0. cbn [negb]. rewrite PDX_div, Z.div_div by lia. change (4096 * 1024) with 4194304.
    pose proof (Z.div_mod a 4194304 ltac:(lia)) as Hd. pose proof (Z.mod_pos_bound a 4194304 ltac:(lia)). set (i := a / 4194304 - 512). assert (0 ≤ i < 56) as Hi by lia.
    replace (a / 4194304) with (512 + i) by lia. rewrite (load32_ext m' m) by (intros p Hq; apply Ha, HW; lia). rewrite Hm by done.
    assert (has (4194304 * i + 131) PTE_P = true ∧ has (4194304 * i + 131) PTE_PS = true ∧ allowed c false w (4194304 * i + 131) = true ∧ Z.land (4194304 * i + 131) 0xFFC00000 = 4194304 * i) as (-> & -> & -> & ->).
    { assert (∃ k, i = Z.of_nat k ∧ (k < 56)%nat) as (k & -> & Hk') by (exists (Z.to_nat i); lia). unfold allowed. clear -Hk'. do 56 (destruct k as [|k]; [by destruct w, (has (c_cr0 c) CR0_WP)|]). lia. }
    rewrite H4. cbn [negb andb]. f_equal. change (2 ^ 22) with 4194304. unfold KERNBASE. lia. }
  split; [done|intros m' Ha a Hk; by apply H|intros m' Ha a Hk _; by apply H].
Qed.

(** A page table at 0x2000 maps the first page to 0x200000. *)
Lemma a_first_page c m : has (c_cr0 c) CR0_PG = true → PTE_ADDR (c_cr3 c) = 0x1000 → load32 m 0x1000 = 0x2007 → load32 m 0x2000 = 0x200007 → upage 0x200000 c m.
Proof.
  intros H0 H3 H1 H2 m' Ha w a Hr. unfold PGSIZE in *. unfold xlate. rewrite H0, H3. cbn [negb].
  assert (PDX a = 0 ∧ PTX a = 0) as [-> ->] by (unfold PDX, PTX; rewrite !Z.shiftr_div_pow2 by lia; rewrite !Z.div_small by lia; done).
  change (0x1000 + 4 * 0) with 0x1000. rewrite (load32_ext m' m), H1 by (intros p Hq; apply Ha; lia). change (negb (has 0x2007 PTE_P)) with false. change (has 0x2007 PTE_PS) with false. cbn [andb].
  change (PTE_ADDR 0x2007 + 4 * 0) with 0x2000. rewrite (load32_ext m' m), H2 by (intros p Hq; apply Ha; lia). change (negb (has 0x200007 PTE_P)) with false.
  assert (allowed c true w 0x2007 && allowed c true w 0x200007 = true) as -> by by destruct w. change (PTE_ADDR 0x200007) with 0x200000. unfold PGSIZE. by rewrite Z.mod_small.
Qed.

(** ** The machine *)

Definition a_kernel (sym : string → Z) : list item := swtch_S ++ alltraps_S sym ++ trapret_S ++ vectors_S sym ++ [Lbl "trap"; Lbl "forkret"]%string.
Definition a_user (sym : string → Z) : list item := initcode_S sym.
Definition a_sym (a : Z) (src : (string → Z) → list item) : gmap string Z := list_to_map (labels a (src (fun _ => 0))).
Definition a_kmap : gmap string Z := a_sym 0x80100000 a_kernel.
Definition a_ksym (n : string) : Z := default 0 (a_kmap !! n).
Definition a_umap : gmap string Z := a_sym 0 a_user.
Definition a_usym (n : string) : Z := default 0 (a_umap !! n).
Definition a_smap : gmap string Z := a_sym 0x400 (fun _ => usys_S).
Definition a_ssym (n : string) : Z := default 0 (a_smap !! n).

(** The code by physical address: the kernel at 1 MB, the user page at 2 MB. *)
Definition a_text : gmap Z (bool * instr * Z) :=
  list_to_map (prod_map (fun a => a - KERNBASE) id <$> assemble true 0x80100000 (a_kernel a_ksym)) ∪
  list_to_map (prod_map (fun a => 0x200000 + a) id <$> assemble true 0 (a_user a_usym)) ∪
  list_to_map (prod_map (fun a => 0x200000 + a) id <$> assemble true 0x400 usys_S).
Definition a_code : text := fun a => a_text !! a.

Lemma a_swtch_at : placed a_ksym (ktext a_code) (fun _ => 0) true (a_ksym "swtch"%string) swtch_S.
Proof. apply placedb_sound. vm_compute. reflexivity. Qed.
Lemma a_alltraps_at : placed a_ksym (ktext a_code) (fun _ => 0) true (a_ksym "alltraps"%string) (alltraps_S a_ksym ++ trapret_S).
Proof. apply placedb_sound. vm_compute. reflexivity. Qed.
Lemma a_vectors_at : ∃ a, placed a_ksym (ktext a_code) (fun _ => 0) true a (vectors_S a_ksym).
Proof. exists (a_ksym (vector_name 0)). apply placedb_sound. vm_compute. reflexivity. Qed.

#[local] Instance a_hw : Hw := {| hw_in := fun _ _ => 0; hw_min := fun _ _ => 0; hw_cr2 := fun _ => 0 |}.
#[local] Instance a_cpu : Cpu := {| pushes_16 := true |}.
#[local] Instance a_disk : Disk := memide_disk [].
#[local] Instance a_link : Link :=
  {| kend := 0x80300000; kdata := 0x80108000; forkret_sym := a_ksym "forkret"; trapret_sym := a_ksym "trapret"; ts_sym := fun _ => 0x80003100;
     mpenter_sym := 0x80101000; entrypgdir_sym := 0x80109000; vectors := vectors_table a_ksym; initcode := []; entryother := [] |}%string.

(** Two processors with interrupts off, before seginit(). *)
Definition a_mach : mach :=
  let c i := mk_cpu i 0 0 0 None (replicate 6 null_segdesc) (mk_taskstate 0 0 0) 0 0 in mk_mach 0 0 2 [c 0; c 1] ∅.
Definition a_seg : cpu := match seginit a_mach with Ret _ m => default (mk_cpu 0 0 0 0 None [] (mk_taskstate 0 0 0) 0 0) (cpus m !! 0%nat) | _ => mk_cpu 0 0 0 0 None [] (mk_taskstate 0 0 0) 0 0 end.
Definition a_stack : Z := 0x80210000.
Definition a_loaded : cpu := load_tss (R := kres) 0 a_stack a_seg.
Definition a_gdt : list segdesc := busy_tss (gdt a_loaded).
Definition a_idt : list gatedesc :=
  <[64%nat := SETGATE true 8 (a_ksym (vector_name 64)) 3]> ((fun v => SETGATE false 8 v 0) <$> vectors_table a_ksym).

(** Words of memory: the page directory, the page table, the segments, the task
    state and the gates; and the data of the user page. *)
Definition a_words : list (Z * Z) :=
  (0x1000, 0x2007) :: ((fun i => (0x1000 + 4 * (512 + Z.of_nat i), 4194304 * Z.of_nat i + 0x83)) <$> seq 0 56) ++ [(0x2000, 0x200007)] ++
  mjoin (imap (fun i w => [(0x3000 + 8 * Z.of_nat i, fst w); (0x3000 + 8 * Z.of_nat i + 4, snd w)]) (segdesc_words <$> a_gdt)) ++
  [(0x3104, esp0 (ts a_loaded)); (0x3108, ss0 (ts a_loaded))] ++
  mjoin (imap (fun i w => [(0x3800 + 8 * Z.of_nat i, fst w); (0x3800 + 8 * Z.of_nat i + 4, snd w)]) (gatedesc_words <$> a_idt)).
Definition a_bytes : gmap Z Z :=
  list_to_map (a_words ≫= fun '(a, v) => imap (fun i b => (a + Z.of_nat i, b)) (le_encode 4 v)) ∪
  list_to_map (prod_map (fun a => 0x200000 + a) id <$> data_of 0 (a_user a_usym)).
Definition a_mem : mem := fun p => default 0 (a_bytes !! p).
#[local] Opaque a_mem a_code a_ksym a_usym a_ssym.
Definition a_writable (p : Z) : Prop := 0x200000 ≤ p < 0x300000.
Definition a_ctl : ctl := mk_ctl (Z.lor CR0_PE (Z.lor CR0_PG CR0_WP)) 0x1000 CR4_PSE.

Lemma a_large i : 0 ≤ i < 56 → load32 a_mem (0x1000 + 4 * (512 + i)) = 4194304 * i + 0x83.
Proof.
  intros Hi. assert (forallb (fun k => load32 a_mem (0x1000 + 4 * (512 + Z.of_nat k)) =? 4194304 * Z.of_nat k + 0x83) (seq 0 56) = true) as H by (vm_compute; reflexivity).
  rewrite forallb_forall in H. specialize (H (Z.to_nat i)). rewrite Z2Nat.id in H by lia. apply Z.eqb_eq, H, in_seq. lia.
Qed.
Lemma a_kspace m : agree a_writable a_mem m → kspace a_writable a_ctl m.
Proof.
  apply kspace_agree. apply large_kspace; [done..|exact a_large|]. intros p Hp Hw. change (PTE_ADDR (c_cr3 a_ctl)) with 0x1000 in Hp. unfold a_writable in Hw. lia.
Qed.

Lemma table_check (m : mem) a n ws : length ws = n → KERNBASE ≤ a → a + 8 * Z.of_nat n ≤ KERNBASE + 0x100000 →
  forallb (fun i => match ws !! i with Some w => (load32 m (a + 8 * Z.of_nat i - KERNBASE) =? fst w) && (load32 m (a + 8 * Z.of_nat i + 4 - KERNBASE) =? snd w) | None => true end) (seq 0 n) = true →
  table a_writable m (a, 8 * Z.of_nat n - 1) ws.
Proof.
  intros <- H1 H2 H. split; cbn [fst snd]; [unfold kva, PHYSTOP; lia|done|intros x Hx; unfold a_writable; lia|].
  intros i w Hi. rewrite forallb_forall in H. pose proof (lookup_lt_Some _ _ _ Hi). specialize (H i (proj2 (in_seq (length ws) 0 i) ltac:(lia))). rewrite Hi in H. by apply andb_true_iff in H as [?%Z.eqb_eq ?%Z.eqb_eq].
Qed.

(** The first process at its start, and a program about to call getpid(). *)
Definition a_init : xst :=
  mk_xst (frame_regs user_tf PGSIZE) (mk_segs (user_seg 0x1b) (user_seg 0x23) (user_seg 0x23) (user_seg 0) (user_seg 0) (user_seg 0x23)) 0 FL_IF a_ctl
    (0x80003000, 47) (0x80003800, 2047) 0x80003100 a_mem [].
Definition a_prog : xst := a_init <| x_eip := a_ssym "getpid" |> <| x_regs := mk_regs 1 2 3 4 0xf00 6 7 8 |>.

Lemma a_ktables u : x_gdtr u = x_gdtr a_init → x_idtr u = x_idtr a_init → x_tr u = x_tr a_init → x_mem u = a_mem → ktables a_writable u (a_gdt) a_idt (ts a_loaded).
Proof.
  intros E1 E2 E3 E4. split; rewrite ?E1, ?E2, ?E3, ?E4.
  - apply (table_check _ _ 6); [done..|]. vm_compute. reflexivity.
  - repeat split.
  - apply (table_check _ _ 256); [vm_compute; reflexivity|done..|]. vm_compute. reflexivity.
  - change (size_of taskstate_layout) with 104. unfold kva, KERNBASE, PHYSTOP. cbn. lia.
  - change (size_of taskstate_layout) with 104. intros x Hx Hw. unfold a_writable, KERNBASE in *. cbn in *. lia.
  - split; vm_compute; reflexivity.
Qed.

Definition a_booted : kstate := match tvinit (k_state k_blank) with Ret _ k => k | _ => k_state k_blank end.
Lemma a_tvinit : tvinit (k_state k_blank) = Ret tt a_booted.
Proof. unfold a_booted. assert (match tvinit (k_state k_blank) with Ret _ _ => true | _ => false end = true) as H by (vm_compute; reflexivity). by destruct (tvinit _) as [[] | | | |]. Qed.
Lemma a_booted_idt : idt (dev (res a_booted)) = a_idt.
Proof. vm_compute. reflexivity. Qed.

Lemma a_ready u : user_state u → x_ctl u = a_ctl → x_gdtr u = x_gdtr a_init → x_idtr u = x_idtr a_init → x_tr u = x_tr a_init → x_mem u = a_mem → trap_ready a_writable a_ksym u a_stack (a_gdt).
Proof.
  intros U E0 E1 E2 E3 E4. split; [done|rewrite E0, E4; by apply a_kspace| |done|].
  - unfold writable, kva, a_writable, a_stack, KERNBASE, PHYSTOP, KSTACKSIZE. split; [lia|]. intros x Hx. lia.
  - exists (k_state k_blank), a_booted, 0%nat, a_seg. split; [apply a_tvinit|]. split; [reflexivity|]. rewrite a_booted_idt. by apply a_ktables.
Qed.
Lemma a_init_state : user_state a_init.
Proof. split; [done|by intros []|by intros []|done|done]. Qed.
Lemma a_prog_state : user_state a_prog.
Proof. split; [done|by intros []|by intros []|vm_compute; split; congruence|done]. Qed.

(** trap() returns at once. *)
Definition a_return (s : xst) : xst :=
  mk_xst ((x_regs s) <| esp := esp (x_regs s) + 4 |>) (x_segs s) (load32 (x_mem s) (esp (x_regs s) - KERNBASE)) (x_flags s) a_ctl (x_gdtr a_init) (x_idtr a_init) (x_tr a_init) (x_mem s) (x_ports s).
Lemma a_agree u n err s : x_mem u = a_mem → in_trap a_code a_ksym u n err a_stack s → agree a_writable a_mem (x_mem s).
Proof.
  intros Eu I p Hp. rewrite <- Eu. apply (it_mem _ _ _ _ _ _ _ I). intros Hq. apply Hp. unfold a_writable, a_stack, KERNBASE, KSTACKSIZE in *. lia.
Qed.
Lemma a_returned u n err s : x_mem u = a_mem → in_trap a_code a_ksym u n err a_stack s → trap_returned a_writable s (a_return s) (a_gdt).
Proof.
  intros Eu I. pose proof (a_agree u n err s Eu I) as Ha. split; [done..|by apply a_kspace|]. eapply table_agree; [|exact Ha]. exact (kt_gdt _ _ _ _ _ (a_ktables a_init eq_refl eq_refl eq_refl eq_refl)).
Qed.


(** Code that writes only where it may leaves the address space as it is. *)
Lemma a_pgdir : forallb (fun k => let e := load32 a_mem (0x1000 + 4 * Z.of_nat k) in negb (has e PTE_P) || has e PTE_PS || (e =? 0x2007)) (seq 0 1024) = true.
Proof. vm_compute. reflexivity. Qed.
Lemma walk_agree m0 m u w a : agree a_writable m0 m →
  (∀ i, 0 ≤ i < 1024 → let e := load32 m0 (0x1000 + 4 * i) in negb (has e PTE_P) || has e PTE_PS || (e =? 0x2007) = true) →
  xlate a_ctl m u w a = xlate a_ctl m0 u w a.
Proof.
  intros Ha Hd. assert (∀ b k, 0 ≤ b → b + 4096 ≤ 0x200000 → 0 ≤ k < 1024 → load32 m (b + 4 * k) = load32 m0 (b + 4 * k)) as Hl.
  { intros b k H1 H2 Hk. apply load32_ext. intros p Hp. apply Ha. unfold a_writable. lia. }
  assert (∀ x n, 0 ≤ Z.land (Z.shiftr x n) 0x3FF < 1024) as Hx. { intros x n. change 0x3FF with (Z.ones 10). rewrite Z.land_ones by lia. apply Z.mod_pos_bound. lia. }
  unfold xlate. change (PTE_ADDR (c_cr3 a_ctl)) with 0x1000. rewrite Hl by (lia || apply Hx). assert (0 ≤ PDX a < 1024) as Hi by apply Hx. specialize (Hd _ Hi). cbv zeta in Hd. set (e := load32 m0 _) in *.
  change (has (c_cr4 a_ctl) CR4_PSE) with true. destruct (has e PTE_P); [|done]. destruct (has e PTE_PS); [done|]. cbn [negb orb andb] in *. apply Z.eqb_eq in Hd. rewrite Hd. change (PTE_ADDR 0x2007) with 0x2000.
  by rewrite Hl by (lia || apply Hx).
Qed.
Lemma a_xlate m u w a : agree a_writable a_mem m → xlate a_ctl m u w a = xlate a_ctl a_mem u w a.
Proof.
  intros Ha. apply walk_agree; [exact Ha|]. intros i Hi. pose proof a_pgdir as H. rewrite forallb_forall in H. specialize (H (Z.to_nat i)). rewrite Z2Nat.id in H by lia. apply H, in_seq. lia.
Qed.

Lemma a_upage m : agree a_writable a_mem m → upage 0x200000 a_ctl m.
Proof.
  intros Ha. assert (∀ a v, load32 a_mem a = v → 0 ≤ a < 0x100000 → load32 m a = v) as H by (intros a v <- Hr; apply load32_ext; intros p Hp; apply Ha; unfold a_writable; lia).
  apply a_first_page; [done|done|apply H; [vm_compute; reflexivity|lia]..].
Qed.
Lemma ld32_user s a v : upage 0x200000 (x_ctl s) (x_mem s) → 0 ≤ a < 0xf00 + 4 → load32 (x_mem s) (0x200000 + a) = v → ld32 true s a = Some v.
Proof.
  intros Hu Ha <-. assert (∀ b, 0 ≤ b < 4096 → ld8 true s b = Some (x_mem s (0x200000 + b))) as Hb.
  { intros b Hb. unfold ld8. assert (u32 b = b) as -> by (apply Z.mod_small; lia). by rewrite (Hu _ (agree_refl _ _)) by done. }
  unfold ld32. rewrite !Hb by lia. cbn [mbind option_bind]. unfold load32. by rewrite <- !Z.add_assoc.
Qed.

Lemma stub_calls_kernel_witness : ∃ k s1 s2 s3, steps a_code k a_prog = Some s1 ∧ trapno (frame_in (x_mem s1) (tf_at (setup_stack (R := kres) a_stack zero_proc))) = T_SYSCALL ∧
  trap_returned a_writable s1 s2 (a_gdt) ∧ steps a_code 9 s2 = Some s3 ∧ x_eip s3 = 0.
Proof.
  destruct (stub_calls_kernel a_writable a_code a_ksym a_ssym a_alltraps_at a_vectors_at "getpid" a_prog a_stack (a_gdt) 0) as (_ & k & s1 & u2 & E & Em & I & SF & H).
  - repeat (first [left; reflexivity | right]).
  - apply a_ready; [apply a_prog_state|done..].
  - split; reflexivity.
  - reflexivity.
  - exists 0x400, (fun _ => 0). apply placedb_sound. vm_compute. reflexivity.
  - vm_compute. reflexivity.
  - assert (x_mem u2 = a_mem ∧ x_segs u2 = x_segs a_prog) as [Eu Es] by (rewrite Em; split; reflexivity). clear Em.
    pose proof (a_returned u2 64 0 s1 Eu I) as T. pose proof (a_agree u2 64 0 s1 Eu I) as Ha. destruct (H (a_return s1) (SYS "getpid") T) as (s3 & E3 & E4 & _).
    + pose proof (sf_number _ _ _ SF) as N. cbn [x_mem a_return]. destruct (frame_in _ _). cbn in N. rewrite N. reflexivity.
    + rewrite (it_frame _ _ _ _ _ _ _ I). unfold user_frame. rewrite Es. split; first [reflexivity | (right; right; reflexivity) | (left; reflexivity)].
    + intros a. unfold utext, fetch_at. cbn [x_ctl x_mem a_return]. rewrite (a_xlate _ true false a Ha). reflexivity.
    + apply ld32_user; [exact (a_upage _ Ha)|done|]. rewrite (load32_ext _ a_mem); [vm_compute; reflexivity|]. intros p Hp. rewrite <- Eu. apply (it_mem _ _ _ _ _ _ _ I). unfold a_stack, KERNBASE in *. cbn [esp x_regs a_prog] in Hp. cbn in Hp. lia.
    + exists k, s1, (a_return s1), s3. split; [exact E|]. split; [exact (sf_trapno _ _ _ SF)|]. split; [exact T|]. split; [exact E3|exact E4].
Defined.


(** ** Switching threads *)

(** Two threads with stacks at 0x80220000 and 0x80230000: the first is about to
    call swtch(0x80240000, 0x8022ffec), and the context of the second is at the
    second argument. *)
Definition a_thread (ip esp : Z) (m : mem) : xst :=
  mk_xst (mk_regs 0 0 0 11 esp 12 13 14) (mk_segs kcs kds kds (mk_seg 0 0 true) (mk_seg 0 0 true) kds) ip 2 a_ctl (0x80003000, 47) (0x80003800, 2047) 0x80003100 m [].
Definition a_switch : mem := store32 (store32 (store32 (store32 a_mem 0x220000 0x80101000) 0x220004 0x80240000) 0x220008 0x8022ffec) 0x22fffc 0x80102000.
Definition a_switch_back (m : mem) (saved : Z) : mem := store32 (store32 (store32 m 0x230000 0x80103000) 0x230004 0x80240004) 0x230008 saved.

Lemma a_agree_store m a v : agree a_writable a_mem m → 0x200000 ≤ a → a + 4 ≤ 0x300000 → agree a_writable a_mem (store32 m a v).
Proof. intros Ha H1 H2 p Hp. rewrite store32_ne by (unfold a_writable in Hp; lia). by apply Ha. Qed.
Lemma a_area a n : 0x80200000 ≤ a → 0 ≤ n → a + n ≤ 0x80300000 → writable a_writable a n.
Proof. intros. unfold writable, kva, a_writable, KERNBASE, PHYSTOP. split; [lia|]. intros x Hx. lia. Qed.

Lemma a_swtch_call m e old new : agree a_writable a_mem m → 0x80200010 ≤ e → e + 12 ≤ 0x80300000 → 0x80200000 ≤ old → old + 4 ≤ 0x80300000 → 0x80200000 ≤ new → new + 20 ≤ 0x80300000 →
  load32 m (e + 4 - KERNBASE) = old → load32 m (e + 8 - KERNBASE) = new → apart old 4 (e - 16) 28 ∧ apart new 20 (e - 16) 28 ∧ apart new 20 old 4 →
  swtch_call a_writable a_ksym (a_thread (a_ksym "swtch"%string) e m) old new.
Proof.
  intros Ha E1 E2 O1 O2 N1 N2 L1 L2 A. split; cbn [x_regs x_mem esp a_thread]; try done.
  - by apply a_kspace.
  - intros []; cbn; lia.
  - apply a_area; lia.
  - eapply writable_kva, (a_area e 12); lia.
  - apply a_area; lia.
  - eapply writable_kva, (a_area new 20); lia.
Qed.

Lemma swtch_roundtrip_witness : ∃ s1 s1' s2 s2', steps a_code 13 s1 = Some s1' ∧ x_eip s1' = 0x80102000 ∧ steps a_code 13 s2 = Some s2' ∧ resumes (mk_context 14 13 11 12 0x80101000) 0x80220004 s2'.
Proof.
  assert (agree a_writable a_mem a_switch) as Ha by (repeat (apply a_agree_store; [|lia..]); apply agree_refl).
  destruct (swtch_roundtrip a_writable a_code a_ksym a_swtch_at (a_thread (a_ksym "swtch"%string) 0x80220000 a_switch) 0x80240000 0x8022ffec) as (s1' & E & R & S & M & H).
  - apply a_swtch_call; [exact Ha|lia..|reflexivity|reflexivity|unfold apart; lia].
  - cbv zeta in M, H. rewrite S in M, H. change (esp (x_regs (a_thread _ _ _)) - 16) with 0x8021fff0 in M, H. assert (agree a_writable a_mem (x_mem s1')) as Ha'.
    { intros p Hp. rewrite M; [by apply Ha|unfold a_writable, KERNBASE in *; lia..]. }
    assert (∀ p, 0x21fff0 ≤ p < 0x220004 → a_switch_back (x_mem s1') 0x8021fff0 p = x_mem s1' p) as Hk by (intros p Hp; unfold a_switch_back; rewrite !store32_ne by lia; reflexivity).
    destruct (H (a_thread (a_ksym "swtch"%string) 0x80230000 (a_switch_back (x_mem s1') 0x8021fff0)) 0x80240004) as (s2' & E2 & R2).
    + apply a_swtch_call; [unfold a_switch_back; repeat (apply a_agree_store; [|lia..]); exact Ha'|lia..| | |unfold apart; lia].
      * change (0x80230000 + 4 - KERNBASE) with 0x230004. unfold a_switch_back. rewrite load_store32_ne, load_store32 by lia. reflexivity.
      * change (0x80230000 + 8 - KERNBASE) with 0x230008. unfold a_switch_back. rewrite load_store32. reflexivity.
    + intros p Hp. apply Hk. unfold KERNBASE in Hp. lia.
    + eexists _, s1', _, s2'. split; [exact E|]. split; [destruct R as (_ & _ & _ & _ & R & _); rewrite R; vm_compute; reflexivity|]. split; [exact E2|]. exact R2.
Defined.

(** ** A new process *)

Definition a_new : proc := (setup_stack (R := kres) 0x80220000 zero_proc) <| tf := user_tf |>.
(** Its kernel stack, and the stack of the scheduler at 0x80230000. *)
Definition a_new_mem : mem :=
  let w o v m := store32 m (0x220fb4 + o) v in
  w 72 0x23 (w 68 4096 (w 64 FL_IF (w 60 0x1b (w 44 0x23 (w 40 0x23 (w (-4) (a_ksym "trapret"%string) (w (-8) (a_ksym "forkret"%string)
  (store32 (store32 a_mem 0x230004 0x80240000) 0x230008 (context_at a_new))))))))).

Lemma new_process_enters_user_witness : ∃ s s1 s2 s3, steps a_code 13 s = Some s1 ∧ x_eip s1 = a_ksym "forkret"%string ∧ steps a_code 7 s2 = Some s3 ∧ user_runs user_tf s3.
Proof.
  assert (agree a_writable a_mem a_new_mem) as Ha by (repeat (apply a_agree_store; [|lia..]); apply agree_refl).
  assert (kstack_in a_new_mem a_new) as Hk by (split; vm_compute; reflexivity).
  destruct (new_process_enters_user (LK := a_link) a_writable a_code a_ksym a_swtch_at a_alltraps_at eq_refl eq_refl (a_thread (a_ksym "swtch"%string) 0x80230000 a_new_mem) 0x80240000 0x80220000 zero_proc user_tf (a_gdt)) as (s1 & E & Hf & Hs & K & H).
  - unfold kva, KERNBASE, PHYSTOP, KSTACKSIZE. lia.
  - change (context_at _) with 0x80220f9c. apply a_swtch_call; [exact Ha|lia..|vm_compute; reflexivity|vm_compute; reflexivity|unfold apart; lia].
  - unfold apart, KSTACKSIZE. lia.
  - unfold apart, KSTACKSIZE. cbn. lia.
  - exact Hk.
  - destruct (H (mk_xst ((x_regs s1) <| esp := esp (x_regs s1) + 4 |>) (x_segs s1) (load32 (x_mem s1) (esp (x_regs s1) - KERNBASE)) 0 a_ctl (x_gdtr a_init) (x_idtr a_init) 0 a_new_mem [])) as (s3 & E3 & U & _).
    + split; [reflexivity|reflexivity|reflexivity|exact (a_kspace _ Ha)| |exact (ki_tf _ _ Hk)]. exact (table_agree _ _ _ _ _ (kt_gdt _ _ _ _ _ (a_ktables a_init eq_refl eq_refl eq_refl eq_refl)) Ha).
    + repeat split.
    + split; first [reflexivity | (right; right; reflexivity) | (left; reflexivity)].
    + eexists _, s1, _, s3. split; [exact E|]. split; [exact Hf|]. split; [exact E3|exact U].
Defined.

(** ** Switching address spaces *)

(** The kernel may write its tables, but not the page tables. *)
Definition a_kernel_data (p : Z) : Prop := 0x3000 ≤ p < 0x300000.
Definition a_before : mem := store32 a_mem 0x302c (snd (segdesc_words (tss_desc 0x80003100))).

Lemma a_before_space : kspace a_kernel_data a_ctl a_before.
Proof.
  apply large_kspace; [done..| |].
  - intros i Hi. unfold a_before. change (PTE_ADDR (c_cr3 a_ctl)) with 0x1000. rewrite load_store32_ne by lia. by apply a_large.
  - intros p Hp Hw. change (PTE_ADDR (c_cr3 a_ctl)) with 0x1000 in Hp. unfold a_kernel_data in Hw. lia.
Qed.
Lemma a_before_words : forallb (fun i => match (segdesc_words <$> gdt a_loaded) !! i with
  | Some w => (load32 a_before (0x80003000 + 8 * Z.of_nat i - KERNBASE) =? fst w) && (load32 a_before (0x80003000 + 8 * Z.of_nat i + 4 - KERNBASE) =? snd w) | None => true end) (seq 0 6) = true.
Proof. vm_compute. reflexivity. Qed.

Lemma switchuvm_loads_witness : ∃ s s1, x_mem s = a_before ∧ ltr 40 s = Some s1 ∧ x_tr s1 = 0x80003100 ∧ kspace a_writable (x_ctl (lcr3 0x1000 s1)) (x_mem s1).
Proof.
  destruct (switchuvm_loads a_writable a_kernel_data (a_thread 0x80100000 0x80220000 a_before) 0 a_stack 0x80001000 a_seg a_idt) as (s1 & E & Hk & _ & _ & Hr & _).
  - split; cbn [x_ctl x_mem x_gdtr x_idtr a_thread fst snd].
    + exact a_before_space.
    + exact a_before_space.
    + intros p Hp. unfold a_writable, a_kernel_data in *. lia.
    + reflexivity.
    + unfold writable, kva, a_writable, a_kernel_data, KERNBASE, PHYSTOP. split; [split; [lia|intros x Hx; lia]|intros x Hx; lia].
    + split; [vm_compute; reflexivity|repeat split].
    + intros j w Hj. pose proof a_before_words as H. rewrite forallb_forall in H. pose proof (lookup_lt_Some _ _ _ Hj) as Hl. change (length (segdesc_words <$> gdt (load_tss 0 a_stack a_seg))) with 6%nat in Hl.
      specialize (H j (proj2 (in_seq 6 0 j) ltac:(lia))). change (gdt (load_tss 0 a_stack a_seg)) with (gdt a_loaded) in Hj. rewrite Hj in H. apply andb_true_iff in H as [H1 H2]. split; apply Z.eqb_eq; [exact H1|exact H2].
    + apply (table_check _ _ 256); [vm_compute; reflexivity|done..|]. vm_compute. reflexivity.
    + change (ts_sym 0) with 0x80003100. unfold kva, a_writable, KERNBASE, PHYSTOP. split; [lia|intros x Hx; lia].
    + split; vm_compute; reflexivity.
    + change (ts_sym 0) with 0x80003100. unfold apart. split; left; vm_compute; congruence.
  - eexists _, s1. split; [|split; [exact E|]]; [reflexivity|]. split; [exact Hr|exact Hk].
Defined.
