(* ===== verification/BootExamples.v ===== *)
(** * Booting a machine

    The theorems on the boot code applied at concrete machines, assembled with
    the assembler of AsmExamples. *)

From S2P Require Import Prelude Machine Spinlock CString ProcTable Proc Lifecycle Kstate.
From S2P Require Import Sleeplock Devices Disk Bio Layout Log Inode Console Kbd Fs Kalloc File Vm PageTable Env Exec Bootmain Syscall Trap Boot.
From S2P Require Import X86 X86Lemmas Trapasm BootAsm Examples KernelExamples AsmExamples.

#[local] Instance o_cpu : Cpu := {| pushes_16 := true |}.

(** ** The boot sector *)

Definition o_bmap : gmap string Z := list_to_map (("bootmain"%string, 0x7d00) :: labels 0x7c00 (bootasm_S (fun _ => 0))).
Definition o_bsym (n : string) : Z := default 0 (o_bmap !! n).
Definition o_btext : gmap Z (bool * instr * Z) := list_to_map (assemble false 0x7c00 (bootasm_S o_bsym)).
Definition o_bcode : text := fun a => o_btext !! a.
Definition o_bdata : gmap Z Z := list_to_map (data_of 0x7c00 (bootasm_S o_bsym)).
Definition o_bios : xst :=
  mk_xst (mk_regs 1 2 3 4 5 6 7 8) (mk_segs (mk_seg 0 0 false) (mk_seg 0x40 0x400 false) (mk_seg 0 0 false) (mk_seg 0 0 false) (mk_seg 0 0 false) (mk_seg 0 0 false))
    0x7c00 FL_IF (mk_ctl 0 0 0) (0, 0) (0, 0) 0 (fun p => default 0xFF (o_bdata !! p)) [].


(** ** entry.S *)

#[local] Instance o_hw : Hw := {| hw_in := fun _ _ => 0; hw_min := fun _ _ => 0; hw_cr2 := fun _ => 0 |}.

Definition o_emap : gmap string Z :=
  list_to_map ([("main", 0x80102000); ("stack", 0x8010a000); ("entrypgdir", 0x80109000)]%string ++ labels 0x8010000c (entry_S (fun _ => 0))).
Definition o_esym (n : string) : Z := default 0 (o_emap !! n).
Definition o_etext : gmap Z (bool * instr * Z) := list_to_map (prod_map (fun a => a - KERNBASE) id <$> assemble true 0x8010000c (entry_S o_esym)).
Definition o_ecode : text := fun a => o_etext !! a.
(** The words of the page table are at 0x109000. *)
Definition o_pgdir : gmap Z Z := list_to_map (mjoin (imap (fun i e => imap (fun j b => (0x109000 + 4 * Z.of_nat i + Z.of_nat j, b)) (le_encode 4 e)) entrypgdir)).
Definition o_emem : mem := fun p => default 0 (o_pgdir !! p).
Definition o_loaded : xst := mk_xst (mk_regs 1 2 3 4 0x7c00 6 7 8) boot_segs 0x10000c 2 (mk_ctl CR0_PE 0 0) (0x7c80, 23) (0, 0) 0 o_emem [].

Lemma o_pgdir_at m : (∀ p, 0x109000 ≤ p < 0x10a000 → m p = o_emem p) → pgdir_at m 0x109000.
Proof.
  intros Hm i e Hi. assert (forallb (fun i => load32 o_emem (0x109000 + 4 * Z.of_nat i) =? default (-1) (entrypgdir !! i)) (seq 0 1024) = true) as H by (vm_compute; reflexivity).
  rewrite forallb_forall in H. specialize (H i). rewrite Hi in H. pose proof (lookup_lt_Some _ _ _ Hi) as Hl. change (length entrypgdir) with 1024%nat in Hl.
  specialize (H (proj2 (in_seq 1024 0 i) ltac:(lia))). change (default (-1) (Some e)) with e in H. apply Z.eqb_eq in H. rewrite <- H. apply load32_ext. intros p Hp. apply Hm. lia.
Qed.

Lemma entry_reaches_main_witness : ∃ s', steps o_ecode 11 o_loaded = Some s' ∧ x_eip s' = 0x80102000 ∧ xlate (x_ctl s') (x_mem s') false true 0x80200000 = Some 0x200000.
Proof.
  destruct (entry_reaches_main o_ecode o_esym o_loaded) as (s' & E & E1 & _ & _ & _ & H & _).
  - split; [reflexivity|split; reflexivity|reflexivity| | | |].
    + apply placedb_sound. vm_compute. reflexivity.
    + vm_compute. repeat split; congruence.
    + apply o_pgdir_at. reflexivity.
    + vm_compute. repeat split; congruence.
  - exists s'. split; [exact E|]. split; [exact E1|]. rewrite H by lia. reflexivity.
Defined.

(** ** entryother.S *)

#[local] Instance o_fuel : Fuel := 8%nat.
#[local] Instance o_link : Link :=
  {| kend := 0x80120000; kdata := 0x80108000; forkret_sym := 0; trapret_sym := 0; ts_sym := fun _ => 0;
     mpenter_sym := 0x80103000; entrypgdir_sym := 0x80109000; vectors := []; initcode := []; entryother := [] |}.

Definition o_omap : gmap string Z := list_to_map (labels 0x7000 (entryother_S (fun _ => 0))).
Definition o_osym (n : string) : Z := default 0 (o_omap !! n).
Definition o_otext : gmap Z (bool * instr * Z) := list_to_map (assemble false 0x7000 (entryother_S o_osym)).
Definition o_ocode : text := fun a => o_otext !! a.
Definition o_odata : gmap Z Z := list_to_map (data_of 0x7000 (entryother_S o_osym)).
Definition o_omem : mem := fun p => if p <? 0x8000 then default 0 (o_odata !! p) else o_emem p.

(** The data of a source is where another memory agrees with it; -1 is no byte. *)
Lemma placed_mem sym at_ m m' md a l : placed sym at_ m md a l → (∀ p, m p ≠ -1 → m' p = m p) →
  Forall (fun x => match x with Bytes d => Forall (fun b => b ≠ -1) d | _ => True end) l → placed sym at_ m' md a l.
Proof.
  intros H Hm Hl. revert md a H. induction Hl as [|[n|i|k t|d|n| |] l Hx Hl IH]; intros md a H; cbn [placed] in *; [done|..|by apply IH|by apply IH|by apply IH].
  - destruct H. eauto.
  - destruct H as (n & ? & ?). eauto.
  - destruct H as (n & ? & ?). eauto.
  - destruct H as [H1 H2]. split; [|by apply IH]. intros i b Hi. rewrite <- (H1 i b Hi). apply Hm. rewrite (H1 i b Hi). by apply (proj1 (Forall_lookup _ _) Hx i).
Qed.

(** The first of two processors, with the free page 0x80300000 and the code at
    0x7000. *)
Definition o_mach : mach :=
  let c i := mk_cpu i 0 0 0 None (replicate 6 null_segdesc) (mk_taskstate 0 0 0) 0 0 in mk_mach 0 0 2 [c 0; c 1] ∅.
Definition o_boot : kstate := (k_state k_blank) <| machine := o_mach |> <| res := k_blank <| use_lock := 0 |> <| freelist := 0x80300000 |> <| pmem := o_omem |> |>.
(** The second one, woken. *)
Definition o_woken (m : mem) : xst :=
  mk_xst (mk_regs 0 0 0 0 0 0 0 0) (mk_segs (mk_seg 0x700 0x7000 false) (mk_seg 0 0 false) (mk_seg 0 0 false) (mk_seg 0 0 false) (mk_seg 0 0 false) (mk_seg 0 0 false))
    0 2 (mk_ctl 0 0 0) (0, 0) (0, 0) 0 m [].

Lemma started_cpu_reaches_mpenter_witness : ∃ k' C s', start_cpu 1 o_boot = Wait (Spin 1) k' C ∧ steps o_ocode 27 (o_woken (pmem (res k'))) = Some s' ∧ at_mpenter (o_woken (pmem (res k'))) s' 0x80300000.
Proof.
  destruct (started_cpu_reaches_mpenter o_ocode o_osym 1 o_boot 0 (default (mk_cpu 0 0 0 0 None [] (mk_taskstate 0 0 0) 0 0) (cpus o_mach !! 1%nat))) as (k' & C & E & M & H).
  - reflexivity.
  - done.
  - reflexivity.
  - reflexivity.
  - reflexivity.
  - unfold fuel, o_fuel. lia.
  - vm_compute. split; congruence.
  - change WRV with 0x467 in M. destruct (H (o_woken (pmem (res k'))) eq_refl) as (s' & E2 & A).
    + split; cbn [x_mem o_woken]; [reflexivity..| |vm_compute; congruence|reflexivity| |vm_compute; split; congruence|left; vm_compute; congruence].
      * apply (placed_mem _ _ (fun p => if 0x7000 <=? p then o_omem p else -1)); [apply placedb_sound; vm_compute; reflexivity| |vm_compute; repeat constructor; congruence].
        intros p Hp. destruct (Z.leb_spec 0x7000 p); [|done]. apply M; lia.
      * change (V2P entrypgdir_sym) with 0x109000. apply o_pgdir_at. intros p Hp. rewrite M by lia. change (pmem (res o_boot) p) with (o_omem p). unfold o_omem. rewrite (proj2 (Z.ltb_ge _ _)) by lia. reflexivity.
    + exists k', C, s'. split; [exact E|]. split; [exact E2|exact A].
Defined.
